(* ===== verification/_CoqProject ===== *)
-Q . S2P
Prelude.v
Pid.v
Sync.v
Arch.v
Frames.v
Elf.v
Supply.v
Stack.v
ElfLoad.v
ElfBoot.v
Heap.v
Vm.v
Tables.v
Owners.v
Context.v
Resource.v
Data.v
Process.v
Manager.v
Text.v
Utils.v
Listing.v
Syscall.v
UserHeap.v
Scheduler.v
KernelExample.v
ProcessList.v
RoundRobin.v
Lifecycle.v
Fork.v
Dispatch.v
Reachable.v
SyscallFacts.v
Clients.v
Mq.v
Fish.v
Counter.v
CounterMain.v
Refine.v
Config.v
Boot.v
UserLib.v
Input.v
Apps.v
Console.v
Apic.v
Segments.v
Start.v
Helpers.v
Effects.v
Spaces.v
Isolation.v
Untouched.v
Rings.v
Exit.v
Teardown.v
ForkReturns.v
ForkApp.v
Runtime.v
UserPrint.v
Hello.v
BrkApp.v
