(* ===== verification/Prelude.v ===== *)
(** A verification of the YatSenOS kernel (the Rust workspace of this repository).

    The program.  A UEFI boot loader ([pkg/boot]) loads the kernel
    ([pkg/kernel]), which runs user programs ([pkg/app], on [pkg/lib]) as
    processes with their own page tables: it schedules them round-robin on the
    timer interrupt, serves their system calls ([pkg/syscall] has the numbers),
    grows their stacks on page faults, forks them, and lets them wait for each
    other and for semaphores.  The development models all of these: the boot
    loader up to the hand-over, the kernel's start, its devices, its process
    manager and everything below it that keeps state, the user library, and the
    applications as its clients.

    How it is modelled.  Operations are functions of a state and outcome monad,
    [M S A := S → outcome (A * S)]: [Done] carries the result and the new
    state, [Panic] is a Rust panic (an [unwrap] of [None], a failed assertion,
    an overflow that is checked, an index out of range), and [OutOfFuel] marks
    the end of the fuel of the loops that need some: [Stack::fork]'s (below);
    [switch_next]'s, which takes an element of the ready queue in every
    round and gets one unit more than the queue is long; the line readers',
    which take a key or an answer in every round; and those that wait for a device or
    for a process, whose theorems give a bound on the rounds.  Integers are [Z]; an
    operation that can leave its width goes through [word_op], which panics or
    wraps as the build profile says ([Profile]: [debug] checks overflow and
    assertions, [release], which the Makefile builds, does neither).  A
    component runs on its own part of the state and is lifted with [zoom].
    The names are those of the source; a mutated object is an explicit state,
    and what is shared between processes (page tables, the end of a heap, the
    process data) is a store indexed by the name of the [Arc].

    What is not in the repository is a parameter: the [x86_64] crate's address
    arithmetic, page-table mapper and allocator traits ([Arch]), the
    [crossbeam] queue ([Resource]), the user allocator ([Syscall]).  Each is a
    type class with a class of laws that state its documentation, and each has
    a small concrete instance on which the witnesses compute.

    The files, each the model of its sources followed by its theorems:

    - [Prelude]: the monad, profiles, word arithmetic, the tactic [inv_done]
      that takes a successful run apart, runs that return.
    - [Arch]: the [x86_64] interface: addresses, pages, frames, mappers.
    - [Pid]: [proc/pid.rs], [proc/processor.rs].  Identifiers are fresh for the
      first 65535 processes; then they wrap to the reserved 0.
    - [Sync]: [proc/sync.rs].  A semaphore refines the abstract one: permits
      are granted in the order of the requests, as many as permits and signals.
    - [Frames]: [memory/frames.rs], [memory/address.rs], [memory/mod.rs].
      Frames are conserved: none is handed out twice.
    - [Elf]: [pkg/elf]: mapping and unmapping ranges of pages, and loading the
      segments of a program.
    - [Supply]: allocators that still have frames, and that mapping vacant pages
      succeeds with four for each.
    - [Stack]: [proc/vm/stack.rs]: growth on page faults, fork (search of a
      free slot, copy), clean-up.  The fuel [fork_fuel] is 2^16 + 2 rounds; the
      search goes down 4 GiB at a time, so it ends within 2^16 + 1.
    - [Heap]: [proc/vm/heap.rs]: [brk] and clean-up.
    - [Vm]: [proc/paging.rs], [proc/vm/mod.rs]: page tables with reference
      counts, the memory of a process, its drop.
    - [Tables]: the mapper seen from the frames: who owns the tables, what two
      address spaces share after a level-4 table is copied, and which pages an entry for a
      larger page translates, as in the direct map of physical memory; with a reference mapper.
      [Owners]: the invariant that every frame is free, a table, or one user page of
      one address space, and that the operations on stacks, heaps and programs keep
      it; they also keep the mappings and the memory of any address space that is
      watched meanwhile and is not the one they work on.
    - [Context]: [proc/context.rs], [utils/regs.rs]: registers, and the entry
      and exit code of the interrupt handlers.
    - [Resource], [Data]: [utils/resource.rs], [drivers/input.rs],
      [proc/data.rs]: descriptors, the keyboard buffer, the data processes
      share.
    - [Process]: [proc/process.rs], and the kernel's state [Kernel]: memory,
      shared data, the next pid, the CPU cells, the processes behind their
      [Arc]s, the process table, ready queue and wait queues.
    - [Manager]: [proc/manager.rs], [proc/mod.rs]: every operation of the
      process manager and of the interface the interrupts use.
    - [Syscall]: [interrupt/syscall], [interrupt/clock.rs],
      [interrupt/serial.rs], the page-fault handler of
      [interrupt/exception.rs], [pkg/syscall]: the calls, with user buffers
      read and written through the loaded page table.
    - [Utils], [UserHeap]: [humanized_size] of [utils/mod.rs]; the region of
      the user heap, [memory/user.rs].
    - [Listing]: the text of the process list, with the numbers formatted as
      [core::fmt] does.  [ProcessList]: that the pids can be read back from it,
      and when printing it stops the kernel.
    - [Scheduler]: the invariant [wf] of the process table, and that every
      operation of [Manager] keeps it.  [KernelExample]: a test for it by
      computation, and a small kernel for the examples.
    - [RoundRobin]: what one timer interrupt does; that no ready process
      starves; that preemption is invisible; what happens when a killed process
      is woken.
    - [Lifecycle]: exit, kill, [wait_pid] and semaphores between processes, down
      to the registers they continue with.
    - [Fork]: what parent and child continue with; the inverted assertion.
    - [Dispatch]: what a system call that returns has done: it kept all
      processes as they are, or was one of seven operations of [Manager]; the
      invariants go through the dispatcher by these cases.
    - [Reachable]: the kernel as a transition system, [step]: timer interrupts, system calls and
      stores of the running program, keys, page faults, new processes; and its
      reachable states: [wf] holds and the kernel's own process can always run.
    - [SyscallFacts]: call numbers, reading and writing the standard streams,
      and the calls that stop the kernel.
    - [ElfLoad], [ElfBoot]: what a loaded program reads, byte for byte; the boot
      loader's direct map and the mapping and unmapping of the kernel's own
      segments, in place.
    - [Text]: Rust's strings as far as the program uses them: UTF-8, trimming,
      splitting, numbers.
    - [Config], [Boot]: [pkg/boot]: the parser of [boot.conf], with its round trip,
      and [efi_main] over the UEFI services.
    - [Console]: [drivers/uart16550.rs], [drivers/serial.rs],
      [utils/macros.rs], [utils/logger.rs], the banner: what reaches the serial line, and
      that a panic is heard.
    - [Apic]: [interrupt/apic], the interrupt descriptor table with the
      registration of every handler, the stacks of [memory/gdt.rs]: that every
      interrupt the devices send, and [int 0x80], arrives at its handler on its stack.
    - [Segments]: the descriptor table, its selectors and the segment registers of
      [memory/gdt.rs], over the [x86_64] crate's table as an interface.
    - [Start]: [lib.rs], [main.rs]: all initialisers in their order, that they return on a
      machine with enough frames, and the wait for the shell.
    - [Helpers]: [utils/func.rs], [utils/clock.rs], [utils/uefi.rs] and [microdelay]:
      the test loop that prints, the calendar clock, the busy wait.
    - [Input]: the kernel's own line editor, [get_line].
    - [UserLib]: [pkg/lib]: the system calls as user programs make them, met with the
      kernel's dispatcher; [read_line].
    - [Clients]: user processes as clients of the semaphores: [turn] is one
      step of one of them, and a schedule is any sequence of turns.
      [Refine]: the kernel's [sem_wait], [sem_signal] and [switch] are these turns.
    - [Mq], [Counter], [Fish]: the applications with threads, proved for every
      schedule: the message queue never overflows and loses nothing, the
      counters are exact, the fish are whole; and the dining philosophers, whose
      semaphores nobody creates.  [CounterMain]: all of the counter program, with
      the forks and the waiting of its ten processes.
    - [Apps]: the shell's commands and the factorial.
    - [Effects]: what a step does to the memories of the processes: at most one
      operation, between calm ones.
    - [Isolation]: processes share no memory in user space but with their forks, in
      every reachable state, as long as the stacks stay there.
    - [Untouched]: what a process has in user space is kept, where it is and as it
      is, in every run in which no process on its page table runs or ends.
    - [Spaces]: the address spaces of all processes as an invariant of [step]:
      page tables with as many references as processes, and CR3; so the timer
      interrupt never fails.
    - [Rings]: user code runs in ring 3, in every reachable state.
    - [Exit]: the end of a process: who runs next and what its waiters see, in
      either order of [exit] and [wait_pid].
    - [Teardown]: giving a process memory back comes to an end, so [exit] returns; and what is
      given back: pages, page tables and their frames.
      [ForkReturns]: with enough frames and a free slot for the stack, [fork] returns.
    - [ForkApp]: [app/fork] on the kernel, call by call, with the timer in
      between.  [Runtime]: the entry of user programs, [sleep], and [sys_brk] as a program
      sees it.  [Hello]: all of [app/hello], its large array with the page fault included.
      [BrkApp]: all of [app/brk].
    - [UserPrint]: printing, panics and the allocator of [pkg/lib], from the
      text in the memory of the program to the console.

    Theorems of the form "the operation gives ... and then ..." are total; where an
    operation can panic because the allocator or the mapper does, the theorem
    says that it returns when they do ([mapping_returns]) and what it does
    whenever it returns.  Those on [fork] say what it does whenever it returns;
    that it does is [ForkReturns].

    Interrupts are disabled in every operation and there is one CPU, so each
    handler is one step, and the spin locks are free when they are taken; a
    handler that would spin for ever on a lock it holds counts as a panic.
    Log output (outside [Console]) and debug formatting are left out.  A page
    table is its mapping; which level-3 tables the copy of a level-4 table shares
    with it, and which frames hold tables, is in [Tables] only.

    The kernel uses the pointers of system calls as they are.  [Untouched] is
    therefore about runs whose reads have their buffers in user space, and whose programs store
    there; user space are the level-4 entries between the identity map of the firmware and the heap
    of [memory/user.rs], which all processes share.  It is about
    writing only: frames are not cleared before they are mapped again.

    Programs that print are given the address at which their allocator puts the text, which is
    then stored through their page table; the calls by which they get and return that memory are left out.

    Not modelled: what [app/fork] prints; [grow_stack] of [lib.rs], which writes
    down its own stack to provoke page faults. *)
From stdpp Require Export base tactics list gmap numbers sets.
From Stdlib Require Export ZArith Lia.

#[global] Open Scope Z_scope.

(** * Outcomes of kernel code *)

(** What running a piece of Rust code can give: a value, a panic (the kernel's
    panic handler never returns, so the state is of no further interest), or,
    for the loops whose bound is not structural, exhausted fuel. *)
Inductive outcome (A : Type) : Type :=
  | Done (a : A)
  | Panic
  | OutOfFuel.
Arguments Done {A} a.
Arguments Panic {A}.
Arguments OutOfFuel {A}.

(** Rust's [Result]. *)
Inductive result (A E : Type) : Type :=
  | Ok (a : A)
  | Err (e : E).
Arguments Ok {A E} a.
Arguments Err {A E} e.

(** Code that reads and writes a state of type [S] and may panic. *)
Definition M (S A : Type) : Type := S → outcome (A * S).

#[global] Instance M_ret {S} : MRet (M S) := λ A a s, Done (a, s).
#[global] Instance M_bind {S} : MBind (M S) := λ A B f m s,
  match m s with
  | Done (a, s') => f a s'
  | Panic => Panic
  | OutOfFuel => OutOfFuel
  end.

Definition panic {S A} : M S A := λ _, Panic.
Definition out_of_fuel {S A} : M S A := λ _, OutOfFuel.
Definition get {S} : M S S := λ s, Done (s, s).
Definition gets {S A} (f : S → A) : M S A := λ s, Done (f s, s).
Definition put {S} (s : S) : M S () := λ _, Done ((), s).
Definition modify {S} (f : S → S) : M S () := λ s, Done ((), f s).

(** [Option::unwrap] and [Option::expect]. *)
Definition unwrap {S A} (o : option A) : M S A :=
  match o with Some a => mret a | None => panic end.

(** A computation on a part of the state. *)
Definition zoom {S T A} (proj : S → T) (upd : T → S → S) (m : M T A) : M S A := λ s,
  match m (proj s) with
  | Done (a, t) => Done (a, upd t s)
  | Panic => Panic
  | OutOfFuel => OutOfFuel
  end.

Declare Scope kernel_scope.
Delimit Scope kernel_scope with kernel.
#[global] Open Scope kernel_scope.

(** [x ←? m; k] is [let x = m?; k]: an [Err] returns early. *)
Notation "x ←? m ; k" :=
  (mbind (λ r, match r with Ok x => k | Err e => mret (Err e) end) m)
  (at level 20, m at level 100, k at level 200, right associativity,
   format "x  ←?  m ;  '/' k") : kernel_scope.

(** The state a run ends in, and [s] if it does not end. *)
Definition state_of {S A} (o : outcome (A * S)) (s : S) : S :=
  match o with Done (_, s') => s' | _ => s end.

Definition value_of {S A} (o : outcome (A * S)) : option A :=
  match o with Done (a, _) => Some a | _ => None end.

Lemma value_state {S A} (o : outcome (A * S)) a s :
  value_of o = Some a → o = Done (a, state_of o s).
Proof. by destruct o as [[]| |]; intros [= ->]. Qed.

(** ** Reasoning about outcomes *)

Lemma bind_Done {S A B} (m : M S A) (f : A → M S B) s b s'' :
  (m ≫= f) s = Done (b, s'') ↔ ∃ a s', m s = Done (a, s') ∧ f a s' = Done (b, s'').
Proof.
  unfold mbind, M_bind. split.
  - destruct (m s) as [[a s']| |] eqn:E; try discriminate. eauto.
  - intros (a & s' & -> & H). exact H.
Qed.

Lemma bind_step {S A B} (m : M S A) (f : A → M S B) s a s' :
  m s = Done (a, s') → (m ≫= f) s = f a s'.
Proof. unfold mbind, M_bind. intros ->. reflexivity. Qed.

(** Two runs that go on in the same way. *)
Lemma bind_same {S A B} (m m' : M S A) (f f' : A → M S B) s :
  m s = m' s → (∀ a s', m' s = Done (a, s') → f a s' = f' a s') → (m ≫= f) s = (m' ≫= f') s.
Proof. unfold mbind, M_bind. intros -> Hf. destruct (m' s) as [[a s']| |]; auto. Qed.

Lemma bind_Panic {S A B} (m : M S A) (f : A → M S B) s :
  m s = Panic → (m ≫= f) s = Panic.
Proof. unfold mbind, M_bind. intros ->. reflexivity. Qed.

Lemma ret_Done {S A} (a b : A) (s s' : S) :
  mret (M := M S) a s = Done (b, s') ↔ a = b ∧ s = s'.
Proof. unfold mret, M_ret. split; [by inversion 1|by intros [-> ->]]. Qed.

Lemma gets_Done {S A} (f : S → A) s b s' :
  gets f s = Done (b, s') ↔ f s = b ∧ s = s'.
Proof. unfold gets. split; [by inversion 1|by intros [-> ->]]. Qed.

Lemma modify_Done {S} (f : S → S) s b s' :
  modify f s = Done (b, s') ↔ f s = s'.
Proof. unfold modify. destruct b. split; [by inversion 1|by intros ->]. Qed.

Lemma get_Done {S} (s a s' : S) : get s = Done (a, s') ↔ s = a ∧ s = s'.
Proof. unfold get. split; [by inversion 1|by intros [-> ->]]. Qed.

Lemma put_Done {S} (t s : S) u s' : put t s = Done (u, s') ↔ t = s'.
Proof. unfold put. destruct u. split; [by inversion 1|by intros ->]. Qed.

Lemma unwrap_Done {S A} (o : option A) (s : S) a s' :
  unwrap o s = Done (a, s') ↔ o = Some a ∧ s = s'.
Proof.
  destruct o; simpl; [rewrite ret_Done|unfold panic]; split; try discriminate.
  - by intros [-> ->].
  - by intros [[= ->] ->].
  - by intros [? _].
Qed.

Lemma panic_Done {S A} (s : S) (a : A) s' : panic s = Done (a, s') ↔ False.
Proof. unfold panic. split; [discriminate|done]. Qed.

Lemma zoom_Done {S T A} (proj : S → T) upd (m : M T A) s a s' :
  zoom proj upd m s = Done (a, s') ↔ ∃ t, m (proj s) = Done (a, t) ∧ s' = upd t s.
Proof.
  unfold zoom. destruct (m (proj s)) as [[b t]| |]; split; try discriminate.
  - intros [= -> <-]. eauto.
  - intros (t' & [= -> ->] & ->). done.
  - by intros (? & ? & _).
  - by intros (? & ? & _).
Qed.

(** * Machine words *)

(** The Cargo profile. [debug_assertions] also turns on the overflow checks of
    integer arithmetic (Cargo's default, which [Cargo.toml] keeps); the
    Makefile builds with [--release], where both are off. *)
Class Profile := { debug_assertions : bool }.
Definition release : Profile := {| debug_assertions := false |}.
Definition debug : Profile := {| debug_assertions := true |}.

Definition wrap (w x : Z) : Z := x `mod` 2 ^ w.
Definition in_word (w x : Z) : bool := (0 <=? x) && (x <? 2 ^ w).

(** The result of an unsigned operation of width [w] whose exact value is [x]. *)
Definition word_op `{Profile} {S} (w x : Z) : M S Z :=
  if in_word w x then mret x
  else if debug_assertions then panic
  else mret (wrap w x).

Definition debug_assert `{Profile} {S} (b : bool) : M S () :=
  if debug_assertions && negb b then panic else mret ().

(** [x as isize] and [x as usize] on 64-bit words. *)
Definition as_isize (x : Z) : Z := if x <? 2 ^ 63 then x else x - 2 ^ 64.
Definition as_usize (x : Z) : Z := wrap 64 x.
Definition u64_max : Z := 2 ^ 64 - 1.

Lemma wrap_small w x : 0 ≤ x < 2 ^ w → wrap w x = x.
Proof. unfold wrap. apply Z.mod_small. Qed.

Lemma wrap_range w x : 0 ≤ w → 0 ≤ wrap w x < 2 ^ w.
Proof. intros ?. unfold wrap. apply Z.mod_pos_bound. lia. Qed.

Lemma in_word_true w x : 0 ≤ x < 2 ^ w → in_word w x = true.
Proof. unfold in_word. intros. apply andb_true_iff. lia. Qed.

Lemma in_word_false w x : x < 0 ∨ 2 ^ w ≤ x → in_word w x = false.
Proof. unfold in_word. intros. apply andb_false_iff. lia. Qed.

Lemma word_op_exact `{Profile} {S} w x (s : S) :
  0 ≤ x < 2 ^ w → word_op w x s = Done (x, s).
Proof. intros. unfold word_op. by rewrite in_word_true. Qed.

Lemma word_op_release {S} w x (s : S) :
  0 ≤ w → word_op (H := release) w x s = Done (wrap w x, s).
Proof.
  intros. unfold word_op. destruct (in_word w x) eqn:E; [|done].
  unfold in_word in E. apply andb_true_iff in E. rewrite wrap_small by lia. done.
Qed.

Lemma word_op_Done `{Profile} {S} w x (s : S) y s' :
  word_op w x s = Done (y, s') →
  s' = s ∧ ((0 ≤ x < 2 ^ w ∧ y = x) ∨
            (debug_assertions = false ∧ ¬ (0 ≤ x < 2 ^ w) ∧ y = wrap w x)).
Proof.
  unfold word_op. destruct (in_word w x) eqn:E.
  - intros [-> ->]%ret_Done. unfold in_word in E. apply andb_true_iff in E.
    split; [done|]. left. split; [lia|done].
  - unfold in_word in E. apply andb_false_iff in E.
    destruct debug_assertions; [by intros ?%panic_Done|].
    intros [<- ->]%ret_Done. split; [done|]. right. split_and!; [done|lia|done].
Qed.

Lemma debug_assert_Done `{Profile} {S} b (s : S) u s' :
  debug_assert b s = Done (u, s') ↔ s' = s ∧ (debug_assertions = true → b = true).
Proof.
  unfold debug_assert. destruct u, debug_assertions, b; cbn [andb negb];
    rewrite ?ret_Done, ?panic_Done; intuition congruence.
Qed.

Lemma as_isize_usize x : - 2 ^ 63 ≤ x < 2 ^ 63 → as_isize (as_usize x) = x.
Proof.
  intros. unfold as_isize, as_usize, wrap.
  destruct (decide (0 ≤ x)).
  - rewrite Z.mod_small by lia. case_match; lia.
  - rewrite <- (Z_mod_plus_full x 1), Z.mod_small by lia. case_match; lia.
Qed.

(** Testing a bit with a mask. *)
Lemma land_bit v n : 0 ≤ n → (Z.land v (2 ^ n) =? 0) = negb (Z.testbit v n).
Proof.
  intros Hn. destruct (Z.testbit v n) eqn:E; simpl.
  - apply Z.eqb_neq. intros H0. assert (Z.testbit (Z.land v (2 ^ n)) n = true) as Ht.
    { by rewrite Z.land_spec, E, Z.pow2_bits_true. }
    by rewrite H0, Z.bits_0 in Ht.
  - apply Z.eqb_eq, Z.bits_inj'. intros m Hm. rewrite Z.land_spec, Z.bits_0, Z.pow2_bits_eqb by done.
    destruct (Z.eqb_spec n m) as [<-|]; [by rewrite E|by rewrite andb_false_r].
Qed.

(** * Operations that return *)

Definition returns {S A} (m : M S A) (s : S) : Prop := ∃ r, m s = Done r.

Lemma returns_bind {S A B} (m : M S A) (f : A → M S B) s :
  returns m s → (∀ a s1, m s = Done (a, s1) → returns (f a) s1) → returns (m ≫= f) s.
Proof. intros [[a s1] Hm] Hf. destruct (Hf a s1 Hm) as [r Hr]. exists r. by rewrite (bind_step _ _ _ _ _ Hm). Qed.

Lemma returns_mret {S A} (a : A) (s : S) : returns (mret a) s.
Proof. by eexists. Qed.

Lemma returns_unwrap {S A} (o : option A) (s : S) : is_Some o → returns (unwrap o) s.
Proof. intros [a ->]. by eexists. Qed.

Lemma returns_bind_ok {S A B E} (m : M S (result A E)) (f : A → M S (result B E)) s :
  returns m s → (∀ a s1, m s = Done (Ok a, s1) → returns (f a) s1) → returns (x ←? m; f x) s.
Proof. intros Hm Hf. apply returns_bind; [done|]. intros [a|e] s1 Ha; [by apply Hf|apply returns_mret]. Qed.

Lemma returns_zoom {S T A} (proj : S → T) upd (m : M T A) s : returns m (proj s) → returns (zoom proj upd m) s.
Proof. intros [[a t] Hm]. unfold returns, zoom. rewrite Hm. by eexists. Qed.

Lemma returns_word_op `{Profile} {S} w x (s : S) : 0 ≤ x < 2 ^ w → returns (word_op w x) s.
Proof. intros. eexists. by apply word_op_exact. Qed.

(** * Automation *)

Create Rewrite HintDb outcome.
Create HintDb kernel.
#[export] Hint Rewrite @bind_Done @ret_Done @get_Done @put_Done @gets_Done @modify_Done @unwrap_Done
  @panic_Done @zoom_Done @debug_assert_Done : outcome.

(** Turn a hypothesis [m s = Done (a, s')] into the facts of its steps. *)
Ltac inv_done_step :=
  match goal with
  | H : mbind _ _ _ = Done _ |- _ => apply bind_Done in H as (? & ? & ? & ?)
  | H : mret _ _ = Done _ |- _ => apply ret_Done in H as [? ?]
  | H : get _ = Done _ |- _ => apply get_Done in H as [? ?]
  | H : put _ _ = Done _ |- _ => apply put_Done in H
  | H : gets _ _ = Done _ |- _ => apply gets_Done in H as [? ?]
  | H : modify _ _ = Done _ |- _ => apply modify_Done in H
  | H : unwrap _ _ = Done _ |- _ => apply unwrap_Done in H as [? ?]
  | H : panic _ = Done _ |- _ => by apply panic_Done in H
  | H : out_of_fuel _ = Done _ |- _ => discriminate H
  | H : zoom _ _ _ _ = Done _ |- _ => apply zoom_Done in H as (? & ? & ?)
  | H : debug_assert _ _ = Done _ |- _ => apply debug_assert_Done in H as [? ?]
  | H : Panic = Done _ |- _ => discriminate H
  | H : OutOfFuel = Done _ |- _ => discriminate H
  | H : Done _ = Done _ |- _ => discriminate H
  | H : Done _ = Done _ |- _ => injection H; clear H; intros
  | H : Ok _ = Ok _ |- _ => injection H; clear H; intros
  | H : Err _ = Err _ |- _ => injection H; clear H; intros
  | H : Ok _ = Err _ |- _ => discriminate H
  | H : Err _ = Ok _ |- _ => discriminate H
  | H : (_, _) = (_, _) |- _ => discriminate H
  | H : (_, _) = (_, _) |- _ => injection H; clear H; intros
  end.
Ltac inv_done := repeat (inv_done_step; simplify_eq/=).

(** The same, through every [match] and [if] of the code. *)
Ltac inv_all := inv_done; repeat (case_match; simplify_eq/=; inv_done).
