(* ===== verification/Pid.v ===== *)
(** Process identifiers and the per-CPU "current process" cells:
    [pkg/kernel/src/proc/pid.rs] and [pkg/kernel/src/proc/processor.rs].

    A [ProcessId] is a [u16]; it is kept as a [Z].  [NEXT_PID] is an
    [AtomicU16], whose [fetch_add] wraps around in every profile. *)
From S2P Require Import Prelude.

Module Pid.

(** The allocator's state is the value of [NEXT_PID]. *)
Definition NEXT_PID_init : Z := 1.

Definition ProcessId_new : M Z Z :=
  next ← get;
  put (wrap 16 (next + 1));;
  mret next.

(** [n] calls in a row, the identifiers in the order they were given. *)
Fixpoint new_n (n : nat) : M Z (list Z) :=
  match n with
  | O => mret []
  | S n => pid ← ProcessId_new; pids ← new_n n; mret (pid :: pids)
  end.

Lemma ProcessId_new_eq next : ProcessId_new next = Done (next, wrap 16 (next + 1)).
Proof. done. Qed.

Lemma new_n_seq n next :
  0 ≤ next → next + Z.of_nat n ≤ 2 ^ 16 →
  new_n n next = Done (seqZ next (Z.of_nat n), wrap 16 (next + Z.of_nat n)) ∨
  (n = 0%nat ∧ new_n n next = Done ([], next)).
Proof.
  revert next. induction n as [|n IH]; intros next H0 Hb; [right; done|].
  left. simpl new_n. rewrite (bind_step _ _ _ _ _ (ProcessId_new_eq next)).
  rewrite seqZ_cons by lia.
  replace (Z.pred (Z.of_nat (S n))) with (Z.of_nat n) by lia.
  destruct n as [|n]; [done|].
  rewrite (wrap_small 16 (next + 1)) by lia.
  destruct (IH (next + 1)) as [E|[? _]]; [lia|lia| |done].
  rewrite (bind_step _ _ _ _ _ E), Z.add_1_r. unfold mret, M_ret.
  do 2 f_equal. f_equal. lia.
Qed.

(** The first 65535 process identifiers handed out by [ProcessId::new] are
    1, 2, 3, ... in order: they are pairwise distinct and none of them is 0,
    the value reserved for "no process". *)
Theorem ProcessId_new_fresh (n : nat) :
  Z.of_nat n < 2 ^ 16 →
  ∃ pids next, new_n n NEXT_PID_init = Done (pids, next) ∧
    pids = seqZ 1 (Z.of_nat n) ∧ NoDup pids ∧ 0 ∉ pids.
Proof.
  intros Hn. unfold NEXT_PID_init.
  destruct (new_n_seq n 1) as [E|[-> E]]; [lia|lia| |].
  - eexists _, _. split; [exact E|]. split_and!; [done|apply NoDup_seqZ|].
    rewrite elem_of_seqZ. lia.
  - eexists _, _. split; [exact E|]. split_and!; [done|constructor|set_solver].
Qed.

Lemma ProcessId_new_fresh_witness :
  Z.of_nat 3 < 2 ^ 16 ∧ ∃ pids next, new_n 3 NEXT_PID_init = Done (pids, next) ∧
    pids = seqZ 1 3 ∧ NoDup pids ∧ 0 ∉ pids.
Proof. split; [lia|]. apply (ProcessId_new_fresh 3). lia. Defined.

(** The 65536th call wraps: it returns 0, the value [Processor] reads as
    "no process", and the call after it returns 1, the kernel's own pid. *)
Theorem ProcessId_new_wraps :
  ∃ pids, new_n (Z.to_nat 65535) NEXT_PID_init = Done (pids, 0) ∧
    new_n 2 0 = Done ([0; 1], 2).
Proof.
  destruct (new_n_seq (Z.to_nat 65535) NEXT_PID_init) as [E|[? _]];
    rewrite ?Z2Nat.id in * by lia; unfold NEXT_PID_init in *; [lia|lia| |lia].
  eexists. split; [exact E|done].
Qed.

End Pid.

Module Processor.

Definition MAX_CPU_COUNT : nat := 8.

(** [PROCESSORS], the cells in the order of the APIC ids; 0 means no process. *)
Definition PROCESSORS_init : list Z := replicate MAX_CPU_COUNT 0.

Definition is_free (cell : Z) : bool := cell =? 0.

Definition get_pid (cell : Z) : option Z :=
  if cell =? 0 then None else Some cell.

Section Cpu.
(** What CPUID reports as the initial local APIC id of the running CPU. *)
Context (cpuid : nat).

(** [&PROCESSORS[cpuid]]: indexing panics out of range. *)
Definition current : M (list Z) Z :=
  cells ← get; unwrap (cells !! cpuid).

Definition set_pid (pid : Z) : M (list Z) () :=
  _ ← current; modify (λ cells, <[cpuid := pid]> cells).

Definition current_pid : M (list Z) Z :=
  cell ← current; unwrap (get_pid cell).

Lemma set_pid_eq pid cells :
  (cpuid < length cells)%nat →
  set_pid pid cells = Done ((), <[cpuid := pid]> cells).
Proof.
  intros [c Hc]%lookup_lt_is_Some_2. unfold set_pid, current, get, mbind, M_bind.
  by rewrite Hc.
Qed.

Lemma current_pid_eq cells pid :
  cells !! cpuid = Some pid → pid ≠ 0 → current_pid cells = Done (pid, cells).
Proof.
  intros Hc Hp. unfold current_pid, current, get, mbind, M_bind, get_pid.
  rewrite Hc. cbn. by rewrite (proj2 (Z.eqb_neq _ _) Hp).
Qed.

Lemma cell_pid_Done cells pid cells' :
  current_pid cells = Done (pid, cells') →
  cells' = cells ∧ cells !! cpuid = Some pid ∧ pid ≠ 0.
Proof.
  unfold current_pid, current, get. intros H.
  apply bind_Done in H as (c & s & (c0 & s0 & [= <- <-] & [? ->]%unwrap_Done)%bind_Done
    & [Hp ->]%unwrap_Done).
  unfold get_pid in Hp. case_match; simplify_eq. split_and!; [done..|lia].
Qed.

End Cpu.

End Processor.
