(* ===== verification/Sync.v ===== *)
(** Kernel semaphores: [pkg/kernel/src/proc/sync.rs].

    [Semaphore] is the record of the source, a count and a FIFO queue of the
    blocked processes; [SemaphoreSet] is the map from keys to semaphores.  The
    abstract specification is Dijkstra's: a semaphore grants requests in the
    order they were made, and the number of grants is bounded by the initial
    value plus the number of signals. *)
From S2P Require Import Prelude.

(** The answers of the semaphore operations, shared by the layers above. *)
Inductive SemaphoreResult : Type :=
  | SemOk
  | NotExist
  | Block (pid : Z)
  | WakeUp (pid : Z).

#[global] Instance SemaphoreResult_eq_dec : EqDecision SemaphoreResult.
Proof. solve_decision. Defined.

Record Semaphore : Type := mkSemaphore {
  count : Z;
  wait_queue : list Z;
}.

Module Semaphore.
Section Ops.
Context `{Profile}.

Definition new (value : Z) : Semaphore := mkSemaphore value [].

Definition wait (pid : Z) : M Semaphore SemaphoreResult :=
  s ← get;
  if count s =? 0 then
    put (mkSemaphore (count s) (wait_queue s ++ [pid]));;
    mret (Block pid)
  else
    c ← word_op 64 (count s - 1);
    put (mkSemaphore c (wait_queue s));;
    mret SemOk.

Definition signal : M Semaphore SemaphoreResult :=
  s ← get;
  match wait_queue s with
  | pid :: q =>
      put (mkSemaphore (count s) q);;
      mret (WakeUp pid)
  | [] =>
      c ← word_op 64 (count s + 1);
      put (mkSemaphore c []);;
      mret SemOk
  end.

(** ** Invariant and one-step behaviour *)

(** Nobody waits while a permit is available. *)
Definition wf (s : Semaphore) : Prop :=
  0 ≤ count s < 2 ^ 64 ∧ (count s = 0 ∨ wait_queue s = []).

Lemma new_wf v : 0 ≤ v < 2 ^ 64 → wf (new v).
Proof. unfold wf, new. simpl. auto. Qed.

Lemma wait_eq pid s :
  wf s →
  wait pid s = Done (if count s =? 0
                     then (Block pid, mkSemaphore 0 (wait_queue s ++ [pid]))
                     else (SemOk, mkSemaphore (count s - 1) (wait_queue s))).
Proof.
  intros [Hc _]. unfold wait, get. rewrite (bind_step _ _ _ s s) by done.
  destruct (Z.eqb_spec (count s) 0) as [E|E].
  - by rewrite E.
  - by rewrite (bind_step _ _ _ _ _ (word_op_exact 64 (count s - 1) s ltac:(lia))).
Qed.

Lemma signal_eq s :
  wf s → count s < 2 ^ 64 - 1 →
  signal s = Done (match wait_queue s with
                   | pid :: q => (WakeUp pid, mkSemaphore (count s) q)
                   | [] => (SemOk, mkSemaphore (count s + 1) [])
                   end).
Proof.
  intros [Hc _] Hb. unfold signal, get. rewrite (bind_step _ _ _ s s) by done.
  destruct (wait_queue s); [|done].
  by rewrite (bind_step _ _ _ _ _ (word_op_exact 64 (count s + 1) s ltac:(lia))).
Qed.

(** ** Runs of a semaphore *)

Inductive op : Type := OpWait (pid : Z) | OpSignal.

#[global] Instance op_eq_dec : EqDecision op.
Proof. solve_decision. Defined.

Definition step (o : op) : M Semaphore SemaphoreResult :=
  match o with OpWait pid => wait pid | OpSignal => signal end.

Fixpoint run (ops : list op) : M Semaphore (list SemaphoreResult) :=
  match ops with
  | [] => mret []
  | o :: ops => r ← step o; rs ← run ops; mret (r :: rs)
  end.

(** The processes that asked to enter, in order. *)
Definition requests (ops : list op) : list Z :=
  omap (λ o, match o with OpWait pid => Some pid | OpSignal => None end) ops.

(** The number of signals. *)
Definition signals (ops : list op) : Z :=
  Z.of_nat (length (filter (λ o, o = OpSignal) ops)).

(** The processes allowed to go on, in order: a [SemOk] answers the caller of
    [wait], a [WakeUp] names the process that goes on. *)
Fixpoint granted (ops : list op) (rs : list SemaphoreResult) : list Z :=
  match ops, rs with
  | OpWait pid :: ops, SemOk :: rs => pid :: granted ops rs
  | OpSignal :: ops, WakeUp pid :: rs => pid :: granted ops rs
  | _ :: ops, _ :: rs => granted ops rs
  | _, _ => []
  end.

Lemma signals_cons o ops :
  signals (o :: ops) = (if decide (o = OpSignal) then 1 else 0) + signals ops.
Proof. unfold signals. rewrite filter_cons. case_decide; simpl; lia. Qed.

Lemma signals_nonneg ops : 0 ≤ signals ops.
Proof. unfold signals. lia. Qed.

Lemma run_cons o ops s r s1 :
  step o s = Done (r, s1) →
  ∀ rs s2, run ops s1 = Done (rs, s2) → run (o :: ops) s = Done (r :: rs, s2).
Proof.
  intros H1 rs s2 H2. simpl. by rewrite (bind_step _ _ _ _ _ H1), (bind_step _ _ _ _ _ H2).
Qed.

Lemma run_from ops s :
  wf s → count s + signals ops < 2 ^ 64 →
  ∃ rs s', run ops s = Done (rs, s') ∧ wf s' ∧
    granted ops rs ++ wait_queue s' = wait_queue s ++ requests ops ∧
    count s' + Z.of_nat (length (granted ops rs)) = count s + signals ops.
Proof.
  revert s. induction ops as [|o ops IH]; intros s Hwf Hb.
  { exists [], s. simpl. unfold signals. rewrite app_nil_r. simpl. split_and!; [done..|lia]. }
  rewrite signals_cons in Hb |- *. pose proof (signals_nonneg ops).
  destruct s as [c q], Hwf as [Hc Hq]; simpl in *.
  destruct o as [pid|]; cbn [decide_rel] in *.
  - rewrite decide_False in * by done.
    pose proof (wait_eq pid (mkSemaphore c q) (conj Hc Hq)) as E. simpl in E.
    destruct (Z.eqb_spec c 0) as [->|Hc0].
    + destruct (IH (mkSemaphore 0 (q ++ [pid]))) as (rs & s' & Hr & Hw & Hg & Hn).
      { split; simpl; [lia|by left]. }
      { simpl. lia. }
      exists (Block pid :: rs), s'. split; [by eapply run_cons|]. simpl in *.
      split_and!; [done| |lia]. by rewrite Hg, <- (assoc_L (++)).
    + destruct Hq as [->| ->]; [done|].
      destruct (IH (mkSemaphore (c - 1) [])) as (rs & s' & Hr & Hw & Hg & Hn).
      { split; simpl; [lia|by right]. }
      { simpl. lia. }
      exists (SemOk :: rs), s'. split; [by eapply run_cons|]. simpl in *.
      split_and!; [done|by rewrite Hg|lia].
  - rewrite decide_True in * by done.
    pose proof (signal_eq (mkSemaphore c q) (conj Hc Hq) ltac:(simpl; lia)) as E. simpl in E.
    destruct q as [|p q].
    + destruct (IH (mkSemaphore (c + 1) [])) as (rs & s' & Hr & Hw & Hg & Hn).
      { split; simpl; [lia|by right]. }
      { simpl. lia. }
      exists (SemOk :: rs), s'. split; [by eapply run_cons|]. simpl in *.
      split_and!; [done|done|lia].
    + destruct (IH (mkSemaphore c q)) as (rs & s' & Hr & Hw & Hg & Hn).
      { split; simpl; [lia|]. destruct Hq; [by left|done]. }
      { simpl. lia. }
      exists (WakeUp p :: rs), s'. split; [by eapply run_cons|]. simpl in *.
      split_and!; [done|by rewrite Hg|lia].
Qed.

(** C25: Refinement of the abstract semaphore.  A run of [wait] and [signal] calls
    on a fresh semaphore always completes, and grants the requests in the
    order they were made: the granted processes followed by those still queued
    are exactly the requests.  What is left of the count plus the number of
    grants is the initial value plus the number of signals, so there are
    never more grants than permits, and while somebody is queued every permit
    has been granted. *)
Theorem run_new_fifo (v : Z) (ops : list op) :
  0 ≤ v → v + signals ops < 2 ^ 64 →
  ∃ rs s, run ops (new v) = Done (rs, s) ∧
    granted ops rs ++ wait_queue s = requests ops ∧
    count s + Z.of_nat (length (granted ops rs)) = v + signals ops ∧
    0 ≤ count s ∧
    (wait_queue s ≠ [] → Z.of_nat (length (granted ops rs)) = v + signals ops).
Proof.
  intros Hv Hb. pose proof (signals_nonneg ops).
  destruct (run_from ops (new v)) as (rs & s & Hr & [Hc Hq] & Hg & Hn).
  { apply new_wf. lia. }
  { done. }
  simpl in Hn, Hg. exists rs, s. split_and!; [done..|lia|]. intros ?. destruct Hq; [lia|done].
Qed.

End Ops.

Lemma run_new_fifo_witness :
  ∃ rs s, run (H := debug) [OpWait 2; OpWait 3; OpWait 4; OpSignal] (new 1) = Done (rs, s) ∧
    granted [OpWait 2; OpWait 3; OpWait 4; OpSignal] rs ++ wait_queue s = [2; 3; 4] ∧
    count s + Z.of_nat (length (granted [OpWait 2; OpWait 3; OpWait 4; OpSignal] rs)) = 2 ∧
    0 ≤ count s ∧
    (wait_queue s ≠ [] →
     Z.of_nat (length (granted [OpWait 2; OpWait 3; OpWait 4; OpSignal] rs)) = 2).
Proof.
  apply (run_new_fifo (H := debug) 1 [OpWait 2; OpWait 3; OpWait 4; OpSignal]).
  - lia.
  - vm_compute. reflexivity.
Defined.

End Semaphore.

Module SemaphoreSet.
Section Ops.
Context `{Profile}.

Definition default : gmap Z Semaphore := ∅.

Definition insert (key value : Z) : M (gmap Z Semaphore) bool :=
  sems ← get;
  put (<[key := Semaphore.new value]> sems);;
  mret (bool_decide (sems !! key = None)).

Definition remove (key : Z) : M (gmap Z Semaphore) bool :=
  sems ← get;
  put (delete key sems);;
  mret (bool_decide (is_Some (sems !! key))).

Definition on_sem (key : Z) (m : M Semaphore SemaphoreResult) :
    M (gmap Z Semaphore) SemaphoreResult :=
  sems ← get;
  match sems !! key with
  | Some s => zoom (λ _, s) (λ s' sems, <[key := s']> sems) m
  | None => mret NotExist
  end.

Definition wait (key pid : Z) : M (gmap Z Semaphore) SemaphoreResult :=
  on_sem key (Semaphore.wait pid).

Definition signal (key : Z) : M (gmap Z Semaphore) SemaphoreResult :=
  on_sem key Semaphore.signal.

Definition wf (sems : gmap Z Semaphore) : Prop := map_Forall (λ _, Semaphore.wf) sems.

Lemma on_sem_None key m sems :
  sems !! key = None → on_sem key m sems = Done (NotExist, sems).
Proof. intros E. unfold on_sem, get. rewrite (bind_step _ _ _ sems sems) by done. by rewrite E. Qed.

Lemma on_sem_Some key m sems s r s' :
  sems !! key = Some s → m s = Done (r, s') →
  on_sem key m sems = Done (r, <[key := s']> sems).
Proof.
  intros E Hm. unfold on_sem, get. rewrite (bind_step _ _ _ sems sems) by done.
  rewrite E. unfold zoom. by rewrite Hm.
Qed.

(** The semaphore table.  A key that is not there answers [NotExist] and
    changes nothing; [wait] on a semaphore with permits takes one, on one
    without permits queues the caller at the back; [signal] wakes the process
    at the front of the queue, or adds a permit when nobody waits.  No other
    key changes in any of these cases, and the table stays well formed. *)
Theorem wait_signal_spec (key pid : Z) (sems : gmap Z Semaphore) :
  wf sems → (∀ s, sems !! key = Some s → count s < 2 ^ 64 - 1) →
  ∃ rw rs,
    wait key pid sems = Done rw ∧ signal key sems = Done rs ∧ wf (rw.2) ∧ wf (rs.2) ∧
    match sems !! key with
    | None => rw = (NotExist, sems) ∧ rs = (NotExist, sems)
    | Some s =>
        rw = (if count s =? 0
              then (Block pid, <[key := mkSemaphore 0 (wait_queue s ++ [pid])]> sems)
              else (SemOk, <[key := mkSemaphore (count s - 1) (wait_queue s)]> sems)) ∧
        rs = (match wait_queue s with
              | p :: q => (WakeUp p, <[key := mkSemaphore (count s) q]> sems)
              | [] => (SemOk, <[key := mkSemaphore (count s + 1) []]> sems)
              end)
    end.
Proof.
  intros Hwf Hb. unfold wait, signal. destruct (sems !! key) as [s|] eqn:E.
  - pose proof (Hwf _ _ E) as Hs. specialize (Hb s eq_refl).
    pose proof (Semaphore.wait_eq pid s Hs) as Ew.
    pose proof (Semaphore.signal_eq s Hs Hb) as Es.
    destruct s as [c q], Hs as [Hc Hq]; simpl in *.
    destruct (Z.eqb_spec c 0) as [->|Hc0], q as [|p q]; simpl in *;
      rewrite (on_sem_Some _ _ _ _ _ _ E Ew), (on_sem_Some _ _ _ _ _ _ E Es);
      eexists _, _; (split; [done|]); (split; [done|]); (split; [|split; [|done]]);
      apply map_Forall_insert_2; try done; split; simpl; (lia || (by left) || (by right) || (by destruct Hq)).
  - rewrite !on_sem_None by done. eauto 10.
Qed.

(** Creating a semaphore under a key in use answers [false] and still
    replaces the semaphore, so the processes queued on the old one are lost:
    whatever calls follow on the new semaphore, a process that does not wait
    again is never woken. *)
Theorem insert_existing_drops_waiters (key value : Z) (sems : gmap Z Semaphore) (s : Semaphore) :
  sems !! key = Some s → 0 ≤ value →
  ∃ sems', insert key value sems = Done (false, sems') ∧
    sems' !! key = Some (Semaphore.new value) ∧
    (∀ pid ops rs s', pid ∈ wait_queue s →
       value + Semaphore.signals ops < 2 ^ 64 → pid ∉ Semaphore.requests ops →
       Semaphore.run ops (Semaphore.new value) = Done (rs, s') →
       pid ∉ Semaphore.granted ops rs).
Proof.
  intros E Hv. exists (<[key := Semaphore.new value]> sems). split_and!.
  - unfold insert, get, put, mbind, M_bind, mret, M_ret. by rewrite E.
  - by rewrite lookup_insert_eq.
  - intros pid ops rs s' _ Hb Hreq Hrun Hin.
    assert (0 ≤ Semaphore.signals ops) by apply Semaphore.signals_nonneg.
    destruct (Semaphore.run_from ops (Semaphore.new value)) as (rs' & s'' & Hr & _ & Hg & _).
    { apply Semaphore.new_wf. lia. }
    { done. }
    rewrite Hrun in Hr. injection Hr as -> ->. simpl in Hg.
    apply Hreq. rewrite <- Hg. apply elem_of_app. by left.
Qed.

End Ops.

Definition sems_example : gmap Z Semaphore := {[ 1 := mkSemaphore 0 [7]; 2 := mkSemaphore 3 [] ]}.

Lemma sems_example_wf : wf sems_example.
Proof.
  unfold wf, sems_example. intros k s Hs.
  apply lookup_insert_Some in Hs as [[<- <-]|[_ Hs]];
    [|apply lookup_singleton_Some in Hs as [<- <-]];
    (split; simpl; [lia|(by left) || (by right)]).
Qed.

Lemma wait_signal_spec_witness :
  ∃ rw rs,
    wait (H := debug) 1 9 sems_example = Done rw ∧
    signal (H := debug) 1 sems_example = Done rs ∧ wf (rw.2) ∧ wf (rs.2) ∧
    rw = (Block 9, <[1 := mkSemaphore 0 [7; 9]]> sems_example) ∧
    rs = (WakeUp 7, <[1 := mkSemaphore 0 []]> sems_example).
Proof.
  apply (wait_signal_spec (H := debug) 1 9 sems_example).
  - exact sems_example_wf.
  - change (sems_example !! 1) with (Some (mkSemaphore 0 [7])).
    intros s Hs. injection Hs as <-. reflexivity.
Defined.

Lemma insert_existing_drops_waiters_witness :
  ∃ sems', insert 1 5 sems_example = Done (false, sems') ∧
    sems' !! 1 = Some (Semaphore.new 5) ∧
    (∀ pid ops rs s', pid ∈ [7] →
       5 + Semaphore.signals ops < 2 ^ 64 → pid ∉ Semaphore.requests ops →
       Semaphore.run (H := debug) ops (Semaphore.new 5) = Done (rs, s') →
       pid ∉ Semaphore.granted ops rs).
Proof.
  apply (insert_existing_drops_waiters (H := debug) 1 5 sems_example (mkSemaphore 0 [7])).
  - reflexivity.
  - lia.
Defined.

End SemaphoreSet.
