(* ===== verification/Arch.v ===== *)
(** The interfaces of the [x86_64] crate that the kernel is written against:
    virtual and physical addresses, pages and frames, page-table flags, the
    [FrameAllocator] / [FrameDeallocator] traits and the page-table mapper.

    The crate is not part of the repository, so its operations are members of
    type classes and the model is proved for every instance that meets their
    documented behaviour (the [_Laws] classes).  A [VirtAddr], a [PhysAddr], a
    [Page] and a [PhysFrame] are represented by the address (of the page's or
    frame's first byte) as a [Z].  The instances [x86_ref], [mapper_ref] are
    small concrete implementations on which the witnesses run. *)
From S2P Require Import Prelude.

(** ** Addresses and pages *)

Definition PAGE : Z := 4096.

Definition canonical (a : Z) : Prop := 0 ≤ a < 2 ^ 47 ∨ 2 ^ 64 - 2 ^ 47 ≤ a < 2 ^ 64.

(** Lower-half addresses below the last page before the canonical gap, where
    page arithmetic cannot leave the half. *)
Definition user (a : Z) : Prop := 0 ≤ a < 2 ^ 47 - PAGE.

Definition aligned (p : Z) : Prop := p `mod` PAGE = 0.

(** The pages [s, s + 4096, ...] below [e]. *)
Definition pages_between (s e : Z) : list Z :=
  (λ i, s + i * PAGE) <$> seqZ 0 ((e - s) / PAGE).

(** [None] is a panic of the crate. *)
Class X86_64 := {
  VirtAddr_new : Z → option Z;
  VirtAddr_new_truncate : Z → Z;
  VirtAddr_add : Z → Z → option Z;
  VirtAddr_sub : Z → Z → option Z;
  PhysAddr_new : Z → option Z;
  Page_containing_address : Z → Z;
  Page_add : Z → Z → option Z;
  Page_sub : Z → Z → option Z;
  Page_diff : Z → Z → option Z;
  PhysFrame_containing_address : Z → Z;
  (** the pages that iterating over a [PageRange] or a [PageRangeInclusive] yields *)
  Page_range : Z → Z → list Z;
  Page_range_inclusive : Z → Z → list Z;
  align_up : Z → Z → Z;
}.

Class X86_64_Laws (X : X86_64) : Prop := {
  VirtAddr_new_canonical a : canonical a → VirtAddr_new a = Some a;
  VirtAddr_new_gap a : 2 ^ 47 ≤ a < 2 ^ 64 - 2 ^ 47 → VirtAddr_new a = None;
  VirtAddr_new_truncate_canonical a : canonical a → VirtAddr_new_truncate a = a;
  VirtAddr_add_user a b : user a → 0 ≤ b → a + b < 2 ^ 47 → VirtAddr_add a b = Some (a + b);
  VirtAddr_sub_user a b : 0 ≤ a < 2 ^ 47 → 0 ≤ b ≤ a → VirtAddr_sub a b = Some (a - b);
  PhysAddr_new_valid a : 0 ≤ a < 2 ^ 52 → PhysAddr_new a = Some a;
  Page_containing_address_eq a : canonical a → Page_containing_address a = a - a `mod` PAGE;
  Page_add_user p n : aligned p → user p → 0 ≤ n → p + n * PAGE < 2 ^ 47 →
    Page_add p n = Some (p + n * PAGE);
  Page_sub_user p n : aligned p → 0 ≤ p < 2 ^ 47 → 0 ≤ n → 0 ≤ p - n * PAGE →
    Page_sub p n = Some (p - n * PAGE);
  Page_diff_le p q : aligned p → aligned q → 0 ≤ q ≤ p → p < 2 ^ 47 →
    Page_diff p q = Some ((p - q) / PAGE);
  PhysFrame_containing_address_eq a : 0 ≤ a < 2 ^ 52 →
    PhysFrame_containing_address a = a - a `mod` PAGE;
  Page_range_eq s e : aligned s → aligned e → 0 ≤ s → 0 ≤ e < 2 ^ 47 →
    Page_range s e = pages_between s e;
  Page_range_inclusive_eq s e : aligned s → aligned e → 0 ≤ s → user e →
    Page_range_inclusive s e = pages_between s (e + PAGE);
  Page_diff_lt p q : aligned p → aligned q → 0 ≤ p < q → q < 2 ^ 64 → Page_diff p q = None;
  (** the same in the upper half *)
  Page_add_upper p n : aligned p → 2 ^ 64 - 2 ^ 47 ≤ p → 0 ≤ n → p + n * PAGE < 2 ^ 64 →
    Page_add p n = Some (p + n * PAGE);
  Page_sub_upper p n : aligned p → p < 2 ^ 64 → 0 ≤ n → 2 ^ 64 - 2 ^ 47 ≤ p - n * PAGE →
    Page_sub p n = Some (p - n * PAGE);
  Page_diff_upper p q : aligned p → aligned q → 2 ^ 64 - 2 ^ 47 ≤ q ≤ p → p < 2 ^ 64 →
    Page_diff p q = Some ((p - q) / PAGE);
  Page_range_inclusive_upper s e : aligned s → aligned e → 2 ^ 64 - 2 ^ 47 ≤ s → e + PAGE < 2 ^ 64 →
    Page_range_inclusive s e = pages_between s (e + PAGE);
  align_up_eq a n : 0 ≤ a < 2 ^ 47 → n = PAGE → align_up a n = (a + (n - 1)) / n * n;
}.

(** A concrete implementation. *)
Definition canonicalb (a : Z) : bool :=
  ((0 <=? a) && (a <? 2 ^ 47)) || ((2 ^ 64 - 2 ^ 47 <=? a) && (a <? 2 ^ 64)).
Definition checked (a : Z) : option Z := if canonicalb a then Some a else None.

Definition x86_ref : X86_64 := {|
  VirtAddr_new := checked;
  VirtAddr_new_truncate a :=
    let b := a `mod` 2 ^ 48 in if b <? 2 ^ 47 then b else b + (2 ^ 64 - 2 ^ 48);
  VirtAddr_add a b := checked (wrap 64 (a + b));
  VirtAddr_sub a b := checked (wrap 64 (a - b));
  PhysAddr_new a := if in_word 52 a then Some a else None;
  Page_containing_address a := a - a `mod` PAGE;
  Page_add p n := checked (wrap 64 (p + n * PAGE));
  Page_sub p n := checked (wrap 64 (p - n * PAGE));
  Page_diff p q := if q <=? p then Some ((p - q) / PAGE) else None;
  PhysFrame_containing_address a := a - a `mod` PAGE;
  Page_range := pages_between;
  Page_range_inclusive s e := pages_between s (e + PAGE);
  align_up a n := (a + (n - 1)) / n * n;
|}.

Lemma canonicalb_true a : canonical a → canonicalb a = true.
Proof. unfold canonical, canonicalb. intros. apply orb_true_iff. rewrite !andb_true_iff. lia. Qed.

Lemma checked_canonical a : canonical a → checked a = Some a.
Proof. intros. unfold checked. by rewrite canonicalb_true. Qed.

Lemma checked_user a : 0 ≤ a < 2 ^ 47 → checked a = Some a.
Proof. intros. apply checked_canonical. by left. Qed.

#[export] Instance x86_ref_laws : X86_64_Laws x86_ref.
Proof.
  split; cbn -[Z.pow wrap in_word]; unfold user, PAGE; intros.
  - unfold checked. by rewrite canonicalb_true.
  - unfold checked, canonicalb. case_match eqn:E; [|done]. exfalso.
    apply orb_true_iff in E. rewrite !andb_true_iff in E. lia.
  - destruct H as [H|H].
    + rewrite Z.mod_small by lia. case_match; lia.
    + assert (a `mod` 2 ^ 48 = a - (2 ^ 64 - 2 ^ 48)) as ->.
      { replace a with ((a - (2 ^ 64 - 2 ^ 48)) + (2 ^ 16 - 1) * 2 ^ 48) at 1 by lia.
        rewrite Z_mod_plus_full, Z.mod_small by lia. done. }
      case_match; lia.
  - rewrite wrap_small, checked_user by lia. done.
  - rewrite wrap_small, checked_user by lia. done.
  - rewrite in_word_true by lia. done.
  - done.
  - rewrite wrap_small, checked_user by lia. done.
  - rewrite wrap_small, checked_user by lia. done.
  - case_match; [done|lia].
  - done.
  - done.
  - done.
  - case_match; [lia|done].
  - rewrite wrap_small, checked_canonical by (lia || right; lia). done.
  - rewrite wrap_small, checked_canonical by (lia || right; lia). done.
  - case_match; [done|lia].
  - done.
  - done.
Qed.

(** ** Pages between two addresses *)

Lemma elem_of_pages_between s e p :
  aligned s → aligned e →
  p ∈ pages_between s e ↔ aligned p ∧ s ≤ p < e.
Proof.
  unfold aligned, pages_between, PAGE. intros Hs He. rewrite list_elem_of_fmap. split.
  - intros (i & -> & Hi%elem_of_seqZ). Z.div_mod_to_equations. lia.
  - intros [Hp Hb]. exists ((p - s) / 4096). rewrite elem_of_seqZ.
    Z.div_mod_to_equations. lia.
Qed.

Lemma pages_between_NoDup s e : NoDup (pages_between s e).
Proof.
  unfold pages_between, PAGE. apply NoDup_fmap_2; [|apply NoDup_seqZ]. intros i j. lia.
Qed.

Lemma pages_between_length s e : length (pages_between s e) = Z.to_nat ((e - s) / PAGE).
Proof. unfold pages_between. by rewrite length_fmap, length_seqZ. Qed.

Lemma pages_between_nil s e : aligned s → aligned e → e ≤ s → pages_between s e = [].
Proof.
  unfold aligned, pages_between, PAGE. intros. rewrite seqZ_nil; [done|].
  Z.div_mod_to_equations. lia.
Qed.

Lemma pages_between_cons s e :
  aligned s → aligned e → s < e → ∃ ps, pages_between s e = s :: ps.
Proof.
  unfold aligned, pages_between, PAGE. intros Hs He Hlt.
  rewrite seqZ_cons by (Z.div_mod_to_equations; lia).
  eexists. cbn [fmap list_fmap]. f_equal. lia.
Qed.

(** ** Frame allocators and page tables *)

Class FrameAllocator (A : Type) := allocate_frame : A → outcome (option Z * A).
Class FrameDeallocator (A : Type) := deallocate_frame : Z → A → outcome A.

(** [PageTableFlags], a set of bits. *)
Definition PRESENT : Z := 1.
Definition WRITABLE : Z := 2.
Definition USER_ACCESSIBLE : Z := 4.
Definition NO_EXECUTE : Z := 2 ^ 63.

Inductive MapToError : Type :=
  | FrameAllocationFailed
  | MapParentEntryHugePage
  | PageAlreadyMapped (frame : Z).

Inductive UnmapError : Type :=
  | ParentEntryHugePage
  | PageNotMapped
  | InvalidFrameAddress (addr : Z).

(** The page tables in physical memory, as [OffsetPageTable] sees them; a table
    is named by the frame of its level-4 table. *)
Class Mapper (PT : Type) := {
  map_to : ∀ {A} `{FrameAllocator A},
    Z → Z → Z → Z → PT → A → outcome (result () MapToError * PT * A);
  unmap : Z → Z → PT → result Z UnmapError * PT;
  translate_page : Z → Z → PT → option Z;
  (** the [CleanUp] trait: free the empty lower-level tables *)
  mapper_clean_up : ∀ {A} `{FrameDeallocator A}, Z → PT → A → outcome (PT * A);
  (** writing a copy of one level-4 table over another frame *)
  copy_table : Z → Z → PT → PT;
}.

(** What the allocator can have become after any number of allocations. *)
Inductive alloc_steps `{FrameAllocator A} : A → A → Prop :=
  | alloc_refl a : alloc_steps a a
  | alloc_step a o b c : allocate_frame a = Done (o, b) → alloc_steps b c → alloc_steps a c.

Lemma alloc_steps_trans `{FrameAllocator A} (a b c : A) :
  alloc_steps a b → alloc_steps b c → alloc_steps a c.
Proof. induction 1; eauto using alloc_steps. Qed.

(** [mapping pt root page] is the frame and the flags of a mapped 4 KiB page. *)
Class Mapper_Laws (PT : Type) `{Mapper PT} (mapping : PT → Z → Z → option (Z * Z)) : Prop := {
  map_to_ok {A} `{FrameAllocator A} root p f fl pt (a : A) pt' a' :
    map_to root p f fl pt a = Done (Ok (), pt', a') →
    mapping pt root p = None ∧ mapping pt' root p = Some (f, fl) ∧
    (∀ q, q ≠ p → mapping pt' root q = mapping pt root q) ∧ alloc_steps a a';
  map_to_err {A} `{FrameAllocator A} root p f fl pt (a : A) e pt' a' :
    map_to root p f fl pt a = Done (Err e, pt', a') →
    (∀ q, mapping pt' root q = mapping pt root q) ∧ alloc_steps a a';
  (** the error carries the frame that was to be mapped *)
  map_to_mapped {A} `{FrameAllocator A} root p f fl f' fl' pt (a : A) :
    mapping pt root p = Some (f', fl') →
    map_to root p f fl pt a = Done (Err (PageAlreadyMapped f), pt, a);
  unmap_mapped root p f fl pt :
    mapping pt root p = Some (f, fl) →
    ∃ pt', unmap root p pt = (Ok f, pt') ∧ mapping pt' root p = None ∧
      ∀ q, q ≠ p → mapping pt' root q = mapping pt root q;
  unmap_err root p e pt pt' :
    unmap root p pt = (Err e, pt') → ∀ q, mapping pt' root q = mapping pt root q;
  unmap_not_mapped root p pt :
    mapping pt root p = None → ∃ e, unmap root p pt = (Err e, pt);
  translate_page_eq root p pt :
    translate_page root p pt = fst <$> mapping pt root p;
  (** only tables without any used entry are freed *)
  mapper_clean_up_mapping {A} `{FrameDeallocator A} root pt (a : A) pt' a' :
    mapper_clean_up root pt a = Done (pt', a') →
    ∀ r q, mapping pt' r q = mapping pt r q;
}.

(** Allocating a frame and mapping a page always come back, with an error if need
    be: neither panics. *)
Definition mapping_returns (PT A : Type) `{Mapper PT} `{FrameAllocator A} : Prop :=
  (∀ a : A, ∃ r, allocate_frame a = Done r) ∧
  (∀ root p f fl (pt : PT) (a : A), ∃ r, map_to root p f fl pt a = Done r).

(** A concrete page table: a map from the root and the page. *)
Abbreviation table := (gmap (Z * Z) (Z * Z)).
Definition table_mapping (pt : table) (root p : Z) : option (Z * Z) := pt !! (root, p).

#[export] Instance mapper_ref : Mapper table := {|
  map_to A _ root p f fl pt a :=
    match pt !! (root, p) with
    | Some _ => Done (Err (PageAlreadyMapped f), pt, a)
    | None => Done (Ok (), <[(root, p) := (f, fl)]> pt, a)
    end;
  unmap root p pt :=
    match pt !! (root, p) with
    | Some (f, _) => (Ok f, delete (root, p) pt)
    | None => (Err PageNotMapped, pt)
    end;
  translate_page root p pt := fst <$> pt !! (root, p);
  mapper_clean_up A _ root pt a := Done (pt, a);
  copy_table src dst pt :=
    kmap (λ k, (dst, k.2)) (filter (λ kv, kv.1.1 = src) pt) ∪ pt;
|}.

#[export] Instance mapper_ref_laws : Mapper_Laws table table_mapping.
Proof.
  unfold table_mapping. split; simpl; intros.
  - repeat case_match; inv_done.
    split_and!; [done|by rewrite lookup_insert_eq| |constructor].
    intros q Hq. rewrite lookup_insert_ne by (intros [=]; congruence). done.
  - repeat case_match; inv_done. split; [done|constructor].
  - by rewrite H.
  - rewrite H. eexists. split_and!; [done|by rewrite lookup_delete_eq|].
    intros q Hq. rewrite lookup_delete_ne by (intros [=]; congruence). done.
  - repeat case_match; inv_done. done.
  - rewrite H. eauto.
  - done.
  - by inv_done.
Qed.

(** A concrete allocator: a list of free frames. *)
Abbreviation free_list := (list Z).

#[export] Instance free_list_alloc : FrameAllocator free_list := λ l,
  match l with
  | [] => Done (None, [])
  | f :: l => Done (Some f, l)
  end.
#[export] Instance free_list_dealloc : FrameDeallocator free_list := λ f l, Done (f :: l).

Lemma free_list_alloc_returns (l : free_list) : allocate_frame l ≠ OutOfFuel.
Proof. by destruct l. Qed.

Lemma mapping_ref_returns : mapping_returns table free_list.
Proof.
  split; [by intros [|]; eexists|]. intros root p f fl pt a. unfold map_to. simpl.
  destruct (pt !! (root, p)) as [[]|]; by eexists.
Qed.

Lemma mapper_ref_returns {A} `{FrameAllocator A} (root p f fl : Z) (pt : table) (a : A) :
  map_to root p f fl pt a ≠ OutOfFuel.
Proof. unfold map_to. simpl. by destruct (pt !! (root, p)) as [[]|]. Qed.
