(* ===== verification/Frames.v ===== *)
(** The kernel's physical frame allocator and the direct map:
    [pkg/kernel/src/memory/frames.rs], [memory/mod.rs] and [memory/address.rs]. *)
From S2P Require Import Prelude Arch.

(** ** [memory/address.rs] *)

Definition PAGE_SIZE : Z := 4096.
Definition FRAME_SIZE : Z := PAGE_SIZE.

(** [PHYSICAL_OFFSET] is a [spin::Once]: [None] until [address::init]. *)
Definition physical_to_virtual `{Profile} {S} (PHYSICAL_OFFSET : option Z) (addr : Z) : M S Z :=
  off ← unwrap PHYSICAL_OFFSET;
  word_op 64 (addr + off).

(** ** The memory map handed over by the bootloader *)

(** [MemoryType::CONVENTIONAL] of the UEFI specification. *)
Definition CONVENTIONAL : Z := 7.

Record MemoryDescriptor : Type := mkDescriptor {
  ty : Z;
  phys_start : Z;
  page_count : Z;
}.

(** [memory::init] counts the pages of the map and the usable ones. *)
Fixpoint count_pages `{Profile} {S} (mm : list MemoryDescriptor) (mem_size usable : Z) : M S (Z * Z) :=
  match mm with
  | [] => mret (mem_size, usable)
  | item :: mm =>
      mem_size ← word_op 64 (mem_size + page_count item);
      usable ← (if ty item =? CONVENTIONAL then word_op 64 (usable + page_count item)
                else mret usable);
      count_pages mm mem_size usable
  end.

(** ** The allocator *)

(** The iterator [frames] is lazy: it is the list of the [(v, phys_start)] it has
    still to turn into frames.  The head of [recycle] is the last element of
    the source's [Vec], the one [pop] takes. *)
Record BootInfoFrameAllocator : Type := mkAllocator {
  size : Z;
  used : Z;
  frames : list (Z * Z);
  recycle : list Z;
}.

Definition create_frame_iter (mm : list MemoryDescriptor) : list (Z * Z) :=
  usable ← filter (λ r, ty r = CONVENTIONAL) mm;
  (λ v, (v, phys_start usable)) <$> seqZ 0 (page_count usable).

Module FrameAlloc.

Definition init (mm : list MemoryDescriptor) (size : Z) : BootInfoFrameAllocator :=
  mkAllocator size 0 (create_frame_iter mm) [].

Definition frames_used (s : BootInfoFrameAllocator) : Z := used s.
Definition frames_total (s : BootInfoFrameAllocator) : Z := size s.
Definition frames_recycled (s : BootInfoFrameAllocator) : Z := Z.of_nat (length (recycle s)).

Section Ops.
Context `{Profile} `{X86_64}.

(** [self.frames.next()], with the closures of [create_frame_iter]. *)
Definition frames_next : M BootInfoFrameAllocator (option Z) :=
  s ← get;
  match frames s with
  | [] => mret None
  | (v, start) :: rest =>
      addr ← word_op 64 (v * 4096 + start);
      phys ← unwrap (PhysAddr_new addr);
      put (mkAllocator (size s) (used s) rest (recycle s));;
      mret (Some (PhysFrame_containing_address phys))
  end.

Definition allocate_frame : M BootInfoFrameAllocator (option Z) :=
  s ← get;
  match recycle s with
  | frame :: rest =>
      put (mkAllocator (size s) (used s) (frames s) rest);;
      mret (Some frame)
  | [] =>
      u ← word_op 64 (used s + 1);
      put (mkAllocator (size s) u (frames s) (recycle s));;
      frames_next
  end.

Definition deallocate_frame (frame : Z) : M BootInfoFrameAllocator () :=
  s ← get;
  u ← word_op 64 (used s - 1);
  put (mkAllocator (size s) u (frames s) (frame :: recycle s)).

#[global] Instance frame_allocator : FrameAllocator BootInfoFrameAllocator := allocate_frame.
#[global] Instance frame_deallocator : FrameDeallocator BootInfoFrameAllocator := λ f s,
  match deallocate_frame f s with
  | Done (_, s') => Done s'
  | Panic => Panic
  | OutOfFuel => OutOfFuel
  end.

(** ** Who holds which frame *)

(** States reachable from [s0] when every frame given back is one that is held. *)
Inductive reach (s0 : BootInfoFrameAllocator) : list Z → BootInfoFrameAllocator → Prop :=
  | reach_init : reach s0 [] s0
  | reach_alloc held s o s' :
      reach s0 held s → allocate_frame s = Done (o, s') →
      reach s0 (option_list o ++ held) s'
  | reach_dealloc held1 f held2 s u s' :
      reach s0 (held1 ++ f :: held2) s → deallocate_frame f s = Done (u, s') →
      reach s0 (held1 ++ held2) s'.

(** The frames the iterator yields for the usable regions. *)
Definition frame_at (vp : Z * Z) : Z := PhysFrame_containing_address (vp.1 * 4096 + vp.2).
Definition usable_frames (mm : list MemoryDescriptor) : list Z :=
  frame_at <$> create_frame_iter mm.

(** All usable memory lies below the 52-bit physical address limit. *)
Definition valid_map (mm : list MemoryDescriptor) : Prop :=
  Forall (λ vp, 0 ≤ vp.1 * 4096 + vp.2 < 2 ^ 52) (create_frame_iter mm).

Lemma frames_next_Done `{!X86_64_Laws _} s o s' :
  Forall (λ vp : Z * Z, 0 ≤ vp.1 * 4096 + vp.2 < 2 ^ 52) (frames s) →
  frames_next s = Done (o, s') →
  recycle s' = recycle s ∧ frames s' `suffix_of` frames s ∧
  frame_at <$> frames s = option_list o ++ (frame_at <$> frames s').
Proof.
  intros Hv Hn. unfold frames_next in Hn. inv_all.
  { match goal with E : frames _ = [] |- _ => rewrite E end. done. }
  apply Forall_cons in Hv as [Hv _]. simpl in Hv.
  match goal with Hw : word_op _ _ _ = _ |- _ =>
    apply word_op_Done in Hw as [-> [[_ ->]|(_ & Hneg & _)]] end; [|exfalso; apply Hneg; lia].
  match goal with Hp : PhysAddr_new _ = _ |- _ => rewrite PhysAddr_new_valid in Hp by lia end.
  simplify_eq/=. split_and!; [done|by apply suffix_cons_r|done].
Qed.

Lemma allocate_frame_Done `{!X86_64_Laws _} s o s' :
  Forall (λ vp : Z * Z, 0 ≤ vp.1 * 4096 + vp.2 < 2 ^ 52) (frames s) →
  allocate_frame s = Done (o, s') →
  frames s' `suffix_of` frames s ∧
  recycle s ++ (frame_at <$> frames s) = option_list o ++ recycle s' ++ (frame_at <$> frames s').
Proof.
  intros Hv Hn. unfold allocate_frame in Hn. inv_all; [|done].
  match goal with Hw : word_op _ _ _ = _ |- _ => apply word_op_Done in Hw as [-> _] end.
  match goal with Hf : frames_next _ = _ |- _ => apply frames_next_Done in Hf as (Hr & Hs & Hf'); [|done] end.
  simpl in *. split; [done|]. by rewrite Hf', Hr.
Qed.

Lemma deallocate_frame_Done f s u s' :
  deallocate_frame f s = Done (u, s') →
  recycle s' = f :: recycle s ∧ frames s' = frames s.
Proof.
  intros Hn. unfold deallocate_frame in Hn. inv_done.
  match goal with Hw : word_op _ _ _ = _ |- _ => apply word_op_Done in Hw as [-> _] end. done.
Qed.

(** C12: The frame allocator never hands out a frame that is in use.  At any point
    after [init] on a valid memory map, the frames held by callers, the
    recycled ones and those still in the iterator are together exactly the
    frames of the usable regions; when the regions do not overlap, the held
    frames are pairwise distinct. *)
Theorem frames_conserved `{!X86_64_Laws _} mm sz held s :
  valid_map mm → reach (init mm sz) held s →
  held ++ recycle s ++ (frame_at <$> frames s) ≡ₚ usable_frames mm ∧
  (NoDup (usable_frames mm) → NoDup held ∧ ∀ f, f ∈ held → f ∉ recycle s).
Proof.
  intros Hv Hr.
  assert (Hp : Forall (λ vp : Z * Z, 0 ≤ vp.1 * 4096 + vp.2 < 2 ^ 52) (frames s) ∧
    held ++ recycle s ++ (frame_at <$> frames s) ≡ₚ usable_frames mm).
  { induction Hr as [|held s o s' Hr [IHv IHp] Ha|held1 f held2 s u s' Hr [IHv IHp] Hd].
    - done.
    - destruct (allocate_frame_Done _ _ _ IHv Ha) as [[l Hl] He]. split.
      + rewrite Hl in IHv. by apply Forall_app in IHv as [_ ?].
      + rewrite <- IHp, He, (assoc_L (++) held). f_equiv. apply Permutation_app_comm.
    - destruct (deallocate_frame_Done _ _ _ _ Hd) as [-> ->]. split; [done|].
      rewrite <- IHp. simpl. by solve_Permutation. }
  destruct Hp as [_ Hp]. split; [done|]. rewrite <- Hp. intros Hnd.
  apply NoDup_app in Hnd as (Hh & Hd & _). split; [done|].
  intros f Hf Hr'. eapply Hd; [done|]. apply elem_of_app. by left.
Qed.

(** The [used] counter is not the number of frames in use: an allocation
    served from [recycle] does not count, but giving the frame back does.
    After allocating one frame, freeing it, and doing both once more, the
    second [deallocate_frame] computes 0 - 1: it panics when overflow is
    checked and otherwise leaves [frames_used] at 2^64 - 1 with no frame in
    use. *)
Theorem used_underflows `{!X86_64_Laws _} sz v st rest :
  0 ≤ v * 4096 + st < 2 ^ 52 →
  let f := frame_at (v, st) in
  ∃ s1 s2 s3,
    allocate_frame (mkAllocator sz 0 ((v, st) :: rest) []) = Done (Some f, s1) ∧
    deallocate_frame f s1 = Done ((), s2) ∧
    allocate_frame s2 = Done (Some f, s3) ∧
    frames_used s3 = 0 ∧
    deallocate_frame f s3 =
      (if debug_assertions then Panic
       else Done ((), mkAllocator sz u64_max rest [f])).
Proof.
  intros Hv f. exists (mkAllocator sz 1 rest []), (mkAllocator sz 0 rest [f]),
    (mkAllocator sz 0 rest []). split_and!; [| |done|done|].
  - unfold allocate_frame. rewrite (bind_step _ _ _ _ _ eq_refl). simpl.
    rewrite (bind_step _ _ _ _ _ (word_op_exact 64 (0 + 1) _ ltac:(lia))).
    rewrite (bind_step _ _ _ _ _ eq_refl).
    unfold frames_next. rewrite (bind_step _ _ _ _ _ eq_refl). simpl.
    rewrite (bind_step _ _ _ _ _ (word_op_exact 64 (v * 4096 + st) _ ltac:(lia))).
    by rewrite PhysAddr_new_valid by lia.
  - unfold deallocate_frame. rewrite (bind_step _ _ _ _ _ eq_refl). simpl.
    by rewrite (bind_step _ _ _ _ _ (word_op_exact 64 (1 - 1) _ ltac:(lia))).
  - unfold deallocate_frame. rewrite (bind_step _ _ _ _ _ eq_refl). simpl.
    unfold word_op. rewrite in_word_false by lia.
    by destruct debug_assertions.
Qed.

End Ops.

Section Witnesses.

Definition map_example : list MemoryDescriptor :=
  [mkDescriptor CONVENTIONAL 4096 2; mkDescriptor 2 0 1; mkDescriptor CONVENTIONAL 65536 1].

Lemma frames_conserved_witness :
  ∃ s, [4096] ++ recycle s ++ ((λ vp, frame_at (H0 := x86_ref) vp) <$> frames s)
         ≡ₚ usable_frames (H0 := x86_ref) map_example ∧
    (NoDup (usable_frames (H0 := x86_ref) map_example) →
     NoDup [4096] ∧ ∀ f, f ∈ [4096] → f ∉ recycle s).
Proof.
  exists (mkAllocator 3 1 [(1, 4096); (0, 65536)] []).
  apply (frames_conserved (H := debug) (H0 := x86_ref) map_example 3).
  - unfold valid_map.
    replace (create_frame_iter map_example) with [(0, 4096); (1, 4096); (0, 65536)] by reflexivity.
    repeat constructor; simpl; lia.
  - apply (reach_alloc (H := debug) (H0 := x86_ref) (init map_example 3) [] (init map_example 3) (Some 4096)).
    + apply reach_init.
    + vm_compute. reflexivity.
Defined.

Lemma used_underflows_witness :
  ∃ s1 s2 s3,
    allocate_frame (H := debug) (H0 := x86_ref) (mkAllocator 3 0 [(0, 4096)] []) = Done (Some 4096, s1) ∧
    deallocate_frame (H := debug) 4096 s1 = Done ((), s2) ∧
    allocate_frame (H := debug) (H0 := x86_ref) s2 = Done (Some 4096, s3) ∧
    frames_used s3 = 0 ∧
    deallocate_frame (H := debug) 4096 s3 = Panic.
Proof.
  apply (used_underflows (H := debug) (H0 := x86_ref) 3 0 4096 []). lia.
Defined.

End Witnesses.
End FrameAlloc.
