(* ===== verification/Elf.v ===== *)
(** The loader library [pkg/elf/src/lib.rs]: mapping and unmapping ranges of
    pages, and loading the segments of an ELF file.

    The functions are generic in the page table and in the frame allocator, as
    in the source ([impl Mapper<Size4KiB>], [impl FrameAllocator<Size4KiB>]).
    The state they work on is a [Machine]: the page tables, the allocator and
    the memory, the latter addressed through the direct map of physical memory
    ([frame + physical_offset]). *)
From S2P Require Import Prelude Arch.

Record Machine (PT A : Type) : Type := mkMachine {
  tables : PT;
  falloc : A;
  mem : Z → Z;
}.
Arguments mkMachine {PT A}.
Arguments tables {PT A}.
Arguments falloc {PT A}.
Arguments mem {PT A}.

(** ** Memory *)

(** [write_bytes(addr, byte, n)] *)
Definition write_bytes (addr byte n : Z) (m : Z → Z) : Z → Z :=
  λ a, if (addr <=? a) && (a <? addr + n) then byte else m a.

(** [copy_nonoverlapping] of [n] bytes of a buffer [data], from its offset [src] *)
Definition copy_bytes (data : Z → Z) (src dst n : Z) (m : Z → Z) : Z → Z :=
  λ a, if (dst <=? a) && (a <? dst + n) then data (src + (a - dst)) else m a.

(** ** ELF files, as [xmas_elf] presents them *)

Inductive SegmentType : Type := Load | OtherSegment.
#[global] Instance SegmentType_eq_dec : EqDecision SegmentType.
Proof. solve_decision. Defined.

Record ProgramHeader : Type := mkProgramHeader {
  get_type : option SegmentType;  (** [None]: [get_type()] is an error *)
  p_offset : Z;
  virtual_addr : Z;
  file_size : Z;
  mem_size : Z;
  is_execute : bool;
  is_write : bool;
}.

Record ElfFile : Type := mkElfFile {
  input : Z → Z;                  (** the bytes of the file *)
  program_iter : list ProgramHeader;
  entry_point : Z;
}.

Section Elf.
Context `{Profile} `{X86_64} {PT A : Type} `{Mapper PT} `{FrameAllocator A} `{FrameDeallocator A}.
#[local] Abbreviation St := (Machine PT A).

(** ** The allocator and the mapper as operations on the machine *)

Definition alloc_frame : M St (option Z) := λ s,
  match allocate_frame (falloc s) with
  | Done (o, a) => Done (o, mkMachine (tables s) a (mem s))
  | Panic => Panic
  | OutOfFuel => OutOfFuel
  end.

Definition dealloc_frame (frame : Z) : M St () := λ s,
  match deallocate_frame frame (falloc s) with
  | Done a => Done ((), mkMachine (tables s) a (mem s))
  | Panic => Panic
  | OutOfFuel => OutOfFuel
  end.

Definition page_map_to (root page frame flags : Z) : M St (result () MapToError) := λ s,
  match map_to root page frame flags (tables s) (falloc s) with
  | Done (r, pt, a) => Done (r, mkMachine pt a (mem s))
  | Panic => Panic
  | OutOfFuel => OutOfFuel
  end.

Definition page_unmap (root page : Z) : M St (result Z UnmapError) := λ s,
  let '(r, pt) := unmap root page (tables s) in
  Done (r, mkMachine pt (falloc s) (mem s)).

Definition modify_mem (f : (Z → Z) → (Z → Z)) : M St () :=
  modify (λ s, mkMachine (tables s) (falloc s) (f (mem s))).

(** ** Mapping *)

Fixpoint map_loop (root flags : Z) (pages : list Z) : M St (result () MapToError) :=
  match pages with
  | [] => mret (Ok ())
  | page :: pages =>
      o ← alloc_frame;
      match o with
      | None => mret (Err FrameAllocationFailed)
      | Some frame =>
          _ ←? page_map_to root page frame flags;
          map_loop root flags pages
      end
  end.

Definition map_flags (user_access : bool) : Z :=
  let flags := Z.lor PRESENT WRITABLE in
  if user_access then Z.lor flags USER_ACCESSIBLE else flags.

Definition map_range (start stop root : Z) (user_access : bool) : M St (result () MapToError) :=
  map_loop root (map_flags user_access) (Page_range_inclusive start stop).

(** The answer is the [PageRange], as its two bounds. *)
Definition map_pages (addr pages root : Z) (user_access : bool) :
    M St (result (Z * Z) MapToError) :=
  debug_assert (0 <? pages);;
  va ← unwrap (VirtAddr_new addr);
  let range_start := Page_containing_address va in
  range_end ← unwrap (Page_add range_start pages);
  last ← unwrap (Page_sub range_end 1);
  _ ←? map_range range_start last root user_access;
  mret (Ok (range_start, range_end)).

(** ** Unmapping *)

Fixpoint unmap_loop (root : Z) (do_dealloc : bool) (pages : list Z) : M St (result () UnmapError) :=
  match pages with
  | [] => mret (Ok ())
  | page :: pages =>
      frame ←? page_unmap root page;
      (if do_dealloc then dealloc_frame frame else mret ());;
      unmap_loop root do_dealloc pages
  end.

Definition unmap_range (start stop root : Z) (do_dealloc : bool) : M St (result () UnmapError) :=
  unmap_loop root do_dealloc (Page_range_inclusive start stop).

Definition unmap_pages (addr pages root : Z) (do_dealloc : bool) : M St (result () UnmapError) :=
  debug_assert (0 <? pages);;
  va ← unwrap (VirtAddr_new addr);
  let start := Page_containing_address va in
  p ← unwrap (Page_add start pages);
  stop ← unwrap (Page_sub p 1);
  unmap_range start stop root do_dealloc.

(** ** Loading segments *)

Definition segment_flags (segment : ProgramHeader) (user_access : bool) : Z :=
  let flags := PRESENT in
  let flags := if is_execute segment then flags else Z.lor flags NO_EXECUTE in
  let flags := if is_write segment then Z.lor flags WRITABLE else flags in
  if user_access then Z.lor flags USER_ACCESSIBLE else flags.

(** The loop over [pages.enumerate()] of [load_segment]; [data] is the offset of
    the first byte to load in [elf.input]. *)
Fixpoint load_loop (elf_input : Z → Z) (data file_size physical_offset root flags : Z)
    (idx : Z) (pages : list Z) : M St (result () MapToError) :=
  match pages with
  | [] => mret (Ok ())
  | page :: pages =>
      o ← alloc_frame;
      match o with
      | None => mret (Err FrameAllocationFailed)
      | Some frame =>
          offset ← word_op 64 (idx * PAGE);
          rest ← word_op 64 (file_size - offset);
          count ← (if rest <? PAGE then word_op 64 (file_size - offset) else mret PAGE);
          dst ← word_op 64 (frame + physical_offset);
          modify_mem (copy_bytes elf_input (data + idx * PAGE) dst count);;
          _ ←? page_map_to root page frame flags;
          (if count <? PAGE then
             tail ← word_op 64 (dst + count);
             modify_mem (write_bytes tail 0 (PAGE - count))
           else mret ());;
          load_loop elf_input data file_size physical_offset root flags (idx + 1) pages
      end
  end.

Fixpoint bss_loop (physical_offset root flags : Z) (pages : list Z) : M St (result () MapToError) :=
  match pages with
  | [] => mret (Ok ())
  | page :: pages =>
      o ← alloc_frame;
      match o with
      | None => mret (Err FrameAllocationFailed)
      | Some frame =>
          _ ←? page_map_to root page frame flags;
          dst ← word_op 64 (frame + physical_offset);
          modify_mem (write_bytes dst 0 PAGE);;
          bss_loop physical_offset root flags pages
      end
  end.

(** [segment.offset() & !0xfff] *)
Definition page_offset (offset : Z) : Z := Z.land offset (Z.lnot 0xfff).

Definition load_segment (elf : ElfFile) (physical_offset : Z) (segment : ProgramHeader)
    (root : Z) (user_access : bool) : M St (result (Z * Z) MapToError) :=
  let mem_sz := mem_size segment in
  let file_sz := file_size segment in
  let file_offset := page_offset (p_offset segment) in
  virt_start_addr ← unwrap (VirtAddr_new (virtual_addr segment));
  let flags := segment_flags segment user_access in
  let start_page := Page_containing_address virt_start_addr in
  file_end ← unwrap (VirtAddr_add virt_start_addr file_sz);
  file_last ← unwrap (VirtAddr_sub file_end 1);
  let end_page := Page_containing_address file_last in
  _ ←? load_loop (input elf) file_offset file_sz physical_offset root flags 0
         (Page_range_inclusive start_page end_page);
  _ ←? (if file_sz <? mem_sz then
          zero_start ← unwrap (VirtAddr_add virt_start_addr file_sz);
          zero_end ← unwrap (VirtAddr_add virt_start_addr mem_sz);
          bss ← unwrap (VirtAddr_new (align_up zero_start PAGE));
          bss_loop physical_offset root flags
            (Page_range_inclusive (Page_containing_address bss) (Page_containing_address zero_end))
        else mret (Ok ()));
  mem_end ← unwrap (VirtAddr_add virt_start_addr mem_sz);
  mem_last ← unwrap (VirtAddr_sub mem_end 1);
  mret (Ok (start_page, Page_containing_address mem_last)).

(** The iterator chain of [load_elf]: headers that are not [Load] are skipped, the
    first error stops the loading, [collect] gathers the page ranges. *)
Fixpoint load_segments (elf : ElfFile) (physical_offset : Z) (segments : list ProgramHeader)
    (root : Z) (user_access : bool) : M St (result (list (Z * Z)) MapToError) :=
  match segments with
  | [] => mret (Ok [])
  | segment :: segments =>
      t ← unwrap (get_type segment);
      if decide (t = Load) then
        range ←? load_segment elf physical_offset segment root user_access;
        ranges ←? load_segments elf physical_offset segments root user_access;
        mret (Ok (range :: ranges))
      else load_segments elf physical_offset segments root user_access
  end.

Definition load_elf (elf : ElfFile) (physical_offset root : Z) (user_access : bool) :
    M St (result (list (Z * Z)) MapToError) :=
  load_segments elf physical_offset (program_iter elf) root user_access.

End Elf.

(** ** What the loops do to the page table *)

Section ElfFacts.
Context `{Profile} `{X86_64} {PT A : Type} `{!Mapper PT} `{!FrameAllocator A} `{!FrameDeallocator A}.
Context (mapping : PT → Z → Z → option (Z * Z)).
#[local] Abbreviation St := (Machine PT A).

(** [pages] are mapped to [fs], one by one, and no other page changed. *)
Definition mapped_exactly (root flags : Z) (pages fs : list Z) (pt pt' : PT) : Prop :=
  length fs = length pages ∧
  (∀ i p f, pages !! i = Some p → fs !! i = Some f →
     mapping pt root p = None ∧ mapping pt' root p = Some (f, flags)) ∧
  ∀ q, q ∉ pages → mapping pt' root q = mapping pt root q.

Lemma mapped_exactly_nil root fl pt : mapped_exactly root fl [] [] pt pt.
Proof. split_and!; [done|by intros []|done]. Qed.

Lemma mapped_exactly_nil_eq root fl pt pt' :
  (∀ q, mapping pt' root q = mapping pt root q) → mapped_exactly root fl [] [] pt pt'.
Proof. intros Hq. split_and!; [done|by intros []|auto]. Qed.

(** Mapping one page and then the others. *)
Lemma mapped_exactly_cons root fl p f ps fs pt pt1 pt2 :
  p ∉ ps → mapping pt root p = None → mapping pt1 root p = Some (f, fl) →
  (∀ q, q ≠ p → mapping pt1 root q = mapping pt root q) →
  mapped_exactly root fl ps fs pt1 pt2 →
  mapped_exactly root fl (p :: ps) (f :: fs) pt pt2.
Proof.
  intros Hp Hn Hy Ho (Hl & Hf & Hq). split_and!.
  - simpl. by rewrite Hl.
  - intros [|i] q g Hqi Hg; simplify_eq/=.
    + by rewrite Hq.
    + pose proof (Hf i q g Hqi Hg) as [H1 H2]. split; [|done].
      rewrite <- Ho; [done|]. intros ->. by apply Hp, (list_elem_of_lookup_2 _ i).
  - intros q Hq'. rewrite Hq, Ho by set_solver. done.
Qed.

Lemma alloc_frame_Done (s : St) o s' :
  alloc_frame s = Done (o, s') →
  tables s' = tables s ∧ mem s' = mem s ∧ alloc_steps (falloc s) (falloc s').
Proof.
  unfold alloc_frame. destruct (allocate_frame _) as [[o' a']| |] eqn:E; [|done..].
  intros [= <- <-]. simpl. split_and!; [done..|]. eauto using alloc_steps.
Qed.

Context `{!Mapper_Laws PT mapping}.

Lemma page_map_to_Done root p f fl (s : St) r s' :
  page_map_to root p f fl s = Done (r, s') →
  mem s' = mem s ∧ alloc_steps (falloc s) (falloc s') ∧
  match r with
  | Ok _ => mapping (tables s) root p = None ∧ mapping (tables s') root p = Some (f, fl) ∧
            ∀ q, q ≠ p → mapping (tables s') root q = mapping (tables s) root q
  | Err _ => ∀ q, mapping (tables s') root q = mapping (tables s) root q
  end.
Proof.
  unfold page_map_to. destruct (map_to _ _ _ _ _ _) as [[[r' pt'] a']| |] eqn:E; [|done..].
  intros [= <- <-]. simpl. destruct r' as [[]|e].
  - apply map_to_ok in E as (? & ? & ? & ?). done.
  - apply map_to_err in E as (? & ?). done.
Qed.

Lemma map_loop_returns root fl pages (s : St) :
  mapping_returns PT A → ∃ r, map_loop root fl pages s = Done r.
Proof.
  intros [Ha Hm]. revert s. induction pages as [|p pages IH]; intros s; simpl; [by eexists|].
  unfold mbind, M_bind, alloc_frame. destruct (Ha (falloc s)) as [[[f|] a] ->]; [|by eexists].
  unfold page_map_to. simpl. destruct (Hm root p f fl (tables s) a) as [[[[[]|e] pt] a'] ->]; [apply IH|by eexists].
Qed.

Lemma map_loop_Done root fl pages (s : St) r s' :
  NoDup pages → map_loop root fl pages s = Done (r, s') →
  mem s' = mem s ∧ alloc_steps (falloc s) (falloc s') ∧
  match r with
  | Ok _ => ∃ fs, mapped_exactly root fl pages fs (tables s) (tables s')
  | Err _ => ∃ mapped page rest fs, pages = mapped ++ page :: rest ∧
               mapped_exactly root fl mapped fs (tables s) (tables s')
  end.
Proof.
  intros Hnd. revert s. induction Hnd as [|p pages Hp Hnd IH]; intros s Hr; simpl in Hr.
  { inv_done. split_and!; [done|constructor|]. exists []. apply mapped_exactly_nil. }
  apply bind_Done in Hr as (o & s1 & Ha & Hr).
  apply alloc_frame_Done in Ha as (Ht & Hm & Hs).
  destruct o as [f|]; inv_done; cycle 1.
  { split_and!; [done..|]. exists [], p, pages, []. rewrite Ht.
    split; [done|]. apply mapped_exactly_nil. }
  match goal with H : page_map_to _ _ _ _ _ = _ |- _ =>
    apply page_map_to_Done in H as (Hm' & Hs' & Hr') end.
  rewrite Ht in Hr'.
  match goal with H : match ?r with _ => _ end _ = Done _ |- _ => destruct r as [[]|e] end; inv_done.
  - destruct Hr' as (Hn & Hy & Ho). match goal with H : map_loop _ _ _ _ = _ |- _ =>
      apply IH in H as (Hm'' & Hs'' & Hr'') end.
    split_and!; [congruence|eauto using alloc_steps_trans|].
    destruct r as [[]|e].
    + destruct Hr'' as [fs Hf]. exists (f :: fs). eauto using mapped_exactly_cons.
    + destruct Hr'' as (m & pg & rest & fs & -> & Hf).
      exists (p :: m), pg, rest, (f :: fs). split; [done|].
      eapply mapped_exactly_cons; [|done..|exact Hf]. set_solver.
  - split_and!; [congruence|eauto using alloc_steps_trans|].
    exists [], p, pages, []. split; [done|]. apply mapped_exactly_nil_eq, Hr'.
Qed.

(** Freeing the frames of a list, in order. *)
Fixpoint dealloc_all (fs : list Z) (a : A) : outcome A :=
  match fs with
  | [] => Done a
  | f :: fs => match deallocate_frame f a with
               | Done a' => dealloc_all fs a'
               | Panic => Panic
               | OutOfFuel => OutOfFuel
               end
  end.

(** [pages] are mapped to [fs], one by one. *)
Definition mapped_to (root : Z) (pages fs : list Z) (pt : PT) : Prop :=
  Forall2 (λ p f, ∃ fl, mapping pt root p = Some (f, fl)) pages fs.

Lemma mapped_to_exists root pages pt :
  (∀ p, p ∈ pages → is_Some (mapping pt root p)) → ∃ fs, mapped_to root pages fs pt.
Proof.
  induction pages as [|p pages IH]; intros Hs; [by exists []; constructor|].
  destruct (Hs p) as [[f fl] Hp]; [set_solver|].
  destruct IH as [fs Hf]; [set_solver|]. exists (f :: fs). constructor; eauto.
Qed.

Lemma unmap_loop_mapped root pages fs (s : St) a' :
  NoDup pages → mapped_to root pages fs (tables s) → dealloc_all fs (falloc s) = Done a' →
  ∃ pt', unmap_loop root true pages s = Done (Ok (), mkMachine pt' a' (mem s)) ∧
    (∀ p, p ∈ pages → mapping pt' root p = None) ∧
    ∀ q, q ∉ pages → mapping pt' root q = mapping (tables s) root q.
Proof.
  intros Hnd. revert fs s. induction Hnd as [|p pages Hp Hnd IH]; intros fs [pt a m] Hm Hd.
  { apply Forall2_nil_inv_l in Hm as ->. injection Hd as <-. exists pt. by split_and!; [|set_solver|]. }
  apply Forall2_cons_inv_l in Hm as (f & fs' & [fl Hy] & Hm & ->). simpl in *.
  destruct (deallocate_frame f a) as [a1| |] eqn:Ea; [|done..].
  destruct (unmap_mapped root p f fl pt Hy) as (pt1 & Eu & Hn1 & Ho1).
  destruct (IH fs' (mkMachine pt1 a1 m)) as (pt2 & E2 & Hn2 & Ho2); simpl.
  - apply Forall2_same_length_lookup_2; [by eapply Forall2_length|].
    intros i q g Hq Hg. destruct (Forall2_lookup_lr _ _ _ _ _ _ Hm Hq Hg) as [fl' Hm'].
    exists fl'. rewrite Ho1; [done|]. intros ->. by apply Hp, (list_elem_of_lookup_2 _ i).
  - done.
  - exists pt2. split_and!.
    + unfold mbind, M_bind, page_unmap, dealloc_frame. simpl. rewrite Eu. simpl. by rewrite Ea.
    + intros q [->|Hq]%elem_of_cons; [by rewrite Ho2|by apply Hn2].
    + intros q [Hqp Hq]%not_elem_of_cons. rewrite Ho2, Ho1 by done. done.
Qed.

(** Whatever happens, only the pages of the list can change. *)
Lemma page_unmap_frame root p (s : St) r s' :
  page_unmap root p s = Done (r, s') →
  mem s' = mem s ∧ falloc s' = falloc s ∧
  ∀ q, q ≠ p → mapping (tables s') root q = mapping (tables s) root q.
Proof.
  unfold page_unmap. destruct (unmap root p (tables s)) as [r' pt'] eqn:E. intros [= <- <-]. simpl.
  split_and!; [done..|]. intros q Hq. destruct (mapping (tables s) root p) as [[f fl]|] eqn:Em.
  - destruct (unmap_mapped root p f fl _ Em) as (pt1 & Eu & _ & Ho). rewrite Eu in E.
    injection E as <- <-. by apply Ho.
  - destruct (unmap_not_mapped root p _ Em) as [e Eu]. rewrite Eu in E. by injection E as <- <-.
Qed.

Lemma unmap_loop_frame root dealloc pages (s : St) r s' :
  unmap_loop root dealloc pages s = Done (r, s') →
  mem s' = mem s ∧ ∀ q, q ∉ pages → mapping (tables s') root q = mapping (tables s) root q.
Proof.
  revert s. induction pages as [|p pages IH]; intros s Hr; simpl in Hr; [by inv_done|].
  apply bind_Done in Hr as (x & s1 & Hu & Hr). apply page_unmap_frame in Hu as (Hm & _ & Hq).
  destruct x as [f|e]; cycle 1.
  { inv_done. split; [done|]. intros q Hn. apply Hq. set_solver. }
  apply bind_Done in Hr as (u & s2 & Hd & Hr). apply IH in Hr as [Hm' Hq'].
  assert (Hs2 : tables s2 = tables s1 ∧ mem s2 = mem s1).
  { destruct dealloc; [|by inv_done]. unfold dealloc_frame in Hd.
    destruct (deallocate_frame f (falloc s1)); by inv_done. }
  destruct Hs2 as [Ht Hm2]. split; [congruence|]. intros q Hn.
  rewrite Hq', Ht, Hq by set_solver. done.
Qed.

Lemma mapped_exactly_to root fl pages fs pt pt' :
  mapped_exactly root fl pages fs pt pt' → mapped_to root pages fs pt'.
Proof.
  intros (Hl & Hf & _). apply Forall2_same_length_lookup_2; [done|].
  intros i p f Hp Hfi. exists fl. by apply (Hf i).
Qed.

Lemma unmap_loop_Done root fl pages fs (pt0 : PT) (s : St) a' :
  NoDup pages → mapped_exactly root fl pages fs pt0 (tables s) →
  dealloc_all fs (falloc s) = Done a' →
  ∃ pt', unmap_loop root true pages s = Done (Ok (), mkMachine pt' a' (mem s)) ∧
    ∀ q, mapping pt' root q = mapping pt0 root q.
Proof.
  intros Hnd Hm Hd. pose proof (mapped_exactly_to _ _ _ _ _ _ Hm) as Hto.
  destruct (unmap_loop_mapped _ _ _ _ _ Hnd Hto Hd) as (pt' & Hu & Hn & Ho).
  exists pt'. split; [done|]. intros q. destruct Hm as (Hl & Hf & Hq).
  destruct (decide (q ∈ pages)) as [Hin|Hni]; [|by rewrite Ho, Hq].
  rewrite Hn by done. apply list_elem_of_lookup in Hin as [i Hi].
  destruct (lookup_lt_is_Some_2 fs i) as [f Hfi].
  { rewrite Hl. by eapply lookup_lt_Some. }
  by destruct (Hf i q f Hi Hfi) as [-> _].
Qed.

Context `{!X86_64_Laws _}.

(** Where [map_pages] and [unmap_pages] can work without leaving the lower half. *)
Definition user_range (addr pages : Z) : Prop :=
  0 ≤ addr ∧ 0 < pages ∧ addr + pages * PAGE < 2 ^ 47 - PAGE.

Lemma page_base_bounds addr :
  0 ≤ addr → aligned (addr - addr `mod` PAGE) ∧ 0 ≤ addr - addr `mod` PAGE ≤ addr.
Proof. unfold aligned, PAGE. intros. Z.div_mod_to_equations. lia. Qed.

Lemma aligned_add start n : aligned start → aligned (start + n * PAGE).
Proof. unfold aligned. intros. rewrite Z_mod_plus_full. done. Qed.

Lemma user_range_pages addr pages start :
  user_range addr pages → start = addr - addr `mod` PAGE →
  VirtAddr_new addr = Some addr ∧ Page_containing_address addr = start ∧
  Page_add start pages = Some (start + pages * PAGE) ∧
  Page_sub (start + pages * PAGE) 1 = Some (start + pages * PAGE - PAGE) ∧
  Page_range_inclusive start (start + pages * PAGE - PAGE) =
    pages_between start (start + pages * PAGE).
Proof.
  intros (Ha & Hp & Hb) Heq.
  assert (aligned start ∧ 0 ≤ start ≤ addr) as [Hal Hs] by (subst; by apply page_base_bounds).
  assert (Hc : canonical addr) by (left; unfold PAGE in *; lia).
  split_and!.
  - by apply VirtAddr_new_canonical.
  - rewrite Page_containing_address_eq by done. done.
  - apply Page_add_user; unfold user, PAGE in *; [done|lia..].
  - rewrite Page_sub_user; [f_equal; unfold PAGE; lia|by apply aligned_add|unfold PAGE in *; lia..].
  - rewrite Page_range_inclusive_eq; [f_equal; unfold PAGE; lia|done| |lia|unfold user, PAGE in *; lia].
    replace (start + pages * PAGE - PAGE) with (start + (pages - 1) * PAGE) by lia.
    by apply aligned_add.
Qed.

(** On a range of user pages the argument checks disappear. *)
Lemma map_pages_eq addr pages start root user_access (s : St) :
  user_range addr pages → start = addr - addr `mod` PAGE →
  map_pages addr pages root user_access s =
  (_ ←? map_loop root (map_flags user_access) (pages_between start (start + pages * PAGE));
   mret (Ok (start, start + pages * PAGE))) s.
Proof.
  intros Hr Hs. destruct (user_range_pages addr pages start Hr Hs) as (E1 & E2 & E3 & E4 & E5).
  unfold map_pages, map_range. rewrite E1, (proj2 (Z.ltb_lt 0 pages)) by apply Hr.
  rewrite (bind_step _ _ s () s) by (by apply debug_assert_Done).
  rewrite (bind_step _ _ s addr s) by done. cbv zeta. rewrite E2, E3.
  rewrite (bind_step _ _ s (start + pages * PAGE) s), E4 by done.
  by rewrite (bind_step _ _ s (start + pages * PAGE - PAGE) s), E5 by done.
Qed.

Lemma unmap_pages_eq addr pages start root dealloc (s : St) :
  user_range addr pages → start = addr - addr `mod` PAGE →
  unmap_pages addr pages root dealloc s =
  unmap_loop root dealloc (pages_between start (start + pages * PAGE)) s.
Proof.
  intros Hr Hs. destruct (user_range_pages addr pages start Hr Hs) as (E1 & E2 & E3 & E4 & E5).
  unfold unmap_pages, unmap_range. rewrite E1, (proj2 (Z.ltb_lt 0 pages)) by apply Hr.
  rewrite (bind_step _ _ s () s) by (by apply debug_assert_Done).
  rewrite (bind_step _ _ s addr s) by done. cbv zeta. rewrite E2, E3.
  rewrite (bind_step _ _ s (start + pages * PAGE) s), E4 by done.
  by rewrite (bind_step _ _ s (start + pages * PAGE - PAGE) s), E5 by done.
Qed.

Lemma map_pages_returns addr pages root user_access (s : St) :
  mapping_returns PT A → user_range addr pages → ∃ r, map_pages addr pages root user_access s = Done r.
Proof.
  intros Hret Hr. rewrite (map_pages_eq _ _ (addr - addr `mod` PAGE)) by done.
  destruct (map_loop_returns root (map_flags user_access)
    (pages_between (addr - addr `mod` PAGE) (addr - addr `mod` PAGE + pages * PAGE)) s Hret) as [[[[]|e] s'] Hl];
    rewrite (bind_step _ _ _ _ _ Hl); by eexists.
Qed.

Lemma map_pages_Done addr pages root user_access (s : St) r s' :
  user_range addr pages → map_pages addr pages root user_access s = Done (r, s') →
  let start := addr - addr `mod` PAGE in
  mem s' = mem s ∧
  match r with
  | Ok (p, q) => p = start ∧ q = start + pages * PAGE ∧
      ∃ fs, mapped_exactly root (map_flags user_access) (pages_between p q) fs (tables s) (tables s')
  | Err e => ∃ mapped page rest fs,
      pages_between start (start + pages * PAGE) = mapped ++ page :: rest ∧
      mapped_exactly root (map_flags user_access) mapped fs (tables s) (tables s')
  end.
Proof.
  intros Hr Hm start. rewrite (map_pages_eq _ _ start) in Hm by done.
  apply bind_Done in Hm as (r' & s1 & Hl & Hm).
  apply map_loop_Done in Hl as (Hme & _ & Hr'); [|apply pages_between_NoDup].
  destruct r' as [[]|e]; inv_done; split; done.
Qed.

(** [map_pages] on a range of user pages returns, when the allocator and the mapper
    do; the contents of memory are untouched, and either it answers [Ok] with the page range, every
    page of which was unmapped before and is now mapped to one frame with the
    requested flags, or it answers [Err] and exactly the pages before the one
    that failed are mapped: there is no rollback.  No page outside the range
    changes. *)
Theorem map_pages_spec addr pages root user_access (s : St) :
  user_range addr pages →
  let start := addr - addr `mod` PAGE in
  (mapping_returns PT A → ∃ r, map_pages addr pages root user_access s = Done r) ∧
  ∀ r s', map_pages addr pages root user_access s = Done (r, s') →
  mem s' = mem s ∧
  match r with
  | Ok (p, q) => p = start ∧ q = start + pages * PAGE ∧
      ∃ fs, mapped_exactly root (map_flags user_access) (pages_between p q) fs (tables s) (tables s')
  | Err e => ∃ mapped page rest fs,
      pages_between start (start + pages * PAGE) = mapped ++ page :: rest ∧
      mapped_exactly root (map_flags user_access) mapped fs (tables s) (tables s')
  end.
Proof.
  intros Hr start. split; [intros; by apply map_pages_returns|]. intros r s' Hm. by apply map_pages_Done.
Qed.

(** [unmap_pages] undoes [map_pages]: after a successful [map_pages], unmapping
    the same range with deallocation succeeds, the page table maps every page
    as it did before, and the frames given back are the ones just mapped. *)
Theorem map_unmap_pages addr pages root user_access (s s1 : St) rng :
  (∀ fs a, ∃ a', dealloc_all fs a = Done a') →
  user_range addr pages →
  map_pages addr pages root user_access s = Done (Ok rng, s1) →
  ∃ s2 fs, unmap_pages addr pages root true s1 = Done (Ok (), s2) ∧
    Z.of_nat (length fs) = pages ∧
    (∀ q, mapping (tables s2) root q = mapping (tables s) root q) ∧
    mem s2 = mem s ∧ dealloc_all fs (falloc s1) = Done (falloc s2).
Proof.
  intros Hd Hr Hm. pose proof (map_pages_Done _ _ _ _ _ _ _ Hr Hm) as [Hme Hok].
  destruct rng as [p q], Hok as (-> & -> & fs & Hf). set (start := addr - addr `mod` PAGE) in *.
  destruct (Hd fs (falloc s1)) as [a' Ha'].
  destruct (unmap_loop_Done _ _ _ _ _ _ _ (pages_between_NoDup _ _) Hf Ha') as (pt' & Eu & Hq).
  exists (mkMachine pt' a' (mem s1)), fs. split_and!; [|..|done|done|done].
  - by rewrite (unmap_pages_eq _ _ start).
  - destruct Hf as [Hl _]. rewrite Hl, pages_between_length. destruct Hr as (Ha & Hp & Hb).
    replace (start + pages * PAGE - start) with (pages * PAGE) by lia.
    unfold PAGE. rewrite Z.div_mul by lia. lia.
Qed.

(** Existing mappings survive. *)
Definition preserved (root : Z) (pt pt' : PT) : Prop :=
  ∀ q x, mapping pt root q = Some x → mapping pt' root q = Some x.

Lemma mapped_exactly_preserved root fl pages fs pt pt' :
  mapped_exactly root fl pages fs pt pt' → preserved root pt pt'.
Proof.
  intros (Hl & Hf & Hq) q x Hx. destruct (decide (q ∈ pages)) as [Hin|Hni].
  - apply list_elem_of_lookup in Hin as [i Hi].
    destruct (lookup_lt_is_Some_2 fs i) as [f Hfi].
    { rewrite Hl. by eapply lookup_lt_Some. }
    destruct (Hf i q f Hi Hfi) as [Hn _]. congruence.
  - by rewrite Hq.
Qed.

(** ** Reading through an address space *)

(** The byte that the address space of [root] shows at [va]. *)
Definition read (root offset : Z) (s : St) (va : Z) : option Z :=
  (λ x : Z * Z, mem s (x.1 + offset + va `mod` PAGE)) <$> mapping (tables s) root (va - va `mod` PAGE).

(** No frame is mapped twice, and frames are page aligned. *)
Definition no_alias (root : Z) (pt : PT) : Prop :=
  ∀ p q x y, mapping pt root p = Some x → mapping pt root q = Some y →
    aligned x.1 ∧ (x.1 = y.1 → p = q).

Lemma read_eq root offset (s : St) p i f fl k :
  aligned p → 0 ≤ k < PAGE → mapping (tables s) root (p + i * PAGE) = Some (f, fl) →
  read root offset s (p + i * PAGE + k) = Some (mem s (f + offset + k)).
Proof.
  intros Hp Hk Hm. unfold read, aligned, PAGE in *.
  assert ((p + i * 4096 + k) `mod` 4096 = k) as -> by (Z.div_mod_to_equations; lia).
  replace (p + i * 4096 + k - k) with (p + i * 4096) by lia. by rewrite Hm.
Qed.

End ElfFacts.

(** ** An example: two pages at 4 MiB *)

Section ElfWitnesses.
#[local] Existing Instance debug.
#[local] Existing Instance x86_ref.

Definition machine_example : Machine table free_list :=
  mkMachine ∅ [0x1000; 0x2000; 0x3000] (λ a, a).
Definition mapped_example : Machine table free_list :=
  state_of (map_pages 0x400000 2 7 true machine_example) machine_example.

Lemma user_range_example : user_range 0x400000 2.
Proof. unfold user_range, PAGE. lia. Qed.

Lemma map_pages_spec_witness :
  (∃ r, map_pages 0x400000 2 7 true machine_example = Done r) ∧
  mem mapped_example = mem machine_example ∧
  0x400000 = 0x400000 - 0x400000 `mod` PAGE ∧ 0x402000 = 0x400000 - 0x400000 `mod` PAGE + 2 * PAGE ∧
  ∃ fs, mapped_exactly table_mapping 7 (map_flags true) (pages_between 0x400000 0x402000) fs
          (tables machine_example) (tables mapped_example).
Proof.
  destruct (map_pages_spec table_mapping 0x400000 2 7 true machine_example) as [Hr Hs].
  - apply user_range_example.
  - split; [apply Hr, mapping_ref_returns|].
    apply (Hs (Ok (0x400000, 0x402000))). vm_compute. reflexivity.
Defined.

Lemma dealloc_all_free_list fs (a : free_list) : ∃ a', dealloc_all fs a = Done a'.
Proof. revert a. induction fs as [|f fs IH]; intros a; simpl; eauto. Qed.

Lemma map_unmap_pages_witness :
  ∃ s2 fs, unmap_pages 0x400000 2 7 true mapped_example = Done (Ok (), s2) ∧
    Z.of_nat (length fs) = 2 ∧
    (∀ q, table_mapping (tables s2) 7 q = table_mapping (tables machine_example) 7 q) ∧
    mem s2 = mem machine_example ∧ dealloc_all fs (falloc mapped_example) = Done (falloc s2).
Proof.
  apply (map_unmap_pages table_mapping 0x400000 2 7 true machine_example mapped_example
           (0x400000, 0x402000)).
  - apply dealloc_all_free_list.
  - apply user_range_example.
  - vm_compute. reflexivity.
Defined.

End ElfWitnesses.
