(* ===== verification/Supply.v ===== *)
(** Frames to come: what an allocator can still hand out, and that mapping free pages
    succeeds while it can. *)
From S2P Require Import Prelude Arch Frames Elf.

(** The next [n] allocations all give a frame. *)
Fixpoint supplies `{FrameAllocator A} (n : nat) (a : A) : Prop :=
  match n with
  | O => True
  | S n => ∃ f b, allocate_frame a = Done (Some f, b) ∧ supplies n b
  end.

(** What is left of [a] after at most [n] allocations. *)
Inductive within `{FrameAllocator A} : nat → A → A → Prop :=
  | within_none n a : within n a a
  | within_more n a f b c : allocate_frame a = Done (Some f, b) → within n b c → within (S n) a c.

(** [map_to] maps a page that is free if it gets the frames for the three lower
    tables, unless a huge page lies there ([huge]); it makes no huge pages. *)
Class Mapper_Free (PT : Type) `{!Mapper PT} (mapping : PT → Z → Z → option (Z * Z))
    (huge : PT → Z → Z → Prop) : Prop := {
  map_to_free {A} `{FrameAllocator A} root p f fl pt (a : A) :
    mapping pt root p = None → ¬ huge pt root p → supplies 3 a →
    ∃ pt' a', map_to root p f fl pt a = Done (Ok (), pt', a') ∧ within 3 a a';
  map_to_huge {A} `{FrameAllocator A} root p f fl pt (a : A) r pt' a' :
    map_to root p f fl pt a = Done (r, pt', a') → ∀ q g, huge pt' q g → huge pt q g;
}.

(** The concrete page table of [Arch] has no huge pages. *)
#[export] Instance mapper_ref_free : Mapper_Free table table_mapping (λ _ _ _, False).
Proof.
  split; [|done]. intros A ? root p f fl pt a Hn _ _. unfold map_to, table_mapping in *. simpl. rewrite Hn.
  eexists _, a. split; [done|constructor].
Qed.

Section Supply.
Context {A : Type} `{!FrameAllocator A}.

Lemma supplies_le n m (a : A) : (m ≤ n)%nat → supplies n a → supplies m a.
Proof.
  revert m a. induction n as [|n IH]; intros [|m] a Hm Hs; try done; [lia|].
  destruct Hs as (f & b & Ha & Hs). exists f, b. split; [done|]. apply IH; [lia|done].
Qed.

Lemma within_rest n m (a b : A) : within n a b → supplies (n + m) a → supplies m b.
Proof.
  induction 1 as [n a|n a f b c Ha _ IH]; intros Hs; [by eapply supplies_le; [|exact Hs]; lia|].
  destruct Hs as (f' & b' & Ha' & Hs). rewrite Ha in Ha'. injection Ha' as <- <-. by apply IH.
Qed.

Context {PT : Type} `{!Mapper PT} (mapping : PT → Z → Z → option (Z * Z)) `{!Mapper_Laws PT mapping}.
Context (huge : PT → Z → Z → Prop) `{!Mapper_Free PT mapping huge}.
#[local] Abbreviation Mc := (Machine PT A).

(** A page where nothing is mapped yet. *)
Definition vacant (root : Z) (pt : PT) (p : Z) : Prop := mapping pt root p = None ∧ ¬ huge pt root p.

(** The loop of [map_range] maps vacant pages: four frames for each are enough. *)
Lemma map_loop_vacant root fl pages (s : Mc) :
  NoDup pages → (∀ p, p ∈ pages → vacant root (tables s) p) → supplies (4 * length pages) (falloc s) →
  ∃ s', map_loop root fl pages s = Done (Ok (), s').
Proof.
  revert s. induction pages as [|p pages IH]; intros s Hnd Hv Hs; [by exists s|].
  apply NoDup_cons in Hnd as [Hp Hnd]. cbn [length map_loop] in *.
  assert (Hs1 : supplies (4 + 4 * length pages) (falloc s)) by (by replace (4 + 4 * length pages)%nat with (4 * S (length pages))%nat by lia).
  destruct Hs1 as (f & a1 & Ha & Hs1). destruct (Hv p) as [Hn Hh]; [by left|].
  destruct (map_to_free root p f fl (tables s) a1 Hn Hh) as (pt' & a2 & Hm & Hw); [by eapply (supplies_le (3 + 4 * length pages)); [lia|]|].
  rewrite (bind_step _ _ s (Some f) (mkMachine (tables s) a1 (mem s))) by (unfold alloc_frame; by rewrite Ha).
  cbv beta iota. rewrite (bind_step _ _ _ (Ok ()) (mkMachine pt' a2 (mem s))) by (unfold page_map_to; simpl; by rewrite Hm).
  apply IH; [done| |by eapply within_rest].
  intros q Hq. destruct (Hv q) as [Hqn Hqh]; [by right|]. cbn [tables].
  destruct (map_to_ok _ _ _ _ _ _ _ _ Hm) as (_ & _ & Ho & _). split.
  - rewrite Ho; [done|]. by intros ->.
  - intros Hg. by apply Hqh, (map_to_huge _ _ _ _ _ _ _ _ _ Hm).
Qed.

End Supply.

(** The boot loader's memory map supplies a frame for every usable page. *)
Lemma boot_supplies `{Profile} `{!X86_64} `{!X86_64_Laws _} (a : BootInfoFrameAllocator) n :
  recycle a = [] → Forall (λ vp : Z * Z, 0 ≤ vp.1 * 4096 + vp.2 < 2 ^ 52) (frames a) →
  (n ≤ length (frames a))%nat → 0 ≤ used a → used a + Z.of_nat n < 2 ^ 64 → supplies n a.
Proof.
  revert a. induction n as [|n IH]; intros [sz us fr re] Hr Hv Hn Hu Hu'; [done|]. cbn in *. subst re.
  destruct fr as [|[v st] fr]; [simpl in Hn; lia|]. apply Forall_cons in Hv as [Hv Hvs]. simpl in *.
  eexists _, (mkAllocator sz (us + 1) fr []). split.
  - unfold allocate_frame, FrameAlloc.frame_allocator, FrameAlloc.allocate_frame.
    rewrite (bind_step _ _ _ _ _ eq_refl). cbn [used recycle size frames].
    rewrite (bind_step _ _ _ _ _ (word_op_exact 64 (us + 1) _ ltac:(lia))).
    rewrite (bind_step _ _ _ _ _ eq_refl). unfold FrameAlloc.frames_next.
    rewrite (bind_step _ _ _ _ _ eq_refl). cbn [used recycle size frames].
    rewrite (bind_step _ _ _ _ _ (word_op_exact 64 (v * 4096 + st) _ ltac:(lia))).
    rewrite PhysAddr_new_valid by lia. reflexivity.
  - apply IH; simpl; try done; lia.
Qed.
