(* ===== verification/Stack.v ===== *)
(** Process stacks: [pkg/kernel/src/proc/vm/stack.rs].

    A stack lives in its own 4 GiB slot of the address space.  It starts with
    one page at the top of the first slot, grows downwards on page faults, and a
    forked process gets a copy of it in a free lower slot.  The operations work
    on the [Machine] of [Elf.v]; [root] is the level-4 frame of the mapper the
    source passes, [offset] is [PHYSICAL_OFFSET]. *)
From S2P Require Import Prelude Arch Elf.

Definition STACK_MAX : Z := 0x400000000000.
Definition STACK_MAX_PAGES : Z := 0x100000.
Definition STACK_MAX_SIZE : Z := STACK_MAX_PAGES * 4096.
Definition STACK_START_MASK : Z := u64_max - (STACK_MAX_SIZE - 1).
Definition STACK_DEF_BOT : Z := STACK_MAX - STACK_MAX_SIZE.
Definition STACK_DEF_PAGE : Z := 1.
Definition STACK_DEF_SIZE : Z := STACK_DEF_PAGE * 4096.
Definition STACK_INIT_BOT : Z := STACK_MAX - STACK_DEF_SIZE.
Definition STACK_INIT_TOP : Z := STACK_MAX - 8.
Definition KSTACK_MAX : Z := 0xffffff0200000000.
Definition KSTACK_DEF_BOT : Z := KSTACK_MAX - STACK_MAX_SIZE.
Definition KSTACK_DEF_PAGE : Z := 8.
Definition KSTACK_DEF_SIZE : Z := KSTACK_DEF_PAGE * 4096.
Definition KSTACK_INIT_BOT : Z := KSTACK_MAX - KSTACK_DEF_SIZE.
Definition KSTACK_INIT_TOP : Z := KSTACK_MAX - 8.
Definition KERNEL_PID : Z := 1.

(** [range] is the half-open [PageRange]. *)
Record Stack : Type := mkStack {
  range_start : Z;
  range_end : Z;
  usage : Z;
}.

Module StackOps.
Section Ops.
Context `{Profile} `{X86_64} {PT A : Type} `{Mapper PT} `{FrameAllocator A} `{FrameDeallocator A}.
#[local] Abbreviation St := (Machine PT A).

Definition new (top size : Z) : M St Stack :=
  p ← unwrap (Page_sub top size);
  start ← unwrap (Page_add p 1);
  stop ← unwrap (Page_add top 1);
  mret (mkStack start stop size).

Definition STACK_INIT_TOP_PAGE : Z := Page_containing_address STACK_INIT_TOP.
Definition KSTACK_INIT_PAGE : Z := Page_containing_address KSTACK_INIT_BOT.
Definition KSTACK_INIT_TOP_PAGE : Z := Page_containing_address KSTACK_INIT_TOP.

Definition empty : Stack := mkStack STACK_INIT_TOP_PAGE STACK_INIT_TOP_PAGE 0.
Definition kstack : Stack := mkStack KSTACK_INIT_PAGE KSTACK_INIT_TOP_PAGE KSTACK_DEF_PAGE.

Definition init (root : Z) (self : Stack) : M St Stack :=
  debug_assert (usage self =? 0);;
  r ← map_pages STACK_INIT_BOT STACK_DEF_PAGE root true;
  match r with
  | Ok (start, stop) => mret (mkStack start stop STACK_DEF_PAGE)
  | Err _ => panic
  end.

Definition stack_offset (self old_stack : Stack) : M St Z :=
  offset ← word_op 64 (range_start self - range_start old_stack);
  debug_assert (negb (offset `mod` STACK_MAX_SIZE =? 0));;
  mret offset.

Definition is_on_stack (self : Stack) (addr : Z) : bool :=
  Z.land addr STACK_START_MASK =? Z.land (range_start self) STACK_START_MASK.

(** [current] is what the running CPU's cell of [PROCESSORS] holds. *)
Definition grow_stack (root : Z) (current : option Z) (self : Stack) (addr : Z) :
    M St (result Stack MapToError) :=
  debug_assert (is_on_stack self addr);;
  let new_start_page := Page_containing_address addr in
  page_count ← unwrap (Page_diff (range_start self) new_start_page);
  pid ← unwrap current;
  let user_access := negb (pid =? KERNEL_PID) in
  _ ←? map_pages new_start_page page_count root user_access;
  mret (Ok (mkStack new_start_page (range_end self)
              (Z.of_nat (length (Page_range new_start_page (range_end self)))))).

Definition handle_page_fault (root : Z) (current : option Z) (self : Stack) (addr : Z) :
    M St (bool * Stack) :=
  if negb (is_on_stack self addr) then mret (false, self)
  else
    r ← grow_stack root current self addr;
    match r with
    | Ok self' => mret (true, self')
    | Err _ => mret (false, self)
    end.

(** [clone_range]: the copy goes through the page table [active] that the CPU has
    loaded, page by page (both addresses are page aligned).  An access to an
    unmapped page would fault while the process lock is held, which the kernel
    does not survive. *)
Fixpoint clone_pages (active offset cur_addr dest_addr : Z) (n : nat) : M St () :=
  match n with
  | O => mret ()
  | S n =>
      s ← get;
      src ← unwrap (translate_page active cur_addr (tables s));
      dst ← unwrap (translate_page active dest_addr (tables s));
      put (mkMachine (tables s) (falloc s)
             (copy_bytes (mem s) (src + offset) (dst + offset) PAGE (mem s)));;
      clone_pages active offset (cur_addr + PAGE) (dest_addr + PAGE) n
  end.

Definition clone_range (active offset cur_addr dest_addr size : Z) : M St () :=
  clone_pages active offset cur_addr dest_addr (Z.to_nat size).

(** The retry loop of [fork]; it returns the address that could be mapped. *)
Fixpoint fork_loop (fuel : nat) (root usage new_stack_top : Z) : M St Z :=
  match fuel with
  | O => out_of_fuel
  | S fuel =>
      r ← map_pages new_stack_top usage root true;
      match r with
      | Ok _ => mret new_stack_top
      | Err _ =>
          new_stack_top ← word_op 64 (new_stack_top - STACK_MAX_SIZE);
          fork_loop fuel root usage new_stack_top
      end
  end.

(** Enough for every slot of both halves of the address space. *)
Definition fork_fuel : nat := Z.to_nat (2 ^ 16 + 2).

Definition fork (root active offset : Z) (self : Stack) (stack_offset_count : Z) : M St Stack :=
  skip ← word_op 64 (stack_offset_count * STACK_MAX_SIZE);
  top ← word_op 64 (range_start self - skip);
  new_stack_top ← fork_loop fork_fuel root (usage self) top;
  clone_range active offset (range_start self) new_stack_top (usage self);;
  va ← unwrap (VirtAddr_new new_stack_top);
  let start := Page_containing_address va in
  stop ← unwrap (Page_add start (usage self));
  mret (mkStack start stop (usage self)).

Definition memory_usage (self : Stack) : M St Z := word_op 64 (usage self * 4096).

Definition clean_up (root : Z) (self : Stack) : M St (result () UnmapError * Stack) :=
  if usage self =? 0 then mret (Ok (), self)
  else
    r ← unmap_pages (range_start self) (usage self) root true;
    match r with
    | Ok _ => mret (Ok (), mkStack (range_start self) (range_end self) 0)
    | Err e => mret (Err e, self)
    end.

End Ops.
End StackOps.

(** ** Slots *)

Lemma land_start_mask a : 0 ≤ a < 2 ^ 64 → Z.land a STACK_START_MASK = a / STACK_MAX_SIZE * STACK_MAX_SIZE.
Proof.
  intros Ha. change STACK_START_MASK with (Z.ldiff (Z.ones 64) (Z.ones 32)).
  change STACK_MAX_SIZE with (2 ^ 32).
  assert (E : Z.land a (Z.ldiff (Z.ones 64) (Z.ones 32)) = Z.ldiff a (Z.ones 32)).
  { apply Z.bits_inj'. intros n Hn. rewrite Z.land_spec, !Z.ldiff_spec.
    destruct (decide (n < 64)).
    - rewrite (Z.ones_spec_low 64) by lia. done.
    - replace a with (a `mod` 2 ^ 64) by (apply Z.mod_small; lia).
      rewrite Z.mod_pow2_bits_high by lia. done. }
  rewrite E, Z.ldiff_ones_r, Z.shiftl_mul_pow2, Z.shiftr_div_pow2 by lia. done.
Qed.

(** [is_on_stack] holds of exactly the addresses in the 4 GiB slot of the
    stack's lowest page. *)
Theorem is_on_stack_slot (self : Stack) (addr : Z) :
  0 ≤ addr < 2 ^ 64 → 0 ≤ range_start self < 2 ^ 64 →
  StackOps.is_on_stack self addr = true ↔
  addr / STACK_MAX_SIZE = range_start self / STACK_MAX_SIZE.
Proof.
  intros Ha Hs. unfold StackOps.is_on_stack. rewrite !land_start_mask by done.
  change STACK_MAX_SIZE with (2 ^ 32). lia.
Qed.

Lemma is_on_stack_slot_witness :
  StackOps.is_on_stack (mkStack 0x3ffffffff000 0x400000000000 1) 0x3fff12345678 = true ↔
  0x3fff12345678 / STACK_MAX_SIZE = 0x3ffffffff000 / STACK_MAX_SIZE.
Proof. apply (is_on_stack_slot (mkStack 0x3ffffffff000 0x400000000000 1)); simpl; lia. Defined.

Section StackFacts.
Context `{Profile} `{!X86_64} `{!X86_64_Laws _} {PT A : Type} `{!Mapper PT} `{!FrameAllocator A} `{!FrameDeallocator A}.
Context (mapping : PT → Z → Z → option (Z * Z)) `{!Mapper_Laws PT mapping}.
#[local] Abbreviation St := (Machine PT A).

Definition stack_wf (self : Stack) : Prop :=
  aligned (range_start self) ∧ aligned (range_end self) ∧
  0 ≤ range_start self ≤ range_end self ∧ range_end self < 2 ^ 47 - PAGE ∧
  usage self = (range_end self - range_start self) / PAGE.

Lemma handle_page_fault_Done (root pid : Z) (self : Stack) (addr : Z) (s : St) b self' s' :
  stack_wf self → pid ≠ KERNEL_PID → 0 ≤ addr → addr < range_start self ∨ StackOps.is_on_stack self addr = false →
  StackOps.handle_page_fault root (Some pid) self addr s = Done ((b, self'), s') →
  mem s' = mem s ∧
  if StackOps.is_on_stack self addr then
    if b then
      range_start self' = addr - addr `mod` PAGE ∧ range_end self' = range_end self ∧
      stack_wf self' ∧
      ∃ fs, mapped_exactly mapping root (map_flags true)
              (pages_between (range_start self') (range_start self)) fs (tables s) (tables s')
    else self' = self
  else b = false ∧ self' = self ∧ s' = s.
Proof.
  intros Hwf Hpid Ha0 Hcase Hh. unfold StackOps.handle_page_fault in Hh.
  destruct (StackOps.is_on_stack self addr) eqn:Eon; simpl in Hh; [|by inv_done].
  destruct Hcase as [Hlt|?]; [|done]. destruct Hwf as (Hal & Hae & Hb & He & Hu).
  destruct (page_base_bounds addr Ha0) as [Hpa Hpb].
  apply bind_Done in Hh as (r & s1 & Hg & Hh). unfold StackOps.grow_stack in Hg.
  apply bind_Done in Hg as ([] & s2 & Hda & Hg). apply debug_assert_Done in Hda as [-> _].
  set (p := addr - addr `mod` PAGE) in *.
  rewrite (Page_containing_address_eq addr) in Hg by (left; unfold PAGE in *; lia). fold p in Hg.
  assert (Hpd : Page_diff (range_start self) p = Some ((range_start self - p) / PAGE)).
  { apply Page_diff_le; unfold PAGE in *; try done; lia. }
  rewrite Hpd in Hg. rewrite (bind_step _ _ s ((range_start self - p) / PAGE) s) in Hg by done.
  rewrite (bind_step _ _ s pid s) in Hg by done.
  rewrite (proj2 (Z.eqb_neq _ _) Hpid) in Hg. simpl negb in Hg.
  apply bind_Done in Hg as (r' & s3 & Hm & Hg).
  set (n := (range_start self - p) / PAGE) in *.
  assert (Hn : p + n * PAGE = range_start self).
  { unfold n, aligned, PAGE in *. Z.div_mod_to_equations. lia. }
  destruct (decide (0 < n)) as [Hn0|Hn0]; cycle 1.
  { unfold PAGE in *. lia. }
  assert (Hur : user_range p n) by (unfold user_range, PAGE in *; lia).
  apply (map_pages_Done mapping) in Hm as [Hme Hr']; [|done].
  assert (Hpp : p - p `mod` PAGE = p) by (unfold aligned in Hpa; lia).
  rewrite Hpp in Hr'.
  destruct r' as [[q1 q2]|e]; inv_done; [|done].
  destruct Hr' as (-> & -> & fs & Hf). split; [done|]. simpl.
  rewrite Hn in Hf. split_and!; [done..| |by exists fs].
  unfold stack_wf. simpl. split_and!; [done|done|lia|lia|lia|].
  rewrite Page_range_eq by (done || unfold PAGE in *; lia).
  rewrite pages_between_length, Z2Nat.id; [done|].
  apply Z.div_pos; unfold PAGE in *; lia.
Qed.

Lemma handle_page_fault_returns (root pid : Z) (self : Stack) (addr : Z) (s : St) :
  mapping_returns PT A →
  stack_wf self → pid ≠ KERNEL_PID → 0 ≤ addr → addr < range_start self ∨ StackOps.is_on_stack self addr = false →
  ∃ r, StackOps.handle_page_fault root (Some pid) self addr s = Done r.
Proof.
  intros Hret (Hal & Hae & Hb & He & Hu) Hpid Ha0 Hcase. unfold StackOps.handle_page_fault, StackOps.grow_stack.
  destruct (StackOps.is_on_stack self addr) eqn:Eon; simpl; [|by eexists].
  destruct Hcase as [Hlt|?]; [|done]. destruct (page_base_bounds addr Ha0) as [Hpa Hpb].
  set (p := addr - addr `mod` PAGE) in *. set (n := (range_start self - p) / PAGE).
  assert (Hn : p + n * PAGE = range_start self).
  { unfold n, aligned, PAGE in *. Z.div_mod_to_equations. lia. }
  destruct (map_pages_returns p n root true s Hret) as [[r s'] Hm].
  { unfold user_range, PAGE in *. lia. }
  unfold mbind at 1, M_bind at 1. rewrite (bind_step _ _ s () s) by (by apply debug_assert_Done). cbv zeta.
  rewrite (Page_containing_address_eq addr) by (left; unfold PAGE in *; lia). fold p.
  rewrite (bind_step _ _ s n s); cycle 1.
  { rewrite Page_diff_le; [done|unfold PAGE in *; done || lia..]. }
  rewrite (bind_step _ _ s pid s) by done. rewrite (proj2 (Z.eqb_neq _ _) Hpid). simpl negb.
  rewrite (bind_step _ _ _ _ _ Hm). destruct r as [[]|]; by eexists.
Qed.

(** C27: Page faults on the user stack.  An address outside the stack's slot is
    refused and nothing changes.  For an address in the slot below the stack
    the handler returns, when the allocator and the mapper do: [true] means the stack now reaches down to the
    page of the address with the same top, its [usage] is its number of pages,
    and exactly the missing pages got mapped, writable by the user; [false]
    means the stack is as it was.  Memory contents never change. *)
Theorem handle_page_fault_spec (root pid : Z) (self : Stack) (addr : Z) (s : St) :
  stack_wf self → pid ≠ KERNEL_PID → 0 ≤ addr → addr < range_start self ∨ StackOps.is_on_stack self addr = false →
  (mapping_returns PT A → ∃ r, StackOps.handle_page_fault root (Some pid) self addr s = Done r) ∧
  ∀ b self' s', StackOps.handle_page_fault root (Some pid) self addr s = Done ((b, self'), s') →
  mem s' = mem s ∧
  if StackOps.is_on_stack self addr then
    if b then
      range_start self' = addr - addr `mod` PAGE ∧ range_end self' = range_end self ∧
      stack_wf self' ∧
      ∃ fs, mapped_exactly mapping root (map_flags true)
              (pages_between (range_start self') (range_start self)) fs (tables s) (tables s')
    else self' = self
  else b = false ∧ self' = self ∧ s' = s.
Proof.
  intros Hwf Hpid Ha Hc. split; [intros Hret; by apply handle_page_fault_returns|].
  intros b self' s' Hh. by eapply handle_page_fault_Done.
Qed.

(** ** Cleaning up *)

Definition stack_pages (self : Stack) : list Z := pages_between (range_start self) (range_end self).

Lemma clean_up_frame root (self : Stack) (s : St) r s' :
  stack_wf self → StackOps.clean_up root self s = Done (r, s') →
  mem s' = mem s ∧
  ∀ q, q ∉ stack_pages self → mapping (tables s') root q = mapping (tables s) root q.
Proof.
  intros (Hal & Hae & Hb & He & Hu) Hc. unfold StackOps.clean_up in Hc.
  destruct (usage self =? 0) eqn:E0; [by inv_done|]. apply Z.eqb_neq in E0.
  apply bind_Done in Hc as (x & s1 & Hm & Hc).
  assert (Hn : range_start self + usage self * PAGE = range_end self).
  { unfold aligned, PAGE in *. Z.div_mod_to_equations. lia. }
  rewrite (unmap_pages_eq _ _ (range_start self)) in Hm; cycle 1.
  { unfold user_range, PAGE in *. lia. }
  { unfold aligned in Hal. lia. }
  rewrite Hn in Hm. apply (unmap_loop_frame mapping) in Hm. fold (stack_pages self) in Hm.
  destruct x; by inv_done.
Qed.

(** ** Forking *)

#[local] Abbreviation preserved := (Elf.preserved mapping).

Lemma map_pages_preserved addr pages root ua (s : St) r s' :
  user_range addr pages → map_pages addr pages root ua s = Done (r, s') →
  mem s' = mem s ∧ preserved root (tables s) (tables s').
Proof.
  intros Hr Hm. apply (map_pages_Done mapping) in Hm as [Hme Hr']; [|done]. split; [done|].
  destruct r as [[q1 q2]|e].
  - destruct Hr' as (_ & _ & fs & Hf). by eapply mapped_exactly_preserved.
  - destruct Hr' as (m & p & rest & fs & _ & Hf). by eapply mapped_exactly_preserved.
Qed.

(** No page can be made of an address in the non-canonical gap. *)
Lemma map_pages_gap addr pages root ua (s : St) :
  2 ^ 47 ≤ addr < 2 ^ 64 - 2 ^ 47 → map_pages addr pages root ua s = Panic.
Proof.
  intros Hg. unfold map_pages, mbind, M_bind, debug_assert.
  destruct (debug_assertions && _); [done|]. by rewrite VirtAddr_new_gap.
Qed.

(** In the upper half the search stays there: below it is the gap. *)
Lemma fork_loop_upper fuel root n top (s : St) top' s' :
  2 ^ 64 - 2 ^ 47 ≤ top < 2 ^ 64 → StackOps.fork_loop fuel root n top s = Done (top', s') →
  2 ^ 64 - 2 ^ 47 ≤ top' < 2 ^ 64.
Proof.
  revert top s. induction fuel as [|fuel IH]; intros top s Ht Hl; [done|]. simpl in Hl.
  apply bind_Done in Hl as (r & s1 & Hm & Hl). destruct r as [rng|e]; [by inv_done|].
  apply bind_Done in Hl as (t & s2 & Hw & Hl). apply word_op_Done in Hw as [-> Hw].
  change STACK_MAX_SIZE with (2 ^ 32) in *.
  assert (t = top - 2 ^ 32) as ->.
  { destruct Hw as [[_ ->]|(_ & Hneg & _)]; [done|]. exfalso. apply Hneg. lia. }
  destruct (decide (2 ^ 64 - 2 ^ 47 ≤ top - 2 ^ 32)); [eapply IH; [|exact Hl]; lia|].
  destruct fuel; [done|]. simpl in Hl. apply bind_Done in Hl as (r & s2 & Hg & _).
  rewrite map_pages_gap in Hg by lia. done.
Qed.

(** The loop answers a slot, counting down from [top], that could be mapped; or
    the search ran below address 0 and found one in the upper half. *)
Lemma fork_loop_Done fuel root n top (s : St) top' s' :
  user_range top n → StackOps.fork_loop fuel root n top s = Done (top', s') →
  (2 ^ 64 - 2 ^ 47 ≤ top' < 2 ^ 64) ∨
  ∃ k s1, top' = top - Z.of_nat k * STACK_MAX_SIZE ∧ user_range top' n ∧
    mem s1 = mem s ∧ preserved root (tables s) (tables s1) ∧
    ∃ rng, map_pages top' n root true s1 = Done (Ok rng, s').
Proof.
  revert top s. induction fuel as [|fuel IH]; intros top s Hr Hl; [done|]. simpl in Hl.
  apply bind_Done in Hl as (r & s1 & Hm & Hl). destruct r as [rng|e].
  - inv_done. right. exists 0%nat, s. split_and!; [lia|done|done|by intros ??|by exists rng].
  - destruct (map_pages_preserved _ _ _ _ _ _ _ Hr Hm) as [Hme Hp].
    apply bind_Done in Hl as (t & s2 & Hw & Hl). apply word_op_Done in Hw as [-> Hw].
    destruct Hr as (H0' & Hn & Hb). change STACK_MAX_SIZE with (2 ^ 32) in *.
    destruct Hw as [[Hge ->]|(_ & Hneg & ->)].
    + apply IH in Hl as [Hup|(k & s3 & -> & Hr' & Hm' & Hp' & Hx)].
      * by left.
      * right. exists (S k), s3. split_and!; [lia|done|congruence| |done].
        intros q x Hq. by apply Hp', Hp.
      * unfold user_range, PAGE in *. lia.
    + left. assert (top < 2 ^ 32) by (unfold PAGE in *; lia).
      replace (wrap 64 (top - 2 ^ 32)) with (top + (2 ^ 64 - 2 ^ 32)) in Hl; cycle 1.
      { unfold wrap. rewrite <- (Z_mod_plus_full (top - 2 ^ 32) 1), Z.mod_small by lia. lia. }
      eapply fork_loop_upper; [|exact Hl]. lia.
Qed.

(** Rounds of the retry loop that are left when it tries [top]. *)
Definition rounds (top : Z) : Z :=
  if top <? 2 ^ 47 then top / STACK_MAX_SIZE + (2 ^ 15 + 2)
  else if top <? 2 ^ 64 - 2 ^ 47 then 1
  else (top - (2 ^ 64 - 2 ^ 47)) / STACK_MAX_SIZE + 2.

Lemma rounds_bound top : 0 ≤ top < 2 ^ 64 → 1 ≤ rounds top ≤ 2 ^ 16 + 1.
Proof.
  intros Ht. unfold rounds. change STACK_MAX_SIZE with (2 ^ 32).
  repeat case_match; Z.div_mod_to_equations; lia.
Qed.

Lemma rounds_step top :
  0 ≤ top < 2 ^ 64 → ¬ (2 ^ 47 ≤ top < 2 ^ 64 - 2 ^ 47) →
  let next := wrap 64 (top - STACK_MAX_SIZE) in 0 ≤ next < 2 ^ 64 ∧ rounds next ≤ rounds top - 1.
Proof.
  intros Ht Hg. change STACK_MAX_SIZE with (2 ^ 32). cbv zeta.
  split; [apply wrap_range; lia|]. unfold rounds. change STACK_MAX_SIZE with (2 ^ 32).
  destruct (decide (2 ^ 32 ≤ top)) as [Hge|Hlt].
  - rewrite wrap_small by lia. repeat case_match; Z.div_mod_to_equations; lia.
  - replace (wrap 64 (top - 2 ^ 32)) with (top + (2 ^ 64 - 2 ^ 32)); cycle 1.
    { unfold wrap. rewrite <- (Z_mod_plus_full (top - 2 ^ 32) 1), Z.mod_small by lia. lia. }
    repeat case_match; Z.div_mod_to_equations; lia.
Qed.

Section Termination.
Context (alloc_returns : ∀ a, allocate_frame (A := A) a ≠ OutOfFuel).
Context (map_to_returns : ∀ root p f fl (pt : PT) (a : A), map_to root p f fl pt a ≠ OutOfFuel).

Lemma map_loop_fuel root fl pages (s : St) : map_loop root fl pages s ≠ OutOfFuel.
Proof.
  revert s. induction pages as [|p pages IH]; intros s; [done|]. simpl.
  unfold mbind, M_bind, alloc_frame. specialize (alloc_returns (falloc s)).
  destruct (allocate_frame (falloc s)) as [[[f|] a]| |]; [|done..].
  unfold page_map_to. simpl. specialize (map_to_returns root p f fl (tables s) a).
  destruct (map_to root p f fl (tables s) a) as [[[[[]|] pt] a2]| |]; done.
Qed.

Lemma map_pages_fuel addr pages root ua (s : St) : map_pages addr pages root ua s ≠ OutOfFuel.
Proof.
  unfold map_pages, map_range, mbind, M_bind, debug_assert.
  destruct (debug_assertions && _); [done|].
  destruct (VirtAddr_new addr) as [va|]; [|done]. simpl.
  destruct (Page_add _ pages) as [q|]; [|done]. simpl.
  destruct (Page_sub q 1) as [r|]; [|done]. simpl.
  pose proof (map_loop_fuel root (map_flags ua)
    (Page_range_inclusive (Page_containing_address va) r) s) as Hl.
  destruct (map_loop _ _ _ s) as [[[[]|] s']| |]; done.
Qed.

Lemma fork_loop_returns fuel root n top (s : St) :
  0 ≤ top < 2 ^ 64 → rounds top ≤ Z.of_nat fuel →
  StackOps.fork_loop fuel root n top s ≠ OutOfFuel.
Proof.
  revert top s. induction fuel as [|fuel IH]; intros top s Ht Hf.
  { pose proof (rounds_bound top Ht). lia. }
  simpl. unfold mbind, M_bind. pose proof (map_pages_fuel top n root true s) as Hm.
  destruct (map_pages top n root true s) as [[[rng|e] s1]| |] eqn:E; [done| |done..].
  destruct (decide (2 ^ 47 ≤ top < 2 ^ 64 - 2 ^ 47)) as [Hg|Hg].
  { by rewrite map_pages_gap in E. }
  destruct (rounds_step top Ht Hg) as [Hn Hr].
  destruct (word_op 64 (top - STACK_MAX_SIZE) s1) as [[t s2]| |] eqn:Ew.
  - apply word_op_Done in Ew as [-> Hw].
    assert (t = wrap 64 (top - STACK_MAX_SIZE)) as ->.
    { destruct Hw as [[Hw ->]|(_ & _ & ->)]; [by rewrite wrap_small|done]. }
    apply IH; [done|lia].
  - done.
  - unfold word_op in Ew. repeat case_match; done.
Qed.

End Termination.

(** The retry loop of [Stack::fork] terminates.  With the fuel the model
    gives it, it always either finds a slot or panics, whatever the page table
    and the allocator do: below address 0 the address wraps around (or the
    subtraction panics) and the search ends in the non-canonical gap at the
    latest. *)
Theorem fork_loop_terminates root n top (s : St) :
  (∀ a, allocate_frame (A := A) a ≠ OutOfFuel) →
  (∀ root p f fl (pt : PT) (a : A), map_to root p f fl pt a ≠ OutOfFuel) →
  0 ≤ top < 2 ^ 64 →
  StackOps.fork_loop StackOps.fork_fuel root n top s ≠ OutOfFuel.
Proof.
  intros Ha Hm Ht. apply fork_loop_returns; [done..|]. unfold StackOps.fork_fuel.
  rewrite Z2Nat.id by lia. pose proof (rounds_bound top Ht). lia.
Qed.

(** ** What the copy of [fork] holds *)

#[local] Abbreviation read := (Elf.read mapping).
#[local] Abbreviation no_alias := (Elf.no_alias mapping).

Lemma clone_pages_Done active offset n : ∀ cur dest fs fd (s : St),
  (∀ i, (i < n)%nat → translate_page active (cur + Z.of_nat i * PAGE) (tables s) = Some (fs i)) →
  (∀ i, (i < n)%nat → translate_page active (dest + Z.of_nat i * PAGE) (tables s) = Some (fd i)) →
  (∀ i, (i < n)%nat → aligned (fs i) ∧ aligned (fd i)) →
  (∀ i j, (i < n)%nat → (j < n)%nat → fs i ≠ fd j ∧ (i ≠ j → fd i ≠ fd j)) →
  ∃ m, StackOps.clone_pages active offset cur dest n s =
         Done ((), mkMachine (tables s) (falloc s) m) ∧
    (∀ i k, (i < n)%nat → 0 ≤ k < PAGE → m (fd i + offset + k) = mem s (fs i + offset + k)) ∧
    ∀ a, (∀ i, (i < n)%nat → ¬ (fd i + offset ≤ a < fd i + offset + PAGE)) → m a = mem s a.
Proof.
  induction n as [|n IH]; intros cur dest fs fd [pt al m] Hs Hd Hal Hne.
  { exists m. split_and!; [done|lia|done]. }
  simpl. pose proof (Hs 0%nat ltac:(lia)) as Hs0. pose proof (Hd 0%nat ltac:(lia)) as Hd0.
  simpl in Hs0, Hd0. rewrite Z.add_0_r in Hs0, Hd0.
  set (m1 := copy_bytes m (fs 0%nat + offset) (fd 0%nat + offset) PAGE m).
  destruct (IH (cur + PAGE) (dest + PAGE) (λ i, fs (S i)) (λ i, fd (S i)) (mkMachine pt al m1))
    as (m2 & E2 & Hc & Ho).
  - intros i Hi. rewrite <- (Hs (S i)) by lia. simpl. f_equal. lia.
  - intros i Hi. rewrite <- (Hd (S i)) by lia. simpl. f_equal. lia.
  - intros i Hi. apply Hal. lia.
  - intros i j Hi Hj. destruct (Hne (S i) (S j)) as [H1 H2]; [lia|lia|]. split; [done|].
    intros Hij. apply H2. congruence.
  - exists m2. split_and!.
    + unfold mbind, M_bind, get, put. cbn [tables]. rewrite Hs0. cbn [unwrap mret M_ret tables].
      rewrite Hd0. exact E2.
    + intros i k Hi Hk. destruct i as [|i].
      * rewrite Ho; cycle 1.
        { intros j Hj. destruct (Hne 0%nat (S j)) as [_ Hx]; [lia|lia|].
          destruct (Hal 0%nat) as [_ A1]; [lia|]. destruct (Hal (S j)) as [_ A2]; [lia|].
          specialize (Hx ltac:(done)). unfold aligned, PAGE in *.
          Z.div_mod_to_equations. lia. }
        simpl. unfold m1, copy_bytes.
        rewrite (proj2 (andb_true_iff _ _)); [f_equal; lia|].
        split; [apply Z.leb_le|apply Z.ltb_lt]; lia.
      * rewrite Hc by lia. simpl. unfold m1, copy_bytes. rewrite (proj2 (andb_false_iff _ _)); [done|].
        destruct (Hne (S i) 0%nat) as [Hx _]; [lia|lia|].
        destruct (Hal 0%nat) as [_ A1]; [lia|]. destruct (Hal (S i)) as [A2 _]; [lia|].
        rewrite Z.leb_gt, Z.ltb_ge. unfold aligned, PAGE in *. Z.div_mod_to_equations. lia.
    + intros a Ha. rewrite Ho; [|intros i Hi; apply Ha; lia]. simpl. unfold m1, copy_bytes.
      specialize (Ha 0%nat ltac:(lia)). rewrite (proj2 (andb_false_iff _ _)); [done|].
      rewrite Z.leb_gt, Z.ltb_ge. lia.
Qed.

Lemma clone_range_Done root offset n src dst (s : St) :
  aligned src → aligned dst → no_alias root (tables s) →
  (∀ i, 0 ≤ i < n → is_Some (mapping (tables s) root (src + i * PAGE))) →
  (∀ i, 0 ≤ i < n → is_Some (mapping (tables s) root (dst + i * PAGE))) →
  (∀ i j, 0 ≤ i < n → 0 ≤ j < n → src + i * PAGE ≠ dst + j * PAGE) →
  ∃ m, let s' := mkMachine (tables s) (falloc s) m in
    StackOps.clone_range root offset src dst n s = Done ((), s') ∧
    (∀ i k, 0 ≤ i < n → 0 ≤ k < PAGE →
       read root offset s' (dst + i * PAGE + k) = read root offset s (src + i * PAGE + k)) ∧
    ∀ va, (∀ i, 0 ≤ i < n → va - va `mod` PAGE ≠ dst + i * PAGE) →
       read root offset s' va = read root offset s va.
Proof.
  intros Hsa Hda Hna Hs Hd Hne.
  set (frame p := from_option fst 0 (mapping (tables s) root p)).
  assert (Hfr : ∀ p, is_Some (mapping (tables s) root p) →
    ∃ fl, mapping (tables s) root p = Some (frame p, fl)).
  { intros p [[f fl] Hp]. exists fl. unfold frame. by rewrite Hp. }
  destruct (clone_pages_Done root offset (Z.to_nat n) src dst
    (λ i, frame (src + Z.of_nat i * PAGE)) (λ i, frame (dst + Z.of_nat i * PAGE)) s)
    as (m & E & Hc & Ho).
  - intros i Hi. rewrite translate_page_eq.
    destruct (Hfr _ (Hs (Z.of_nat i) ltac:(lia))) as [fl ->]. done.
  - intros i Hi. rewrite translate_page_eq.
    destruct (Hfr _ (Hd (Z.of_nat i) ltac:(lia))) as [fl ->]. done.
  - intros i Hi. destruct (Hfr _ (Hs (Z.of_nat i) ltac:(lia))) as [fl E1].
    destruct (Hfr _ (Hd (Z.of_nat i) ltac:(lia))) as [fl' E2].
    split; [apply (Hna _ _ _ _ E1 E1)|apply (Hna _ _ _ _ E2 E2)].
  - intros i j Hi Hj. destruct (Hfr _ (Hs (Z.of_nat i) ltac:(lia))) as [fl E1].
    destruct (Hfr _ (Hd (Z.of_nat j) ltac:(lia))) as [fl' E2].
    destruct (Hfr _ (Hd (Z.of_nat i) ltac:(lia))) as [fl2 E3]. split.
    + intros Hf. apply (Hne (Z.of_nat i) (Z.of_nat j)); [lia..|].
      by apply (Hna _ _ _ _ E1 E2).
    + intros Hij Hf. apply Hij. pose proof (proj2 (Hna _ _ _ _ E3 E2) Hf) as Hx.
      unfold PAGE in Hx. lia.
  - exists m. cbv zeta. split_and!; [exact E| |].
    + intros i k Hi Hk. destruct (Hfr _ (Hs i Hi)) as [fl E1]. destruct (Hfr _ (Hd i Hi)) as [fl' E2].
      rewrite (read_eq mapping root offset _ _ i (frame (dst + i * PAGE)) fl') by done.
      rewrite (read_eq mapping root offset s _ i (frame (src + i * PAGE)) fl) by done.
      simpl. f_equal. specialize (Hc (Z.to_nat i) k ltac:(lia) Hk). by rewrite Z2Nat.id in Hc by lia.
    + intros va Hva. unfold read. simpl.
      destruct (mapping (tables s) root (va - va `mod` PAGE)) as [[f fl]|] eqn:E1; [|done].
      simpl. f_equal. apply Ho. intros i Hi Hin.
      destruct (Hfr _ (Hd (Z.of_nat i) ltac:(lia))) as [fl' E2].
      apply (Hva (Z.of_nat i) ltac:(lia)).
      destruct (Hna _ _ _ _ E1 E2) as [A1 Hx]. destruct (Hna _ _ _ _ E2 E1) as [A2 _].
      apply Hx. simpl in *. unfold aligned, PAGE in *. Z.div_mod_to_equations. lia.
Qed.

Lemma clone_pages_tables active offset n cur dest (s : St) u s' :
  StackOps.clone_pages active offset cur dest n s = Done (u, s') → tables s' = tables s.
Proof.
  revert cur dest s. induction n as [|n IH]; intros cur dest s Hc; simpl in Hc; [by inv_done|].
  inv_done. by match goal with H : StackOps.clone_pages _ _ _ _ _ _ = _ |- _ =>
    apply IH in H end.
Qed.

Lemma mapped_exactly_pages root fl p n fs pt pt' i :
  aligned p → mapped_exactly mapping root fl (pages_between p (p + n * PAGE)) fs pt pt' →
  0 ≤ i < n → mapping pt root (p + i * PAGE) = None ∧ is_Some (mapping pt' root (p + i * PAGE)).
Proof.
  intros Ha (Hl & Hf & _) Hi.
  assert (Hin : p + i * PAGE ∈ pages_between p (p + n * PAGE)).
  { apply elem_of_pages_between; [done|by apply aligned_add|].
    split; [by apply aligned_add|unfold PAGE; lia]. }
  apply list_elem_of_lookup in Hin as [j Hj].
  destruct (lookup_lt_is_Some_2 fs j) as [f Hfj].
  { rewrite Hl. by eapply lookup_lt_Some. }
  destruct (Hf j _ f Hj Hfj) as [H1 ->]. by split.
Qed.

Lemma read_preserved root offset (s s' : St) va b :
  preserved root (tables s) (tables s') → mem s' = mem s →
  read root offset s va = Some b → read root offset s' va = Some b.
Proof.
  intros Hp Hm. unfold read. destruct (mapping (tables s) _ _) as [x|] eqn:E; [|done].
  rewrite (Hp _ _ E), Hm. done.
Qed.

(** Before the copy: the child's pages are mapped, [k] slots below the parent's. *)
Lemma fork_mapped (root active offset count : Z) (self child : Stack) (s s' : St) :
  let n := usage self in
  stack_wf self → 0 < n → 0 ≤ count → count * STACK_MAX_SIZE ≤ range_start self →
  StackOps.fork root active offset self count s = Done (child, s') → range_start child < 2 ^ 47 →
  ∃ k s1, let top := range_start self - k * STACK_MAX_SIZE in
    count ≤ k ∧ 0 ≤ top ∧ aligned top ∧ child = mkStack top (top + n * PAGE) n ∧
    mem s1 = mem s ∧ preserved root (tables s) (tables s1) ∧ tables s' = tables s1 ∧
    (∀ i, 0 ≤ i < n → mapping (tables s) root (top + i * PAGE) = None ∧
       is_Some (mapping (tables s1) root (top + i * PAGE))) ∧
    StackOps.clone_range active offset (range_start self) top n s1 = Done ((), s').
Proof.
  intros n (Hal & Hae & Hb & He & Hu) Hu0 Hc0 Hc1 Hf Hlow.
  assert (Hn : range_end self = range_start self + n * PAGE).
  { unfold n, aligned, PAGE in *. Z.div_mod_to_equations. lia. }
  unfold StackOps.fork in Hf. fold n in Hf. rewrite (bind_step _ _ s (count * STACK_MAX_SIZE) s) in Hf; cycle 1.
  { apply word_op_exact. unfold PAGE, STACK_MAX_SIZE, STACK_MAX_PAGES in *. lia. }
  rewrite (bind_step _ _ s (range_start self - count * STACK_MAX_SIZE) s) in Hf; cycle 1.
  { apply word_op_exact. unfold PAGE, STACK_MAX_SIZE, STACK_MAX_PAGES in *. lia. }
  apply bind_Done in Hf as (top & s1 & Hl & Hf).
  apply bind_Done in Hf as ([] & s2 & Hc & Hf). pose proof (clone_pages_tables _ _ _ _ _ _ _ _ Hc) as Ht.
  apply bind_Done in Hf as (va & s3 & Hva & Hf). apply unwrap_Done in Hva as [Hva ->].
  apply bind_Done in Hf as (stop & s4 & Hst & Hf). apply unwrap_Done in Hst as [Hst ->].
  apply ret_Done in Hf as [<- ->]. simpl in Hlow.
  apply fork_loop_Done in Hl as [Hup|(k0 & s5 & Htop & Hr & Hm5 & Hp5 & rng & Hmp)]; cycle 2.
  { unfold user_range, PAGE, STACK_MAX_SIZE, STACK_MAX_PAGES in *. lia. }
  { rewrite VirtAddr_new_canonical in Hva by (right; lia). simplify_eq.
    rewrite Page_containing_address_eq in Hlow by (right; lia).
    unfold PAGE in *. Z.div_mod_to_equations. lia. }
  exists (count + Z.of_nat k0), s1. cbv zeta.
  replace (range_start self - (count + Z.of_nat k0) * STACK_MAX_SIZE) with top by lia.
  assert (Hta : aligned top).
  { rewrite Htop. unfold aligned, STACK_MAX_SIZE, STACK_MAX_PAGES, PAGE in *. Z.div_mod_to_equations. lia. }
  pose proof Hta as Hta0. unfold aligned in Hta0.
  assert (Hcan : canonical top) by (left; unfold user_range, PAGE in *; lia).
  apply (map_pages_Done mapping) in Hmp as [Hm1 Hok]; [|done].
  destruct rng as [q1 q2], Hok as (-> & -> & fs & Hme). rewrite Hta0, Z.sub_0_r in Hme.
  rewrite VirtAddr_new_canonical in Hva by done. simplify_eq Hva. intros <-.
  rewrite (Page_containing_address_eq top), Hta0, Z.sub_0_r in * by done.
  rewrite Page_add_user in Hst by (unfold user_range, user, PAGE in *; done || lia).
  injection Hst as <-. pose proof (mapped_exactly_preserved mapping _ _ _ _ _ _ Hme) as Hp1.
  split_and!; [lia|by destruct Hr|done|done|congruence|intros q x Hq; by apply Hp1, Hp5|done| |done].
  intros i Hi. destruct (mapped_exactly_pages root _ top n fs _ _ i Hta Hme Hi) as [Hno Hso]. split; [|done].
  destruct (mapping (tables s) root (top + i * PAGE)) as [x|] eqn:E; [|done]. apply Hp5 in E. congruence.
Qed.

(** The child's stack takes free pages only, so it does not overlap what is mapped,
    and everything that is mapped stays. *)
Lemma fork_child (root active offset count : Z) (self child : Stack) (s s' : St) :
  stack_wf self → 0 < usage self → 0 ≤ count → count * STACK_MAX_SIZE ≤ range_start self →
  StackOps.fork root active offset self count s = Done (child, s') → range_start child < 2 ^ 47 →
  stack_wf child ∧
  ∀ q x, mapping (tables s) root q = Some x → mapping (tables s') root q = Some x ∧ q ∉ stack_pages child.
Proof.
  intros Hwf Hu0 Hc0 Hc1 Hf Hlow.
  destruct (fork_mapped _ _ _ _ _ _ _ _ Hwf Hu0 Hc0 Hc1 Hf Hlow) as (k & s1 & Hck & Ht0 & Hta & -> & _ & Hp & Ht & Hdst & _).
  destruct Hwf as (Hal & Hae & Hb & He & Hu). set (top := range_start self - k * STACK_MAX_SIZE) in *.
  assert (Hn : range_end self = range_start self + usage self * PAGE).
  { unfold aligned, PAGE in *. Z.div_mod_to_equations. lia. }
  assert (Htop : top ≤ range_start self) by (unfold top, STACK_MAX_SIZE, STACK_MAX_PAGES; lia). split.
  - unfold stack_wf. simpl. split_and!; [done|by apply aligned_add|done|unfold PAGE in *; lia|unfold PAGE in *; lia|].
    rewrite Z.add_simpl_l, Z.div_mul; [done|done].
  - intros q x Hq. split; [rewrite Ht; by apply Hp|]. unfold stack_pages. simpl. intros Hin.
    apply elem_of_pages_between in Hin as [Hqa Hr]; [|done|by apply aligned_add].
    destruct (Hdst ((q - top) / PAGE)) as [Hno _]; [unfold PAGE in *; Z.div_mod_to_equations; lia|].
    replace (top + (q - top) / PAGE * PAGE) with q in Hno by (unfold aligned, PAGE in *; Z.div_mod_to_equations; lia).
    congruence.
Qed.

(** C4: What [Stack::fork] gives the child.  Whenever it returns (with the lower
    half not exhausted), the child's stack is the parent's shifted down by a
    whole number [k > 0] of slots, at least [stack_offset_count]; all of its
    pages were free before; the child reads at every address of its stack the
    byte the parent has [k] slots higher; and every other address of the
    address space still reads what it did. *)
Theorem fork_copies (root offset count : Z) (self child : Stack) (s s' : St) :
  stack_wf self → 0 < usage self → 0 ≤ count → count * STACK_MAX_SIZE ≤ range_start self →
  (∀ p, p ∈ pages_between (range_start self) (range_end self) →
    is_Some (mapping (tables s) root p)) →
  no_alias root (tables s') →
  StackOps.fork root root offset self count s = Done (child, s') →
  range_start child < 2 ^ 47 →
  ∃ k, 0 < k ∧ count ≤ k ∧
    child = mkStack (range_start self - k * STACK_MAX_SIZE) (range_end self - k * STACK_MAX_SIZE)
              (usage self) ∧
    (∀ va, range_start child ≤ va < range_end child →
       read root offset s va = None ∧
       is_Some (read root offset s' va) ∧
       read root offset s' va = read root offset s (va + k * STACK_MAX_SIZE)) ∧
    (∀ va b, read root offset s va = Some b → read root offset s' va = Some b).
Proof.
  intros Hwf Hu0 Hc0 Hc1 Hmap Hna Hf Hlow. pose proof Hwf as (Hal & Hae & Hb & He & Hu).
  destruct (fork_mapped _ _ _ _ _ _ _ _ Hwf Hu0 Hc0 Hc1 Hf Hlow) as (k & s1 & Hck & _ & Hta & -> & Hms & Hps & Ht & Hdst & Hc).
  set (n := usage self) in *. set (top := range_start self - k * STACK_MAX_SIZE) in *.
  assert (Hn : range_end self = range_start self + n * PAGE).
  { unfold n, aligned, PAGE in *. Z.div_mod_to_equations. lia. }
  assert (Hsrc : ∀ i, 0 ≤ i < n → is_Some (mapping (tables s) root (range_start self + i * PAGE))).
  { intros i Hi. apply Hmap. apply elem_of_pages_between; [done..|].
    split; [by apply aligned_add|unfold PAGE in *; lia]. }
  assert (Hne : ∀ i j, 0 ≤ i < n → 0 ≤ j < n → range_start self + i * PAGE ≠ top + j * PAGE).
  { intros i j Hi Hj Heq. destruct (Hsrc i Hi) as [x Hx]. rewrite Heq in Hx. destruct (Hdst j Hj). congruence. }
  rewrite Ht in Hna. destruct (clone_range_Done root offset n (range_start self) top s1)
    as (m & Ec & Hcp & Hot); [done|done|done| |by apply Hdst|done|].
  { intros i Hi. destruct (Hsrc i Hi) as [x Hx]. exists x. by apply Hps. }
  rewrite Hc in Ec. injection Ec as ->.
  assert (Hk : 0 < k) by (destruct (decide (k = 0)) as [E|]; [exfalso; apply (Hne 0 0); unfold top; lia|lia]).
  exists k. split_and!; [done|done|unfold top; f_equal; lia| |].
  - simpl. intros v Hv0. set (i := (v - top) / PAGE).
    assert (Hv : v = top + i * PAGE + v `mod` PAGE ∧ 0 ≤ i < n ∧ 0 ≤ v `mod` PAGE < PAGE).
    { unfold i, aligned, PAGE in *. Z.div_mod_to_equations. lia. }
    destruct Hv as (Hv & Hi & Hk0). set (kk := v `mod` PAGE) in *.
    assert (is_Some (read root offset s (range_start self + i * PAGE + kk))) as [b Hb'].
    { destruct (Hsrc i Hi) as [[f fl] Hx]. by rewrite (read_eq mapping root offset s _ i f fl). }
    assert (Heq : read root offset (mkMachine (tables s1) (falloc s1) m) v =
                  read root offset s (range_start self + i * PAGE + kk)).
    { rewrite Hv, Hcp, Hb' by done. by apply (read_preserved root offset s s1). }
    replace (v + k * STACK_MAX_SIZE) with (range_start self + i * PAGE + kk) by (unfold top in Hv; lia).
    split_and!; [|by rewrite Heq|done].
    unfold read. replace (v - v `mod` PAGE) with (top + i * PAGE) by lia. by rewrite (proj1 (Hdst i Hi)).
  - intros v b Hb0. rewrite Hot; [by apply (read_preserved root offset s s1)|].
    intros i Hi Hx. unfold read in Hb0. by rewrite Hx, (proj1 (Hdst i Hi)) in Hb0.
Qed.

End StackFacts.

(** ** An example: a one-page stack, with the page itself mapped *)

Section StackWitnesses.
#[local] Existing Instance release.
#[local] Existing Instance x86_ref.

Definition stack_example : Stack := mkStack STACK_INIT_BOT STACK_MAX 1.
Definition stack_machine : Machine table free_list :=
  mkMachine {[ (7, STACK_INIT_BOT) := (0x9000, 7) ]} [0x1000; 0x2000; 0x3000] (λ a, a).

Lemma stack_example_wf : stack_wf stack_example.
Proof.
  unfold stack_wf, aligned, STACK_INIT_BOT, STACK_MAX, STACK_DEF_SIZE, STACK_DEF_PAGE, PAGE. simpl.
  split_and!; done || lia.
Qed.

Definition grown_example : Machine table free_list :=
  state_of (StackOps.handle_page_fault 7 (Some 2) stack_example (STACK_INIT_BOT - 10) stack_machine)
    stack_machine.

Lemma handle_page_fault_spec_witness :
  (∃ r, StackOps.handle_page_fault 7 (Some 2) stack_example (STACK_INIT_BOT - 10) stack_machine = Done r) ∧
  mem grown_example = mem stack_machine ∧
  if StackOps.is_on_stack stack_example (STACK_INIT_BOT - 10) then
    STACK_INIT_BOT - 4096 = STACK_INIT_BOT - 10 - (STACK_INIT_BOT - 10) `mod` PAGE ∧
    STACK_MAX = STACK_MAX ∧
    stack_wf (mkStack (STACK_INIT_BOT - 4096) STACK_MAX 2) ∧
    ∃ fs, mapped_exactly table_mapping 7 (map_flags true)
            (pages_between (STACK_INIT_BOT - 4096) STACK_INIT_BOT) fs
            (tables stack_machine) (tables grown_example)
  else true = false ∧ mkStack (STACK_INIT_BOT - 4096) STACK_MAX 2 = stack_example ∧
       grown_example = stack_machine.
Proof.
  destruct (handle_page_fault_spec table_mapping 7 2 stack_example (STACK_INIT_BOT - 10) stack_machine) as [Hr Hs].
  - apply stack_example_wf.
  - done.
  - unfold STACK_INIT_BOT, STACK_MAX, STACK_DEF_SIZE, STACK_DEF_PAGE. lia.
  - left. simpl. lia.
  - split; [apply Hr, mapping_ref_returns|].
    apply (Hs true (mkStack (STACK_INIT_BOT - 4096) STACK_MAX 2) grown_example). vm_compute. reflexivity.
Defined.

Lemma fork_loop_terminates_witness :
  StackOps.fork_loop StackOps.fork_fuel 7 1 STACK_INIT_BOT stack_machine ≠ OutOfFuel.
Proof.
  apply (fork_loop_terminates 7 1 STACK_INIT_BOT stack_machine).
  - apply free_list_alloc_returns.
  - apply @mapper_ref_returns.
  - unfold STACK_INIT_BOT, STACK_MAX, STACK_DEF_SIZE, STACK_DEF_PAGE. lia.
Defined.

Definition forked_child : Stack :=
  mkStack (STACK_INIT_BOT - STACK_MAX_SIZE) (STACK_MAX - STACK_MAX_SIZE) 1.
Definition forked_machine : Machine table free_list :=
  state_of (StackOps.fork 7 7 0x100000 stack_example 1 stack_machine) stack_machine.

Lemma forked_no_alias : no_alias table_mapping 7 (tables forked_machine).
Proof.
  replace (tables forked_machine) with
    (<[ (7, STACK_INIT_BOT - STACK_MAX_SIZE) := (0x1000, 7) ]> (tables stack_machine))
    by (vm_compute; reflexivity).
  unfold no_alias, table_mapping. cbn [tables stack_machine]. intros p q x y.
  rewrite !lookup_insert_Some, !lookup_singleton_Some, !pair_equal_spec.
  intros Hx Hy. unfold aligned, PAGE.
  destruct Hx as [[? <-]|[? [? <-]]], Hy as [[? <-]|[? [? <-]]]; simpl; split; done || lia.
Qed.

Lemma fork_copies_witness :
  ∃ k, 0 < k ∧ 1 ≤ k ∧
    forked_child = mkStack (range_start stack_example - k * STACK_MAX_SIZE)
                     (range_end stack_example - k * STACK_MAX_SIZE) (usage stack_example) ∧
    (∀ va, range_start forked_child ≤ va < range_end forked_child →
       read table_mapping 7 0x100000 stack_machine va = None ∧
       is_Some (read table_mapping 7 0x100000 forked_machine va) ∧
       read table_mapping 7 0x100000 forked_machine va =
         read table_mapping 7 0x100000 stack_machine (va + k * STACK_MAX_SIZE)) ∧
    (∀ va b, read table_mapping 7 0x100000 stack_machine va = Some b →
       read table_mapping 7 0x100000 forked_machine va = Some b).
Proof.
  apply (fork_copies table_mapping 7 0x100000 1 stack_example forked_child stack_machine forked_machine).
  - apply stack_example_wf.
  - done.
  - done.
  - done.
  - intros p Hp. exists (0x9000, 7). apply list_elem_of_singleton in Hp. subst p. done.
  - apply forked_no_alias.
  - apply value_state. vm_compute. reflexivity.
  - done.
Defined.

End StackWitnesses.
