(* ===== verification/ElfLoad.v ===== *)
(** What a loaded program finds in its memory: the pages and the bytes that
    [load_elf] (pkg/elf/src/lib.rs) leaves behind, and where they differ from
    the program's file. *)
From S2P Require Import Prelude Arch Elf.

Section ElfLoad.
Context `{Profile} `{!X86_64} `{!X86_64_Laws _} {PT A : Type} `{!Mapper PT} `{!FrameAllocator A} `{!FrameDeallocator A}.
Context (mapping : PT → Z → Z → option (Z * Z)) `{!Mapper_Laws PT mapping}.
#[local] Abbreviation St := (Machine PT A).
#[local] Abbreviation read := (Elf.read mapping).
#[local] Abbreviation no_alias := (Elf.no_alias mapping).
#[local] Abbreviation mapped_exactly := (Elf.mapped_exactly mapping).

(** ** Frames behind the direct map *)

(** The direct map shows the frame without wrapping around. *)
Definition frame_ok (off f : Z) : Prop := aligned f ∧ 0 ≤ f + off ∧ f + off + PAGE ≤ 2 ^ 64.

Definition in_frame (off f a : Z) : Prop := f + off ≤ a < f + off + PAGE.

Lemma in_frame_disjoint off f g a :
  aligned f → aligned g → in_frame off f a → in_frame off g a → f = g.
Proof. unfold aligned, in_frame, PAGE. intros. Z.div_mod_to_equations. lia. Qed.

Lemma write_bytes_eq addr b n m a :
  write_bytes addr b n m a = if decide (addr ≤ a < addr + n) then b else m a.
Proof. unfold write_bytes. case_decide; case_match; lia || done. Qed.

Lemma copy_bytes_eq data src dst n m a :
  copy_bytes data src dst n m a = if decide (dst ≤ a < dst + n) then data (src + (a - dst)) else m a.
Proof. unfold copy_bytes. case_decide; case_match; lia || done. Qed.

Lemma word_op_wrap {S} w x (s : S) y s' : 0 ≤ w → word_op w x s = Done (y, s') → s' = s ∧ y = wrap w x.
Proof.
  intros Hw [-> [[? ->]|(_ & _ & ->)]]%word_op_Done; [|done]. by rewrite wrap_small.
Qed.

(** ** The bytes of one page *)

(** How many bytes of page [j] come from the file: [count] of [load_segment], where
    the subtraction may wrap around. *)
Definition page_count (file_sz j : Z) : Z :=
  let rest := wrap 64 (file_sz - j * PAGE) in if rest <? PAGE then rest else PAGE.

(** Byte [k] of page [j] of a segment whose data starts at [data] in the file. *)
Definition page_byte (inp : Z → Z) (data file_sz j k : Z) : Z :=
  if k <? page_count file_sz j then inp (data + j * PAGE + k) else 0.

Lemma page_count_bounds fsz j : 0 ≤ page_count fsz j ≤ PAGE.
Proof.
  unfold page_count. pose proof (wrap_range 64 (fsz - j * PAGE)). unfold PAGE in *. case_match; lia.
Qed.

(** [pages] are mapped to [fs], whose bytes are given by [content]; no other byte
    changed. *)
Definition filled (off : Z) (fs : list Z) (content : nat → Z → Z) (m m' : Z → Z) : Prop :=
  (∀ a, (∀ f, f ∈ fs → ¬ in_frame off f a) → m' a = m a) ∧
  (NoDup fs → ∀ i f k, fs !! i = Some f → 0 ≤ k < PAGE → m' (f + off + k) = content i k).

Lemma filled_nil off content m : filled off [] content m m.
Proof. split; [done|by intros _ []]. Qed.

Lemma filled_ext off fs c c' m m' : (∀ i k, c i k = c' i k) → filled off fs c m m' → filled off fs c' m m'.
Proof. intros Hc [Ho Hi]. split; [done|]. intros. rewrite <- Hc. by apply Hi. Qed.

Lemma filled_cons off f fs content m m1 m2 :
  Forall (frame_ok off) (f :: fs) →
  (∀ a, ¬ in_frame off f a → m1 a = m a) →
  (∀ k, 0 ≤ k < PAGE → m1 (f + off + k) = content 0%nat k) →
  filled off fs (λ i, content (S i)) m1 m2 → filled off (f :: fs) content m m2.
Proof.
  intros [[Hf _] Hfs]%Forall_cons Ho Hc [Hout Hin]. split.
  - intros a Ha. rewrite Hout by (intros g Hg; apply Ha; by right). apply Ho, Ha. by left.
  - intros [Hnin Hnd]%NoDup_cons [|i] g k Hi Hk; simplify_eq/=.
    + rewrite Hout; [by apply Hc|]. intros h Hh Hfr. apply Hnin.
      rewrite Forall_forall in Hfs. destruct (Hfs h Hh) as [Hah _].
      rewrite (in_frame_disjoint off g h (g + off + k)); [done..| |done]. unfold in_frame. lia.
    + by apply Hin.
Qed.

Lemma load_loop_Done inp data fsz off root fl idx pages (s : St) s' :
  NoDup pages → 0 ≤ idx → (idx + Z.of_nat (length pages)) * PAGE < 2 ^ 64 →
  load_loop inp data fsz off root fl idx pages s = Done (Ok (), s') →
  ∃ fs, mapped_exactly root fl pages fs (tables s) (tables s') ∧
    (Forall (frame_ok off) fs →
     filled off fs (λ i, page_byte inp data fsz (idx + Z.of_nat i)) (mem s) (mem s')).
Proof.
  intros Hnd. revert idx s. induction Hnd as [|p pages Hp Hnd IH]; intros idx s Hi0 Hi Hl; simpl in Hl.
  { inv_done. exists []. split; [apply mapped_exactly_nil|intros _; apply filled_nil]. }
  apply bind_Done in Hl as (o & s1 & Ha & Hl). apply alloc_frame_Done in Ha as (Ht1 & Hm1 & _).
  destruct o as [f|]; [|by inv_done].
  apply bind_Done in Hl as (o1 & s2 & Hw1 & Hl). apply word_op_Done in Hw1 as [-> Hw1].
  assert (o1 = idx * PAGE) as -> by (unfold PAGE in *; lia). clear Hw1.
  apply bind_Done in Hl as (rest & s2 & Hw & Hl). apply word_op_wrap in Hw as [-> Hrest]; [|lia].
  apply bind_Done in Hl as (count & s2 & Hw & Hl).
  assert (s2 = s1 ∧ count = page_count fsz idx) as [-> Hc].
  { unfold page_count. rewrite <- Hrest. destruct (rest <? PAGE).
    - apply word_op_wrap in Hw as [-> ->]; [done|lia].
    - by apply ret_Done in Hw as [-> ->]. }
  clear Hw Hrest rest. apply bind_Done in Hl as (dst & s2 & Hw & Hl). apply word_op_wrap in Hw as [-> Hd]; [|lia].
  apply bind_Done in Hl as (u & s2 & Hm & Hl). apply modify_Done in Hm as <-.
  apply bind_Done in Hl as (r & s3 & Hmap & Hl). apply (page_map_to_Done mapping) in Hmap as (Hm3 & _ & Hr).
  destruct r as [[]|e]; [|by inv_done]. destruct Hr as (Hn & Hy & Ho). simpl in Hm3, Hn, Hy, Ho. rewrite Ht1 in *.
  apply bind_Done in Hl as (u' & s4 & Hz & Hl).
  assert (Hs4 : tables s4 = tables s3 ∧ (0 ≤ dst → dst + PAGE ≤ 2 ^ 64 →
    mem s4 = (if count <? PAGE then write_bytes (dst + count) 0 (PAGE - count) else id) (mem s3))).
  { pose proof (page_count_bounds fsz idx) as Hb. rewrite <- Hc in Hb. destruct (count <? PAGE) eqn:Ec.
    - apply bind_Done in Hz as (tl & s5 & Hw & Hz). apply word_op_wrap in Hw as [-> Htl]; [|lia].
      apply modify_Done in Hz as <-. split; [done|]. intros. simpl.
      rewrite Htl, wrap_small; [done|]. unfold PAGE in *. lia.
    - by apply ret_Done in Hz as [_ <-]. }
  destruct Hs4 as [Ht4 Hm4]. apply IH in Hl as (fs & Hf & Hfill);
    [|lia|simpl in Hi; unfold PAGE in *; lia].
  rewrite Ht4 in Hf. exists (f :: fs). split; [by eapply mapped_exactly_cons|].
  intros Hok. pose proof Hok as [(_ & Hf0 & Hf1) Hfs]%Forall_cons.
  assert (dst = f + off) as -> by (rewrite Hd, wrap_small; [done|unfold PAGE in *; lia]).
  specialize (Hm4 Hf0 Hf1). specialize (Hfill Hfs).
  pose proof (page_count_bounds fsz idx) as Hb. rewrite <- Hc in Hb.
  eapply (filled_cons off f fs _ (mem s) (mem s4)); [done|..].
  - intros a Hna. unfold in_frame in Hna. rewrite Hm4, Hm3, <- Hm1.
    destruct (count <? PAGE) eqn:Ec; simpl; rewrite ?write_bytes_eq, copy_bytes_eq; repeat case_decide; lia || done.
  - intros k Hk. rewrite Hm4, Hm3. unfold page_byte. rewrite Z.add_0_r, <- Hc.
    destruct (count <? PAGE) eqn:Ec; simpl; rewrite ?write_bytes_eq, copy_bytes_eq;
      repeat case_decide; case_match; try lia; f_equal; lia.
  - eapply filled_ext; [|done]. intros i k. simpl. f_equal. lia.
Qed.

Lemma bss_loop_Done off root fl pages (s : St) s' :
  NoDup pages → bss_loop off root fl pages s = Done (Ok (), s') →
  ∃ fs, mapped_exactly root fl pages fs (tables s) (tables s') ∧
    (Forall (frame_ok off) fs → filled off fs (λ _ _, 0) (mem s) (mem s')).
Proof.
  intros Hnd. revert s. induction Hnd as [|p pages Hp Hnd IH]; intros s Hl; simpl in Hl.
  { inv_done. exists []. split; [apply mapped_exactly_nil|intros _; apply filled_nil]. }
  apply bind_Done in Hl as (o & s1 & Ha & Hl). apply alloc_frame_Done in Ha as (Ht1 & Hm1 & _).
  destruct o as [f|]; [|by inv_done].
  apply bind_Done in Hl as (r & s3 & Hmap & Hl). apply (page_map_to_Done mapping) in Hmap as (Hm3 & _ & Hr).
  destruct r as [[]|e]; [|by inv_done]. destruct Hr as (Hn & Hy & Ho). rewrite Ht1 in *.
  apply bind_Done in Hl as (dst & s2 & Hw & Hl). apply word_op_wrap in Hw as [-> Hd]; [|lia].
  apply bind_Done in Hl as (u & s2 & Hm & Hl). apply modify_Done in Hm as <-.
  apply IH in Hl as (fs & Hf & Hfill). simpl in Hf, Hfill.
  exists (f :: fs). split; [by eapply mapped_exactly_cons|].
  intros Hok. pose proof Hok as [(_ & Hf0 & Hf1) Hfs]%Forall_cons. specialize (Hfill Hfs).
  assert (dst = f + off) as -> by (rewrite Hd, wrap_small; [done|unfold PAGE in *; lia]).
  eapply (filled_cons off f fs _ (mem s)); [done| | |exact Hfill].
  - intros a Hna. unfold in_frame in Hna. rewrite write_bytes_eq, Hm3, <- Hm1. by rewrite decide_False.
  - intros k Hk. by rewrite write_bytes_eq, decide_True by lia.
Qed.

(** ** One segment *)

(** A segment in the lower half of the address space, with bytes in the file. *)
Record segment_ok (seg : ProgramHeader) : Prop := {
  seg_addr : 0 ≤ virtual_addr seg;
  seg_file : 0 < file_size seg ≤ mem_size seg;
  seg_end : virtual_addr seg + mem_size seg < 2 ^ 47 - PAGE;
}.

Definition page_of (a : Z) : Z := a - a `mod` PAGE.

(** The pages filled from the file, and those added for the rest: up to the page of
    the first address after the segment. *)
Definition file_pages (seg : ProgramHeader) : list Z :=
  pages_between (page_of (virtual_addr seg))
    (page_of (virtual_addr seg + file_size seg - 1) + PAGE).
Definition bss_start (seg : ProgramHeader) : Z :=
  page_of (virtual_addr seg + file_size seg + (PAGE - 1)).
Definition bss_pages (seg : ProgramHeader) : list Z :=
  if file_size seg <? mem_size seg then
    pages_between (bss_start seg) (page_of (virtual_addr seg + mem_size seg) + PAGE)
  else [].

Lemma page_of_aligned a : aligned (page_of a).
Proof. unfold page_of, aligned, PAGE. Z.div_mod_to_equations. lia. Qed.

Lemma page_of_bounds a : page_of a ≤ a < page_of a + PAGE.
Proof. unfold page_of, PAGE. Z.div_mod_to_equations. lia. Qed.

Lemma page_of_nonneg a : 0 ≤ a → 0 ≤ page_of a.
Proof. unfold page_of, PAGE. Z.div_mod_to_equations. lia. Qed.

Lemma page_end_aligned a : aligned (page_of a + PAGE).
Proof. pose proof (page_of_aligned a). unfold aligned, PAGE in *. Z.div_mod_to_equations. lia. Qed.

Lemma page_containing_user a : 0 ≤ a < 2 ^ 47 → Page_containing_address a = page_of a.
Proof. intros. apply Page_containing_address_eq. by left. Qed.

Lemma inclusive_pages a b :
  0 ≤ a < 2 ^ 47 → user b →
  Page_range_inclusive (Page_containing_address a) (Page_containing_address b) =
  pages_between (page_of a) (page_of b + PAGE).
Proof.
  intros Ha Hb. rewrite !page_containing_user by (unfold user, PAGE in *; lia).
  pose proof (page_of_bounds b). pose proof (page_of_bounds a).
  pose proof (page_of_nonneg a). pose proof (page_of_nonneg b).
  apply Page_range_inclusive_eq; [apply page_of_aligned..|lia|unfold user in *; lia].
Qed.

Lemma align_up_page a : 0 ≤ a < 2 ^ 47 → align_up a PAGE = page_of (a + (PAGE - 1)).
Proof. intros. rewrite align_up_eq by done. unfold page_of, PAGE. Z.div_mod_to_equations. lia. Qed.

Lemma load_segment_Done elf off seg root ua (s : St) rng s' :
  segment_ok seg → load_segment elf off seg root ua s = Done (Ok rng, s') →
  rng = (page_of (virtual_addr seg), page_of (virtual_addr seg + mem_size seg - 1)) ∧
  ∃ (s1 : St) fs1 fs2,
    let fl := segment_flags seg ua in
    mapped_exactly root fl (file_pages seg) fs1 (tables s) (tables s1) ∧
    mapped_exactly root fl (bss_pages seg) fs2 (tables s1) (tables s') ∧
    (Forall (frame_ok off) fs1 →
     filled off fs1 (λ i, page_byte (input elf) (page_offset (p_offset seg)) (file_size seg) (Z.of_nat i))
       (mem s) (mem s1)) ∧
    (Forall (frame_ok off) fs2 → filled off fs2 (λ _ _, 0) (mem s1) (mem s')).
Proof.
  intros [Ha [Hf Hfm] He] Hl. unfold load_segment in Hl.
  set (va := virtual_addr seg) in *. set (fsz := file_size seg) in *. set (msz := mem_size seg) in *.
  unfold PAGE in He. rewrite (bind_step _ _ s va s) in Hl by (by rewrite VirtAddr_new_canonical by (left; lia)).
  rewrite (bind_step _ _ s (va + fsz) s) in Hl by (rewrite VirtAddr_add_user by (unfold user, PAGE; lia); done).
  rewrite (bind_step _ _ s (va + fsz - 1) s) in Hl by (rewrite VirtAddr_sub_user by lia; done).
  rewrite inclusive_pages in Hl by (unfold user, PAGE; lia).
  apply bind_Done in Hl as (r & s1 & Hfile & Hl). destruct r as [[]|]; [|by inv_done].
  apply load_loop_Done in Hfile as (fs1 & Hf1 & Hfill1); [|apply pages_between_NoDup|lia|]; cycle 1.
  { rewrite pages_between_length. pose proof (page_of_bounds (va + fsz - 1)).
    pose proof (page_of_nonneg va Ha). pose proof (page_of_bounds va). set (x := page_of va) in *.
    set (y := page_of (va + fsz - 1)) in *. clearbody x y. clear Hl Hfile. unfold PAGE in *.
    rewrite Z2Nat.id; [|apply Z.div_pos; lia]. pose proof (Z.mul_div_le (y + 4096 - x) 4096). lia. }
  apply bind_Done in Hl as (r & s2 & Hbss & Hl). destruct r as [[]|]; [|by inv_done].
  assert (∃ fs2, mapped_exactly root (segment_flags seg ua) (bss_pages seg) fs2 (tables s1) (tables s2) ∧
    (Forall (frame_ok off) fs2 → filled off fs2 (λ _ _, 0) (mem s1) (mem s2))) as (fs2 & Hf2 & Hfill2).
  { unfold bss_pages, bss_start. fold va fsz msz. destruct (fsz <? msz).
    - rewrite (bind_step _ _ s1 (va + fsz) s1) in Hbss by (rewrite VirtAddr_add_user by (unfold user, PAGE; lia); done).
      rewrite (bind_step _ _ s1 (va + msz) s1) in Hbss by (rewrite VirtAddr_add_user by (unfold user, PAGE; lia); done).
      rewrite align_up_page in Hbss by lia. set (b := page_of (va + fsz + (PAGE - 1))) in *.
      assert (Hb : 0 ≤ b < 2 ^ 47) by (unfold b, page_of, PAGE; Z.div_mod_to_equations; lia).
      rewrite (bind_step _ _ s1 b s1) in Hbss by (by rewrite VirtAddr_new_canonical by (by left)).
      rewrite inclusive_pages in Hbss by (done || unfold user, PAGE; lia).
      assert (page_of b = b) as Hbb.
      { unfold b. pose proof (page_of_aligned (va + fsz + (PAGE - 1))) as Hx. unfold aligned in Hx.
        unfold page_of at 1. lia. }
      rewrite Hbb in Hbss. apply bss_loop_Done in Hbss; [done|apply pages_between_NoDup].
    - apply ret_Done in Hbss as [_ <-]. exists []. split; [apply mapped_exactly_nil|intros _; apply filled_nil]. }
  rewrite (bind_step _ _ s2 (va + msz) s2) in Hl by (rewrite VirtAddr_add_user by (unfold user, PAGE; lia); done).
  rewrite (bind_step _ _ s2 (va + msz - 1) s2) in Hl by (rewrite VirtAddr_sub_user by lia; done).
  apply ret_Done in Hl as [[= <-] <-]. rewrite !page_containing_user by lia. split; [done|].
  exists s1, fs1, fs2. done.
Qed.

(** ** Reading what was written *)

(** No frame is mapped twice, and the direct map reaches all of them. *)
Definition direct_map_ok (off root : Z) (pt : PT) : Prop :=
  no_alias root pt ∧ ∀ p x, mapping pt root p = Some x → frame_ok off x.1.

Lemma direct_map_ok_mono off root pt pt' :
  Elf.preserved mapping root pt pt' → direct_map_ok off root pt' → direct_map_ok off root pt.
Proof.
  intros Hp [Hna Hok]. split; [|intros p x Hx; by eapply Hok, Hp].
  intros p q x y Hx Hy. by apply (Hna p q x y); apply Hp.
Qed.

Lemma mapped_lookup root fl pages fs pt pt' f :
  mapped_exactly root fl pages fs pt pt' → f ∈ fs →
  ∃ i p, pages !! i = Some p ∧ fs !! i = Some f ∧ mapping pt root p = None ∧ mapping pt' root p = Some (f, fl).
Proof.
  intros (Hl & Hm & _) [i Hi]%list_elem_of_lookup.
  destruct (lookup_lt_is_Some_2 pages i) as [p Hp]; [rewrite <- Hl; by eapply lookup_lt_Some|].
  destruct (Hm i p f Hp Hi) as [? ?]. eauto 10.
Qed.

Lemma mapped_frames off root fl pages fs pt pt' :
  NoDup pages → direct_map_ok off root pt' → mapped_exactly root fl pages fs pt pt' →
  NoDup fs ∧ Forall (frame_ok off) fs.
Proof.
  intros Hnd [Hna Hok] Hm. split.
  - apply NoDup_alt. intros i j f Hi Hj. destruct Hm as (Hl & Hm & _).
    destruct (lookup_lt_is_Some_2 pages i) as [p Hp]; [rewrite <- Hl; by eapply lookup_lt_Some|].
    destruct (lookup_lt_is_Some_2 pages j) as [q Hq]; [rewrite <- Hl; by eapply lookup_lt_Some|].
    destruct (Hm i p f Hp Hi) as [_ Hx]. destruct (Hm j q f Hq Hj) as [_ Hy].
    destruct (Hna p q _ _ Hx Hy) as [_ Heq]. specialize (Heq eq_refl). subst q.
    by eapply NoDup_lookup.
  - apply Forall_forall. intros f Hf. destruct (mapped_lookup _ _ _ _ _ _ _ Hm Hf) as (i & p & _ & _ & _ & Hx).
    apply (Hok p _ Hx).
Qed.

Lemma filled_reads off root fl pages fs content (s s1 : St) :
  NoDup pages → Forall aligned pages → direct_map_ok off root (tables s1) →
  mapped_exactly root fl pages fs (tables s) (tables s1) → filled off fs content (mem s) (mem s1) →
  (∀ i p k, pages !! i = Some p → 0 ≤ k < PAGE → read root off s1 (p + k) = Some (content i k)) ∧
  (∀ va b, read root off s va = Some b → read root off s1 va = Some b).
Proof.
  intros Hnd Hal Hdm Hm [Hout Hin]. destruct (mapped_frames _ _ _ _ _ _ _ Hnd Hdm Hm) as [Hndf _].
  pose proof (mapped_exactly_preserved mapping _ _ _ _ _ _ Hm) as Hpres. split.
  - intros i p k Hp Hk. pose proof Hm as (Hl & Hm' & _).
    destruct (lookup_lt_is_Some_2 fs i) as [f Hf]; [rewrite Hl; by eapply lookup_lt_Some|].
    destruct (Hm' i p f Hp Hf) as [_ Hx]. rewrite Forall_lookup in Hal.
    pose proof (read_eq mapping root off s1 p 0 f fl k (Hal i p Hp) Hk) as He.
    rewrite Z.mul_0_l, Z.add_0_r in He. rewrite He by done. f_equal. by apply Hin.
  - intros va b. unfold read. destruct (mapping (tables s) root _) as [[f fl']|] eqn:Ef; [|done]. simpl.
    intros [= <-]. rewrite (Hpres _ _ Ef). simpl. f_equal. apply Hout. intros g Hg Hfr.
    destruct (mapped_lookup _ _ _ _ _ _ _ Hm Hg) as (i & q & _ & _ & Hnone & Hq).
    destruct Hdm as [Hna _]. destruct (Hna _ _ _ _ (Hpres _ _ Ef) Hq) as [Haf Heq].
    destruct (Hna _ _ _ _ Hq Hq) as [Hag _]. simpl in *.
    assert (f = g) as ->.
    { eapply in_frame_disjoint; [done..| |exact Hfr]. unfold in_frame.
      pose proof (Z.mod_pos_bound va PAGE). unfold PAGE in *. lia. }
    rewrite <- (Heq eq_refl) in Hnone. congruence.
Qed.

Lemma pages_between_lookup a b i :
  aligned a → aligned b → 0 ≤ i < (b - a) / PAGE →
  pages_between a b !! Z.to_nat i = Some (a + i * PAGE).
Proof.
  intros Ha Hb Hi. unfold pages_between. rewrite list_lookup_fmap, lookup_seqZ_lt by lia.
  simpl. f_equal. rewrite Z2Nat.id by lia. lia.
Qed.

Lemma pages_between_aligned a b : aligned a → aligned b → Forall aligned (pages_between a b).
Proof. intros Ha Hb. apply Forall_forall. intros p Hp. by apply elem_of_pages_between in Hp as [? _]. Qed.

Lemma file_pages_aligned seg : Forall aligned (file_pages seg).
Proof. apply pages_between_aligned; [apply page_of_aligned|apply page_end_aligned]. Qed.

Lemma bss_pages_aligned seg : Forall aligned (bss_pages seg).
Proof.
  unfold bss_pages. case_match; [|constructor].
  apply pages_between_aligned; [apply page_of_aligned|apply page_end_aligned].
Qed.

Lemma bss_pages_NoDup seg : NoDup (bss_pages seg).
Proof. unfold bss_pages. case_match; [apply pages_between_NoDup|constructor]. Qed.

(** All pages of a segment have its flags afterwards; the file's pages hold what
    [page_byte] says, those added hold zeros, and nothing that could be read
    before changed. *)
Lemma segment_reads elf off seg root ua (s : St) rng s' :
  segment_ok seg → direct_map_ok off root (tables s') →
  load_segment elf off seg root ua s = Done (Ok rng, s') →
  (∀ i p k, file_pages seg !! i = Some p → 0 ≤ k < PAGE →
     read root off s' (p + k) =
       Some (page_byte (input elf) (page_offset (p_offset seg)) (file_size seg) (Z.of_nat i) k)) ∧
  (∀ p k, p ∈ bss_pages seg → 0 ≤ k < PAGE → read root off s' (p + k) = Some 0) ∧
  (∀ p, p ∈ file_pages seg ++ bss_pages seg →
     ∃ f, mapping (tables s') root p = Some (f, segment_flags seg ua)) ∧
  (∀ va b, read root off s va = Some b → read root off s' va = Some b) ∧
  Elf.preserved mapping root (tables s) (tables s').
Proof.
  intros Hseg Hdm Hl. apply load_segment_Done in Hl as (_ & s1 & fs1 & fs2 & Hm1 & Hm2 & Hf1 & Hf2); [|done].
  pose proof (mapped_exactly_preserved mapping _ _ _ _ _ _ Hm2) as Hp2.
  pose proof (mapped_exactly_preserved mapping _ _ _ _ _ _ Hm1) as Hp1.
  pose proof (direct_map_ok_mono _ _ _ _ Hp2 Hdm) as Hdm1.
  destruct (mapped_frames off _ _ _ _ _ _ (pages_between_NoDup _ _) Hdm1 Hm1) as [_ Hok1].
  destruct (mapped_frames off _ _ _ _ _ _ (bss_pages_NoDup seg) Hdm Hm2) as [_ Hok2].
  destruct (filled_reads off _ _ _ _ _ s s1 (pages_between_NoDup _ _) (file_pages_aligned seg) Hdm1 Hm1 (Hf1 Hok1))
    as [Hr1 Hk1].
  destruct (filled_reads off _ _ _ _ _ s1 s' (bss_pages_NoDup seg) (bss_pages_aligned seg) Hdm Hm2 (Hf2 Hok2))
    as [Hr2 Hk2].
  split_and!; [| | |auto|].
  - intros i p k Hp Hk. by apply Hk2, Hr1.
  - intros p k [i Hi]%list_elem_of_lookup Hk. by apply (Hr2 i).
  - intros p [Hp|Hp]%elem_of_app; apply list_elem_of_lookup in Hp as [i Hi].
    + destruct Hm1 as (Hlen & Hm & _). destruct (lookup_lt_is_Some_2 fs1 i) as [f Hf];
        [rewrite Hlen; by eapply lookup_lt_Some|]. exists f. by apply Hp2, (Hm i p f).
    + destruct Hm2 as (Hlen & Hm & _). destruct (lookup_lt_is_Some_2 fs2 i) as [f Hf];
        [rewrite Hlen; by eapply lookup_lt_Some|]. exists f. by apply (Hm i p f).
  - intros q x Hx. by apply Hp2, Hp1.
Qed.

(** What address [virtual_addr + i] shows: the byte [i] of the segment in the file,
    except for the last ones of a segment that does not start a page. *)
Definition segment_byte (elf : ElfFile) (seg : ProgramHeader) (i : Z) : Z :=
  let d := virtual_addr seg `mod` PAGE + i in
  if (d <? file_size seg) || (file_size seg <? d / PAGE * PAGE) then input elf (p_offset seg + i) else 0.

Lemma page_offset_eq o : page_offset o = page_of o.
Proof.
  unfold page_offset, page_of, PAGE. change (Z.lnot 0xfff) with (Z.lnot (Z.ones 12)).
  rewrite <- Z.ldiff_land, Z.ldiff_ones_r by lia. rewrite Z.shiftr_div_pow2, Z.shiftl_mul_pow2 by lia.
  change (2 ^ 12) with 4096. Z.div_mod_to_equations. lia.
Qed.

Lemma page_byte_eq elf seg i :
  segment_ok seg → virtual_addr seg `mod` PAGE = p_offset seg `mod` PAGE → 0 ≤ i < mem_size seg →
  page_byte (input elf) (page_offset (p_offset seg)) (file_size seg)
    ((virtual_addr seg `mod` PAGE + i) / PAGE) ((virtual_addr seg `mod` PAGE + i) `mod` PAGE) =
  segment_byte elf seg i.
Proof.
  intros [Ha [Hf Hfm] He] Hc Hi. unfold page_byte, segment_byte. rewrite page_offset_eq. unfold page_of.
  rewrite <- Hc. set (delta := virtual_addr seg `mod` PAGE) in *.
  assert (0 ≤ delta < PAGE) by (unfold delta, PAGE; apply Z.mod_pos_bound; lia).
  set (d := delta + i) in *. set (j := d / PAGE) in *. set (k := d `mod` PAGE) in *.
  assert (Hd : d = j * PAGE + k ∧ 0 ≤ k < PAGE ∧ 0 ≤ j)
    by (unfold j, k, PAGE in *; Z.div_mod_to_equations; lia).
  clearbody j k. destruct Hd as (Hd & Hk & Hj). replace (p_offset seg + i) with (p_offset seg - delta + j * PAGE + k) by lia.
  assert (Hcount : (k <? page_count (file_size seg) j) = ((d <? file_size seg) || (file_size seg <? j * PAGE))).
  { unfold page_count. destruct (Z.ltb_spec (file_size seg) (j * PAGE)) as [Hlt|Hge].
    - rewrite orb_true_r.
      assert (wrap 64 (file_size seg - j * PAGE) = file_size seg - j * PAGE + 2 ^ 64) as ->.
      { unfold wrap. rewrite <- (Z_mod_plus_full _ 1), Z.mod_small; unfold PAGE in *; lia. }
      unfold PAGE in *. case_match; lia.
    - rewrite orb_false_r, wrap_small by (unfold PAGE in *; lia). unfold PAGE in *. repeat case_match; lia. }
  by rewrite Hcount.
Qed.

Lemma split_page va i :
  va + i = page_of va + (va `mod` PAGE + i) / PAGE * PAGE + (va `mod` PAGE + i) `mod` PAGE ∧
  0 ≤ (va `mod` PAGE + i) `mod` PAGE < PAGE ∧
  page_of (va + i) = page_of va + (va `mod` PAGE + i) / PAGE * PAGE.
Proof. unfold page_of, PAGE. Z.div_mod_to_equations. lia. Qed.

Lemma segment_contents elf off seg root ua (s : St) rng s' i :
  segment_ok seg → virtual_addr seg `mod` PAGE = p_offset seg `mod` PAGE →
  direct_map_ok off root (tables s') →
  load_segment elf off seg root ua s = Done (Ok rng, s') → 0 ≤ i < mem_size seg →
  read root off s' (virtual_addr seg + i) =
    Some (if page_of (virtual_addr seg + i) <=? page_of (virtual_addr seg + file_size seg - 1)
          then segment_byte elf seg i else 0).
Proof.
  intros Hseg Hc Hdm Hl Hi. destruct (segment_reads _ _ _ _ _ _ _ _ Hseg Hdm Hl) as (Hfile & Hbss & _).
  pose proof Hseg as [Ha [Hf Hfm] He]. set (va := virtual_addr seg) in *.
  destruct (split_page va i) as (Hs & Hk & Hp). set (j := (va `mod` PAGE + i) / PAGE) in *.
  set (k := (va `mod` PAGE + i) `mod` PAGE) in *. rewrite Hs.
  pose proof (page_of_bounds (va + i)) as Hb. pose proof (page_of_bounds (va + file_size seg - 1)) as Hbl.
  assert (0 ≤ j) by (unfold j, PAGE; pose proof (Z.mod_pos_bound va 4096); apply Z.div_pos; lia).
  rewrite <- Hs. destruct (Z.leb_spec (page_of (va + i)) (page_of (va + file_size seg - 1))) as [Hle|Hgt].
  - assert (Hj : file_pages seg !! Z.to_nat j = Some (page_of va + j * PAGE)).
    { apply pages_between_lookup; [apply page_of_aligned|apply page_end_aligned|]. fold va. split; [lia|].
      assert (j + 1 ≤ (page_of (va + file_size seg - 1) + PAGE - page_of va) / PAGE); [|lia].
      apply Z.div_le_lower_bound; unfold PAGE in *; lia. }
    rewrite Hs, (Hfile _ _ k Hj Hk), Z2Nat.id by done. f_equal. by apply page_byte_eq.
  - rewrite Hs. apply Hbss; [|done]. unfold bss_pages. fold va.
    assert (file_size seg ≤ i) by (destruct (Z.le_gt_cases (file_size seg) i) as [|Hlt]; [done|];
      exfalso; clear - Hgt Hlt; unfold page_of, PAGE in *; Z.div_mod_to_equations; lia).
    rewrite (proj2 (Z.ltb_lt _ _)) by lia. rewrite <- Hp.
    apply elem_of_pages_between; [apply page_of_aligned|apply page_end_aligned|].
    split; [apply page_of_aligned|]. unfold bss_start. fold va.
    clear - Hgt Hi. unfold page_of, PAGE in *. Z.div_mod_to_equations. lia.
Qed.

(** ** The whole program *)

Definition loads (seg : ProgramHeader) : Prop := get_type seg = Some Load.
#[local] Instance loads_dec seg : Decision (loads seg).
Proof. unfold loads. apply _. Defined.

Definition segment_range (seg : ProgramHeader) : Z * Z :=
  (page_of (virtual_addr seg), page_of (virtual_addr seg + mem_size seg - 1)).

(** Every byte of a segment is what the program's file says, and zero after the
    file's part; its pages have the segment's access rights. *)
Definition segment_loaded (elf : ElfFile) (off root : Z) (ua : bool) (s : St) (seg : ProgramHeader) : Prop :=
  (∀ i, 0 ≤ i < file_size seg → read root off s (virtual_addr seg + i) = Some (input elf (p_offset seg + i))) ∧
  (∀ i, file_size seg ≤ i < mem_size seg → read root off s (virtual_addr seg + i) = Some 0) ∧
  (∀ i, 0 ≤ i < mem_size seg → ∃ f,
     mapping (tables s) root (page_of (virtual_addr seg + i)) = Some (f, segment_flags seg ua)).

Lemma aligned_segment_byte elf seg i :
  segment_ok seg → aligned (virtual_addr seg) → 0 ≤ i →
  page_of (virtual_addr seg + i) ≤ page_of (virtual_addr seg + file_size seg - 1) →
  segment_byte elf seg i = if i <? file_size seg then input elf (p_offset seg + i) else 0.
Proof.
  intros [Ha [Hf Hfm] He] Hal Hi Hle. unfold segment_byte. rewrite Hal, Z.add_0_l.
  assert (i / PAGE * PAGE ≤ file_size seg) as Hp.
  { unfold aligned, page_of, PAGE in *. Z.div_mod_to_equations. lia. }
  rewrite (proj2 (Z.ltb_ge (file_size seg) _) Hp). by rewrite orb_false_r.
Qed.

Lemma segment_page seg i :
  segment_ok seg → 0 ≤ i < mem_size seg → page_of (virtual_addr seg + i) ∈ file_pages seg ++ bss_pages seg.
Proof.
  intros [Ha [Hf Hfm] He] Hi. apply elem_of_app. unfold file_pages, bss_pages.
  destruct (Z.le_gt_cases (page_of (virtual_addr seg + i)) (page_of (virtual_addr seg + file_size seg - 1))) as [Hle|Hgt].
  - left. apply elem_of_pages_between; [apply page_of_aligned|apply page_end_aligned|].
    split; [apply page_of_aligned|]. unfold page_of, PAGE in *. Z.div_mod_to_equations. lia.
  - right. rewrite (proj2 (Z.ltb_lt _ _)) by (clear - Hgt Hi; unfold page_of, PAGE in *; Z.div_mod_to_equations; lia).
    apply elem_of_pages_between; [apply page_of_aligned|apply page_end_aligned|].
    split; [apply page_of_aligned|]. unfold bss_start. clear - Hgt Hi. unfold page_of, PAGE in *. Z.div_mod_to_equations. lia.
Qed.

Lemma load_segment_loaded elf off seg root ua (s : St) rng s' :
  segment_ok seg → aligned (virtual_addr seg) → aligned (p_offset seg) → direct_map_ok off root (tables s') →
  load_segment elf off seg root ua s = Done (Ok rng, s') →
  segment_loaded elf off root ua s' seg.
Proof.
  intros Hseg Hal Hap Hdm Hl. assert (Hc : virtual_addr seg `mod` PAGE = p_offset seg `mod` PAGE) by congruence.
  pose proof (λ i, segment_contents _ _ _ _ _ _ _ _ i Hseg Hc Hdm Hl) as Hr.
  destruct (segment_reads _ _ _ _ _ _ _ _ Hseg Hdm Hl) as (_ & _ & Hm & _). split_and!.
  - intros i Hi. rewrite Hr by (destruct Hseg; lia).
    assert (page_of (virtual_addr seg + i) ≤ page_of (virtual_addr seg + file_size seg - 1)) as Hle
      by (clear - Hi; unfold page_of, PAGE; Z.div_mod_to_equations; lia).
    rewrite (proj2 (Z.leb_le _ _) Hle), aligned_segment_byte by (done || lia).
    by rewrite (proj2 (Z.ltb_lt _ _)) by lia.
  - intros i Hi. pose proof (seg_file _ Hseg). rewrite Hr by lia. case_match eqn:E; [|done]. apply Z.leb_le in E.
    rewrite aligned_segment_byte by (done || lia). by rewrite (proj2 (Z.ltb_ge _ _)) by lia.
  - intros i Hi. by apply Hm, segment_page.
Qed.

Lemma segment_loaded_mono elf off root ua (s s' : St) seg :
  (∀ va b, read root off s va = Some b → read root off s' va = Some b) →
  Elf.preserved mapping root (tables s) (tables s') →
  segment_loaded elf off root ua s seg → segment_loaded elf off root ua s' seg.
Proof.
  intros Hr Hp (H1 & H2 & H3). split_and!; intros i Hi; [apply Hr; auto..|].
  destruct (H3 i Hi) as [f Hf]. exists f. by apply Hp.
Qed.

Lemma load_segments_Done elf off segs root ua (s : St) rngs s' :
  (∀ seg, seg ∈ segs → loads seg → segment_ok seg ∧ aligned (virtual_addr seg) ∧ aligned (p_offset seg)) →
  direct_map_ok off root (tables s') →
  load_segments elf off segs root ua s = Done (Ok rngs, s') →
  rngs = segment_range <$> filter loads segs ∧
  (∀ seg, seg ∈ segs → loads seg → segment_loaded elf off root ua s' seg) ∧
  (∀ va b, read root off s va = Some b → read root off s' va = Some b) ∧
  Elf.preserved mapping root (tables s) (tables s').
Proof.
  revert s rngs. induction segs as [|seg segs IH]; intros s rngs Hok Hdm Hl; simpl in Hl.
  { inv_done. split_and!; [done|by intros ? ?%elem_of_nil|done|by intros ? ?]. }
  apply bind_Done in Hl as (t & s1 & Ht & Hl). apply unwrap_Done in Ht as [Ht <-].
  rewrite filter_cons. destruct (decide (t = Load)) as [->|Hne].
  - apply bind_Done in Hl as (r & s1 & Hseg & Hl). destruct r as [rng|]; [|by inv_done].
    apply bind_Done in Hl as (r & s2 & Hsegs & Hl). destruct r as [rngs'|]; [|by inv_done].
    apply ret_Done in Hl as [[= <-] <-].
    destruct (Hok seg) as (Hs1 & Hs2 & Hs3); [by left|done|].
    destruct (IH s1 rngs') as (-> & Hall & Hk2 & Hp2); [intros; apply Hok; [by right|done]|done|done|].
    pose proof (direct_map_ok_mono _ _ _ _ Hp2 Hdm) as Hdm1.
    destruct (segment_reads _ _ _ _ _ _ _ _ Hs1 Hdm1 Hseg) as (_ & _ & _ & Hk1 & Hp1).
    pose proof (load_segment_loaded _ _ _ _ _ _ _ _ Hs1 Hs2 Hs3 Hdm1 Hseg) as Hld.
    apply load_segment_Done in Hseg as [-> _]; [|done].
    rewrite decide_True by done. split_and!; [done| |auto|].
    + intros seg' [->|Hin]%elem_of_cons Hl'; [|by apply Hall]. by eapply segment_loaded_mono.
    + intros q x Hx. by apply Hp2, Hp1.
  - destruct (IH s rngs) as (-> & Hall & Hk & Hp); [intros; apply Hok; [by right|done]|done|done|].
    rewrite decide_False by (unfold loads; congruence). split_and!; [done| |done|done].
    intros seg' [->|Hin]%elem_of_cons Hl'; [unfold loads in Hl'; congruence|by apply Hall].
Qed.

(** ** Loading returns *)

Section Returns.
Context (Hrel : debug_assertions = false) (Hret : mapping_returns PT A).

Lemma word_op_returns {S} w x (s : S) : ∃ y, word_op w x s = Done (y, s).
Proof. unfold word_op. rewrite Hrel. case_match; by eexists. Qed.

Lemma alloc_frame_returns (s : St) : ∃ r, alloc_frame s = Done r.
Proof. unfold alloc_frame. destruct Hret as [Ha _]. destruct (Ha (falloc s)) as [[o a] ->]. by eexists. Qed.

Lemma page_map_to_returns root p f fl (s : St) : ∃ r, page_map_to root p f fl s = Done r.
Proof.
  unfold page_map_to. destruct Hret as [_ Hm].
  destruct (Hm root p f fl (tables s) (falloc s)) as [[[o pt] a] ->]. by eexists.
Qed.

Lemma load_loop_returns inp data fsz off root fl idx pages (s : St) :
  ∃ r, load_loop inp data fsz off root fl idx pages s = Done r.
Proof.
  revert idx s. induction pages as [|p pages IH]; intros idx s; simpl; [by eexists|].
  destruct (alloc_frame_returns s) as [[[f|] s1] Ha]; rewrite (bind_step _ _ _ _ _ Ha); [|by eexists].
  destruct (word_op_returns 64 (idx * PAGE) s1) as [o Ho]. rewrite (bind_step _ _ _ _ _ Ho).
  destruct (word_op_returns 64 (fsz - o) s1) as [rest Hr]. rewrite (bind_step _ _ _ _ _ Hr).
  assert (∃ c, (if rest <? PAGE then word_op 64 (fsz - o) else mret PAGE) s1 = Done (c, s1)) as [c Hc]
    by (case_match; [apply word_op_returns|by eexists]).
  rewrite (bind_step _ _ _ _ _ Hc).
  destruct (word_op_returns 64 (f + off) s1) as [d Hd]. rewrite (bind_step _ _ _ _ _ Hd).
  rewrite (bind_step _ _ _ _ _ eq_refl).
  edestruct (page_map_to_returns root p f fl) as [[r s2] Hm]. rewrite (bind_step _ _ _ _ _ Hm).
  destruct r as [[]|e]; [|by eexists].
  assert (∃ s3, (if c <? PAGE then tail ← word_op 64 (d + c); modify_mem (write_bytes tail 0 (PAGE - c))
    else mret ()) s2 = Done ((), s3)) as [s3 H3].
  { destruct (c <? PAGE); [|by eexists]. destruct (word_op_returns 64 (d + c) s2) as [t Ht].
    rewrite (bind_step _ _ _ _ _ Ht). by eexists. }
  rewrite (bind_step _ _ _ _ _ H3). apply IH.
Qed.

Lemma bss_loop_returns off root fl pages (s : St) : ∃ r, bss_loop off root fl pages s = Done r.
Proof.
  revert s. induction pages as [|p pages IH]; intros s; simpl; [by eexists|].
  destruct (alloc_frame_returns s) as [[[f|] s1] Ha]; rewrite (bind_step _ _ _ _ _ Ha); [|by eexists].
  destruct (page_map_to_returns root p f fl s1) as [[r s2] Hm]. rewrite (bind_step _ _ _ _ _ Hm).
  destruct r as [[]|e]; [|by eexists].
  destruct (word_op_returns 64 (f + off) s2) as [d Hd]. rewrite (bind_step _ _ _ _ _ Hd).
  rewrite (bind_step _ _ _ _ _ eq_refl). apply IH.
Qed.

Lemma load_segment_returns elf off seg root ua (s : St) :
  segment_ok seg → ∃ r, load_segment elf off seg root ua s = Done r.
Proof.
  intros [Ha [Hf Hfm] He]. unfold load_segment. unfold PAGE in He.
  set (va := virtual_addr seg) in *. set (fsz := file_size seg) in *. set (msz := mem_size seg) in *.
  rewrite VirtAddr_new_canonical by (left; lia). rewrite (bind_step _ _ s va s) by done.
  rewrite (VirtAddr_add_user va fsz) by (unfold user, PAGE; lia). rewrite (bind_step _ _ s (va + fsz) s) by done.
  rewrite (VirtAddr_sub_user (va + fsz)) by lia. rewrite (bind_step _ _ s (va + fsz - 1) s) by done.
  match goal with |- context [load_loop ?a ?b ?c ?d ?e ?f ?g ?h] =>
    destruct (load_loop_returns a b c d e f g h s) as [[r s1] Hl] end.
  rewrite (bind_step _ _ _ _ _ Hl). destruct r as [[]|e]; [|by eexists].
  assert (∃ r, (if fsz <? msz then
    zero_start ← unwrap (Some (va + fsz)); zero_end ← unwrap (VirtAddr_add va msz);
    bss ← unwrap (VirtAddr_new (align_up zero_start PAGE));
    bss_loop off root (segment_flags seg ua)
      (Page_range_inclusive (Page_containing_address bss) (Page_containing_address zero_end))
    else mret (Ok ())) s1 = Done r) as [[r s2] Hb].
  { destruct (fsz <? msz); [|by eexists]. rewrite (bind_step _ _ s1 (va + fsz) s1) by done.
    rewrite (VirtAddr_add_user va msz) by (unfold user, PAGE; lia). rewrite (bind_step _ _ s1 (va + msz) s1) by done.
    rewrite align_up_page by lia. rewrite VirtAddr_new_canonical; [rewrite (bind_step _ _ s1 _ s1 eq_refl); apply bss_loop_returns|].
    left. pose proof (page_of_nonneg (va + fsz + (PAGE - 1))). pose proof (page_of_bounds (va + fsz + (PAGE - 1))).
    unfold PAGE in *. lia. }
  rewrite (bind_step _ _ _ _ _ Hb). destruct r as [[]|e]; [|by eexists].
  rewrite VirtAddr_add_user by (unfold user, PAGE; lia). rewrite (bind_step _ _ s2 (va + msz) s2) by done.
  rewrite VirtAddr_sub_user by lia. rewrite (bind_step _ _ s2 _ s2 eq_refl). by eexists.
Qed.

Lemma load_segments_returns elf off segs root ua (s : St) :
  (∀ seg, seg ∈ segs → is_Some (get_type seg) ∧ (loads seg → segment_ok seg)) →
  ∃ r, load_segments elf off segs root ua s = Done r.
Proof.
  revert s. induction segs as [|seg segs IH]; intros s Hok; simpl; [by eexists|].
  destruct (Hok seg) as [[t Ht] Hs]; [by left|]. rewrite Ht. rewrite (bind_step _ _ s t s) by done.
  assert (∀ s, ∃ r, load_segments elf off segs root ua s = Done r) as IH'.
  { intros s'. apply IH. intros seg' Hin. apply Hok. by right. }
  destruct (decide (t = Load)) as [->|]; [|apply IH'].
  destruct (load_segment_returns elf off seg root ua s (Hs Ht)) as [[r s1] Hl].
  rewrite (bind_step _ _ _ _ _ Hl). destruct r as [rng|e]; [|by eexists].
  destruct (IH' s1) as [[r s2] Hl2]. rewrite (bind_step _ _ _ _ _ Hl2). destruct r; by eexists.
Qed.

End Returns.

(** C30: A loaded program.  For segments in the lower half that start a page, in
    memory and in the file, [load_elf] returns (in a release build, when the
    allocator and the mapper do), and if it answers the list of page ranges,
    these are the ranges of the [Load] segments in order; every byte of such a
    segment reads as in the file, the rest of the segment reads zero, its pages
    have the access rights of its header, and everything that was mapped before
    is mapped and reads as before. *)
Theorem load_elf_contents elf off root ua (s : St) :
  (∀ seg, seg ∈ program_iter elf → is_Some (get_type seg) ∧
     (loads seg → segment_ok seg ∧ aligned (virtual_addr seg) ∧ aligned (p_offset seg))) →
  (debug_assertions = false → mapping_returns PT A → ∃ r, load_elf elf off root ua s = Done r) ∧
  ∀ rngs s', load_elf elf off root ua s = Done (Ok rngs, s') → direct_map_ok off root (tables s') →
    rngs = segment_range <$> filter loads (program_iter elf) ∧
    (∀ seg, seg ∈ program_iter elf → loads seg → segment_loaded elf off root ua s' seg) ∧
    (∀ va b, read root off s va = Some b → read root off s' va = Some b) ∧
    Elf.preserved mapping root (tables s) (tables s').
Proof.
  intros Hok. split.
  - intros Hrel Hret. apply load_segments_returns; [done..|]. intros seg Hin.
    destruct (Hok seg Hin) as [? Hs]. split; [done|]. intros Hl. by apply Hs.
  - intros rngs s' Hl Hdm. eapply load_segments_Done; [|done|exact Hl]. intros seg Hin Hs. by apply Hok.
Qed.

(** A segment that does not start a page.  The loader copies [file_size] bytes
    from the start of the page on, not from the segment's address on: the last
    bytes of the segment's file part, as many as the address is past the start
    of its page, are not loaded and read zero (unless a page begins past
    [file_size]). *)
Theorem load_segment_drops_tail elf off seg root ua (s : St) rng s' i :
  segment_ok seg → virtual_addr seg `mod` PAGE = p_offset seg `mod` PAGE →
  direct_map_ok off root (tables s') →
  load_segment elf off seg root ua s = Done (Ok rng, s') →
  let delta := virtual_addr seg `mod` PAGE in
  0 ≤ i < file_size seg →
  (i < file_size seg - delta → read root off s' (virtual_addr seg + i) = Some (input elf (p_offset seg + i))) ∧
  (file_size seg - delta ≤ i → (delta + i) / PAGE * PAGE ≤ file_size seg →
     read root off s' (virtual_addr seg + i) = Some 0).
Proof.
  intros Hseg Hc Hdm Hl delta Hi.
  rewrite (segment_contents _ _ _ _ _ _ _ _ i Hseg Hc Hdm Hl) by (destruct Hseg; lia).
  rewrite (proj2 (Z.leb_le _ _)) by (clear - Hi; unfold page_of, PAGE; Z.div_mod_to_equations; lia).
  unfold segment_byte. fold delta. split.
  - intros Hlt. by rewrite (proj2 (Z.ltb_lt _ _)) by lia.
  - intros Hge Hp. rewrite (proj2 (Z.ltb_ge _ _)) by lia. by rewrite (proj2 (Z.ltb_ge _ _)) by lia.
Qed.

(** A segment with a part that is not in the file and that ends with a page takes
    one page more: the page after it is mapped, without being part of the range
    that is answered (and later unmapped), so that a segment that starts there
    cannot be loaded. *)
Theorem load_segment_extra_page elf off seg root ua (s : St) rng s' :
  segment_ok seg → file_size seg < mem_size seg → aligned (virtual_addr seg + mem_size seg) →
  load_segment elf off seg root ua s = Done (Ok rng, s') →
  let next := virtual_addr seg + mem_size seg in
  mapping (tables s) root next = None ∧
  (∃ f, mapping (tables s') root next = Some (f, segment_flags seg ua)) ∧
  rng.2 + PAGE = next.
Proof.
  intros Hseg Hlt Hal Hl next. apply load_segment_Done in Hl as (-> & s1 & fs1 & fs2 & Hm1 & Hm2 & _); [|done].
  destruct Hseg as [Ha Hf He].
  assert (Hp : page_of next = next) by (unfold page_of; unfold aligned in Hal; fold next in Hal; lia).
  assert (Hin : next ∈ bss_pages seg).
  { unfold bss_pages. rewrite (proj2 (Z.ltb_lt _ _)) by done. fold next. rewrite Hp.
    apply elem_of_pages_between; [apply page_of_aligned|rewrite <- Hp; apply page_end_aligned|].
    split; [done|]. unfold bss_start. unfold aligned, page_of, next, PAGE in *. Z.div_mod_to_equations. lia. }
  apply list_elem_of_lookup in Hin as [i Hi]. destruct Hm2 as (Hlen & Hm & _).
  destruct (lookup_lt_is_Some_2 fs2 i) as [f Hfi]; [rewrite Hlen; by eapply lookup_lt_Some|].
  destruct (Hm i next f Hi Hfi) as [Hn Hy]. split_and!; [|by exists f|].
  - destruct (mapping (tables s) root next) as [x|] eqn:E; [|done].
    apply (mapped_exactly_preserved mapping _ _ _ _ _ _ Hm1) in E. congruence.
  - simpl. fold next. unfold aligned, page_of, next, PAGE in *. Z.div_mod_to_equations. lia.
Qed.

End ElfLoad.

(** ** An example: code of five bytes, data of four with a page more for zeros *)

Section ElfLoadWitnesses.
#[local] Existing Instance release.
#[local] Existing Instance x86_ref.

(** A test for [direct_map_ok] by computation. *)
Definition direct_map_okb (off root : Z) (pt : table) : bool :=
  let l := filter (λ kv, kv.1.1 = root) (map_to_list pt) in
  forallb (λ kv, (kv.2.1 `mod` PAGE =? 0) && (0 <=? kv.2.1 + off) && (kv.2.1 + off + PAGE <=? 2 ^ 64)) l &&
  forallb (λ kv, forallb (λ kv', negb (kv.2.1 =? kv'.2.1) || (kv.1.2 =? kv'.1.2)) l) l.

Lemma direct_map_okb_ok off root pt :
  direct_map_okb off root pt = true → direct_map_ok table_mapping off root pt.
Proof.
  unfold direct_map_okb. intros [H1 H2]%andb_true_iff. rewrite forallb_forall in H1. rewrite forallb_forall in H2.
  assert (Hin : ∀ p x, table_mapping pt root p = Some x →
    In ((root, p), x) (filter (λ kv : Z * Z * (Z * Z), kv.1.1 = root) (map_to_list pt))).
  { intros p x Hx. apply list_elem_of_In, list_elem_of_filter. split; [done|]. by apply elem_of_map_to_list. }
  assert (Hok : ∀ p x, table_mapping pt root p = Some x → frame_ok off x.1).
  { intros p x Hx%Hin%H1. rewrite !andb_true_iff in Hx. unfold frame_ok, aligned. simpl in Hx. lia. }
  split; [|done]. intros p q x y Hx Hy. split; [by eapply Hok|]. intros Heq.
  apply Hin in Hx, Hy. specialize (H2 _ Hx). simpl in H2. rewrite forallb_forall in H2. specialize (H2 _ Hy).
  simpl in H2. rewrite Heq, Z.eqb_refl in H2. simpl in H2. lia.
Qed.

Definition code_example : ProgramHeader := mkProgramHeader (Some Load) 0x1000 0x400000 5 5 true false.
Definition data_example : ProgramHeader := mkProgramHeader (Some Load) 0x2000 0x401000 4 4200 false true.
Definition note_example : ProgramHeader := mkProgramHeader (Some OtherSegment) 0 0 0 0 false false.
Definition elf_example : ElfFile :=
  mkElfFile (λ a, a `mod` 251) [code_example; note_example; data_example] 0x400000.
Definition elf_machine : Machine table free_list := mkMachine ∅ [0x1000; 0x2000; 0x3000; 0x4000] (λ _, 0xcc).
Definition elf_loaded : Machine table free_list :=
  state_of (load_elf elf_example 0x100000 7 true elf_machine) elf_machine.

Lemma elf_example_ok seg :
  seg ∈ program_iter elf_example → is_Some (get_type seg) ∧
  (loads seg → segment_ok seg ∧ aligned (virtual_addr seg) ∧ aligned (p_offset seg)).
Proof.
  unfold elf_example, program_iter. rewrite !elem_of_cons, elem_of_nil. intros [->|[->|[->|[]]]]; (split; [by eexists|done]).
Qed.

Lemma load_elf_contents_witness :
  (∃ r, load_elf elf_example 0x100000 7 true elf_machine = Done r) ∧
  segment_loaded table_mapping elf_example 0x100000 7 true elf_loaded data_example.
Proof.
  destruct (load_elf_contents table_mapping elf_example 0x100000 7 true elf_machine) as [Hr Hl];
    [apply elf_example_ok|]. split; [apply Hr; [done|apply mapping_ref_returns]|].
  destruct (Hl [(0x400000, 0x400000); (0x401000, 0x402000)] elf_loaded) as (_ & Hs & _).
  - apply value_state. vm_compute. reflexivity.
  - apply direct_map_okb_ok. vm_compute. reflexivity.
  - apply Hs; [by right; right; left|done].
Defined.

(** 4200 bytes at [0x400ffd], three bytes before the end of a page. *)
Definition skewed_example : ProgramHeader := mkProgramHeader (Some Load) 0x1ffd 0x400ffd 4200 4200 true false.
Definition skewed_loaded : Machine table free_list :=
  state_of (load_segment elf_example 0x100000 skewed_example 7 true elf_machine) elf_machine.

Lemma load_segment_drops_tail_witness :
  Elf.read table_mapping 7 0x100000 skewed_loaded (0x400ffd + 4000) = Some 0 ∧
  input elf_example (0x1ffd + 4000) ≠ 0.
Proof.
  split; [|done].
  apply (load_segment_drops_tail table_mapping elf_example 0x100000 skewed_example 7 true elf_machine
    (0x400000, 0x402000) skewed_loaded 4000).
  - split; simpl; unfold PAGE; lia.
  - reflexivity.
  - apply direct_map_okb_ok. vm_compute. reflexivity.
  - apply value_state. vm_compute. reflexivity.
  - simpl. lia.
  - simpl. unfold PAGE. vm_compute. discriminate.
  - vm_compute. discriminate.
Defined.

End ElfLoadWitnesses.
