(* ===== verification/ElfBoot.v ===== *)
(** The rest of the loader library [pkg/elf/src/lib.rs]: the map of all physical
    memory, and the functions that map a program's file in place ([map_elf])
    and unmap it again ([unmap_elf]).

    They run in the boot loader, where addresses are physical addresses: the
    memory of the [Machine] is addressed directly by frame. *)
From S2P Require Import Prelude Arch Frames Elf ElfLoad.
#[local] Open Scope Z_scope.

(** ** Frames and pages of two mebibytes, and ranges of frames *)

Definition HUGE : Z := 0x200000.

(** The part of the [x86_64] crate that deals with frames; [None] is a panic. *)
Class X86_64_Frames := {
  PhysAddr_add : Z → Z → option Z;
  PhysAddr_sub : Z → Z → option Z;
  PhysFrame_diff : Z → Z → option Z;
  PhysFrame_range_inclusive : Z → Z → list Z;
  (** [Size2MiB] *)
  PhysFrame2M_containing_address : Z → Z;
  PhysFrame2M_range_inclusive : Z → Z → list Z;
  Page2M_containing_address : Z → Z;
}.

Definition huge_frames (s e : Z) : list Z := (λ i, s + i * HUGE) <$> seqZ 0 ((e - s) / HUGE).

Class X86_64_Frames_Laws (X : X86_64_Frames) : Prop := {
  PhysAddr_add_valid a b : 0 ≤ a → 0 ≤ b → a + b < 2 ^ 52 → PhysAddr_add a b = Some (a + b);
  PhysAddr_sub_valid a b : 0 ≤ b ≤ a → a < 2 ^ 52 → PhysAddr_sub a b = Some (a - b);
  PhysFrame_diff_le f g : aligned f → aligned g → 0 ≤ g ≤ f → f < 2 ^ 52 →
    PhysFrame_diff f g = Some ((f - g) / PAGE);
  PhysFrame_range_inclusive_eq s e : aligned s → aligned e → 0 ≤ s → 0 ≤ e < 2 ^ 52 - PAGE →
    PhysFrame_range_inclusive s e = pages_between s (e + PAGE);
  PhysFrame2M_containing_address_eq a : 0 ≤ a < 2 ^ 52 →
    PhysFrame2M_containing_address a = a - a `mod` HUGE;
  PhysFrame2M_range_inclusive_eq s e : s `mod` HUGE = 0 → e `mod` HUGE = 0 → 0 ≤ s → 0 ≤ e < 2 ^ 52 - HUGE →
    PhysFrame2M_range_inclusive s e = huge_frames s (e + HUGE);
  Page2M_containing_address_eq a : canonical a → Page2M_containing_address a = a - a `mod` HUGE;
}.

#[export] Instance frames_ref : X86_64_Frames := {|
  PhysAddr_add a b := if in_word 52 (a + b) then Some (a + b) else None;
  PhysAddr_sub a b := if in_word 52 (a - b) then Some (a - b) else None;
  PhysFrame_diff f g := if g <=? f then Some ((f - g) / PAGE) else None;
  PhysFrame_range_inclusive s e := pages_between s (e + PAGE);
  PhysFrame2M_containing_address a := a - a `mod` HUGE;
  PhysFrame2M_range_inclusive s e := huge_frames s (e + HUGE);
  Page2M_containing_address a := a - a `mod` HUGE;
|}.

#[export] Instance frames_ref_laws : X86_64_Frames_Laws frames_ref.
Proof.
  split; cbn -[Z.pow in_word]; intros; try done.
  - by rewrite in_word_true by lia.
  - by rewrite in_word_true by lia.
  - case_match; [done|lia].
Qed.

(** [Mapper<Size2MiB>] of the same page table. *)
Class HugeMapper (PT : Type) :=
  map_to_2m : ∀ {A} `{FrameAllocator A},
    Z → Z → Z → Z → PT → A → outcome (result () MapToError * PT * A).

(** [huge_mapping pt root page] is the frame of a mapped page of two mebibytes. *)
Class HugeMapper_Laws (PT : Type) `{HugeMapper PT} (huge_mapping : PT → Z → Z → option (Z * Z)) : Prop := {
  map_to_2m_ok {A} `{FrameAllocator A} root p f fl pt (a : A) pt' a' :
    map_to_2m root p f fl pt a = Done (Ok (), pt', a') →
    huge_mapping pt root p = None ∧ huge_mapping pt' root p = Some (f, fl) ∧
    (∀ q, q ≠ p → huge_mapping pt' root q = huge_mapping pt root q);
}.

#[export] Instance huge_ref : HugeMapper table := λ A _ root p f fl pt a,
  match pt !! (root, p) with
  | Some _ => Done (Err (PageAlreadyMapped f), pt, a)
  | None => Done (Ok (), <[(root, p) := (f, fl)]> pt, a)
  end.

#[export] Instance huge_ref_laws : HugeMapper_Laws table table_mapping.
Proof.
  unfold table_mapping. split. unfold map_to_2m, huge_ref. intros A ? root p f fl pt a pt' a' Hm.
  repeat case_match; inv_done. split_and!; [done|by rewrite lookup_insert_eq|].
  intros q Hq. rewrite lookup_insert_ne by (intros [=]; congruence). done.
Qed.

Section ElfBoot.
Context `{Profile} `{X86_64} `{X86_64_Frames} {PT A : Type} `{Mapper PT} `{HugeMapper PT} `{FrameAllocator A}.
#[local] Abbreviation St := (Machine PT A).

(** ** The map of physical memory *)

Definition page_map_to_2m (root page frame flags : Z) : M St (result () MapToError) := λ s,
  match map_to_2m root page frame flags (tables s) (falloc s) with
  | Done (r, pt, a) => Done (r, mkMachine pt a (mem s))
  | Panic => Panic
  | OutOfFuel => OutOfFuel
  end.

(** [expect]: an error panics. *)
Fixpoint physical_loop (root offset : Z) (frames : list Z) : M St () :=
  match frames with
  | [] => mret ()
  | frame :: frames =>
      a ← word_op 64 (frame + offset);
      va ← unwrap (VirtAddr_new a);
      let page := Page2M_containing_address va in
      let flags := Z.lor PRESENT WRITABLE in
      r ← page_map_to_2m root page frame flags;
      match r with Ok _ => physical_loop root offset frames | Err _ => panic end
  end.

Definition map_physical_memory (offset max_addr root : Z) : M St () :=
  zero ← unwrap (PhysAddr_new 0);
  let start_frame := PhysFrame2M_containing_address zero in
  max ← unwrap (PhysAddr_new max_addr);
  let end_frame := PhysFrame2M_containing_address max in
  physical_loop root offset (PhysFrame2M_range_inclusive start_frame end_frame).

(** ** Mapping a file in place *)

(** The loop over the frames of a segment: the page is as far from the first page as
    the frame is from the first frame. *)
Fixpoint frame_loop (root flags start_page start_frame : Z) (frames : list Z) : M St (result () MapToError) :=
  match frames with
  | [] => mret (Ok ())
  | frame :: frames =>
      offset ← unwrap (PhysFrame_diff frame start_frame);
      page ← unwrap (Page_add start_page offset);
      _ ←? page_map_to root page frame flags;
      frame_loop root flags start_page start_frame frames
  end.

(** [write_bytes] through the page table, one byte after the other; a byte that is
    not mapped faults. *)
Fixpoint zero_virtual (root va : Z) (n : nat) : M St () :=
  match n with
  | O => mret ()
  | S n =>
      s ← get;
      frame ← unwrap (translate_page root (page_of va) (tables s));
      modify_mem (write_bytes (frame + va `mod` PAGE) 0 1);;
      zero_virtual root (va + 1) n
  end.

(** An [unmap] error as a [map_to] error; the other two are [unreachable!]. *)
Definition remap_error (e : UnmapError) : M St (result () MapToError) :=
  match e with
  | ParentEntryHugePage => mret (Err MapParentEntryHugePage)
  | PageNotMapped => panic
  | InvalidFrameAddress _ => panic
  end.

(** The last page of the file part gets a frame of its own before it is zeroed. *)
Definition copy_last_page (root flags virt_start_addr file_sz end_frame : Z) : M St (result () MapToError) :=
  o ← alloc_frame;
  match o with
  | None => mret (Err FrameAllocationFailed)
  | Some new_frame =>
      e ← unwrap (VirtAddr_add virt_start_addr file_sz);
      l ← unwrap (VirtAddr_sub e 1);
      let last_page := Page_containing_address l in
      s ← get;
      modify_mem (copy_bytes (mem s) end_frame new_frame PAGE);;
      r ← page_unmap root last_page;
      match r with
      | Err e => remap_error e
      | Ok _ => page_map_to root last_page new_frame flags
      end
  end.

Definition map_segment (segment : ProgramHeader) (start root : Z) : M St (result () MapToError) :=
  t ← unwrap (get_type segment);
  if decide (t ≠ Load) then mret (Ok ())
  else
    let mem_sz := mem_size segment in
    let file_sz := file_size segment in
    let file_offset := page_offset (p_offset segment) in
    phys_start_addr ← unwrap (PhysAddr_add start file_offset);
    virt_start_addr ← unwrap (VirtAddr_new (virtual_addr segment));
    let start_page := Page_containing_address virt_start_addr in
    let start_frame := PhysFrame_containing_address phys_start_addr in
    pe ← unwrap (PhysAddr_add phys_start_addr file_sz);
    pl ← unwrap (PhysAddr_sub pe 1);
    let end_frame := PhysFrame_containing_address pl in
    let flags := segment_flags segment false in
    _ ←? frame_loop root flags start_page start_frame (PhysFrame_range_inclusive start_frame end_frame);
    if file_sz <? mem_sz then
      zero_start ← unwrap (VirtAddr_add virt_start_addr file_sz);
      zero_end ← unwrap (VirtAddr_add virt_start_addr mem_sz);
      _ ←? (if negb (Z.land zero_start 0xfff =? 0)
            then copy_last_page root flags virt_start_addr file_sz end_frame else mret (Ok ()));
      bss ← unwrap (VirtAddr_new (align_up zero_start PAGE));
      _ ←? map_loop root flags
             (Page_range_inclusive (Page_containing_address bss) (Page_containing_address zero_end));
      n ← word_op 64 (mem_sz - file_sz);
      zero_virtual root zero_start (Z.to_nat n);;
      mret (Ok ())
    else mret (Ok ()).

Fixpoint map_segments (segments : list ProgramHeader) (start root : Z) : M St (result () MapToError) :=
  match segments with
  | [] => mret (Ok ())
  | segment :: segments =>
      _ ←? map_segment segment start root;
      map_segments segments start root
  end.

(** [input_ptr] is where the file lies in memory. *)
Definition map_elf (elf : ElfFile) (input_ptr root : Z) : M St (result () MapToError) :=
  start ← unwrap (PhysAddr_new input_ptr);
  map_segments (program_iter elf) start root.

(** ** Unmapping it *)

Fixpoint unmap_frame_loop (root start_page start_frame : Z) (frames : list Z) : M St (result () UnmapError) :=
  match frames with
  | [] => mret (Ok ())
  | frame :: frames =>
      offset ← unwrap (PhysFrame_diff frame start_frame);
      page ← unwrap (Page_add start_page offset);
      _ ←? page_unmap root page;
      unmap_frame_loop root start_page start_frame frames
  end.

Fixpoint unmap_page_loop (root : Z) (pages : list Z) : M St (result () UnmapError) :=
  match pages with
  | [] => mret (Ok ())
  | page :: pages => _ ←? page_unmap root page; unmap_page_loop root pages
  end.

(** The flags that [unmap_segment] computes are not used. *)
Definition unmap_segment (segment : ProgramHeader) (kernel_start root : Z) : M St (result () UnmapError) :=
  t ← unwrap (get_type segment);
  if decide (t ≠ Load) then mret (Ok ())
  else
    let mem_sz := mem_size segment in
    let file_sz := file_size segment in
    let file_offset := page_offset (p_offset segment) in
    phys_start_addr ← unwrap (PhysAddr_add kernel_start file_offset);
    virt_start_addr ← unwrap (VirtAddr_new (virtual_addr segment));
    let start_page := Page_containing_address virt_start_addr in
    let start_frame := PhysFrame_containing_address phys_start_addr in
    pe ← unwrap (PhysAddr_add phys_start_addr file_sz);
    pl ← unwrap (PhysAddr_sub pe 1);
    let end_frame := PhysFrame_containing_address pl in
    _ ←? unmap_frame_loop root start_page start_frame (PhysFrame_range_inclusive start_frame end_frame);
    if file_sz <? mem_sz then
      zero_start ← unwrap (VirtAddr_add virt_start_addr file_sz);
      zero_end ← unwrap (VirtAddr_add virt_start_addr mem_sz);
      _ ←? (if negb (Z.land zero_start 0xfff =? 0) then
              e ← unwrap (VirtAddr_add virt_start_addr file_sz);
              l ← unwrap (VirtAddr_sub e 1);
              r ← page_unmap root (Page_containing_address l);
              mret (match r with Ok _ => Ok () | Err e => Err e end)
            else mret (Ok ()));
      bss ← unwrap (VirtAddr_new (align_up zero_start PAGE));
      unmap_page_loop root
        (Page_range_inclusive (Page_containing_address bss) (Page_containing_address zero_end))
    else mret (Ok ()).

Fixpoint unmap_segments (segments : list ProgramHeader) (kernel_start root : Z) : M St (result () UnmapError) :=
  match segments with
  | [] => mret (Ok ())
  | segment :: segments =>
      _ ←? unmap_segment segment kernel_start root;
      unmap_segments segments kernel_start root
  end.

Definition unmap_elf (elf : ElfFile) (input_ptr root : Z) : M St (result () UnmapError) :=
  kernel_start ← unwrap (PhysAddr_new input_ptr);
  unmap_segments (program_iter elf) kernel_start root.

End ElfBoot.

(** ** What the functions do *)

Section ElfBootFacts.
Context `{Profile} `{!X86_64} `{!X86_64_Laws _} `{!X86_64_Frames} `{!X86_64_Frames_Laws _}.
Context {PT A : Type} `{!Mapper PT} `{!HugeMapper PT} `{!FrameAllocator A} `{!FrameDeallocator A}.
Context (mapping : PT → Z → Z → option (Z * Z)) `{!Mapper_Laws PT mapping}.
Context (huge_mapping : PT → Z → Z → option (Z * Z)) `{!HugeMapper_Laws PT huge_mapping}.
#[local] Abbreviation St := (Machine PT A).

Lemma page_map_to_2m_Done root p f fl (s : St) s' :
  page_map_to_2m root p f fl s = Done (Ok (), s') →
  huge_mapping (tables s) root p = None ∧ huge_mapping (tables s') root p = Some (f, fl) ∧
  ∀ q, q ≠ p → huge_mapping (tables s') root q = huge_mapping (tables s) root q.
Proof.
  unfold page_map_to_2m. destruct (map_to_2m _ _ _ _ _ _) as [[[r pt] a]| |] eqn:E; [|done..].
  intros [= -> <-]. by apply map_to_2m_ok in E.
Qed.

(** The loop maps every frame at its distance from [offset]. *)
Lemma physical_loop_Done root offset frames (s : St) u s' :
  offset `mod` HUGE = 0 → NoDup frames →
  (∀ f, f ∈ frames → f `mod` HUGE = 0 ∧ 0 ≤ f + offset < 2 ^ 64 ∧ canonical (f + offset)) →
  physical_loop root offset frames s = Done (u, s') →
  (∀ f, f ∈ frames → huge_mapping (tables s') root (f + offset) = Some (f, Z.lor PRESENT WRITABLE)) ∧
  (∀ q, q - offset ∉ frames → huge_mapping (tables s') root q = huge_mapping (tables s) root q).
Proof.
  intros Ho Hnd. revert s. induction Hnd as [|f frames Hf Hnd IH]; intros s Hok Hl; simpl in Hl.
  { inv_done. split; [by intros ? ?%elem_of_nil|done]. }
  destruct (Hok f) as (Hfm & Hfr & Hfc); [by left|].
  rewrite (bind_step _ _ s (f + offset) s) in Hl by (by apply word_op_exact).
  rewrite (bind_step _ _ s (f + offset) s) in Hl by (by rewrite VirtAddr_new_canonical).
  cbv zeta in Hl. rewrite Page2M_containing_address_eq in Hl by done.
  assert ((f + offset) `mod` HUGE = 0) as Hm by (unfold HUGE in *; Z.div_mod_to_equations; lia).
  rewrite Hm, Z.sub_0_r in Hl. apply bind_Done in Hl as (r & s1 & Hmap & Hl).
  destruct r as [[]|e]; [|by inv_done]. apply page_map_to_2m_Done in Hmap as (_ & Hy & Hother).
  apply IH in Hl as [Hall Hrest]; [|intros g Hg; apply Hok; by right]. split.
  - intros g [->|Hg]%elem_of_cons; [|by apply Hall]. rewrite Hrest; [done|].
    by replace (f + offset - offset) with f by lia.
  - intros q [Hne Hq]%not_elem_of_cons. rewrite Hrest by done. apply Hother. intros ->. apply Hne. lia.
Qed.

Lemma elem_of_huge_frames s e f :
  s `mod` HUGE = 0 → e `mod` HUGE = 0 → f ∈ huge_frames s e ↔ f `mod` HUGE = 0 ∧ s ≤ f < e.
Proof.
  unfold huge_frames, HUGE. intros Hs He. rewrite list_elem_of_fmap. split.
  - intros (i & -> & Hi%elem_of_seqZ). Z.div_mod_to_equations. lia.
  - intros [Hp Hb]. exists ((f - s) / 2097152). rewrite elem_of_seqZ. Z.div_mod_to_equations. lia.
Qed.

Lemma huge_frames_NoDup s e : NoDup (huge_frames s e).
Proof. unfold huge_frames, HUGE. apply NoDup_fmap_2; [|apply NoDup_seqZ]. intros i j. lia. Qed.

(** [map_physical_memory], with an offset in the upper half.  When it returns,
    every physical address up to [max_addr] is mapped, writable and not for the
    user, at its distance from the offset: the address that the kernel's
    [physical_to_virtual] gives leads back to it.  No page below the offset
    changes. *)
Theorem map_physical_memory_spec offset max_addr root (s : St) u s' :
  offset `mod` HUGE = 0 → 2 ^ 64 - 2 ^ 47 ≤ offset → 0 ≤ max_addr →
  offset + max_addr + HUGE ≤ 2 ^ 64 →
  map_physical_memory offset max_addr root s = Done (u, s') →
  (∀ pa, 0 ≤ pa ≤ max_addr → ∃ va frame,
     Frames.physical_to_virtual (Some offset) pa s' = Done (va, s') ∧
     huge_mapping (tables s') root (va - va `mod` HUGE) = Some (frame, Z.lor PRESENT WRITABLE) ∧
     frame + va `mod` HUGE = pa) ∧
  (∀ q, q < offset → huge_mapping (tables s') root q = huge_mapping (tables s) root q).
Proof.
  intros Ho Hup Hm0 Hend Hl. unfold map_physical_memory in Hl. unfold HUGE in Hend.
  rewrite (bind_step _ _ s 0 s) in Hl by (by rewrite PhysAddr_new_valid).
  rewrite (bind_step _ _ s max_addr s) in Hl by (by rewrite PhysAddr_new_valid by lia).
  rewrite !PhysFrame2M_containing_address_eq in Hl by lia.
  set (top := max_addr - max_addr `mod` HUGE) in *.
  assert (Ht : top `mod` HUGE = 0 ∧ (top + HUGE) `mod` HUGE = 0 ∧ 0 ≤ top ≤ max_addr ∧ max_addr < top + HUGE).
  { unfold top, HUGE. Z.div_mod_to_equations. lia. }
  destruct Ht as (Ht1 & Ht2 & Ht3 & Ht4). change (0 - 0 `mod` HUGE) with 0 in Hl.
  rewrite PhysFrame2M_range_inclusive_eq in Hl by (done || unfold HUGE; lia).
  pose proof (λ f, elem_of_huge_frames 0 (top + HUGE) f eq_refl Ht2) as Hin.
  apply physical_loop_Done in Hl as [Hall Hrest]; [|done|apply huge_frames_NoDup|]; cycle 1.
  { intros f [Hf Hb]%Hin. split_and!; [done|unfold HUGE in *; lia|unfold HUGE in *; lia|].
    right. unfold HUGE in *. lia. }
  split.
  - intros pa Hpa. set (frame := pa - pa `mod` HUGE). exists (pa + offset), frame.
    assert (Hf : frame ∈ huge_frames 0 (top + HUGE)).
    { apply Hin. unfold frame, HUGE in *. Z.div_mod_to_equations. lia. }
    assert (Hmod : (pa + offset) `mod` HUGE = pa `mod` HUGE) by (unfold HUGE in *; Z.div_mod_to_equations; lia).
    split_and!.
    + unfold Frames.physical_to_virtual. rewrite (bind_step _ _ s' offset s') by done.
      apply word_op_exact. lia.
    + rewrite <- (Hall frame Hf). f_equal. unfold frame. lia.
    + unfold frame. lia.
  - intros q Hq. apply Hrest. intros [_ Hb]%Hin. lia.
Qed.

(** ** Mapping and unmapping a segment in place *)

Lemma unmap_loop_ok root pages (s : St) s' :
  NoDup pages → unmap_loop root false pages s = Done (Ok (), s') →
  falloc s' = falloc s ∧ mem s' = mem s ∧
  (∀ p, p ∈ pages → mapping (tables s') root p = None) ∧
  (∀ q, q ∉ pages → mapping (tables s') root q = mapping (tables s) root q).
Proof.
  intros Hnd. revert s. induction Hnd as [|p pages Hp Hnd IH]; intros s Hl; simpl in Hl.
  { inv_done. split_and!; [done..|by intros ? ?%elem_of_nil|done]. }
  apply bind_Done in Hl as (r & s1 & Hu & Hl). destruct r as [f|e]; [|by inv_done].
  apply bind_Done in Hl as (u & s2 & Hd & Hl). apply ret_Done in Hd as [_ <-].
  pose proof (page_unmap_frame mapping _ _ _ _ _ Hu) as (Hm1 & Ha1 & Ho1).
  assert (mapping (tables s1) root p = None) as Hn.
  { unfold page_unmap in Hu. destruct (mapping (tables s) root p) as [[g fl]|] eqn:E.
    - destruct (unmap_mapped root p g fl _ E) as (pt' & E' & Hn & _). rewrite E' in Hu. by injection Hu as _ <-.
    - destruct (unmap_not_mapped (mapping := mapping) root p _ E) as [e E']. by rewrite E' in Hu. }
  apply IH in Hl as (Ha & Hm & Hall & Hrest). split_and!; [congruence|congruence| |].
  - intros q [->|Hq]%elem_of_cons; [|by apply Hall]. by rewrite Hrest.
  - intros q [Hne Hq]%not_elem_of_cons. by rewrite Hrest, Ho1.
Qed.

Lemma page_unmap_returns root p (s : St) : ∃ r, page_unmap root p s = Done r.
Proof. unfold page_unmap. destruct (unmap root p (tables s)). by eexists. Qed.

Lemma unmap_loop_returns root pages (s : St) : ∃ r, unmap_loop root false pages s = Done r.
Proof.
  revert s. induction pages as [|p pages IH]; intros s; simpl; [by eexists|].
  destruct (page_unmap_returns root p s) as [[r s1] Hu]. rewrite (bind_step _ _ _ _ _ Hu).
  destruct r as [f|e]; [|by eexists]. rewrite (bind_step _ _ s1 () s1) by done. apply IH.
Qed.

(** A segment that starts a page, in a file that starts one and lies in physical
    memory. *)
Record in_place (seg : ProgramHeader) (start : Z) : Prop := {
  ip_seg : segment_ok seg;
  ip_addr : aligned (virtual_addr seg);
  ip_start : aligned start ∧ 0 ≤ start ∧ 0 ≤ p_offset seg;
  ip_end : start + p_offset seg + file_size seg < 2 ^ 52 - PAGE;
  ip_load : loads seg;
}.

Definition first_frame (seg : ProgramHeader) (start : Z) : Z := start + page_of (p_offset seg).
Definition segment_frames (seg : ProgramHeader) (start : Z) : list Z :=
  pages_between (first_frame seg start) (page_of (first_frame seg start + file_size seg - 1) + PAGE).

Lemma first_frame_ok seg start :
  in_place seg start →
  aligned (first_frame seg start) ∧ 0 ≤ first_frame seg start ∧
  first_frame seg start + file_size seg < 2 ^ 52 - PAGE.
Proof.
  intros [[Ha Hf He] Hal (Hs1 & Hs2 & Ho) Hend _]. unfold first_frame.
  pose proof (page_of_bounds (p_offset seg)). pose proof (page_of_nonneg _ Ho).
  split_and!; [|lia|lia]. pose proof (page_of_aligned (p_offset seg)) as Hx.
  unfold aligned, PAGE in *. Z.div_mod_to_equations. lia.
Qed.

(** The pages of the file part, from the frames. *)
Lemma file_pages_frames seg start :
  in_place seg start →
  file_pages seg = (λ f, virtual_addr seg + (f - first_frame seg start)) <$> segment_frames seg start.
Proof.
  intros Hip. destruct (first_frame_ok seg start Hip) as (Hf1 & Hf2 & Hf3).
  destruct Hip as [[Ha Hf He] Hal _ _ _]. set (sf := first_frame seg start) in *.
  unfold file_pages, segment_frames, pages_between. fold sf. rewrite <- list_fmap_compose.
  assert (page_of (virtual_addr seg) = virtual_addr seg) as -> by (unfold page_of; unfold aligned in Hal; lia).
  assert (page_of (virtual_addr seg + file_size seg - 1) + PAGE - virtual_addr seg =
          page_of (sf + file_size seg - 1) + PAGE - sf) as ->.
  { unfold page_of, aligned, PAGE in *. Z.div_mod_to_equations. lia. }
  apply list_fmap_ext. intros i x _. simpl. lia.
Qed.

(** Each frame of the segment is dealt with at the page of the same rank. *)
Lemma frame_page seg start f :
  in_place seg start → f ∈ segment_frames seg start →
  let sf := first_frame seg start in
  PhysFrame_diff f sf = Some ((f - sf) / PAGE) ∧
  Page_add (virtual_addr seg) ((f - sf) / PAGE) = Some (virtual_addr seg + (f - sf)).
Proof.
  intros Hip Hf sf. destruct (first_frame_ok seg start Hip) as (Hf1 & Hf2 & Hf3). fold sf in Hf1, Hf2, Hf3.
  destruct Hip as [[Ha Hfs He] Hal _ _ _].
  apply elem_of_pages_between in Hf as [Haf Hb]; [|done|apply page_end_aligned]. fold sf in Hb.
  pose proof (page_of_bounds (sf + file_size seg - 1)). split.
  - apply PhysFrame_diff_le; [done..|lia|unfold PAGE in *; lia].
  - assert ((f - sf) / PAGE * PAGE = f - sf) as Hd by (unfold aligned, PAGE in *; Z.div_mod_to_equations; lia).
    rewrite Page_add_user; [by rewrite Hd|done|split; [lia|unfold PAGE in *; lia]| |].
    + apply Z.div_pos; unfold PAGE; lia.
    + rewrite Hd. unfold PAGE in *. lia.
Qed.

Lemma unmap_frame_loop_eq seg start root (s : St) :
  in_place seg start →
  unmap_frame_loop root (virtual_addr seg) (first_frame seg start) (segment_frames seg start) s =
  unmap_loop root false (file_pages seg) s.
Proof.
  intros Hip. rewrite (file_pages_frames seg start) by done.
  pose proof (λ f, frame_page seg start f Hip) as Hfp. revert Hfp. generalize (segment_frames seg start).
  intros fs. revert s. induction fs as [|f fs IH]; intros s Hfp; [done|]. simpl.
  destruct (Hfp f) as [Hd Hp]; [by left|]. rewrite Hd. rewrite (bind_step _ _ s _ s eq_refl).
  rewrite Hp. rewrite (bind_step _ _ s _ s eq_refl).
  destruct (page_unmap_returns root (virtual_addr seg + (f - first_frame seg start)) s) as [[r s1] Hu].
  rewrite !(bind_step _ _ _ _ _ Hu). destruct r as [g|e]; [|done].
  rewrite (bind_step _ _ s1 () s1) by done. apply IH. intros g' Hg. apply Hfp. by right.
Qed.

Lemma unmap_page_loop_eq root pages (s : St) : unmap_page_loop root pages s = unmap_loop root false pages s.
Proof.
  revert s. induction pages as [|p pages IH]; intros s; [done|]. simpl.
  destruct (page_unmap_returns root p s) as [[r s1] Hu]. rewrite !(bind_step _ _ _ _ _ Hu).
  destruct r as [g|e]; [|done]. rewrite (bind_step _ _ s1 () s1) by done. apply IH.
Qed.

Lemma land_fff a : Z.land a 0xfff = a `mod` PAGE.
Proof. change 0xfff with (Z.ones 12). rewrite Z.land_ones by lia. done. Qed.

(** What the two functions share: the frames and pages they go through. *)
Lemma segment_setup seg start {R} (k : Z → Z → list Z → M St R) (s : St) :
  in_place seg start →
  (phys_start_addr ← unwrap (PhysAddr_add start (page_offset (p_offset seg)));
   virt_start_addr ← unwrap (VirtAddr_new (virtual_addr seg));
   pe ← unwrap (PhysAddr_add phys_start_addr (file_size seg));
   pl ← unwrap (PhysAddr_sub pe 1);
   let start_frame := PhysFrame_containing_address phys_start_addr in
   let end_frame := PhysFrame_containing_address pl in
   k virt_start_addr start_frame (PhysFrame_range_inclusive start_frame end_frame)) s =
  k (virtual_addr seg) (first_frame seg start) (segment_frames seg start) s.
Proof.
  intros Hip. destruct (first_frame_ok seg start Hip) as (Hf1 & Hf2 & Hf3).
  destruct Hip as [[Ha Hfs He] Hal (Hs1 & Hs2 & Ho) Hend _]. rewrite page_offset_eq.
  pose proof (page_of_nonneg _ Ho). pose proof (page_of_bounds (p_offset seg)).
  rewrite PhysAddr_add_valid by lia. rewrite (bind_step _ _ s _ s eq_refl). fold (first_frame seg start).
  set (sf := first_frame seg start) in *.
  rewrite VirtAddr_new_canonical by (left; unfold PAGE in *; lia). rewrite (bind_step _ _ s _ s eq_refl).
  rewrite PhysAddr_add_valid by lia. rewrite (bind_step _ _ s _ s eq_refl).
  rewrite PhysAddr_sub_valid by (unfold PAGE in *; lia). rewrite (bind_step _ _ s _ s eq_refl). cbv zeta.
  rewrite !PhysFrame_containing_address_eq by (unfold PAGE in *; lia).
  assert (sf - sf `mod` PAGE = sf) as -> by (unfold aligned in Hf1; lia).
  fold (page_of (sf + file_size seg - 1)). pose proof (page_of_bounds (sf + file_size seg - 1)).
  rewrite PhysFrame_range_inclusive_eq; [done|done|apply page_of_aligned|done|].
  split; [apply page_of_nonneg; lia|lia].
Qed.

(** The common shape of [unmap_segment] on a segment in place. *)
Lemma unmap_segment_eq seg start root (s : St) :
  in_place seg start →
  unmap_segment seg start root s =
  (_ ←? unmap_loop root false (file_pages seg);
   if file_size seg <? mem_size seg then
     _ ←? (if negb ((virtual_addr seg + file_size seg) `mod` PAGE =? 0) then
             r ← page_unmap root (page_of (virtual_addr seg + file_size seg - 1));
             mret (match r with Ok _ => Ok () | Err e => Err e end)
           else mret (Ok ()));
     unmap_loop root false (bss_pages seg)
   else mret (Ok ())) s.
Proof.
  intros Hip. unfold unmap_segment. rewrite (ip_load _ _ Hip). rewrite (bind_step _ _ s Load s eq_refl).
  rewrite decide_False by (by intros []). cbv zeta.
  pose proof (segment_setup seg start (λ va sf frames,
    _ ←? unmap_frame_loop root (Page_containing_address va) sf frames;
    if file_size seg <? mem_size seg then
      zero_start ← unwrap (VirtAddr_add va (file_size seg));
      zero_end ← unwrap (VirtAddr_add va (mem_size seg));
      _ ←? (if negb (Z.land zero_start 0xfff =? 0) then
              e ← unwrap (VirtAddr_add va (file_size seg));
              l ← unwrap (VirtAddr_sub e 1);
              r ← page_unmap root (Page_containing_address l);
              mret (match r with Ok _ => Ok () | Err e => Err e end)
            else mret (Ok ()));
      bss ← unwrap (VirtAddr_new (align_up zero_start PAGE));
      unmap_page_loop root
        (Page_range_inclusive (Page_containing_address bss) (Page_containing_address zero_end))
    else mret (Ok ())) s Hip) as Hset. cbv zeta in Hset. etrans; [exact Hset|]. clear Hset.
  pose proof Hip as [[Ha Hf He] Hal _ _ _]. set (va := virtual_addr seg) in *.
  assert (Hva : Page_containing_address va = va).
  { rewrite page_containing_user by (unfold PAGE in *; lia). unfold page_of. unfold aligned in Hal. lia. }
  rewrite Hva. apply bind_same; [by apply unmap_frame_loop_eq|]. intros [[]|e] s1 _; [|done].
  destruct (Z.ltb_spec (file_size seg) (mem_size seg)) as [Hlt|]; [|done].
  rewrite (VirtAddr_add_user va (file_size seg)) by (unfold user, PAGE in *; lia).
  rewrite (bind_step _ _ s1 _ s1 eq_refl).
  rewrite (VirtAddr_add_user va (mem_size seg)) by (unfold user, PAGE in *; lia).
  rewrite (bind_step _ _ s1 _ s1 eq_refl). rewrite land_fff, align_up_page by (unfold PAGE in *; lia).
  fold va. fold (bss_start seg).
  assert (Hb : 0 ≤ bss_start seg < 2 ^ 47 ∧ page_of (bss_start seg) = bss_start seg).
  { unfold bss_start. fold va. unfold page_of, PAGE in *. Z.div_mod_to_equations. lia. }
  destruct Hb as [Hb1 Hb2]. apply bind_same.
  - destruct (negb _); [|done]. rewrite (bind_step _ _ s1 _ s1 eq_refl).
    rewrite VirtAddr_sub_user by (unfold PAGE in *; lia). rewrite (bind_step _ _ s1 _ s1 eq_refl).
    by rewrite page_containing_user by (unfold PAGE in *; lia).
  - intros [[]|e] s2 _; [|done]. unfold bss_start in *. fold va in Hb1, Hb2 |- *.
    rewrite VirtAddr_new_canonical by (by left). rewrite (bind_step _ _ s2 _ s2 eq_refl).
    rewrite inclusive_pages, unmap_page_loop_eq by (done || unfold user, PAGE in *; lia). rewrite Hb2.
    unfold bss_pages. by rewrite (proj2 (Z.ltb_lt _ _)) by done.
Qed.

(** [unmap_segment] fails on a segment whose part outside the file begins in the
    middle of a page: the page was unmapped with the file part, and unmapping it
    once more is an error, so the pages of the rest stay mapped. *)
Theorem unmap_segment_fails seg start root (s : St) :
  in_place seg start → file_size seg < mem_size seg → ¬ aligned (virtual_addr seg + file_size seg) →
  ∃ e s', unmap_segment seg start root s = Done (Err e, s') ∧
    ∀ q, q ∉ file_pages seg → mapping (tables s') root q = mapping (tables s) root q.
Proof.
  intros Hip Hlt Hna. rewrite (unmap_segment_eq seg start root s Hip).
  destruct (unmap_loop_returns root (file_pages seg) s) as [[r s1] Hl].
  pose proof (unmap_loop_frame mapping _ _ _ _ _ _ Hl) as [_ Hfr].
  rewrite (bind_step _ _ _ _ _ Hl). destruct r as [[]|e]; [|by exists e, s1].
  apply unmap_loop_ok in Hl as (_ & _ & Hn & _); [|apply pages_between_NoDup].
  rewrite (proj2 (Z.ltb_lt _ _)) by done. unfold aligned in Hna. rewrite (proj2 (Z.eqb_neq _ _) Hna). simpl negb. cbv match.
  set (last := page_of (virtual_addr seg + file_size seg - 1)).
  assert (Hlast : last ∈ file_pages seg).
  { apply elem_of_pages_between; [apply page_of_aligned|apply page_end_aligned|]. fold last.
    split; [apply page_of_aligned|]. destruct (ip_seg _ _ Hip). unfold last, page_of, PAGE in *.
    Z.div_mod_to_equations. lia. }
  destruct (unmap_not_mapped (mapping := mapping) root last _ (Hn last Hlast)) as [e Hu].
  unfold mbind at 1 2, M_bind at 1 2. unfold page_unmap at 1. rewrite Hu. simpl. by exists e, (mkMachine (tables s1) (falloc s1) (mem s1)).
Qed.

Lemma frame_loop_Done seg start root fl (s : St) s' :
  in_place seg start →
  frame_loop root fl (virtual_addr seg) (first_frame seg start) (segment_frames seg start) s = Done (Ok (), s') →
  mapped_exactly mapping root fl (file_pages seg) (segment_frames seg start) (tables s) (tables s').
Proof.
  intros Hip. pose proof (pages_between_NoDup (page_of (virtual_addr seg))
    (page_of (virtual_addr seg + file_size seg - 1) + PAGE)) as Hnd. fold (file_pages seg) in Hnd.
  rewrite (file_pages_frames seg start) in * by done.
  pose proof (λ f, frame_page seg start f Hip) as Hfp. revert Hnd Hfp. generalize (segment_frames seg start).
  intros fs. revert s. induction fs as [|f fs IH]; intros s Hnd Hfp Hl.
  { simpl in Hl. inv_done. apply mapped_exactly_nil. }
  simpl in Hl. destruct (Hfp f) as [Hd Hp]; [by left|]. rewrite Hd in Hl. rewrite (bind_step _ _ s _ s eq_refl) in Hl.
  rewrite Hp in Hl. rewrite (bind_step _ _ s _ s eq_refl) in Hl.
  apply bind_Done in Hl as (r & s1 & Hm & Hl). apply (page_map_to_Done mapping) in Hm as (_ & _ & Hr).
  destruct r as [[]|e]; [|by inv_done]. destruct Hr as (Hn & Hy & Ho).
  rewrite fmap_cons in Hnd |- *. apply NoDup_cons in Hnd as [Hni Hnd].
  eapply mapped_exactly_cons; [exact Hni|exact Hn|exact Hy|exact Ho|].
  apply IH; [done| |done]. intros g Hg. apply Hfp. by right.
Qed.

Lemma unmap_loop_mapped_ok root pages (s : St) :
  NoDup pages → (∀ p, p ∈ pages → is_Some (mapping (tables s) root p)) →
  ∃ s', unmap_loop root false pages s = Done (Ok (), s').
Proof.
  intros Hnd. revert s. induction Hnd as [|p pages Hp Hnd IH]; intros s Hm; simpl; [by eexists|].
  destruct (Hm p) as [[f fl] Hf]; [by left|].
  destruct (unmap_mapped root p f fl _ Hf) as (pt' & Hu & _ & Ho).
  rewrite (bind_step _ _ s (Ok f) (mkMachine pt' (falloc s) (mem s))) by (unfold page_unmap; by rewrite Hu).
  rewrite (bind_step _ _ _ () (mkMachine pt' (falloc s) (mem s))) by done.
  apply IH. intros q Hq. simpl. rewrite Ho by (intros ->; done). apply Hm. by right.
Qed.

Lemma zero_virtual_tables root va n (s : St) u s' :
  zero_virtual root va n s = Done (u, s') → tables s' = tables s.
Proof.
  revert va s. induction n as [|n IH]; intros va s Hz; simpl in Hz; [by inv_done|].
  apply bind_Done in Hz as (s0 & s1 & Hg & Hz). apply get_Done in Hg as [<- <-].
  apply bind_Done in Hz as (f & s1 & Hu & Hz). apply unwrap_Done in Hu as [_ <-].
  apply bind_Done in Hz as (u' & s1 & Hm & Hz). apply modify_Done in Hm as <-. by apply IH in Hz.
Qed.

(** [map_segment] when what is outside the file begins with a page. *)
Lemma map_segment_Done seg start root (s : St) s' :
  in_place seg start → file_size seg = mem_size seg ∨ aligned (virtual_addr seg + file_size seg) →
  map_segment seg start root s = Done (Ok (), s') →
  ∃ (s1 : St) fs, let fl := segment_flags seg false in
    mapped_exactly mapping root fl (file_pages seg) (segment_frames seg start) (tables s) (tables s1) ∧
    mapped_exactly mapping root fl (bss_pages seg) fs (tables s1) (tables s').
Proof.
  intros Hip Hal0 Hm. unfold map_segment in Hm. rewrite (ip_load _ _ Hip) in Hm.
  rewrite (bind_step _ _ s Load s eq_refl) in Hm. rewrite decide_False in Hm by (by intros []). cbv zeta in Hm.
  rewrite page_offset_eq in Hm. destruct (first_frame_ok seg start Hip) as (Hf1 & Hf2 & Hf3).
  pose proof Hip as [[Ha Hf He] Hal (Hs1 & Hs2 & Ho) Hend _].
  pose proof (page_of_nonneg _ Ho). pose proof (page_of_bounds (p_offset seg)).
  rewrite PhysAddr_add_valid in Hm by lia. rewrite (bind_step _ _ s _ s eq_refl) in Hm.
  fold (first_frame seg start) in Hm. set (sf := first_frame seg start) in *. set (va := virtual_addr seg) in *.
  rewrite VirtAddr_new_canonical in Hm by (left; unfold PAGE in *; lia). rewrite (bind_step _ _ s _ s eq_refl) in Hm.
  rewrite PhysAddr_add_valid in Hm by lia. rewrite (bind_step _ _ s _ s eq_refl) in Hm.
  rewrite PhysAddr_sub_valid in Hm by (unfold PAGE in *; lia). rewrite (bind_step _ _ s _ s eq_refl) in Hm.
  rewrite !PhysFrame_containing_address_eq in Hm by (unfold PAGE in *; lia).
  assert (sf - sf `mod` PAGE = sf) as Esf by (unfold aligned in Hf1; lia). rewrite Esf in Hm.
  fold (page_of (sf + file_size seg - 1)) in Hm. pose proof (page_of_bounds (sf + file_size seg - 1)).
  rewrite PhysFrame_range_inclusive_eq in Hm;
    [|done|apply page_of_aligned|done|split; [apply page_of_nonneg; lia|lia]].
  assert (Hva : Page_containing_address va = va).
  { rewrite page_containing_user by (unfold PAGE in *; lia). unfold page_of. unfold aligned in Hal. lia. }
  rewrite Hva in Hm. apply bind_Done in Hm as (r & s1 & Hfl & Hm). destruct r as [[]|]; [|by inv_done].
  apply frame_loop_Done in Hfl; [|done]. exists s1. unfold bss_pages.
  destruct (Z.ltb_spec (file_size seg) (mem_size seg)) as [Hlt|]; cycle 1.
  { apply ret_Done in Hm as [_ <-]. exists []. split; [done|apply mapped_exactly_nil]. }
  destruct Hal0 as [?|Hz]; [lia|]. fold va in Hz.
  rewrite (VirtAddr_add_user va (file_size seg)) in Hm by (unfold user, PAGE in *; lia).
  rewrite (bind_step _ _ s1 _ s1 eq_refl) in Hm.
  rewrite (VirtAddr_add_user va (mem_size seg)) in Hm by (unfold user, PAGE in *; lia).
  rewrite (bind_step _ _ s1 _ s1 eq_refl), land_fff in Hm. unfold aligned in Hz. rewrite Hz in Hm. simpl negb in Hm.
  rewrite (bind_step _ _ s1 (Ok ()) s1) in Hm by done. rewrite align_up_page in Hm by (unfold PAGE in *; lia).
  assert (Hb : 0 ≤ bss_start seg < 2 ^ 47 ∧ page_of (bss_start seg) = bss_start seg).
  { unfold bss_start. fold va. unfold page_of, PAGE in *. Z.div_mod_to_equations. lia. }
  destruct Hb as [Hb1 Hb2]. unfold bss_start in *. fold va in Hb1, Hb2 |- *.
  rewrite VirtAddr_new_canonical in Hm by (by left). rewrite (bind_step _ _ s1 _ s1 eq_refl) in Hm.
  rewrite inclusive_pages, Hb2 in Hm by (done || unfold user, PAGE in *; lia).
  apply bind_Done in Hm as (r & s2 & Hml & Hm). destruct r as [[]|]; [|by inv_done].
  apply (map_loop_Done mapping) in Hml as (_ & _ & fs & Hml); [|apply pages_between_NoDup].
  apply bind_Done in Hm as (n & s3 & Hw & Hm). apply word_op_Done in Hw as [-> _].
  apply bind_Done in Hm as (u & s3 & Hzv & Hm). apply ret_Done in Hm as [_ <-].
  apply zero_virtual_tables in Hzv. exists fs. by rewrite Hzv.
Qed.

Lemma mapped_exactly_Some root fl pages fs pt pt' p :
  mapped_exactly mapping root fl pages fs pt pt' → p ∈ pages →
  mapping pt root p = None ∧ is_Some (mapping pt' root p).
Proof.
  intros (Hlen & Hm & _) [i Hi]%list_elem_of_lookup.
  destruct (lookup_lt_is_Some_2 fs i) as [f Hf]; [rewrite Hlen; by eapply lookup_lt_Some|].
  destruct (Hm i p f Hi Hf) as [-> ->]. by split.
Qed.

(** C36: [unmap_segment] undoes [map_segment] on a segment whose part outside the file,
    if it has one, begins with a page: it succeeds and every page is mapped as
    it was.  (The frames of the part outside the file are not given back.) *)
Theorem map_unmap_segment seg start root (s : St) s1 :
  in_place seg start → file_size seg = mem_size seg ∨ aligned (virtual_addr seg + file_size seg) →
  map_segment seg start root s = Done (Ok (), s1) →
  ∃ s2, unmap_segment seg start root s1 = Done (Ok (), s2) ∧
    (∀ q, mapping (tables s2) root q = mapping (tables s) root q) ∧ falloc s2 = falloc s1.
Proof.
  intros Hip Hal Hm. apply map_segment_Done in Hm as (sm & fs & Hf & Hb); [|done..].
  rewrite unmap_segment_eq by done.
  assert (Hdis : ∀ p, p ∈ file_pages seg → p ∉ bss_pages seg).
  { intros p Hp Hq. destruct (mapped_exactly_Some _ _ _ _ _ _ _ Hf Hp) as [_ [x Hx]].
    destruct (mapped_exactly_Some _ _ _ _ _ _ _ Hb Hq) as [Hy _]. congruence. }
  assert (Hfm : ∀ p, p ∈ file_pages seg → is_Some (mapping (tables s1) root p)).
  { intros p Hp. destruct (mapped_exactly_Some _ _ _ _ _ _ _ Hf Hp) as [_ [x Hx]]. exists x.
    by apply (mapped_exactly_preserved mapping _ _ _ _ _ _ Hb). }
  destruct (unmap_loop_mapped_ok root (file_pages seg) s1 (pages_between_NoDup _ _) Hfm) as [s2 Hu].
  pose proof (unmap_loop_ok _ _ _ _ (pages_between_NoDup _ _) Hu) as (Ha2 & _ & Hn2 & Ho2).
  rewrite (bind_step _ _ _ _ _ Hu).
  assert (Hback : ∀ q, q ∉ bss_pages seg → mapping (tables s2) root q = mapping (tables s) root q).
  { intros q Hq. destruct (decide (q ∈ file_pages seg)) as [Hin|Hni].
    - rewrite Hn2 by done. by destruct (mapped_exactly_Some _ _ _ _ _ _ _ Hf Hin) as [-> _].
    - rewrite Ho2 by done. destruct Hf as (_ & _ & Hf). destruct Hb as (_ & _ & Hb). by rewrite Hb, Hf. }
  destruct (Z.ltb_spec (file_size seg) (mem_size seg)) as [Hlt|Hge]; cycle 1.
  { exists s2. split_and!; [done| |done]. intros q. apply Hback. unfold bss_pages.
    rewrite (proj2 (Z.ltb_ge _ _)) by done. apply not_elem_of_nil. }
  destruct Hal as [?|Hz]; [lia|]. unfold aligned in Hz. rewrite Hz. simpl negb.
  rewrite (bind_step _ _ s2 (Ok ()) s2) by done.
  destruct (unmap_loop_mapped_ok root (bss_pages seg) s2 (bss_pages_NoDup seg)) as [s3 Hu3].
  { intros p Hp. rewrite Ho2 by (intros Hx; by apply (Hdis p)).
    by destruct (mapped_exactly_Some _ _ _ _ _ _ _ Hb Hp) as [_ ?]. }
  pose proof (unmap_loop_ok _ _ _ _ (bss_pages_NoDup seg) Hu3) as (Ha3 & _ & Hn3 & Ho3).
  exists s3. split_and!; [done| |congruence]. intros q. destruct (decide (q ∈ bss_pages seg)) as [Hin|Hni].
  - rewrite Hn3 by done. destruct (mapped_exactly_Some _ _ _ _ _ _ _ Hb Hin) as [Hn _]. symmetry.
    destruct (mapping (tables s) root q) as [x|] eqn:E; [|done].
    apply (mapped_exactly_preserved mapping _ _ _ _ _ _ Hf) in E. congruence.
  - rewrite Ho3 by done. by apply Hback.
Qed.

End ElfBootFacts.

(** ** Examples *)

Section ElfBootWitnesses.
#[local] Existing Instance release.
#[local] Existing Instance x86_ref.

Definition phys_machine : Machine table free_list := mkMachine ∅ [0x9000; 0xa000] (λ _, 0xcc).
Definition phys_mapped : Machine table free_list :=
  state_of (map_physical_memory 0xffff800000000000 0x500000 7 phys_machine) phys_machine.

Lemma map_physical_memory_spec_witness :
  ∃ va frame, Frames.physical_to_virtual (Some 0xffff800000000000) 0x312345 phys_mapped = Done (va, phys_mapped) ∧
    table_mapping (tables phys_mapped) 7 (va - va `mod` HUGE) = Some (frame, Z.lor PRESENT WRITABLE) ∧
    frame + va `mod` HUGE = 0x312345.
Proof.
  apply (map_physical_memory_spec table_mapping 0xffff800000000000 0x500000 7 phys_machine () phys_mapped).
  - done.
  - lia.
  - lia.
  - unfold HUGE. lia.
  - apply value_state. vm_compute. reflexivity.
  - lia.
Defined.

Definition bss_example : ProgramHeader := mkProgramHeader (Some Load) 0x1000 0x400000 100 5000 false true.

Lemma unmap_segment_fails_witness :
  ∃ e s', unmap_segment bss_example 0x200000 7 phys_machine = Done (Err e, s') ∧
    ∀ q, q ∉ file_pages bss_example → table_mapping (tables s') 7 q = table_mapping (tables phys_machine) 7 q.
Proof.
  apply (unmap_segment_fails table_mapping bss_example 0x200000 7 phys_machine).
  - split; [split; simpl; unfold PAGE; lia|done|split_and!; done|simpl; unfold PAGE; lia|done].
  - simpl. lia.
  - done.
Defined.

Definition paged_example : ProgramHeader := mkProgramHeader (Some Load) 0x1000 0x400000 4096 8000 false true.
Definition paged_mapped : Machine table free_list :=
  state_of (map_segment paged_example 0x200000 7 phys_machine) phys_machine.

Lemma map_unmap_segment_witness :
  ∃ s2, unmap_segment paged_example 0x200000 7 paged_mapped = Done (Ok (), s2) ∧
    (∀ q, table_mapping (tables s2) 7 q = table_mapping (tables phys_machine) 7 q) ∧
    falloc s2 = falloc paged_mapped.
Proof.
  apply (map_unmap_segment table_mapping paged_example 0x200000 7 phys_machine paged_mapped).
  - split; [split; simpl; unfold PAGE; lia|done|split_and!; done|simpl; unfold PAGE; lia|done].
  - right. done.
  - apply value_state. vm_compute. reflexivity.
Defined.

End ElfBootWitnesses.
