(* ===== verification/Heap.v ===== *)
(** The process heap: [pkg/kernel/src/proc/vm/heap.rs].

    [Heap::end] is an [Arc<AtomicU64>] that forked processes share.  The
    operations below work on the value of that cell together with the
    [Machine]; which cell a process owns is recorded in [Vm.v].  [root] is the
    level-4 frame of the mapper the source passes. *)
From S2P Require Import Prelude Arch Frames Elf.

Definition HEAP_START : Z := 0x200000000000.
Definition HEAP_PAGES : Z := 0x100000.
Definition HEAP_SIZE : Z := HEAP_PAGES * PAGE_SIZE.
Definition HEAP_END : Z := HEAP_START + HEAP_SIZE - 8.

Module HeapOps.
Section Ops.
Context `{Profile} `{X86_64} {PT A : Type} `{Mapper PT} `{FrameAllocator A} `{FrameDeallocator A}.
(** The atomic cell [end] and the machine. *)
#[local] Abbreviation St := (Z * Machine PT A)%type.

Definition load_end : M St Z := gets fst.
Definition store_end (e : Z) : M St () := modify (λ s, (e, s.2)).
Definition swap_end (e : Z) : M St Z := old ← load_end; store_end e;; mret old.
Definition on_machine {R} (m : M (Machine PT A) R) : M St R := zoom snd (λ t s, (s.1, t)) m.

Definition brk (root base : Z) (new_end : option Z) : M St (option Z) :=
  match new_end with
  | None =>
      e ← load_end;
      va ← unwrap (VirtAddr_new e);
      mret (Some va)
  | Some new_end =>
      limit ← unwrap (VirtAddr_add base HEAP_SIZE);
      if (limit <? new_end) || (new_end <? base) then mret None
      else
        e ← load_end;
        diff ← word_op 64 (new_end - e);
        current_end ← load_end;
        va ← unwrap (VirtAddr_new current_end);
        let current_end_page := Page_containing_address va in
        let new_end_page := Page_containing_address new_end in
        current_end_page ← (if negb (current_end =? base) then unwrap (Page_add current_end_page 1)
                            else mret current_end_page);
        new_end_page ← (if negb (new_end =? base) then unwrap (Page_add new_end_page 1)
                        else mret new_end_page);
        ok ← (if 0 <? diff then
                last ← unwrap (Page_sub new_end_page 1);
                r ← on_machine (map_range current_end_page last root true);
                mret (match r with Ok _ => true | Err _ => false end)
              else if diff <? 0 then
                last ← unwrap (Page_sub current_end_page 1);
                r ← on_machine (unmap_range new_end_page last root true);
                mret (match r with Ok _ => true | Err _ => false end)
              else mret true);
        if ok : bool then store_end new_end;; mret (Some new_end) else mret None
  end.

Definition memory_usage (base : Z) : M St Z :=
  e ← load_end; word_op 64 (e - base).

Definition clean_up (root base : Z) : M St (result () UnmapError) :=
  usage ← memory_usage base;
  if usage =? 0 then mret (Ok ())
  else
    e ← swap_end base;
    let start_page := Page_containing_address base in
    va ← unwrap (VirtAddr_new e);
    let end_page := Page_containing_address va in
    _ ←? on_machine (unmap_range start_page end_page root true);
    mret (Ok ()).

End Ops.
End HeapOps.

(** ** The heap's pages *)

Section HeapFacts.
Context `{Profile} `{!X86_64} `{!X86_64_Laws _} {PT A : Type} `{!Mapper PT} `{!FrameAllocator A} `{!FrameDeallocator A}.
Context (mapping : PT → Z → Z → option (Z * Z)) `{!Mapper_Laws PT mapping}.

(** The first address after the last page of a heap that ends at [e]: the page of
    [e] itself belongs to it, except for the empty heap. *)
Definition heap_top (e : Z) : Z :=
  if e =? HEAP_START then HEAP_START else e - e `mod` PAGE + PAGE.

Definition heap_range (e : Z) : Prop := HEAP_START ≤ e ≤ HEAP_START + HEAP_SIZE.

Definition heap_pages (e : Z) : list Z := pages_between HEAP_START (heap_top e).

(** One page past [HEAP_START + HEAP_SIZE], the page of the largest end. *)
Definition heap_area : list Z := heap_pages (HEAP_START + HEAP_SIZE).

(** A heap that ends at [e] has exactly its pages mapped. *)
Definition heap_wf (root : Z) (pt : PT) (e : Z) : Prop :=
  heap_range e ∧
  ∀ p, p ∈ heap_area → is_Some (mapping pt root p) ↔ p ∈ heap_pages e.

Lemma heap_top_bounds e :
  heap_range e → aligned (heap_top e) ∧
  HEAP_START ≤ heap_top e ≤ HEAP_START + HEAP_SIZE + PAGE ∧
  (e < heap_top e ∨ e = HEAP_START).
Proof.
  unfold heap_range, heap_top, aligned, HEAP_START, HEAP_SIZE, HEAP_PAGES, PAGE_SIZE, PAGE.
  intros He. case_match; Z.div_mod_to_equations; lia.
Qed.

Lemma heap_top_mono e e' : heap_range e → heap_range e' → e ≤ e' → heap_top e ≤ heap_top e'.
Proof.
  unfold heap_range, heap_top, HEAP_START, HEAP_SIZE, HEAP_PAGES, PAGE_SIZE, PAGE.
  intros He He' Hle. repeat case_match; Z.div_mod_to_equations; lia.
Qed.

Lemma HEAP_START_aligned : aligned HEAP_START.
Proof. done. Qed.

Lemma elem_of_heap_pages e p :
  heap_range e → p ∈ heap_pages e ↔ aligned p ∧ HEAP_START ≤ p < heap_top e.
Proof. intros He. apply elem_of_pages_between; [done|by apply heap_top_bounds]. Qed.

Lemma heap_limit_range : heap_range (HEAP_START + HEAP_SIZE).
Proof. unfold heap_range, HEAP_SIZE, HEAP_PAGES, PAGE_SIZE. lia. Qed.

Lemma heap_pages_area e p : heap_range e → p ∈ heap_pages e → p ∈ heap_area.
Proof.
  intros He Hp. unfold heap_area. apply elem_of_heap_pages in Hp as [? ?]; [|done].
  apply elem_of_heap_pages; [apply heap_limit_range|]. split; [done|].
  assert (heap_top e ≤ heap_top (HEAP_START + HEAP_SIZE)).
  { apply heap_top_mono; [done|apply heap_limit_range|apply He]. }
  lia.
Qed.

(** The page the code computes for an end [e]. *)
Lemma end_page_eq {S} e (s : S) :
  heap_range e →
  (if negb (e =? HEAP_START) then unwrap (Page_add (Page_containing_address e) 1)
   else mret (Page_containing_address e)) s = Done (heap_top e, s).
Proof.
  intros He. unfold heap_range, HEAP_SIZE, HEAP_PAGES, PAGE_SIZE, HEAP_START in He.
  rewrite Page_containing_address_eq by (left; lia).
  unfold heap_top. destruct (e =? HEAP_START) eqn:E; simpl.
  - apply Z.eqb_eq in E as ->. done.
  - destruct (page_base_bounds e) as [Ha Hb]; [lia|].
    rewrite Page_add_user; [unfold PAGE; done|done|unfold user, PAGE in *; lia|lia|unfold PAGE in *; lia].
Qed.

#[local] Abbreviation St := (Z * Machine PT A)%type.

Lemma VirtAddr_new_heap e : heap_range e → VirtAddr_new e = Some e.
Proof.
  intros He. apply VirtAddr_new_canonical. left.
  unfold heap_range, HEAP_SIZE, HEAP_PAGES, PAGE_SIZE, HEAP_START in He. lia.
Qed.

Lemma heap_range_pages e n :
  heap_range e → heap_range n →
  Page_sub (heap_top n) 1 = Some (heap_top n - PAGE) ∧
  Page_range_inclusive (heap_top e) (heap_top n - PAGE) = pages_between (heap_top e) (heap_top n).
Proof.
  intros He Hn. destruct (heap_top_bounds e He) as (Hae & Hbe & _).
  destruct (heap_top_bounds n Hn) as (Han & Hbn & _).
  unfold HEAP_SIZE, HEAP_PAGES, PAGE_SIZE, HEAP_START in *. split.
  - rewrite Page_sub_user; [f_equal; unfold PAGE; lia|done|unfold PAGE in *; lia..].
  - rewrite Page_range_inclusive_eq; [f_equal; lia|done| |lia|unfold user, PAGE in *; lia].
    unfold aligned, PAGE in *. Z.div_mod_to_equations. lia.
Qed.

(** On a valid argument [brk] maps the pages from the top of the old heap to the
    top of the new one; the shrinking branch is never taken, because the
    difference is unsigned. *)
Lemma brk_eq root e n (m : Machine PT A) :
  heap_range e → heap_range n →
  HeapOps.brk root HEAP_START (Some n) (e, m) =
  (_ ← word_op 64 (n - e);
   r ← HeapOps.on_machine (map_loop root (map_flags true) (pages_between (heap_top e) (heap_top n)));
   match r with
   | Ok _ => HeapOps.store_end n;; mret (Some n)
   | Err _ => mret None
   end) (e, m).
Proof.
  intros He Hn. unfold HeapOps.brk, HeapOps.load_end.
  rewrite (bind_step _ _ _ (HEAP_START + HEAP_SIZE) (e, m)); cycle 1.
  { rewrite VirtAddr_add_user; [done|done|done|]. unfold HEAP_SIZE, HEAP_PAGES, PAGE_SIZE, HEAP_START. lia. }
  destruct ((_ <? n) || (n <? _)) eqn:Ec.
  { exfalso. apply orb_true_iff in Ec. unfold heap_range in *. lia. }
  rewrite (bind_step _ _ (e, m) e (e, m)) by done.
  destruct (word_op 64 (n - e) (e, m)) as [[d s']| |] eqn:Ew; cycle 1.
  { rewrite (bind_Panic _ _ _ Ew). symmetry. by apply bind_Panic. }
  { unfold word_op in Ew. repeat case_match; done. }
  pose proof Ew as Ew'. rewrite (bind_step _ _ _ _ _ Ew), (bind_step _ _ _ _ _ Ew').
  apply word_op_Done in Ew as [-> Hd].
  rewrite (bind_step _ _ (e, m) e (e, m)) by done. rewrite VirtAddr_new_heap by done.
  rewrite (bind_step _ _ (e, m) e (e, m)) by done. cbv zeta.
  rewrite (bind_step _ _ _ _ _ (end_page_eq e (e, m) He)).
  rewrite (bind_step _ _ _ _ _ (end_page_eq n (e, m) Hn)).
  destruct (heap_range_pages e n He Hn) as [-> Hpr].
  assert (Hd0 : 0 ≤ d ∧ (d = 0 → n = e)).
  { destruct Hd as [[? ->]|(_ & _ & ->)]; [lia|].
    pose proof (wrap_range 64 (n - e)). split; [lia|]. unfold wrap.
    unfold heap_range, HEAP_SIZE, HEAP_PAGES, PAGE_SIZE, HEAP_START in *.
    intros Hz%Z.mod_divide; [|done]. destruct Hz as [q Hq]. lia. }
  destruct (0 <? d) eqn:E0.
  - unfold mbind, M_bind, unwrap, mret, M_ret, map_range. rewrite Hpr.
    by destruct (HeapOps.on_machine _ (e, m)) as [[[]]| |].
  - rewrite (proj2 (Z.ltb_ge d 0)) by lia. assert (n = e) as -> by lia.
    destruct (heap_top_bounds e He) as (Hae & _ & _).
    rewrite pages_between_nil by (done || lia). done.
Qed.

Lemma on_machine_map root pages e (m : Machine PT A) :
  HeapOps.on_machine (map_loop root (map_flags true) pages) (e, m) =
  match map_loop root (map_flags true) pages m with
  | Done (r, m') => Done (r, (e, m'))
  | Panic => Panic
  | OutOfFuel => OutOfFuel
  end.
Proof. done. Qed.

Lemma brk_invalid root e n (m : Machine PT A) :
  ¬ heap_range n → HeapOps.brk root HEAP_START (Some n) (e, m) = Done (None, (e, m)).
Proof.
  intros Hn. unfold HeapOps.brk. rewrite (bind_step _ _ _ (HEAP_START + HEAP_SIZE) (e, m)); cycle 1.
  { rewrite VirtAddr_add_user; [done|done|done|]. unfold HEAP_SIZE, HEAP_PAGES, PAGE_SIZE, HEAP_START. lia. }
  destruct ((_ <? n) || (n <? _)) eqn:Ec; [done|]. exfalso. apply Hn. unfold heap_range.
  apply orb_false_iff in Ec. lia.
Qed.

Lemma elem_of_between_tops e n p :
  heap_range e → heap_range n →
  p ∈ pages_between (heap_top e) (heap_top n) ↔ aligned p ∧ heap_top e ≤ p < heap_top n.
Proof. intros. apply elem_of_pages_between; by apply heap_top_bounds. Qed.

Lemma heap_wf_grow root e n fs (pt pt' : PT) :
  heap_range e → heap_range n → e ≤ n →
  (∀ p, p ∈ heap_area → is_Some (mapping pt root p) ↔ p ∈ heap_pages e) →
  mapped_exactly mapping root (map_flags true) (pages_between (heap_top e) (heap_top n)) fs pt pt' →
  ∀ p, p ∈ heap_area → is_Some (mapping pt' root p) ↔ p ∈ heap_pages n.
Proof.
  intros He Hn Hen Hwf Hf p Hp. pose proof (heap_top_mono e n He Hn Hen) as Hmono.
  destruct (heap_top_bounds e He) as (_ & Hbe & _).
  destruct (decide (p ∈ pages_between (heap_top e) (heap_top n))) as [Hin|Hni].
  - split; intros _.
    + apply elem_of_between_tops in Hin; [|done..].
      apply elem_of_heap_pages; [done|]. split; [apply Hin|lia].
    + apply mapped_exactly_to in Hf. apply list_elem_of_lookup in Hin as [i Hi].
      destruct (Forall2_lookup_l _ _ _ _ _ Hf Hi) as (f & _ & fl & ->). done.
  - destruct Hf as (_ & _ & ->); [|done]. rewrite Hwf by done.
    rewrite elem_of_between_tops in Hni by done. rewrite !elem_of_heap_pages by done.
    split; intros [Ha Hb]; (split; [done|]); [lia|].
    destruct (decide (p < heap_top e)); [lia|]. exfalso. apply Hni. split; [done|lia].
Qed.

Lemma brk_Done root arg e (m : Machine PT A) r e' m' :
  heap_wf root (tables m) e →
  (∀ n, arg = Some n → heap_range n → e ≤ n) →
  HeapOps.brk root HEAP_START arg (e, m) = Done (r, (e', m')) →
  match arg with
  | None => r = Some e ∧ e' = e ∧ m' = m
  | Some n =>
      (¬ heap_range n ∧ r = None ∧ e' = e ∧ m' = m) ∨
      (heap_range n ∧ r = Some n ∧ e' = n ∧ mem m' = mem m ∧ heap_wf root (tables m') n ∧
       ∃ fs, mapped_exactly mapping root (map_flags true)
               (pages_between (heap_top e) (heap_top n)) fs (tables m) (tables m')) ∨
      (heap_range n ∧ r = None ∧ e' = e ∧ mem m' = mem m)
  end.
Proof.
  intros [He Hwf] Hge Hb. destruct arg as [n|]; cycle 1.
  { unfold HeapOps.brk, HeapOps.load_end in Hb. inv_done.
    by match goal with H : VirtAddr_new _ = _ |- _ => rewrite VirtAddr_new_heap in H by done end. }
  destruct (decide (heap_range n)) as [Hn|Hn]; [right|left]; cycle 1.
  { rewrite brk_invalid in Hb by done. by inv_done. }
  specialize (Hge n eq_refl Hn). rewrite brk_eq in Hb by done.
  apply bind_Done in Hb as (d & s1 & Hw & Hb). apply word_op_Done in Hw as [-> _].
  apply bind_Done in Hb as (x & [e2 m2] & Hm & Hb). rewrite on_machine_map in Hm.
  destruct (map_loop root (map_flags true) (pages_between (heap_top e) (heap_top n)) m)
    as [[y m3]| |] eqn:El; inv_done.
  apply (map_loop_Done mapping) in El as (Hme & _ & Hr); [|apply pages_between_NoDup].
  destruct x as [[]|err]; unfold HeapOps.store_end in *; inv_done; [left|by right].
  destruct Hr as [fs Hf]. split_and!; [done..| |]; [|by exists fs]. simpl in *.
  split; [done|]. exact (heap_wf_grow _ _ _ _ _ _ He Hn Hge Hwf Hf).
Qed.

(** When [brk] comes back: always, for the end and for what it refuses; otherwise
    when the mapper does, and, with overflow checks, only upwards. *)
Lemma brk_returns root arg e (m : Machine PT A) :
  mapping_returns PT A → heap_range e →
  (∀ n, arg = Some n → heap_range n → e ≤ n) →
  ∃ r, HeapOps.brk root HEAP_START arg (e, m) = Done r.
Proof.
  intros Hret He Hge. destruct arg as [n|]; cycle 1.
  { unfold HeapOps.brk, HeapOps.load_end. rewrite (bind_step _ _ (e, m) e (e, m)) by done.
    rewrite VirtAddr_new_heap by done. by eexists. }
  destruct (decide (heap_range n)) as [Hn|Hn]; [|by rewrite brk_invalid by done; eexists].
  specialize (Hge n eq_refl Hn). rewrite brk_eq by done.
  rewrite (bind_step _ _ (e, m) (n - e) (e, m)); cycle 1.
  { apply word_op_exact. unfold heap_range, HEAP_SIZE, HEAP_PAGES, PAGE_SIZE, HEAP_START in *. lia. }
  destruct (map_loop_returns root (map_flags true) (pages_between (heap_top e) (heap_top n)) m Hret) as [[[[]|err] m'] Hl];
    unfold mbind, M_bind; rewrite on_machine_map, Hl; by eexists.
Qed.

(** C26: [Heap::brk].  On a heap that is well formed it returns, when the
    allocator and the mapper do.  Without an argument it answers the current end; an argument outside [base, base +
    HEAP_SIZE] is refused; in both cases nothing changes.  An argument at or above
    the current end is either accepted, and then the heap ends there, exactly
    the missing pages were mapped and the heap is well formed again, or refused
    with the end unchanged because a page could not be mapped. *)
Theorem brk_spec root arg e (m : Machine PT A) :
  heap_wf root (tables m) e →
  (∀ n, arg = Some n → heap_range n → e ≤ n) →
  (mapping_returns PT A → ∃ r, HeapOps.brk root HEAP_START arg (e, m) = Done r) ∧
  ∀ r e' m', HeapOps.brk root HEAP_START arg (e, m) = Done (r, (e', m')) →
  match arg with
  | None => r = Some e ∧ e' = e ∧ m' = m
  | Some n =>
      (¬ heap_range n ∧ r = None ∧ e' = e ∧ m' = m) ∨
      (heap_range n ∧ r = Some n ∧ e' = n ∧ mem m' = mem m ∧ heap_wf root (tables m') n ∧
       ∃ fs, mapped_exactly mapping root (map_flags true)
               (pages_between (heap_top e) (heap_top n)) fs (tables m) (tables m')) ∨
      (heap_range n ∧ r = None ∧ e' = e ∧ mem m' = mem m)
  end.
Proof.
  intros Hwf Hge. split; [intros Hret; apply brk_returns; [done|apply Hwf|done]|].
  intros r e' m' Hb. by eapply brk_Done.
Qed.

(** C40: Shrinking the heap.  The difference of the ends is computed in [u64], so
    the branch that would unmap pages is dead: with overflow checks the kernel
    panics, and without them [brk] answers the lower end, records it and unmaps
    nothing. *)
Theorem brk_shrink root e n (m : Machine PT A) :
  heap_range e → heap_range n → n < e →
  HeapOps.brk root HEAP_START (Some n) (e, m) =
  if debug_assertions then Panic else Done (Some n, (n, m)).
Proof.
  intros He Hn Hlt. rewrite brk_eq by done. unfold word_op. rewrite in_word_false by lia.
  destruct debug_assertions; [done|]. rewrite (bind_step _ _ _ _ _ eq_refl).
  pose proof (heap_top_mono n e Hn He ltac:(lia)).
  rewrite pages_between_nil by (by apply heap_top_bounds || lia). done.
Qed.

(** After such a shrink the heap cannot grow past a page boundary any more:
    the first page it would map is still mapped, so every further [brk] that
    needs a page fails (having taken a frame from the allocator that nobody
    owns) and leaves the end where it was. *)
Theorem brk_after_shrink root e n n' (m : Machine PT A) f a :
  heap_wf root (tables m) e → heap_range n → heap_range n' →
  n < e → heap_top n < heap_top e → heap_top n < heap_top n' →
  allocate_frame (falloc m) = Done (f, a) →
  HeapOps.brk root HEAP_START (Some n') (n, m) = Done (None, (n, mkMachine (tables m) a (mem m))).
Proof.
  intros [He Hwf] Hn Hn' Hlt Ht Ht' Ha. rewrite brk_eq by done.
  assert (n < n') by (destruct (Z.lt_ge_cases n n'); [done|]; pose proof (heap_top_mono n' n Hn' Hn); lia).
  rewrite (bind_step _ _ (n, m) (n' - n) (n, m)); cycle 1.
  { apply word_op_exact. unfold heap_range, HEAP_SIZE, HEAP_PAGES, PAGE_SIZE, HEAP_START in *. lia. }
  destruct (heap_top_bounds n Hn) as (Han & Hbn & _). destruct (heap_top_bounds e He) as (Hae & Hbe & _).
  destruct (heap_top_bounds n' Hn') as (Han' & _ & _).
  assert (Hp : is_Some (mapping (tables m) root (heap_top n))).
  { apply Hwf.
    - apply (heap_pages_area e); [done|]. apply elem_of_heap_pages; [done|]. split; [done|lia].
    - apply elem_of_heap_pages; [done|]. split; [done|lia]. }
  destruct Hp as [[g fl] Hp].
  destruct (pages_between_cons (heap_top n) (heap_top n')) as [ps ->]; [done..|].
  unfold mbind, M_bind. rewrite on_machine_map. simpl. unfold mbind, M_bind, alloc_frame. rewrite Ha.
  destruct f as [f|]; [|done]. unfold page_map_to. simpl.
  by rewrite (map_to_mapped (mapping := mapping) _ _ _ _ g fl _ _ Hp).
Qed.

Lemma clean_up_pages e :
  heap_range e → e ≠ HEAP_START →
  Page_range_inclusive (Page_containing_address HEAP_START) (Page_containing_address e) = heap_pages e.
Proof.
  intros He Hne. unfold heap_pages, heap_top. rewrite (proj2 (Z.eqb_neq _ _) Hne).
  unfold heap_range, HEAP_SIZE, HEAP_PAGES, PAGE_SIZE, HEAP_START in *.
  destruct (page_base_bounds e) as [Ha Hb]; [lia|].
  rewrite !Page_containing_address_eq by (left; lia).
  rewrite Page_range_inclusive_eq; [done|done|done|done|unfold user, PAGE in *; lia].
Qed.

Lemma heap_clean_up_frame root e (m : Machine PT A) r e' m' :
  heap_range e → HeapOps.clean_up root HEAP_START (e, m) = Done (r, (e', m')) →
  mem m' = mem m ∧ ∀ q, q ∉ heap_pages e → mapping (tables m') root q = mapping (tables m) root q.
Proof.
  intros He Hc. unfold HeapOps.clean_up, HeapOps.memory_usage, HeapOps.load_end in Hc.
  rewrite (bind_step _ _ (e, m) (e - HEAP_START) (e, m)) in Hc; cycle 1.
  { rewrite (bind_step _ _ (e, m) e (e, m)) by done. apply word_op_exact.
    unfold heap_range, HEAP_SIZE, HEAP_PAGES, PAGE_SIZE, HEAP_START in *. lia. }
  destruct (e - HEAP_START =? 0) eqn:E0; [by inv_done|]. apply Z.eqb_neq in E0.
  rewrite (bind_step _ _ (e, m) e (HEAP_START, m)) in Hc by done.
  rewrite VirtAddr_new_heap in Hc by done. cbv zeta in Hc.
  rewrite (bind_step _ _ (HEAP_START, m) e (HEAP_START, m)) in Hc by done.
  unfold unmap_range in Hc. rewrite clean_up_pages in Hc by (done || lia).
  apply bind_Done in Hc as (x & [e2 m2] & Hm & Hc). unfold HeapOps.on_machine in Hm.
  apply zoom_Done in Hm as (t & Hm & Ht). simpl in *. simplify_eq.
  apply (unmap_loop_frame mapping) in Hm. by destruct x as [[]|]; inv_done.
Qed.

(** [Heap::clean_up] on a well-formed heap, when giving frames back works:
    it succeeds, no page of the heap area is mapped afterwards, no other page
    changed, the frames it returned are those the heap's pages were mapped to,
    and the heap is empty. *)
Theorem clean_up_spec root e (m : Machine PT A) :
  (∀ fs a, ∃ a', dealloc_all fs a = Done a') →
  heap_wf root (tables m) e →
  ∃ pt' a' fs, HeapOps.clean_up root HEAP_START (e, m) = Done (Ok (), (HEAP_START, mkMachine pt' a' (mem m))) ∧
    mapped_to mapping root (heap_pages e) fs (tables m) ∧ dealloc_all fs (falloc m) = Done a' ∧
    (∀ p, p ∈ heap_area → mapping pt' root p = None) ∧
    (∀ p, p ∉ heap_pages e → mapping pt' root p = mapping (tables m) root p).
Proof.
  intros Hd [He Hwf]. unfold HeapOps.clean_up, HeapOps.memory_usage, HeapOps.load_end.
  rewrite (bind_step _ _ (e, m) (e - HEAP_START) (e, m)); cycle 1.
  { rewrite (bind_step _ _ (e, m) e (e, m)) by done. apply word_op_exact.
    unfold heap_range, HEAP_SIZE, HEAP_PAGES, PAGE_SIZE, HEAP_START in *. lia. }
  destruct (mapped_to_exists mapping root (heap_pages e) (tables m)) as [fs Hfs].
  { intros p Hp. apply Hwf; [by apply (heap_pages_area e)|done]. }
  assert (Hnone : ∀ p, p ∈ heap_area → p ∉ heap_pages e → mapping (tables m) root p = None).
  { intros p Hp Hni. apply eq_None_not_Some. rewrite Hwf; done. }
  destruct (Hd fs (falloc m)) as [a' Ha'].
  destruct (e - HEAP_START =? 0) eqn:E0.
  - apply Z.eqb_eq in E0. assert (e = HEAP_START) as -> by lia.
    apply Forall2_nil_inv_l in Hfs as ->. simplify_eq/=.
    exists (tables m), (falloc m), []. split_and!; [by destruct m|constructor|done| |done].
    intros p Hp. apply Hnone; [done|]. set_solver.
  - apply Z.eqb_neq in E0.
    destruct (unmap_loop_mapped mapping root (heap_pages e) fs m a') as (pt' & Eu & Hn & Ho);
      [apply pages_between_NoDup|done|done|].
    exists pt', a', fs. split_and!; [|done|done| |done].
    + rewrite (bind_step _ _ (e, m) e (HEAP_START, m)) by done.
      rewrite VirtAddr_new_heap by done. cbv zeta.
      rewrite (bind_step _ _ (HEAP_START, m) e (HEAP_START, m)) by done.
      unfold unmap_range. rewrite clean_up_pages by (done || lia).
      unfold mbind, M_bind, HeapOps.on_machine, zoom. simpl. by rewrite Eu.
    + intros p Hp. destruct (decide (p ∈ heap_pages e)); [by apply Hn|]. rewrite Ho by done. auto.
Qed.

End HeapFacts.

(** ** An example: a heap of one page *)

Section HeapWitnesses.
#[local] Existing Instance release.
#[local] Existing Instance x86_ref.

Definition heap_machine : Machine table free_list :=
  mkMachine {[ (7, HEAP_START) := (0x9000, 7) ]} [0x1000; 0x2000] (λ a, a).

Lemma heap_range_example : heap_range (HEAP_START + 16).
Proof. unfold heap_range, HEAP_SIZE, HEAP_PAGES, PAGE_SIZE, HEAP_START. lia. Qed.

Lemma heap_example_wf : heap_wf table_mapping 7 (tables heap_machine) (HEAP_START + 16).
Proof.
  split; [apply heap_range_example|]. intros p Hp.
  replace (heap_pages (HEAP_START + 16)) with [HEAP_START] by (vm_compute; reflexivity).
  rewrite list_elem_of_singleton. unfold table_mapping, heap_machine, tables. split.
  - intros [x Hx]. apply lookup_singleton_Some in Hx as [Hx _]. congruence.
  - intros ->. rewrite lookup_singleton_eq. done.
Qed.

Definition heap_grown : Z * Machine table free_list :=
  state_of (HeapOps.brk 7 HEAP_START (Some (HEAP_START + 5000)) (HEAP_START + 16, heap_machine))
    (0, heap_machine).

Lemma heap_range_grown : heap_range (HEAP_START + 5000).
Proof. unfold heap_range, HEAP_SIZE, HEAP_PAGES, PAGE_SIZE, HEAP_START. lia. Qed.

Lemma brk_spec_witness :
  (∃ r, HeapOps.brk 7 HEAP_START (Some (HEAP_START + 5000)) (HEAP_START + 16, heap_machine) = Done r) ∧
  (  (¬ heap_range (HEAP_START + 5000) ∧ Some (HEAP_START + 5000) = None ∧
     HEAP_START + 5000 = HEAP_START + 16 ∧ heap_grown.2 = heap_machine) ∨
  (heap_range (HEAP_START + 5000) ∧ Some (HEAP_START + 5000) = Some (HEAP_START + 5000) ∧
     HEAP_START + 5000 = HEAP_START + 5000 ∧ mem heap_grown.2 = mem heap_machine ∧
     heap_wf table_mapping 7 (tables heap_grown.2) (HEAP_START + 5000) ∧
     ∃ fs, mapped_exactly table_mapping 7 (map_flags true)
       (pages_between (heap_top (HEAP_START + 16)) (heap_top (HEAP_START + 5000))) fs
       (tables heap_machine) (tables heap_grown.2)) ∨
  (heap_range (HEAP_START + 5000) ∧ Some (HEAP_START + 5000) = None ∧
     HEAP_START + 5000 = HEAP_START + 16 ∧ mem heap_grown.2 = mem heap_machine)).
Proof.
  destruct (brk_spec table_mapping 7 (Some (HEAP_START + 5000)) (HEAP_START + 16) heap_machine) as [Hr Hs].
  - apply heap_example_wf.
  - intros n [= <-] _. lia.
  - split; [apply Hr, mapping_ref_returns|].
    apply (Hs (Some (HEAP_START + 5000)) (HEAP_START + 5000) heap_grown.2). vm_compute. reflexivity.
Defined.

Lemma brk_shrink_witness :
  HeapOps.brk 7 HEAP_START (Some HEAP_START) (HEAP_START + 16, heap_machine) =
  Done (Some HEAP_START, (HEAP_START, heap_machine)).
Proof.
  refine (brk_shrink 7 (HEAP_START + 16) HEAP_START heap_machine _ _ _).
  - apply heap_range_example.
  - unfold heap_range, HEAP_SIZE, HEAP_PAGES, PAGE_SIZE, HEAP_START. lia.
  - lia.
Defined.

Lemma brk_after_shrink_witness :
  HeapOps.brk 7 HEAP_START (Some (HEAP_START + 8)) (HEAP_START, heap_machine) =
  Done (None, (HEAP_START, mkMachine (tables heap_machine) [0x2000] (mem heap_machine))).
Proof.
  apply (brk_after_shrink table_mapping 7 (HEAP_START + 16) HEAP_START (HEAP_START + 8) heap_machine
           (Some 0x1000) [0x2000]).
  - apply heap_example_wf.
  - unfold heap_range, HEAP_SIZE, HEAP_PAGES, PAGE_SIZE, HEAP_START; lia.
  - unfold heap_range, HEAP_SIZE, HEAP_PAGES, PAGE_SIZE, HEAP_START; lia.
  - lia.
  - done.
  - done.
  - done.
Defined.

Lemma clean_up_spec_witness :
  ∃ pt' a' fs,
    HeapOps.clean_up 7 HEAP_START (HEAP_START + 16, heap_machine) =
      Done (Ok (), (HEAP_START, mkMachine pt' a' (mem heap_machine))) ∧
    mapped_to table_mapping 7 (heap_pages (HEAP_START + 16)) fs (tables heap_machine) ∧
    dealloc_all fs (falloc heap_machine) = Done a' ∧
    (∀ p, p ∈ heap_area → table_mapping pt' 7 p = None) ∧
    (∀ p, p ∉ heap_pages (HEAP_START + 16) →
       table_mapping pt' 7 p = table_mapping (tables heap_machine) 7 p).
Proof.
  apply (clean_up_spec table_mapping 7 (HEAP_START + 16) heap_machine).
  - apply dealloc_all_free_list.
  - apply heap_example_wf.
Defined.

End HeapWitnesses.
