(* ===== verification/Vm.v ===== *)
(** Page-table contexts and process memory: [pkg/kernel/src/proc/paging.rs] and
    [pkg/kernel/src/proc/vm/mod.rs].

    A [PageTableContext] is an [Arc<Cr3RegValue>]; here it is the name of an
    entry of [arcs], which holds the value and the strong count.  Forked
    processes share the entry, and the count decides who frees the shared
    memory.  [Heap::end] is likewise the name of a cell of [ends]. *)
From S2P Require Import Prelude Arch Frames Elf Stack Heap.

Record Cr3RegValue : Type := mkCr3 { addr : Z; flags : Z }.

Record HeapRef : Type := mkHeap { base : Z; end_ : nat }.

Record ProcessVm : Type := mkVm {
  page_table : nat;
  stack : Stack;
  heap : HeapRef;
  code : list (Z * Z);          (** inclusive page ranges *)
  code_usage : Z;
}.

(** The memory side of the kernel: what is behind [FRAME_ALLOCATOR], the [Arc]s,
    the page tables and CR3. *)
Record Mem (PT : Type) : Type := mkMem {
  machine : Machine PT BootInfoFrameAllocator;
  arcs : gmap nat (Cr3RegValue * nat);
  ends : gmap nat Z;
  cr3 : Cr3RegValue;
}.
Arguments mkMem {PT}.
Arguments machine {PT}.
Arguments arcs {PT}.
Arguments ends {PT}.
Arguments cr3 {PT}.

Section Access.
Context {PT : Type}.
#[local] Abbreviation St := (Mem PT).

Definition on_machine {R} (m : M (Machine PT BootInfoFrameAllocator) R) : M St R :=
  zoom machine (λ t s, mkMem t (arcs s) (ends s) (cr3 s)) m.
Definition set_arcs (a : gmap nat (Cr3RegValue * nat)) : M St () :=
  modify (λ s, mkMem (machine s) a (ends s) (cr3 s)).
Definition set_ends (e : gmap nat Z) : M St () :=
  modify (λ s, mkMem (machine s) (arcs s) e (cr3 s)).

(** [Arc::new], [clone], [deref] and [drop]; a live [Arc] always has its entry. *)
Definition Arc_new (v : Cr3RegValue) : M St nat :=
  s ← get;
  let a := fresh (dom (arcs s)) in
  set_arcs (<[a := (v, 1%nat)]> (arcs s));; mret a.
Definition Arc_clone (a : nat) : M St nat :=
  s ← get;
  x ← unwrap (arcs s !! a);
  set_arcs (<[a := (x.1, S x.2)]> (arcs s));; mret a.
Definition Arc_deref (a : nat) : M St Cr3RegValue :=
  s ← get; x ← unwrap (arcs s !! a); mret x.1.
Definition Arc_drop (a : nat) : M St () :=
  s ← get;
  x ← unwrap (arcs s !! a);
  match x.2 with
  | S (S n) => set_arcs (<[a := (x.1, S n)]> (arcs s))
  | _ => set_arcs (delete a (arcs s))
  end.

(** [Heap] operations run on the cell a heap refers to. *)
Definition on_heap {R} (h : HeapRef) (m : M (Z * Machine PT BootInfoFrameAllocator) R) : M St R :=
  s ← get;
  e ← unwrap (ends s !! end_ h);
  match m (e, machine s) with
  | Done (r, (e', t)) => put (mkMem t (arcs s) (<[end_ h := e']> (ends s)) (cr3 s));; mret r
  | Panic => panic
  | OutOfFuel => out_of_fuel
  end.
End Access.

(** ** [PageTableContext] *)

Module PageTableContext.
Section Ops.
Context `{Profile} `{X86_64} {PT : Type} `{Mapper PT} (PHYSICAL_OFFSET : option Z).
#[local] Abbreviation St := (Mem PT).

Definition new : M St nat := v ← gets cr3; Arc_new v.

(** [Cr3Flags::empty()] is 0. *)
Definition clone_level_4 (self : nat) : M St nat :=
  o ← on_machine alloc_frame;
  page_table_addr ← unwrap o;
  reg ← Arc_deref self;
  _ ← physical_to_virtual PHYSICAL_OFFSET (addr reg);
  _ ← physical_to_virtual PHYSICAL_OFFSET page_table_addr;
  on_machine (modify (λ t, mkMachine (copy_table (addr reg) page_table_addr (tables t))
                             (falloc t) (Elf.mem t)));;
  Arc_new (mkCr3 page_table_addr 0).

Definition using_count (self : nat) : M St nat :=
  s ← get; x ← unwrap (arcs s !! self); mret x.2.

Definition load (self : nat) : M St () :=
  reg ← Arc_deref self;
  modify (λ s, mkMem (machine s) (arcs s) (ends s) reg).

(** The mapper is named by its level-4 frame. *)
Definition mapper (self : nat) : M St Z :=
  reg ← Arc_deref self;
  _ ← physical_to_virtual PHYSICAL_OFFSET (addr reg);
  _ ← unwrap PHYSICAL_OFFSET;
  mret (addr reg).

Definition fork (self : nat) : M St nat := Arc_clone self.

End Ops.
End PageTableContext.

(** ** [Heap::empty] and [Heap::fork] *)

Section HeapRefs.
Context `{X86_64} {PT : Type}.

Definition Heap_empty : M (Mem PT) HeapRef :=
  va ← unwrap (VirtAddr_new HEAP_START);
  s ← get;
  let c := fresh (dom (ends s)) in
  set_ends (<[c := HEAP_START]> (ends s));;
  mret (mkHeap va c).

(** The clone of the [Arc] is the same cell. *)
Definition Heap_fork (self : HeapRef) : HeapRef := mkHeap (base self) (end_ self).
End HeapRefs.

(** ** [ProcessVm] *)

Module Vm.
Section Ops.
Context `{Profile} `{X86_64} {PT : Type} `{Mapper PT} (PHYSICAL_OFFSET : option Z).
#[local] Abbreviation St := (Mem PT).

Definition new (pt : nat) : M St ProcessVm :=
  h ← Heap_empty;
  mret (mkVm pt StackOps.empty h [] 0).

(** [count()] of an inclusive page range, and the [sum()] over several. *)
Definition range_count (r : Z * Z) : Z := Z.of_nat (length (Page_range_inclusive r.1 r.2)).
Fixpoint sum_counts (rs : list (Z * Z)) (size : Z) : M St Z :=
  match rs with
  | [] => mret size
  | r :: rs => size ← word_op 64 (size + range_count r); sum_counts rs size
  end.

Definition init_kernel_vm (self : ProcessVm) (pages : list (Z * Z)) : M St ProcessVm :=
  size ← sum_counts pages 0;
  usage ← word_op 64 (size * PAGE_SIZE);
  mret (mkVm (page_table self) StackOps.kstack (heap self) pages usage).

Definition brk (self : ProcessVm) (addr : option Z) : M St (option Z) :=
  root ← PageTableContext.mapper PHYSICAL_OFFSET (page_table self);
  on_heap (heap self) (HeapOps.brk root (base (heap self)) addr).

Definition load_elf (self : ProcessVm) (elf : ElfFile) : M St ProcessVm :=
  root ← PageTableContext.mapper PHYSICAL_OFFSET (page_table self);
  off ← unwrap PHYSICAL_OFFSET;
  r ← on_machine (Elf.load_elf elf off root true);
  match r with
  | Err _ => panic
  | Ok ranges =>
      size ← sum_counts ranges 0;
      usage ← word_op 64 (size * PAGE_SIZE);
      st ← on_machine (StackOps.init root (stack self));
      mret (mkVm (page_table self) st (heap self) ranges usage)
  end.

Definition fork (self : ProcessVm) (stack_offset_count : Z) : M St ProcessVm :=
  owned_page_table ← PageTableContext.fork (page_table self);
  root ← PageTableContext.mapper PHYSICAL_OFFSET owned_page_table;
  off ← unwrap PHYSICAL_OFFSET;
  active ← gets cr3;
  st ← on_machine (StackOps.fork root (addr active) off (stack self) stack_offset_count);
  mret (mkVm owned_page_table st (Heap_fork (heap self)) [] 0).

(** [current] is the running CPU's process. *)
Definition handle_page_fault (current : option Z) (self : ProcessVm) (addr : Z) :
    M St (bool * ProcessVm) :=
  root ← PageTableContext.mapper PHYSICAL_OFFSET (page_table self);
  r ← on_machine (StackOps.handle_page_fault root current (stack self) addr);
  mret (r.1, mkVm (page_table self) r.2 (heap self) (code self) (code_usage self)).

Definition memory_usage (self : ProcessVm) : M St Z :=
  st ← on_machine (StackOps.memory_usage (stack self));
  h ← on_heap (heap self) (HeapOps.memory_usage (base (heap self)));
  sum ← word_op 64 (st + h);
  word_op 64 (sum + code_usage self).

Fixpoint unmap_code (root : Z) (code : list (Z * Z)) :
    M (Machine PT BootInfoFrameAllocator) (result () UnmapError) :=
  match code with
  | [] => mret (Ok ())
  | r :: code =>
      _ ←? unmap_range r.1 r.2 root true;
      unmap_code root code
  end.

(** The [CleanUp] trait of the mapper. *)
Definition clean_up_tables (root : Z) : M (Machine PT BootInfoFrameAllocator) () := λ s,
  match mapper_clean_up root (tables s) (falloc s) with
  | Done (pt, a) => Done ((), mkMachine pt a (Elf.mem s))
  | Panic => Panic
  | OutOfFuel => OutOfFuel
  end.

(** The part of [clean_up] for the last user of the page table. *)
Definition clean_up_shared (self : ProcessVm) (root : Z) : M St (result () UnmapError) :=
  _ ←? on_heap (heap self) (HeapOps.clean_up root (base (heap self)));
  _ ←? on_machine (unmap_code root (code self));
  on_machine (clean_up_tables root);;
  reg ← Arc_deref (page_table self);
  on_machine (dealloc_frame (addr reg));;
  mret (Ok ()).

Definition clean_up (self : ProcessVm) : M St (result () UnmapError * ProcessVm) :=
  root ← PageTableContext.mapper PHYSICAL_OFFSET (page_table self);
  r ← on_machine (StackOps.clean_up root (stack self));
  let self := mkVm (page_table self) r.2 (heap self) (code self) (code_usage self) in
  match r.1 with
  | Err e => mret (Err e, self)
  | Ok _ =>
      n ← PageTableContext.using_count (page_table self);
      if decide (n = 1%nat) then
        r ← clean_up_shared self root;
        mret (r, self)
      else mret (Ok (), self)
  end.

(** [Drop]: an error of [clean_up] is only logged; then the fields are dropped, of
    which the [Arc] of the page table matters here. *)
Definition drop (self : ProcessVm) : M St () :=
  r ← clean_up self;
  Arc_drop (page_table r.2).

End Ops.
End Vm.

(** ** Reference counts *)

Section ArcFacts.
Context {PT : Type}.

(** Every entry of [arcs] counts the references of the list. *)
Definition arc_wf (refs : list nat) (m : Mem PT) : Prop :=
  ∀ a, match arcs m !! a with
       | Some (_, n) => n = length (filter (.= a) refs) ∧ (0 < n)%nat
       | None => a ∉ refs
       end.

Lemma filter_nil_not_in (refs : list nat) a : a ∉ refs → length (filter (.= a) refs) = 0%nat.
Proof.
  intros Hn. induction refs as [|b refs IH]; [done|].
  apply not_elem_of_cons in Hn as [Hb Hn]. rewrite filter_cons_False by congruence. auto.
Qed.

Lemma Arc_new_Done v (m : Mem PT) refs a m' :
  arc_wf refs m → Arc_new v m = Done (a, m') →
  arc_wf (a :: refs) m' ∧ a ∉ refs ∧ m' = mkMem (machine m) (<[a := (v, 1%nat)]> (arcs m)) (ends m) (cr3 m).
Proof.
  intros Hwf Hn. injection Hn as <- <-.
  assert (Hf : arcs m !! fresh (dom (arcs m)) = None) by (apply not_elem_of_dom, is_fresh).
  set (a := fresh (dom (arcs m))) in *.
  assert (Ha : a ∉ refs) by (specialize (Hwf a); by rewrite Hf in Hwf).
  split_and!; [|done..]. intros b. simpl. destruct (decide (b = a)) as [->|Hne].
  - rewrite lookup_insert_eq, filter_cons_True by done. simpl.
    rewrite filter_nil_not_in by done. lia.
  - rewrite lookup_insert_ne, filter_cons_False by congruence. specialize (Hwf b).
    destruct (arcs m !! b) as [[w n]|]; [done|]. set_solver.
Qed.

Lemma Arc_clone_Done a (m : Mem PT) refs b m' :
  arc_wf refs m → Arc_clone a m = Done (b, m') →
  b = a ∧ arc_wf (a :: refs) m' ∧
  ∃ v n, arcs m !! a = Some (v, n) ∧ m' = mkMem (machine m) (<[a := (v, S n)]> (arcs m)) (ends m) (cr3 m).
Proof.
  unfold Arc_clone, set_arcs, mbind, M_bind, get, unwrap. intros Hwf Hn.
  destruct (arcs m !! a) as [[v n]|] eqn:Hx; [|done]. injection Hn as <- <-.
  split_and!; [done| |by exists v, n]. intros c. simpl. pose proof (Hwf c) as Hc.
  destruct (decide (c = a)) as [->|Hne].
  - rewrite lookup_insert_eq, filter_cons_True by done. rewrite Hx in Hc. simpl. lia.
  - rewrite lookup_insert_ne, filter_cons_False by congruence.
    destruct (arcs m !! c) as [[w k]|]; [done|]. set_solver.
Qed.

Lemma Arc_drop_Done a (m : Mem PT) r1 r2 u m' :
  arc_wf (r1 ++ a :: r2) m → Arc_drop a m = Done (u, m') →
  arc_wf (r1 ++ r2) m' ∧ machine m' = machine m ∧ ends m' = ends m ∧ cr3 m' = cr3 m.
Proof.
  unfold Arc_drop, set_arcs, mbind, M_bind, get, unwrap. intros Hwf Hd.
  destruct (arcs m !! a) as [[v n]|] eqn:Hx; [|done]. simpl in Hd.
  pose proof (Hwf a) as Ha. rewrite Hx in Ha. rewrite filter_app, filter_cons_True in Ha by done.
  rewrite length_app in Ha. simpl in Ha.
  assert (Hlen : length (filter (.= a) (r1 ++ r2)) = pred n) by (rewrite filter_app, length_app; lia).
  assert (Hother : ∀ c, c ≠ a →
    length (filter (.= c) (r1 ++ r2)) = length (filter (.= c) (r1 ++ a :: r2))).
  { intros c Hc. rewrite !filter_app, filter_cons_False by congruence. done. }
  destruct n as [|[|n]]; simpl in *; [lia|..]; injection Hd as _ <-;
    (split; [|done]); intros c; simpl; pose proof (Hwf c) as Hc;
    (destruct (decide (c = a)) as [->|Hne]); [|rewrite Hother by done|..|rewrite Hother by done].
  - rewrite lookup_delete_eq. apply length_zero_iff_nil in Hlen.
    intros Hin. assert (a ∈ filter (.= a) (r1 ++ r2)) as Hf by (by apply list_elem_of_filter).
    rewrite Hlen in Hf. by apply not_elem_of_nil in Hf.
  - rewrite lookup_delete_ne by done. destruct (arcs m !! c) as [[]|]; [done|]. set_solver.
  - rewrite lookup_insert_eq, Hlen. simpl. lia.
  - rewrite lookup_insert_ne by done. destruct (arcs m !! c) as [[]|]; [done|]. set_solver.
Qed.

(** Code that only works on the machine or on heap cells leaves the counts alone. *)
Lemma on_machine_Done {R} (f : M (Machine PT BootInfoFrameAllocator) R) (m : Mem PT) r m' :
  on_machine f m = Done (r, m') →
  ∃ t, f (machine m) = Done (r, t) ∧ m' = mkMem t (arcs m) (ends m) (cr3 m).
Proof. unfold on_machine. intros (t & Hf & ->)%zoom_Done. eauto. Qed.

Lemma on_heap_Done {R} h (f : M (Z * Machine PT BootInfoFrameAllocator) R) (m : Mem PT) r m' :
  on_heap h f m = Done (r, m') →
  ∃ e e' t, ends m !! end_ h = Some e ∧ f (e, machine m) = Done (r, (e', t)) ∧
    m' = mkMem t (arcs m) (<[end_ h := e']> (ends m)) (cr3 m).
Proof.
  unfold on_heap. intros Hh. inv_done. destruct (f _) as [[r' [e' t]]| |] eqn:E; inv_done. eauto 10.
Qed.

Lemma arc_wf_eq refs (m m' : Mem PT) : arcs m' = arcs m → arc_wf refs m → arc_wf refs m'.
Proof. unfold arc_wf. by intros ->. Qed.

End ArcFacts.

(** ** What the operations do to the references *)

Section PoolFacts.
Context `{Profile} `{X86_64} {PT : Type} `{Mapper PT} (PHYSICAL_OFFSET : option Z).
#[local] Abbreviation St := (Mem PT).

(** No reference counted differently, no heap cell lost. *)
Definition same_refs (m m' : St) : Prop :=
  arcs m' = arcs m ∧ dom (ends m) ⊆ dom (ends m') ∧ cr3 m' = cr3 m.

#[export] Instance same_refs_preorder : PreOrder same_refs.
Proof.
  split; [done|]. intros m1 m2 m3 (? & ? & ?) (? & ? & ?). split_and!; [congruence|set_solver|congruence].
Qed.

Lemma on_machine_refs {R} (f : M (Machine PT BootInfoFrameAllocator) R) (m : St) r m' :
  on_machine f m = Done (r, m') → same_refs m m'.
Proof. intros (t & _ & ->)%on_machine_Done. done. Qed.

Lemma on_heap_refs {R} h (f : M (Z * Machine PT BootInfoFrameAllocator) R) (m : St) r m' :
  on_heap h f m = Done (r, m') → same_refs m m'.
Proof.
  intros (e & e' & t & _ & _ & ->)%on_heap_Done. split_and!; [done| |done]. simpl. set_solver.
Qed.

Lemma mapper_Done po a (m : St) root m' :
  PageTableContext.mapper po a m = Done (root, m') →
  m' = m ∧ ∃ v n, arcs m !! a = Some (v, n) ∧ root = addr v.
Proof.
  unfold PageTableContext.mapper, Arc_deref, physical_to_virtual. intros Hm. inv_done.
  match goal with H : word_op _ _ _ = _ |- _ => apply word_op_Done in H as [-> _] end.
  match goal with H : arcs _ !! a = Some ?x |- _ => destruct x end. split; [done|]. eauto.
Qed.

Lemma sum_counts_Done rs size (m : St) n m' : Vm.sum_counts rs size m = Done (n, m') → m' = m.
Proof.
  revert size m. induction rs as [|r rs IH]; intros size m Hs; simpl in Hs; inv_done; [done|].
  match goal with H : word_op _ _ _ = _ |- _ => apply word_op_Done in H as [-> _] end. eauto.
Qed.

Lemma using_count_Done a (m : St) n m' :
  PageTableContext.using_count a m = Done (n, m') → m' = m ∧ ∃ v, arcs m !! a = Some (v, n).
Proof.
  unfold PageTableContext.using_count. intros Hm. inv_done.
  match goal with H : arcs _ !! a = Some ?x |- _ => destruct x end. split; [done|]. eauto.
Qed.

Lemma Arc_deref_Done a (m : St) v m' :
  Arc_deref a m = Done (v, m') → m' = m ∧ ∃ n, arcs m !! a = Some (v, n).
Proof.
  unfold Arc_deref. intros Hm. inv_done.
  match goal with H : arcs _ !! a = Some ?x |- _ => destruct x end. split; [done|]. eauto.
Qed.

(** Turn the steps of a [ProcessVm] operation into [same_refs] facts. *)
Ltac refs_step :=
  match goal with
  | H : on_machine _ _ = Done _ |- _ => apply on_machine_refs in H
  | H : on_heap _ _ _ = Done _ |- _ => apply on_heap_refs in H
  | H : PageTableContext.mapper _ _ _ = Done _ |- _ => apply mapper_Done in H as (? & ? & ? & ? & ?)
  | H : Vm.sum_counts _ _ _ = Done _ |- _ => apply sum_counts_Done in H
  | H : PageTableContext.using_count _ _ = Done _ |- _ => apply using_count_Done in H as (? & ? & ?)
  | H : Arc_deref _ _ = Done _ |- _ => apply Arc_deref_Done in H as (? & ? & ?)
  | H : word_op _ _ _ = Done _ |- _ => apply word_op_Done in H as [? _]
  end; simplify_eq/=.
Ltac chain := solve [done | etrans; [eassumption|]; chain].
Ltac refs := inv_all; repeat (refs_step; inv_all); chain.

Lemma brk_refs v a (m : St) r m' : Vm.brk PHYSICAL_OFFSET v a m = Done (r, m') → same_refs m m'.
Proof. unfold Vm.brk. intros Hb. refs. Qed.

Lemma load_elf_refs v elf (m : St) v' m' :
  Vm.load_elf PHYSICAL_OFFSET v elf m = Done (v', m') →
  same_refs m m' ∧ page_table v' = page_table v ∧ heap v' = heap v.
Proof. unfold Vm.load_elf. intros Hb. split; [|by inv_all]. refs. Qed.

Lemma handle_page_fault_refs cur v a (m : St) b v' m' :
  Vm.handle_page_fault PHYSICAL_OFFSET cur v a m = Done ((b, v'), m') →
  same_refs m m' ∧ page_table v' = page_table v ∧ heap v' = heap v.
Proof. unfold Vm.handle_page_fault. intros Hb. split; [|by inv_all]. refs. Qed.

Lemma clean_up_shared_refs v root (m : St) r m' :
  Vm.clean_up_shared v root m = Done (r, m') → same_refs m m'.
Proof. unfold Vm.clean_up_shared. intros Hb. refs. Qed.

Lemma clean_up_refs v (m : St) r m' :
  Vm.clean_up PHYSICAL_OFFSET v m = Done (r, m') → same_refs m m' ∧ page_table r.2 = page_table v.
Proof.
  unfold Vm.clean_up. intros Hb. split; [|by inv_all].
  inv_all; repeat refs_step; try match goal with H : Vm.clean_up_shared _ _ _ = _ |- _ =>
    apply clean_up_shared_refs in H end; chain.
Qed.

Lemma Vm_new_refs a (m : St) v m' :
  Vm.new a m = Done (v, m') →
  same_refs m m' ∧ page_table v = a ∧ is_Some (ends m' !! end_ (heap v)).
Proof.
  unfold Vm.new, Heap_empty, set_ends. intros Hb. inv_done. split_and!; [|done|].
  - split_and!; [done| |done]. simpl. set_solver.
  - simpl. by rewrite lookup_insert_eq.
Qed.

(** The memories of all live processes, and what can happen to them. *)
Inductive pool_step : list ProcessVm * St → list ProcessVm * St → Prop :=
  | pool_new vms m a m1 v m2 :
      PageTableContext.new m = Done (a, m1) → Vm.new a m1 = Done (v, m2) →
      pool_step (vms, m) (v :: vms, m2)
  | pool_spawn vms m v0 a m1 v m2 :
      v0 ∈ vms → PageTableContext.clone_level_4 PHYSICAL_OFFSET (page_table v0) m = Done (a, m1) →
      Vm.new a m1 = Done (v, m2) → pool_step (vms, m) (v :: vms, m2)
  | pool_elf vs1 v vs2 m elf v' m' :
      Vm.load_elf PHYSICAL_OFFSET v elf m = Done (v', m') →
      pool_step (vs1 ++ v :: vs2, m) (vs1 ++ v' :: vs2, m')
  | pool_brk vms v m a r m' :
      v ∈ vms → Vm.brk PHYSICAL_OFFSET v a m = Done (r, m') → pool_step (vms, m) (vms, m')
  | pool_fault vs1 v vs2 m cur a b v' m' :
      Vm.handle_page_fault PHYSICAL_OFFSET cur v a m = Done ((b, v'), m') →
      pool_step (vs1 ++ v :: vs2, m) (vs1 ++ v' :: vs2, m')
  | pool_fork vms v n m c m' :
      v ∈ vms → Vm.fork PHYSICAL_OFFSET v n m = Done (c, m') → pool_step (vms, m) (c :: vms, m')
  | pool_drop vs1 v vs2 m u m' :
      Vm.drop PHYSICAL_OFFSET v m = Done (u, m') → pool_step (vs1 ++ v :: vs2, m) (vs1 ++ vs2, m').

Definition pool_wf (s : list ProcessVm * St) : Prop :=
  arc_wf (page_table <$> s.1) s.2 ∧ ∀ v, v ∈ s.1 → is_Some (ends s.2 !! end_ (heap v)).

Lemma same_refs_arc_wf refs (m m' : St) : same_refs m m' → arc_wf refs m → arc_wf refs m'.
Proof. intros [Ha _]. by apply arc_wf_eq. Qed.

Lemma same_refs_ends (m m' : St) c : same_refs m m' → is_Some (ends m !! c) → is_Some (ends m' !! c).
Proof. intros (_ & Hd & _). rewrite <- !elem_of_dom. set_solver. Qed.

Lemma Arc_new_ends v (m : St) a m' : Arc_new v m = Done (a, m') → ends m' = ends m.
Proof. intros Ha. by injection Ha as <- <-. Qed.

Lemma pool_wf_push a vms (m1 : St) v m2 :
  arc_wf (a :: (page_table <$> vms)) m1 → (∀ v, v ∈ vms → is_Some (ends m1 !! end_ (heap v))) →
  Vm.new a m1 = Done (v, m2) → pool_wf (v :: vms, m2).
Proof.
  intros Ha He Hn. apply Vm_new_refs in Hn as (Hs & Hp & Hc). split; simpl.
  - rewrite Hp. by eapply same_refs_arc_wf.
  - intros w [->|Hw]%elem_of_cons; [done|]. eapply same_refs_ends; eauto.
Qed.

Lemma pool_wf_update vs1 v vs2 v' (m m' : St) :
  pool_wf (vs1 ++ v :: vs2, m) → same_refs m m' → page_table v' = page_table v → heap v' = heap v →
  pool_wf (vs1 ++ v' :: vs2, m').
Proof.
  intros [Ha He] Hs Hp Hh. split; simpl in *.
  - rewrite fmap_app, fmap_cons, Hp, <- fmap_cons, <- fmap_app. by eapply same_refs_arc_wf.
  - intros w Hw. eapply same_refs_ends; [done|].
    apply elem_of_app in Hw as [Hw|[->|Hw]%elem_of_cons]; [|rewrite Hh|]; apply He; set_solver.
Qed.

Lemma clone_level_4_Done a (m : St) b m' :
  PageTableContext.clone_level_4 PHYSICAL_OFFSET a m = Done (b, m') →
  ∃ m1 v, same_refs m m1 ∧ Arc_new v m1 = Done (b, m').
Proof.
  unfold PageTableContext.clone_level_4, physical_to_virtual. intros Hc. inv_done.
  repeat refs_step. inv_done. repeat refs_step. do 2 eexists. split; [|eassumption]. by etrans.
Qed.

Lemma fork_Done v n (m : St) c m' refs :
  arc_wf refs m → Vm.fork PHYSICAL_OFFSET v n m = Done (c, m') →
  arc_wf (page_table c :: refs) m' ∧ dom (ends m) ⊆ dom (ends m') ∧
  page_table c = page_table v ∧ heap c = Heap_fork (heap v) ∧ code c = [] ∧ code_usage c = 0.
Proof.
  unfold Vm.fork, PageTableContext.fork. intros Ha Hf.
  apply bind_Done in Hf as (a & m1 & Hc & Hf).
  destruct (Arc_clone_Done _ _ _ _ _ Ha Hc) as (-> & Hw & w & k & _ & Hm1).
  inv_done. repeat refs_step. match goal with H : same_refs _ _ |- _ => rename H into Hs end.
  split_and!; [by eapply same_refs_arc_wf| |done..]. by destruct Hs as (_ & Hd & _).
Qed.

Lemma fork_arcs v n (m : St) c m' refs :
  arc_wf refs m → Vm.fork PHYSICAL_OFFSET v n m = Done (c, m') →
  ∃ w k, arcs m !! page_table v = Some (w, k) ∧ arcs m' = <[page_table v := (w, S k)]> (arcs m) ∧ cr3 m' = cr3 m.
Proof.
  unfold Vm.fork, PageTableContext.fork. intros Ha Hf.
  apply bind_Done in Hf as (a & m1 & Hc & Hf).
  destruct (Arc_clone_Done _ _ _ _ _ Ha Hc) as (-> & _ & w & k & Hw & Hm1).
  inv_done. repeat refs_step. match goal with H : same_refs _ _ |- _ => destruct H as (Ha' & _ & Hc') end.
  exists w, k. by rewrite Ha', Hc'.
Qed.

Lemma drop_Done v (m : St) u m' r1 r2 :
  arc_wf (r1 ++ page_table v :: r2) m → Vm.drop PHYSICAL_OFFSET v m = Done (u, m') →
  arc_wf (r1 ++ r2) m' ∧ dom (ends m) ⊆ dom (ends m').
Proof.
  unfold Vm.drop. intros Ha Hd. inv_done.
  match goal with H : Vm.clean_up _ _ _ = _ |- _ => apply clean_up_refs in H as [Hs Hp] end.
  rewrite Hp in *. match goal with H : Arc_drop _ _ = _ |- _ =>
    eapply Arc_drop_Done in H as (? & ? & He & ?); [|by eapply same_refs_arc_wf] end.
  split; [done|]. rewrite He. by destruct Hs as (_ & Hd & _).
Qed.

Lemma pool_step_wf s s' : pool_step s s' → pool_wf s → pool_wf s'.
Proof.
  destruct 1 as [vms m a m1 v m2 Hn Hv|vms m v0 a m1 v m2 Hin Hn Hv|vs1 v vs2 m elf v' m' Hl
    |vms v m a r m' Hin Hb|vs1 v vs2 m cur a b v' m' Hl|vms v n m c m' Hin Hf|vs1 v vs2 m u m' Hd];
    intros [Ha He]; simpl in *.
  - unfold PageTableContext.new in Hn. inv_done.
    match goal with H : Arc_new _ _ = _ |- _ => pose proof (Arc_new_ends _ _ _ _ H) as Hends;
      eapply Arc_new_Done in H as (? & _ & _); [|done] end.
    eapply pool_wf_push; [done| |done]. by rewrite Hends.
  - apply clone_level_4_Done in Hn as (m0 & w & Hs & Hn). pose proof (Arc_new_ends _ _ _ _ Hn) as Hends.
    eapply Arc_new_Done in Hn as (? & _ & _); [|by eapply same_refs_arc_wf].
    eapply pool_wf_push; [done| |done]. rewrite Hends. eauto using same_refs_ends.
  - apply load_elf_refs in Hl as (? & ? & ?). by eapply pool_wf_update.
  - apply brk_refs in Hb. split; simpl; [by eapply same_refs_arc_wf|eauto using same_refs_ends].
  - apply handle_page_fault_refs in Hl as (? & ? & ?). by eapply pool_wf_update.
  - eapply fork_Done in Hf as (Ha' & Hd & Hp & Hh & _); [|done]. split; simpl; [done|].
    intros w Hw. apply elem_of_dom, Hd, elem_of_dom.
    apply elem_of_cons in Hw as [->|Hw]; [rewrite Hh; by apply He|by apply He].
  - rewrite fmap_app, fmap_cons in Ha. eapply drop_Done in Hd as [Ha' Hd]; [|done].
    split; simpl; [by rewrite fmap_app|]. intros w Hw. apply elem_of_dom, Hd, elem_of_dom, He. set_solver.
Qed.

(** Sharing of page tables.  In every state the memories of processes can get
    into by creation, spawning, loading, growing, page faults, forking and
    dropping, the strong count of each page table is the number of live process
    memories on it; so [using_count() == 1], the test by which [clean_up]
    decides to free the heap, the code and the tables, holds exactly for the
    last one. *)
Theorem pool_refcounts (m0 : St) vms m v :
  arcs m0 = ∅ → rtc pool_step ([], m0) (vms, m) → v ∈ vms →
  PageTableContext.using_count (page_table v) m =
    Done (length (filter (λ w, page_table w = page_table v) vms), m).
Proof.
  intros H0' Hr Hv. assert (Hwf : pool_wf (vms, m)).
  { remember ([], m0) as s0 eqn:E. assert (Hi : pool_wf s0).
    { subst. split; [|set_solver]. intros a. simpl. rewrite H0', lookup_empty. set_solver. }
    clear E H0' Hv. remember (vms, m) as s1. clear Heqs1. induction Hr; eauto using pool_step_wf. }
  destruct Hwf as [Ha _]. specialize (Ha (page_table v)). simpl in Ha.
  unfold PageTableContext.using_count, mbind, M_bind, get, unwrap.
  destruct (arcs m !! page_table v) as [[w n]|] eqn:E.
  - destruct Ha as [-> _]. unfold mret, M_ret. simpl. do 3 f_equal. clear.
    induction vms as [|x vms IH]; [done|]. rewrite fmap_cons, !filter_cons.
    destruct (decide (page_table x = _)); simpl; lia.
  - exfalso. apply Ha. by apply list_elem_of_fmap_2.
Qed.

End PoolFacts.

(** ** Dropping a process memory *)

Section DropFacts.
Context `{Profile} `{!X86_64} `{!X86_64_Laws _} {PT : Type} `{!Mapper PT} (PHYSICAL_OFFSET : option Z).
Context (mapping : PT → Z → Z → option (Z * Z)) `{!Mapper_Laws PT mapping}.
#[local] Abbreviation St := (Mem PT).

(** What [root] maps, after and before, agrees outside of [pages]; memory contents
    are the same. *)
Definition changes_only (root : Z) (pages : list Z) (m m' : Machine PT BootInfoFrameAllocator) : Prop :=
  Elf.mem m' = Elf.mem m ∧
  ∀ q, q ∉ pages → mapping (tables m') root q = mapping (tables m) root q.

Lemma changes_only_trans root ps qs (m1 m2 m3 : Machine PT BootInfoFrameAllocator) :
  changes_only root ps m1 m2 → changes_only root qs m2 m3 → changes_only root (ps ++ qs) m1 m3.
Proof.
  intros [Hm Hq] [Hm' Hq']. split; [congruence|]. intros q Hn. rewrite Hq', Hq by set_solver. done.
Qed.

Lemma clean_up_shared_frame v root reg n e (m : St) r m' :
  code v = [] → base (heap v) = HEAP_START → ends m !! end_ (heap v) = Some e → heap_range e →
  arcs m !! page_table v = Some (reg, n) →
  Vm.clean_up_shared v root m = Done (r, m') →
  changes_only root (heap_pages e) (machine m) (machine m').
Proof.
  intros Hc Hb He Hr Ha Hcl. unfold Vm.clean_up_shared in Hcl.
  apply bind_Done in Hcl as (x & m1 & Hh & Hcl).
  apply on_heap_Done in Hh as (e0 & e' & t & He0 & Hh & ->). rewrite He in He0. injection He0 as <-.
  rewrite Hb in Hh. apply (heap_clean_up_frame mapping) in Hh; [|done].
  destruct x as [[]|err]; [|by inv_done].
  rewrite Hc in Hcl. simpl in Hcl. rewrite (bind_step _ _ _ _ _ eq_refl) in Hcl. simpl in Hcl.
  apply bind_Done in Hcl as (u & m2 & Ht & Hcl). apply on_machine_Done in Ht as (t2 & Ht & ->).
  unfold Vm.clean_up_tables in Ht. simpl in Ht.
  destruct (mapper_clean_up _ _ _) as [[pt2 a2]| |] eqn:Em; [|done..]. injection Ht as <- <-.
  apply bind_Done in Hcl as (g & m3 & Hd & Hcl). apply Arc_deref_Done in Hd as [-> _].
  apply bind_Done in Hcl as (u & m4 & Hd & Hcl). apply on_machine_Done in Hd as (t3 & Hd & ->).
  inv_done. unfold dealloc_frame in Hd. simpl in Hd.
  destruct (deallocate_frame _ a2) as [a3| |]; [|done..]. injection Hd as <- <-. simpl.
  destruct Hh as [Hm Hq]. split; [done|]. intros q Hn. simpl.
  rewrite (mapper_clean_up_mapping (mapping := mapping) _ _ _ _ _ Em). by apply Hq.
Qed.

Lemma clean_up_step v reg n (m : St) r m' :
  stack_wf (stack v) → arcs m !! page_table v = Some (reg, n) →
  Vm.clean_up PHYSICAL_OFFSET v m = Done (r, m') →
  ∃ t, changes_only (addr reg) (stack_pages (stack v)) (machine m) t ∧
    let m1 := mkMem t (arcs m) (ends m) (cr3 m) in
    (m' = m1 ∨ (n = 1%nat ∧ ∃ v' r', page_table v' = page_table v ∧ heap v' = heap v ∧ code v' = code v ∧
       Vm.clean_up_shared v' (addr reg) m1 = Done (r', m'))).
Proof.
  intros Hwf Ha Hc. unfold Vm.clean_up in Hc.
  apply bind_Done in Hc as (root & m1 & Hm & Hc). apply mapper_Done in Hm as (-> & w & k & Hw & ->).
  rewrite Ha in Hw. injection Hw as <- <-.
  apply bind_Done in Hc as (x & m2 & Hs & Hc). apply on_machine_Done in Hs as (t & Hs & ->).
  apply (clean_up_frame mapping) in Hs; [|done]. exists t. split; [exact Hs|].
  destruct x as [[[]|err] st]; simpl in Hc; [|inv_done; by left].
  apply bind_Done in Hc as (cnt & m3 & Hu & Hc). apply using_count_Done in Hu as (-> & w & Hw).
  simpl in Hw. rewrite Ha in Hw. injection Hw as <- <-.
  destruct (decide (n = 1%nat)) as [->|]; [|inv_done; by left].
  right. split; [done|]. apply bind_Done in Hc as (r1 & m4 & Hc1 & Hc). inv_done. eauto 10.
Qed.

(** The memory of a child: its stack is well-formed and on pages that were free, and what the
    page table maps stays. *)
Lemma fork_child_vm v n (m : St) c m' reg cnt :
  stack_wf (stack v) → 0 < usage (stack v) → 0 ≤ n → n * STACK_MAX_SIZE ≤ range_start (stack v) →
  arcs m !! page_table v = Some (reg, cnt) → Vm.fork PHYSICAL_OFFSET v n m = Done (c, m') →
  range_start (stack c) < 2 ^ 47 →
  stack_wf (stack c) ∧
  ∀ q x, mapping (tables (machine m)) (addr reg) q = Some x →
    mapping (tables (machine m')) (addr reg) q = Some x ∧ q ∉ stack_pages (stack c).
Proof.
  intros Hwf Hu Hn0 Hn Ha Hf Hlow. unfold Vm.fork, PageTableContext.fork in Hf.
  apply bind_Done in Hf as (a & m1 & Hc & Hf).
  assert (a = page_table v ∧ machine m1 = machine m ∧ arcs m1 !! page_table v = Some (reg, S cnt)) as (-> & Hm1 & Ha1).
  { unfold Arc_clone, set_arcs, mbind, M_bind, get, unwrap in Hc. rewrite Ha in Hc. injection Hc as <- <-.
    split_and!; [done..|]. simpl. by rewrite lookup_insert_eq. }
  apply bind_Done in Hf as (root & m2 & Hm & Hf). apply mapper_Done in Hm as (-> & w & k & Hw & ->).
  rewrite Ha1 in Hw. injection Hw as <- <-.
  apply bind_Done in Hf as (off & m2 & [_ <-]%unwrap_Done & Hf).
  apply bind_Done in Hf as (act & m2 & [_ <-]%gets_Done & Hf).
  apply bind_Done in Hf as (st & m2 & Hs & Hf). apply ret_Done in Hf as [<- <-].
  apply on_machine_Done in Hs as (t & Hs & ->). rewrite Hm1 in Hs.
  by apply (fork_child mapping) in Hs.
Qed.

Lemma drop_shared_Done v reg n (m : St) u m' :
  stack_wf (stack v) → arcs m !! page_table v = Some (reg, S (S n)) →
  Vm.drop PHYSICAL_OFFSET v m = Done (u, m') →
  arcs m' = <[page_table v := (reg, S n)]> (arcs m) ∧ ends m' = ends m ∧ cr3 m' = cr3 m ∧
  changes_only (addr reg) (stack_pages (stack v)) (machine m) (machine m').
Proof.
  intros Hwf Ha Hd. unfold Vm.drop in Hd. apply bind_Done in Hd as (r & m1 & Hc & Hd).
  pose proof (proj2 (clean_up_refs _ _ _ _ _ Hc)) as Hp. rewrite Hp in Hd.
  apply (clean_up_step _ _ _ _ _ _ Hwf Ha) in Hc as (t & Ht & [->|[? _]]); [|done].
  unfold Arc_drop, mbind, M_bind, get, unwrap in Hd. simpl in Hd. rewrite Ha in Hd. simpl in Hd.
  by injection Hd as _ <-.
Qed.

(** A process memory whose page table has other users gives back only its own
    stack: the heap end that it shares, every page outside its stack and all
    memory contents stay, and the page table has one user less. *)
Theorem drop_shared v reg n (m : St) u m' :
  stack_wf (stack v) → arcs m !! page_table v = Some (reg, S (S n)) →
  Vm.drop PHYSICAL_OFFSET v m = Done (u, m') →
  arcs m' = <[page_table v := (reg, S n)]> (arcs m) ∧ ends m' = ends m ∧ cr3 m' = cr3 m ∧
  changes_only (addr reg) (stack_pages (stack v)) (machine m) (machine m').
Proof. apply drop_shared_Done. Qed.

(** The code of a process outlives it when a child does.  Only the first process
    records the code pages; if it dies while a forked child still uses the page
    table, the record is lost, and the last drop, the child's, frees the
    level-4 frame but leaves every page outside the two stacks and the heap, so
    all of the code, mapped as it was: those frames are never given back. *)
Theorem code_leaked v c reg e (m m1 m2 : St) u1 u2 :
  page_table c = page_table v → code c = [] → base (heap c) = HEAP_START →
  ends m !! end_ (heap c) = Some e → heap_range e →
  stack_wf (stack v) → stack_wf (stack c) →
  arcs m !! page_table v = Some (reg, 2%nat) →
  Vm.drop PHYSICAL_OFFSET v m = Done (u1, m1) → Vm.drop PHYSICAL_OFFSET c m1 = Done (u2, m2) →
  arcs m2 !! page_table v = None ∧
  ∀ q, q ∉ stack_pages (stack v) → q ∉ stack_pages (stack c) → q ∉ heap_pages e →
    mapping (tables (machine m2)) (addr reg) q = mapping (tables (machine m)) (addr reg) q.
Proof.
  intros Hpt Hcode Hbase He Hr Hwv Hwc Ha Hd1 Hd2.
  destruct (drop_shared_Done _ _ _ _ _ _ Hwv Ha Hd1) as (Ha1 & He1 & _ & _ & Hq1).
  unfold Vm.drop in Hd2. apply bind_Done in Hd2 as (r & m3 & Hc & Hd2).
  rewrite (proj2 (clean_up_refs _ _ _ _ _ Hc)) in Hd2.
  pose proof (proj1 (clean_up_refs _ _ _ _ _ Hc)) as (Ha3 & _).
  assert (Hac : arcs m1 !! page_table c = Some (reg, 1%nat)) by (by rewrite Ha1, Hpt, lookup_insert_eq).
  assert (Hm : arcs m2 = delete (page_table c) (arcs m3) ∧ machine m2 = machine m3).
  { unfold Arc_drop, mbind, M_bind, get, unwrap in Hd2. rewrite Ha3, Hac in Hd2.
    simpl in Hd2. injection Hd2 as _ <-. simpl. by rewrite Ha3. }
  destruct Hm as [Ha2 Hmm]. rewrite Ha2, Hmm, Hpt, lookup_delete_eq. split; [done|].
  intros q Hv Hs Hh.
  apply (clean_up_step _ _ _ _ _ _ Hwc Hac) in Hc as (t & Ht & Hc).
  rewrite <- (Hq1 q Hv), <- (proj2 Ht q Hs).
  destruct Hc as [->|(_ & v' & r' & Hp' & Hh' & Hc' & Hcl)]; [done|].
  apply (clean_up_shared_frame v' _ reg 1 e) in Hcl; [by apply (proj2 Hcl)|..];
    rewrite ?Hc', ?Hh', ?Hp'; simpl; try done. by rewrite He1.
Qed.

End DropFacts.

(** ** Examples *)

Section VmWitnesses.
#[local] Existing Instance release.
#[local] Existing Instance x86_ref.

Definition offset_example : option Z := Some 0x100000.

Definition mem_empty : Mem table :=
  mkMem (mkMachine ∅ (mkAllocator 10 0 [(0, 0x10000); (1, 0x10000)] []) (λ a, a)) ∅ ∅ (mkCr3 0x7000 0).

(** A process and its fork. *)
Definition vm_parent : ProcessVm := mkVm 0 StackOps.empty (mkHeap HEAP_START 0) [] 0.
Definition mem_parent : Mem table :=
  mkMem (machine mem_empty) {[ 0%nat := (mkCr3 0x7000 0, 1%nat) ]} {[ 0%nat := HEAP_START ]} (cr3 mem_empty).
Definition vm_child : ProcessVm :=
  mkVm 0 (mkStack (STACK_INIT_BOT - STACK_MAX_SIZE) (STACK_INIT_BOT - STACK_MAX_SIZE) 0)
    (mkHeap HEAP_START 0) [] 0.
Definition mem_child : Mem table :=
  state_of (Vm.fork offset_example vm_parent 1 mem_parent) mem_parent.

Lemma pool_refcounts_witness :
  PageTableContext.using_count (page_table vm_child) mem_child =
    Done (length (filter (λ w, page_table w = page_table vm_child) [vm_child; vm_parent]), mem_child).
Proof.
  apply (pool_refcounts offset_example mem_empty [vm_child; vm_parent] mem_child vm_child).
  - done.
  - eapply rtc_l; [|eapply rtc_once].
    + apply (pool_new _ [] mem_empty 0 (state_of (PageTableContext.new mem_empty) mem_empty) vm_parent mem_parent);
        vm_compute; reflexivity.
    + apply (pool_fork _ [vm_parent] vm_parent 1 mem_parent vm_child mem_child); [by left|].
      apply value_state. vm_compute. reflexivity.
  - by left.
Defined.

(** A process with a page of code and its fork, each with a one-page stack. *)
Definition vm_owner : ProcessVm := mkVm 0 stack_example (mkHeap HEAP_START 0) [(0x400000, 0x400000)] 4096.
Definition vm_forked : ProcessVm := mkVm 0 forked_child (mkHeap HEAP_START 0) [] 0.
Definition mem_forked : Mem table :=
  mkMem (mkMachine
           (<[ (0x7000, 0x400000) := (0x9000, 5) ]>
            (<[ (0x7000, STACK_INIT_BOT) := (0xa000, 7) ]>
             {[ (0x7000, STACK_INIT_BOT - STACK_MAX_SIZE) := (0xb000, 7) ]}))
           (mkAllocator 10 5 [] []) (λ a, a))
    {[ 0%nat := (mkCr3 0x7000 0, 2%nat) ]} {[ 0%nat := HEAP_START ]} (mkCr3 0x7000 0).
Definition mem_dropped : Mem table :=
  state_of (Vm.drop offset_example vm_owner mem_forked) mem_forked.
Definition mem_both_dropped : Mem table :=
  state_of (Vm.drop offset_example vm_forked mem_dropped) mem_dropped.

Lemma forked_child_wf : stack_wf forked_child.
Proof.
  unfold stack_wf, aligned, forked_child, STACK_INIT_BOT, STACK_MAX, STACK_DEF_SIZE, STACK_DEF_PAGE,
    STACK_MAX_SIZE, STACK_MAX_PAGES, PAGE. simpl. split_and!; done || lia.
Qed.

Lemma drop_shared_witness :
  arcs mem_dropped = <[0%nat := (mkCr3 0x7000 0, 1%nat)]> (arcs mem_forked) ∧
  ends mem_dropped = ends mem_forked ∧ cr3 mem_dropped = cr3 mem_forked ∧
  changes_only table_mapping 0x7000 (stack_pages stack_example) (machine mem_forked) (machine mem_dropped).
Proof.
  apply (drop_shared offset_example table_mapping vm_owner (mkCr3 0x7000 0) 0 mem_forked () mem_dropped).
  - apply stack_example_wf.
  - done.
  - apply value_state. vm_compute. reflexivity.
Defined.

Lemma code_leaked_witness :
  arcs mem_both_dropped !! 0%nat = None ∧
  ∀ q, q ∉ stack_pages stack_example → q ∉ stack_pages forked_child → q ∉ heap_pages HEAP_START →
    table_mapping (tables (machine mem_both_dropped)) 0x7000 q =
    table_mapping (tables (machine mem_forked)) 0x7000 q.
Proof.
  apply (code_leaked offset_example table_mapping vm_owner vm_forked (mkCr3 0x7000 0) HEAP_START
           mem_forked mem_dropped mem_both_dropped () ()).
  - done.
  - done.
  - done.
  - done.
  - unfold heap_range, HEAP_SIZE, HEAP_PAGES, PAGE_SIZE, HEAP_START. lia.
  - apply stack_example_wf.
  - apply forked_child_wf.
  - done.
  - apply value_state. vm_compute. reflexivity.
  - apply value_state. vm_compute. reflexivity.
Defined.

End VmWitnesses.
