(* ===== verification/Tables.v ===== *)
(** Who owns the frames of the page tables, and which tables two address spaces
    share: a second interface to the [x86_64] crate's mapper, beside the
    mappings themselves ([Arch]), with a reference implementation.

    Copying a level-4 table ([copy_table]) copies its entries: from then on the
    two tables share the level-3 tables that were there.  So what one address
    space maps can show in another, and the laws say when it does not. *)
From S2P Require Import Prelude Arch Frames Elf.

(** The frames an allocator has handed out on the way from [a] to [a']. *)
Inductive taken `{FrameAllocator A} : list Z → A → A → Prop :=
  | taken_nil a : taken [] a a
  | taken_cons a o b fs c : allocate_frame a = Done (o, b) → taken fs b c → taken (option_list o ++ fs) a c.

(** The entry of the level-4 table that translates a page: each spans 512 GiB. *)
Definition slot (p : Z) : Z := p / 2 ^ 39.

(** [own pt f]: the frame [f] holds a page table below level 4.  [entry pt r p] is
    the frame of the level-3 table that the level-4 table [r] has for [p].
    [huge pt r p]: an entry for a page larger than 4 KiB translates [p], as those of
    the direct map of physical memory do. *)
Class Mapper_Tables (PT : Type) `{Mapper PT} (mapping : PT → Z → Z → option (Z * Z))
    (own : PT → Z → Prop) (entry : PT → Z → Z → option Z) (huge : PT → Z → Z → Prop) : Prop := {
  entry_slot pt r p q : slot p = slot q → entry pt r p = entry pt r q;
  mapping_entry pt r p : is_Some (mapping pt r p) → is_Some (entry pt r p);
  (** new tables go to new frames; an address space with level-3 tables of its
      own does not notice *)
  map_to_tables {A} `{FrameAllocator A} root p f fl pt (a : A) res pt' a' :
    map_to root p f fl pt a = Done (res, pt', a') → ∃ fs, taken fs a a' ∧
    (NoDup fs → (∀ x, x ∈ fs → x ≠ root ∧ ¬ own pt x) →
     (∀ x, own pt' x ↔ own pt x ∨ x ∈ fs) ∧
     ∀ r q, ¬ own pt r → r ∉ fs →
       (entry pt' r q = entry pt r q ∨
        r = root ∧ slot q = slot p ∧ entry pt r q = None ∧ ∃ t, t ∈ fs ∧ entry pt' r q = Some t) ∧
       (huge pt' r q ↔ huge pt r q) ∧
       (r ≠ root → (∀ t, entry pt r q = Some t → own pt t ∧ entry pt root p ≠ Some t) →
        mapping pt' r q = mapping pt r q));
  unmap_tables root p pt res pt' :
    unmap root p pt = (res, pt') →
    (∀ x, own pt' x ↔ own pt x) ∧
    ∀ r q, ¬ own pt r →
      entry pt' r q = entry pt r q ∧ (huge pt' r q ↔ huge pt r q) ∧
      (r ≠ root → (∀ t, entry pt r q = Some t → own pt t ∧ entry pt root p ≠ Some t) →
       mapping pt' r q = mapping pt r q);
  (** freed tables were in use for [root] and had no used entry *)
  clean_up_tables {A} `{FrameDeallocator A} root pt (a : A) pt' a' :
    mapper_clean_up root pt a = Done (pt', a') → ∃ fs, dealloc_all fs a = Done a' ∧ NoDup fs ∧
    (∀ x, x ∈ fs → own pt x) ∧ (∀ x, own pt' x ↔ own pt x ∧ x ∉ fs) ∧
    ∀ r q, ¬ own pt r →
      (entry pt' r q = entry pt r q ∨ r = root ∧ entry pt' r q = None ∧ ∃ t, t ∈ fs ∧ entry pt r q = Some t) ∧
      (huge pt' r q ↔ huge pt r q) ∧
      (∀ t, entry pt r q = Some t → t ∈ fs → mapping pt r q = None ∧ ¬ huge pt r q) ∧
      (∀ t, entry pt' r q = Some t → t ∈ fs → r ≠ root ∧ ∃ q', entry pt root q' = Some t);
  (** overwriting a frame that holds no table in use *)
  copy_table_tables src dst pt :
    src ≠ dst → ¬ own pt dst → let pt' := copy_table src dst pt in
    (∀ x, own pt' x ↔ own pt x) ∧
    (∀ q, entry pt' dst q = entry pt src q ∧ (huge pt' dst q ↔ huge pt src q) ∧ mapping pt' dst q = mapping pt src q) ∧
    ∀ r q, ¬ own pt r → r ≠ dst → (∀ t, entry pt r q = Some t → own pt t) →
      entry pt' r q = entry pt r q ∧ (huge pt' r q ↔ huge pt r q) ∧ mapping pt' r q = mapping pt r q;
}.

(** * A reference implementation: level-4 tables and what is below each entry *)

Record paged : Type := mkPaged {
  level4 : gmap Z (gmap Z (nat * Z));        (** root, slot: the level-3 table *)
  leaves : gmap ((nat * Z) * Z) (Z * Z);     (** table, page: frame and flags *)
  held : gset Z;                             (** the frames of the tables *)
  large : gset ((nat * Z) * Z);              (** table, number of a page of 2 MiB *)
}.

(** A level-3 table is a frame and a name, so that a frame that is used again is
    another table. *)
Definition level3 (pt : paged) (r p : Z) : option (nat * Z) := level4 pt !! r ≫= λ m, m !! slot p.
Definition paged_entry (pt : paged) (r p : Z) : option Z := snd <$> level3 pt r p.
Definition paged_mapping (pt : paged) (r p : Z) : option (Z * Z) := level3 pt r p ≫= λ t, leaves pt !! (t, p).
Definition paged_own (pt : paged) (x : Z) : Prop := x ∈ held pt.
Definition paged_huge (pt : paged) (r p : Z) : Prop := ∃ t, level3 pt r p = Some t ∧ (t, p / 2 ^ 21) ∈ large pt.

#[export] Instance paged_huge_dec pt r p : Decision (paged_huge pt r p).
Proof.
  unfold paged_huge. destruct (level3 pt r p) as [t|]; [|right; naive_solver].
  destruct (decide ((t, p / 2 ^ 21) ∈ large pt)); [left|right]; naive_solver.
Defined.

(** The names in use. *)
Definition names (pt : paged) : gset nat :=
  list_to_set ((λ kv, kv.1.1.1) <$> map_to_list (leaves pt)) ∪ set_map (λ k, k.1.1) (large pt) ∪
  list_to_set (kv ← map_to_list (level4 pt); (λ x : Z * (nat * Z), x.2.1) <$> map_to_list kv.2).

(** A table that only [root] refers to and that translates nothing. *)
Definition idle (pt : paged) (root f : Z) : Prop :=
  f ∈ held pt ∧ map_Forall (λ r m, map_Forall (λ s x, x.2 = f → r = root) m) (level4 pt) ∧
  map_Forall (λ k _, k.1.2 ≠ f) (leaves pt) ∧ set_Forall (λ k, k.1.2 ≠ f) (large pt).
#[export] Instance idle_dec pt root f : Decision (idle pt root f).
Proof. unfold idle. apply _. Defined.

#[export] Instance paged_mapper : Mapper paged := {|
  map_to A _ root p f fl pt a :=
    match level3 pt root p with
    | Some t =>
        match leaves pt !! (t, p) with
        | Some _ => Done (Err (PageAlreadyMapped f), pt, a)
        | None =>
            if decide ((t, p / 2 ^ 21) ∈ large pt) then Done (Err MapParentEntryHugePage, pt, a)
            else Done (Ok (), mkPaged (level4 pt) (<[(t, p) := (f, fl)]> (leaves pt)) (held pt) (large pt), a)
        end
    | None =>
        match allocate_frame a with
        | Done (Some t, a') =>
            let x := (fresh (names pt), t) in
            Done (Ok (), mkPaged (<[root := <[slot p := x]> (default ∅ (level4 pt !! root))]> (level4 pt))
              (<[(x, p) := (f, fl)]> (leaves pt)) ({[t]} ∪ held pt) (large pt), a')
        | Done (None, a') => Done (Err FrameAllocationFailed, pt, a')
        | Panic => Panic
        | OutOfFuel => OutOfFuel
        end
    end;
  unmap root p pt :=
    match level3 pt root p ≫= λ t, (λ x, (t, x.1)) <$> leaves pt !! (t, p) with
    | Some (t, f) => (Ok f, mkPaged (level4 pt) (delete (t, p) (leaves pt)) (held pt) (large pt))
    | None => (Err (if decide (paged_huge pt root p) then ParentEntryHugePage else PageNotMapped), pt)
    end;
  translate_page root p pt := fst <$> paged_mapping pt root p;
  mapper_clean_up A _ root pt a :=
    let fs := filter (idle pt root) (elements (held pt)) in
    match dealloc_all fs a with
    | Done a' => Done (mkPaged (filter (λ x, ¬ idle pt root x.2.2) <$> level4 pt) (leaves pt) (held pt ∖ list_to_set fs) (large pt), a')
    | Panic => Panic
    | OutOfFuel => OutOfFuel
    end;
  copy_table src dst pt := mkPaged (<[dst := default ∅ (level4 pt !! src)]> (level4 pt)) (leaves pt) (held pt) (large pt);
|}.

Lemma level3_insert l4 lv h g lv' h' root p x r q :
  level3 (mkPaged (<[root := <[slot p := x]> (default ∅ (l4 !! root))]> l4) lv' h' g) r q =
  if decide (r = root ∧ slot q = slot p) then Some x else level3 (mkPaged l4 lv h g) r q.
Proof.
  unfold level3. simpl. destruct (decide (r = root)) as [->|Hr].
  - rewrite lookup_insert_eq. simpl. destruct (decide (slot q = slot p)) as [->|Hs].
    + by rewrite lookup_insert_eq, decide_True.
    + rewrite lookup_insert_ne, decide_False by naive_solver. by destruct (l4 !! root).
  - rewrite lookup_insert_ne, decide_False by naive_solver. done.
Qed.

Lemma level3_copy l4 lv h g src dst r q :
  level3 (mkPaged (<[dst := default ∅ (l4 !! src)]> l4) lv h g) r q =
  level3 (mkPaged l4 lv h g) (if decide (r = dst) then src else r) q.
Proof.
  unfold level3. simpl. destruct (decide (r = dst)) as [->|Hr].
  - rewrite lookup_insert_eq. simpl. by destruct (l4 !! src).
  - by rewrite lookup_insert_ne.
Qed.

Lemma names_level3 pt r p x : level3 pt r p = Some x → x.1 ∈ names pt.
Proof.
  intros (m & Hm & Hx)%bind_Some. unfold names. apply elem_of_union_r, elem_of_list_to_set, list_elem_of_bind.
  exists (r, m). split; [|by apply elem_of_map_to_list].
  apply list_elem_of_fmap. exists (slot p, x). split; [done|]. by apply elem_of_map_to_list.
Qed.

Lemma names_leaves pt x p y : leaves pt !! (x, p) = Some y → x.1 ∈ names pt.
Proof.
  intros Hy. unfold names. apply elem_of_union_l, elem_of_union_l, elem_of_list_to_set, list_elem_of_fmap.
  exists ((x, p), y). split; [done|]. by apply elem_of_map_to_list.
Qed.

Lemma names_large pt x n : (x, n) ∈ large pt → x.1 ∈ names pt.
Proof. intros Hx. unfold names. apply elem_of_union_l, elem_of_union_r, elem_of_map. by exists (x, n). Qed.

Lemma fresh_leaves pt t p : leaves pt !! ((fresh (names pt), t), p) = None.
Proof.
  destruct (leaves pt !! _) eqn:E; [|done]. apply names_leaves in E. by apply is_fresh in E.
Qed.

(** Adding a leaf changes nothing below another table. *)
Lemma insert_leaf_other lv x p y z q : z ≠ x ∨ q ≠ p → <[(x, p) := y]> lv !! (z, q) = (lv : gmap ((nat * Z) * Z) (Z * Z)) !! (z, q).
Proof. intros Hne. apply lookup_insert_ne. intros [= -> ->]. naive_solver. Qed.

#[export] Instance paged_laws : Mapper_Laws paged paged_mapping.
Proof.
  unfold paged_mapping. split; simpl; unfold paged_mapping.
  - intros A ? root p f fl [l4 lv h g] a pt' a' Hm. destruct (level3 _ root p) as [t|] eqn:Et; cbn [leaves] in *.
    + destruct (lv !! (t, p)) as [[]|] eqn:El; [done|]. destruct (decide _); [done|]. injection Hm as <- <-. split_and!.
      * done.
      * change (level3 _ root p) with (level3 (mkPaged l4 lv h g) root p). rewrite Et. simpl. by rewrite lookup_insert_eq.
      * intros q Hq. change (level3 _ root q) with (level3 (mkPaged l4 lv h g) root q) at 1.
        destruct (level3 _ root q) as [z|]; [|done]. simpl. rewrite insert_leaf_other by naive_solver. done.
      * constructor.
    + destruct (allocate_frame a) as [[[t|] a1]| |] eqn:Ea; try done. injection Hm as <- <-. split_and!.
      * done.
      * rewrite (level3_insert _ lv h g), decide_True by done. simpl. by rewrite lookup_insert_eq.
      * intros q Hq. rewrite (level3_insert _ lv h g). destruct (decide _) as [[_ Hs]|Hs].
        -- simpl. rewrite insert_leaf_other by naive_solver.
           rewrite (fresh_leaves (mkPaged l4 lv h g)). unfold level3 in *. rewrite Hs. simpl in *. by rewrite Et.
        -- destruct (level3 _ root q) as [z|] eqn:Ez; [|done]. simpl. rewrite insert_leaf_other; [done|].
           left. intros ->. apply names_level3 in Ez. by apply is_fresh in Ez.
      * eauto using alloc_steps.
  - intros A ? root p f fl [l4 lv h g] a e pt' a' Hm. destruct (level3 _ root p) as [t|] eqn:Et; cbn [leaves] in *.
    + destruct (lv !! (t, p)) as [[]|] eqn:El; [|destruct (decide _); [|done]]; injection Hm as _ <- <-; (split; [done|constructor]).
    + destruct (allocate_frame a) as [[[t|] a1]| |] eqn:Ea; try done. injection Hm as _ <- <-.
      split; [done|]. eauto using alloc_steps.
  - intros A ? root p f fl f' fl' pt a Hm. destruct (level3 pt root p) as [t|]; [|done]. simpl in Hm. by rewrite Hm.
  - intros root p f fl [l4 lv h g] Hm. destruct (level3 _ root p) as [t|] eqn:Et; [|done]. simpl in *. rewrite Hm. simpl.
    eexists. split_and!; [done| |].
    + change (level3 _ root p) with (level3 (mkPaged l4 lv h g) root p). rewrite Et. simpl. by rewrite lookup_delete_eq.
    + intros q Hq. change (level3 _ root q) with (level3 (mkPaged l4 lv h g) root q) at 1.
      destruct (level3 _ root q) as [z|]; [|done]. simpl. rewrite lookup_delete_ne; [done|]. by intros [= _ ->].
  - intros root p e pt pt' Hu q. destruct (level3 pt root p ≫= _) as [[t f]|]; [done|]. by injection Hu as _ <-.
  - intros root p pt Hm. destruct (level3 pt root p) as [t|]; simpl in *; [rewrite Hm|]; eauto.
  - done.
  - intros A ? root pt a pt' a' Hc r q. destruct (dealloc_all _ _) as [a1| |]; try done. injection Hc as <- <-.
    unfold level3. cbn [level4 leaves]. rewrite lookup_fmap. destruct (level4 pt !! r) as [m|]; [|done]. simpl.
    destruct (m !! slot q) as [x|] eqn:Ex.
    + destruct (decide (idle pt root x.2)) as [Hi|Hi].
      * rewrite map_lookup_filter_None_2 by (right; intros y; rewrite Ex; intros [= <-]; naive_solver). simpl.
        destruct (leaves pt !! (x, q)) as [y|] eqn:Ey; [|done]. destruct Hi as (_ & _ & Hl & _).
        by apply (Hl (x, q) y) in Ey.
      * rewrite (map_lookup_filter_Some_2 _ _ _ x) by done. done.
    + by rewrite map_lookup_filter_None_2 by (left; done).
Qed.

Lemma paged_entry_filter pt root r q lv h g :
  level3 (mkPaged (filter (λ x, ¬ idle pt root x.2.2) <$> level4 pt) lv h g) r q =
  level3 pt r q ≫= λ x, if decide (idle pt root x.2) then None else Some x.
Proof.
  unfold level3. cbn [level4]. rewrite lookup_fmap. destruct (level4 pt !! r) as [m|]; [|done]. simpl.
  destruct (m !! slot q) as [x|] eqn:Ex; simpl.
  - destruct (decide (idle pt root x.2)) as [Hi|Hi].
    + apply map_lookup_filter_None_2. right. intros y. rewrite Ex. intros [= <-]. naive_solver.
    + by apply map_lookup_filter_Some_2.
  - by apply map_lookup_filter_None_2; left.
Qed.

#[export] Instance paged_tables : Mapper_Tables paged paged_mapping paged_own paged_entry paged_huge.
Proof.
  unfold paged_mapping, paged_own, paged_entry. split; simpl; unfold paged_mapping, paged_huge.
  - intros pt r p q Hs. unfold level3. by rewrite Hs.
  - intros pt r p [x Hx]. destruct (level3 pt r p); [by eexists|done].
  - intros A ? root p f fl [l4 lv h g] a res pt' a' Hm. destruct (level3 _ root p) as [t|] eqn:Et; cbn [leaves held large] in *.
    + exists []. assert (a' = a ∧ (pt' = mkPaged l4 lv h g ∨ pt' = mkPaged l4 (<[(t, p):=(f, fl)]> lv) h g)) as [-> Hpt].
      { destruct (lv !! (t, p)) as [[]|]; [|destruct (decide _)]; injection Hm as _ <- <-; naive_solver. }
      split; [constructor|]. intros _ _. split; [destruct Hpt as [-> | ->]; set_solver|].
      intros r q _ _. split; [left; by destruct Hpt as [-> | ->]|]. split; [by destruct Hpt as [-> | ->]|].
      intros Hr Hap. destruct Hpt as [-> | ->]; [done|].
      change (level3 _ r q) with (level3 (mkPaged l4 lv h g) r q) at 1. destruct (level3 _ r q) as [z|] eqn:Ez; [|done].
      simpl. rewrite insert_leaf_other; [done|]. left. intros ->. destruct (Hap t.2 eq_refl) as [_ []]. done.
    + destruct (allocate_frame a) as [[[t|] a1]| |] eqn:Ea; try done; injection Hm as _ <- <-; cycle 1.
      { exists []. split; [exact (taken_cons _ _ _ _ _ Ea (taken_nil _))|]. intros _ _. split; [set_solver|].
        intros r q _ _. split; [by left|done]. }
      exists [t]. split; [exact (taken_cons _ _ _ _ _ Ea (taken_nil _))|]. intros _ _. split; [set_solver|].
      intros r q _ _. rewrite !(level3_insert _ lv h g). split; [|split].
      * destruct (decide _) as [[-> Hs]|_]; [right|by left]. split_and!; [done..| |exists t; set_solver].
        unfold level3 in *. rewrite Hs. simpl in *. by rewrite Et.
      * destruct (decide _) as [[-> Hs]|_]; [|done]. cbn [large]. split; intros (x & Hx & Hg).
        -- injection Hx as <-. by apply (names_large (mkPaged l4 lv h g)), is_fresh in Hg.
        -- exfalso. unfold level3 in *. rewrite Hs in Hx. simpl in *. congruence.
      * intros Hr _. rewrite decide_False by naive_solver. destruct (level3 _ r q) as [z|] eqn:Ez; [|done]. simpl.
        rewrite insert_leaf_other; [done|]. left. intros ->. apply names_level3 in Ez. by apply is_fresh in Ez.
  - intros root p [l4 lv h g] res pt' Hu. destruct (level3 _ root p ≫= _) as [[t f]|] eqn:Et; injection Hu as _ <-; [|done].
    split; [done|]. intros r q _. split; [done|]. split; [done|]. intros Hr Hap.
    change (level3 _ r q) with (level3 (mkPaged l4 lv h g) r q) at 1. destruct (level3 _ r q) as [z|] eqn:Ez; [|done].
    simpl. rewrite lookup_delete_ne; [done|]. intros [= -> ->]. apply bind_Some in Et as (t' & Ht' & Ht).
    apply fmap_Some in Ht as (y & _ & [= -> _]). destruct (Hap t'.2 eq_refl) as [_ []]. by rewrite Ht'.
  - intros A ? root pt a pt' a' Hc. destruct (dealloc_all _ _) as [a1| |] eqn:Ed; try done. injection Hc as <- <-.
    eexists. split_and!; [exact Ed| | | |].
    + apply NoDup_filter, NoDup_elements.
    + intros x [_ Hx]%list_elem_of_filter. by apply elem_of_elements in Hx.
    + intros x. cbn [held]. rewrite elem_of_difference, elem_of_list_to_set. done.
    + intros r q _. cbn [large]. rewrite !paged_entry_filter.
      assert (Hin : ∀ y, y ∈ filter (idle pt root) (elements (held pt)) ↔ idle pt root y).
      { intros y. rewrite list_elem_of_filter, elem_of_elements. split; [by intros [? _]|]. intros Hi. split; [done|apply Hi]. }
      destruct (level3 pt r q) as [x|] eqn:Ex; simpl; [|by split_and!; [left|..]].
      destruct (decide (idle pt root x.2)) as [Hi|Hi]; simpl; split_and!.
      * right. split_and!; [|done|exists x.2; by rewrite Hin].
        destruct Hi as (_ & Hr & _). apply bind_Some in Ex as (m & Hm & Hx). by apply (Hr _ _ Hm _ _ Hx).
      * destruct Hi as (_ & _ & _ & Hg). split; [by intros (? & ? & _)|]. intros (y & [= <-] & Hy). by destruct (Hg _ Hy).
      * intros t [= <-] _. destruct Hi as (_ & _ & Hl & Hg). split.
        -- destruct (leaves pt !! (x, q)) as [y|] eqn:Ey; [|done]. by destruct (Hl _ _ Ey).
        -- intros (y & [= <-] & Hy). by destruct (Hg _ Hy).
      * done.
      * by left.
      * done.
      * intros t [= <-] Ht. by apply Hin in Ht.
      * intros t [= <-] Ht. by apply Hin in Ht.
  - intros src dst [l4 lv h g] Hne _. split; [done|]. split.
    + intros q. rewrite !(level3_copy _ lv h g), decide_True by done. done.
    + intros r q _ Hr _. rewrite !(level3_copy _ lv h g), decide_False by done. done.
Qed.

Lemma paged_returns : mapping_returns paged free_list.
Proof.
  split; [by intros [|]; eexists|]. intros root p f fl pt a. unfold map_to. simpl.
  destruct (level3 pt root p) as [t|]; [destruct (leaves pt !! (t, p)) as [[]|]; [|destruct (decide _)]; by eexists|].
  destruct a; by eexists.
Qed.
