(* ===== verification/Owners.v ===== *)
(** Every frame has at most one owner: it is free, holds a page table, or backs one
    user page of one address space.  The invariant of the machine, [iso], and
    that the operations on stacks, heaps and programs keep it. *)
From S2P Require Import Prelude Arch Frames Elf Tables Stack Heap Vm.

(** User space: the level-4 entries between the identity map of the firmware, in
    the first 512 GiB, and the heap that all processes share, which starts where
    the stacks end. *)
Definition LOW : Z := 2 ^ 39.
Definition user_page (p : Z) : Prop := LOW ≤ p < STACK_MAX.

Lemma user_page_slot p q : slot q = slot p → user_page p → user_page q.
Proof. unfold user_page, slot, LOW, STACK_MAX. intros Hs Hp. Z.div_mod_to_equations. lia. Qed.

#[export] Instance user_page_dec p : Decision (user_page p).
Proof. unfold user_page. apply _. Defined.

(** The frames that can still be handed out. *)
Definition free `{X86_64} (a : BootInfoFrameAllocator) : list Z :=
  recycle a ++ (FrameAlloc.frame_at <$> frames a).
Definition valid_frames (a : BootInfoFrameAllocator) : Prop :=
  Forall (λ vp : Z * Z, 0 ≤ vp.1 * 4096 + vp.2 < 2 ^ 52) (frames a).

Section Alloc.
Context `{Profile} `{!X86_64} `{!X86_64_Laws _}.

Lemma allocate_free (a : BootInfoFrameAllocator) o a' :
  valid_frames a → allocate_frame a = Done (o, a') → valid_frames a' ∧ free a = option_list o ++ free a'.
Proof.
  intros Hv Ha. apply FrameAlloc.allocate_frame_Done in Ha as [[l Hl] Hf]; [|done].
  split; [|exact Hf]. unfold valid_frames in *. rewrite Hl in Hv. by apply Forall_app in Hv as [_ ?].
Qed.

Lemma taken_free fs (a a' : BootInfoFrameAllocator) :
  taken fs a a' → valid_frames a → valid_frames a' ∧ free a = fs ++ free a'.
Proof.
  induction 1 as [a|a o b fs c Ha _ IH]; intros Hv; [done|].
  destruct (allocate_free _ _ _ Hv Ha) as [Hv' ->]. destruct (IH Hv') as [? ->]. by rewrite <- (assoc_L (++)).
Qed.

Lemma deallocate_free f (a a' : BootInfoFrameAllocator) :
  deallocate_frame f a = Done a' → free a' = f :: free a ∧ frames a' = frames a.
Proof.
  unfold deallocate_frame, FrameAlloc.frame_deallocator.
  destruct (FrameAlloc.deallocate_frame f a) as [[u s]| |] eqn:E; [|done..]. intros [= ->].
  apply FrameAlloc.deallocate_frame_Done in E as [Hr Hf]. unfold free. by rewrite Hr, Hf.
Qed.

Lemma dealloc_all_free fs (a a' : BootInfoFrameAllocator) :
  dealloc_all fs a = Done a' → free a' = reverse fs ++ free a ∧ frames a' = frames a.
Proof.
  revert a. induction fs as [|f fs IH]; intros a Hd; simpl in Hd; [by injection Hd as ->|].
  destruct (deallocate_frame f a) as [a1| |] eqn:E; [|done..]. apply deallocate_free in E as [E1 E2].
  apply IH in Hd as [-> ->]. by rewrite E1, E2, reverse_cons, <- (assoc_L (++)).
Qed.

End Alloc.

Section Owners.
Context `{Profile} `{!X86_64} `{!X86_64_Laws _} {PT : Type} `{!Mapper PT}.
Context (mapping : PT → Z → Z → option (Z * Z)) `{!Mapper_Laws PT mapping}.
Context (own : PT → Z → Prop) (entry : PT → Z → Z → option Z) (huge : PT → Z → Z → Prop)
  `{!Mapper_Tables PT mapping own entry huge}.
(** The kernel's level-4 table, and the level-3 tables it has outside of user space:
    every address space has the same ones. *)
Context (kroot : Z) (shared : Z → option Z).
(** Address spaces that are watched: the mappings and the memory they had. *)
Context (W : Z → Prop) (off : Z) (old : Z → Z → option (Z * Z)) (old_mem : Z → Z).
#[local] Abbreviation St := (Machine PT BootInfoFrameAllocator).

(** A frame; where it is written to, when that is watched. *)
Definition good (x : Z) : Prop := aligned x ∧ ((∃ w, W w) → 0 ≤ x + off ∧ x + off + PAGE ≤ 2 ^ 64).
Definition inside (x : Z * Z) (a : Z) : Prop := x.1 + off ≤ a < x.1 + off + PAGE.

(** [R] holds of the level-4 tables in use. *)
Record iso (R : Z → Prop) (s : St) : Prop := {
  iso_valid : valid_frames (falloc s);
  iso_nodup : NoDup (free (falloc s));
  iso_aligned x : x ∈ free (falloc s) → good x;
  iso_own x : own (tables s) x → good x ∧ x ∉ free (falloc s);
  iso_kroot : R kroot;
  iso_root r : R r → good r ∧ r ∉ free (falloc s) ∧ ¬ own (tables s) r;
  iso_frame r p x : R r → user_page p → mapping (tables s) r p = Some x →
    good x.1 ∧ x.1 ∉ free (falloc s) ∧ ¬ own (tables s) x.1 ∧ ¬ R x.1;
  iso_once r p x r' p' y : R r → R r' → user_page p → user_page p' →
    mapping (tables s) r p = Some x → mapping (tables s) r' p' = Some y → x.1 = y.1 → r = r' ∧ p = p';
  iso_entry r p t : R r → entry (tables s) r p = Some t → own (tables s) t;
  iso_apart r p r' q t : R r → R r' → r ≠ r' → user_page p →
    entry (tables s) r p = Some t → entry (tables s) r' q ≠ Some t;
  iso_kernel p : user_page p → entry (tables s) kroot p = None;
  iso_shared r q : R r → ¬ user_page q → entry (tables s) r q = shared q;
  iso_used q t : ¬ user_page q → shared q = Some t →
    ∃ q', ¬ user_page q' ∧ shared q' = Some t ∧ (is_Some (mapping (tables s) kroot q') ∨ huge (tables s) kroot q');
  iso_watched r p : R r → W r → user_page p → mapping (tables s) r p = old r p;
  iso_memory r p x a : R r → W r → user_page p → mapping (tables s) r p = Some x → inside x a →
    Elf.mem s a = old_mem a;
}.

(** The address space that an operation changes is not watched. *)
Definition acting (R : Z → Prop) (r : Z) : Prop := R r ∧ ¬ W r.
(** Some address space in use is. *)
Definition watching (R : Z → Prop) : Prop := ∃ r, R r ∧ W r.

Lemma watching_some R : watching R → ∃ w, W w.
Proof. intros (r & _ & Hr). by exists r. Qed.

(** A frame that nobody has: it has just been allocated, or unmapped. *)
Definition in_hand (R : Z → Prop) (s : St) (f : Z) : Prop :=
  good f ∧ f ∉ free (falloc s) ∧ ¬ own (tables s) f ∧ ¬ R f ∧
  ∀ r p x, R r → user_page p → mapping (tables s) r p = Some x → x.1 ≠ f.

(** Pages that [root] may map without others noticing. *)
Definition mappable (root p : Z) : Prop :=
  if decide (user_page p) then root ≠ kroot else root = kroot ∧ is_Some (shared p).

Lemma iso_mem R (s s' : St) :
  tables s' = tables s → falloc s' = falloc s →
  (∀ r p x a, R r → W r → user_page p → mapping (tables s) r p = Some x → inside x a → Elf.mem s' a = Elf.mem s a) →
  iso R s → iso R s'.
Proof.
  intros Ht Ha Hm []. split; rewrite ?Ht, ?Ha; auto.
  intros r p x a Hr Hw Hp Hx Hin. rewrite (Hm r p x a) by done. by eapply iso_memory0.
Qed.

Lemma in_hand_mem R (s s' : St) f : tables s' = tables s → falloc s' = falloc s → in_hand R s f → in_hand R s' f.
Proof. intros Ht Ha. unfold in_hand. by rewrite Ht, Ha. Qed.

Lemma iso_ext R R' (s : St) : (∀ r, R r ↔ R' r) → iso R s → iso R' s.
Proof. intros HR []. split; try setoid_rewrite <- HR; auto. Qed.

Lemma iso_weaken R R' (s : St) : (∀ r, R' r → R r) → R' kroot → iso R s → iso R' s.
Proof.
  intros HR Hk Hi. pose proof Hi as []. split; try done; eauto 3.
  - intros r p x Hr Hp Hm. destruct (iso_frame _ _ Hi r p x (HR _ Hr) Hp Hm) as (? & ? & ? & ?). naive_solver.
  - intros r p x r' p' y Hr Hr'. by apply (iso_once _ _ Hi); apply HR.
  - intros r p r' q t Hr Hr'. by apply (iso_apart _ _ Hi); apply HR.
Qed.

(** The tables of another address space are not those for [p] in [root]. *)
Lemma iso_others R (s : St) root r p q :
  iso R s → R root → R r → r ≠ root → user_page p ∨ user_page q →
  ∀ t, entry (tables s) r q = Some t → own (tables s) t ∧ entry (tables s) root p ≠ Some t.
Proof.
  intros Hi Hroot Hr Hne Hu t Ht. split; [by eapply iso_entry|]. intros Hp.
  destruct Hu; [by apply (iso_apart _ _ Hi root p r q t)|by apply (iso_apart _ _ Hi r q root p t)].
Qed.

(** ** Single operations *)

Lemma alloc_frame_iso R (s : St) o s' :
  iso R s → alloc_frame s = Done (o, s') → iso R s' ∧ tables s' = tables s ∧ ∀ f, o = Some f → in_hand R s' f.
Proof.
  intros Hi Ha. unfold alloc_frame in Ha. destruct (allocate_frame (falloc s)) as [[o' a]| |] eqn:E; [|done..].
  injection Ha as <- <-. pose proof Hi as [Hv Hn Hal Hown Hk Hroot Hfr Ho He Hap Hker Hsh Hus Hwt Hwm].
  destruct (allocate_free _ _ _ Hv E) as [Hv' Hf]. rewrite Hf in *.
  assert (Hsub : ∀ x, x ∉ option_list o' ++ free a → x ∉ free a) by set_solver.
  split; [split; simpl; auto|split; [done|]].
  - by apply NoDup_app in Hn as (_ & _ & ?).
  - intros x Hx. apply Hal. set_solver.
  - intros x Hx. destruct (Hown x Hx). auto.
  - intros r Hr. destruct (Hroot r Hr) as (? & ? & ?). auto.
  - intros r p x Hr Hp Hx. destruct (Hfr r p x Hr Hp Hx) as (? & ? & ? & ?). auto.
  - intros f ->. simpl in *. apply NoDup_cons in Hn as [Hnf Hn]. split_and!; simpl.
    + apply Hal. set_solver.
    + done.
    + intros Hx. destruct (Hown f Hx). set_solver.
    + intros Hr. destruct (Hroot f Hr). set_solver.
    + intros r p x Hr Hp Hx Heq. destruct (Hfr r p x Hr Hp Hx) as (_ & Hnf' & _). rewrite Heq in Hnf'. set_solver.
Qed.

(** What mapping a page does to an address space in use. *)
Lemma map_to_effect R (s : St) root p f fl res pt a :
  iso R s → R root → mappable root p → map_to root p f fl (tables s) (falloc s) = Done (res, pt, a) →
  ∃ fs, valid_frames a ∧ free (falloc s) = fs ++ free a ∧ (∀ x, own pt x ↔ own (tables s) x ∨ x ∈ fs) ∧
    (∀ r q, R r → user_page q →
      mapping pt r q = mapping (tables s) r q ∨ r = root ∧ q = p ∧ mapping pt r q = Some (f, fl)) ∧
    (∀ r q, R r → entry pt r q = entry (tables s) r q ∨
      r = root ∧ slot q = slot p ∧ user_page p ∧ ∃ t, t ∈ fs ∧ entry pt r q = Some t) ∧
    (∀ q, ¬ user_page q → is_Some (mapping (tables s) kroot q) → is_Some (mapping pt kroot q)) ∧
    ∀ q, huge (tables s) kroot q → huge pt kroot q.
Proof.
  intros Hi Hroot Hmp E. destruct (map_to_tables (mapping := mapping) _ _ _ _ _ _ _ _ _ E) as (fs & Hfs & Ht).
  destruct (taken_free _ _ _ Hfs (iso_valid _ _ Hi)) as [Hv' Hf]. exists fs.
  pose proof (iso_nodup _ _ Hi) as Hn. rewrite Hf in Hn. apply NoDup_app in Hn as (Hnfs & _ & _).
  assert (Hfree : ∀ x, x ∈ fs → x ∈ free (falloc s)) by (intros x; rewrite Hf; set_solver).
  destruct Ht as [Hown Hrest]; [done| |].
  { intros x Hx%Hfree. split; [intros ->; by destruct (iso_root _ _ Hi root Hroot) as (_ & ? & _)|intros Ho; by destruct (iso_own _ _ Hi x Ho)]. }
  assert (Hlive : ∀ r, R r → ¬ own (tables s) r ∧ r ∉ fs).
  { intros r Hr. destruct (iso_root _ _ Hi r Hr) as (_ & Hnf & Hno). split; [done|]. by intros Hx%Hfree. }
  assert (Hsame : ∀ q, (mapping pt root q = mapping (tables s) root q) ∨ q = p ∧ mapping pt root q = Some (f, fl)).
  { intros q. destruct res as [[]|e].
    - apply map_to_ok in E as (_ & Hy & Hoth & _). destruct (decide (q = p)) as [->|Hqp]; [by right|left; by apply Hoth].
    - apply map_to_err in E as (Hoth & _). by left. }
  split_and!; [done..| | | |].
  - intros r q Hr Hq. destruct (decide (r = root)) as [->|Hne]; [destruct (Hsame q) as [|[]]; [by left|by right]|left].
    destruct (Hrest r q) as (_ & _ & Hx); [by apply Hlive..|]. apply Hx; [done|]. apply (iso_others R); try done. by right.
  - intros r q Hr. destruct (Hrest r q) as [[Hx|(-> & Hs & Hno & t & Ht & Hx)] _]; [by apply Hlive..|by left|right].
    split_and!; [done|done| |eauto]. destruct (decide (user_page p)) as [|Hnu]; [done|].
    unfold mappable in Hmp. rewrite decide_False in Hmp by done.
    rewrite (entry_slot (mapping := mapping) _ _ _ p Hs), (iso_shared _ _ Hi) in Hno by done.
    rewrite Hno in Hmp. by destruct Hmp as [_ []].
  - intros q Hq Hm. destruct (decide (kroot = root)) as [Heq|Hne].
    + rewrite Heq in *. destruct (Hsame q) as [->|[_ ->]]; [done|by eexists].
    + unfold mappable in Hmp. destruct (decide (user_page p)) as [Hp|]; [|by destruct Hmp as [-> _]].
      destruct (Hrest kroot q) as (_ & _ & Hx); [by apply Hlive, (iso_kroot _ _ Hi)..|].
      rewrite Hx; [done|done|]. apply (iso_others R); [done..|by apply (iso_kroot _ _ Hi)|done|by left].
  - intros q Hq. apply (Hrest kroot q); [by apply Hlive, (iso_kroot _ _ Hi)..|done].
Qed.

Lemma page_map_to_iso R (s : St) root p f fl res s' :
  iso R s → in_hand R s f → acting R root → mappable root p → page_map_to root p f fl s = Done (res, s') → iso R s'.
Proof.
  intros Hi (Hfa & Hff & Hfo & HfR & Hfm) [Hroot HnW] Hmp Hm. unfold page_map_to in Hm.
  destruct (map_to root p f fl (tables s) (falloc s)) as [[[res' pt] a]| |] eqn:E; [|done..]. injection Hm as <- <-.
  destruct (map_to_effect _ _ _ _ _ _ _ _ _ Hi Hroot Hmp E) as (fs & Hv' & Hf & Hown' & Hmap & Hent & Hkmap & Hkhuge).
  pose proof Hi as [Hv Hn Hal Hown Hk Hrt Hfr Ho He Hap Hker Hsh Hus Hwt Hwm]. clear E. rewrite Hf in *.
  apply NoDup_app in Hn as (Hnfs & Hdis & Hna).
  assert (Hsub : ∀ x, x ∉ fs ++ free a → x ∉ free a) by (intros x Hx Hx'; apply Hx, elem_of_app; by right).
  assert (Hin : ∀ x, x ∈ fs → x ∈ fs ++ free a) by (intros x Hx; apply elem_of_app; by left).
  assert (Hnew : ∀ x, ¬ own (tables s) x → x ∉ fs ++ free a → ¬ own pt x) by (intros x ? Hx [?|Hx']%Hown'; auto).
  split; simpl; try done.
  - intros x Hx. apply Hal, elem_of_app. by right.
  - intros x [Hx|Hx]%Hown'; [destruct (Hown x Hx); auto|split; [by apply Hal, Hin|by apply Hdis]].
  - intros r Hr. destruct (Hrt r Hr) as (? & ? & ?). auto.
  - intros r q x Hr Hq Hx. destruct (Hmap r q Hr Hq) as [Heq|(-> & -> & Heq)]; rewrite Heq in Hx.
    + destruct (Hfr r q x Hr Hq Hx) as (? & ? & ? & ?). auto.
    + injection Hx as <-. simpl. auto.
  - intros r q x r' q' y Hr Hr' Hq Hq' Hx Hy Hxy.
    destruct (Hmap r q Hr Hq) as [Heq|(-> & -> & Heq)], (Hmap r' q' Hr' Hq') as [Heq'|(-> & -> & Heq')];
      rewrite Heq in Hx; rewrite Heq' in Hy.
    + by apply (Ho r q x r' q' y).
    + injection Hy as <-. by destruct (Hfm r q x).
    + injection Hx as <-. by destruct (Hfm r' q' y).
    + done.
  - intros r q t Hr Hx. rewrite Hown'. destruct (Hent r q Hr) as [Heq|(_ & _ & _ & t' & Ht' & Heq)]; rewrite Heq in Hx.
    + left. by eapply He.
    + injection Hx as <-. by right.
  - intros r q r' q' t Hr Hr' Hne Hq Hx Hy.
    destruct (Hent r q Hr) as [Heq|(-> & _ & _ & t1 & Ht1 & Heq)], (Hent r' q' Hr') as [Heq'|(-> & _ & _ & t2 & Ht2 & Heq')];
      rewrite Heq in Hx; rewrite Heq' in Hy; simplify_eq.
    + by apply (Hap r q r' q' t).
    + apply He in Hx; [|done]. apply Hown in Hx as [_ Hx]. auto.
    + apply He in Hy; [|done]. apply Hown in Hy as [_ Hy]. auto.
  - intros q Hq. destruct (Hent kroot q Hk) as [->|(-> & Hs & Hp & _)]; [by apply Hker|].
    unfold mappable in Hmp. by rewrite decide_True in Hmp.
  - intros r q Hr Hq. destruct (Hent r q Hr) as [->|(-> & Hs & Hp & _)]; [by apply Hsh|].
    destruct Hq. by eapply user_page_slot.
  - intros q t Hq Ht. destruct (Hus q t Hq Ht) as (q' & Hq' & Ht' & [Hm|Hm]); exists q'; auto.
  - intros r q Hr Hw Hq. destruct (Hmap r q Hr Hq) as [->|(-> & _)]; [by apply Hwt|done].
  - intros r q x b Hr Hw Hq Hx. destruct (Hmap r q Hr Hq) as [Heq|(-> & _)]; [rewrite Heq in Hx; by eapply Hwm|done].
Qed.

(** Unmapping hands the frame over. *)
Lemma page_unmap_iso R (s : St) root p res s' :
  iso R s → acting R root → user_page p → page_unmap root p s = Done (res, s') →
  iso R s' ∧ ∀ f, res = Ok f → in_hand R s' f.
Proof.
  intros Hi [Hroot HnW] Hp Hu. unfold page_unmap in Hu. destruct (unmap root p (tables s)) as [res' pt] eqn:E. injection Hu as <- <-.
  pose proof Hi as [Hv Hn Hal Hown Hk Hrt Hfr Ho He Hap Hker Hsh Hus Hwt Hwm].
  destruct (unmap_tables (mapping := mapping) _ _ _ _ _ E) as [Hown' Hrest].
  assert (Hent : ∀ r q, R r → entry pt r q = entry (tables s) r q).
  { intros r q Hr. apply Hrest. by apply Hrt. }
  assert (Hoth : ∀ r q, R r → r ≠ root → mapping pt r q = mapping (tables s) r q).
  { intros r q Hr Hne. apply Hrest; [by apply Hrt|done|]. apply (iso_others R); try done. by left. }
  assert (Hmap : (∀ q, q ≠ p → mapping pt root q = mapping (tables s) root q) ∧
    match res' with
    | Ok f => ∃ fl, mapping (tables s) root p = Some (f, fl) ∧ mapping pt root p = None
    | Err _ => mapping pt root p = mapping (tables s) root p
    end).
  { destruct (mapping (tables s) root p) as [[f fl]|] eqn:Em.
    - destruct (unmap_mapped root p f fl _ Em) as (pt1 & Eu & Hno & Hq). rewrite Eu in E. injection E as <- <-. eauto.
    - destruct (unmap_not_mapped root p _ Em) as [e Eu]. rewrite Eu in E. by injection E as <- <-. }
  destruct Hmap as [Hq Hres].
  assert (Hsub : ∀ r q x, R r → mapping pt r q = Some x → mapping (tables s) r q = Some x ∧
    (∀ f, res' = Ok f → r = root → q ≠ p)).
  { intros r q x Hr Hx. destruct (decide (r = root)) as [->|Hne]; [|split; [by rewrite <- Hoth|done]].
    destruct (decide (q = p)) as [->|Hqp]; [|split; [by rewrite <- Hq|done]].
    destruct res' as [f|e]; [destruct Hres as (? & _ & Hx'); congruence|]. split; [congruence|done]. }
  split; [split; simpl; try done|].
  - intros x Hx%Hown'. by apply Hown.
  - intros r Hr. rewrite Hown'. by apply Hrt.
  - intros r q x Hr Hq' Hx. rewrite Hown'. apply Hsub in Hx as [Hx _]; [|done]. by eapply Hfr.
  - intros r q x r' q' y Hr Hr' Hu1 Hu2 Hx Hy. apply Hsub in Hx as [Hx _]; [|done]. apply Hsub in Hy as [Hy _]; [|done].
    by apply (Ho r q x r' q' y).
  - intros r q t Hr. rewrite Hown', Hent by done. by apply He.
  - intros r q r' q' t Hr Hr' Hne Hu1. rewrite !Hent by done. by apply Hap.
  - intros q Hu1. rewrite Hent by done. by apply Hker.
  - intros r q Hr Hu1. rewrite Hent by done. by apply Hsh.
  - intros q t Hu1 Ht. destruct (Hus q t Hu1 Ht) as (q' & Hu2 & Ht' & [Hm|Hm]); exists q'; (split_and!; [done..|]); [left|right; by apply Hrest; [apply Hrt|]].
    destruct (decide (kroot = root)) as [Heq|Hne]; [|by rewrite Hoth].
    rewrite Heq in *. rewrite Hq; [done|]. by intros ->.
  - intros r q Hr Hw Hu1. rewrite Hoth; [by apply Hwt|done|]. by intros ->.
  - intros r q x a Hr Hw Hu1 Hx. apply Hsub in Hx as [Hx _]; [|done]. by eapply Hwm.
  - intros f ->. destruct Hres as (fl & Hm & Hno). destruct (Hfr root p (f, fl) Hroot Hp Hm) as (Ha & Hf & Hno' & HnR).
    split_and!; simpl; [done..|by rewrite Hown'|done|].
    intros r q x Hr Hu1 Hx Heq. apply Hsub in Hx as [Hx Hne]; [|done].
    destruct (Ho r q x root p (f, fl) Hr Hroot Hu1 Hp Hx Hm Heq) as [-> ->]. by apply (Hne f).
Qed.

Lemma dealloc_frame_iso R (s : St) f u s' : iso R s → in_hand R s f → dealloc_frame f s = Done (u, s') → iso R s'.
Proof.
  intros Hi (Hfa & Hff & Hfo & HfR & Hfm) Hd. unfold dealloc_frame in Hd.
  destruct (deallocate_frame f (falloc s)) as [a| |] eqn:E; [|done..]. injection Hd as _ <-.
  apply deallocate_free in E as [E Ef]. pose proof Hi as [Hv Hn Hal Hown Hk Hrt Hfr Ho He Hap Hker Hsh Hus Hwt Hwm].
  split; simpl; try done; rewrite ?E; try setoid_rewrite not_elem_of_cons.
  - unfold valid_frames. by rewrite Ef.
  - by apply NoDup_cons.
  - intros x [->|Hx]%elem_of_cons; auto.
  - intros x Hx. destruct (Hown x Hx). split_and!; [done| |done]. by intros ->.
  - intros r Hr. destruct (Hrt r Hr) as (? & ? & ?). split_and!; [done| |done..]. by intros ->.
  - intros r p x Hr Hp Hx. destruct (Hfr r p x Hr Hp Hx) as (? & ? & ? & ?). split_and!; [done| |done..]. by eapply Hfm.
Qed.

(** Tables that are given back were in use for [root] alone: those that all share
    have entries. *)
Lemma clean_up_tables_iso R (s : St) root u s' :
  iso R s → acting R root → Vm.clean_up_tables root s = Done (u, s') → iso R s'.
Proof.
  intros Hi [Hroot _] Hc. unfold Vm.clean_up_tables in Hc.
  destruct (mapper_clean_up root (tables s) (falloc s)) as [[pt a]| |] eqn:E; [|done..]. injection Hc as _ <-.
  pose proof Hi as [Hv Hn Hal Hown Hk Hrt Hfr Ho He Hap Hker Hsh Hus Hwt Hwm].
  pose proof (mapper_clean_up_mapping (mapping := mapping) _ _ _ _ _ E) as Hmap.
  destruct (clean_up_tables (mapping := mapping) _ _ _ _ _ E) as (fs & Hd & Hnfs & Hfs & Hown' & Hrest).
  apply dealloc_all_free in Hd as [Hf Hfr'].
  assert (Hlive : ∀ r, R r → ¬ own (tables s) r) by (intros r Hr; by apply Hrt).
  assert (Hrev : ∀ x, x ∈ reverse fs → x ∈ fs) by (intros x; by rewrite elem_of_reverse).
  assert (Hnot : ∀ x, x ∉ free (falloc s) → ¬ own (tables s) x → x ∉ reverse fs ++ free (falloc s)).
  { intros x Hx Ho' [Hx'%Hrev|?]%elem_of_app; [|done]. by apply Ho', Hfs. }
  assert (Hfix : ∀ q t, ¬ user_page q → shared q = Some t → t ∉ fs).
  { intros q t Hq Ht Htf. destruct (Hus q t Hq Ht) as (q' & Hq' & Ht' & Hm).
    destruct (Hrest kroot q' (Hlive _ Hk)) as (_ & _ & Hno & _). rewrite Hsh in Hno by done.
    destruct (Hno t) as [Hnm Hnh]; [done..|]. destruct Hm as [Hm|Hm]; [rewrite Hnm in Hm; by destruct Hm|done]. }
  assert (Hent : ∀ r q t, R r → entry pt r q = Some t → entry (tables s) r q = Some t ∧ t ∉ fs).
  { intros r q t Hr Ht. destruct (Hrest r q (Hlive _ Hr)) as (He' & _ & _ & Hg).
    assert (Hx : entry (tables s) r q = Some t) by (destruct He' as [<-|(_ & Hno & _)]; [done|congruence]). split; [done|].
    intros Htf. destruct (Hg t Ht Htf) as (Hne & q' & Hq'). destruct (decide (user_page q)) as [Hu|Hu].
    - by apply (Hap r q root q' t).
    - rewrite Hsh in Hx by done. by apply (Hfix q t). }
  split; simpl; try done; rewrite ?Hf; try setoid_rewrite Hmap; try done.
  - unfold valid_frames. by rewrite Hfr'.
  - apply NoDup_app. split_and!; [by rewrite reverse_Permutation| |done]. intros x Hx%Hrev. by destruct (Hown x (Hfs x Hx)).
  - intros x [Hx%Hrev|Hx]%elem_of_app; [apply Hown; by apply Hfs|by apply Hal].
  - intros x [Hx Hxf]%Hown'. destruct (Hown x Hx). split; [done|].
    intros [Hx'%Hrev|?]%elem_of_app; done.
  - intros r Hr. destruct (Hrt r Hr) as (? & ? & ?). split_and!; [done|by apply Hnot|]. rewrite Hown'. naive_solver.
  - intros r p x Hr Hp Hx. destruct (Hfr r p x Hr Hp Hx) as (? & ? & ? & ?).
    split_and!; [done|by apply Hnot| |done]. rewrite Hown'. naive_solver.
  - intros r q t Hr Ht. destruct (Hent r q t Hr Ht) as [Hx Hnf]. rewrite Hown'. split; [by eapply He|done].
  - intros r p r' q t Hr Hr' Hne Hp Ht Ht'. destruct (Hent _ _ _ Hr Ht) as [Hx _], (Hent _ _ _ Hr' Ht') as [Hx' _].
    by apply (Hap r p r' q t).
  - intros q Hq. destruct (entry pt kroot q) as [t|] eqn:Et; [|done]. apply Hent in Et as [Hx _]; [|done]. by rewrite Hker in Hx.
  - intros r q Hr Hq. destruct (Hrest r q (Hlive _ Hr)) as [[->|(_ & _ & t & Htf & Ht)] _]; [by apply Hsh|].
    rewrite Hsh in Ht by done. by destruct (Hfix q t).
  - intros q t Hq Ht. destruct (Hus q t Hq Ht) as (q' & Hq' & Ht' & [Hm|Hm]); exists q'; (split_and!; [done..|]); [left; by rewrite ?Hmap|right].
    by apply Hrest; [apply Hlive|].
Qed.

(** A new address space. *)
Lemma copy_table_iso R (s : St) f :
  iso R s → in_hand R s f → ¬ W f →
  iso (λ r, R r ∨ r = f) (mkMachine (copy_table kroot f (tables s)) (falloc s) (mem s)).
Proof.
  intros Hi (Hfa & Hff & Hfo & HfR & Hfm) HnW. pose proof Hi as [Hv Hn Hal Hown Hk Hrt Hfr Ho He Hap Hker Hsh Hus Hwt Hwm].
  assert (Hkf : kroot ≠ f) by (by intros <-).
  destruct (copy_table_tables (mapping := mapping) kroot f (tables s) Hkf Hfo) as (Hown' & Hnew & Hold).
  set (pt := copy_table kroot f (tables s)) in *.
  assert (Hkeep : ∀ r q, R r → entry pt r q = entry (tables s) r q ∧ mapping pt r q = mapping (tables s) r q).
  { intros r q Hr. destruct (Hold r q) as (? & _ & ?); [by apply Hrt|by intros ->| |done]. intros t Ht. by eapply He. }
  assert (Hnone : ∀ p, user_page p → mapping pt f p = None).
  { intros p Hp. destruct (Hnew p) as (_ & _ & ->). destruct (mapping (tables s) kroot p) eqn:E; [|done].
    destruct (mapping_entry (mapping := mapping) (tables s) kroot p) as [t Ht]; [by rewrite E|]. by rewrite Hker in Ht. }
  split; simpl; try done; try setoid_rewrite Hown'; try done.
  - by left.
  - intros r [Hr| ->]; [by apply Hrt|done].
  - intros r p x [Hr| ->] Hp Hx; [|by rewrite Hnone in Hx]. rewrite (proj2 (Hkeep r p Hr)) in Hx.
    destruct (Hfr r p x Hr Hp Hx) as (? & ? & ? & ?). split_and!; [done..|]. intros [?|Heq]; [done|]. by apply (Hfm r p x).
  - intros r p x r' p' y [Hr| ->] [Hr'| ->] Hp Hp' Hx Hy;
      try (rewrite Hnone in Hx by done; done); try (rewrite Hnone in Hy by done; done).
    rewrite (proj2 (Hkeep r p Hr)) in Hx. rewrite (proj2 (Hkeep r' p' Hr')) in Hy. by apply (Ho r p x r' p' y).
  - intros r p t [Hr| ->] Ht; [rewrite (proj1 (Hkeep r p Hr)) in Ht; by eapply He|].
    rewrite (proj1 (Hnew p)) in Ht. by eapply He.
  - intros r p r' q t [Hr| ->] Hr' Hne Hp Ht; [|by rewrite (proj1 (Hnew p)), Hker in Ht].
    rewrite (proj1 (Hkeep r p Hr)) in Ht. destruct Hr' as [Hr'| ->].
    + rewrite (proj1 (Hkeep r' q Hr')). by apply (Hap r p r' q).
    + rewrite (proj1 (Hnew q)). destruct (decide (r = kroot)) as [->|Hrk]; [by rewrite Hker in Ht|by apply (Hap r p kroot q)].
  - intros p Hp. rewrite (proj1 (Hkeep kroot p Hk)). by apply Hker.
  - intros r q [Hr| ->] Hq; [rewrite (proj1 (Hkeep r q Hr)); by apply Hsh|]. rewrite (proj1 (Hnew q)). by apply Hsh.
  - intros q t Hq Ht. destruct (Hus q t Hq Ht) as (q' & Hq' & Ht' & [Hm|Hm]); exists q'; (split_and!; [done..|]).
    + left. by rewrite (proj2 (Hkeep kroot q' Hk)).
    + right. apply Hold; [by apply Hrt|done| |done]. intros x Hx. by eapply He.
  - intros r p [Hr| ->] Hw Hp; [|done]. rewrite (proj2 (Hkeep r p Hr)). by apply Hwt.
  - intros r p x a [Hr| ->] Hw Hp Hx; [|done]. rewrite (proj2 (Hkeep r p Hr)) in Hx. by eapply Hwm.
Qed.

(** The end of one: its level-4 table is free again. *)
Lemma dealloc_root_iso R (s : St) root u s' :
  iso R s → R root → root ≠ kroot → dealloc_frame root s = Done (u, s') → iso (λ r, R r ∧ r ≠ root) s'.
Proof.
  intros Hi Hroot Hne Hd. eapply dealloc_frame_iso, Hd.
  - eapply iso_weaken; [|split; [apply (iso_kroot _ _ Hi)|done]|exact Hi]. by intros r [? _].
  - destruct (iso_root _ _ Hi root Hroot) as (? & ? & ?). split_and!; [done..|naive_solver|].
    intros r p x [Hr _] Hp Hx Heq. destruct (iso_frame _ _ Hi r p x Hr Hp Hx) as (_ & _ & _ & HnR). by rewrite Heq in HnR.
Qed.

(** Writing to a frame that no watched address space has. *)
Lemma iso_write R (s : St) f m' :
  iso R s → (watching R → aligned f) →
  (∀ r p x, R r → W r → user_page p → mapping (tables s) r p = Some x → x.1 ≠ f) →
  (watching R → ∀ a, m' a ≠ Elf.mem s a → f + off ≤ a < f + off + PAGE) →
  iso R (mkMachine (tables s) (falloc s) m').
Proof.
  intros Hi Hf Hne Hw. eapply iso_mem, Hi; [done..|]. intros r p x a Hr HW Hp Hx Hin. simpl.
  specialize (Hf (ex_intro _ r (conj Hr HW))).
  destruct (decide (m' a = Elf.mem s a)) as [|Ha]; [done|]. exfalso. apply Hw in Ha; [|by exists r].
  destruct (iso_frame _ _ Hi r p x Hr Hp Hx) as ([Hxa _] & _). apply (Hne r p x Hr HW Hp Hx).
  unfold inside, aligned, PAGE in *. Z.div_mod_to_equations. lia.
Qed.

Lemma in_hand_write R (s : St) f m' :
  iso R s → in_hand R s f → (watching R → ∀ a, m' a ≠ Elf.mem s a → f + off ≤ a < f + off + PAGE) →
  iso R (mkMachine (tables s) (falloc s) m').
Proof.
  intros Hi (Hf & _ & _ & _ & Hm) Hw. eapply iso_write; [done|intros _; apply Hf| |done]. intros r p x Hr _. by apply Hm.
Qed.

Lemma mapped_write R (s : St) root p f fl m' :
  iso R s → good f → acting R root → user_page p → mapping (tables s) root p = Some (f, fl) →
  (watching R → ∀ a, m' a ≠ Elf.mem s a → f + off ≤ a < f + off + PAGE) →
  iso R (mkMachine (tables s) (falloc s) m').
Proof.
  intros Hi Hf [Hroot HnW] Hp Hm Hw. eapply iso_write; [done|intros _; apply Hf| |done]. intros r q x Hr HW Hq Hx Heq.
  destruct (iso_once _ _ Hi r q x root p (f, fl) Hr Hroot Hq Hp Hx Hm Heq) as [-> _]. done.
Qed.

(** ** Loops over pages *)

Lemma map_loop_iso R root fl pages (s : St) r s' :
  iso R s → acting R root → Forall (mappable root) pages → map_loop root fl pages s = Done (r, s') → iso R s'.
Proof.
  intros Hi Hroot Hp. revert s Hi. induction Hp as [|p pages Hp _ IH]; intros s Hi Hm; simpl in Hm; [by inv_done|].
  apply bind_Done in Hm as (o & s1 & Ha & Hm). apply (alloc_frame_iso R) in Ha as (Hi1 & _ & Hh); [|done].
  destruct o as [f|]; [|by inv_done]. apply bind_Done in Hm as (res & s2 & Hpm & Hm).
  apply (page_map_to_iso R) in Hpm; [|done|by apply Hh|done|done]. destruct res as [[]|e]; [by eapply IH|by inv_done].
Qed.

(** The offset of the direct map, where the addresses fit. *)
Lemma frame_address (s : St) f x s' :
  good f → (∃ w, W w) → word_op 64 (f + off) s = Done (x, s') → x = f + off.
Proof. intros [_ Hf] Hw [_ [[_ ->]|(_ & Hn & _)]]%word_op_Done; [done|]. destruct (Hf Hw). unfold PAGE in *. lia. Qed.

Lemma page_map_to_mapped root p f fl (s : St) s' :
  page_map_to root p f fl s = Done (Ok (), s') → mapping (tables s') root p = Some (f, fl).
Proof. by intros (_ & _ & _ & Hm & _)%(page_map_to_Done mapping). Qed.

Lemma load_loop_iso R inp d fsz root fl idx pages (s : St) r s' :
  iso R s → acting R root → root ≠ kroot → Forall user_page pages →
  load_loop inp d fsz off root fl idx pages s = Done (r, s') → iso R s'.
Proof.
  intros Hi Hroot Hne Hp. revert idx s Hi. induction Hp as [|p pages Hp _ IH]; intros idx s Hi Hm; simpl in Hm; [by inv_done|].
  apply bind_Done in Hm as (o & s1 & Ha & Hm). apply (alloc_frame_iso R) in Ha as (Hi1 & _ & Hh); [|done].
  destruct o as [f|]; [|by inv_done]. specialize (Hh f eq_refl). pose proof Hh as (Hf & _).
  apply bind_Done in Hm as (x1 & s2 & [-> _]%word_op_Done & Hm).
  apply bind_Done in Hm as (x2 & s2 & Hx2 & Hm). pose proof Hx2 as [-> Hr2]%word_op_Done.
  apply bind_Done in Hm as (x3 & s2 & Hc & Hm).
  assert (s2 = s1 ∧ 0 ≤ x3 ≤ PAGE) as [-> Hx3].
  { destruct (x2 <? PAGE) eqn:E; [|by inv_done]. rewrite Hx2 in Hc. injection Hc as <- <-. split; [done|].
    assert (0 ≤ x2); [|lia]. destruct Hr2 as [[? ->]|(_ & _ & ->)]; [lia|]. apply wrap_range. lia. }
  clear Hc. apply bind_Done in Hm as (x4 & s2 & Hx4 & Hm). pose proof Hx4 as [-> _]%word_op_Done.
  apply bind_Done in Hm as (u & s2 & <-%modify_Done & Hm).
  apply bind_Done in Hm as (res & s3 & Hpm & Hm).
  assert (Hi2 : iso R (mkMachine (tables s1) (falloc s1) (copy_bytes inp (d + idx * PAGE) x4 x3 (Elf.mem s1)))).
  { eapply in_hand_write; [done..|]. intros Hw%watching_some a. rewrite (frame_address _ _ _ _ Hf Hw Hx4). unfold copy_bytes.
    destruct (_ && _) eqn:E; [|done]. intros _. lia. }
  pose proof Hpm as Hpm'. apply (page_map_to_iso R) in Hpm; [|done|by eapply in_hand_mem, Hh|done|unfold mappable; by rewrite decide_True].
  destruct res as [[]|e]; [|by inv_done]. apply page_map_to_mapped in Hpm'.
  apply bind_Done in Hm as (u' & s4 & Ht & Hm).
  eapply IH, Hm. destruct (x3 <? PAGE) eqn:E3; [|by inv_done].
  apply bind_Done in Ht as (x5 & s5 & [-> Hx5]%word_op_Done & <-%modify_Done).
  eapply mapped_write; [exact Hpm|exact Hf|done|exact Hp|exact Hpm'|]. intros Hw%watching_some a.
  rewrite (frame_address _ _ _ _ Hf Hw Hx4) in Hx5. destruct Hf as [_ Hf]. specialize (Hf Hw).
  assert (x5 = f + off + x3) as -> by (destruct Hx5 as [[_ ->]|(_ & Hn & _)]; [done|unfold PAGE in *; lia]).
  unfold write_bytes. destruct (_ && _) eqn:E; [|done]. intros _. lia.
Qed.

Lemma bss_loop_iso R root fl pages (s : St) r s' :
  iso R s → acting R root → root ≠ kroot → Forall user_page pages → bss_loop off root fl pages s = Done (r, s') → iso R s'.
Proof.
  intros Hi Hroot Hne Hp. revert s Hi. induction Hp as [|p pages Hp _ IH]; intros s Hi Hm; simpl in Hm; [by inv_done|].
  apply bind_Done in Hm as (o & s1 & Ha & Hm). apply (alloc_frame_iso R) in Ha as (Hi1 & _ & Hh); [|done].
  destruct o as [f|]; [|by inv_done]. specialize (Hh f eq_refl). pose proof Hh as (Hf & _).
  apply bind_Done in Hm as (res & s2 & Hpm & Hm). pose proof Hpm as Hpm'.
  apply (page_map_to_iso R) in Hpm; [|done|done|done|unfold mappable; by rewrite decide_True].
  destruct res as [[]|e]; [|by inv_done]. apply page_map_to_mapped in Hpm'.
  apply bind_Done in Hm as (x & s3 & Hx & Hm). pose proof Hx as [-> _]%word_op_Done.
  apply bind_Done in Hm as (u & s3 & <-%modify_Done & Hm). eapply IH, Hm.
  eapply mapped_write; [exact Hpm|exact Hf|done|exact Hp|exact Hpm'|]. intros Hw%watching_some a.
  rewrite (frame_address _ _ _ _ Hf Hw Hx). unfold write_bytes. destruct (_ && _) eqn:E; [|done]. intros _. lia.
Qed.

Lemma unmap_loop_iso R root pages (s : St) r s' :
  iso R s → acting R root → Forall user_page pages → unmap_loop root true pages s = Done (r, s') → iso R s'.
Proof.
  intros Hi Hroot Hp. revert s Hi. induction Hp as [|p pages Hp _ IH]; intros s Hi Hm; simpl in Hm; [by inv_done|].
  apply bind_Done in Hm as (res & s1 & Hu & Hm). apply (page_unmap_iso R) in Hu as [Hi1 Hh]; [|done..].
  destruct res as [f|e]; [|by inv_done]. apply bind_Done in Hm as (u & s2 & Hd & Hm).
  eapply IH, Hm. eapply dealloc_frame_iso; [exact Hi1|by apply Hh|exact Hd].
Qed.

(** Ranges of user pages. *)
Lemma pages_between_user s e : LOW ≤ s → e ≤ STACK_MAX → Forall user_page (pages_between s e).
Proof.
  intros Hs He. apply Forall_forall. intros p Hp. unfold pages_between in Hp.
  apply list_elem_of_fmap in Hp as (i & -> & Hi%elem_of_seqZ). unfold user_page, PAGE in *. Z.div_mod_to_equations. lia.
Qed.

Lemma user_mappable root pages : root ≠ kroot → Forall user_page pages → Forall (mappable root) pages.
Proof.
  intros Hr Hu. eapply Forall_impl; [exact Hu|]. intros p Hp. unfold mappable. by rewrite decide_True.
Qed.

Lemma LOW_page a : LOW ≤ a → LOW ≤ a - a `mod` PAGE.
Proof. unfold LOW, PAGE. intros. Z.div_mod_to_equations. lia. Qed.

Definition user_area (addr n : Z) : Prop := LOW ≤ addr ∧ 0 < n ∧ addr + n * PAGE ≤ STACK_MAX.

Lemma user_area_range addr n : user_area addr n → user_range addr n.
Proof. unfold user_area, user_range, LOW, STACK_MAX, PAGE. lia. Qed.

Lemma user_area_pages addr n :
  user_area addr n → Forall user_page (pages_between (addr - addr `mod` PAGE) (addr - addr `mod` PAGE + n * PAGE)).
Proof.
  intros (Hl & Hn & Hm). apply pages_between_user; [by apply LOW_page|].
  pose proof (Z.mod_pos_bound addr PAGE ltac:(done)). lia.
Qed.

Lemma map_pages_iso R addr n root ua (s : St) r s' :
  iso R s → acting R root → root ≠ kroot → user_area addr n → map_pages addr n root ua s = Done (r, s') → iso R s'.
Proof.
  intros Hi Hroot Hne Ha Hm. rewrite (map_pages_eq _ _ (addr - addr `mod` PAGE)) in Hm by (done || by apply user_area_range).
  apply bind_Done in Hm as (x & s1 & Hl & Hm). apply (map_loop_iso R) in Hl; [by destruct x; inv_done|done..|].
  by apply user_mappable, user_area_pages.
Qed.

Lemma unmap_pages_iso R addr n root (s : St) r s' :
  iso R s → acting R root → user_area addr n → unmap_pages addr n root true s = Done (r, s') → iso R s'.
Proof.
  intros Hi Hroot Ha Hm. rewrite (unmap_pages_eq _ _ (addr - addr `mod` PAGE)) in Hm by (done || by apply user_area_range).
  eapply unmap_loop_iso, Hm; [done..|]. by apply user_area_pages.
Qed.

(** ** Programs *)

(** A segment that is linked into user space. *)
Definition linked (h : ProgramHeader) : Prop :=
  get_type h = Some Load →
  LOW ≤ virtual_addr h ∧ 0 ≤ file_size h ∧ 0 ≤ mem_size h ∧
  virtual_addr h + Z.max (file_size h) (mem_size h) < STACK_MAX - PAGE.

Definition code_ok (r : Z * Z) : Prop :=
  aligned r.1 ∧ aligned r.2 ∧ LOW ≤ r.1 ∧ 0 ≤ r.2 < STACK_MAX - PAGE.

Lemma page_of a : 0 ≤ a < STACK_MAX → Page_containing_address a = a - a `mod` PAGE.
Proof. intros Ha. apply Page_containing_address_eq. left. unfold STACK_MAX in *. lia. Qed.

Lemma inclusive_user s e :
  aligned s → aligned e → LOW ≤ s → 0 ≤ e < STACK_MAX → Forall user_page (Page_range_inclusive s e).
Proof.
  intros Hs He Hl Hb. assert (e + PAGE ≤ STACK_MAX) by (unfold aligned, STACK_MAX, PAGE in *; Z.div_mod_to_equations; lia).
  rewrite Page_range_inclusive_eq; [by apply pages_between_user|done|done|unfold LOW in *; lia|unfold user, STACK_MAX, PAGE in *; lia].
Qed.

Lemma linked_bounds h x :
  get_type h = Some Load → linked h → 0 ≤ x ≤ Z.max (file_size h) (mem_size h) →
  LOW ≤ virtual_addr h ∧ VirtAddr_add (virtual_addr h) x = Some (virtual_addr h + x) ∧
  VirtAddr_sub (virtual_addr h + x) 1 = Some (virtual_addr h + x - 1) ∧
  0 ≤ virtual_addr h + x - 1 < STACK_MAX - PAGE.
Proof.
  intros Hty Hl Hx. destruct (Hl Hty) as (Hva & _ & _ & Hmax). unfold LOW, STACK_MAX, PAGE in *.
  rewrite VirtAddr_add_user, VirtAddr_sub_user; [split_and!; try done; lia|..]; unfold user, PAGE; lia.
Qed.

Lemma user_VirtAddr a : LOW ≤ a < STACK_MAX → VirtAddr_new a = Some a.
Proof. intros Ha. apply VirtAddr_new_canonical. left. unfold LOW, STACK_MAX in *. lia. Qed.

(** The zeroed rest of a segment. *)
Lemma load_bss_iso R h root fl (s : St) r s' :
  iso R s → acting R root → root ≠ kroot → get_type h = Some Load → linked h → file_size h < mem_size h →
  (zero_end ← unwrap (Some (virtual_addr h + mem_size h));
   bss ← unwrap (VirtAddr_new (align_up (virtual_addr h + file_size h) PAGE));
   bss_loop off root fl (Page_range_inclusive (Page_containing_address bss) (Page_containing_address zero_end))) s =
    Done (r, s') → iso R s'.
Proof.
  intros Hi Hroot Hne Hty Hl Hlt Hm. destruct (Hl Hty) as (Hva & Hfs & Hms & Hmax).
  apply bind_Done in Hm as (ze & s1 & [[= <-] <-]%unwrap_Done & Hm).
  rewrite align_up_eq in Hm by (unfold LOW, STACK_MAX, PAGE in *; lia).
  set (b := (virtual_addr h + file_size h + (PAGE - 1)) / PAGE * PAGE) in *.
  assert (Hb : aligned b ∧ virtual_addr h + file_size h ≤ b < virtual_addr h + file_size h + PAGE).
  { unfold b, aligned, PAGE. Z.div_mod_to_equations. lia. }
  rewrite user_VirtAddr in Hm by (unfold PAGE in *; lia). apply bind_Done in Hm as (bs & s1 & [[= <-] <-]%unwrap_Done & Hm).
  rewrite !page_of in Hm by (unfold LOW, PAGE in *; lia).
  destruct (page_base_bounds (virtual_addr h + mem_size h) ltac:(unfold LOW in *; lia)) as [Hza Hzb].
  destruct (page_base_bounds b ltac:(unfold LOW in *; lia)) as [Hba _].
  eapply bss_loop_iso, Hm; [done..|]. apply inclusive_user; [done..| |unfold PAGE in *; lia].
  apply LOW_page. unfold LOW in *. lia.
Qed.

Lemma load_segment_iso R elf h root ua (s : St) r s' :
  iso R s → acting R root → root ≠ kroot → get_type h = Some Load → linked h →
  load_segment elf off h root ua s = Done (r, s') → iso R s' ∧ ∀ rng, r = Ok rng → code_ok rng.
Proof.
  intros Hi Hroot Hne Hty Hl Hm. destruct (Hl Hty) as (_ & Hfs & Hms & Hmax).
  destruct (linked_bounds h (file_size h) Hty Hl ltac:(lia)) as (Hva & E1 & E2 & Hf0).
  destruct (linked_bounds h (mem_size h) Hty Hl ltac:(lia)) as (_ & E3 & E4 & Hm0).
  unfold load_segment in Hm. cbv zeta in Hm. rewrite user_VirtAddr in Hm by (unfold PAGE in *; lia).
  apply bind_Done in Hm as (va & s1 & [[= <-] <-]%unwrap_Done & Hm). rewrite E1, E3 in Hm.
  apply bind_Done in Hm as (fe & s1 & [[= <-] <-]%unwrap_Done & Hm). rewrite E2 in Hm.
  apply bind_Done in Hm as (fla & s1 & [[= <-] <-]%unwrap_Done & Hm).
  destruct (page_base_bounds (virtual_addr h) ltac:(unfold LOW in *; lia)) as [Hsa Hsb].
  destruct (page_base_bounds (virtual_addr h + file_size h - 1) ltac:(lia)) as [Hea Heb].
  destruct (page_base_bounds (virtual_addr h + mem_size h - 1) ltac:(lia)) as [Hla Hlb].
  rewrite (page_of (virtual_addr h)), (page_of (virtual_addr h + file_size h - 1)) in Hm by (unfold LOW, PAGE in *; lia).
  apply bind_Done in Hm as (res & s1 & Hld & Hm). apply (load_loop_iso R) in Hld; [|done..|]; cycle 1.
  { apply inclusive_user; [done..|by apply LOW_page|unfold PAGE in *; lia]. }
  destruct res as [[]|e]; [|by inv_done].
  apply bind_Done in Hm as (res & s2 & Hbs & Hm).
  assert (Hi2 : iso R s2).
  { destruct (file_size h <? mem_size h) eqn:Elt; [|by inv_done].
    apply bind_Done in Hbs as (zs & s3 & [[= <-] <-]%unwrap_Done & Hbs). eapply load_bss_iso, Hbs; [done..|by apply Z.ltb_lt]. }
  destruct res as [[]|e]; [|by inv_done].
  apply bind_Done in Hm as (me & s3 & [[= <-] <-]%unwrap_Done & Hm). rewrite E4 in Hm.
  apply bind_Done in Hm as (ml & s3 & [[= <-] <-]%unwrap_Done & Hm). apply ret_Done in Hm as [<- <-].
  split; [done|]. intros rng [= <-]. rewrite page_of by (unfold PAGE in *; lia).
  split_and!; simpl; [done|done|by apply LOW_page|lia|lia].
Qed.

Lemma load_elf_iso R elf root ua (s : St) r s' :
  iso R s → acting R root → root ≠ kroot → Forall linked (program_iter elf) →
  Elf.load_elf elf off root ua s = Done (r, s') → iso R s' ∧ ∀ rngs, r = Ok rngs → Forall code_ok rngs.
Proof.
  intros Hi Hroot Hne Hl. unfold Elf.load_elf. revert s r s' Hi.
  induction Hl as [|h hs Hh _ IH]; intros s r s' Hi Hm; simpl in Hm.
  { apply ret_Done in Hm as [<- <-]. split; [done|]. by intros ? [= <-]. }
  apply bind_Done in Hm as (t & s1 & [Ht <-]%unwrap_Done & Hm). destruct (decide (t = Load)) as [->|]; [|by eapply IH].
  apply bind_Done in Hm as (res & s1 & Hs & Hm). apply (load_segment_iso R) in Hs as [Hi1 Hr]; [|done..].
  destruct res as [rng|e]; [|apply ret_Done in Hm as [<- <-]; by split].
  apply bind_Done in Hm as (res & s2 & Hs & Hm). apply IH in Hs as [Hi2 Hrs]; [|done].
  destruct res as [rngs|e]; apply ret_Done in Hm as [<- <-]; (split; [done|]); [|done].
  intros ? [= <-]. constructor; [by apply Hr|by apply Hrs].
Qed.

Lemma unmap_code_iso R root code (s : St) r s' :
  iso R s → acting R root → Forall code_ok code → Vm.unmap_code root code s = Done (r, s') → iso R s'.
Proof.
  intros Hi Hroot Hc. revert s Hi. induction Hc as [|x code (Ha1 & Ha2 & Hl & Hb) _ IH]; intros s Hi Hm; simpl in Hm; [by inv_done|].
  apply bind_Done in Hm as (res & s1 & Hu & Hm). unfold unmap_range in Hu.
  apply (unmap_loop_iso R) in Hu; [|done|done|apply inclusive_user; [done..|unfold PAGE in *; lia]].
  destruct res as [[]|e]; [by eapply IH|by inv_done].
Qed.

(** ** Stacks *)

(** The stack of a user process. *)
Definition stack_ok (st : Stack) : Prop :=
  aligned (range_start st) ∧ aligned (range_end st) ∧ LOW ≤ range_start st < range_end st ∧
  range_end st ≤ STACK_MAX ∧ usage st = (range_end st - range_start st) / PAGE.

(** The kernel's stack grows in its own slot. *)
Definition kstack_ok (st : Stack) : Prop :=
  aligned (range_start st) ∧ KSTACK_DEF_BOT ≤ range_start st < KSTACK_MAX.

Lemma kstack_fine : kstack_ok StackOps.kstack.
Proof.
  unfold kstack_ok, StackOps.kstack, StackOps.KSTACK_INIT_PAGE. simpl. rewrite Page_containing_address_eq.
  - split; [reflexivity|]. split; [done|reflexivity].
  - right. unfold KSTACK_INIT_BOT, KSTACK_MAX, KSTACK_DEF_SIZE, KSTACK_DEF_PAGE. lia.
Qed.

Lemma stack_ok_end st : stack_ok st → range_end st = range_start st + usage st * PAGE ∧ 0 < usage st.
Proof.
  intros (Ha & He & Hs & Hm & Hu). unfold aligned, LOW, STACK_MAX, PAGE in *. Z.div_mod_to_equations. lia.
Qed.

Lemma stack_ok_area st : stack_ok st → user_area (range_start st) (usage st).
Proof.
  intros Hok. destruct (stack_ok_end st Hok) as [He Hu]. destruct Hok as (_ & _ & Hs & Hm & _). unfold user_area. lia.
Qed.

Lemma stack_ok_page st n : stack_ok st → user_page n → aligned n → n < range_end st →
  stack_ok (mkStack n (range_end st) ((range_end st - n) / PAGE)).
Proof. intros (Ha & He & Hs & Hm & Hu) [Hn _] Hna Hlt. by split_and!. Qed.

Lemma stack_init_iso R root st (s : St) st' s' :
  iso R s → acting R root → root ≠ kroot → StackOps.init root st s = Done (st', s') → iso R s' ∧ stack_ok st'.
Proof.
  intros Hi Hroot Hne Hm. unfold StackOps.init in Hm. apply bind_Done in Hm as (u & s1 & [-> _]%debug_assert_Done & Hm).
  apply bind_Done in Hm as (r & s1 & Hp & Hm).
  assert (Ha : user_area STACK_INIT_BOT STACK_DEF_PAGE) by (by split_and!).
  pose proof (map_pages_Done mapping _ _ _ _ _ _ _ (user_area_range _ _ Ha) Hp) as [_ Hr].
  apply (map_pages_iso R) in Hp; [|done..]. destruct r as [[p q]|e]; [|done]. apply ret_Done in Hm as [<- <-].
  split; [done|]. destruct Hr as (-> & -> & _). by split_and!.
Qed.

Lemma stack_clean_up_iso R root st (s : St) r s' :
  iso R s → acting R root → stack_ok st → StackOps.clean_up root st s = Done (r, s') → iso R s'.
Proof.
  intros Hi Hroot Hok Hm. unfold StackOps.clean_up in Hm. destruct (usage st =? 0); [by inv_done|].
  apply bind_Done in Hm as (x & s1 & Hu & Hm). apply (unmap_pages_iso R) in Hu; [|done..|by apply stack_ok_area].
  destruct x; by inv_done.
Qed.

(** Nothing is mapped for no pages. *)
Lemma map_pages_none addr root ua (s : St) r s' :
  aligned addr → LOW ≤ addr < STACK_MAX → map_pages addr 0 root ua s = Done (r, s') → s' = s.
Proof.
  intros Ha Hb Hm. unfold map_pages in Hm. apply bind_Done in Hm as (u & s1 & [-> _]%debug_assert_Done & Hm).
  rewrite user_VirtAddr in Hm by done. apply bind_Done in Hm as (va & s1 & [[= <-] <-]%unwrap_Done & Hm). cbv zeta in Hm.
  assert (Page_containing_address addr = addr) as Hpa.
  { rewrite page_of by (unfold LOW in *; lia). unfold aligned in Ha. lia. }
  rewrite Hpa in Hm. unfold LOW, STACK_MAX in Hb.
  rewrite Page_add_user in Hm by (unfold user, PAGE; done || lia). rewrite Z.add_0_r in Hm.
  apply bind_Done in Hm as (e & s1 & [[= <-] <-]%unwrap_Done & Hm).
  rewrite Page_sub_user in Hm by (unfold PAGE; done || lia). apply bind_Done in Hm as (l & s1 & [[= <-] <-]%unwrap_Done & Hm).
  unfold map_range in Hm. rewrite Page_range_inclusive_eq in Hm; [|done| |lia|unfold user, PAGE; lia].
  - rewrite pages_between_nil in Hm; [by inv_done|done| |lia]. unfold aligned, PAGE in *. Z.div_mod_to_equations. lia.
  - unfold aligned, PAGE in *. Z.div_mod_to_equations. lia.
Qed.

(** In one slot of 4 GiB. *)
Lemma on_stack_slot st a :
  0 ≤ a < 2 ^ 64 → 0 ≤ range_start st < 2 ^ 64 → StackOps.is_on_stack st a = true →
  a / 2 ^ 32 = range_start st / 2 ^ 32.
Proof.
  intros Ha Hs Hon. unfold StackOps.is_on_stack in Hon. rewrite !land_start_mask in Hon by done.
  change STACK_MAX_SIZE with (2 ^ 32) in Hon. lia.
Qed.

Lemma on_stack_user st a :
  canonical a → stack_ok st → StackOps.is_on_stack st a = true →
  user_page (a - a `mod` PAGE) ∧ aligned (a - a `mod` PAGE) ∧ Page_containing_address a = a - a `mod` PAGE.
Proof.
  intros Hc (Ha & He & Hs & Hm & Hu) Hon. rewrite Page_containing_address_eq by done.
  assert (Ha64 : 0 ≤ a < 2 ^ 64) by (destruct Hc; lia).
  apply on_stack_slot in Hon; [|done|unfold LOW, STACK_MAX in *; lia].
  unfold user_page, aligned, LOW, STACK_MAX, PAGE in *. split_and!; [Z.div_mod_to_equations; lia..|done].
Qed.

(** Growing the stack of a user process. *)
Lemma grow_stack_iso R root pid st a (s : St) r s' :
  iso R s → acting R root → root ≠ kroot → canonical a → stack_ok st → pid ≠ KERNEL_PID →
  StackOps.is_on_stack st a = true → StackOps.grow_stack root (Some pid) st a s = Done (r, s') →
  iso R s' ∧ ∀ st', r = Ok st' → stack_ok st'.
Proof.
  intros Hi Hroot Hne Hc Hok Hpid Hon Hm. destruct (on_stack_user st a Hc Hok Hon) as (Hup & Hpa & Hpc).
  pose proof Hok as (Ha & He & Hs & Hmx & Hu). pose proof Hup as [Hp1 Hp2].
  unfold StackOps.grow_stack in Hm. apply bind_Done in Hm as (u & s1 & [-> _]%debug_assert_Done & Hm). cbv zeta in Hm.
  rewrite Hpc in Hm. set (p := a - a `mod` PAGE) in *.
  destruct (decide (p ≤ range_start st)) as [Hle|Hgt]; cycle 1.
  { rewrite Page_diff_lt in Hm by (done || unfold LOW, STACK_MAX in *; lia). by apply bind_Done in Hm as (? & ? & [? _]%unwrap_Done & _). }
  rewrite Page_diff_le in Hm by (done || unfold LOW, STACK_MAX in *; lia).
  apply bind_Done in Hm as (n & s1 & [[= <-] <-]%unwrap_Done & Hm).
  apply bind_Done in Hm as (c & s1 & [[= <-] <-]%unwrap_Done & Hm).
  apply bind_Done in Hm as (x & s2 & Hmp & Hm).
  assert (Hi2 : iso R s2).
  { destruct (decide (p = range_start st)) as [Heq|Hne'].
    - rewrite Heq, Z.sub_diag in Hmp. apply map_pages_none in Hmp as ->; [done|done|unfold LOW in *; lia].
    - eapply map_pages_iso, Hmp; [done..|]. unfold user_area, aligned, PAGE in *. Z.div_mod_to_equations. lia. }
  destruct x as [rng|e]; apply ret_Done in Hm as [<- <-]; (split; [done|]); [|done]. intros st' [= <-].
  rewrite Page_range_eq by (done || unfold LOW, STACK_MAX in *; lia). rewrite pages_between_length, Z2Nat.id.
  - by apply stack_ok_page; [..|lia].
  - apply Z.div_pos; [lia|done].
Qed.

(** In the upper half. *)
Lemma map_pages_kstack addr n root ua (s : St) r s' :
  aligned addr → 2 ^ 64 - 2 ^ 47 + PAGE ≤ addr → 0 ≤ n → addr + n * PAGE < 2 ^ 64 →
  map_pages addr n root ua s = Done (r, s') →
  ∃ x, map_loop root (map_flags ua) (pages_between addr (addr + n * PAGE)) s = Done (x, s').
Proof.
  intros Ha Hb Hn He Hm. unfold map_pages in Hm. apply bind_Done in Hm as (u' & s3 & [-> _]%debug_assert_Done & Hm).
  rewrite VirtAddr_new_canonical in Hm by (right; unfold PAGE in *; lia).
  apply bind_Done in Hm as (va & s3 & [[= <-] <-]%unwrap_Done & Hm).
  cbv zeta in Hm. rewrite Page_containing_address_eq in Hm by (right; unfold PAGE in *; lia).
  replace (addr - addr `mod` PAGE) with addr in Hm by (unfold aligned in Ha; lia).
  rewrite Page_add_upper in Hm by (done || unfold PAGE in *; lia).
  apply bind_Done in Hm as (e & s3 & [[= <-] <-]%unwrap_Done & Hm).
  rewrite Page_sub_upper in Hm; [|by apply aligned_add|unfold PAGE in *; lia..].
  apply bind_Done in Hm as (l & s3 & [[= <-] <-]%unwrap_Done & Hm).
  apply bind_Done in Hm as (y & s3 & Hl & Hm). unfold map_range in Hl.
  rewrite Page_range_inclusive_upper in Hl; [|done| |unfold PAGE in *; lia..].
  - replace (addr + n * PAGE - 1 * PAGE + PAGE) with (addr + n * PAGE) in Hl by lia. exists y. by destruct y; inv_done.
  - replace (addr + n * PAGE - 1 * PAGE) with (addr + (n - 1) * PAGE) by lia. by apply aligned_add.
Qed.

(** The pages of the kernel's stack. *)
Lemma kstack_mappable R (s : St) q :
  iso R s → is_Some (shared KSTACK_DEF_BOT) → KSTACK_DEF_BOT ≤ q < KSTACK_MAX → mappable kroot q.
Proof.
  intros Hi Hsh Hq. unfold KSTACK_DEF_BOT, KSTACK_MAX, STACK_MAX_SIZE, STACK_MAX_PAGES in Hq.
  assert (Hnu : ¬ user_page q ∧ ¬ user_page KSTACK_DEF_BOT) by (split; [unfold user_page, STACK_MAX; lia|by intros []]).
  unfold mappable. rewrite decide_False by apply Hnu. split; [done|].
  rewrite <- (iso_shared _ _ Hi kroot) by (apply (iso_kroot _ _ Hi) || apply Hnu).
  rewrite (entry_slot (mapping := mapping) _ _ _ KSTACK_DEF_BOT); [rewrite (iso_shared _ _ Hi); [done|apply (iso_kroot _ _ Hi)|apply Hnu]|].
  unfold slot, KSTACK_DEF_BOT, KSTACK_MAX, STACK_MAX_SIZE, STACK_MAX_PAGES in *. Z.div_mod_to_equations. lia.
Qed.

(** Growing the kernel's. *)
Lemma kgrow_stack_iso R st a (s : St) r s' :
  iso R s → ¬ W kroot → is_Some (shared KSTACK_DEF_BOT) → canonical a → kstack_ok st →
  StackOps.is_on_stack st a = true → StackOps.grow_stack kroot (Some KERNEL_PID) st a s = Done (r, s') →
  iso R s' ∧ ∀ st', r = Ok st' → kstack_ok st'.
Proof.
  intros Hi HnW Hsh Hc (Ha & Hb) Hon Hm. unfold KSTACK_DEF_BOT, KSTACK_MAX, STACK_MAX_SIZE, STACK_MAX_PAGES in Hb.
  assert (Ha64 : 0 ≤ a < 2 ^ 64) by (destruct Hc; lia).
  apply on_stack_slot in Hon as Hsl; [|done|lia].
  unfold StackOps.grow_stack in Hm. apply bind_Done in Hm as (u & s1 & [-> _]%debug_assert_Done & Hm). cbv zeta in Hm.
  rewrite Page_containing_address_eq in Hm by done. set (p := a - a `mod` PAGE) in *.
  assert (Hp : aligned p ∧ KSTACK_DEF_BOT ≤ p < KSTACK_MAX).
  { unfold p, aligned, KSTACK_DEF_BOT, KSTACK_MAX, STACK_MAX_SIZE, STACK_MAX_PAGES, PAGE. Z.div_mod_to_equations. lia. }
  destruct Hp as [Hpa Hp]. pose proof Hp as Hp'. unfold KSTACK_DEF_BOT, KSTACK_MAX, STACK_MAX_SIZE, STACK_MAX_PAGES in Hp'.
  destruct (decide (p ≤ range_start st)) as [Hle|Hgt]; cycle 1.
  { rewrite Page_diff_lt in Hm by (done || lia). by apply bind_Done in Hm as (? & ? & [? _]%unwrap_Done & _). }
  rewrite Page_diff_upper in Hm by (done || lia).
  apply bind_Done in Hm as (n & s1 & [[= <-] <-]%unwrap_Done & Hm).
  apply bind_Done in Hm as (c & s1 & [[= <-] <-]%unwrap_Done & Hm).
  apply bind_Done in Hm as (x & s2 & Hmp & Hm).
  assert (Hn : p + (range_start st - p) / PAGE * PAGE = range_start st).
  { unfold aligned, PAGE in *. Z.div_mod_to_equations. lia. }
  apply map_pages_kstack in Hmp as [y Hl]; [|done|unfold PAGE; lia|apply Z.div_pos; [lia|done]|lia].
  rewrite Hn in Hl. apply (map_loop_iso R) in Hl; [|done|by split; [apply (iso_kroot _ _ Hi)|]|].
  - destruct x as [rng|e]; apply ret_Done in Hm as [<- <-]; (split; [done|]); [|done]. by intros st' [= <-].
  - apply Forall_forall. intros q Hq. unfold pages_between in Hq. apply list_elem_of_fmap in Hq as (i & -> & Hi'%elem_of_seqZ).
    eapply kstack_mappable; [done..|]. unfold KSTACK_DEF_BOT, KSTACK_MAX, STACK_MAX_SIZE, STACK_MAX_PAGES, PAGE in *.
    Z.div_mod_to_equations. lia.
Qed.

(** Forking: wherever the search ends, it tried only places above. *)
Lemma fork_loop_iso R fuel root n top (s : St) top' s' :
  iso R s → acting R root → root ≠ kroot → 0 < n → 0 ≤ top → top + n * PAGE ≤ STACK_MAX →
  StackOps.fork_loop fuel root n top s = Done (top', s') → user_page top' →
  iso R s' ∧ ∃ k, 0 ≤ k ∧ top' = top - k * STACK_MAX_SIZE.
Proof.
  intros Hi Hroot Hne Hn. revert top s Hi. induction fuel as [|fuel IH]; intros top s Hi Ht Hb Hl Hu; [done|].
  assert (Hr : user_range top n) by (unfold user_range, STACK_MAX, PAGE in *; lia).
  pose proof (fork_loop_Done mapping _ _ _ _ _ _ _ Hr Hl) as [Hup|(k & s1 & Htop & _)].
  { unfold user_page, STACK_MAX in *. lia. }
  assert (Hge : top' ≤ top) by (unfold STACK_MAX_SIZE, STACK_MAX_PAGES in *; lia).
  simpl in Hl. apply bind_Done in Hl as (r & s2 & Hm & Hl).
  apply (map_pages_iso R) in Hm; [|done..|unfold user_area, user_page in *; lia].
  destruct r as [rng|e].
  - apply ret_Done in Hl as [<- <-]. split; [done|]. exists 0. lia.
  - apply bind_Done in Hl as (t & s3 & [-> Hw]%word_op_Done & Hl). change STACK_MAX_SIZE with (2 ^ 32) in *.
    destruct Hw as [[Hw ->]|(_ & Hneg & ->)].
    + apply IH in Hl as [Hi' (j & Hj & ->)]; [|done|lia|lia|done]. split; [done|]. exists (j + 1). lia.
    + assert (top < 2 ^ 32) by (unfold STACK_MAX, PAGE in *; lia).
      replace (wrap 64 (top - 2 ^ 32)) with (top + (2 ^ 64 - 2 ^ 32)) in Hl; cycle 1.
      { unfold wrap. rewrite <- (Z_mod_plus_full (top - 2 ^ 32) 1), Z.mod_small by lia. lia. }
      apply fork_loop_upper in Hl; [|lia]. unfold user_page, STACK_MAX in *. lia.
Qed.

(** The copy goes to pages of the loaded page table. *)
Lemma clone_pages_iso R root active src dst n (s : St) u s' :
  iso R s → acting R root → (watching R → active = root) → (∀ i, 0 ≤ i < Z.of_nat n → user_page (dst + i * PAGE)) →
  StackOps.clone_pages active off src dst n s = Done (u, s') → iso R s'.
Proof.
  intros Hi [Hroot HnW] Hact. revert src dst s Hi. induction n as [|n IH]; intros src dst s Hi Hu Hc; simpl in Hc; [by inv_done|].
  apply bind_Done in Hc as (t & s1 & [<- <-]%get_Done & Hc). apply bind_Done in Hc as (a & s1 & [_ <-]%unwrap_Done & Hc).
  apply bind_Done in Hc as (b & s1 & [Hb <-]%unwrap_Done & Hc). apply bind_Done in Hc as (v & s1 & <-%put_Done & Hc).
  rewrite translate_page_eq in Hb. apply fmap_Some in Hb as (x & Hb & ->).
  assert (Hd : user_page dst) by (rewrite <- (Z.add_0_r dst); apply (Hu 0); lia).
  eapply IH, Hc.
  - eapply iso_write; [done| | |].
    + intros Hw. rewrite (Hact Hw) in Hb. by destruct (iso_frame _ _ Hi _ _ _ Hroot Hd Hb) as ([? _] & _).
    + intros r p y Hr HW Hp Hy Heq. rewrite (Hact (ex_intro _ r (conj Hr HW))) in Hb.
      by destruct (iso_once _ _ Hi r p y root dst x Hr Hroot Hp Hd Hy Hb Heq) as [-> _].
    + intros _ c. unfold copy_bytes. destruct (_ && _) eqn:E; [|done]. intros _. lia.
  - intros i Hi'. replace (dst + PAGE + i * PAGE) with (dst + (i + 1) * PAGE) by lia. apply Hu. lia.
Qed.

(** Where the search ends is where the stack starts, if that is in user space; so
    it has not wrapped around. *)
Lemma fork_loop_start root n top (s : St) top' s' va :
  0 ≤ top < 2 ^ 64 → aligned top → 0 < n → (top < 2 ^ 47 → top + n * PAGE ≤ STACK_MAX) →
  StackOps.fork_loop StackOps.fork_fuel root n top s = Done (top', s') →
  VirtAddr_new top' = Some va → user_page (Page_containing_address va) →
  top < 2 ^ 47 ∧ user_page top' ∧ Page_containing_address va = top' ∧ aligned top'.
Proof.
  intros Ht Hta Hn Hm Hl Hva Hu.
  assert (Hup : ¬ (2 ^ 64 - 2 ^ 47 ≤ top' < 2 ^ 64)).
  { intros Hup. rewrite VirtAddr_new_canonical in Hva by (right; lia). injection Hva as <-.
    rewrite Page_containing_address_eq in Hu by (right; lia). unfold user_page, STACK_MAX, PAGE in Hu. Z.div_mod_to_equations. lia. }
  destruct (decide (top < 2 ^ 47)) as [Hlow|Hhigh]; cycle 1.
  { exfalso. destruct (decide (top < 2 ^ 64 - 2 ^ 47)).
    - unfold StackOps.fork_fuel in Hl. destruct (Z.to_nat (2 ^ 16 + 2)) as [|m] eqn:Em; [done|]. simpl in Hl.
      apply bind_Done in Hl as (? & ? & Hg & _). by rewrite map_pages_gap in Hg by lia.
    - apply fork_loop_upper in Hl; [done|lia]. }
  specialize (Hm Hlow). unfold STACK_MAX in Hm.
  apply (fork_loop_Done mapping) in Hl as [|(k & _ & Hk & (Hr0 & _ & Hr1) & _)]; [done| |unfold user_range, PAGE in *; lia].
  change STACK_MAX_SIZE with (2 ^ 32) in Hk.
  assert (Hta' : aligned top') by (unfold aligned, PAGE in *; rewrite Hk; Z.div_mod_to_equations; lia).
  rewrite VirtAddr_new_canonical in Hva by (left; unfold PAGE in *; lia). injection Hva as <-.
  rewrite Page_containing_address_eq in Hu |- * by (left; unfold PAGE in *; lia).
  replace (top' - top' `mod` PAGE) with top' in Hu |- * by (unfold aligned in Hta'; lia). done.
Qed.

Lemma stack_fork_iso R root active st count (s : St) st' s' :
  iso R s → acting R root → root ≠ kroot → (watching R → active = root) → stack_ok st → 0 ≤ count < 2 ^ 16 →
  StackOps.fork root active off st count s = Done (st', s') → user_page (range_start st') →
  iso R s' ∧ stack_ok st'.
Proof.
  intros Hi Hroot Hne Hact Hok Hc Hf Hu. destruct (stack_ok_end st Hok) as [He Hn]. pose proof Hok as (Ha & Hae & Hs & Hm & Hus).
  unfold StackOps.fork in Hf. apply bind_Done in Hf as (skip & s1 & [-> Hsk]%word_op_Done & Hf).
  change STACK_MAX_SIZE with (2 ^ 32) in *.
  assert (skip = count * 2 ^ 32) as -> by (destruct Hsk as [[_ ->]|(_ & Hneg & _)]; lia).
  apply bind_Done in Hf as (top & s1 & [-> Htop]%word_op_Done & Hf).
  apply bind_Done in Hf as (top' & s1 & Hl & Hf). apply bind_Done in Hf as (u & s2 & Hcl & Hf).
  apply bind_Done in Hf as (va & s3 & [Hva <-]%unwrap_Done & Hf).
  apply bind_Done in Hf as (stop & s3 & [Hst <-]%unwrap_Done & Hf). apply ret_Done in Hf as [<- <-]. simpl in Hu.
  unfold LOW, STACK_MAX in Hs, Hm.
  assert (Htop' : top = wrap 64 (range_start st - count * 2 ^ 32)).
  { destruct Htop as [[? ->]|(_ & _ & ->)]; [by rewrite wrap_small|done]. }
  assert (Hlow : top < 2 ^ 47 → top = range_start st - count * 2 ^ 32).
  { destruct Htop as [[? ->]|(_ & Hneg & ->)]; [done|]. intros Hlt. exfalso. revert Hlt. unfold wrap.
    rewrite <- (Z_mod_plus_full _ 1), Z.mod_small by lia. lia. }
  assert (Hta0 : aligned top).
  { rewrite Htop'. unfold aligned, wrap, PAGE. rewrite <- Znumtheory.Zmod_div_mod; [|lia..|by exists (2 ^ 52)].
    unfold aligned, PAGE in Ha. Z.div_mod_to_equations. lia. }
  pose proof (wrap_range 64 (range_start st - count * 2 ^ 32) ltac:(lia)) as Hw. rewrite <- Htop' in Hw.
  destruct (fork_loop_start _ _ _ _ _ _ _ Hw Hta0 Hn ltac:(intros Hx; rewrite (Hlow Hx); unfold STACK_MAX; lia) Hl Hva Hu)
    as (Htl & Htp & Hpc & Hta). specialize (Hlow Htl).
  apply (fork_loop_iso R) in Hl as [Hi1 (k & Hk & Hke)]; [|done|done|done|done|lia|unfold STACK_MAX; lia|done].
  rewrite Hpc in Hst |- *. change STACK_MAX_SIZE with (2 ^ 32) in *. unfold user_page, LOW, STACK_MAX in Htp.
  split; [eapply clone_pages_iso; [exact Hi1|exact Hroot|exact Hact| |exact Hcl]|].
  { intros i Hi'. unfold user_page, LOW, STACK_MAX, PAGE in *. lia. }
  rewrite Page_add_user in Hst by (done || unfold user, PAGE in *; lia). injection Hst as <-.
  unfold stack_ok, LOW, STACK_MAX. simpl. split_and!; [done|by apply aligned_add|unfold PAGE in *; lia..|].
  rewrite Z.add_simpl_l, Z.div_mul; done.
Qed.

(** ** Heaps *)

Lemma heap_pages_user e n : heap_range e → heap_range n → Forall user_page (pages_between (heap_top e) (heap_top n)).
Proof.
  intros (? & He & _)%heap_top_bounds (? & Hn & _)%heap_top_bounds.
  apply pages_between_user; unfold HEAP_START, HEAP_SIZE, HEAP_PAGES, PAGE_SIZE, PAGE, LOW, STACK_MAX in *; lia.
Qed.

Lemma heap_brk_iso R root arg e (m : St) r e' m' :
  iso R m → acting R root → root ≠ kroot → heap_range e →
  HeapOps.brk root HEAP_START arg (e, m) = Done (r, (e', m')) → iso R m' ∧ heap_range e'.
Proof.
  intros Hi Hroot Hne He Hb. destruct arg as [n|]; cycle 1.
  { unfold HeapOps.brk in Hb. apply bind_Done in Hb as (x & s1 & [_ <-]%gets_Done & Hb).
    apply bind_Done in Hb as (va & s1 & [_ <-]%unwrap_Done & Hb). by injection Hb as _ <- <-. }
  destruct (decide (HEAP_START ≤ n ≤ HEAP_START + HEAP_SIZE)) as [Hn|Hn]; cycle 1.
  { rewrite brk_invalid in Hb by done. by injection Hb as <- <- <-. }
  rewrite brk_eq in Hb by done. apply bind_Done in Hb as (w & s1 & [-> _]%word_op_Done & Hb).
  apply bind_Done in Hb as (x & s1 & Hl & Hb). unfold HeapOps.on_machine in Hl. apply zoom_Done in Hl as (t & Hl & ->).
  simpl in Hl, Hb. apply (map_loop_iso R) in Hl; [|done..|by apply user_mappable, heap_pages_user].
  destruct x as [[]|]; [|by inv_done]. apply bind_Done in Hb as (u & s2 & Hs & Hb). unfold HeapOps.store_end in Hs.
  apply modify_Done in Hs as <-. by injection Hb as _ <- <-.
Qed.

Lemma heap_clean_up_iso R root e (m : St) r e' m' :
  iso R m → acting R root → heap_range e →
  HeapOps.clean_up root HEAP_START (e, m) = Done (r, (e', m')) → iso R m' ∧ heap_range e'.
Proof.
  intros Hi Hroot He Hc. unfold HeapOps.clean_up, HeapOps.memory_usage, HeapOps.load_end in Hc.
  rewrite (bind_step _ _ (e, m) (e - HEAP_START) (e, m)) in Hc; cycle 1.
  { rewrite (bind_step _ _ (e, m) e (e, m)) by done. apply word_op_exact.
    unfold heap_range, HEAP_SIZE, HEAP_PAGES, PAGE_SIZE, HEAP_START in *. lia. }
  destruct (e - HEAP_START =? 0) eqn:E0; [by inv_done|]. apply Z.eqb_neq in E0.
  rewrite (bind_step _ _ (e, m) e (HEAP_START, m)) in Hc by done.
  rewrite VirtAddr_new_heap in Hc by done. cbv zeta in Hc.
  rewrite (bind_step _ _ (HEAP_START, m) e (HEAP_START, m)) in Hc by done.
  unfold unmap_range in Hc. rewrite clean_up_pages in Hc by (done || lia).
  apply bind_Done in Hc as (x & [e2 m2] & Hm & Hc). unfold HeapOps.on_machine in Hm.
  apply zoom_Done in Hm as (t & Hm & Ht). simpl in *. simplify_eq.
  apply (unmap_loop_iso R) in Hm; [|done..|].
  - assert (heap_range HEAP_START) by (unfold heap_range, HEAP_SIZE, HEAP_PAGES, PAGE_SIZE; lia).
    by destruct x as [[]|]; inv_done.
  - apply (heap_pages_user HEAP_START); [|done]. unfold heap_range, HEAP_SIZE, HEAP_PAGES, PAGE_SIZE. lia.
Qed.

End Owners.

#[global] Arguments iso_own {_ _ _ _ _ _ _ _ _ _ _ _ _ _} _.
#[global] Arguments iso_root {_ _ _ _ _ _ _ _ _ _ _ _ _ _} _.
#[global] Arguments iso_frame {_ _ _ _ _ _ _ _ _ _ _ _ _ _} _.
#[global] Arguments iso_once {_ _ _ _ _ _ _ _ _ _ _ _ _ _} _.
#[global] Arguments iso_watched {_ _ _ _ _ _ _ _ _ _ _ _ _ _} _.
#[global] Arguments iso_memory {_ _ _ _ _ _ _ _ _ _ _ _ _ _} _.
