(* ===== verification/Context.v ===== *)
(** Register contexts: [pkg/kernel/src/utils/regs.rs] and
    [pkg/kernel/src/proc/context.rs].

    The interrupt handlers made by [as_handler!] push the registers so that the
    stack holds a [ProcessContext] (a [repr(C)] struct, read and written here
    word by word), call the Rust function on it, and pop what it left there. *)
From S2P Require Import Prelude Arch.

Record RegistersValue : Type := mkRegs {
  r15 : Z; r14 : Z; r13 : Z; r12 : Z; r11 : Z; r10 : Z; r9 : Z; r8 : Z;
  rdi : Z; rsi : Z; rdx : Z; rcx : Z; rbx : Z; rax : Z; rbp : Z;
}.

(** [InterruptStackFrameValue] of the [x86_64] crate: what the CPU pushes. *)
Record InterruptStackFrameValue : Type := mkFrame {
  instruction_pointer : Z;
  code_segment : Z;
  cpu_flags : Z;
  stack_pointer : Z;
  stack_segment : Z;
}.

Record ProcessContextValue : Type := mkValue {
  regs : RegistersValue;
  stack_frame : InterruptStackFrameValue;
}.

(** [ProcessContext] wraps the value in a volatile cell. *)
Record ProcessContext : Type := mkContext { value : ProcessContextValue }.

(** ** Entering and leaving the kernel *)

Module Handler.

(** The operands of the fifteen [push]es, and of the [pop]s, in program order. *)
Definition push_order (r : RegistersValue) : list Z :=
  [rbp r; rax r; rbx r; rcx r; rdx r; rsi r; rdi r; r8 r; r9 r; r10 r; r11 r; r12 r; r13 r; r14 r; r15 r].

Definition set_r15 v r := mkRegs v (r14 r) (r13 r) (r12 r) (r11 r) (r10 r) (r9 r) (r8 r) (rdi r) (rsi r) (rdx r) (rcx r) (rbx r) (rax r) (rbp r).
Definition set_r14 v r := mkRegs (r15 r) v (r13 r) (r12 r) (r11 r) (r10 r) (r9 r) (r8 r) (rdi r) (rsi r) (rdx r) (rcx r) (rbx r) (rax r) (rbp r).
Definition set_r13 v r := mkRegs (r15 r) (r14 r) v (r12 r) (r11 r) (r10 r) (r9 r) (r8 r) (rdi r) (rsi r) (rdx r) (rcx r) (rbx r) (rax r) (rbp r).
Definition set_r12 v r := mkRegs (r15 r) (r14 r) (r13 r) v (r11 r) (r10 r) (r9 r) (r8 r) (rdi r) (rsi r) (rdx r) (rcx r) (rbx r) (rax r) (rbp r).
Definition set_r11 v r := mkRegs (r15 r) (r14 r) (r13 r) (r12 r) v (r10 r) (r9 r) (r8 r) (rdi r) (rsi r) (rdx r) (rcx r) (rbx r) (rax r) (rbp r).
Definition set_r10 v r := mkRegs (r15 r) (r14 r) (r13 r) (r12 r) (r11 r) v (r9 r) (r8 r) (rdi r) (rsi r) (rdx r) (rcx r) (rbx r) (rax r) (rbp r).
Definition set_r9 v r := mkRegs (r15 r) (r14 r) (r13 r) (r12 r) (r11 r) (r10 r) v (r8 r) (rdi r) (rsi r) (rdx r) (rcx r) (rbx r) (rax r) (rbp r).
Definition set_r8 v r := mkRegs (r15 r) (r14 r) (r13 r) (r12 r) (r11 r) (r10 r) (r9 r) v (rdi r) (rsi r) (rdx r) (rcx r) (rbx r) (rax r) (rbp r).
Definition set_rdi v r := mkRegs (r15 r) (r14 r) (r13 r) (r12 r) (r11 r) (r10 r) (r9 r) (r8 r) v (rsi r) (rdx r) (rcx r) (rbx r) (rax r) (rbp r).
Definition set_rsi v r := mkRegs (r15 r) (r14 r) (r13 r) (r12 r) (r11 r) (r10 r) (r9 r) (r8 r) (rdi r) v (rdx r) (rcx r) (rbx r) (rax r) (rbp r).
Definition set_rdx v r := mkRegs (r15 r) (r14 r) (r13 r) (r12 r) (r11 r) (r10 r) (r9 r) (r8 r) (rdi r) (rsi r) v (rcx r) (rbx r) (rax r) (rbp r).
Definition set_rcx v r := mkRegs (r15 r) (r14 r) (r13 r) (r12 r) (r11 r) (r10 r) (r9 r) (r8 r) (rdi r) (rsi r) (rdx r) v (rbx r) (rax r) (rbp r).
Definition set_rbx v r := mkRegs (r15 r) (r14 r) (r13 r) (r12 r) (r11 r) (r10 r) (r9 r) (r8 r) (rdi r) (rsi r) (rdx r) (rcx r) v (rax r) (rbp r).
Definition set_rax v r := mkRegs (r15 r) (r14 r) (r13 r) (r12 r) (r11 r) (r10 r) (r9 r) (r8 r) (rdi r) (rsi r) (rdx r) (rcx r) (rbx r) v (rbp r).
Definition set_rbp v r := mkRegs (r15 r) (r14 r) (r13 r) (r12 r) (r11 r) (r10 r) (r9 r) (r8 r) (rdi r) (rsi r) (rdx r) (rcx r) (rbx r) (rax r) v.

Definition pop_order : list (Z → RegistersValue → RegistersValue) :=
  [set_r15; set_r14; set_r13; set_r12; set_r11; set_r10; set_r9; set_r8; set_rdi; set_rsi;
   set_rdx; set_rcx; set_rbx; set_rax; set_rbp].

Definition push_all (r : RegistersValue) (st : list Z) : list Z :=
  foldl (λ st v, v :: st) st (push_order r).

Fixpoint pop_all (order : list (Z → RegistersValue → RegistersValue)) (r : RegistersValue)
    (st : list Z) : option (RegistersValue * list Z) :=
  match order, st with
  | [], _ => Some (r, st)
  | set :: order, v :: st => pop_all order (set v r) st
  | _, [] => None
  end.

(** The interrupt frame as the CPU pushes it and as [iretq] pops it. *)
Definition frame_words (f : InterruptStackFrameValue) : list Z :=
  [instruction_pointer f; code_segment f; cpu_flags f; stack_pointer f; stack_segment f].
Definition iretq (st : list Z) : option InterruptStackFrameValue :=
  match st with
  | ip :: cs :: fl :: sp :: ss :: _ => Some (mkFrame ip cs fl sp ss)
  | _ => None
  end.

(** The [repr(C)] layout of [ProcessContext]: the fields in the order they are
    declared, from the lowest address, the top of the stack. *)
Definition read_context (st : list Z) : option ProcessContext :=
  match st with
  | a15 :: a14 :: a13 :: a12 :: a11 :: a10 :: a9 :: a8 :: adi :: asi :: adx :: acx :: abx :: aax :: abp
      :: ip :: cs :: fl :: sp :: ss :: _ =>
      Some (mkContext (mkValue (mkRegs a15 a14 a13 a12 a11 a10 a9 a8 adi asi adx acx abx aax abp)
                         (mkFrame ip cs fl sp ss)))
  | _ => None
  end.
Definition write_context (c : ProcessContext) : list Z :=
  let r := regs (value c) in
  [r15 r; r14 r; r13 r; r12 r; r11 r; r10 r; r9 r; r8 r; rdi r; rsi r; rdx r; rcx r; rbx r; rax r; rbp r]
    ++ frame_words (stack_frame (value c)).

Section Handler.
Context {S : Type} (f : ProcessContext → M S ProcessContext).

(** [as_handler!(f)]: the registers and the frame at the interrupt, and those the
    CPU goes on with. *)
Definition handler (r : RegistersValue) (sf : InterruptStackFrameValue) :
    M S (RegistersValue * InterruptStackFrameValue) :=
  let st := push_all r (frame_words sf) in
  c ← unwrap (read_context st);
  c ← f c;
  x ← unwrap (pop_all pop_order r (write_context c));
  sf ← unwrap (iretq x.2);
  mret (x.1, sf).

(** Entering and leaving the kernel loses nothing: the function an interrupt
    handler calls sees exactly the registers and the frame of the interrupted
    code, and the code resumed afterwards gets exactly those the function left
    in its context. *)
Theorem handler_spec r sf (s : S) :
  handler r sf s =
  (c ← f (mkContext (mkValue r sf)); mret (regs (value c), stack_frame (value c))) s.
Proof.
  destruct r, sf. unfold handler. cbn [push_all push_order foldl frame_words].
  rewrite (bind_step _ _ s _ s eq_refl). unfold mbind, M_bind. simpl.
  destruct (f _ s) as [[[[[] []]] s']| |]; done.
Qed.
End Handler.
End Handler.

(** ** [ProcessContext] *)

Module Context.
Section Ops.
Context `{X86_64}.

Definition default : ProcessContext :=
  mkContext (mkValue (mkRegs 0 0 0 0 0 0 0 0 0 0 0 0 0 0 0) (mkFrame 0x1000 0 0 0x2000 0)).

Definition set_rax (v : Z) (self : ProcessContext) : ProcessContext :=
  mkContext (mkValue (Handler.set_rax v (regs (value self))) (stack_frame (value self))).

Definition set_stack_offset {S} (offset : Z) (self : ProcessContext) : M S ProcessContext :=
  let f := stack_frame (value self) in
  sp ← unwrap (VirtAddr_add (stack_pointer f) offset);
  mret (mkContext (mkValue (regs (value self))
    (mkFrame (instruction_pointer f) (code_segment f) (cpu_flags f) sp (stack_segment f)))).

(** The code and the stack segment a context runs with. *)
Definition segments (self : ProcessContext) : Z * Z :=
  (code_segment (stack_frame (value self)), stack_segment (stack_frame (value self))).

(** [save] overwrites the saved context; [restore] overwrites the running one. *)
Definition save (context : ProcessContext) (self : ProcessContext) : ProcessContext :=
  mkContext (value context).
Definition restore (self : ProcessContext) (context : ProcessContext) : ProcessContext :=
  mkContext (value self).

Definition IOPL_HIGH : Z := 2 ^ 13.
Definition IOPL_LOW : Z := 2 ^ 12.
Definition INTERRUPT_FLAG : Z := 2 ^ 9.

(** [selector] is what [get_user_selector] answers: the user code and data
    selectors of the GDT. *)
Definition init_stack_frame (selector : Z * Z) (entry stack_top : Z) (self : ProcessContext) :
    ProcessContext :=
  mkContext (mkValue (regs (value self))
    (mkFrame entry selector.1 (Z.lor (Z.lor IOPL_HIGH IOPL_LOW) INTERRUPT_FLAG) stack_top selector.2)).

End Ops.
End Context.
