(* ===== verification/Resource.v ===== *)
(** Keyboard input and the file-descriptor table: [pkg/kernel/src/drivers/input.rs]
    and [pkg/kernel/src/utils/resource.rs].

    The input buffer is an [ArrayQueue] of the [crossbeam] crate, here any type
    that meets the documented behaviour of a bounded queue.  What the console
    is given to print is recorded as a list of [Output]s, newest first. *)
From S2P Require Import Prelude.

(** ** The bounded queue of [crossbeam] *)

Class ArrayQueue (Q : Type) := {
  aq_new : nat → Q;
  aq_push : Z → Q → bool * Q;       (** [false]: the queue was full *)
  aq_pop : Q → option Z * Q;
}.

Class ArrayQueue_Laws (Q : Type) `{ArrayQueue Q} (contents : Q → list Z) (capacity : Q → nat) : Prop := {
  aq_new_contents n : contents (aq_new n) = [] ∧ capacity (aq_new n) = n;
  aq_push_contents k q ok q' : aq_push k q = (ok, q') →
    capacity q' = capacity q ∧
    if (length (contents q) <? capacity q)%nat then ok = true ∧ contents q' = contents q ++ [k]
    else ok = false ∧ contents q' = contents q;
  aq_pop_contents q o q' : aq_pop q = (o, q') →
    capacity q' = capacity q ∧ contents q = option_list o ++ contents q' ∧
    (o = None → contents q = []);
}.

(** A concrete queue: the capacity and the elements. *)
Definition queue : Type := (nat * list Z)%type.
#[export] Instance queue_ref : ArrayQueue queue := {|
  aq_new n := (n, []);
  aq_push k q := if (length q.2 <? q.1)%nat then (true, (q.1, q.2 ++ [k])) else (false, q);
  aq_pop q := match q.2 with [] => (None, q) | k :: l => (Some k, (q.1, l)) end;
|}.
#[export] Instance queue_ref_laws : ArrayQueue_Laws queue snd fst.
Proof.
  split.
  - done.
  - intros k [n l] ok q'. simpl. case_match; intros [= <- <-]; done.
  - intros [n l] o q'. destruct l; intros [= <- <-]; done.
Qed.

(** ** Console state *)

Inductive Output : Type :=
  | Print (bytes : list Z)        (** [print!] of the lossily decoded bytes *)
  | Warn (bytes : list Z).        (** the same with [warn!] *)

Record Io (Q : Type) : Type := mkIo { INPUT_BUF : Q; output : list Output }.
Arguments mkIo {Q}.
Arguments INPUT_BUF {Q}.
Arguments output {Q}.

Inductive StdIO : Type := Stdin | Stdout | Stderr.
Inductive Resource : Type := Console (stdio : StdIO) | Null.
#[global] Instance StdIO_eq_dec : EqDecision StdIO.
Proof. solve_decision. Defined.
#[global] Instance Resource_eq_dec : EqDecision Resource.
Proof. solve_decision. Defined.

Section Ops.
Context {Q : Type} `{ArrayQueue Q}.
#[local] Abbreviation St := (Io Q).

Definition INPUT_BUF_init : Q := aq_new 128.

(** A key that does not fit is dropped (and logged). *)
Definition push_key (key : Z) : M St () :=
  modify (λ s, mkIo (aq_push key (INPUT_BUF s)).2 (output s)).

Definition try_pop_key : M St (option Z) := λ s,
  let '(o, q) := aq_pop (INPUT_BUF s) in Done (o, mkIo q (output s)).

Definition emit (o : Output) : M St () :=
  modify (λ s, mkIo (INPUT_BUF s) (o :: output s)).

(** [read] also answers the buffer it was given, as it leaves it. *)
Definition Resource_read (self : Resource) (buf : list Z) : M St (option Z * list Z) :=
  match self with
  | Console Stdin =>
      o ← try_pop_key;
      match o with
      | Some ch =>
          match buf with
          | [] => panic
          | _ :: rest => mret (Some 1, ch :: rest)
          end
      | None => mret (Some 0, buf)
      end
  | Console _ => mret (None, buf)
  | Null => mret (Some 0, buf)
  end.

Definition Resource_write (self : Resource) (buf : list Z) : M St (option Z) :=
  match self with
  | Console Stdin => mret None
  | Console Stdout => emit (Print buf);; mret (Some (Z.of_nat (length buf)))
  | Console Stderr => emit (Warn buf);; mret (Some (Z.of_nat (length buf)))
  | Null => mret (Some (Z.of_nat (length buf)))
  end.
End Ops.

(** ** The descriptor table *)

Module ResourceSet.

(** [len() as u8] *)
Definition open (res : Resource) : M (gmap Z Resource) Z :=
  handles ← get;
  let fd := wrap 8 (Z.of_nat (size handles)) in
  put (<[fd := res]> handles);;
  mret fd.

Definition close (fd : Z) : M (gmap Z Resource) bool :=
  handles ← get;
  put (delete fd handles);;
  mret (bool_decide (is_Some (handles !! fd))).

Definition default_m : M (gmap Z Resource) () :=
  _ ← open (Console Stdin);
  _ ← open (Console Stdout);
  _ ← open (Console Stderr);
  mret ().
Definition default : gmap Z Resource :=
  match default_m ∅ with Done (_, handles) => handles | _ => ∅ end.

Section Io.
Context {Q : Type} `{ArrayQueue Q}.

(** [count as isize], -1 for a bad descriptor or direction. *)
Definition read (handles : gmap Z Resource) (fd : Z) (buf : list Z) : M (Io Q) (Z * list Z) :=
  match handles !! fd with
  | Some h =>
      r ← Resource_read h buf;
      match r.1 with
      | Some count => mret (as_isize count, r.2)
      | None => mret (-1, r.2)
      end
  | None => mret (-1, buf)
  end.

Definition write (handles : gmap Z Resource) (fd : Z) (buf : list Z) : M (Io Q) Z :=
  match handles !! fd with
  | Some h =>
      r ← Resource_write h buf;
      match r with
      | Some count => mret (as_isize count)
      | None => mret (-1)
      end
  | None => mret (-1)
  end.

(** ** Properties *)

Context (contents : Q → list Z) (capacity : Q → nat) `{!ArrayQueue_Laws Q contents capacity}.

(** What happens to the console input: a key arrives, or a process reads its
    standard input into a buffer of [n] bytes. *)
Inductive event : Type := Key (k : Z) | ReadInput (n : nat).

Fixpoint run (evs : list event) : M (Io Q) (list Z) :=
  match evs with
  | [] => mret []
  | Key k :: evs => push_key k;; run evs
  | ReadInput n :: evs =>
      r ← read default 0 (replicate n 0);
      rest ← run evs;
      mret (take (Z.to_nat r.1) r.2 ++ rest)
  end.

(** The keys that arrive while fewer than [cap] are waiting, given the number that
    wait at the start. *)
Fixpoint accepted (cap waiting : nat) (evs : list event) : list Z :=
  match evs with
  | [] => []
  | Key k :: evs =>
      if (waiting <? cap)%nat then k :: accepted cap (S waiting) evs else accepted cap waiting evs
  | ReadInput _ :: evs => accepted cap (pred waiting) evs
  end.

Lemma default_stdin : default !! 0 = Some (Console Stdin).
Proof. reflexivity. Qed.

Lemma run_fifo evs : ∀ s bytes s',
  run evs s = Done (bytes, s') →
  capacity (INPUT_BUF s') = capacity (INPUT_BUF s) ∧
  contents (INPUT_BUF s) ++ accepted (capacity (INPUT_BUF s)) (length (contents (INPUT_BUF s))) evs
    = bytes ++ contents (INPUT_BUF s').
Proof.
  induction evs as [|[k|n] evs IH]; intros s bytes s' Hr; simpl in Hr.
  - inv_done. split; [done|]. simpl. by rewrite app_nil_r.
  - apply bind_Done in Hr as ([] & s1 & Hp & Hr). unfold push_key in Hp. apply modify_Done in Hp as <-.
    apply IH in Hr as [Hc Hr]. simpl in *.
    destruct (aq_push k (INPUT_BUF s)) as [ok q] eqn:E. apply aq_push_contents in E as [Hcap E].
    simpl in *. rewrite Hcap in *. split; [done|].
    destruct (length (contents (INPUT_BUF s)) <? capacity (INPUT_BUF s))%nat; destruct E as [_ E];
      rewrite E in Hr; [|done].
    rewrite length_app, Nat.add_1_r in Hr. rewrite <- Hr, <- app_assoc. done.
  - apply bind_Done in Hr as ([c buf] & s1 & Hp & Hr). unfold read in Hp. rewrite default_stdin in Hp.
    simpl in Hp. unfold try_pop_key, mbind, M_bind in Hp.
    destruct (aq_pop (INPUT_BUF s)) as [o q] eqn:E. apply aq_pop_contents in E as (Hcap & E & Hn).
    apply bind_Done in Hr as (rest & s2 & Hr & Hret). inv_done.
    assert (Hx : s1 = mkIo q (output s) ∧ take (Z.to_nat c) buf = option_list o).
    { destruct o as [ch|]; [destruct n as [|n]; [done|]|]; simpl in Hp; injection Hp as <- <- <-; done. }
    destruct Hx as [-> Hx]. apply IH in Hr as [Hc Hr]. simpl in *. rewrite Hcap in *. split; [done|].
    rewrite Hx, <- app_assoc, <- Hr, E. destruct o as [ch|]; simpl; [done|].
    rewrite E in Hn. simpl in Hn. rewrite Hn by done. done.
Qed.

(** Console input.  From an empty buffer, the bytes that processes read from
    standard input, followed by those still waiting, are exactly the keys that
    arrived while fewer than 128 were waiting, in the order they arrived. *)
Theorem stdin_fifo evs out bytes s' :
  run evs (mkIo INPUT_BUF_init out) = Done (bytes, s') →
  accepted 128 0 evs = bytes ++ contents (INPUT_BUF s').
Proof.
  intros Hr. apply run_fifo in Hr as [_ Hr]. simpl in Hr. unfold INPUT_BUF_init in Hr.
  destruct (aq_new_contents 128) as [Hc Hcap]. rewrite Hc, Hcap in Hr. done.
Qed.

(** A read of zero bytes from standard input is fine as long as no key is
    waiting; with one waiting it panics (the key is stored into the empty
    buffer). *)
Theorem read_empty_buffer s :
  read default 0 [] s =
  match contents (INPUT_BUF s) with
  | [] => Done ((0, []), mkIo (aq_pop (INPUT_BUF s)).2 (output s))
  | _ :: _ => Panic
  end.
Proof.
  unfold read. rewrite default_stdin. unfold Resource_read, try_pop_key, mbind, M_bind.
  destruct (aq_pop (INPUT_BUF s)) as [o q] eqn:E. apply aq_pop_contents in E as (_ & E & Hn).
  destruct o as [ch|]; simpl in *; rewrite E; [done|]. by rewrite E in Hn; rewrite Hn.
Qed.

End Io.

(** Descriptors.  As long as the open ones are 0, 1, ..., n - 1 and n is below
    256, [open] hands out n, which was free; but after the descriptor below the
    last was closed, [open] answers the last one again and replaces it. *)
Theorem open_spec (handles : gmap Z Resource) (n : nat) res :
  dom handles = list_to_set (seqZ 0 (Z.of_nat n)) → Z.of_nat n < 256 →
  (handles !! Z.of_nat n = None ∧
   open res handles = Done (Z.of_nat n, <[Z.of_nat n := res]> handles)) ∧
  ((2 ≤ n)%nat →
   ∃ old, handles !! (Z.of_nat n - 1) = Some old ∧
     (close (Z.of_nat n - 2) ≫= λ _, open res) handles =
       Done (Z.of_nat n - 1, <[Z.of_nat n - 1 := res]> (delete (Z.of_nat n - 2) handles))).
Proof.
  intros Hd Hn.
  assert (Hsize : size handles = n).
  { rewrite <- size_dom, Hd, size_list_to_set by apply NoDup_seqZ. rewrite length_seqZ. lia. }
  assert (Hin : ∀ i, is_Some (handles !! i) ↔ 0 ≤ i < Z.of_nat n).
  { intros i. rewrite <- elem_of_dom, Hd, elem_of_list_to_set, elem_of_seqZ. lia. }
  split.
  - split; [apply eq_None_not_Some; rewrite Hin; lia|].
    unfold open. rewrite (bind_step _ _ _ _ _ eq_refl). cbv zeta. rewrite Hsize, wrap_small by lia. done.
  - intros H2. destruct (proj2 (Hin (Z.of_nat n - 1))) as [old Hold]; [lia|]. exists old. split; [done|].
    unfold close. rewrite (bind_step _ _ _ _ _ eq_refl). unfold open.
    rewrite (bind_step _ _ _ _ _ eq_refl). cbv zeta.
    destruct (proj2 (Hin (Z.of_nat n - 2))) as [o2 Ho2]; [lia|].
    rewrite map_size_delete_Some by eauto. rewrite Hsize, wrap_small by lia.
    replace (Z.of_nat (pred n)) with (Z.of_nat n - 1) by lia. done.
Qed.

(** ** Examples *)

Definition input_example : list event := [Key 104; Key 105; ReadInput 4; Key 33; ReadInput 1].
Definition io_example : Io queue := mkIo INPUT_BUF_init [].

Lemma stdin_fifo_witness :
  accepted 128 0 input_example =
    [104; 105] ++ (INPUT_BUF (state_of (run input_example io_example) io_example)).2.
Proof.
  apply (stdin_fifo (snd : queue → list Z) fst input_example [] [104; 105]
           (state_of (run input_example io_example) io_example)).
  vm_compute. reflexivity.
Defined.

Lemma read_empty_buffer_witness :
  read default 0 [] (mkIo (128%nat, [104]) []) = Panic.
Proof. apply (read_empty_buffer (Q := queue) snd fst (mkIo (128%nat, [104]) [])). Defined.

Lemma open_spec_witness :
  (default !! 3 = None ∧ open Null default = Done (3, <[3 := Null]> default)) ∧
  ((2 ≤ 3)%nat →
   ∃ old, default !! 2 = Some old ∧
     (close 1 ≫= λ _, open Null) default = Done (2, <[2 := Null]> (delete 1 default))).
Proof. apply (open_spec default 3 Null); [vm_compute; reflexivity|lia]. Defined.

End ResourceSet.
