(* ===== verification/Data.v ===== *)
(** The data of a process: [pkg/kernel/src/proc/data.rs].

    [ProcessData] holds three [Arc]s, which a clone shares: here the names of
    entries in the [DataStore].  An [Arc] whose last owner is gone is left in
    the store; nothing can refer to it. *)
From S2P Require Import Prelude Pid Sync Resource.
From stdpp Require Import strings.
#[local] Open Scope Z_scope.

Record ProcessData : Type := mkProcessData {
  env_ : nat;
  resources_ : nat;
  semaphores_ : nat;
}.

Record DataStore (Q : Type) : Type := mkStore {
  envs : gmap nat (gmap string string);
  resources : gmap nat (gmap Z Resource);
  semaphores : gmap nat (gmap Z Semaphore);
  io : Io Q;
}.
Arguments mkStore {Q}.
Arguments envs {Q}.
Arguments resources {Q}.
Arguments semaphores {Q}.
Arguments io {Q}.

Module Data.
Section Ops.
Context `{Profile} {Q : Type} `{ArrayQueue Q}.
#[local] Abbreviation St := (DataStore Q).

Definition set_envs (e : gmap nat (gmap string string)) : M St () :=
  modify (λ s, mkStore e (resources s) (semaphores s) (io s)).
Definition set_resources (r : gmap nat (gmap Z Resource)) : M St () :=
  modify (λ s, mkStore (envs s) r (semaphores s) (io s)).
Definition set_semaphores (m : gmap nat (gmap Z Semaphore)) : M St () :=
  modify (λ s, mkStore (envs s) (resources s) m (io s)).

Definition default : M St ProcessData :=
  s ← get;
  let e := fresh (dom (envs s)) in
  let r := fresh (dom (resources s)) in
  let m := fresh (dom (semaphores s)) in
  set_envs (<[e := ∅]> (envs s));;
  set_resources (<[r := ResourceSet.default]> (resources s));;
  set_semaphores (<[m := SemaphoreSet.default]> (semaphores s));;
  mret (mkProcessData e r m).

Definition new : M St ProcessData := default.

(** [#[derive(Clone)]]: the [Arc]s are shared. *)
Definition clone (self : ProcessData) : ProcessData :=
  mkProcessData (env_ self) (resources_ self) (semaphores_ self).

Definition read (self : ProcessData) (fd : Z) (buf : list Z) : M St (Z * list Z) :=
  s ← get;
  handles ← unwrap (resources s !! resources_ self);
  zoom io (λ i s, mkStore (envs s) (resources s) (semaphores s) i) (ResourceSet.read handles fd buf).

Definition write (self : ProcessData) (fd : Z) (buf : list Z) : M St Z :=
  s ← get;
  handles ← unwrap (resources s !! resources_ self);
  zoom io (λ i s, mkStore (envs s) (resources s) (semaphores s) i) (ResourceSet.write handles fd buf).

Definition env (self : ProcessData) (key : string) : M St (option string) :=
  s ← get;
  e ← unwrap (envs s !! env_ self);
  mret (e !! key).

Definition set_env (self : ProcessData) (key val : string) : M St ProcessData :=
  s ← get;
  e ← unwrap (envs s !! env_ self);
  set_envs (<[env_ self := <[key := val]> e]> (envs s));;
  mret self.

(** An operation on the semaphore table the process refers to. *)
Definition on_sems {R} (self : ProcessData) (m : M (gmap Z Semaphore) R) : M St R :=
  s ← get;
  sems ← unwrap (semaphores s !! semaphores_ self);
  match m sems with
  | Done (r, sems') => set_semaphores (<[semaphores_ self := sems']> (semaphores s));; mret r
  | Panic => panic
  | OutOfFuel => out_of_fuel
  end.

Definition sem_wait (self : ProcessData) (key pid : Z) : M St SemaphoreResult :=
  on_sems self (SemaphoreSet.wait key pid).
Definition sem_signal (self : ProcessData) (key : Z) : M St SemaphoreResult :=
  on_sems self (SemaphoreSet.signal key).
Definition sem_new (self : ProcessData) (key value : Z) : M St bool :=
  on_sems self (SemaphoreSet.insert key value).
Definition sem_remove (self : ProcessData) (key : Z) : M St bool :=
  on_sems self (SemaphoreSet.remove key).

End Ops.
End Data.
