(* ===== verification/Process.v ===== *)
(** Processes: [pkg/kernel/src/proc/process.rs], and the state of the kernel that
    the process code works on.

    An [Arc<Process>] is the name of an entry of [procs].  The table of
    processes never removes an entry, so a [Weak] pointer always upgrades; the
    model does not drop the [Process] that [BTreeMap::insert] would replace
    when a 16-bit pid is used a second time. *)
From S2P Require Import Prelude Arch Pid Sync Frames Elf Stack Heap Vm Context Resource Data.
From stdpp Require Import strings.
#[local] Open Scope Z_scope.

Inductive ProgramStatus : Type := Running | Ready | Blocked | Dead.
#[global] Instance ProgramStatus_eq_dec : EqDecision ProgramStatus.
Proof. solve_decision. Defined.

Record ProcessInner : Type := mkInner {
  name : string;
  parent : option nat;
  children : list nat;
  ticks_passed : Z;
  status : ProgramStatus;
  context : ProcessContext;
  exit_code : option Z;
  proc_data : option ProcessData;
  proc_vm : option ProcessVm;
}.

Record Process : Type := mkProcess { pid : Z; inner : ProcessInner }.

(** An entry of [boot::App]. *)
Record App : Type := mkApp { app_name : string; app_elf : ElfFile }.

(** ** The kernel's state *)

Record Kernel (PT Q : Type) : Type := mkKernel {
  kmem : Mem PT;                       (** memory, page tables, CR3 *)
  data : DataStore Q;                  (** what [ProcessData] refers to; the console *)
  NEXT_PID : Z;
  PROCESSORS : list Z;
  procs : gmap nat Process;            (** behind the [Arc<Process>]es *)
  processes : gmap Z nat;              (** [ProcessManager::processes] *)
  ready_queue : list Z;                (** front first *)
  wait_queue : gmap Z (list Z);        (** the [BTreeSet]s, ascending *)
  app_list : option (list App);
}.
Arguments mkKernel {PT Q}.
Arguments kmem {PT Q}.
Arguments data {PT Q}.
Arguments NEXT_PID {PT Q}.
Arguments PROCESSORS {PT Q}.
Arguments procs {PT Q}.
Arguments processes {PT Q}.
Arguments ready_queue {PT Q}.
Arguments wait_queue {PT Q}.
Arguments app_list {PT Q}.

Section Parts.
Context {PT Q : Type}.
#[local] Abbreviation St := (Kernel PT Q).

Definition set_kmem (v : Mem PT) (s : St) : St :=
  mkKernel v (data s) (NEXT_PID s) (PROCESSORS s) (procs s) (processes s) (ready_queue s) (wait_queue s) (app_list s).
Definition set_data (v : DataStore Q) (s : St) : St :=
  mkKernel (kmem s) v (NEXT_PID s) (PROCESSORS s) (procs s) (processes s) (ready_queue s) (wait_queue s) (app_list s).
Definition set_next_pid (v : Z) (s : St) : St :=
  mkKernel (kmem s) (data s) v (PROCESSORS s) (procs s) (processes s) (ready_queue s) (wait_queue s) (app_list s).
Definition set_cpus (v : list Z) (s : St) : St :=
  mkKernel (kmem s) (data s) (NEXT_PID s) v (procs s) (processes s) (ready_queue s) (wait_queue s) (app_list s).
Definition set_procs (v : gmap nat Process) (s : St) : St :=
  mkKernel (kmem s) (data s) (NEXT_PID s) (PROCESSORS s) v (processes s) (ready_queue s) (wait_queue s) (app_list s).
Definition set_processes (v : gmap Z nat) (s : St) : St :=
  mkKernel (kmem s) (data s) (NEXT_PID s) (PROCESSORS s) (procs s) v (ready_queue s) (wait_queue s) (app_list s).
Definition set_ready (v : list Z) (s : St) : St :=
  mkKernel (kmem s) (data s) (NEXT_PID s) (PROCESSORS s) (procs s) (processes s) v (wait_queue s) (app_list s).
Definition set_waits (v : gmap Z (list Z)) (s : St) : St :=
  mkKernel (kmem s) (data s) (NEXT_PID s) (PROCESSORS s) (procs s) (processes s) (ready_queue s) v (app_list s).

Definition on_mem {R} : M (Mem PT) R → M St R := zoom kmem set_kmem.
Definition on_data {R} : M (DataStore Q) R → M St R := zoom data set_data.
Definition on_pid {R} : M Z R → M St R := zoom NEXT_PID set_next_pid.
Definition on_cpus {R} : M (list Z) R → M St R := zoom PROCESSORS set_cpus.

(** Reading and writing what an [Arc<Process>] points to. *)
Definition read_proc (loc : nat) : M St Process := s ← get; unwrap (procs s !! loc).
Definition write_proc (loc : nat) (p : Process) : M St () :=
  modify (λ s, set_procs (<[loc := p]> (procs s)) s).
Definition modify_inner (loc : nat) (f : ProcessInner → ProcessInner) : M St () :=
  p ← read_proc loc; write_proc loc (mkProcess (pid p) (f (inner p))).
Definition Arc_new_proc (p : Process) : M St nat :=
  s ← get;
  let loc := fresh (dom (procs s)) in
  write_proc loc p;; mret loc.

End Parts.

(** [str::to_ascii_lowercase] *)
Definition ascii_lower (c : Ascii.ascii) : Ascii.ascii :=
  let n := Ascii.nat_of_ascii c in
  if (65 <=? n)%nat && (n <=? 90)%nat then Ascii.ascii_of_nat (n + 32) else c.
Fixpoint to_ascii_lowercase (s : string) : string :=
  match s with
  | EmptyString => EmptyString
  | String c s => String (ascii_lower c) (to_ascii_lowercase s)
  end.

(** ** [ProcessInner] *)

Module Inner.
Section Ops.
Context `{Profile} `{X86_64} {PT : Type} `{Mapper PT} (PHYSICAL_OFFSET : option Z).
#[local] Abbreviation St := (Mem PT).

Definition set_status (st : ProgramStatus) (self : ProcessInner) : ProcessInner :=
  mkInner (name self) (parent self) (children self) (ticks_passed self) st (context self)
    (exit_code self) (proc_data self) (proc_vm self).
Definition set_context (c : ProcessContext) (self : ProcessInner) : ProcessInner :=
  mkInner (name self) (parent self) (children self) (ticks_passed self) (status self) c
    (exit_code self) (proc_data self) (proc_vm self).
Definition set_vm (v : option ProcessVm) (self : ProcessInner) : ProcessInner :=
  mkInner (name self) (parent self) (children self) (ticks_passed self) (status self) (context self)
    (exit_code self) (proc_data self) v.
Definition push_child (loc : nat) (self : ProcessInner) : ProcessInner :=
  mkInner (name self) (parent self) (children self ++ [loc]) (ticks_passed self) (status self)
    (context self) (exit_code self) (proc_data self) (proc_vm self).

Definition tick (self : ProcessInner) : M St ProcessInner :=
  t ← word_op 64 (ticks_passed self + 1);
  mret (mkInner (name self) (parent self) (children self) t (status self) (context self)
          (exit_code self) (proc_data self) (proc_vm self)).

Definition pause : ProcessInner → ProcessInner := set_status Ready.
Definition resume : ProcessInner → ProcessInner := set_status Running.
Definition block : ProcessInner → ProcessInner := set_status Blocked.
Definition is_ready (self : ProcessInner) : bool := bool_decide (status self = Ready).

Definition vm (self : ProcessInner) : M St ProcessVm := unwrap (proc_vm self).

Definition handle_page_fault (current : option Z) (self : ProcessInner) (addr : Z) :
    M St (bool * ProcessInner) :=
  v ← vm self;
  r ← Vm.handle_page_fault PHYSICAL_OFFSET current v addr;
  mret (r.1, set_vm (Some r.2) self).

(** [ret as usize] *)
Definition set_return_value (ret : Z) (self : ProcessInner) : ProcessInner :=
  set_context (Context.set_rax (as_usize ret) (context self)) self.

Definition clone_page_table (self : ProcessInner) : M St nat :=
  v ← vm self; PageTableContext.clone_level_4 PHYSICAL_OFFSET (page_table v).

Definition load_elf (self : ProcessInner) (elf : ElfFile) : M St ProcessInner :=
  v ← vm self; v ← Vm.load_elf PHYSICAL_OFFSET v elf; mret (set_vm (Some v) self).

Definition save (ctx : ProcessContext) (self : ProcessInner) : ProcessInner :=
  set_status Ready (set_context (Context.save ctx (context self)) self).

Definition restore (self : ProcessInner) (ctx : ProcessContext) : M St (ProcessContext * ProcessInner) :=
  let ctx := Context.restore (context self) ctx in
  v ← vm self;
  PageTableContext.load (page_table v);;
  mret (ctx, set_status Running self).

Definition init_stack_frame (selector : Z * Z) (entry stack_top : Z) (self : ProcessInner) : ProcessInner :=
  set_context (Context.init_stack_frame selector entry stack_top (context self)) self.

(** [proc_vm.take()] drops the memory. *)
Definition kill (ret : Z) (self : ProcessInner) : M St ProcessInner :=
  (match proc_vm self with
   | Some v => Vm.drop PHYSICAL_OFFSET v
   | None => mret ()
   end);;
  mret (mkInner (name self) (parent self) (children self) (ticks_passed self) Dead (context self)
          (Some ret) None None).

Definition fork (parent_ : nat) (self : ProcessInner) : M St ProcessInner :=
  v ← vm self;
  new_vm ← Vm.fork PHYSICAL_OFFSET v (Z.of_nat (length (children self)));
  offset ← on_machine (StackOps.stack_offset (stack new_vm) (stack v));
  new_context ← Context.set_stack_offset offset (context self);
  let new_context := Context.set_rax 0 new_context in
  mret (mkInner (name self) (Some parent_) [] 0 Ready new_context None
          (Data.clone <$> proc_data self) (Some new_vm)).

(** [!0] when [brk] refuses. *)
Definition brk (self : ProcessInner) (addr : option Z) : M St Z :=
  v ← vm self;
  a ← (match addr with
       | Some a => va ← unwrap (VirtAddr_new a); mret (Some va)
       | None => mret None
       end);
  r ← Vm.brk PHYSICAL_OFFSET v a;
  mret (match r with Some a => a | None => u64_max end).

End Ops.
End Inner.

(** ** [Process] *)

Module Proc.
Section Ops.
Context `{Profile} `{X86_64} {PT Q : Type} `{Mapper PT} `{ArrayQueue Q} (PHYSICAL_OFFSET : option Z).
#[local] Abbreviation St := (Kernel PT Q).

Definition new (name : string) (parent : option nat) (proc_vm : option ProcessVm)
    (proc_data : option ProcessData) : M St nat :=
  let name := to_ascii_lowercase name in
  pid ← on_pid Pid.ProcessId_new;
  vm ← (match proc_vm with
        | Some v => mret v
        | None => pt ← on_mem PageTableContext.new; on_mem (Vm.new pt)
        end);
  d ← (match proc_data with Some d => mret d | None => on_data Data.default end);
  Arc_new_proc (mkProcess pid
    (mkInner name parent [] 0 Ready Context.default None (Some d) (Some vm))).

Definition kill (self : nat) (ret : Z) : M St () :=
  p ← read_proc self;
  i ← on_mem (Inner.kill PHYSICAL_OFFSET ret (inner p));
  write_proc self (mkProcess (pid p) i).

Definition fork (self : nat) : M St nat :=
  p ← read_proc self;
  child_inner ← on_mem (Inner.fork PHYSICAL_OFFSET self (inner p));
  child_pid ← on_pid Pid.ProcessId_new;
  let i := Inner.pause (inner p) in
  child ← Arc_new_proc (mkProcess child_pid child_inner);
  let i := Inner.push_child child i in
  let i := Inner.set_context (Context.set_rax child_pid (context i)) i in
  write_proc self (mkProcess (pid p) i);;
  mret child.

End Ops.
End Proc.
