(* ===== verification/Manager.v ===== *)
(** The process manager and the kernel's process interface:
    [pkg/kernel/src/proc/manager.rs] and [pkg/kernel/src/proc/mod.rs].

    Every function runs with interrupts disabled on one CPU, so each is one
    step; the locks of the source are always free when they are taken.  [cpuid]
    is the CPU's APIC id, [selector] the user segment selectors of the GDT. *)
From S2P Require Import Prelude Arch Pid Sync Frames Elf Stack Heap Vm Context Resource Data Process.
From stdpp Require Import strings.
#[local] Open Scope Z_scope.

(** [BTreeSet::insert] on a set kept as an ascending list. *)
Fixpoint btree_insert (x : Z) (l : list Z) : list Z :=
  match l with
  | [] => [x]
  | y :: l' => if x <? y then x :: l else if x =? y then l else y :: btree_insert x l'
  end.

(** [PageFaultErrorCode::PROTECTION_VIOLATION] *)
Definition PROTECTION_VIOLATION : Z := 1.

Section Manager.
Context `{Profile} `{X86_64} {PT Q : Type} `{Mapper PT} `{ArrayQueue Q}.
Context (PHYSICAL_OFFSET : option Z) (cpuid : nat) (selector : Z * Z).
#[local] Abbreviation St := (Kernel PT Q).

Definition current_pid : M St Z := on_cpus (Processor.current_pid cpuid).
Definition set_pid (pid : Z) : M St () := on_cpus (Processor.set_pid cpuid pid).

(** ** [ProcessManager] *)

Definition push_ready (pid : Z) : M St () := modify (λ s, set_ready (ready_queue s ++ [pid]) s).
Definition add_proc (pid : Z) (proc : nat) : M St () :=
  modify (λ s, set_processes (<[pid := proc]> (processes s)) s).
Definition get_proc (pid : Z) : M St (option nat) := gets (λ s, processes s !! pid).

Definition current : M St nat :=
  pid ← current_pid; o ← get_proc pid; unwrap o.

Definition get_ret (pid : Z) : M St (option Z) :=
  o ← get_proc pid;
  match o with
  | Some loc => p ← read_proc loc; mret (exit_code (inner p))
  | None => mret None
  end.

Definition manager_wait_pid (pid : Z) : M St (option Z) :=
  r ← get_ret pid;
  match r with
  | Some ret => mret (Some ret)
  | None =>
      cur ← current_pid;
      modify (λ s, set_waits (<[pid := btree_insert cur (default [] (wait_queue s !! pid))]> (wait_queue s)) s);;
      mret None
  end.

Definition save_current (ctx : ProcessContext) : M St Z :=
  loc ← current;
  p ← read_proc loc;
  i ← on_mem (Inner.tick (inner p));
  write_proc loc (mkProcess (pid p) (Inner.save ctx i));;
  mret (pid p).

Definition pop_ready : M St (option Z) := λ s,
  match ready_queue s with
  | [] => Done (None, s)
  | next :: q => Done (Some next, set_ready q s)
  end.

(** The [while let] of [switch_next]; every round takes an element of the queue. *)
Fixpoint switch_loop (fuel : nat) (pid : Z) (ctx : ProcessContext) : M St (Z * ProcessContext) :=
  match fuel with
  | O => out_of_fuel
  | S fuel =>
      o ← pop_ready;
      match o with
      | None => mret (pid, ctx)
      | Some next =>
          l ← get_proc next;
          loc ← unwrap l;
          p ← read_proc loc;
          if negb (Inner.is_ready (inner p)) then switch_loop fuel pid ctx
          else if negb (pid =? next) then
            r ← on_mem (Inner.restore (inner p) ctx);
            write_proc loc (mkProcess (Process.pid p) r.2);;
            set_pid next;;
            mret (next, r.1)
          else mret (pid, ctx)
      end
  end.

Definition switch_next (ctx : ProcessContext) : M St (Z * ProcessContext) :=
  pid ← current_pid;
  n ← gets (λ s, S (length (ready_queue s)));
  switch_loop n pid ctx.

Definition manager_read (fd : Z) (buf : list Z) : M St (Z * list Z) :=
  loc ← current; p ← read_proc loc; d ← unwrap (proc_data (inner p)); on_data (Data.read d fd buf).

Definition manager_write (fd : Z) (buf : list Z) : M St Z :=
  loc ← current; p ← read_proc loc; d ← unwrap (proc_data (inner p)); on_data (Data.write d fd buf).

Definition spawn_elf (elf : ElfFile) (name : string) (parent : option nat)
    (proc_data : option ProcessData) : M St Z :=
  k ← get_proc KERNEL_PID;
  kproc ← unwrap k;
  kp ← read_proc kproc;
  page_table ← on_mem (Inner.clone_page_table PHYSICAL_OFFSET (inner kp));
  v ← on_mem (Vm.new page_table);
  proc ← Proc.new name parent (Some v) proc_data;
  modify_inner proc Inner.pause;;
  p ← read_proc proc;
  i ← on_mem (Inner.load_elf PHYSICAL_OFFSET (inner p) elf);
  let i := Inner.init_stack_frame selector (VirtAddr_new_truncate (entry_point elf))
             (VirtAddr_new_truncate STACK_INIT_TOP) i in
  write_proc proc (mkProcess (pid p) i);;
  add_proc (pid p) proc;;
  push_ready (pid p);;
  mret (pid p).

Definition wake_up (pid ret : Z) : M St () :=
  o ← get_proc pid;
  match o with
  | Some loc =>
      modify_inner loc (λ i, Inner.pause (Inner.set_return_value ret i));;
      push_ready pid
  | None => mret ()
  end.

Definition manager_block (pid : Z) : M St () :=
  o ← get_proc pid;
  match o with
  | Some loc => modify_inner loc Inner.block
  | None => mret ()
  end.

Definition manager_handle_page_fault (addr err_code : Z) : M St bool :=
  if negb (Z.land err_code PROTECTION_VIOLATION =? PROTECTION_VIOLATION) then
    loc ← current;
    p ← read_proc loc;
    cur ← gets (λ s, PROCESSORS s !! cpuid ≫= Processor.get_pid);
    r ← on_mem (Inner.handle_page_fault PHYSICAL_OFFSET cur (inner p) addr);
    write_proc loc (mkProcess (pid p) r.2);;
    mret r.1
  else mret false.

Fixpoint wake_all (pids : list Z) (ret : Z) : M St () :=
  match pids with
  | [] => mret ()
  | p :: pids => wake_up p ret;; wake_all pids ret
  end.

Definition take_waiters (pid : Z) : M St (option (list Z)) := λ s,
  Done (wait_queue s !! pid, set_waits (delete pid (wait_queue s)) s).

Definition manager_kill (pid ret : Z) : M St () :=
  o ← get_proc pid;
  match o with
  | None => mret ()
  | Some loc =>
      Proc.kill PHYSICAL_OFFSET loc ret;;
      w ← take_waiters pid;
      match w with
      | Some pids => wake_all pids ret
      | None => mret ()
      end
  end.

Definition kill_self (ret : Z) : M St () := pid ← current_pid; manager_kill pid ret.

Definition manager_fork : M St () :=
  proc ← current;
  child ← Proc.fork PHYSICAL_OFFSET proc;
  c ← read_proc child;
  push_ready (pid c);;
  add_proc (pid c) child.

(** ** [proc/mod.rs] *)

(** The timer interrupt. *)
Definition switch (ctx : ProcessContext) : M St ProcessContext :=
  pid ← save_current ctx;
  push_ready pid;;
  r ← switch_next ctx;
  mret r.2.

Definition fork (ctx : ProcessContext) : M St ProcessContext :=
  parent ← save_current ctx;
  manager_fork;;
  push_ready parent;;
  r ← switch_next ctx;
  mret r.2.

Definition env (key : string) : M St (option string) :=
  loc ← current; p ← read_proc loc; d ← unwrap (proc_data (inner p)); on_data (Data.env d key).

Definition process_exit (ret : Z) (ctx : ProcessContext) : M St ProcessContext :=
  kill_self ret;;
  r ← switch_next ctx;
  mret r.2.

Definition wait_pid (pid : Z) (ctx : ProcessContext) : M St ProcessContext :=
  o ← manager_wait_pid pid;
  match o with
  | Some ret => mret (Context.set_rax (as_usize ret) ctx)
  | None =>
      _ ← save_current ctx;
      loc ← current;
      modify_inner loc Inner.block;;
      r ← switch_next ctx;
      mret r.2
  end.

Definition wait_no_block (pid : Z) : M St (option Z) := get_ret pid.
Definition read (fd : Z) (buf : list Z) : M St (Z * list Z) := manager_read fd buf.
Definition write (fd : Z) (buf : list Z) : M St Z := manager_write fd buf.

Definition kill (pid : Z) (ctx : ProcessContext) : M St ProcessContext :=
  cur ← current_pid;
  if pid =? cur then
    kill_self 0xdead;;
    r ← switch_next ctx;
    mret r.2
  else manager_kill pid 0xdead;; mret ctx.

(** [str::to_lowercase] of the name is only logged. *)
Definition elf_spawn (name : string) (elf : ElfFile) : M St (result Z ()) :=
  parent ← current;
  pid ← spawn_elf elf name (Some parent) None;
  mret (Ok pid).

Definition spawn (name : string) : M St (result Z ()) :=
  l ← gets app_list;
  match (apps ← l; head (filter (λ a, app_name a = name) apps)) with
  | None => mret (Err ())
  | Some app => elf_spawn name (app_elf app)
  end.

Definition handle_page_fault (addr err_code : Z) : M St bool := manager_handle_page_fault addr err_code.

(** A [Block] or [WakeUp] where the source has [unreachable!] panics. *)
Definition sem_wait (key : Z) (ctx : ProcessContext) : M St ProcessContext :=
  pid ← current_pid;
  loc ← current;
  p ← read_proc loc;
  d ← unwrap (proc_data (inner p));
  ret ← on_data (Data.sem_wait d key pid);
  match ret with
  | SemOk => mret (Context.set_rax 0 ctx)
  | NotExist => mret (Context.set_rax 1 ctx)
  | Block _ =>
      pid ← save_current ctx;
      manager_block pid;;
      r ← switch_next ctx;
      mret r.2
  | WakeUp _ => panic
  end.

Definition sem_signal (key : Z) (ctx : ProcessContext) : M St ProcessContext :=
  _ ← current_pid;
  loc ← current;
  p ← read_proc loc;
  d ← unwrap (proc_data (inner p));
  ret ← on_data (Data.sem_signal d key);
  match ret with
  | SemOk => mret (Context.set_rax 0 ctx)
  | NotExist => mret (Context.set_rax 1 ctx)
  | WakeUp pid => wake_up pid 0;; mret ctx
  | Block _ => panic
  end.

Definition new_sem (key init : Z) : M St Z :=
  loc ← current;
  p ← read_proc loc;
  d ← unwrap (proc_data (inner p));
  ret ← on_data (Data.sem_new d key init);
  mret (if ret : bool then 0 else 1).

Definition remove_sem (key : Z) : M St Z :=
  loc ← current;
  p ← read_proc loc;
  d ← unwrap (proc_data (inner p));
  ret ← on_data (Data.sem_remove d key);
  mret (if ret : bool then 0 else 1).

Definition brk (addr : option Z) : M St Z :=
  loc ← current; p ← read_proc loc; on_mem (Inner.brk PHYSICAL_OFFSET (inner p) addr).

(** ** Initialisation *)

Definition manager_init (init : nat) : M St () :=
  p ← read_proc init;
  set_pid (pid p);;
  modify (λ s, set_processes {[ pid p := init ]} (set_ready [] (set_waits ∅ s))).

Definition init (kernel_pages : list (Z * Z)) : M St () :=
  pt ← on_mem PageTableContext.new;
  v ← on_mem (Vm.new pt);
  v ← on_mem (Vm.init_kernel_vm v kernel_pages);
  kproc ← Proc.new "kernel" None (Some v) None;
  modify_inner kproc Inner.resume;;
  manager_init kproc.

End Manager.
