(* ===== verification/Text.v ===== *)
(** Strings of Rust's standard library, as far as the boot loader, the user
    library and the shell use them.

    A [str] is the list of its characters (Unicode scalar values); its length and
    the positions in it count the bytes of its UTF-8 encoding, as [str::len] and
    slicing do. *)
From S2P Require Import Prelude.
From Stdlib Require Strings.String Strings.Ascii.

#[global] Abbreviation str := (list Z).

(** A literal. *)
Definition chars (s : String.string) : str :=
  Z.of_nat ∘ Ascii.nat_of_ascii <$> String.list_ascii_of_string s.

(** * UTF-8 *)

(** [char::from_u32] accepts exactly these. *)
Definition is_scalar (c : Z) : bool := in_word 21 c && (c <? 0x110000) && negb ((0xd800 <=? c) && (c <? 0xe000)).

Definition char_from_u32 (c : Z) : option Z := if is_scalar c then Some c else None.

Definition len_utf8 (c : Z) : Z :=
  if c <? 0x80 then 1 else if c <? 0x800 then 2 else if c <? 0x10000 then 3 else 4.

Definition encode_utf8 (c : Z) : list Z :=
  let tail n := 0x80 + (c / 2 ^ (6 * n)) `mod` 0x40 in
  if c <? 0x80 then [c]
  else if c <? 0x800 then [0xc0 + c / 2 ^ 6; tail 0]
  else if c <? 0x10000 then [0xe0 + c / 2 ^ 12; tail 1; tail 0]
  else [0xf0 + c / 2 ^ 18; tail 2; tail 1; tail 0].

(** [str::as_bytes] *)
Definition as_bytes (s : str) : list Z := s ≫= encode_utf8.

(** [str::len] *)
Fixpoint str_len (s : str) : Z :=
  match s with [] => 0 | c :: s => len_utf8 c + str_len s end.

Definition continuation (b : Z) : option Z := if (0x80 <=? b) && (b <? 0xc0) then Some (b - 0x80) else None.

(** A character needs its shortest form. *)
Definition decoded (least c : Z) : option Z := if (least <=? c) && is_scalar c then Some c else None.

(** [core::str::from_utf8]; [None] is its error. *)
Fixpoint from_utf8 (bs : list Z) : option str :=
  match bs with
  | [] => Some []
  | b0 :: bs =>
      if b0 <? 0x80 then cons b0 <$> from_utf8 bs
      else if b0 <? 0xc0 then None
      else match bs with
           | [] => None
           | b1 :: bs =>
               c1 ← continuation b1;
               if b0 <? 0xe0 then
                 c ← decoded 0x80 ((b0 - 0xc0) * 2 ^ 6 + c1);
                 cons c <$> from_utf8 bs
               else match bs with
                    | [] => None
                    | b2 :: bs =>
                        c2 ← continuation b2;
                        if b0 <? 0xf0 then
                          c ← decoded 0x800 ((b0 - 0xe0) * 2 ^ 12 + c1 * 2 ^ 6 + c2);
                          cons c <$> from_utf8 bs
                        else match bs with
                             | [] => None
                             | b3 :: bs =>
                                 c3 ← continuation b3;
                                 c ← decoded 0x10000
                                       ((b0 - 0xf0) * 2 ^ 18 + c1 * 2 ^ 12 + c2 * 2 ^ 6 + c3);
                                 cons c <$> from_utf8 bs
                             end
                    end
           end
  end.

(** [&s[n..]]; [None] is the panic when byte [n] is not the start of a character. *)
Fixpoint slice_from (n : Z) (s : str) : option str :=
  if n =? 0 then Some s
  else match s with
       | [] => None
       | c :: s => if len_utf8 c <=? n then slice_from (n - len_utf8 c) s else None
       end.

(** * Splitting and trimming *)

(** [char::is_whitespace]: Unicode's White_Space. *)
Definition is_whitespace (c : Z) : bool :=
  ((9 <=? c) && (c <=? 13)) || (c =? 0x20) || (c =? 0x85) || (c =? 0xa0) || (c =? 0x1680) ||
  ((0x2000 <=? c) && (c <=? 0x200a)) || (c =? 0x2028) || (c =? 0x2029) || (c =? 0x202f) ||
  (c =? 0x205f) || (c =? 0x3000).

Fixpoint trim_start (s : str) : str :=
  match s with
  | [] => []
  | c :: s' => if is_whitespace c then trim_start s' else s
  end.

Definition trim_end (s : str) : str := reverse (trim_start (reverse s)).

Definition trim (s : str) : str := trim_end (trim_start s).

(** [split(sep)] on a character: never empty. *)
Fixpoint split (sep : Z) (s : str) : list str :=
  match s with
  | [] => [[]]
  | c :: s =>
      if c =? sep then [] :: split sep s
      else match split sep s with
           | p :: ps => (c :: p) :: ps
           | [] => [[c]]
           end
  end.

(** [split_once(sep)] *)
Fixpoint split_once (sep : Z) (s : str) : option (str * str) :=
  match s with
  | [] => None
  | c :: s =>
      if c =? sep then Some ([], s)
      else '(k, v) ← split_once sep s; Some (c :: k, v)
  end.

(** [lines()]: a line ends in a line feed, which a carriage return may precede; the last may
    lack its end. *)
Definition strip_cr (l : str) : str :=
  match reverse l with
  | 13 :: r => reverse r
  | _ => l
  end.

Fixpoint lines_of (ps : list str) : list str :=
  match ps with
  | [] => []
  | [p] => if decide (p = []) then [] else [p]
  | p :: ps => strip_cr p :: lines_of ps
  end.

Definition lines (s : str) : list str := lines_of (split 10 s).

Definition to_ascii_lowercase (s : str) : str :=
  (λ c, if (65 <=? c) && (c <=? 90) then c + 32 else c) <$> s.

(** * Numbers *)

(** [char::to_digit] *)
Definition to_digit (radix c : Z) : option Z :=
  let d := if (48 <=? c) && (c <=? 57) then c - 48
           else if (97 <=? c) && (c <=? 122) then c - 87
           else if (65 <=? c) && (c <=? 90) then c - 55
           else radix in
  if d <? radix then Some d else None.

Fixpoint digits (w radix acc : Z) (s : str) : option Z :=
  match s with
  | [] => Some acc
  | c :: s =>
      d ← to_digit radix c;
      let v := acc * radix + d in
      if v <? 2 ^ w then digits w radix v s else None
  end.

(** [from_str_radix] of the unsigned type of [w] bits; [from_str] and [parse] are
    the case of radix 10.  [None] is any of its errors. *)
Definition from_str_radix (w radix : Z) (s : str) : option Z :=
  match s with
  | [] => None
  | 43 :: s' => if decide (s' = []) then None else digits w radix 0 s'
  | _ => digits w radix 0 s
  end.

Definition from_str (w : Z) (s : str) : option Z := from_str_radix w 10 s.

(** The digits that [{}] and [{:x}] print. *)
Definition digit (d : Z) : Z := if d <? 10 then 48 + d else 87 + d.

Fixpoint show_digits (fuel : nat) (radix n : Z) (s : str) : str :=
  match fuel with
  | O => s
  | S fuel =>
      let s := digit (n `mod` radix) :: s in
      if n <? radix then s else show_digits fuel radix (n / radix) s
  end.

(** 64 digits are enough for 64 bits in any radix. *)
Definition show (radix n : Z) : str := show_digits 64 radix n [].

(** * Facts *)

Lemma is_scalar_spec c :
  is_scalar c = true ↔ 0 ≤ c < 0x110000 ∧ ¬ (0xd800 ≤ c < 0xe000).
Proof.
  unfold is_scalar, in_word. rewrite !andb_true_iff, negb_true_iff, andb_false_iff.
  rewrite !Z.leb_le, !Z.ltb_lt, Z.leb_gt, Z.ltb_ge. lia.
Qed.

Lemma len_utf8_pos c : 1 ≤ len_utf8 c.
Proof. unfold len_utf8. repeat case_match; lia. Qed.

Lemma len_encode c : Z.of_nat (length (encode_utf8 c)) = len_utf8 c.
Proof. unfold encode_utf8, len_utf8. repeat case_match; done. Qed.

(** Lengths are lengths in bytes. *)
Lemma str_len_bytes s : str_len s = Z.of_nat (length (as_bytes s)).
Proof.
  induction s as [|c s IH]; [done|]. unfold as_bytes in *. rewrite bind_cons. cbn [str_len].
  by rewrite length_app, Nat2Z.inj_add, <- IH, len_encode.
Qed.

Lemma continuation_tail x : continuation (0x80 + x `mod` 0x40) = Some (x `mod` 0x40).
Proof.
  unfold continuation. pose proof (Z.mod_pos_bound x 0x40 ltac:(lia)).
  rewrite (proj2 (andb_true_iff _ _)) by lia. f_equal. lia.
Qed.

Lemma decoded_same least c : least ≤ c → is_scalar c = true → decoded least c = Some c.
Proof. intros ? Hs. unfold decoded. rewrite Hs, (proj2 (Z.leb_le _ _)) by done. done. Qed.

(** The decoder reads one encoded character. *)
Lemma from_utf8_encode c bs :
  is_scalar c = true → from_utf8 (encode_utf8 c ++ bs) = cons c <$> from_utf8 bs.
Proof.
  intros Hs. pose proof Hs as Hc%is_scalar_spec. unfold encode_utf8.
  destruct (Z.ltb_spec c 0x80).
  { simpl. by rewrite (proj2 (Z.ltb_lt _ _)). }
  destruct (Z.ltb_spec c 0x800); [|destruct (Z.ltb_spec c 0x10000)]; cbn [app from_utf8];
    rewrite (proj2 (Z.ltb_ge _ 0x80)), (proj2 (Z.ltb_ge _ 0xc0)) by (Z.to_euclidean_division_equations; lia);
    rewrite ?continuation_tail; cbn [mbind option_bind].
  - rewrite (proj2 (Z.ltb_lt _ 0xe0)) by (Z.to_euclidean_division_equations; lia).
    replace ((192 + c / 2 ^ 6 - 192) * 2 ^ 6 + (c / 2 ^ (6 * 0)) `mod` 64) with c
      by (change (2 ^ (6 * 0)) with 1; Z.to_euclidean_division_equations; lia).
    by rewrite decoded_same.
  - rewrite (proj2 (Z.ltb_ge _ 0xe0)), (proj2 (Z.ltb_lt _ 0xf0))
      by (Z.to_euclidean_division_equations; lia).
    replace ((224 + c / 2 ^ 12 - 224) * 2 ^ 12 + (c / 2 ^ (6 * 1)) `mod` 64 * 2 ^ 6 +
      (c / 2 ^ (6 * 0)) `mod` 64) with c
      by (change (2 ^ (6 * 0)) with 1; change (2 ^ (6 * 1)) with 64; Z.to_euclidean_division_equations; lia).
    by rewrite decoded_same.
  - rewrite (proj2 (Z.ltb_ge _ 0xe0)), (proj2 (Z.ltb_ge _ 0xf0))
      by (Z.to_euclidean_division_equations; lia).
    replace ((240 + c / 2 ^ 18 - 240) * 2 ^ 18 + (c / 2 ^ (6 * 2)) `mod` 64 * 2 ^ 12 +
      (c / 2 ^ (6 * 1)) `mod` 64 * 2 ^ 6 + (c / 2 ^ (6 * 0)) `mod` 64) with c
      by (change (2 ^ (6 * 0)) with 1; change (2 ^ (6 * 1)) with 64; change (2 ^ (6 * 2)) with 4096;
          Z.to_euclidean_division_equations; lia).
    by rewrite decoded_same.
Qed.

(** UTF-8 is read back. *)
Lemma from_utf8_as_bytes s :
  Forall (λ c, is_scalar c = true) s → from_utf8 (as_bytes s) = Some s.
Proof.
  induction 1 as [|c s Hc _ IH]; [done|]. unfold as_bytes in *.
  by rewrite bind_cons, from_utf8_encode, IH.
Qed.

Lemma to_digit_digit radix d : 0 ≤ d < radix → radix ≤ 36 → to_digit radix (digit d) = Some d.
Proof.
  intros Hd Hr. unfold to_digit, digit. destruct (Z.ltb_spec d 10).
  - rewrite (proj2 (andb_true_iff _ _)) by lia. replace (48 + d - 48) with d by lia.
    by rewrite (proj2 (Z.ltb_lt _ _)) by lia.
  - rewrite (proj2 (andb_false_iff (48 <=? _) _)) by lia.
    rewrite (proj2 (andb_true_iff (97 <=? _) _)) by lia. replace (87 + d - 87) with d by lia.
    by rewrite (proj2 (Z.ltb_lt _ _)) by lia.
Qed.

(** Printed numbers are read back. *)
Lemma digits_show w radix fuel n s :
  2 ≤ radix ≤ 36 → 0 ≤ n < 2 ^ w → n < radix ^ Z.of_nat fuel →
  digits w radix 0 (show_digits fuel radix n s) = digits w radix n s.
Proof.
  intros Hr. revert n s. induction fuel as [|fuel IH]; intros n s Hn Hf; simpl.
  { simpl in Hf. by replace n with 0 by lia. }
  pose proof (Z.mod_pos_bound n radix ltac:(lia)).
  destruct (Z.ltb_spec n radix).
  - simpl. rewrite to_digit_digit by lia. simpl. rewrite Z.mod_small by lia.
    by rewrite (proj2 (Z.ltb_lt _ _)) by lia.
  - assert (n / radix < n) by (apply Z.div_lt; lia).
    assert (0 ≤ n / radix) by (apply Z.div_pos; lia).
    rewrite IH; [|lia|].
    + simpl. rewrite to_digit_digit by lia. simpl.
      replace (n / radix * radix + n `mod` radix) with n by (pose proof (Z.div_mod n radix); lia).
      by rewrite (proj2 (Z.ltb_lt _ _)) by lia.
    + apply Z.div_lt_upper_bound; [lia|]. rewrite Nat2Z.inj_succ, Z.pow_succ_r in Hf; lia.
Qed.

Definition is_digit (c : Z) : bool := (48 <=? c) && (c <=? 57) || (97 <=? c) && (c <=? 122).

Lemma digit_is_digit d : 0 ≤ d < 36 → is_digit (digit d) = true.
Proof.
  intros. unfold is_digit, digit. destruct (Z.ltb_spec d 10); apply orb_true_iff; rewrite !andb_true_iff; lia.
Qed.

Lemma show_digits_spec radix fuel n s :
  2 ≤ radix ≤ 36 → 0 ≤ n → ∃ ds, show_digits fuel radix n s = ds ++ s ∧
    Forall (λ c, is_digit c = true) ds ∧ (fuel ≠ 0%nat → ds ≠ []).
Proof.
  intros Hr. revert n s. induction fuel as [|fuel IH]; intros n s Hn; simpl.
  { by exists []. }
  assert (is_digit (digit (n `mod` radix)) = true).
  { apply digit_is_digit. pose proof (Z.mod_pos_bound n radix ltac:(lia)). lia. }
  case_match.
  - exists [digit (n `mod` radix)]. split_and!; [done|by repeat constructor|done].
  - destruct (IH (n / radix) (digit (n `mod` radix) :: s)) as (ds & -> & Hds & _); [apply Z.div_pos; lia|].
    exists (ds ++ [digit (n `mod` radix)]). rewrite <- (assoc_L (++)).
    split_and!; [done|apply Forall_app; by repeat constructor|by destruct ds].
Qed.

Lemma show_spec radix n :
  2 ≤ radix ≤ 36 → 0 ≤ n → Forall (λ c, is_digit c = true) (show radix n) ∧ show radix n ≠ [].
Proof.
  intros Hr Hn. destruct (show_digits_spec radix 64 n [] Hr Hn) as (ds & E & Hds & Hne).
  unfold show. rewrite E, app_nil_r. split; [done|by apply Hne].
Qed.

Lemma from_str_radix_show w radix n :
  2 ≤ radix ≤ 36 → w ≤ 64 → 0 ≤ n < 2 ^ w → from_str_radix w radix (show radix n) = Some n.
Proof.
  intros Hr Hw Hn. destruct (show_spec radix n Hr ltac:(lia)) as [Hds Hne].
  assert (Hd : digits w radix 0 (show radix n) = Some n).
  { unfold show. rewrite digits_show; [done..|].
    assert (2 ^ w ≤ 2 ^ 64) by (apply Z.pow_le_mono_r; lia).
    assert (2 ^ 64 ≤ radix ^ 64) by (apply Z.pow_le_mono_l; lia).
    change (Z.of_nat 64) with 64. lia. }
  destruct (show radix n) as [|c ds]; [done|]. unfold from_str_radix.
  destruct (decide (c = 43)) as [->|Hc].
  { by apply Forall_cons in Hds as [? _]. }
  rewrite <- Hd. by repeat case_match.
Qed.

(** ** Splitting *)

Lemma split_app sep l r : sep ∉ l → split sep (l ++ sep :: r) = l :: split sep r.
Proof.
  induction l as [|c l IH]; intros Hl; simpl; [by rewrite Z.eqb_refl|].
  apply not_elem_of_cons in Hl as [Hc Hl]. rewrite IH by done.
  by rewrite (proj2 (Z.eqb_neq _ _)) by done.
Qed.

Lemma split_none sep l : sep ∉ l → split sep l = [l].
Proof.
  induction l as [|c l IH]; intros Hl; simpl; [done|].
  apply not_elem_of_cons in Hl as [Hc Hl]. rewrite IH by done.
  by rewrite (proj2 (Z.eqb_neq _ _)) by done.
Qed.

Lemma split_once_app sep k v : sep ∉ k → split_once sep (k ++ sep :: v) = Some (k, v).
Proof.
  induction k as [|c k IH]; intros Hk; simpl; [by rewrite Z.eqb_refl|].
  apply not_elem_of_cons in Hk as [Hc Hk]. rewrite IH by done.
  by rewrite (proj2 (Z.eqb_neq _ _)) by done.
Qed.

Lemma strip_cr_id l : last l ≠ Some 13 → strip_cr l = l.
Proof.
  intros Hl. unfold strip_cr. destruct (reverse l) as [|c r] eqn:E; [done|].
  apply (f_equal reverse) in E. rewrite reverse_involutive, reverse_cons in E. subst l.
  rewrite last_snoc in Hl. destruct (decide (c = 13)) as [->|Hc]; [done|].
  by repeat case_match.
Qed.

(** A line that [lines] gives back. *)
Definition is_line (l : str) : Prop := 10 ∉ l ∧ last l ≠ Some 13.

Lemma lines_unlines ls : Forall is_line ls → lines (ls ≫= λ l, l ++ [10]) = ls.
Proof.
  unfold lines. induction 1 as [|l ls [Hn Hr] _ IH]; [done|]. rewrite bind_cons, <- (assoc_L (++)). simpl.
  rewrite split_app by done. rewrite <- IH at 2.
  assert (Hne : split 10 (ls ≫= λ l, l ++ [10]) ≠ []).
  { destruct (ls ≫= _) as [|c s]; [done|]. simpl. repeat case_match; done. }
  destruct (split 10 (ls ≫= λ l, l ++ [10])) as [|p ps]; [done|]. simpl. by rewrite strip_cr_id.
Qed.

Lemma trim_start_id s : (∀ c, head s = Some c → is_whitespace c = false) → trim_start s = s.
Proof. destruct s as [|c s]; [done|]. simpl. intros H. by rewrite (H c eq_refl). Qed.

Lemma trim_id s :
  (∀ c, head s = Some c → is_whitespace c = false) →
  (∀ c, last s = Some c → is_whitespace c = false) → trim s = s.
Proof.
  intros Hh Hl. unfold trim, trim_end. rewrite (trim_start_id s Hh), trim_start_id.
  - apply reverse_involutive.
  - intros c Hc. apply Hl. by rewrite last_reverse in Hc || by rewrite <- head_reverse.
Qed.

(** A number that does not fit is refused. *)
Lemma digits_bound w radix acc s v : acc < 2 ^ w → digits w radix acc s = Some v → v < 2 ^ w.
Proof.
  revert acc. induction s as [|c s IH]; intros acc Ha; simpl; [by intros [= <-]|].
  destruct (to_digit radix c); simpl; [|done].
  destruct (Z.ltb_spec (acc * radix + z) (2 ^ w)); [|done]. by apply IH.
Qed.

Lemma digits_mono w w' radix acc s v :
  w ≤ w' → digits w radix acc s = Some v → digits w' radix acc s = Some v.
Proof.
  intros Hw. assert (2 ^ w ≤ 2 ^ w') by (by apply Z.pow_le_mono_r).
  revert acc. induction s as [|c s IH]; intros acc; simpl; [done|].
  destruct (to_digit radix c); simpl; [|done].
  destruct (Z.ltb_spec (acc * radix + z) (2 ^ w)); [|done].
  rewrite (proj2 (Z.ltb_lt _ _)) by lia. apply IH.
Qed.

Lemma from_str_radix_overflow w radix n :
  2 ≤ radix ≤ 36 → 0 ≤ w ≤ 64 → 2 ^ w ≤ n < 2 ^ 64 → from_str_radix w radix (show radix n) = None.
Proof.
  intros Hr Hw Hn. assert (0 < 2 ^ w) by (apply Z.pow_pos_nonneg; lia).
  pose proof (from_str_radix_show 64 radix n Hr ltac:(lia) ltac:(lia)) as H64.
  destruct (show_spec radix n Hr ltac:(lia)) as [Hds Hne].
  destruct (show radix n) as [|c ds]; [done|]. unfold from_str_radix in *.
  assert (Hc : c ≠ 43) by (intros ->; by apply Forall_cons in Hds as [? _]).
  assert (E : ∀ w', match c with
     | 43 => if decide (ds = []) then None else digits w' radix 0 ds
     | _ => digits w' radix 0 (c :: ds) end = digits w' radix 0 (c :: ds)).
  { intros w'. by repeat case_match. }
  rewrite E in *. destruct (digits w radix 0 (c :: ds)) as [v|] eqn:Ed; [|done].
  assert (v < 2 ^ w) by (eapply digits_bound; [|exact Ed]; lia).
  apply (digits_mono w 64) in Ed; [|lia]. rewrite Ed in H64. simplify_eq. lia.
Qed.

(** So is one with a character that is no digit. *)
Lemma digits_bad w radix acc s c t : to_digit radix c = None → digits w radix acc (s ++ c :: t) = None.
Proof.
  intros Hc. revert acc. induction s as [|d s IH]; intros acc; simpl; [by rewrite Hc|].
  destruct (to_digit radix d); [|done]. simpl. case_match; [|done]. apply IH.
Qed.

Lemma from_str_radix_bad w radix s c t :
  to_digit radix c = None → c ≠ 43 → from_str_radix w radix (s ++ c :: t) = None.
Proof.
  intros Hc H43. pose proof (λ acc s, digits_bad w radix acc s c t Hc) as Hb. unfold from_str_radix.
  destruct s as [|d s]; cbn [app]; repeat case_match; simplify_eq/=; try done; try apply (Hb 0 []).
  all: first [apply Hb | apply (Hb 0 (_ :: _))].
Qed.
