(* ===== verification/Utils.v ===== *)
(** Sizes for humans: [humanized_size] of [pkg/kernel/src/utils/mod.rs].

    The [f32] of the source is never negative, and after the conversion from an
    integer it is only divided by powers of two, which is exact: a value is a
    pair of an integer and a binary exponent.  The conversion rounds to the
    nearest 24-bit significand, ties to even. *)
From S2P Require Import Prelude.
From stdpp Require Import strings.
#[local] Open Scope Z_scope.

(** [significand / 2 ^ scale] *)
Record f32 : Type := mkF32 { significand : Z; scale : Z }.

(** [n as f32] for an unsigned [n]; the value is an integer. *)
Definition round24 (n : Z) : Z :=
  if n <? 2 ^ 24 then n
  else
    let e := Z.log2 n - 23 in
    let q := n / 2 ^ e in
    let r := n mod 2 ^ e in
    let up := (2 ^ (e - 1) <? r) || ((r =? 2 ^ (e - 1)) && Z.odd q) in
    (if up then q + 1 else q) * 2 ^ e.

Definition u64_as_f32 (n : Z) : f32 := mkF32 (round24 n) 0.
Definition ge_1024 (x : f32) : bool := 1024 * 2 ^ scale x <=? significand x.
Definition div_1024 (x : f32) : f32 := mkF32 (significand x) (scale x + 10).

Definition SHORT_UNITS : list string := ["B"; "K"; "M"; "G"].
Definition UNITS : list string := ["B"; "KiB"; "MiB"; "GiB"].

(** The [while] loop; [rounds] is [units.len() - unit]. *)
Fixpoint unit_loop (rounds : nat) (bytes : f32) (unit : nat) : f32 * nat :=
  match rounds with
  | O => (bytes, unit)
  | S rounds => if ge_1024 bytes then unit_loop rounds (div_1024 bytes) (S unit) else (bytes, unit)
  end.

Section Size.
Context {S : Type}.

Definition humanized_size_impl (size : Z) (short : bool) : M S (f32 * string) :=
  let units := if short then SHORT_UNITS else UNITS in
  let r := unit_loop (length units) (u64_as_f32 size) 0 in
  u ← unwrap (units !! r.2);
  mret (r.1, u).

Definition humanized_size (size : Z) : M S (f32 * string) := humanized_size_impl size false.
Definition humanized_size_short (size : Z) : M S (f32 * string) := humanized_size_impl size true.

End Size.

(** ** Rounding *)

Lemma round24_bounds n :
  0 ≤ n → 2 ^ 24 * Z.abs (round24 n - n) ≤ n ∧ (0 < n → 2 ^ Z.log2 n ≤ round24 n).
Proof.
  intros Hn. unfold round24. destruct (Z.ltb_spec n (2 ^ 24)).
  { split; [lia|]. intros Hp. apply Z.log2_spec, Hp. }
  pose proof (Z.log2_spec n ltac:(lia)) as [Hl _].
  assert (Hlog : 24 ≤ Z.log2 n) by (apply Z.log2_le_pow2; lia).
  set (e := Z.log2 n - 23) in *. assert (He : 1 ≤ e) by lia.
  replace (Z.log2 n) with (23 + e) in * by lia. rewrite Z.pow_add_r in * by lia.
  assert (Hh : 2 ^ e = 2 * 2 ^ (e - 1)) by (rewrite <- Z.pow_succ_r by lia; f_equal; lia).
  pose proof (Z.pow_pos_nonneg 2 (e - 1) ltac:(lia) ltac:(lia)) as Hp.
  pose proof (Z_div_mod_eq_full n (2 ^ e)) as Hd. pose proof (Z.mod_pos_bound n (2 ^ e) ltac:(lia)) as Hm.
  set (q := n / 2 ^ e) in *. set (r := n mod 2 ^ e) in *. set (h := 2 ^ (e - 1)) in *.
  assert (Hq : 2 ^ 23 ≤ q) by (apply Z.div_le_lower_bound; lia).
  clearbody q r h. rewrite Hh in *.
  destruct ((h <? r) || ((r =? h) && Z.odd q)) eqn:E.
  - assert (h ≤ r).
    { apply orb_true_iff in E as [?%Z.ltb_lt|[?%Z.eqb_eq _]%andb_true_iff]; lia. }
    split; [|nia]. assert (Hx : (q + 1) * (2 * h) - n = 2 * h - r) by lia. rewrite Hx, Z.abs_eq by lia. lia.
  - apply orb_false_iff in E as [E _]. apply Z.ltb_ge in E.
    split; [|nia]. assert (Hx : q * (2 * h) - n = - r) by lia. rewrite Hx, Z.abs_opp, Z.abs_eq by lia. lia.
Qed.

(** The first integer that rounds to a tebibyte. *)
Lemma round24_tebi n : 0 ≤ n → round24 n < 2 ^ 40 ↔ n < 2 ^ 40 - 2 ^ 15.
Proof.
  intros Hn. destruct (round24_bounds n Hn) as [Hb Hl].
  destruct (Z.lt_ge_cases n (2 ^ 39)) as [Hs|Hs]; [lia|].
  destruct (Z.lt_ge_cases n (2 ^ 40)) as [Ht|Ht]; cycle 1.
  { assert (2 ^ 40 ≤ round24 n); [|lia]. etrans; [|apply Hl; lia]. apply Z.pow_le_mono_r; [lia|].
    apply Z.log2_le_pow2; lia. }
  unfold round24. rewrite (proj2 (Z.ltb_ge _ _)) by lia.
  assert (Z.log2 n = 39) as -> by (apply Z.log2_unique; lia). change (39 - 23) with 16. cbv zeta.
  change (2 ^ (16 - 1)) with 32768. change (2 ^ 16) with 65536.
  pose proof (Z_div_mod_eq_full n 65536). pose proof (Z.mod_pos_bound n 65536 ltac:(lia)).
  set (q := n / 65536) in *. set (r := n mod 65536) in *. clearbody q r.
  destruct (Z.ltb_spec 32768 r), (Z.eqb_spec r 32768); simpl; try lia.
  destruct (Z.odd q) eqn:Eo; [|].
  - lia.
  - assert (q ≠ 2 ^ 24 - 1) by (intros ->; discriminate). lia.
Qed.

(** [humanized_size].  For every size below 2^40 - 2^15 bytes it answers the
    size, rounded to a relative error of at most 2^-24, in the largest of the
    four units that leaves at least 1, and less than 1024 of it; for every
    larger one, from just below a tebibyte on, it panics: the loop runs one
    unit too far. *)
Theorem humanized_size_spec {S} size short (s : S) :
  0 ≤ size < 2 ^ 64 →
  if size <? 2 ^ 40 - 2 ^ 15 then
    ∃ u unit n, (if short : bool then SHORT_UNITS else UNITS) !! u = Some unit ∧
      humanized_size_impl size short s = Done ((mkF32 n (10 * Z.of_nat u), unit), s) ∧
      2 ^ 24 * Z.abs (n - size) ≤ size ∧
      n < 1024 * 2 ^ (10 * Z.of_nat u) ∧ (u = 0%nat ∨ 2 ^ (10 * Z.of_nat u) ≤ n)
  else humanized_size_impl size short s = Panic.
Proof.
  intros Hs. pose proof (round24_tebi size ltac:(lia)) as Ht. destruct (round24_bounds size ltac:(lia)) as [Hb _].
  unfold humanized_size_impl. set (units := if short then SHORT_UNITS else UNITS).
  assert (Hlen : length units = 4%nat) by (by unfold units; destruct short).
  assert (Hu : ∀ u, (u < 4)%nat → ∃ unit, units !! u = Some unit).
  { intros u Hu. apply lookup_lt_is_Some_2. by rewrite Hlen. }
  rewrite Hlen. unfold u64_as_f32. set (n := round24 size) in *. clearbody n.
  cbn [unit_loop]. unfold ge_1024, div_1024. cbn [significand scale].
  change (1024 * 2 ^ 0) with (2 ^ 10). change (1024 * 2 ^ (0 + 10)) with (2 ^ 20).
  change (1024 * 2 ^ (0 + 10 + 10)) with (2 ^ 30). change (1024 * 2 ^ (0 + 10 + 10 + 10)) with (2 ^ 40).
  assert (Hres : ∀ u, (u < 4)%nat → n < 1024 * 2 ^ (10 * Z.of_nat u) → u = 0%nat ∨ 2 ^ (10 * Z.of_nat u) ≤ n →
    n < 2 ^ 40 → if size <? 2 ^ 40 - 2 ^ 15 then
      ∃ v unit m, units !! v = Some unit ∧
        (x ← unwrap (units !! u); mret (mkF32 n (10 * Z.of_nat u), x)) s = Done ((mkF32 m (10 * Z.of_nat v), unit), s) ∧
        2 ^ 24 * Z.abs (m - size) ≤ size ∧ m < 1024 * 2 ^ (10 * Z.of_nat v) ∧ (v = 0%nat ∨ 2 ^ (10 * Z.of_nat v) ≤ m)
      else (x ← unwrap (units !! u); mret (mkF32 n (10 * Z.of_nat u), x)) s = Panic).
  { intros u Hu4 Hlt Hge H40. rewrite (proj2 (Z.ltb_lt _ _)) by lia.
    destruct (Hu u Hu4) as [unit Hun]. exists u, unit, n. rewrite Hun. by split_and!. }
  destruct (Z.leb_spec (2 ^ 10) n); [|apply (Hres 0%nat); lia].
  destruct (Z.leb_spec (2 ^ 20) n); [|apply (Hres 1%nat); lia].
  destruct (Z.leb_spec (2 ^ 30) n); [|apply (Hres 2%nat); lia].
  destruct (Z.leb_spec (2 ^ 40) n); [|apply (Hres 3%nat); lia].
  rewrite (proj2 (Z.ltb_ge _ _)) by lia. simpl.
  assert (units !! 4%nat = None) as -> by (by apply lookup_ge_None_2; rewrite Hlen). done.
Qed.

Lemma humanized_size_spec_witness :
  (∃ u unit n, UNITS !! u = Some unit ∧
      humanized_size_impl 1048575 false tt = Done ((mkF32 n (10 * Z.of_nat u), unit), tt) ∧
      2 ^ 24 * Z.abs (n - 1048575) ≤ 1048575 ∧
      n < 1024 * 2 ^ (10 * Z.of_nat u) ∧ (u = 0%nat ∨ 2 ^ (10 * Z.of_nat u) ≤ n)) ∧
  humanized_size_impl (2 ^ 40 - 2 ^ 15) false tt = Panic.
Proof.
  split; [apply (humanized_size_spec 1048575 false tt)|apply (humanized_size_spec (2 ^ 40 - 2 ^ 15) false tt)]; lia.
Defined.
