(* ===== verification/Listing.v ===== *)
(** The process list: [ProcessManager::print_process_list] of
    [pkg/kernel/src/proc/manager.rs], [Process::fmt] of
    [pkg/kernel/src/proc/process.rs] and [print_processors] of
    [pkg/kernel/src/proc/processor.rs], with the parts of [core::fmt] they use.

    The numbers are never negative, so the [f32]s are those of Utils, with the
    two values a division by zero gives beside them. *)
From S2P Require Import Prelude Arch Pid Sync Frames Elf Stack Heap Vm Context Resource Data Process Utils Text.
From stdpp Require Import strings sorting.
#[local] Open Scope Z_scope.

(** ** Formatting *)

Module Fmt.

(** [{:>w}], and [{:w}] of a number. *)
Definition pad_left (w : nat) (s : str) : str := replicate (w - length s) 32 ++ s.
(** [{:<w}], and [{:w}] of a string. *)
Definition pad_right (w : nat) (s : str) : str := s ++ replicate (w - length s) 32.

(** [a / b] to the nearest, a tie to the even one. *)
Definition nearest (a b : Z) : Z :=
  let q := a / b in
  let r := a `mod` b in
  if (b <? 2 * r) || ((2 * r =? b) && Z.odd q) then q + 1 else q.

(** [{:.p}] of an [f32]: the nearest number of [p] decimals, a tie to the even digit. *)
Definition show_fixed (p : nat) (x : f32) : str :=
  let v := nearest (significand x * 10 ^ Z.of_nat p) (2 ^ scale x) in
  let frac := show 10 (v `mod` 10 ^ Z.of_nat p) in
  show 10 (v / 10 ^ Z.of_nat p) ++ [46] ++ replicate (p - length frac) 48 ++ frac.

(** The [f32] nearest to [a / b], for [0 ≤ a] and [0 < b] far from the ends of the
    range: 24 bits of significand. *)
Definition round_frac (a b : Z) : f32 :=
  if a =? 0 then mkF32 0 0
  else
    let scaled s := (a * 2 ^ Z.max s 0, b * 2 ^ Z.max (- s) 0) in
    let s0 := 23 - (Z.log2 a - Z.log2 b) in
    let s := if (scaled s0).1 / (scaled s0).2 <? 2 ^ 23 then s0 + 1 else s0 in
    mkF32 (nearest (scaled s).1 (scaled s).2 * 2 ^ Z.max (- s) 0) (Z.max s 0).

Inductive float : Type := Finite (x : f32) | Infinite | NaN.

(** [used as f32 / total as f32 * 100.0] *)
Definition percent (used total : Z) : float :=
  let u := round24 used in
  let t := round24 total in
  if t =? 0 then if u =? 0 then NaN else Infinite
  else
    let x := round_frac u t in
    Finite (round_frac (significand x * 100) (2 ^ scale x)).

Definition show_float (p : nat) (x : float) : str :=
  match x with
  | Finite x => show_fixed p x
  | Infinite => chars "inf"
  | NaN => chars "NaN"
  end.

(** [join(sep)] *)
Fixpoint join (sep : str) (l : list str) : str :=
  match l with
  | [] => []
  | [s] => s
  | s :: l => s ++ sep ++ join sep l
  end.

End Fmt.
Import Fmt.

(** ** The list *)

(** The derived [Debug]. *)
Definition show_status (s : ProgramStatus) : str :=
  chars match s with
        | Running => "Running"
        | Ready => "Ready"
        | Blocked => "Blocked"
        | Dead => "Dead"
        end.

Definition header : str := chars "  PID | PPID | Process Name |  Ticks  |   Memory  | Status".

Definition cpus (cells : list Z) : str :=
  chars "CPUs   : " ++
  join (chars ", ")
    (omap (λ c, (λ pid, chars "[" ++ show 10 (Z.of_nat c.1) ++ chars ": " ++ show 10 pid ++ chars "]") <$>
                Processor.get_pid c.2)
       (filter (λ c, Processor.is_free c.2 = false) (imap pair cells))).
Definition print_processors (cells : list Z) : str := cpus cells ++ [10].

(** [alloc::allocator::HEAP_SIZE] and [memory::user::USER_HEAP_SIZE] *)
Definition KERNEL_HEAP_SIZE : Z := 8 * 1024 * 1024.
Definition USER_HEAP_SIZE : Z := 1024 * 1024.

(** One row of the list, in full. *)
Definition row (pid ppid : Z) (name : string) (ticks : Z) (size : f32) (unit : string) (st : ProgramStatus) : str :=
  chars " #" ++ pad_left 3 (show 10 pid) ++ chars " | #" ++ pad_left 3 (show 10 ppid) ++ chars " | " ++
  pad_right 12 (chars name) ++ chars " | " ++ pad_left 7 (show 10 ticks) ++ chars " | " ++
  pad_left 5 (show_fixed 1 size) ++ chars " " ++ chars unit ++ chars " | " ++ show_status st.

(** A line of [format_usage], without its end. *)
Definition usage_row (name : string) (used total : f32 * string) (p : float) : str :=
  pad_right 6 (chars name) ++ chars " : " ++
  pad_left 6 (show_fixed 2 used.1) ++ chars " " ++ pad_left 3 (chars used.2) ++ chars " / " ++
  pad_left 6 (show_fixed 2 total.1) ++ chars " " ++ pad_left 3 (chars total.2) ++
  chars " (" ++ pad_left 5 (show_float 2 p) ++ chars "%)".

Definition format_usage {S} (name : string) (used total : Z) : M S str :=
  u ← humanized_size used;
  t ← humanized_size total;
  mret (usage_row name u t (percent used total) ++ [10]).

(** [{:?}] of the [VecDeque] *)
Definition show_queue (q : list Z) : str := chars "[" ++ join (chars ", ") (show 10 <$> q) ++ chars "]".

(** In the order of the [BTreeMap]. *)
Definition by_pid (x y : Z * nat) : Prop := x.1 ≤ y.1.
#[export] Instance by_pid_dec : RelDecision by_pid := λ x y, Z_le_dec x.1 y.1.

Section List.
Context `{Profile} `{X86_64} {PT Q : Type} `{Mapper PT} `{ArrayQueue Q}.
#[local] Abbreviation St := (Kernel PT Q).

(** [inner.proc_vm.as_ref().map_or(0, |vm| vm.memory_usage())] *)
Definition process_usage (p : Process) : M St Z :=
  match proc_vm (inner p) with
  | Some v => on_mem (Vm.memory_usage v)
  | None => mret 0
  end.

(** [Process::fmt] *)
Definition process_fmt (p : Process) : M St str :=
  s ← get;
  usage ← process_usage p;
  sz ← humanized_size usage;
  mret (row (pid p) (from_option Process.pid 0 (parent (inner p) ≫= λ l, procs s !! l)) (name (inner p))
          (ticks_passed (inner p)) sz.1 sz.2 (status (inner p))).

(** [processes.values()], skipping the dead *)
Fixpoint process_rows (locs : list nat) : M St str :=
  match locs with
  | [] => mret []
  | loc :: locs =>
      p ← read_proc loc;
      if decide (status (inner p) = Dead) then process_rows locs
      else r ← process_fmt p; rs ← process_rows locs; mret (r ++ [10] ++ rs)
  end.

Definition print (text : str) : M St () :=
  on_data (zoom io (λ i d, mkStore (envs d) (resources d) (semaphores d) i) (emit (Print (as_bytes text)))).

(** What [ALLOCATOR] and [USER_ALLOCATOR] answer to [used()] are arguments: the
    crate they come from is not part of the repository. *)
Definition print_process_list (heap_used user_heap_used : Z) : M St () :=
  k ← get;
  rows ← process_rows (snd <$> merge_sort by_pid (map_to_list (processes k)));
  heap ← format_usage "Kernel" heap_used KERNEL_HEAP_SIZE;
  user ← format_usage "User" user_heap_used USER_HEAP_SIZE;
  alloc ← gets (λ k, falloc (machine (kmem k)));
  used ← word_op 64 (FrameAlloc.frames_used alloc * PAGE_SIZE);
  total ← word_op 64 (FrameAlloc.frames_total alloc * PAGE_SIZE);
  memory ← format_usage "Memory" used total;
  k ← get;
  print (header ++ [10] ++ rows ++ heap ++ user ++ memory ++
         chars "Queue  : " ++ show_queue (ready_queue k) ++ [10] ++ print_processors (PROCESSORS k)).

End List.
