(* ===== verification/Syscall.v ===== *)
(** System calls: [pkg/syscall/src/lib.rs] and
    [pkg/kernel/src/interrupt/syscall/], and the other interrupts that reach the
    process manager.

    The allocators ([linked_list_allocator]) and the UEFI clock are not part
    of the repository: the state of the former is a type with a class, which holds
    the heap for user programs and what the kernel's own heap says of its use; the latter the argument
    [clock_nanos] (what [timestamp_nanos_opt] answers).  Buffers are slices of
    the caller's memory, read and written through the loaded page table; an
    access to an unmapped page inside the kernel counts as a panic (the page
    fault handler would wait for a process lock that is held). *)
From S2P Require Import Prelude Arch Pid Sync Frames Elf Stack Heap Vm Context Resource Data Process Manager Listing.
From stdpp Require Import strings sorting.
From Stdlib Require Strings.String.
#[local] Open Scope Z_scope.

(** ** Numbers *)

Module Syscall.

Inductive t : Type :=
  | Read | Write | Brk | GetPid | Fork | Spawn | Exit | WaitPid | Kill | Sem
  | Time | ListApp | Stat | Allocate | Deallocate | None_.
#[global] Instance t_eq_dec : EqDecision t.
Proof. solve_decision. Defined.

Definition number (s : t) : Z :=
  match s with
  | Read => 0 | Write => 1 | Brk => 12 | GetPid => 39
  | Fork => 58 | Spawn => 59 | Exit => 60 | WaitPid => 61 | Kill => 62 | Sem => 63
  | Time => 201 | ListApp => 65529 | Stat => 65530 | Allocate => 65533 | Deallocate => 65534
  | None_ => 65535
  end.

Definition all : list t :=
  [Read; Write; Brk; GetPid; Fork; Spawn; Exit; WaitPid; Kill; Sem; Time; ListApp; Stat;
   Allocate; Deallocate; None_].

(** [FromPrimitive] with [None] as the default. *)
Definition from (n : Z) : t := default None_ (head (filter (λ s, number s = n) all)).

End Syscall.

Record SyscallArgs : Type := mkArgs { syscall : Syscall.t; arg0 : Z; arg1 : Z; arg2 : Z }.

(** ** The allocator for user programs *)

Class UserAllocator (UA : Type) := {
  allocate_first_fit : Z → Z → UA → option Z * UA;   (** size, alignment *)
  ua_deallocate : Z → Z → Z → UA → UA;               (** pointer, size, alignment *)
  ua_used : UA → Z;
  kernel_used : UA → Z;                              (** [ALLOCATOR.lock().used()] *)
}.

Section Syscalls.
Context `{Profile} `{X86_64} {PT Q UA : Type} `{Mapper PT} `{ArrayQueue Q} `{UserAllocator UA}.
Context (PHYSICAL_OFFSET : option Z) (cpuid : nat) (selector : Z * Z) (clock_nanos : Z).
(** Size and alignment in the 16 bytes of a [Layout]; their order is rustc's. *)
Context (Layout_of : list Z → Z * Z).

(** The kernel and [USER_ALLOCATOR]. *)
#[local] Abbreviation St := (Kernel PT Q * UA)%type.

Definition on_kernel {R} (m : M (Kernel PT Q) R) : M St R := zoom fst (λ k s, (k, s.2)) m.

(** ** Slices of user memory *)

Definition physical (k : Kernel PT Q) (va : Z) : option Z :=
  off ← PHYSICAL_OFFSET;
  f ← translate_page (addr (cr3 (kmem k))) (Page_containing_address va) (tables (machine (kmem k)));
  Some (f + off + va `mod` PAGE).

Definition addresses (ptr len : Z) : list Z := (λ i, ptr + i) <$> seqZ 0 len.

Definition slice_mapped (k : Kernel PT Q) (ptr len : Z) : bool :=
  forallb (λ va, bool_decide (is_Some (physical k va))) (addresses ptr len).

(** The bytes of a slice, 0 where nothing is mapped. *)
Definition peek_slice (ptr len : Z) : M St (list Z) :=
  gets (λ s, (λ va, from_option (Elf.mem (machine (kmem s.1))) 0 (physical s.1 va)) <$> addresses ptr len).

Definition read_slice (ptr len : Z) : M St (list Z) :=
  s ← get;
  if slice_mapped s.1 ptr len then peek_slice ptr len else panic.

Definition write_byte (va b : Z) : M St () :=
  s ← get;
  pa ← unwrap (physical s.1 va);
  on_kernel (on_mem (on_machine (modify_mem (write_bytes pa b 1)))).

Fixpoint write_slice (ptr : Z) (bytes : list Z) : M St () :=
  match bytes with
  | [] => mret ()
  | b :: bytes => write_byte ptr b;; write_slice (ptr + 1) bytes
  end.

(** ** [service.rs] *)

Definition sys_clock : Z := clock_nanos.

Definition sys_allocate (args : SyscallArgs) : M St Z :=
  if arg0 args =? 0 then panic
  else
    bytes ← read_slice (arg0 args) 16;
    let '(size, align) := Layout_of bytes in
    if size =? 0 then mret 0
    else
      s ← get;
      let '(ret, ua) := allocate_first_fit size align s.2 in
      put (s.1, ua);;
      mret (default 0 ret).

Definition sys_deallocate (args : SyscallArgs) : M St () :=
  if arg1 args =? 0 then panic
  else
    bytes ← read_slice (arg1 args) 16;
    let '(size, align) := Layout_of bytes in
    if (arg0 args =? 0) || (size =? 0) then mret ()
    else modify (λ s, (s.1, ua_deallocate (arg0 args) size align s.2)).

Definition string_of_bytes (l : list Z) : string :=
  Stdlib.Strings.String.string_of_list_ascii (Ascii.ascii_of_nat ∘ Z.to_nat <$> l).

Definition spawn_process (args : SyscallArgs) : M St Z :=
  name ← read_slice (arg0 args) (arg1 args);
  pid ← on_kernel (spawn PHYSICAL_OFFSET cpuid selector (string_of_bytes name));
  match pid with
  | Err _ => mret 0
  | Ok pid => mret pid
  end.

(** Of the buffer only the bytes that were read are touched. *)
Definition sys_read (args : SyscallArgs) : M St Z :=
  buf ← peek_slice (arg1 args) (arg2 args);
  let fd := wrap 8 (arg0 args) in
  r ← on_kernel (read cpuid fd buf);
  write_slice (arg1 args) (take (Z.to_nat r.1) r.2);;
  mret (as_usize r.1).

(** The bytes are touched when they are printed. *)
Definition sys_write (args : SyscallArgs) : M St Z :=
  buf ← peek_slice (arg1 args) (arg2 args);
  let fd := wrap 8 (arg0 args) in
  s ← get;
  r ← on_kernel (write cpuid fd buf);
  s' ← get;
  let printed := negb (length (output (io (data s'.1))) =? length (output (io (data s.1))))%nat in
  if printed && negb (slice_mapped s.1 (arg1 args) (arg2 args)) then panic
  else mret (as_usize r).

Definition sys_get_pid : M St Z := on_kernel (current_pid cpuid).

(** [arg0 as isize] *)
Definition exit_process (args : SyscallArgs) (ctx : ProcessContext) : M St ProcessContext :=
  on_kernel (process_exit PHYSICAL_OFFSET cpuid (as_isize (arg0 args)) ctx).

Definition list_process : M St () :=
  ua ← gets snd;
  on_kernel (print_process_list (kernel_used ua) (ua_used ua)).

Definition bytes_of_string (s : string) : list Z :=
  Z.of_nat ∘ Ascii.nat_of_ascii <$> Stdlib.Strings.String.list_ascii_of_string s.
(** The end of the kernel's [println!]: a line feed and a carriage return. *)
Definition newline : string := String (Ascii.ascii_of_nat 10) (String (Ascii.ascii_of_nat 13) EmptyString).

Definition println (s : string) : M (Kernel PT Q) () :=
  on_data (zoom io (λ i d, mkStore (envs d) (resources d) (semaphores d) i)
             (emit (Print (bytes_of_string (s +:+ newline))))).

Definition list_app : M St () :=
  l ← gets (λ s, app_list s.1);
  on_kernel (println
    (match l with
     | None => ">>> No app found in list!"
     | Some apps => ">>> App list: " +:+ Stdlib.Strings.String.concat ", " (app_name <$> apps)
     end)).

Definition sys_wait_pid (args : SyscallArgs) (ctx : ProcessContext) : M St ProcessContext :=
  on_kernel (wait_pid cpuid (wrap 16 (arg0 args)) ctx).

Definition sys_kill (args : SyscallArgs) (ctx : ProcessContext) : M St ProcessContext :=
  let pid := wrap 16 (arg0 args) in
  if pid =? 1 then mret ctx
  else on_kernel (kill PHYSICAL_OFFSET cpuid pid ctx).

Definition sys_fork (ctx : ProcessContext) : M St ProcessContext :=
  on_kernel (fork PHYSICAL_OFFSET cpuid ctx).

Definition sys_sem (args : SyscallArgs) (ctx : ProcessContext) : M St ProcessContext :=
  let key := wrap 32 (arg1 args) in
  match arg0 args with
  | 0 => r ← on_kernel (new_sem cpuid key (arg2 args)); mret (Context.set_rax r ctx)
  | 1 => r ← on_kernel (remove_sem cpuid key); mret (Context.set_rax r ctx)
  | 2 => on_kernel (sem_signal cpuid key ctx)
  | 3 => on_kernel (sem_wait cpuid key ctx)
  | _ => mret (Context.set_rax u64_max ctx)
  end.

Definition sys_brk (args : SyscallArgs) : M St Z :=
  on_kernel (brk PHYSICAL_OFFSET cpuid (if arg0 args =? 0 then None else Some (arg0 args))).

(** ** The dispatcher *)

Definition args_of (ctx : ProcessContext) : SyscallArgs :=
  let r := regs (value ctx) in mkArgs (Syscall.from (rax r)) (rdi r) (rsi r) (rdx r).

Definition dispatcher (ctx : ProcessContext) : M St ProcessContext :=
  let args := args_of ctx in
  let set (m : M St Z) := r ← m; mret (Context.set_rax r ctx) in
  match syscall args with
  | Syscall.Brk => set (sys_brk args)
  | Syscall.Sem => sys_sem args ctx
  | Syscall.Fork => sys_fork ctx
  | Syscall.Read => set (sys_read args)
  | Syscall.Write => set (sys_write args)
  | Syscall.GetPid => set sys_get_pid
  | Syscall.Spawn => set (spawn_process args)
  | Syscall.Exit => exit_process args ctx
  | Syscall.WaitPid => sys_wait_pid args ctx
  | Syscall.Kill => sys_kill args ctx
  | Syscall.Time => set (mret (as_usize sys_clock))
  | Syscall.Stat => list_process;; mret ctx
  | Syscall.ListApp => list_app;; mret ctx
  | Syscall.Allocate => set (sys_allocate args)
  | Syscall.Deallocate => sys_deallocate args;; mret ctx
  | Syscall.None_ => mret ctx
  end.

(** ** Interrupts *)

(** The timer: [pkg/kernel/src/interrupt/clock.rs]. *)
Definition clock (ctx : ProcessContext) : M St ProcessContext := on_kernel (switch cpuid ctx).

(** The serial port: a received byte becomes a key
    ([pkg/kernel/src/interrupt/serial.rs]). *)
Definition receive (byte : option Z) : M St () :=
  match byte with
  | Some b => on_kernel (on_data (zoom io (λ i d, mkStore (envs d) (resources d) (semaphores d) i)
                                    (push_key b)))
  | None => mret ()
  end.

(** The page fault handler: a fault that is not handled stops the kernel
    ([pkg/kernel/src/interrupt/exception.rs]). *)
Definition page_fault_handler (fault_addr err_code : Z) : M St () :=
  ok ← on_kernel (handle_page_fault PHYSICAL_OFFSET cpuid fault_addr err_code);
  if ok : bool then mret () else panic.

End Syscalls.
