(* ===== verification/UserHeap.v ===== *)
(** The heap that [sys_allocate] serves: [pkg/kernel/src/memory/user.rs].

    The allocator itself is the crate [linked_list_allocator]; what it is
    initialised with, the start and the size of its region, is recorded. *)
From S2P Require Import Prelude Arch Frames Elf Supply Stack Heap Vm Utils.
From stdpp Require Import strings.
#[local] Open Scope Z_scope.

Definition USER_HEAP_START : Z := 0x400000000000.
Definition USER_HEAP_SIZE : Z := 1024 * 1024.
Definition USER_HEAP_PAGE : Z := USER_HEAP_SIZE / PAGE_SIZE.

Section UserHeap.
Context `{Profile} `{X86_64} {PT : Type} `{Mapper PT} (PHYSICAL_OFFSET : option Z).

(** Memory, and the region of [USER_ALLOCATOR] once it is initialised. *)
#[local] Abbreviation St := (Mem PT * option (Z * Z))%type.

Definition with_mem {R} (m : M (Mem PT) R) : M St R := zoom fst (λ m s, (m, s.2)) m.

Definition user_heap_flags : Z := Z.lor (Z.lor PRESENT WRITABLE) USER_ACCESSIBLE.

(** The page loop is the one of [elf::map_range], statement by statement.  The
    temporary [PageTableContext] is dropped at the end of its statement. *)
Definition init_user_heap : M St (result () MapToError) :=
  a ← with_mem PageTableContext.new;
  root ← with_mem (PageTableContext.mapper PHYSICAL_OFFSET a);
  with_mem (Arc_drop a);;
  heap_start ← unwrap (VirtAddr_new USER_HEAP_START);
  let heap_start_page := Page_containing_address heap_start in
  p ← unwrap (Page_add heap_start_page USER_HEAP_PAGE);
  heap_end_page ← unwrap (Page_sub p 1);
  _ ← humanized_size USER_HEAP_SIZE;
  _ ←? with_mem (on_machine (map_loop root user_heap_flags (Page_range heap_start_page heap_end_page)));
  modify (λ s, (s.1, Some (USER_HEAP_START, USER_HEAP_SIZE)));;
  mret (Ok ()).

(** [expect] *)
Definition init : M St () :=
  r ← init_user_heap;
  match r with
  | Ok _ => mret ()
  | Err _ => panic
  end.

(** ** Properties *)

Context (mapping : PT → Z → Z → option (Z * Z)).
Context `{!X86_64_Laws _} `{!Mapper_Laws PT mapping}.

Lemma with_mem_Done {R} (m : M (Mem PT) R) (s : St) r s' :
  with_mem m s = Done (r, s') → ∃ t, m s.1 = Done (r, t) ∧ s' = (t, s.2).
Proof. by intros (t & ? & ->)%zoom_Done; exists t. Qed.

Lemma Arc_drop_machine a (m : Mem PT) u m' : Arc_drop a m = Done (u, m') → machine m' = machine m ∧ cr3 m' = cr3 m.
Proof. unfold Arc_drop, set_arcs. intros Hd. apply bind_Done in Hd as (? & ? & [<- <-]%get_Done & Hd).
  apply bind_Done in Hd as (x & ? & [_ <-]%unwrap_Done & Hd). by destruct x.2 as [|[|]]; apply modify_Done in Hd as <-.
Qed.

(** Where the heap's pages are. *)
Definition user_heap_pages : list Z := pages_between USER_HEAP_START (USER_HEAP_START + USER_HEAP_SIZE - PAGE).

(** The user heap is one page short.  Initialisation, when it succeeds, maps
    the 255 pages from its start on, writable for user programs, in the active
    page table, and gives the allocator a region of 256 pages: the last page of
    the region stays as it was before, unmapped if it was, so that memory the
    allocator hands out there faults.  Nothing is mapped when the allocator is
    not initialised, except the pages before one that failed. *)
Theorem user_heap_short (s : St) u s' :
  init s = Done (u, s') →
  let root := addr (cr3 s.1) in
  let pt := tables (machine s.1) in
  let pt' := tables (machine s'.1) in
  s'.2 = Some (USER_HEAP_START, USER_HEAP_SIZE) ∧
  (∃ fs, mapped_exactly mapping root user_heap_flags user_heap_pages fs pt pt') ∧
  Z.of_nat (length user_heap_pages) = USER_HEAP_PAGE - 1 ∧
  let last := USER_HEAP_START + USER_HEAP_SIZE - PAGE in
  mapping pt' root last = mapping pt root last ∧ alloc_steps (falloc (machine s.1)) (falloc (machine s'.1)).
Proof.
  intros Hs. cbv zeta. unfold init in Hs. apply bind_Done in Hs as (r & s1 & Hi & Hs).
  destruct r as [[]|e]; [|done]. apply ret_Done in Hs as [_ <-].
  unfold init_user_heap in Hi. apply bind_Done in Hi as (a & s2 & Ha & Hi).
  apply with_mem_Done in Ha as (m2 & Ha & ->). simpl in Ha. unfold PageTableContext.new in Ha.
  apply bind_Done in Ha as (v & m3 & [<- <-]%gets_Done & Ha). injection Ha as <- <-.
  set (a := fresh _) in Hi.
  apply bind_Done in Hi as (root & s2 & Hr & Hi). apply with_mem_Done in Hr as (m2 & Hr & ->).
  apply mapper_Done in Hr as (-> & v & n & Hv & ->). simpl in Hv. rewrite lookup_insert_eq in Hv. injection Hv as <- <-.
  apply bind_Done in Hi as (u1 & s2 & Hd & Hi). apply with_mem_Done in Hd as (m2 & Hd & ->).
  apply Arc_drop_machine in Hd as [Hm2 _]. simpl in Hm2. simpl in Hi.
  assert (Hal : aligned USER_HEAP_START) by done.
  rewrite VirtAddr_new_canonical in Hi by (left; unfold USER_HEAP_START; lia).
  rewrite (bind_step _ _ _ _ _ eq_refl) in Hi. cbv zeta in Hi.
  assert (Hst : Page_containing_address USER_HEAP_START = USER_HEAP_START).
  { rewrite Page_containing_address_eq by (left; unfold USER_HEAP_START; lia). done. }
  rewrite Hst in Hi. rewrite Page_add_user in Hi by (done || (unfold user, USER_HEAP_START, PAGE; lia)).
  rewrite (bind_step _ _ _ _ _ eq_refl) in Hi.
  rewrite Page_sub_user in Hi by (done || (unfold USER_HEAP_START, USER_HEAP_PAGE, USER_HEAP_SIZE, PAGE, PAGE_SIZE; lia)).
  rewrite (bind_step _ _ _ _ _ eq_refl) in Hi.
  apply bind_Done in Hi as (x & s2 & Hh & Hi).
  assert (s2 = (m2, s.2)) as ->.
  { unfold humanized_size, humanized_size_impl in Hh. apply bind_Done in Hh as (? & ? & [_ <-]%unwrap_Done & Hh).
    by apply ret_Done in Hh as [_ <-]. }
  replace (USER_HEAP_START + USER_HEAP_PAGE * PAGE - 1 * PAGE)
    with (USER_HEAP_START + USER_HEAP_SIZE - PAGE) in Hi by done.
  rewrite Page_range_eq in Hi by (done || (unfold USER_HEAP_START, USER_HEAP_SIZE, PAGE; lia)).
  fold user_heap_pages in Hi.
  apply bind_Done in Hi as (r & s2 & Hl & Hi). apply with_mem_Done in Hl as (m3 & Hl & ->).
  apply on_machine_Done in Hl as (t & Hl & ->). cbn [fst] in Hl. rewrite Hm2 in Hl.
  apply (map_loop_Done mapping) in Hl as (_ & Hal' & Hok); [|apply pages_between_NoDup].
  destruct r as [[]|e]; [|by apply ret_Done in Hi as [? _]].
  apply bind_Done in Hi as (u2 & s2 & Hmd & Hi). apply modify_Done in Hmd as <-. apply ret_Done in Hi as [_ <-]. cbn [fst snd machine].
  split_and!; [done|exact Hok| | |exact Hal'].
  - unfold user_heap_pages. rewrite pages_between_length. done.
  - destruct Hok as (fs & _ & _ & Ho). apply Ho. unfold user_heap_pages. intros Hin.
    apply elem_of_pages_between in Hin as [_ Hin]; [lia|done|done].
Qed.

(** [init] returns where the heap's pages are vacant and there are frames for them. *)
Lemma user_heap_returns (huge : PT → Z → Z → Prop) `{!Mapper_Free PT mapping huge} off (s : St) :
  PHYSICAL_OFFSET = Some off → 0 ≤ addr (cr3 s.1) + off < 2 ^ 64 →
  (∀ p, p ∈ user_heap_pages → vacant mapping huge (addr (cr3 s.1)) (tables (machine s.1)) p) →
  supplies 1020 (falloc (machine s.1)) → ∃ s', init s = Done ((), s').
Proof.
  intros Hoff Hr Hv Hs. destruct s as [m r]. cbn [fst snd] in *.
  set (a := fresh (dom (arcs m))). set (m1 := mkMem (machine m) (<[a := (cr3 m, 1%nat)]> (arcs m)) (ends m) (cr3 m)).
  set (m2 := mkMem (machine m) (delete a (<[a := (cr3 m, 1%nat)]> (arcs m))) (ends m) (cr3 m)).
  destruct (map_loop_vacant mapping huge (addr (cr3 m)) user_heap_flags user_heap_pages (machine m)) as [t Ht];
    [apply pages_between_NoDup|exact Hv|exact Hs|].
  exists (mkMem t (arcs m2) (ends m) (cr3 m), Some (USER_HEAP_START, USER_HEAP_SIZE)).
  unfold init. rewrite (bind_step _ _ _ (Ok ()) (mkMem t (arcs m2) (ends m) (cr3 m), Some (USER_HEAP_START, USER_HEAP_SIZE))); [done|].
  unfold init_user_heap.
  rewrite (bind_step _ _ _ a (m1, r)) by done.
  rewrite (bind_step _ _ _ (addr (cr3 m)) (m1, r)).
  2: { unfold with_mem, zoom, PageTableContext.mapper, Arc_deref, physical_to_virtual. cbn [fst].
       rewrite (bind_step _ _ m1 (cr3 m) m1); [|rewrite (bind_step _ _ _ _ _ eq_refl); simpl; by rewrite lookup_insert_eq].
       rewrite Hoff. rewrite (bind_step _ _ m1 (addr (cr3 m) + off) m1); [done|].
       rewrite (bind_step _ _ m1 off m1) by done. by apply word_op_exact. }
  rewrite (bind_step _ _ _ () (m2, r)).
  2: { unfold with_mem, zoom, Arc_drop. cbn [fst]. rewrite (bind_step _ _ _ _ _ eq_refl). simpl. by rewrite lookup_insert_eq. }
  rewrite VirtAddr_new_canonical by (left; unfold USER_HEAP_START; lia).
  rewrite (bind_step _ _ _ _ _ eq_refl). cbv zeta.
  assert (Hst : Page_containing_address USER_HEAP_START = USER_HEAP_START).
  { rewrite Page_containing_address_eq by (left; unfold USER_HEAP_START; lia). done. }
  rewrite Hst, Page_add_user by (done || (unfold user, USER_HEAP_START, PAGE; lia)).
  rewrite (bind_step _ _ _ _ _ eq_refl).
  rewrite Page_sub_user by (done || (unfold USER_HEAP_START, USER_HEAP_PAGE, USER_HEAP_SIZE, PAGE, PAGE_SIZE; lia)).
  rewrite (bind_step _ _ _ _ _ eq_refl).
  pose proof (humanized_size_spec USER_HEAP_SIZE false (m2, r) ltac:(unfold USER_HEAP_SIZE; lia)) as Hh.
  destruct Hh as (x & y & z & _ & Hh & _). rewrite (bind_step _ _ _ _ _ Hh).
  replace (USER_HEAP_START + USER_HEAP_PAGE * PAGE - 1 * PAGE)
    with (USER_HEAP_START + USER_HEAP_SIZE - PAGE) by done.
  rewrite Page_range_eq by (done || (unfold USER_HEAP_START, USER_HEAP_SIZE, PAGE; lia)).
  fold user_heap_pages. erewrite bind_step; [|unfold with_mem, zoom, on_machine, zoom; cbn [fst machine m2]; rewrite Ht; reflexivity].
  reflexivity.
Qed.

End UserHeap.

(** ** An example: an empty page table and 255 free frames *)

Section UserHeapWitness.
#[local] Existing Instance x86_ref.
#[local] Existing Instance release.

Definition user_heap_before : Mem table * option (Z * Z) :=
  (mkMem (mkMachine ∅ (mkAllocator 300 255 [] ((λ i, 0x100000 + i * PAGE) <$> seqZ 0 255)) (λ a, a))
     ∅ ∅ (mkCr3 0x7000 0), None).
Definition user_heap_after : Mem table * option (Z * Z) :=
  state_of (init offset_example user_heap_before) user_heap_before.

Lemma user_heap_short_witness :
  user_heap_after.2 = Some (USER_HEAP_START, USER_HEAP_SIZE) ∧
  table_mapping (tables (machine user_heap_after.1)) 0x7000 (USER_HEAP_START + USER_HEAP_SIZE - PAGE) = None.
Proof.
  destruct (user_heap_short offset_example table_mapping user_heap_before () user_heap_after) as (H1 & _ & _ & H2 & _).
  - apply value_state. vm_compute. reflexivity.
  - split; [exact H1|exact H2].
Defined.

End UserHeapWitness.
