(* ===== verification/Scheduler.v ===== *)
(** What the process manager keeps true: the invariant of the process table and
    the ready queue, and the scheduling properties that follow from it. *)
From S2P Require Import Prelude Arch Pid Sync Frames Elf Stack Heap Vm Context Resource Data Process Manager.
From stdpp Require Import strings.
#[local] Open Scope Z_scope.

Section Scheduler.
Context `{Profile} `{X86_64} {PT Q : Type} `{Mapper PT} `{ArrayQueue Q}.
Context (PHYSICAL_OFFSET : option Z) (cpuid : nat) (selector : Z * Z).
#[local] Abbreviation St := (Kernel PT Q).

(** The process the CPU is running, and the process a pid names. *)
Definition running (k : St) : option Z := PROCESSORS k !! cpuid ≫= Processor.get_pid.
Definition lookup_proc (k : St) (q : Z) : option Process := processes k !! q ≫= λ l, procs k !! l.

(** The parts of a process that go together: it has its memory and data exactly
    as long as it has not exited; a dead process has exited. *)
Definition inner_wf (i : ProcessInner) : Prop :=
  (exit_code i = None ↔ is_Some (proc_vm i)) ∧ (exit_code i = None ↔ is_Some (proc_data i)) ∧
  (status i = Dead → exit_code i ≠ None).

Record wf (k : St) : Prop := {
  wf_table q loc : processes k !! q = Some loc →
    ∃ p, procs k !! loc = Some p ∧ Process.pid p = q ∧ inner_wf (inner p);
  wf_pids q : is_Some (processes k !! q) → 1 ≤ q < NEXT_PID k;
  wf_next : NEXT_PID k < 2 ^ 16;
  wf_running : ∃ q, running k = Some q ∧ is_Some (processes k !! q);
  wf_queue q : q ∈ ready_queue k → is_Some (processes k !! q);
  (** no process that could run is forgotten *)
  wf_ready q p : lookup_proc k q = Some p → status (inner p) = Ready →
    running k = Some q ∨ q ∈ ready_queue k;
  (** at most one process runs, the current one *)
  wf_one q p : lookup_proc k q = Some p → status (inner p) = Running → running k = Some q;
}.

(** The running process may be switched away from: it is saved or stopped. *)
Definition switchable (k : St) : Prop :=
  ∀ q p, running k = Some q → lookup_proc k q = Some p →
    status (inner p) ≠ Running ∧ (status (inner p) = Ready → q ∈ ready_queue k).

(** What the invariant looks at. *)
Definition sched_eq (k k' : St) : Prop :=
  NEXT_PID k' = NEXT_PID k ∧ PROCESSORS k' = PROCESSORS k ∧ procs k' = procs k ∧
  processes k' = processes k ∧ ready_queue k' = ready_queue k.

Lemma sched_eq_wf k k' : sched_eq k k' → wf k → wf k'.
Proof.
  destruct k, k'. unfold sched_eq. simpl. intros (-> & -> & -> & -> & ->) [].
  split; assumption.
Qed.

Lemma on_mem_eq {R} (m : M (Mem PT) R) (k : St) r k' :
  on_mem m k = Done (r, k') → sched_eq k k' ∧ ∃ t, m (kmem k) = Done (r, t) ∧ k' = set_kmem t k.
Proof. unfold on_mem. intros (t & Hm & ->)%zoom_Done. split; [done|]. eauto. Qed.

Lemma on_data_eq {R} (m : M (DataStore Q) R) (k : St) r k' :
  on_data m k = Done (r, k') → sched_eq k k' ∧ ∃ t, m (data k) = Done (r, t) ∧ k' = set_data t k.
Proof. unfold on_data. intros (t & Hm & ->)%zoom_Done. split; [done|]. eauto. Qed.

Lemma current_pid_Done (k : St) q k' :
  current_pid cpuid k = Done (q, k') → k' = k ∧ running k = Some q ∧ q ≠ 0.
Proof.
  unfold current_pid, on_cpus. intros (t & Hm & ->)%zoom_Done.
  apply Processor.cell_pid_Done in Hm as (-> & Hc & Hq). split_and!; [by destruct k| |done].
  unfold running. rewrite Hc. simpl. unfold Processor.get_pid. by rewrite (proj2 (Z.eqb_neq _ _) Hq).
Qed.

Lemma running_lookup (k : St) q :
  running k = Some q → PROCESSORS k !! cpuid = Some q ∧ q ≠ 0.
Proof.
  unfold running, Processor.get_pid. intros (c & Hc & Hq)%bind_Some.
  destruct (c =? 0) eqn:E; [done|]. injection Hq as ->. apply Z.eqb_neq in E. done.
Qed.

Lemma current_pid_running (k : St) q : running k = Some q → current_pid cpuid k = Done (q, k).
Proof.
  intros [Hc Hq]%running_lookup. unfold current_pid, on_cpus, zoom.
  rewrite (Processor.current_pid_eq _ _ q) by done. by destruct k.
Qed.

Lemma read_proc_Done loc (k : St) p k' :
  read_proc loc k = Done (p, k') → k' = k ∧ procs k !! loc = Some p.
Proof. unfold read_proc. intros Hr. by inv_done. Qed.

Lemma current_Done (k : St) loc k' :
  current cpuid k = Done (loc, k') →
  k' = k ∧ ∃ q, running k = Some q ∧ processes k !! q = Some loc.
Proof.
  unfold current, get_proc. intros Hc. inv_done.
  match goal with Hp : current_pid _ _ = _ |- _ => apply current_pid_Done in Hp as (-> & Hr & _) end.
  split; [done|]. eauto.
Qed.

Lemma lookup_proc_Some (k : St) q loc p :
  processes k !! q = Some loc → procs k !! loc = Some p → lookup_proc k q = Some p.
Proof. unfold lookup_proc. intros ->. by intros. Qed.

(** ** Changing one process *)

Definition set_inner (loc : nat) (i : ProcessInner) (k : St) : St :=
  match procs k !! loc with
  | Some p => set_procs (<[loc := mkProcess (Process.pid p) i]> (procs k)) k
  | None => k
  end.

Lemma lookup_set_inner k loc i q q' p :
  wf k → processes k !! q = Some loc → procs k !! loc = Some p →
  lookup_proc (set_inner loc i k) q' =
    if decide (q' = q) then Some (mkProcess q i) else lookup_proc k q'.
Proof.
  intros Hwf Hq Hp. unfold set_inner. rewrite Hp. unfold lookup_proc. simpl.
  destruct (wf_table _ Hwf q loc Hq) as (p' & Hp' & Hpid & _). simplify_eq.
  destruct (decide (q' = Process.pid p)) as [->|Hne].
  - rewrite Hq. simpl. by rewrite lookup_insert_eq.
  - destruct (processes k !! q') as [loc'|] eqn:E; [|done]. simpl.
    rewrite lookup_insert_ne; [done|]. intros ->.
    destruct (wf_table _ Hwf q' loc' E) as (p'' & Hp'' & Hpid' & _). simplify_eq.
Qed.

Lemma wf_set_inner k loc i q p :
  wf k → processes k !! q = Some loc → procs k !! loc = Some p → inner_wf i →
  (status i = Ready → running k = Some q ∨ q ∈ ready_queue k) →
  (status i = Running → running k = Some q) →
  wf (set_inner loc i k).
Proof.
  intros Hwf Hq Hp Hi Hr1 Hr2. pose proof (lookup_set_inner k loc i q) as Hl.
  assert (Hs : ∀ q', lookup_proc (set_inner loc i k) q' =
    if decide (q' = q) then Some (mkProcess q i) else lookup_proc k q') by (intros; by eapply Hl).
  assert (Hk : set_inner loc i k = set_procs (<[loc := mkProcess (Process.pid p) i]> (procs k)) k)
    by (unfold set_inner; by rewrite Hp).
  rewrite Hk in *. destruct (wf_table _ Hwf q loc Hq) as (p' & Hp' & Hpid & _). simplify_eq.
  split; simpl.
  - intros q' loc' Hq'. destruct (wf_table _ Hwf q' loc' Hq') as (p' & Hp'' & Hpid' & Hi').
    destruct (decide (loc' = loc)) as [->|Hne].
    + rewrite lookup_insert_eq. simplify_eq. eexists. by split_and!.
    + rewrite lookup_insert_ne by done. eauto.
  - apply Hwf.
  - apply Hwf.
  - apply Hwf.
  - apply Hwf.
  - intros q' p'. rewrite Hs. destruct (decide _) as [->|]; [by intros [= <-]|]. apply (wf_ready _ Hwf).
  - intros q' p'. rewrite Hs. destruct (decide _) as [->|]; [by intros [= <-]|]. apply (wf_one _ Hwf).
Qed.

Lemma modify_inner_Done loc f (k : St) u k' :
  modify_inner loc f k = Done (u, k') →
  ∃ p, procs k !! loc = Some p ∧ k' = set_inner loc (f (inner p)) k.
Proof.
  unfold modify_inner, write_proc. intros Hm. inv_done.
  match goal with Hr : read_proc _ _ = _ |- _ => apply read_proc_Done in Hr as [-> Hp] end.
  eexists. split; [done|]. unfold set_inner. by rewrite Hp.
Qed.

(** ** The steps *)

Lemma wf_push k q : wf k → is_Some (processes k !! q) → wf (set_ready (ready_queue k ++ [q]) k).
Proof.
  intros Hwf Hq. split; simpl; try apply Hwf.
  - intros q' [Hin| ->%list_elem_of_singleton]%elem_of_app; [by apply (wf_queue _ Hwf)|done].
  - intros q' p Hl Hs. destruct (wf_ready _ Hwf q' p Hl Hs); [by left|right; set_solver].
Qed.

(** What a process becomes when it is saved with the context [ctx]. *)
Definition preempted (ctx : ProcessContext) (i : ProcessInner) : ProcessInner :=
  mkInner (name i) (parent i) (children i) (wrap 64 (ticks_passed i + 1)) Ready
    (Context.save ctx (context i)) (exit_code i) (proc_data i) (proc_vm i).

Lemma save_current_Done ctx (k : St) q k' :
  wf k → save_current cpuid ctx k = Done (q, k') →
  ∃ loc p, running k = Some q ∧ processes k !! q = Some loc ∧ procs k !! loc = Some p ∧
    k' = set_inner loc (preempted ctx (inner p)) k.
Proof.
  intros Hwf Hs. unfold save_current in Hs.
  apply bind_Done in Hs as (loc & k1 & Hc & Hs). apply current_Done in Hc as (-> & q' & Hr & Hq).
  apply bind_Done in Hs as (p & k2 & Hp & Hs). apply read_proc_Done in Hp as [-> Hp].
  apply bind_Done in Hs as (i & k3 & Hi & Hs). apply on_mem_eq in Hi as (_ & t & Hi & ->).
  unfold Inner.tick in Hi. apply bind_Done in Hi as (t' & m' & Hw & Hi).
  apply word_op_Done in Hw as [-> Hw]. apply ret_Done in Hi as [<- <-].
  assert (t' = wrap 64 (ticks_passed (inner p) + 1)) as ->.
  { destruct Hw as [[? ->]|(_ & _ & ->)]; [by rewrite wrap_small|done]. }
  unfold write_proc in Hs. inv_done.
  destruct (wf_table _ Hwf q' loc Hq) as (p' & Hp' & Hpid & _). simplify_eq.
  exists loc, p. split_and!; [done..|]. unfold set_inner. rewrite Hp. by destruct k.
Qed.

Lemma inner_wf_status i st :
  inner_wf i → st ≠ Dead → inner_wf (Inner.set_status st i).
Proof. intros (H1' & H2' & H3') Hd. split_and!; [done..|]. simpl. done. Qed.

Lemma inner_wf_context i c : inner_wf i → inner_wf (Inner.set_context c i).
Proof. done. Qed.

Lemma save_current_wf ctx (k : St) q k' :
  wf k → save_current cpuid ctx k = Done (q, k') →
  wf k' ∧ running k' = Some q ∧ running k = Some q ∧ ready_queue k' = ready_queue k ∧ processes k' = processes k ∧
  is_Some (processes k !! q).
Proof.
  intros Hwf Hs. apply save_current_Done in Hs as (loc & p & Hr & Hq & Hp & ->); [|done].
  destruct (wf_table _ Hwf q loc Hq) as (p' & Hp' & Hpid & Hi). simplify_eq.
  split_and!; [eapply (wf_set_inner k loc _ _ p Hwf Hq Hp)| | | | |by rewrite Hq].
  - destruct Hi as (H1' & H2' & H3'). by split_and!.
  - by left.
  - done.
  - unfold set_inner. by rewrite Hp.
  - done.
  - unfold set_inner. by rewrite Hp.
  - unfold set_inner. by rewrite Hp.
Qed.

(** ** Switching *)

(** The first process of a list of pids that is ready. *)
Definition is_ready (k : St) (q : Z) : bool :=
  match lookup_proc k q with Some p => bool_decide (status (inner p) = Ready) | None => false end.

Fixpoint first_ready (k : St) (qs : list Z) : option (Z * list Z) :=
  match qs with
  | [] => None
  | q :: qs => if is_ready k q then Some (q, qs) else first_ready k qs
  end.

(** [load]ing a page table only changes CR3. *)
Lemma load_Done a (m : Mem PT) u m' :
  PageTableContext.load a m = Done (u, m') →
  ∃ v n, arcs m !! a = Some (v, n) ∧ m' = mkMem (machine m) (arcs m) (ends m) v.
Proof.
  unfold PageTableContext.load. intros Hl.
  apply bind_Done in Hl as (v & m1 & Hd & Hl). apply Arc_deref_Done in Hd as (-> & n & Hd).
  apply modify_Done in Hl as <-. eauto.
Qed.

(** Starting [q]: its context is loaded, its page table too, and it is the one
    that runs. *)
Definition started (k : St) (q : Z) (loc : nat) (p : Process) (v : ProcessVm) (r : Cr3RegValue) (rest : list Z) : St :=
  let i := Inner.set_status Running (inner p) in
  let m := mkMem (machine (kmem k)) (arcs (kmem k)) (ends (kmem k)) r in
  mkKernel m (data k) (NEXT_PID k) (<[cpuid := q]> (PROCESSORS k))
    (<[loc := mkProcess (Process.pid p) i]> (procs k)) (processes k) rest (wait_queue k) (app_list k).

Lemma set_ready_same (k : St) : set_ready (ready_queue k) k = k.
Proof. by destruct k. Qed.

Lemma is_ready_set_ready (k : St) qs q : is_ready (set_ready qs k) q = is_ready k q.
Proof. done. Qed.

Lemma first_ready_set_ready (k : St) qs l : first_ready (set_ready qs k) l = first_ready k l.
Proof. induction l as [|q l IH]; simpl; [done|]. by rewrite is_ready_set_ready, IH. Qed.

(** What the loop of [switch_next] does, in one go. *)
Lemma switch_loop_Done fuel q ctx (k : St) r k' :
  wf k → (length (ready_queue k) < fuel)%nat →
  switch_loop cpuid fuel q ctx k = Done (r, k') →
  match first_ready k (ready_queue k) with
  | None => r = (q, ctx) ∧ k' = set_ready [] k
  | Some (next, rest) =>
      if decide (next = q) then r = (q, ctx) ∧ k' = set_ready rest k
      else ∃ loc p v reg n, processes k !! next = Some loc ∧ procs k !! loc = Some p ∧
        Process.pid p = next ∧ proc_vm (inner p) = Some v ∧
        arcs (kmem k) !! page_table v = Some (reg, n) ∧
        r = (next, mkContext (value (context (inner p)))) ∧ k' = started k next loc p v reg rest
  end.
Proof.
  revert k. induction fuel as [|fuel IH]; intros k Hwf Hf Hs; [lia|]. simpl in Hs.
  destruct (ready_queue k) as [|next rest] eqn:Eq.
  { unfold pop_ready, mbind, M_bind in Hs. rewrite Eq in Hs. simpl in Hs.
    injection Hs as <- <-. simpl. split; [done|]. destruct k. simpl in Eq. by subst. }
  unfold pop_ready in Hs. apply bind_Done in Hs as (o & k1 & Hpop & Hs). rewrite Eq in Hpop.
  injection Hpop as <- <-. simpl.
  apply bind_Done in Hs as (l & k1 & Hg & Hs). apply gets_Done in Hg as [<- <-].
  apply bind_Done in Hs as (loc & k1 & Hg & Hs). apply unwrap_Done in Hg as [Hloc <-]. simpl in Hloc.
  apply bind_Done in Hs as (p & k1 & Hg & Hs). apply read_proc_Done in Hg as [-> Hp]. simpl in Hp.
  destruct (wf_table _ Hwf next loc Hloc) as (p' & Hp' & Hpid & _). rewrite Hp in Hp'. injection Hp' as <-.
  assert (Hir : is_ready k next = Inner.is_ready (inner p)).
  { unfold is_ready. by rewrite (lookup_proc_Some _ _ _ _ Hloc Hp). }
  rewrite Hir. destruct (Inner.is_ready (inner p)) eqn:Er; simpl in Hs.
  - destruct (q =? next) eqn:Eqn; simpl in Hs.
    + apply Z.eqb_eq in Eqn as <-. rewrite decide_True by done. by inv_done.
    + apply Z.eqb_neq in Eqn. rewrite decide_False by congruence.
      apply bind_Done in Hs as (x & k1 & Hr & Hs). apply on_mem_eq in Hr as (_ & m & Hr & ->).
      unfold Inner.restore, Inner.vm in Hr. apply bind_Done in Hr as (v & m1 & Hv & Hr).
      apply unwrap_Done in Hv as [Hv <-]. apply bind_Done in Hr as (u & m2 & Hl & Hr).
      apply load_Done in Hl as (reg & n & Ha & ->). apply ret_Done in Hr as [<- <-]. simpl in Ha.
      apply bind_Done in Hs as (u' & k1 & Hw & Hs). unfold write_proc in Hw. apply modify_Done in Hw as <-.
      apply bind_Done in Hs as (u2 & k1 & Hw & Hs). unfold set_pid, on_cpus in Hw.
      apply zoom_Done in Hw as (cs & Hw & ->). simpl in Hw.
      apply ret_Done in Hs as [<- <-].
      assert (Hcs : cs = <[cpuid := next]> (PROCESSORS k)).
      { unfold Processor.set_pid in Hw. apply bind_Done in Hw as (c & cs' & Hc & Hw).
        unfold Processor.current in Hc. apply bind_Done in Hc as (c' & cs2 & Hg & Hc).
        apply get_Done in Hg as [<- <-]. apply unwrap_Done in Hc as [_ <-]. by apply modify_Done in Hw as <-. }
      exists loc, p, v, reg, n. split_and!; try done. by rewrite Hcs.
  - assert (Hwf' : wf (set_ready rest k)).
    { split; simpl; try apply Hwf.
      - intros q' Hq'. apply (wf_queue _ Hwf). rewrite Eq. by right.
      - intros q' p' Hl Hst. destruct (wf_ready _ Hwf q' p' Hl Hst) as [|Hin]; [by left|].
        rewrite Eq in Hin. apply elem_of_cons in Hin as [->|Hin]; [|by right].
        change (lookup_proc (set_ready rest k) next) with (lookup_proc k next) in Hl.
        rewrite (lookup_proc_Some _ _ _ _ Hloc Hp) in Hl. injection Hl as <-.
        unfold Inner.is_ready in Er. by rewrite bool_decide_eq_false in Er. }
    apply IH in Hs; [|done|simpl in *; lia]. simpl in Hs. rewrite first_ready_set_ready in Hs.
    destruct (first_ready k rest) as [[next' rest']|]; exact Hs.
Qed.

Lemma first_ready_Some (k : St) qs q rest :
  first_ready k qs = Some (q, rest) →
  is_ready k q = true ∧ ∃ dropped, qs = dropped ++ q :: rest ∧ Forall (λ x, is_ready k x = false) dropped.
Proof.
  induction qs as [|x qs IH]; simpl; [done|]. destruct (is_ready k x) eqn:E.
  - intros [= -> ->]. split; [done|]. by exists [].
  - intros Hf. destruct (IH Hf) as (Hr & d & -> & Hd). split; [done|]. exists (x :: d).
    split; [done|]. by constructor.
Qed.

Lemma first_ready_None (k : St) qs : first_ready k qs = None → Forall (λ x, is_ready k x = false) qs.
Proof.
  induction qs as [|x qs IH]; simpl; [done|]. destruct (is_ready k x) eqn:E; [done|]. constructor; auto.
Qed.

Lemma is_ready_true (k : St) q p :
  lookup_proc k q = Some p → status (inner p) = Ready → is_ready k q = true.
Proof. unfold is_ready. intros -> ->. done. Qed.

(** Queue entries that are passed over are not ready, so nobody is forgotten. *)
Lemma wf_drop (k : St) rest :
  wf k → (∀ q, q ∈ rest → q ∈ ready_queue k) →
  (∀ q, q ∈ ready_queue k → is_ready k q = true → running k = Some q ∨ q ∈ rest) →
  wf (set_ready rest k).
Proof.
  intros Hwf Hsub Hr. split; simpl; try apply Hwf.
  - intros q Hq. apply (wf_queue _ Hwf). auto.
  - intros q p Hl Hs. destruct (wf_ready _ Hwf q p Hl Hs) as [|Hin]; [by left|].
    apply Hr; [done|]. by eapply is_ready_true.
Qed.

Lemma running_set_cpus (k : St) q :
  is_Some (running k) → q ≠ 0 → <[cpuid := q]> (PROCESSORS k) !! cpuid ≫= Processor.get_pid = Some q.
Proof.
  intros [x Hx] Hq. apply running_lookup in Hx as [Hx _].
  rewrite list_lookup_insert_eq by (by eapply lookup_lt_Some). simpl.
  unfold Processor.get_pid. by rewrite (proj2 (Z.eqb_neq _ _) Hq).
Qed.

Lemma lookup_started (k : St) q loc p v reg rest q' :
  wf k → processes k !! q = Some loc → procs k !! loc = Some p →
  lookup_proc (started k q loc p v reg rest) q' =
    if decide (q' = q) then Some (mkProcess q (Inner.set_status Running (inner p))) else lookup_proc k q'.
Proof.
  intros Hwf Hq Hp. rewrite <- (lookup_set_inner k loc _ q q' p) by done.
  unfold lookup_proc, set_inner. by rewrite Hp.
Qed.

Lemma running_started (k : St) q loc p v reg rest :
  wf k → processes k !! q = Some loc → running (started k q loc p v reg rest) = Some q.
Proof.
  intros Hwf Hq. unfold running. simpl. destruct (wf_running _ Hwf) as (cur & Hcur & _).
  apply running_set_cpus; [by rewrite Hcur|]. destruct (wf_pids _ Hwf q); [by rewrite Hq|]. lia.
Qed.

Lemma wf_started (k : St) q loc p v reg rest dropped :
  wf k → switchable k → processes k !! q = Some loc → procs k !! loc = Some p →
  status (inner p) = Ready →
  ready_queue k = dropped ++ q :: rest → Forall (λ x, is_ready k x = false) dropped →
  wf (started k q loc p v reg rest).
Proof.
  intros Hwf Hsw Hq Hp Hst Hqueue Hdr.
  pose proof (lookup_started k q loc p v reg rest) as Hl.
  pose proof (running_started k q loc p v reg rest Hwf Hq) as Hrun.
  destruct (wf_table _ Hwf q loc Hq) as (p' & Hp' & Hpid & Hi). simplify_eq.
  split; simpl.
  - intros q' loc' Hq'. destruct (wf_table _ Hwf q' loc' Hq') as (p' & Hp'' & Hpid' & Hi').
    destruct (decide (loc' = loc)) as [->|Hne].
    + rewrite lookup_insert_eq. simplify_eq. eexists. split_and!; [done..|].
      by apply inner_wf_status.
    + rewrite lookup_insert_ne by done. eauto.
  - apply Hwf.
  - apply Hwf.
  - eauto.
  - intros q' Hq'. apply (wf_queue _ Hwf). rewrite Hqueue. set_solver.
  - intros q' p' Hlq Hs. rewrite Hl in Hlq by done. rewrite Hrun.
    destruct (decide (q' = Process.pid p)) as [->|Hne]; [by left|]. right.
    assert (Hin : q' ∈ ready_queue k).
    { destruct (wf_ready _ Hwf q' p' Hlq Hs) as [Hc|]; [|done]. by apply (Hsw q' p' Hc Hlq). }
    rewrite Hqueue in Hin. apply elem_of_app in Hin as [Hin|Hin].
    + rewrite Forall_forall in Hdr. specialize (Hdr q' Hin). simpl in Hdr.
      by rewrite (is_ready_true _ _ _ Hlq Hs) in Hdr.
    + apply elem_of_cons in Hin as [?|?]; [done|done].
  - intros q' p' Hlq Hs. rewrite Hl in Hlq by done. rewrite Hrun.
    destruct (decide (q' = Process.pid p)) as [->|Hne]; [done|]. exfalso.
    pose proof (wf_one _ Hwf q' p' Hlq Hs) as Hc. by destruct (Hsw q' p' Hc Hlq).
Qed.

Lemma switch_next_Done ctx (k : St) r k' :
  wf k → switch_next cpuid ctx k = Done (r, k') →
  ∃ cur, running k = Some cur ∧
  match first_ready k (ready_queue k) with
  | None => r = (cur, ctx) ∧ k' = set_ready [] k
  | Some (next, rest) =>
      if decide (next = cur) then r = (cur, ctx) ∧ k' = set_ready rest k
      else ∃ loc p v reg n, processes k !! next = Some loc ∧ procs k !! loc = Some p ∧
        Process.pid p = next ∧ proc_vm (inner p) = Some v ∧
        arcs (kmem k) !! page_table v = Some (reg, n) ∧
        r = (next, mkContext (value (context (inner p)))) ∧ k' = started k next loc p v reg rest
  end.
Proof.
  intros Hwf Hs. unfold switch_next in Hs.
  apply bind_Done in Hs as (cur & k1 & Hc & Hs). apply current_pid_Done in Hc as (-> & Hc & _).
  apply bind_Done in Hs as (n & k1 & Hg & Hs). apply gets_Done in Hg as [<- <-].
  exists cur. split; [done|]. eapply switch_loop_Done; [done| |exact Hs]. lia.
Qed.

Lemma switch_next_wf ctx (k : St) r k' :
  wf k → switchable k → switch_next cpuid ctx k = Done (r, k') → wf k' ∧ running k' = Some r.1.
Proof.
  intros Hwf Hsw Hs. destruct (switch_next_Done _ _ _ _ Hwf Hs) as (cur & Hcur & Hr).
  destruct (first_ready k (ready_queue k)) as [[next rest]|] eqn:E.
  - apply first_ready_Some in E as (Hir & d & Hq & Hd).
    destruct (decide (next = cur)) as [->|Hne].
    + destruct Hr as [-> ->]. split; [|done]. apply wf_drop; [done|rewrite Hq; set_solver|].
      rewrite Hq. intros q' [Hin|Hin]%elem_of_app Hready.
      * rewrite Forall_forall in Hd. specialize (Hd q' Hin). simpl in Hd. congruence.
      * apply elem_of_cons in Hin as [->|Hin]; [by left|by right].
    + destruct Hr as (loc & p & v & reg & n & Hloc & Hp & Hpid & Hv & Ha & -> & ->).
      split; [|by apply running_started]. eapply wf_started; try done.
      unfold is_ready in Hir. rewrite (lookup_proc_Some _ _ _ _ Hloc Hp) in Hir.
      by apply bool_decide_eq_true in Hir.
  - apply first_ready_None in E. destruct Hr as [-> ->]. split; [|done].
    apply wf_drop; [done|set_solver|]. intros q' Hin Hready.
    rewrite Forall_forall in E. specialize (E q' Hin). simpl in E. congruence.
Qed.

(** ** The other operations of the manager *)

(** What most of them leave alone. *)
Definition frame (k k' : St) : Prop :=
  running k' = running k ∧ processes k' = processes k ∧ NEXT_PID k' = NEXT_PID k ∧
  PROCESSORS k' = PROCESSORS k.

Lemma frame_refl k : frame k k.
Proof. done. Qed.

Lemma frame_trans k1 k2 k3 : frame k1 k2 → frame k2 k3 → frame k1 k3.
Proof. unfold frame. intros (? & ? & ? & ?) (? & ? & ? & ?). split_and!; congruence. Qed.

Lemma frame_set_inner loc i k : frame k (set_inner loc i k).
Proof. unfold set_inner. by destruct (procs k !! loc). Qed.

Lemma sched_eq_frame k k' : sched_eq k k' → frame k k'.
Proof. intros (Hn & Hc & Hp & Hps & Hq). unfold frame, running. by rewrite Hn, Hc, Hps. Qed.

Lemma sched_eq_switchable k k' : sched_eq k k' → switchable k → switchable k'.
Proof.
  intros (Hn & Hc & Hp & Hps & Hq) Hsw q p. unfold running, lookup_proc. rewrite Hc, Hp, Hps, Hq.
  apply Hsw.
Qed.

Lemma set_inner_ready loc i (k : St) qs :
  set_ready qs (set_inner loc i k) = set_inner loc i (set_ready qs k).
Proof. unfold set_inner. simpl. by destruct (procs k !! loc). Qed.

Lemma wake_up_Done q ret (k : St) u k' :
  wake_up q ret k = Done (u, k') →
  match processes k !! q with
  | None => k' = k
  | Some loc => ∃ p, procs k !! loc = Some p ∧
      k' = set_inner loc (Inner.pause (Inner.set_return_value ret (inner p)))
             (set_ready (ready_queue k ++ [q]) k)
  end.
Proof.
  unfold wake_up, get_proc. intros Hw. apply bind_Done in Hw as (o & k1 & Hg & Hw).
  apply gets_Done in Hg as [<- <-]. destruct (processes k !! q) as [loc|]; [|by inv_done].
  apply bind_Done in Hw as (u' & k1 & Hm & Hw). apply modify_inner_Done in Hm as (p & Hp & ->).
  unfold push_ready in Hw. apply modify_Done in Hw as <-. exists p. split; [done|].
  rewrite <- set_inner_ready. f_equal. unfold set_inner. by rewrite Hp.
Qed.

Lemma wake_up_wf q ret (k : St) u k' :
  wf k → wake_up q ret k = Done (u, k') →
  wf k' ∧ frame k k' ∧ (switchable k → switchable k').
Proof.
  intros Hwf Hw. apply wake_up_Done in Hw. destruct (processes k !! q) as [loc|] eqn:Hq; [|by subst].
  destruct Hw as (p & Hp & ->). destruct (wf_table _ Hwf q loc Hq) as (p' & Hp' & Hpid & Hi). simplify_eq.
  pose proof (wf_push k (Process.pid p) Hwf ltac:(by rewrite Hq)) as Hwf'.
  split_and!.
  - eapply wf_set_inner; [done|exact Hq|exact Hp| | |].
    + by apply inner_wf_status.
    + intros _. right. simpl. set_solver.
    + done.
  - eapply frame_trans; [|apply frame_set_inner]. done.
  - intros Hsw q' p' Hr Hl. rewrite (lookup_set_inner _ _ _ (Process.pid p) _ p) in Hl by done.
    assert (Hrk : running k = Some q') by (unfold set_inner in Hr; simpl in Hr; by rewrite Hp in Hr).
    assert (Hrq : ready_queue (set_inner loc (Inner.pause (Inner.set_return_value ret (inner p)))
      (set_ready (ready_queue k ++ [Process.pid p]) k)) = ready_queue k ++ [Process.pid p])
      by (unfold set_inner; simpl; by rewrite Hp).
    rewrite Hrq. destruct (decide (q' = Process.pid p)) as [->|Hne].
    + injection Hl as <-. split; [done|]. intros _. set_solver.
    + destruct (Hsw q' p' Hrk Hl) as [? Hin]. split; [done|]. intros Hs. apply elem_of_app. left. by apply Hin.
Qed.

Lemma wake_all_wf qs ret (k : St) u k' :
  wf k → wake_all qs ret k = Done (u, k') →
  wf k' ∧ frame k k' ∧ (switchable k → switchable k').
Proof.
  revert k. induction qs as [|q qs IH]; intros k Hwf Hw; simpl in Hw; [by inv_done|].
  apply bind_Done in Hw as (u' & k1 & Hw1 & Hw).
  apply wake_up_wf in Hw1 as (Hwf1 & Hf1 & Hs1); [|done].
  apply IH in Hw as (Hwf2 & Hf2 & Hs2); [|done].
  split_and!; [done|by eapply frame_trans|auto].
Qed.

Lemma kill_Done loc ret (k : St) u k' :
  Proc.kill PHYSICAL_OFFSET loc ret k = Done (u, k') →
  ∃ p t, procs k !! loc = Some p ∧
    k' = set_inner loc (mkInner (name (inner p)) (parent (inner p)) (children (inner p))
           (ticks_passed (inner p)) Dead (context (inner p)) (Some ret) None None) (set_kmem t k) ∧
    match proc_vm (inner p) with
    | Some v => Vm.drop PHYSICAL_OFFSET v (kmem k) = Done ((), t)
    | None => t = kmem k
    end.
Proof.
  unfold Proc.kill. intros Hk. apply bind_Done in Hk as (p & k1 & Hp & Hk).
  apply read_proc_Done in Hp as [-> Hp]. apply bind_Done in Hk as (i & k1 & Hi & Hk).
  apply on_mem_eq in Hi as (_ & t & Hi & ->). unfold write_proc in Hk. apply modify_Done in Hk as <-.
  unfold Inner.kill in Hi. apply bind_Done in Hi as ([] & m & Hd & Hi). apply ret_Done in Hi as [<- <-].
  exists p, m. split_and!; [done| |].
  - unfold set_inner. simpl. by rewrite Hp.
  - destruct (proc_vm (inner p)); [done|]. by apply ret_Done in Hd as [_ <-].
Qed.

Lemma wf_dead (k : St) t q loc p ret :
  wf k → processes k !! q = Some loc → procs k !! loc = Some p →
  wf (set_inner loc (mkInner (name (inner p)) (parent (inner p)) (children (inner p))
    (ticks_passed (inner p)) Dead (context (inner p)) (Some ret) None None) (set_kmem t k)).
Proof.
  intros Hwf Hq Hp. destruct (wf_table _ Hwf q loc Hq) as (p' & Hp' & Hpid & Hi). simplify_eq.
  assert (Hwf0 : wf (set_kmem t k)) by (by eapply (sched_eq_wf k)).
  eapply wf_set_inner; [exact Hwf0|exact Hq|exact Hp| |done|done].
  split_and!; simpl; [|..|done]; (split; [done|by intros []]).
Qed.

Lemma manager_kill_wf q ret (k : St) u k' :
  wf k → manager_kill PHYSICAL_OFFSET q ret k = Done (u, k') →
  wf k' ∧ frame k k' ∧ (running k = Some q → switchable k').
Proof.
  intros Hwf Hk. unfold manager_kill, get_proc in Hk. apply bind_Done in Hk as (o & k1 & Hg & Hk).
  apply gets_Done in Hg as [<- <-]. destruct (processes k !! q) as [loc|] eqn:Hq; cycle 1.
  { inv_done. split_and!; [done..|]. intros Hr. destruct (wf_running _ Hwf) as (c & Hc & Hs).
    simplify_eq. rewrite Hq in Hs. by destruct Hs. }
  apply bind_Done in Hk as (u' & k1 & Hd & Hk). apply kill_Done in Hd as (p & t & Hp & -> & _).
  pose proof (wf_dead k t q loc p ret Hwf Hq Hp) as Hwf1.
  destruct (wf_table _ Hwf q loc Hq) as (p' & Hp' & Hpid & Hi). simplify_eq.
  set (i := mkInner _ _ _ _ Dead _ _ _ _) in *. set (k1 := set_inner loc i (set_kmem t k)) in *.
  assert (Hwf0 : wf (set_kmem t k)) by (by eapply (sched_eq_wf k)).
  assert (Hf1 : frame k k1) by (eapply frame_trans; [|apply frame_set_inner]; done).
  assert (Hsw : running k = Some (Process.pid p) → switchable k1).
  { intros Hr q' p' Hr' Hl. rewrite (proj1 Hf1), Hr in Hr'. injection Hr' as <-. unfold k1 in Hl.
    rewrite (lookup_set_inner _ _ _ (Process.pid p) _ p), decide_True in Hl by done. by injection Hl as <-. }
  clearbody k1. unfold take_waiters in Hk. apply bind_Done in Hk as (w & k2 & Ht & Hk). injection Ht as <- <-.
  assert (Hse : sched_eq k1 (set_waits (delete (Process.pid p) (wait_queue k1)) k1)) by done.
  destruct (wait_queue k1 !! Process.pid p) as [pids|].
  - apply wake_all_wf in Hk as (Hwf2 & Hf2 & Hs2); [|by eapply sched_eq_wf]. split_and!; [done| |].
    + eapply frame_trans; [exact Hf1|]. eapply frame_trans; [by apply sched_eq_frame|done].
    + intros Hr. apply Hs2. eapply sched_eq_switchable; [done|auto].
  - inv_done. split_and!; [by eapply sched_eq_wf| |].
    + eapply frame_trans; [exact Hf1|]. by apply sched_eq_frame.
    + intros Hr. eapply sched_eq_switchable; [done|auto].
Qed.

Lemma block_wf q loc p (k : St) :
  wf k → processes k !! q = Some loc → procs k !! loc = Some p →
  wf (set_inner loc (Inner.block (inner p)) k) ∧
  (running k = Some q → switchable (set_inner loc (Inner.block (inner p)) k)).
Proof.
  intros Hwf Hq Hp. destruct (wf_table _ Hwf q loc Hq) as (p' & Hp' & Hpid & Hi). simplify_eq. split.
  - eapply wf_set_inner; [done|exact Hq|exact Hp| |done|done]. by apply inner_wf_status.
  - intros Hr q' p' Hr' Hl. rewrite (proj1 (frame_set_inner _ _ _)), Hr in Hr'. injection Hr' as <-.
    rewrite (lookup_set_inner _ _ _ (Process.pid p) _ p), decide_True in Hl by done. by injection Hl as <-.
Qed.

(** A new process enters the table and the queue. *)
Definition add_process (loc : nat) (p : Process) (k : St) : St :=
  mkKernel (kmem k) (data k) (NEXT_PID k + 1) (PROCESSORS k) (<[loc := p]> (procs k))
    (<[Process.pid p := loc]> (processes k)) (ready_queue k ++ [Process.pid p]) (wait_queue k) (app_list k).

Lemma add_process_wf loc p (k : St) :
  wf k → procs k !! loc = None → Process.pid p = NEXT_PID k → NEXT_PID k + 1 < 2 ^ 16 →
  status (inner p) = Ready → inner_wf (inner p) →
  wf (add_process loc p k) ∧ running (add_process loc p k) = running k ∧
  (switchable k → switchable (add_process loc p k)) ∧
  ∀ q, q ≠ Process.pid p → lookup_proc (add_process loc p k) q = lookup_proc k q.
Proof.
  intros Hwf Hfree Hpid Hn Hst Hi.
  assert (Hnew : processes k !! Process.pid p = None).
  { apply eq_None_not_Some. intros Hs. apply (wf_pids _ Hwf) in Hs. lia. }
  assert (Hloc : ∀ q' loc', processes k !! q' = Some loc' → loc' ≠ loc).
  { intros q' loc' Hq' ->. destruct (wf_table _ Hwf q' loc Hq') as (? & ? & _). congruence. }
  assert (Hl : ∀ q, q ≠ Process.pid p → lookup_proc (add_process loc p k) q = lookup_proc k q).
  { intros q Hq. unfold lookup_proc. simpl. rewrite lookup_insert_ne by done.
    destruct (processes k !! q) as [loc'|] eqn:E; [|done]. simpl.
    rewrite lookup_insert_ne; [done|]. apply not_eq_sym. by eapply Hloc. }
  assert (Hself : lookup_proc (add_process loc p k) (Process.pid p) = Some p).
  { unfold lookup_proc. simpl. rewrite lookup_insert_eq. simpl. by rewrite lookup_insert_eq. }
  assert (Hrun : running (add_process loc p k) = running k) by done.
  destruct (wf_running _ Hwf) as (cur & Hcur & Hcs).
  assert (Hcne : cur ≠ Process.pid p) by (intros ->; rewrite Hnew in Hcs; by destruct Hcs).
  split_and!; [split|..]; try done; simpl.
  - intros q loc'. destruct (decide (q = Process.pid p)) as [->|Hq].
    + rewrite lookup_insert_eq. intros [= <-]. rewrite lookup_insert_eq. eauto.
    + rewrite lookup_insert_ne by done. intros Hq'.
      rewrite lookup_insert_ne by (apply not_eq_sym; by eapply Hloc). by apply (wf_table _ Hwf).
  - intros q. destruct (decide (q = Process.pid p)) as [->|Hq].
    + intros _. destruct (wf_pids _ Hwf cur Hcs). lia.
    + rewrite lookup_insert_ne by done. intros Hs. destruct (wf_pids _ Hwf q Hs). lia.
  - exists cur. split; [done|]. rewrite lookup_insert_ne by done. done.
  - intros q [Hin| ->%list_elem_of_singleton]%elem_of_app; [|by rewrite lookup_insert_eq].
    pose proof (wf_queue _ Hwf q Hin) as Hs. rewrite lookup_insert_ne; [done|].
    intros <-. rewrite Hnew in Hs. by destruct Hs.
  - intros q p' Hlq Hs. destruct (decide (q = Process.pid p)) as [->|Hq].
    + right. set_solver.
    + rewrite Hl in Hlq by done. destruct (wf_ready _ Hwf q p' Hlq Hs); [by left|right; set_solver].
  - intros q p' Hlq Hs. destruct (decide (q = Process.pid p)) as [->|Hq].
    + rewrite Hself in Hlq. injection Hlq as <-. congruence.
    + rewrite Hl in Hlq by done. by apply (wf_one _ Hwf q p').
  - intros Hsw q p' Hr Hlq. rewrite Hrun, Hcur in Hr. injection Hr as <-. rewrite Hl in Hlq by done.
    destruct (Hsw cur p' Hcur Hlq) as [? Hin]. split; [done|]. intros Hs. simpl. set_solver.
Qed.

Lemma inner_fork_Done loc i (m : Mem PT) ci m' :
  inner_wf i → Inner.fork PHYSICAL_OFFSET loc i m = Done (ci, m') →
  status ci = Ready ∧ inner_wf ci ∧ name ci = name i ∧ parent ci = Some loc ∧ children ci = [] ∧
  proc_data ci = proc_data i ∧
  ∃ v cv off sp m1, proc_vm i = Some v ∧ proc_vm ci = Some cv ∧
    Vm.fork PHYSICAL_OFFSET v (Z.of_nat (length (children i))) m = Done (cv, m1) ∧
    on_machine (StackOps.stack_offset (stack cv) (stack v)) m1 = Done (off, m') ∧
    VirtAddr_add (stack_pointer (stack_frame (value (context i)))) off = Some sp ∧
    context ci = Context.set_rax 0 (mkContext (mkValue (regs (value (context i)))
      (mkFrame (instruction_pointer (stack_frame (value (context i)))) (code_segment (stack_frame (value (context i))))
         (cpu_flags (stack_frame (value (context i)))) sp (stack_segment (stack_frame (value (context i))))))).
Proof.
  intros (H1' & H2' & H3') Hf. unfold Inner.fork, Inner.vm, Context.set_stack_offset in Hf. inv_done.
  match goal with Hv : proc_vm i = Some _ |- _ => pose proof (proj2 H1' ltac:(by rewrite Hv)) as Hex end.
  pose proof (proj1 H2' Hex) as [d Hd].
  assert (Hcl : Data.clone <$> proc_data i = proc_data i) by (rewrite Hd; by destruct d).
  rewrite Hcl. split_and!; try done. do 5 eexists. split_and!; [eassumption|reflexivity|eassumption..|reflexivity].
Qed.

Lemma proc_fork_Done loc (k : St) child k' :
  Proc.fork PHYSICAL_OFFSET loc k = Done (child, k') →
  ∃ p ci m, procs k !! loc = Some p ∧ Inner.fork PHYSICAL_OFFSET loc (inner p) (kmem k) = Done (ci, m) ∧
    child = fresh (dom (procs k)) ∧
    k' = set_procs (<[loc := mkProcess (Process.pid p)
            (Inner.set_context (Context.set_rax (NEXT_PID k) (context (inner p)))
              (Inner.push_child child (Inner.pause (inner p))))]>
          (<[child := mkProcess (NEXT_PID k) ci]> (procs k)))
          (set_next_pid (wrap 16 (NEXT_PID k + 1)) (set_kmem m k)).
Proof.
  unfold Proc.fork. intros Hf. apply bind_Done in Hf as (p & k1 & Hp & Hf).
  apply read_proc_Done in Hp as [-> Hp]. apply bind_Done in Hf as (ci & k1 & Hi & Hf).
  apply on_mem_eq in Hi as (_ & m & Hi & ->). apply bind_Done in Hf as (cpid & k1 & Hc & Hf).
  unfold on_pid in Hc. apply zoom_Done in Hc as (n & Hc & ->). injection Hc as <- <-.
  apply bind_Done in Hf as (c & k1 & Hc & Hf). injection Hc as <- <-.
  apply bind_Done in Hf as (u & k1 & Hw & Hf). injection Hw as <- <-. apply ret_Done in Hf as [<- <-].
  exists p, ci, m. split_and!; done.
Qed.

Definition forked_parent (child : nat) (cpid : Z) (i : ProcessInner) : ProcessInner :=
  Inner.set_context (Context.set_rax cpid (context i)) (Inner.push_child child (Inner.pause i)).

Lemma manager_fork_Done (k : St) u k' :
  wf k → NEXT_PID k + 1 < 2 ^ 16 → manager_fork PHYSICAL_OFFSET cpuid k = Done (u, k') →
  ∃ q loc p ci m, running k = Some q ∧ processes k !! q = Some loc ∧ procs k !! loc = Some p ∧
    Inner.fork PHYSICAL_OFFSET loc (inner p) (kmem k) = Done (ci, m) ∧
    k' = add_process (fresh (dom (procs k))) (mkProcess (NEXT_PID k) ci)
           (set_inner loc (forked_parent (fresh (dom (procs k))) (NEXT_PID k) (inner p)) (set_kmem m k)).
Proof.
  intros Hwf Hn Hf. unfold manager_fork in Hf.
  apply bind_Done in Hf as (loc & k1 & Hc & Hf). apply current_Done in Hc as (-> & q & Hr & Hq).
  apply bind_Done in Hf as (child & k1 & Hc & Hf).
  apply proc_fork_Done in Hc as (p & ci & m & Hp & Hi & -> & ->).
  set (child := fresh (dom (procs k))) in *.
  assert (Hne : loc ≠ child).
  { intros ->. assert (Hd : child ∈ dom (procs k)) by (by apply elem_of_dom_2 in Hp).
    by apply is_fresh in Hd. }
  exists q, loc, p, ci, m. split_and!; [done..|].
  apply bind_Done in Hf as (c & k1 & Hc & Hf). apply read_proc_Done in Hc as [-> Hc]. simpl in Hc.
  rewrite lookup_insert_ne, lookup_insert_eq in Hc by done. injection Hc as <-.
  apply bind_Done in Hf as (u' & k1 & Hw & Hf). unfold push_ready in Hw. apply modify_Done in Hw as <-.
  unfold add_proc in Hf. apply modify_Done in Hf as <-.
  assert (Hw : wrap 16 (NEXT_PID k + 1) = NEXT_PID k + 1).
  { apply wrap_small. destruct (wf_running _ Hwf) as (c & _ & Hs).
    destruct (wf_pids _ Hwf c Hs). lia. }
  unfold add_process, set_inner. simpl. rewrite Hp, Hw. simpl.
  unfold set_processes, set_ready, set_procs, set_next_pid, set_kmem. simpl.
  rewrite insert_insert_ne by done. reflexivity.
Qed.

Lemma wf_set_kmem m (k : St) : wf k → wf (set_kmem m k).
Proof. by apply sched_eq_wf. Qed.

Lemma forked_parent_wf child cpid i : inner_wf i → inner_wf (forked_parent child cpid i).
Proof. intros (H1' & H2' & H3'). by split_and!. Qed.

Lemma manager_fork_wf (k : St) u k' :
  wf k → NEXT_PID k + 1 < 2 ^ 16 → manager_fork PHYSICAL_OFFSET cpuid k = Done (u, k') →
  wf k' ∧ running k' = running k ∧ (∀ q, is_Some (processes k !! q) → is_Some (processes k' !! q)) ∧
  (∀ q, q ∈ ready_queue k → q ∈ ready_queue k') ∧
  ∀ q, running k = Some q → ∃ p, lookup_proc k' q = Some p ∧ status (inner p) = Ready.
Proof.
  intros Hwf Hn Hf. destruct (manager_fork_Done _ _ _ Hwf Hn Hf) as (q & loc & p & ci & m & Hr & Hq & Hp & Hi & ->).
  destruct (wf_table _ Hwf q loc Hq) as (p' & Hp' & Hpid & Hiw). rewrite Hp in Hp'. injection Hp' as <-.
  destruct (inner_fork_Done _ _ _ _ _ Hiw Hi) as (Hst & Hciw & _).
  set (child := fresh (dom (procs k))) in *. set (i' := forked_parent child (NEXT_PID k) (inner p)).
  assert (Hwf1 : wf (set_inner loc i' (set_kmem m k))).
  { eapply wf_set_inner; [by apply wf_set_kmem|exact Hq|exact Hp|by apply forked_parent_wf| |done].
    intros _. by left. }
  assert (Hk1 : set_inner loc i' (set_kmem m k) =
    set_procs (<[loc := mkProcess (Process.pid p) i']> (procs k)) (set_kmem m k)).
  { unfold set_inner. simpl. by rewrite Hp. }
  assert (Hfree : procs (set_inner loc i' (set_kmem m k)) !! child = None).
  { rewrite Hk1. simpl. rewrite lookup_insert_ne; [apply not_elem_of_dom, is_fresh|].
    intros ->. apply elem_of_dom_2 in Hp. by apply is_fresh in Hp. }
  destruct (add_process_wf child (mkProcess (NEXT_PID k) ci) _ Hwf1 Hfree) as (Hwf2 & Hr2 & _ & Hl2);
    try (rewrite Hk1; done); [done..|].
  split_and!; [done| | | |].
  - rewrite Hr2. by rewrite Hk1.
  - intros q' Hs. simpl. rewrite Hk1. simpl. destruct (decide (q' = NEXT_PID k)) as [->|].
    + by rewrite lookup_insert_eq.
    + by rewrite lookup_insert_ne.
  - intros q' Hin. simpl. rewrite Hk1. simpl. set_solver.
  - intros q' Hr'. assert (q' = q) as -> by congruence.
    exists (mkProcess q i'). split; [|done]. rewrite Hl2.
    + rewrite (lookup_set_inner _ _ _ q _ p), decide_True; [done|done|by apply wf_set_kmem|done|done].
    + simpl. destruct (wf_pids _ Hwf q); [by rewrite Hq|]. lia.
Qed.

(** ** The kernel's process interface *)

Lemma wf_push_switchable (k : St) q :
  wf k → running k = Some q → (∃ p, lookup_proc k q = Some p ∧ status (inner p) = Ready) →
  switchable (set_ready (ready_queue k ++ [q]) k).
Proof.
  intros Hwf Hr (p & Hl & Hs) q' p' Hr' Hl'. change (running k = Some q') in Hr'.
  change (lookup_proc k q' = Some p') in Hl'. simplify_eq. rewrite Hs. split; [done|].
  intros _. simpl. set_solver.
Qed.

Lemma saved_status ctx (k : St) q k' :
  wf k → save_current cpuid ctx k = Done (q, k') →
  ∃ p, lookup_proc k' q = Some p ∧ status (inner p) = Ready.
Proof.
  intros Hwf Hs. destruct (save_current_Done _ _ _ _ Hwf Hs) as (loc & p & Hr & Hq & Hp & ->).
  eexists. rewrite (lookup_set_inner _ _ _ q _ p), decide_True by done. done.
Qed.

Lemma switch_wf ctx (k : St) ctx' k' : wf k → switch cpuid ctx k = Done (ctx', k') → wf k'.
Proof.
  intros Hwf Hs. unfold switch in Hs. apply bind_Done in Hs as (q & k1 & Hsv & Hs).
  pose proof (saved_status _ _ _ _ Hwf Hsv) as Hst.
  apply save_current_wf in Hsv as (Hwf1 & Hr1 & Hr & Hq1 & Hps & Hin); [|done].
  apply bind_Done in Hs as (u & k2 & Hp & Hs). unfold push_ready in Hp. apply modify_Done in Hp as <-.
  apply bind_Done in Hs as (r & k2 & Hn & Hs). apply ret_Done in Hs as [_ <-].
  eapply switch_next_wf in Hn; [apply Hn| |].
  - apply wf_push; [done|]. by rewrite Hps.
  - by apply wf_push_switchable.
Qed.

Lemma fork_wf ctx (k : St) ctx' k' :
  wf k → NEXT_PID k + 1 < 2 ^ 16 → fork PHYSICAL_OFFSET cpuid ctx k = Done (ctx', k') → wf k'.
Proof.
  intros Hwf Hnp Hs. unfold fork in Hs. apply bind_Done in Hs as (q & k1 & Hsv & Hs).
  pose proof (save_current_Done _ _ _ _ Hwf Hsv) as (loc & p & _ & _ & Hp & Hk1).
  assert (Hnp1 : NEXT_PID k1 = NEXT_PID k) by (rewrite Hk1; apply frame_set_inner).
  apply save_current_wf in Hsv as (Hwf1 & Hr1 & Hr & Hq1 & Hps & Hin); [|done].
  apply bind_Done in Hs as (u & k2 & Hf & Hs).
  apply manager_fork_wf in Hf as (Hwf2 & Hr2 & Hp2 & _ & Hst); [|done|by rewrite Hnp1].
  apply bind_Done in Hs as (u' & k3 & Hpu & Hs). unfold push_ready in Hpu. apply modify_Done in Hpu as <-.
  apply bind_Done in Hs as (r & k3 & Hn & Hs). apply ret_Done in Hs as [_ <-].
  eapply switch_next_wf in Hn; [apply Hn| |].
  - apply wf_push; [done|]. apply Hp2. by rewrite Hps.
  - apply wf_push_switchable; [done|by rewrite Hr2|by apply Hst].
Qed.

Lemma process_exit_wf ret ctx (k : St) ctx' k' :
  wf k → process_exit PHYSICAL_OFFSET cpuid ret ctx k = Done (ctx', k') → wf k'.
Proof.
  intros Hwf Hs. unfold process_exit, kill_self in Hs. apply bind_Done in Hs as (u & k1 & Hk & Hs).
  apply bind_Done in Hk as (q & k2 & Hc & Hk). apply current_pid_Done in Hc as (-> & Hr & _).
  apply manager_kill_wf in Hk as (Hwf1 & _ & Hsw); [|done].
  apply bind_Done in Hs as (r & k2 & Hn & Hs). apply ret_Done in Hs as [_ <-].
  eapply switch_next_wf in Hn; [apply Hn|done|auto].
Qed.

Lemma kill_wf q ctx (k : St) ctx' k' :
  wf k → kill PHYSICAL_OFFSET cpuid q ctx k = Done (ctx', k') → wf k'.
Proof.
  intros Hwf Hs. unfold kill, kill_self in Hs. apply bind_Done in Hs as (c & k1 & Hc & Hs).
  apply current_pid_Done in Hc as (-> & Hr & _). destruct (q =? c) eqn:E.
  - apply bind_Done in Hs as (u & k1 & Hk & Hs).
    apply bind_Done in Hk as (q' & k2 & Hc & Hk). apply current_pid_Done in Hc as (-> & Hr' & _).
    apply manager_kill_wf in Hk as (Hwf1 & _ & Hsw); [|done].
    apply bind_Done in Hs as (r & k2 & Hn & Hs). apply ret_Done in Hs as [_ <-].
    eapply switch_next_wf in Hn; [apply Hn|done|auto].
  - apply bind_Done in Hs as (u & k1 & Hk & Hs). apply ret_Done in Hs as [_ <-].
    by apply manager_kill_wf in Hk as (Hwf1 & _).
Qed.

Lemma get_ret_Done q (k : St) r k' :
  get_ret q k = Done (r, k') →
  k' = k ∧ r = (lookup_proc k q ≫= λ p, exit_code (inner p)).
Proof.
  unfold get_ret, get_proc, lookup_proc. intros Hg. apply bind_Done in Hg as (o & k1 & Ho & Hg).
  apply gets_Done in Ho as [<- <-]. destruct (processes k !! q) as [loc|]; [|by inv_done].
  apply bind_Done in Hg as (p & k1 & Hp & Hg). apply read_proc_Done in Hp as [-> Hp].
  inv_done. by rewrite Hp.
Qed.

Definition add_waiter (q cur : Z) (k : St) : St :=
  set_waits (<[q := btree_insert cur (default [] (wait_queue k !! q))]> (wait_queue k)) k.

Lemma manager_wait_pid_Done q (k : St) r k' :
  manager_wait_pid cpuid q k = Done (r, k') →
  match lookup_proc k q ≫= λ p, exit_code (inner p) with
  | Some ret => r = Some ret ∧ k' = k
  | None => r = None ∧ ∃ cur, running k = Some cur ∧ k' = add_waiter q cur k
  end.
Proof.
  unfold manager_wait_pid. intros Hw. apply bind_Done in Hw as (o & k1 & Ho & Hw).
  apply get_ret_Done in Ho as [-> ->]. destruct (lookup_proc k q ≫= _) as [ret|]; [by inv_done|].
  apply bind_Done in Hw as (cur & k1 & Hc & Hw). apply current_pid_Done in Hc as (-> & Hc & _).
  inv_done. split; [done|]. by exists cur.
Qed.

(** The running process is saved, blocked and switched away from. *)
Lemma saved_block ctx (k : St) q k1 :
  wf k → save_current cpuid ctx k = Done (q, k1) →
  ∃ loc p, running k1 = Some q ∧ processes k1 !! q = Some loc ∧ procs k1 !! loc = Some p ∧
    wf (set_inner loc (Inner.block (inner p)) k1) ∧ switchable (set_inner loc (Inner.block (inner p)) k1).
Proof.
  intros Hwf Hsv. destruct (save_current_wf _ _ _ _ Hwf Hsv) as (Hwf1 & Hr1 & _ & _ & Hps & [loc Hloc]).
  rewrite <- Hps in Hloc. destruct (wf_table _ Hwf1 q loc Hloc) as (p & Hp & _).
  destruct (block_wf q loc p k1 Hwf1 Hloc Hp) as [Hw Hs]. exists loc, p. split_and!; auto.
Qed.

Lemma wait_pid_wf q ctx (k : St) ctx' k' :
  wf k → wait_pid cpuid q ctx k = Done (ctx', k') → wf k'.
Proof.
  intros Hwf Hs. unfold wait_pid in Hs. apply bind_Done in Hs as (o & k1 & Hw & Hs).
  apply manager_wait_pid_Done in Hw. destruct (lookup_proc k q ≫= _) as [ret|].
  { destruct Hw as [-> ->]. by inv_done. }
  destruct Hw as (-> & cur & Hcur & ->).
  apply bind_Done in Hs as (c & k2 & Hsv & Hs).
  apply saved_block in Hsv as (loc & p & Hr & Hloc & Hp & Hwf2 & Hsw); [|by eapply (sched_eq_wf k)].
  apply bind_Done in Hs as (loc' & k3 & Hc & Hs). apply current_Done in Hc as (-> & c' & Hr' & Hloc').
  assert (loc' = loc) as -> by congruence.
  apply bind_Done in Hs as (u & k3 & Hm & Hs). apply modify_inner_Done in Hm as (p' & Hp' & ->).
  assert (p' = p) as -> by congruence.
  apply bind_Done in Hs as (r & k3 & Hn & Hs). apply ret_Done in Hs as [_ <-].
  eapply switch_next_wf in Hn; [apply Hn|done|done].
Qed.

Lemma sem_wait_wf key ctx (k : St) ctx' k' :
  wf k → sem_wait cpuid key ctx k = Done (ctx', k') → wf k'.
Proof.
  intros Hwf Hs. unfold sem_wait in Hs. apply bind_Done in Hs as (q & k1 & Hc & Hs).
  apply current_pid_Done in Hc as (-> & _ & _). apply bind_Done in Hs as (loc & k1 & Hc & Hs).
  apply current_Done in Hc as (-> & _). apply bind_Done in Hs as (p & k1 & Hp & Hs).
  apply read_proc_Done in Hp as [-> _]. apply bind_Done in Hs as (d & k1 & Hd & Hs).
  apply unwrap_Done in Hd as [_ <-]. apply bind_Done in Hs as (ret & k1 & Hd & Hs).
  apply on_data_eq in Hd as [Hse _]. apply (sched_eq_wf _ _ Hse) in Hwf.
  destruct ret as [| | |]; [by inv_done|by inv_done| |by inv_done].
  apply bind_Done in Hs as (c & k2 & Hsv & Hs).
  apply saved_block in Hsv as (l & p' & Hr & Hloc & Hp & Hwf2 & Hsw); [|done].
  apply bind_Done in Hs as (u & k3 & Hb & Hs). unfold manager_block, get_proc in Hb.
  apply bind_Done in Hb as (o & k4 & Ho & Hb). apply gets_Done in Ho as [<- <-]. rewrite Hloc in Hb.
  apply modify_inner_Done in Hb as (p2 & Hp2 & ->). assert (p2 = p') as -> by congruence.
  apply bind_Done in Hs as (r & k3 & Hn & Hs). apply ret_Done in Hs as [_ <-].
  eapply switch_next_wf in Hn; [apply Hn|done|done].
Qed.

Lemma sem_signal_wf key ctx (k : St) ctx' k' :
  wf k → sem_signal cpuid key ctx k = Done (ctx', k') → wf k'.
Proof.
  intros Hwf Hs. unfold sem_signal in Hs. apply bind_Done in Hs as (q & k1 & Hc & Hs).
  apply current_pid_Done in Hc as (-> & _ & _). apply bind_Done in Hs as (loc & k1 & Hc & Hs).
  apply current_Done in Hc as (-> & _). apply bind_Done in Hs as (p & k1 & Hp & Hs).
  apply read_proc_Done in Hp as [-> _]. apply bind_Done in Hs as (d & k1 & Hd & Hs).
  apply unwrap_Done in Hd as [_ <-]. apply bind_Done in Hs as (ret & k1 & Hd & Hs).
  apply on_data_eq in Hd as [Hse _]. apply (sched_eq_wf _ _ Hse) in Hwf.
  destruct ret as [| | |]; [by inv_done|by inv_done|by inv_done|].
  apply bind_Done in Hs as (u & k2 & Hw & Hs). apply ret_Done in Hs as [_ <-].
  by apply wake_up_wf in Hw as [? _].
Qed.

(** Calls on the running process that only touch its data. *)
Lemma on_current_data_wf {R} (f : ProcessData → M (DataStore Q) R) (k : St) r k' :
  wf k →
  (loc ← current cpuid; p ← read_proc loc; d ← unwrap (proc_data (inner p)); on_data (f d)) k = Done (r, k') →
  wf k'.
Proof.
  intros Hwf Hs. apply bind_Done in Hs as (loc & k1 & Hc & Hs). apply current_Done in Hc as (-> & _).
  apply bind_Done in Hs as (p & k1 & Hp & Hs). apply read_proc_Done in Hp as [-> _].
  apply bind_Done in Hs as (d & k1 & Hd & Hs). apply unwrap_Done in Hd as [_ <-].
  apply on_data_eq in Hs as [Hse _]. by eapply sched_eq_wf.
Qed.

Lemma new_sem_wf key init (k : St) r k' : wf k → new_sem cpuid key init k = Done (r, k') → wf k'.
Proof.
  intros Hwf Hs. unfold new_sem in Hs. inv_done.
  repeat match goal with
    | Hc : current _ _ = _ |- _ => apply current_Done in Hc as (-> & _)
    | Hc : read_proc _ _ = _ |- _ => apply read_proc_Done in Hc as [-> _]
    | Hc : on_data _ _ = _ |- _ => apply on_data_eq in Hc as [Hse _]; by eapply sched_eq_wf
    end.
Qed.

Lemma remove_sem_wf key (k : St) r k' : wf k → remove_sem cpuid key k = Done (r, k') → wf k'.
Proof.
  intros Hwf Hs. unfold remove_sem in Hs. inv_done.
  repeat match goal with
    | Hc : current _ _ = _ |- _ => apply current_Done in Hc as (-> & _)
    | Hc : read_proc _ _ = _ |- _ => apply read_proc_Done in Hc as [-> _]
    | Hc : on_data _ _ = _ |- _ => apply on_data_eq in Hc as [Hse _]; by eapply sched_eq_wf
    end.
Qed.

Lemma brk_wf a (k : St) r k' : wf k → brk PHYSICAL_OFFSET cpuid a k = Done (r, k') → wf k'.
Proof.
  intros Hwf Hs. unfold brk in Hs. inv_done.
  repeat match goal with
    | Hc : current _ _ = _ |- _ => apply current_Done in Hc as (-> & _)
    | Hc : read_proc _ _ = _ |- _ => apply read_proc_Done in Hc as [-> _]
    | Hc : on_mem _ _ = _ |- _ => apply on_mem_eq in Hc as [Hse _]; by eapply sched_eq_wf
    end.
Qed.

Lemma handle_page_fault_wf a e (k : St) r k' :
  wf k → handle_page_fault PHYSICAL_OFFSET cpuid a e k = Done (r, k') → wf k'.
Proof.
  intros Hwf Hs. unfold handle_page_fault, manager_handle_page_fault in Hs.
  destruct (negb _); [|by inv_done].
  apply bind_Done in Hs as (loc & k1 & Hc & Hs). apply current_Done in Hc as (-> & q & Hr & Hq).
  apply bind_Done in Hs as (p & k1 & Hp & Hs). apply read_proc_Done in Hp as [-> Hp].
  apply bind_Done in Hs as (cur & k1 & Hg & Hs). apply gets_Done in Hg as [_ <-].
  apply bind_Done in Hs as ([b i] & k1 & Hf & Hs). apply on_mem_eq in Hf as (_ & t & Hf & ->).
  apply bind_Done in Hs as (u & k1 & Hw & Hs). unfold write_proc in Hw. apply modify_Done in Hw as <-.
  apply ret_Done in Hs as [_ <-]. unfold Inner.handle_page_fault, Inner.vm in Hf. inv_done.
  destruct (wf_table _ Hwf q loc Hq) as (p' & Hp' & Hpid & Hi). simplify_eq.
  match goal with |- wf (set_procs (<[loc := mkProcess _ ?i]> _) _) =>
    assert (Hwf2 : wf (set_inner loc i (set_kmem t k))) end.
  { eapply wf_set_inner; [by apply wf_set_kmem|exact Hq|exact Hp| | |].
    - destruct Hi as (H1' & H2' & H3'). split_and!; simpl; [|done..].
      match goal with Hv : proc_vm (inner p) = Some _ |- _ => rewrite Hv in H1' end.
      split; [by intros|]. intros _. by apply H1'.
    - simpl. intros Hst. by left.
    - simpl. intros Hst. done. }
  unfold set_inner in Hwf2. simpl in Hwf2. by rewrite Hp in Hwf2.
Qed.

Lemma proc_new_Done nm par v od (k : St) loc k' :
  Proc.new nm par (Some v) od k = Done (loc, k') →
  ∃ d dt, loc = fresh (dom (procs k)) ∧
    k' = set_procs (<[loc := mkProcess (NEXT_PID k)
           (mkInner (to_ascii_lowercase nm) par [] 0 Ready Context.default None (Some d) (Some v))]> (procs k))
         (set_data dt (set_next_pid (wrap 16 (NEXT_PID k + 1)) k)).
Proof.
  unfold Proc.new. intros Hn. apply bind_Done in Hn as (c & k1 & Hp & Hn).
  unfold on_pid in Hp. apply zoom_Done in Hp as (n & Hp & ->). injection Hp as <- <-.
  apply bind_Done in Hn as (v' & k1 & Hv & Hn). apply ret_Done in Hv as [<- <-].
  apply bind_Done in Hn as (d & k1 & Hd & Hn).
  assert (Hk1 : ∃ dt, k1 = set_data dt (set_next_pid (wrap 16 (NEXT_PID k + 1)) k)).
  { destruct od as [d0|].
    - apply ret_Done in Hd as [_ <-]. exists (data k). by destruct k.
    - apply on_data_eq in Hd as (_ & dt & _ & ->). by exists dt. }
  destruct Hk1 as [dt ->]. unfold Arc_new_proc in Hn. injection Hn as <- <-.
  exists d, dt. split; [done|]. done.
Qed.

Lemma spawn_elf_Done elf nm par od (k : St) q k' :
  wf k → NEXT_PID k + 1 < 2 ^ 16 → spawn_elf PHYSICAL_OFFSET selector elf nm par od k = Done (q, k') →
  ∃ i m dt, q = NEXT_PID k ∧ status i = Ready ∧ inner_wf i ∧ children i = [] ∧ parent i = par ∧
    stack_pointer (stack_frame (value (context i))) = VirtAddr_new_truncate STACK_INIT_TOP ∧
    instruction_pointer (stack_frame (value (context i))) = VirtAddr_new_truncate (entry_point elf) ∧
    k' = add_process (fresh (dom (procs k))) (mkProcess (NEXT_PID k) i) (set_data dt (set_kmem m k)) ∧
    (∃ loc kp v0 a m1 v1 m2 v, procs k !! loc = Some kp ∧ proc_vm (inner kp) = Some v0 ∧
      PageTableContext.clone_level_4 PHYSICAL_OFFSET (page_table v0) (kmem k) = Done (a, m1) ∧
      Vm.new a m1 = Done (v1, m2) ∧ Vm.load_elf PHYSICAL_OFFSET v1 elf m2 = Done (v, m) ∧ proc_vm i = Some v ∧
      processes k !! KERNEL_PID = Some loc) ∧
    Context.segments (context i) = selector.
Proof.
  intros Hwf Hn Hs. unfold spawn_elf, get_proc in Hs.
  apply bind_Done in Hs as (o & k1 & Ho & Hs). apply gets_Done in Ho as [<- <-].
  apply bind_Done in Hs as (kl & k1 & Hk & Hs). apply unwrap_Done in Hk as [Hkl <-].
  apply bind_Done in Hs as (kp & k1 & Hk & Hs). apply read_proc_Done in Hk as [-> Hkp].
  apply bind_Done in Hs as (pt & k1 & Hk & Hs). apply on_mem_eq in Hk as (_ & m1 & Hm1 & ->).
  apply bind_Done in Hs as (v & k1 & Hk & Hs). apply on_mem_eq in Hk as (_ & m2 & Hm2 & ->).
  unfold Inner.clone_page_table, Inner.vm in Hm1. apply bind_Done in Hm1 as (v0 & m0 & Hv0 & Hm1).
  apply unwrap_Done in Hv0 as [Hv0 <-].
  apply bind_Done in Hs as (loc & k1 & Hk & Hs). apply proc_new_Done in Hk as (d & dt & -> & ->). simpl in Hs.
  set (loc := fresh (dom (procs k))) in *.
  apply bind_Done in Hs as (u & k1 & Hk & Hs). apply modify_inner_Done in Hk as (p & Hp & ->).
  simpl in Hp. rewrite lookup_insert_eq in Hp. injection Hp as <-.
  apply bind_Done in Hs as (p & k1 & Hk & Hs). apply read_proc_Done in Hk as [-> Hp].
  unfold set_inner in Hs, Hp. simpl in Hs, Hp. rewrite !lookup_insert_eq in Hs, Hp. simpl in Hs, Hp.
  rewrite lookup_insert_eq in Hp. injection Hp as <-. simpl in Hs.
  apply bind_Done in Hs as (i & k1 & Hk & Hs). apply on_mem_eq in Hk as (_ & m3 & Hl & ->).
  unfold write_proc, add_proc, push_ready in Hs. inv_done.
  unfold Inner.load_elf, Inner.vm in Hl. simpl in Hl.
  apply bind_Done in Hl as (v' & m4 & Hv & Hl). apply ret_Done in Hv as [<- <-].
  apply bind_Done in Hl as (v2 & m4 & Hv & Hl). apply ret_Done in Hl as [<- <-]. simpl.
  match goal with |- ∃ _ _ _, _ ∧ _ ∧ _ ∧ _ ∧ _ ∧ _ ∧ _ ∧ ?K = _ ∧ _ =>
    match K with context [mkProcess _ ?i] => exists i, m4, dt end end.
  split_and!; try done; [|by exists kl, kp, v0, pt, m1, v, m2, v2|by destruct selector].
  cbn [add_process set_processes set_ready set_procs set_data set_kmem set_next_pid kmem data NEXT_PID
    PROCESSORS procs processes ready_queue wait_queue app_list Process.pid].
  rewrite wrap_small; [by rewrite !insert_insert_eq|].
  destruct (wf_running _ Hwf) as (c & _ & Hc). destruct (wf_pids _ Hwf c Hc). lia.
Qed.

Lemma spawn_elf_wf elf nm par od (k : St) q k' :
  wf k → NEXT_PID k + 1 < 2 ^ 16 → spawn_elf PHYSICAL_OFFSET selector elf nm par od k = Done (q, k') → wf k'.
Proof.
  intros Hwf Hn Hs. destruct (spawn_elf_Done _ _ _ _ _ _ _ Hwf Hn Hs) as (i & m & dt & -> & Hst & Hi & _ & _ & _ & _ & -> & _).
  apply add_process_wf; try done.
  - by eapply (sched_eq_wf k).
  - simpl. apply not_elem_of_dom, is_fresh.
Qed.

Lemma spawn_wf nm (k : St) r k' :
  wf k → NEXT_PID k + 1 < 2 ^ 16 → spawn PHYSICAL_OFFSET cpuid selector nm k = Done (r, k') → wf k'.
Proof.
  intros Hwf Hn Hs. unfold spawn in Hs. apply bind_Done in Hs as (l & k1 & Hl & Hs).
  apply gets_Done in Hl as [_ <-]. destruct (l ≫= _) as [app|]; [|by inv_done].
  unfold elf_spawn in Hs. apply bind_Done in Hs as (loc & k1 & Hc & Hs). apply current_Done in Hc as (-> & _).
  apply bind_Done in Hs as (q & k1 & Hq & Hs). inv_done. by eapply spawn_elf_wf.
Qed.

End Scheduler.
