(* ===== verification/KernelExample.v ===== *)
(** A test by computation for the invariant of [Scheduler], and the small kernel
    on which the witnesses of the scheduling properties run. *)
From S2P Require Import Prelude Arch Pid Sync Frames Elf Stack Heap Vm Context Resource Data Process Manager Scheduler.
From stdpp Require Import strings.
#[local] Open Scope Z_scope.

Section Check.
Context `{Profile} `{X86_64} {PT Q : Type} `{Mapper PT} `{ArrayQueue Q} (cpuid : nat).
#[local] Abbreviation St := (Kernel PT Q).
#[local] Abbreviation wf := (wf cpuid).
#[local] Abbreviation running := (running cpuid).

Definition proc_ok (k : St) (q : Z) (loc : nat) : bool :=
  match procs k !! loc with
  | Some p => bool_decide (Process.pid p = q ∧ inner_wf (inner p) ∧ 1 ≤ q < NEXT_PID k ∧
      (status (inner p) = Ready → running k = Some q ∨ q ∈ ready_queue k) ∧
      (status (inner p) = Running → running k = Some q))
  | None => false
  end.

Definition wfb (k : St) : bool :=
  bool_decide (map_Forall (λ q loc, proc_ok k q loc = true) (processes k)) &&
  bool_decide (NEXT_PID k < 2 ^ 16) &&
  (match running k with Some q => bool_decide (is_Some (processes k !! q)) | None => false end) &&
  bool_decide (Forall (λ q, is_Some (processes k !! q)) (ready_queue k)).

Lemma wfb_wf (k : St) : wfb k = true → wf k.
Proof.
  unfold wfb. rewrite !andb_true_iff, !bool_decide_eq_true. intros [[[Ht Hn] Hr] Hq].
  assert (Hok : ∀ q loc, processes k !! q = Some loc → ∃ p, procs k !! loc = Some p ∧ Process.pid p = q ∧
    inner_wf (inner p) ∧ 1 ≤ q < NEXT_PID k ∧
    (status (inner p) = Ready → running k = Some q ∨ q ∈ ready_queue k) ∧
    (status (inner p) = Running → running k = Some q)).
  { intros q loc Hl. specialize (Ht q loc Hl). unfold proc_ok in Ht.
    destruct (procs k !! loc) as [p|]; [|done]. apply bool_decide_eq_true in Ht. eauto. }
  split.
  - intros q loc Hl. destruct (Hok q loc Hl) as (p & ? & ? & ? & _). eauto.
  - intros q [loc Hl]. by destruct (Hok q loc Hl) as (p & _ & _ & _ & ? & _).
  - done.
  - destruct (running k) as [q|]; [|done]. apply bool_decide_eq_true in Hr. eauto.
  - by rewrite Forall_forall in Hq.
  - intros q p (loc & Hl & Hp)%bind_Some. destruct (Hok q loc Hl) as (p' & ? & _ & _ & _ & ? & _). simplify_eq. auto.
  - intros q p (loc & Hl & Hp)%bind_Some. destruct (Hok q loc Hl) as (p' & ? & _ & _ & _ & _ & ?). simplify_eq. auto.
Qed.

End Check.

(** Process 1, the kernel, runs; 2 is ready; 3 is blocked on semaphore 7 and has
    an old entry in the queue; 4 waits for 2, but was killed meanwhile. *)
Definition regs_example (rax : Z) : ProcessContext := Context.set_rax rax Context.default.

Definition inner_example (st : ProgramStatus) (rax : Z) (root : nat) (stk : Stack) : ProcessInner :=
  mkInner "app" None [] 5 st (regs_example rax) None (Some (mkProcessData 0 0 0))
    (Some (mkVm root stk (mkHeap HEAP_START 0) [] 0)).
Definition dead_example : ProcessInner :=
  mkInner "dead" None [] 5 Dead (regs_example 40) (Some 1) None None.

Definition kernel_example : Kernel table queue :=
  mkKernel mem_forked
    (mkStore {[ 0%nat := ∅ ]} {[ 0%nat := ResourceSet.default ]}
       {[ 0%nat := {[ 7 := mkSemaphore 0 [3] ]} ]} (mkIo INPUT_BUF_init []))
    5 [1]
    {[ 10%nat := mkProcess 1 (inner_example Running 10 0 stack_example);
       11%nat := mkProcess 2 (inner_example Ready 20 0 forked_child);
       12%nat := mkProcess 3 (inner_example Blocked 30 0 stack_example);
       13%nat := mkProcess 4 dead_example ]}
    {[ 1 := 10%nat; 2 := 11%nat; 3 := 12%nat; 4 := 13%nat ]}
    [3; 2] {[ 2 := [4] ]} None.

Lemma kernel_example_wf : wf 0 kernel_example.
Proof. apply wfb_wf. vm_compute. reflexivity. Qed.
