(* ===== verification/ProcessList.v ===== *)
(** What the process list shows: read back, the pids of the processes that are
    alive. *)
From S2P Require Import Prelude Arch Pid Sync Frames Elf Stack Heap Vm Context Resource Data Process Manager Utils Text Listing Scheduler KernelExample.
From stdpp Require Import strings sorting.
#[local] Open Scope Z_scope.
Import Fmt.

(** ** Sizes *)

Definition human (n : Z) : option (f32 * string) :=
  let r := unit_loop 4 (u64_as_f32 n) 0 in pair r.1 <$> UNITS !! r.2.

Lemma humanized_size_human {S} n (s : S) :
  humanized_size n s = match human n with Some r => Done (r, s) | None => Panic end.
Proof.
  unfold humanized_size, humanized_size_impl, human. change (length UNITS) with 4%nat. cbv zeta.
  generalize (unit_loop 4 (u64_as_f32 n) 0). intros [x u]. unfold mbind, M_bind. cbn [snd fst].
  destruct (UNITS !! u); done.
Qed.

Definition printable (n : Z) : bool := n <? 2 ^ 40 - 2 ^ 15.

Lemma human_printable n : 0 ≤ n < 2 ^ 64 → is_Some (human n) ↔ printable n = true.
Proof.
  intros Hn. pose proof (humanized_size_spec n false () Hn) as H.
  change (humanized_size_impl n false ()) with (humanized_size n ()) in H.
  rewrite humanized_size_human in H. unfold printable. destruct (Z.ltb_spec n (2 ^ 40 - 2 ^ 15)).
  - destruct H as (u & unit & m & _ & H & _). destruct (human n); [by split|done].
  - destruct (human n); [done|]. split; [by intros []|done].
Qed.

Lemma human_unit n r : human n = Some r → r.2 ∈ UNITS.
Proof.
  unfold human. generalize (unit_loop 4 (u64_as_f32 n) 0). intros [x i] (u & Hu & ->)%fmap_Some.
  by eapply list_elem_of_lookup_2.
Qed.

(** ** Characters that only the fixed parts of a line contain *)

(** A literal does not contain a character. *)
Ltac literal := lazymatch goal with |- ?P => refine (bool_decide_unpack P _); vm_compute; exact I end.

Section Avoid.
(** Neither a digit, nor the point, the space or the letters of a unit. *)
Context (c : Z) (Hc : c = 10 ∨ c = 13 ∨ c = 124).

Lemma show_avoids n : c ∉ show 10 n.
Proof.
  assert (H : ∀ fuel s m, c ∉ s → c ∉ show_digits fuel 10 m s); [|apply H, not_elem_of_nil].
  induction fuel as [|fuel IH]; intros s m Hs; [done|]. simpl. pose proof (Z.mod_pos_bound m 10 ltac:(lia)).
  assert (c ∉ digit (m `mod` 10) :: s).
  { apply not_elem_of_cons. split; [|done]. unfold digit. rewrite (proj2 (Z.ltb_lt _ _)) by lia. lia. }
  destruct (m <? 10); [done|by apply IH].
Qed.
Lemma replicate_avoids n d : c ≠ d → c ∉ replicate n d.
Proof. intros Hd [-> _]%elem_of_replicate. done. Qed.
Lemma pad_left_avoids w s : c ∉ s → c ∉ pad_left w s.
Proof. intros Hs. apply not_elem_of_app. split; [apply replicate_avoids; lia|done]. Qed.
Lemma pad_right_avoids w s : c ∉ s → c ∉ pad_right w s.
Proof. intros Hs. apply not_elem_of_app. split; [done|apply replicate_avoids; lia]. Qed.
Lemma join_avoids sep l : c ∉ sep → Forall (λ s, c ∉ s) l → c ∉ join sep l.
Proof.
  intros Hs. induction 1 as [|s l Hs' Hl IH]; [apply not_elem_of_nil|]. simpl. destruct l; [done|].
  by rewrite !not_elem_of_app.
Qed.
Lemma show_fixed_avoids p x : c ∉ show_fixed p x.
Proof.
  unfold show_fixed. cbv zeta. rewrite !not_elem_of_app. split_and!; [apply show_avoids| |apply replicate_avoids; lia|apply show_avoids].
  apply not_elem_of_cons. split; [lia|apply not_elem_of_nil].
Qed.
Lemma show_float_avoids p x : c ∉ show_float p x.
Proof. destruct x; [apply show_fixed_avoids|..]; destruct Hc as [-> |[-> | ->]]; literal. Qed.
Lemma unit_avoids r : r ∈ UNITS → c ∉ chars r.
Proof.
  unfold UNITS. rewrite !elem_of_cons, elem_of_nil.
  intros [->|[->|[->|[->|[]]]]]; destruct Hc as [-> |[-> | ->]]; literal.
Qed.

End Avoid.

(** Decide what a line does not contain. *)
Ltac avoids :=
  rewrite ?not_elem_of_app; split_and?;
  repeat first
    [ assumption | apply show_avoids; lia | apply show_fixed_avoids; lia | apply show_float_avoids; lia
    | apply unit_avoids; [lia|assumption] | apply pad_left_avoids; [lia|] | apply pad_right_avoids; [lia|]
    | literal ].

Lemma usage_row_avoids c name used total p :
  c = 10 ∨ c = 13 ∨ c = 124 → c ∉ chars name → used.2 ∈ UNITS → total.2 ∈ UNITS → c ∉ usage_row name used total p.
Proof. intros Hc Hn Hu Ht. unfold usage_row. destruct Hc as [-> |[-> | ->]]; avoids. Qed.

Lemma show_queue_avoids c q : c = 10 ∨ c = 13 ∨ c = 124 → c ∉ show_queue q.
Proof.
  intros Hc. unfold show_queue. rewrite !not_elem_of_app.
  split_and!; [destruct Hc as [-> |[-> | ->]]; literal| |destruct Hc as [-> |[-> | ->]]; literal].
  apply join_avoids; [destruct Hc as [-> |[-> | ->]]; literal|].
  apply Forall_fmap, Forall_true. intros n. by apply show_avoids.
Qed.

Lemma cpus_avoids c cells : c = 10 ∨ c = 13 ∨ c = 124 → c ∉ cpus cells.
Proof.
  intros Hc. unfold cpus. rewrite not_elem_of_app. split; [destruct Hc as [-> |[-> | ->]]; literal|].
  apply join_avoids; [destruct Hc as [-> |[-> | ->]]; literal|]. apply Forall_forall. intros s Hs.
  apply list_elem_of_omap in Hs as ([i n] & _ & (pid & _ & ->)%fmap_Some).
  destruct Hc as [-> |[-> | ->]]; avoids.
Qed.

(** ** Lines *)

Lemma clean_line s : 10 ∉ s → 13 ∉ s → is_line s.
Proof. intros H10 H13. split; [done|]. intros Hl. by apply H13, last_Some_elem_of. Qed.

Lemma row_line pid ppid name ticks size unit st :
  10 ∉ chars name → unit ∈ UNITS → is_line (row pid ppid name ticks size unit st).
Proof.
  intros Hn Hu. split.
  - unfold row. avoids. destruct st; literal.
  - unfold row. rewrite !last_app. by destruct st.
Qed.

Lemma split_once_none sep s : sep ∉ s → split_once sep s = None.
Proof.
  induction s as [|c s IH]; intros Hs; simpl; [done|]. apply not_elem_of_cons in Hs as [Hc Hs].
  by rewrite (proj2 (Z.eqb_neq _ _)), IH by done.
Qed.

Lemma trim_start_blanks n s : trim_start (replicate n 32 ++ s) = trim_start s.
Proof. by induction n. Qed.

Lemma trim_padded n m s :
  s ≠ [] → (∀ c, head s = Some c → is_whitespace c = false) → (∀ c, last s = Some c → is_whitespace c = false) →
  trim (replicate n 32 ++ s ++ replicate m 32) = s.
Proof.
  intros Hs Hh Hl. unfold trim, trim_end. rewrite trim_start_blanks, (trim_start_id (s ++ _)) by (destruct s; [done|exact Hh]).
  rewrite reverse_app, reverse_replicate, trim_start_blanks, trim_start_id, reverse_involutive; [done|].
  intros c. rewrite head_reverse. apply Hl.
Qed.

(** The number in the first column of a line that has columns. *)
Definition pid_column (l : str) : option Z :=
  '(a, _) ← split_once 124 l; from_str 16 (trim (drop 1 (trim a))).

Lemma digit_not_blank c : is_digit c = true → is_whitespace c = false.
Proof. unfold is_digit, is_whitespace. intros H. repeat (apply orb_false_iff; split); try lia. Qed.

Lemma pid_column_row pid ppid name ticks size unit st :
  0 ≤ pid < 2 ^ 16 → pid_column (row pid ppid name ticks size unit st) = Some pid.
Proof.
  intros Hp. destruct (show_spec 10 pid ltac:(lia) ltac:(lia)) as [Hds Hne].
  assert (Hb : ∀ c, c ∈ show 10 pid → is_whitespace c = false).
  { intros c Hc. apply digit_not_blank. rewrite Forall_forall in Hds. by apply Hds. }
  assert (∃ rest, row pid ppid name ticks size unit st =
    (replicate 1 32 ++ (35 :: pad_left 3 (show 10 pid)) ++ replicate 1 32) ++ 124 :: rest) as [rest ->].
  { eexists. unfold row. rewrite <- !app_assoc. reflexivity. }
  unfold pid_column. rewrite split_once_app.
  - cbn [mbind option_bind].
    rewrite trim_padded; [|done|by intros c [= <-]|].
    + cbn [skipn]. rewrite drop_0.
      replace (pad_left 3 (show 10 pid))
        with (replicate (3 - length (show 10 pid)) 32 ++ show 10 pid ++ replicate 0 32)
        by (by unfold pad_left; rewrite app_nil_r).
      rewrite trim_padded; [by apply from_str_radix_show|done|..].
      * intros c (l & El)%head_Some. apply Hb. rewrite El. by left.
      * intros c Hc. by apply Hb, last_Some_elem_of.
    + intros c. rewrite last_cons. unfold pad_left. rewrite last_app.
      destruct (last (show 10 pid)) as [d|] eqn:E; [|by apply last_None in E].
      intros [= <-]. by apply Hb, last_Some_elem_of.
  - change (124 ∉ [32; 35] ++ pad_left 3 (show 10 pid) ++ [32]). avoids.
Qed.

(** ** What the list is made of *)

Definition unlines (ls : list str) : str := ls ≫= λ l, l ++ [10].

Section List.
Context `{Profile} `{X86_64} {PT Q : Type} `{Mapper PT} `{ArrayQueue Q} (cpuid : nat).
#[local] Abbreviation St := (Kernel PT Q).

(** The console is given a text, and nothing else changes. *)
Definition printed (text : str) (k : St) : St :=
  let d := data k in
  set_data (mkStore (envs d) (resources d) (semaphores d)
              (mkIo (INPUT_BUF (io d)) (Print (as_bytes text) :: output (io d)))) k.

(** The processes of some locations that are alive, and those of the table in the
    order of their pids. *)
Definition alive_at (k : St) (locs : list nat) : list Process :=
  filter (λ p, status (inner p) ≠ Dead) (omap (λ l, procs k !! l) locs).
Definition by_pids (k : St) : list (Z * nat) := merge_sort by_pid (map_to_list (processes k)).
Definition living (k : St) : list Process := alive_at k (snd <$> by_pids k).

(** Asking for it changes nothing. *)
Lemma process_usage_same p (k : St) n k' : process_usage p k = Done (n, k') → k' = k.
Proof.
  unfold process_usage. destruct (proc_vm (inner p)) as [v|]; [|by intros [_ <-]%ret_Done].
  intros (m & Hm & ->)%zoom_Done. enough (m = kmem k) as -> by (by destruct k). unfold Vm.memory_usage in Hm.
  apply bind_Done in Hm as (st & m1 & (t & [-> _]%word_op_Done & ->)%on_machine_Done & Hm).
  apply bind_Done in Hm as (h & m2 & (e & e' & t & He & Hh & ->)%on_heap_Done & Hm).
  unfold HeapOps.memory_usage in Hh.
  apply bind_Done in Hh as (x & y & [_ <-]%gets_Done & [[= -> ->] _]%word_op_Done).
  apply bind_Done in Hm as (z & m3 & [-> _]%word_op_Done & [-> _]%word_op_Done). simpl.
  rewrite insert_id by done. by destruct (kmem k).
Qed.

(** [U] is the memory each process is said to use. *)
Context (U : Process → Z).

Definition row_of (k : St) (p : Process) : option str :=
  (λ r, row (pid p) (from_option Process.pid 0 (parent (inner p) ≫= λ l, procs k !! l)) (name (inner p))
          (ticks_passed (inner p)) r.1 r.2 (status (inner p))) <$> human (U p).

Definition usage_of (name : string) (used total : Z) : option str :=
  u ← human used; t ← human total; Some (usage_row name u t (percent used total)).

(** Every line that is printed. *)
Definition list_lines (k : St) (heap_used user_heap_used used total : Z) : option (list str) :=
  rows ← mapM (row_of k) (living k);
  heap ← usage_of "Kernel" heap_used KERNEL_HEAP_SIZE;
  user ← usage_of "User" user_heap_used USER_HEAP_SIZE;
  memory ← usage_of "Memory" used total;
  Some (header :: rows ++ [heap; user; memory; chars "Queue  : " ++ show_queue (ready_queue k); cpus (PROCESSORS k)]).

Lemma process_rows_eq k locs :
  (∀ l, l ∈ locs → is_Some (procs k !! l)) →
  (∀ p, p ∈ alive_at k locs → process_usage p k = Done (U p, k)) →
  process_rows locs k =
    match mapM (row_of k) (alive_at k locs) with Some rows => Done (unlines rows, k) | None => Panic end.
Proof.
  induction locs as [|l locs IH]; intros Hl Hu; [done|].
  destruct (Hl l ltac:(by left)) as [p Hp].
  assert (Hr : read_proc l k = Done (p, k)) by (unfold read_proc, get, mbind, M_bind; by rewrite Hp).
  cbn [process_rows]. rewrite (bind_step _ _ _ _ _ Hr).
  assert (E : alive_at k (l :: locs) = if decide (status (inner p) = Dead) then alive_at k locs else p :: alive_at k locs).
  { unfold alive_at. cbn [omap list_omap]. rewrite Hp. rewrite filter_cons. by repeat case_decide. }
  rewrite E in *. case_decide.
  - apply IH; [|done]. intros l' Hl'. apply Hl. by right.
  - assert (Hf : process_fmt p k = match row_of k p with Some r => Done (r, k) | None => Panic end).
    { unfold process_fmt, row_of. unfold get, mbind at 1, M_bind at 1.
      rewrite (bind_step _ _ _ _ _ (Hu p ltac:(by left))). unfold mbind, M_bind.
      rewrite humanized_size_human. by destruct (human (U p)). }
    cbn [mapM]. unfold mbind at 1, M_bind at 1. rewrite Hf. destruct (row_of k p) as [r|]; [|done]. cbn [mbind option_bind].
    unfold mbind at 1, M_bind at 1. rewrite IH; [|intros l' Hl'; apply Hl; by right|intros q Hq; apply Hu; by right].
    destruct (mapM _ _) as [rows|]; [|done]. unfold unlines. cbn. by rewrite <- (assoc_L (++)).
Qed.

Lemma format_usage_eq {S} name used total (s : S) :
  format_usage name used total s =
    match usage_of name used total with Some l => Done (l ++ [10], s) | None => Panic end.
Proof.
  unfold format_usage, usage_of, mbind, M_bind. rewrite humanized_size_human. destruct (human used); [|done].
  rewrite humanized_size_human. cbn. by destruct (human total).
Qed.

Lemma print_process_list_eq (k : St) heap_used user_heap_used used total :
  (∀ q l, processes k !! q = Some l → is_Some (procs k !! l)) →
  (∀ p, p ∈ living k → process_usage p k = Done (U p, k)) →
  word_op 64 (FrameAlloc.frames_used (falloc (machine (kmem k))) * PAGE_SIZE) k = Done (used, k) →
  word_op 64 (FrameAlloc.frames_total (falloc (machine (kmem k))) * PAGE_SIZE) k = Done (total, k) →
  print_process_list heap_used user_heap_used k =
    match list_lines k heap_used user_heap_used used total with
    | Some ls => Done ((), printed (unlines ls) k)
    | None => Panic
    end.
Proof.
  intros Hl Hp Hu Ht. unfold print_process_list, list_lines, get, gets.
  unfold mbind at 1, M_bind at 1. unfold mbind at 1, M_bind at 1. rewrite process_rows_eq; [| |exact Hp].
  2:{ intros l ([q l'] & -> & Hin)%list_elem_of_fmap. rewrite merge_sort_Permutation in Hin.
      apply elem_of_map_to_list in Hin. by eapply Hl. }
  change (alive_at k _) with (living k). destruct (mapM _ _) as [rows|]; [|done].
  unfold mbind at 1, M_bind at 1. rewrite format_usage_eq. cbn [mbind option_bind].
  destruct (usage_of "Kernel" _ _) as [heap|]; [|done].
  unfold mbind at 1, M_bind at 1. rewrite format_usage_eq. cbn [mbind option_bind].
  destruct (usage_of "User" _ _) as [user|]; [|done].
  unfold mbind at 1, M_bind at 1. rewrite (bind_step _ _ _ _ _ Hu), (bind_step _ _ _ _ _ Ht).
  unfold mbind at 1, M_bind at 1. rewrite format_usage_eq. cbn [mbind option_bind].
  destruct (usage_of "Memory" _ _) as [memory|]; [|done].
  unfold mbind at 1, M_bind at 1.
  match goal with |- print ?x k = _ => assert (x = unlines (header :: rows ++
    [heap; user; memory; chars "Queue  : " ++ show_queue (ready_queue k); cpus (PROCESSORS k)])) as -> end.
  { unfold unlines. rewrite bind_cons, bind_app. cbn [mbind list_bind].
    unfold print_processors. by rewrite <- !(assoc_L (++)), app_nil_r. }
  done.
Qed.

(** ** Reading it back *)

Lemma alive_pids k (t : list (Z * nat)) :
  StronglySorted by_pid t → NoDup (fst <$> t) →
  (∀ q l, (q, l) ∈ t → ∃ p, procs k !! l = Some p ∧ Process.pid p = q) →
  StronglySorted Z.lt (Process.pid <$> alive_at k (snd <$> t)) ∧
  ∀ q, q ∈ Process.pid <$> alive_at k (snd <$> t) ↔
    ∃ l p, (q, l) ∈ t ∧ procs k !! l = Some p ∧ status (inner p) ≠ Dead.
Proof.
  intros Hs Hn Ht.
  assert (Hin : ∀ t, (∀ q l, (q, l) ∈ t → ∃ p, procs k !! l = Some p ∧ Process.pid p = q) →
    ∀ q, q ∈ Process.pid <$> alive_at k (snd <$> t) ↔
      ∃ l p, (q, l) ∈ t ∧ procs k !! l = Some p ∧ status (inner p) ≠ Dead).
  { clear. intros t Ht q. rewrite list_elem_of_fmap. unfold alive_at. split.
    - intros (p & -> & [Hd (l & ([q' l'] & -> & Hin)%list_elem_of_fmap & Hp)%list_elem_of_omap]%list_elem_of_filter).
      simpl in Hp. destruct (Ht q' l' Hin) as (p' & Hp' & <-). assert (p' = p) as -> by congruence. eauto.
    - intros (l & p & Hin & Hp & Hd). destruct (Ht q l Hin) as (p' & Hp' & <-). assert (p' = p) as -> by congruence.
      exists p. split; [done|]. apply list_elem_of_filter. split; [done|].
      apply list_elem_of_omap. exists l. split; [|done]. apply list_elem_of_fmap. by exists (Process.pid p, l). }
  split; [|by apply Hin].
  induction Hs as [|[q l] t Hs IH Hq]; [constructor|].
  apply NoDup_cons in Hn as [Hnq Hn]. specialize (IH Hn ltac:(intros; apply Ht; by right)).
  destruct (Ht q l ltac:(by left)) as (p & Hp & Hpid). unfold alive_at in *. rewrite fmap_cons. cbn [omap list_omap snd].
  rewrite Hp, filter_cons. case_decide; [|done]. rewrite fmap_cons, Hpid. constructor; [done|].
  apply Forall_forall. intros q' Hq'.
  apply (Hin t ltac:(intros; apply Ht; by right)) in Hq' as (l' & _ & Hin' & _).
  rewrite Forall_forall in Hq. pose proof (Hq _ Hin') as Hle. unfold by_pid in Hle. simpl in Hle.
  assert (q' ≠ q); [|lia]. intros ->. apply Hnq. apply list_elem_of_fmap. by exists (q, l').
Qed.

#[local] Instance by_pid_trans : Transitive by_pid.
Proof. intros x y z. unfold by_pid. lia. Qed.
#[local] Instance by_pid_total : Total by_pid.
Proof. intros x y. unfold by_pid. lia. Qed.

Lemma living_spec k :
  wf cpuid k →
  StronglySorted Z.lt (Process.pid <$> living k) ∧
  (∀ q, q ∈ Process.pid <$> living k ↔ ∃ p, lookup_proc k q = Some p ∧ status (inner p) ≠ Dead) ∧
  ∀ p, p ∈ living k → lookup_proc k (Process.pid p) = Some p ∧ status (inner p) ≠ Dead.
Proof.
  intros Hwf.
  assert (Hin : ∀ q l, (q, l) ∈ by_pids k ↔ processes k !! q = Some l).
  { intros q l. unfold by_pids. by rewrite merge_sort_Permutation, elem_of_map_to_list. }
  destruct (alive_pids k (by_pids k)) as [Hs Hq].
  - apply StronglySorted_merge_sort; apply _.
  - unfold by_pids. rewrite merge_sort_Permutation. apply NoDup_fst_map_to_list.
  - intros q l Hl%Hin. destruct (wf_table _ _ Hwf q l Hl) as (p & ? & ? & _). eauto.
  - split_and!; [done| |].
    + intros q. rewrite (Hq q). setoid_rewrite Hin. unfold lookup_proc. split.
      * intros (l & p & -> & Hp & Hd). eauto.
      * intros (p & (l & ? & ?)%bind_Some & ?). eauto.
    + intros p Hp. unfold living, alive_at in Hp. apply list_elem_of_filter in Hp as [Hd Hp].
      split; [|done]. apply list_elem_of_omap in Hp as (l & ([q l'] & -> & Hl%Hin)%list_elem_of_fmap & Hp).
      simpl in Hp. destruct (wf_table _ _ Hwf q l' Hl) as (p' & Hp' & <- & _). assert (p' = p) as -> by congruence.
      unfold lookup_proc. by rewrite Hl.
Qed.

(** Everything whose size is printed. *)
Definition sizes (k : St) (heap_used user_heap_used used total : Z) : list Z :=
  (U <$> living k) ++ [heap_used; user_heap_used; used; total].

Lemma list_lines_printable k hu uu used total :
  Forall (λ n, 0 ≤ n < 2 ^ 64) (sizes k hu uu used total) →
  is_Some (list_lines k hu uu used total) ↔ forallb printable (sizes k hu uu used total) = true.
Proof.
  intros Hr. unfold sizes in *. apply Forall_app in Hr as [HU Hr].
  repeat (apply Forall_cons in Hr as [? Hr]).
  assert (Hrows : is_Some (mapM (row_of k) (living k)) ↔ forallb printable (U <$> living k) = true).
  { rewrite mapM_is_Some. clear Hr. induction (living k) as [|p ps IH]; [by split|].
    rewrite fmap_cons in *. apply Forall_cons in HU as [Hp HU]. rewrite Forall_cons, (IH HU). simpl.
    rewrite andb_true_iff, <- (human_printable _ Hp). unfold row_of. by rewrite fmap_is_Some. }
  rewrite forallb_app, andb_true_iff, <- Hrows. cbn [forallb].
  rewrite !andb_true_iff, <- !human_printable by done. unfold list_lines, usage_of. split.
  - intros [ls Hls]. apply bind_Some in Hls as (rows & -> & Hls).
    apply bind_Some in Hls as (heap & (x & Hx & _)%bind_Some & Hls).
    apply bind_Some in Hls as (user & (y & Hy & _)%bind_Some & Hls).
    apply bind_Some in Hls as (memory & (z & Hz & (w & Hw & _)%bind_Some)%bind_Some & _).
    rewrite Hx, Hy, Hz, Hw. by split_and!.
  - intros ([rows ->] & [x ->] & [y ->] & [z ->] & [w ->] & _).
    destruct (human KERNEL_HEAP_SIZE) eqn:Ek; [|done]. destruct (human USER_HEAP_SIZE) eqn:Eu; [|done].
    by eexists.
Qed.

Lemma list_lines_pids k ls hu uu used total :
  (∀ p, p ∈ living k → 0 ≤ Process.pid p < 2 ^ 16 ∧ 10 ∉ chars (name (inner p))) →
  list_lines k hu uu used total = Some ls →
  omap pid_column (lines (unlines ls)) = Process.pid <$> living k.
Proof.
  intros Hn Hls. unfold list_lines in Hls.
  apply bind_Some in Hls as (rows & Hrows & Hls). apply bind_Some in Hls as (heap & Hheap & Hls).
  apply bind_Some in Hls as (user & Huser & Hls). apply bind_Some in Hls as (memory & Hmemory & Hls).
  apply (inj Some) in Hls as <-.
  assert (Husage : ∀ n a b l c, usage_of n a b = Some l → c = 10 ∨ c = 13 ∨ c = 124 → c ∉ chars n → c ∉ l).
  { intros n a b l c. unfold usage_of. intros (x & Hx & (y & Hy & [= <-])%bind_Some)%bind_Some Hc Hcn.
    apply usage_row_avoids; [done|done|by eapply human_unit..]. }
  apply mapM_Some in Hrows. rewrite lines_unlines.
  - assert (Hskip : ∀ l ls, 124 ∉ l → omap pid_column (l :: ls) = omap pid_column ls).
    { intros l ls Hl. cbn [omap list_omap]. unfold pid_column at 1. by rewrite split_once_none. }
    assert (Hh : ∀ ls, omap pid_column (header :: ls) = omap pid_column ls) by done.
    rewrite Hh, omap_app, !Hskip.
    + change (omap pid_column []) with (@nil Z). rewrite app_nil_r. clear -Hrows Hn. induction Hrows as [|p r ps rows Hr _ IH]; [done|].
      unfold row_of in Hr. apply fmap_Some in Hr as (x & _ & ->). cbn [omap list_omap].
      destruct (Hn p ltac:(by left)) as [Hp _]. rewrite pid_column_row by done. rewrite fmap_cons. f_equal.
      apply IH. intros q Hq. apply Hn. by right.
    + apply cpus_avoids. lia.
    + apply not_elem_of_app. split; [literal|]. apply show_queue_avoids. lia.
    + eapply Husage; [exact Hmemory|lia|literal].
    + eapply Husage; [exact Huser|lia|literal].
    + eapply Husage; [exact Hheap|lia|literal].
  - constructor; [apply clean_line; literal|]. apply Forall_app. split.
    + apply Forall_forall. intros r (i & Hi)%list_elem_of_lookup.
      destruct (Forall2_lookup_r _ _ _ _ _ Hrows Hi) as (p & Hp%list_elem_of_lookup_2 & Hrow). unfold row_of in Hrow.
      apply fmap_Some in Hrow as (x & Hx & ->). apply row_line; [by apply Hn|by eapply human_unit].
    + repeat constructor; apply clean_line.
      all: try (by eapply Husage; [eassumption|lia|literal]).
      all: first [apply cpus_avoids; lia|apply not_elem_of_app; split; [literal|apply show_queue_avoids; lia]].
Qed.

(** [print_process_list].  In a well-formed state, whatever memory each
    process is said to use: when everything to be printed is smaller than 2^40 -
    2^15 bytes the list is given to the console and nothing else changes; read
    back, line by line, the first column shows exactly the pids of the processes
    that are not dead, in ascending order.  When anything is larger, the count of
    the frames in use among it, the kernel panics. *)
Theorem print_process_list_pids (k : St) heap_used user_heap_used used total :
  wf cpuid k →
  (∀ q p, lookup_proc k q = Some p → status (inner p) ≠ Dead →
    process_usage p k = Done (U p, k) ∧ 0 ≤ U p < 2 ^ 64 ∧ 10 ∉ chars (name (inner p))) →
  0 ≤ heap_used < 2 ^ 64 → 0 ≤ user_heap_used < 2 ^ 64 →
  word_op 64 (FrameAlloc.frames_used (falloc (machine (kmem k))) * PAGE_SIZE) k = Done (used, k) →
  word_op 64 (FrameAlloc.frames_total (falloc (machine (kmem k))) * PAGE_SIZE) k = Done (total, k) →
  if forallb printable (sizes k heap_used user_heap_used used total) then
    ∃ text pids, print_process_list heap_used user_heap_used k = Done ((), printed text k) ∧
      omap pid_column (lines text) = pids ∧ StronglySorted Z.lt pids ∧
      ∀ q, q ∈ pids ↔ ∃ p, lookup_proc k q = Some p ∧ status (inner p) ≠ Dead
  else print_process_list heap_used user_heap_used k = Panic.
Proof.
  intros Hwf HU Hh Hu Hused Htotal. destruct (living_spec k Hwf) as (Hs & Hin & Hl).
  assert (Hword : ∀ x n, word_op 64 x k = Done (n, k) → 0 ≤ n < 2 ^ 64).
  { intros x n [_ [[? ->]|(_ & _ & ->)]]%word_op_Done; [done|]. apply Z.mod_pos_bound. lia. }
  assert (Hr : Forall (λ n, 0 ≤ n < 2 ^ 64) (sizes k heap_used user_heap_used used total)).
  { unfold sizes. apply Forall_app. split; [|by repeat (constructor; eauto)].
    apply Forall_fmap, Forall_forall. intros p [Hp Hd]%Hl. by destruct (HU _ p Hp Hd) as (_ & ? & _). }
  rewrite (print_process_list_eq k _ _ used total); [| |intros p [Hp Hd]%Hl; by apply (HU _ p Hp Hd)|done|done].
  2:{ intros q l Hq. destruct (wf_table _ _ Hwf q l Hq) as (p & -> & _). done. }
  pose proof (list_lines_printable k _ _ _ _ Hr) as Hp.
  destruct (list_lines _ _ _ _ _) as [ls|] eqn:E.
  - rewrite (proj1 Hp) by done. eexists _, _. split; [done|]. split; [|by split].
    apply (list_lines_pids k ls heap_used user_heap_used used total); [|done]. intros p Hpl.
    destruct (Hl p Hpl) as [Hlp Hd]. split; [|by destruct (HU _ p Hlp Hd) as (_ & _ & ?)].
    pose proof (wf_next _ _ Hwf). destruct (wf_pids _ _ Hwf (Process.pid p)); [|lia].
    apply bind_Some in Hlp as (l & -> & _). done.
  - destruct (forallb _ _); [|done]. destruct (proj2 Hp eq_refl). done.
Qed.

End List.

(** ** The list of [kernel_example] *)

#[local] Existing Instance release.
#[local] Existing Instance x86_ref.

Definition usage_example (p : Process) : Z := default 0 (value_of (process_usage p kernel_example)).

Definition text_example : str :=
  unlines (chars <$>
    ["  PID | PPID | Process Name |  Ticks  |   Memory  | Status";
     " #  1 | #  0 | app          |       5 |   4.0 KiB | Running";
     " #  2 | #  0 | app          |       5 |   4.0 KiB | Ready";
     " #  3 | #  0 | app          |       5 |   4.0 KiB | Blocked";
     "Kernel :   4.36 MiB /   8.00 MiB (54.45%)";
     "User   :  12.06 KiB /   1.00 MiB ( 1.18%)";
     "Memory :  20.00 KiB /  40.00 KiB (50.00%)";
     "Queue  : [3, 2]";
     "CPUs   : [0: 1]"]%string).

Example list_example : print_process_list 4567890 12345 kernel_example = Done ((), printed text_example kernel_example).
Proof. vm_compute. reflexivity. Qed.

(** The counter of the frames has gone below zero. *)
Definition kernel_drifted : Kernel table queue :=
  let m := kmem kernel_example in
  let a := falloc (machine m) in
  set_kmem (mkMem (mkMachine (tables (machine m)) (mkAllocator (Frames.size a) (2 ^ 64 - 1) (frames a) (recycle a))
              (mem (machine m))) (arcs m) (ends m) (cr3 m)) kernel_example.

Lemma example_usages (k : Kernel table queue) q p :
  procs k = procs kernel_example →
  forallb (λ p, bool_decide (status (inner p) = Dead) ||
    (bool_decide (value_of (process_usage p k) = Some (usage_example p)) && in_word 64 (usage_example p) &&
     bool_decide (10 ∉ chars (name (inner p))))) (snd <$> map_to_list (procs kernel_example)) = true →
  lookup_proc k q = Some p → status (inner p) ≠ Dead →
  process_usage p k = Done (usage_example p, k) ∧ 0 ≤ usage_example p < 2 ^ 64 ∧ 10 ∉ chars (name (inner p)).
Proof.
  intros Hk Hf (l & _ & Hp)%bind_Some Hd. rewrite Hk in Hp. apply elem_of_map_to_list in Hp.
  apply (list_elem_of_fmap_2 snd) in Hp. simpl in Hp. rewrite forallb_forall in Hf.
  specialize (Hf p ltac:(by apply list_elem_of_In)). apply orb_true_iff in Hf as [Hf%bool_decide_eq_true|Hf]; [done|].
  rewrite !andb_true_iff, !bool_decide_eq_true in Hf. destruct Hf as [[Hu Hw] Hn]. split; [|unfold in_word in Hw; split; [lia|done]].
  apply (value_state _ _ k) in Hu. pose proof (process_usage_same _ _ _ _ Hu) as Hs. by rewrite Hs in Hu.
Qed.

Lemma kernel_drifted_wf : wf 0 kernel_drifted.
Proof. apply wfb_wf. vm_compute. reflexivity. Qed.

Lemma print_process_list_pids_witness :
  (∃ text pids, print_process_list 4567890 12345 kernel_example = Done ((), printed text kernel_example) ∧
    omap pid_column (lines text) = pids ∧ StronglySorted Z.lt pids ∧
    ∀ q, q ∈ pids ↔ ∃ p, lookup_proc kernel_example q = Some p ∧ status (inner p) ≠ Dead) ∧
  print_process_list 4567890 12345 kernel_drifted = Panic.
Proof.
  split.
  - apply (print_process_list_pids 0 usage_example kernel_example 4567890 12345 20480 40960);
      [exact kernel_example_wf| |lia|lia|reflexivity..].
    intros q p. apply example_usages; [reflexivity|vm_compute; reflexivity].
  - apply (print_process_list_pids 0 usage_example kernel_drifted 4567890 12345 (2 ^ 64 - 4096) 40960);
      [exact kernel_drifted_wf| |lia|lia|reflexivity..].
    intros q p. apply example_usages; [reflexivity|vm_compute; reflexivity].
Defined.
