(* ===== verification/RoundRobin.v ===== *)
(** Round-robin scheduling: what the timer interrupt does, that no ready process
    waits for ever, that preemption is invisible, and what becomes of a process
    that is woken after it was killed. *)
From S2P Require Import Prelude Arch Pid Sync Frames Elf Stack Heap Vm Context Resource Data Process Manager Scheduler KernelExample.
From stdpp Require Import strings.
#[local] Open Scope Z_scope.

Section RoundRobin.
Context `{Profile} `{X86_64} {PT Q : Type} `{Mapper PT} `{ArrayQueue Q} (cpuid : nat).
#[local] Abbreviation St := (Kernel PT Q).
#[local] Abbreviation wf := (wf cpuid).
#[local] Abbreviation running := (running cpuid).

Lemma wf_set_ready_push (k : St) q loc p ctx :
  wf k → running k = Some q → processes k !! q = Some loc → procs k !! loc = Some p →
  let k1 := set_inner loc (preempted ctx (inner p)) k in
  wf (set_ready (ready_queue k ++ [q]) k1) ∧ running k1 = Some q ∧
  ready_queue k1 = ready_queue k ∧ processes k1 = processes k ∧ kmem k1 = kmem k ∧
  procs k1 = <[loc := mkProcess q (preempted ctx (inner p))]> (procs k).
Proof.
  intros Hwf Hr Hq Hp. cbv zeta.
  destruct (wf_table _ _ Hwf q loc Hq) as (p' & Hp' & Hpid & Hi). simplify_eq.
  assert (Hwf1 : wf (set_inner loc (preempted ctx (inner p)) k)).
  { eapply wf_set_inner; [done|exact Hq|exact Hp| |by left|done]. by destruct Hi as (? & ? & ?); split_and!. }
  assert (Hk : set_inner loc (preempted ctx (inner p)) k =
    set_procs (<[loc := mkProcess (Process.pid p) (preempted ctx (inner p))]> (procs k)) k)
    by (unfold set_inner; by rewrite Hp).
  split_and!; try (rewrite Hk; done).
  pose proof (wf_push cpuid _ (Process.pid p) Hwf1) as Hpush. rewrite Hk in *. apply Hpush. simpl. by rewrite Hq.
Qed.

(** A timer interrupt: the running process is saved at the back of the queue and
    the first ready one of the queue runs. *)
Record switch_effect (ctx : ProcessContext) (k : St) (ctx' : ProcessContext) (k' : St)
    (cur next : Z) (dropped rest : list Z) : Prop := {
  sw_cur : running k = Some cur;
  sw_queue : ready_queue k ++ [cur] = dropped ++ next :: rest;
  sw_dropped q : q ∈ dropped → q ≠ cur ∧ is_ready k q = false;
  sw_next : next = cur ∨ is_ready k next = true;
  sw_running : running k' = Some next;
  sw_rest : ready_queue k' = rest;
  sw_arcs : arcs (kmem k') = arcs (kmem k);
  sw_machine : machine (kmem k') = machine (kmem k) ∧ ends (kmem k') = ends (kmem k);
  sw_waits : Process.wait_queue k' = Process.wait_queue k;
  sw_data : data k' = data k;
  sw_other q : q ≠ cur → q ≠ next → lookup_proc k' q = lookup_proc k q;
  sw_saved p : lookup_proc k cur = Some p →
    lookup_proc k' cur = Some (mkProcess cur (preempted ctx (inner p)));
  sw_loaded : if decide (next = cur) then ctx' = ctx
    else ∃ p v, lookup_proc k next = Some p ∧ proc_vm (inner p) = Some v ∧
      ctx' = context (inner p) ∧
      lookup_proc k' next = Some (mkProcess next (Inner.set_status Running (inner p)));
}.

Lemma ready_saved (k : St) cur loc p ctx q :
  wf k → processes k !! cur = Some loc → procs k !! loc = Some p →
  is_ready (set_inner loc (preempted ctx (inner p)) k) q =
    if decide (q = cur) then true else is_ready k q.
Proof.
  intros Hwf Hq Hp. unfold is_ready. rewrite (lookup_set_inner cpuid k loc _ cur q p) by done.
  by destruct (decide (q = cur)).
Qed.

Lemma mkContext_eta c : mkContext (value c) = c.
Proof. by destruct c. Qed.

Lemma switch_Done ctx (k : St) ctx' k' :
  wf k → switch cpuid ctx k = Done (ctx', k') →
  ∃ cur next dropped rest, switch_effect ctx k ctx' k' cur next dropped rest.
Proof.
  intros Hwf Hs. unfold switch in Hs. apply bind_Done in Hs as (cur & k1 & Hsv & Hs).
  apply save_current_Done in Hsv as (loc & p & Hr & Hq & Hp & ->); [|done].
  destruct (wf_set_ready_push k cur loc p ctx Hwf Hr Hq Hp) as (Hwf1 & Hr1 & Hq1 & Hps1 & Hm1 & Hpr1).
  apply bind_Done in Hs as (u & k2 & Hpu & Hs). unfold push_ready in Hpu. apply modify_Done in Hpu as <-.
  rewrite Hq1 in Hs. apply bind_Done in Hs as (r & k2 & Hn & Hs). apply ret_Done in Hs as [<- <-].
  apply switch_next_Done in Hn as (c & Hc & Hn); [|done]. change (running (set_inner loc (preempted ctx (inner p)) k) = Some c) in Hc.
  rewrite Hr1 in Hc. injection Hc as <-. rewrite first_ready_set_ready in Hn. simpl in Hn.
  set (k1 := set_inner loc (preempted ctx (inner p)) k) in *.
  assert (Hrd : ∀ q, is_ready k1 q = if decide (q = cur) then true else is_ready k q)
    by (intros; by apply ready_saved).
  assert (Hlk : ∀ q, lookup_proc k1 q = if decide (q = cur) then Some (mkProcess cur (preempted ctx (inner p))) else lookup_proc k q)
    by (intros; by apply lookup_set_inner with (cpuid := cpuid) (p := p)).
  assert (Hsaved : ∀ p0, lookup_proc k cur = Some p0 → p0 = p).
  { intros p0 Hp0. rewrite (lookup_proc_Some _ _ _ _ Hq Hp) in Hp0. congruence. }
  destruct (first_ready k1 (ready_queue k ++ [cur])) as [[next rest]|] eqn:E; cycle 1.
  { apply first_ready_None in E. rewrite Forall_forall in E. specialize (E cur ltac:(set_solver)).
    simpl in E. by rewrite Hrd, decide_True in E. }
  apply first_ready_Some in E as (Hir & dropped & Hqueue & Hd). rewrite Forall_forall in Hd.
  exists cur, next, dropped, rest. rewrite Hrd in Hir.
  assert (Hdr : ∀ q, q ∈ dropped → q ≠ cur ∧ is_ready k q = false).
  { intros q Hin. specialize (Hd q Hin). simpl in Hd. rewrite Hrd in Hd. by destruct (decide (q = cur)). }
  assert (Hwd : Process.wait_queue k1 = Process.wait_queue k ∧ data k1 = data k)
    by (unfold k1, set_inner; by rewrite Hp).
  destruct Hwd as [Hw1 Hd1]. destruct (decide (next = cur)) as [->|Hne].
  - destruct Hn as [-> ->]. split; simpl; try done; [by left|by rewrite Hm1|by rewrite Hm1| | |by rewrite decide_True].
    + intros q Hqc _. change (lookup_proc k1 q = lookup_proc k q). by rewrite Hlk, decide_False.
    + intros p0 ->%Hsaved. change (lookup_proc k1 cur = Some (mkProcess cur (preempted ctx (inner p)))).
      by rewrite Hlk, decide_True.
  - destruct Hn as (l & p2 & v & reg & n & Hl & Hp2 & Hpid & Hv & Ha & -> & ->).
    change (processes k1 !! next = Some l) in Hl. change (procs k1 !! l = Some p2) in Hp2.
    assert (Hln : lookup_proc k next = Some p2).
    { pose proof (lookup_proc_Some _ _ _ _ Hl Hp2) as Hx. by rewrite Hlk, decide_False in Hx. }
    set (k2 := set_ready (ready_queue k ++ [cur]) k1) in *.
    assert (Hls : ∀ q, lookup_proc (started cpuid k2 next l p2 v reg rest) q =
      if decide (q = next) then Some (mkProcess next (Inner.set_status Running (inner p2))) else lookup_proc k1 q).
    { intros q. by rewrite lookup_started. }
    split; simpl; try done; [by right| | | | | |].
    + by apply running_started.
    + by rewrite Hm1.
    + by rewrite Hm1.
    + intros q Hqc Hqn. by rewrite Hls, decide_False, Hlk, decide_False by done.
    + intros p0 ->%Hsaved. by rewrite Hls, decide_False, Hlk, decide_True by done.
    + rewrite decide_False by done. exists p2, v. rewrite Hls, decide_True by done.
      by rewrite mkContext_eta.
Qed.

(** ** The timer always finds somebody to run *)

(** A ready process can be started: its memory is there, and its page table. *)
Definition resumable (k : St) (q : Z) : Prop :=
  ∀ p, lookup_proc k q = Some p → status (inner p) = Ready →
    ∃ v reg n, proc_vm (inner p) = Some v ∧ arcs (kmem k) !! page_table v = Some (reg, n).

Lemma restore_returns p ctx (k : St) v reg n :
  proc_vm (inner p) = Some v → arcs (kmem k) !! page_table v = Some (reg, n) →
  ∃ r m, Inner.restore (inner p) ctx (kmem k) = Done (r, m).
Proof.
  intros Hv Ha. unfold Inner.restore, Inner.vm, PageTableContext.load, Arc_deref, mbind, M_bind, get, unwrap.
  rewrite Hv. simpl. rewrite Ha. simpl. eauto.
Qed.

Lemma set_pid_returns q (k : St) : is_Some (running k) → ∃ k', set_pid cpuid q k = Done ((), k').
Proof.
  intros [c Hc]. apply running_lookup in Hc as [Hc _]. unfold set_pid, on_cpus, zoom.
  rewrite Processor.set_pid_eq by (by eapply lookup_lt_Some). eauto.
Qed.

Lemma switch_loop_returns fuel q ctx (k : St) :
  wf k → (length (ready_queue k) < fuel)%nat → (∀ x, x ∈ ready_queue k → x ≠ q → resumable k x) →
  ∃ r, switch_loop cpuid fuel q ctx k = Done r.
Proof.
  revert k. induction fuel as [|fuel IH]; intros k Hwf Hf Hres; [lia|]. simpl.
  destruct (ready_queue k) as [|next rest] eqn:Eq.
  { unfold pop_ready, mbind, M_bind. rewrite Eq. eauto. }
  unfold pop_ready. rewrite (bind_step _ _ k (Some next) (set_ready rest k)) by (by rewrite Eq).
  assert (Hin : next ∈ ready_queue k) by (rewrite Eq; by left).
  destruct (wf_queue _ _ Hwf next Hin) as [loc Hloc].
  destruct (wf_table _ _ Hwf next loc Hloc) as (p & Hp & Hpid & Hi).
  pose proof (lookup_proc_Some _ _ _ _ Hloc Hp) as Hl.
  rewrite (bind_step _ _ _ _ _ eq_refl). simpl. rewrite Hloc. simpl.
  rewrite (bind_step _ _ _ _ _ eq_refl).
  rewrite (bind_step _ _ _ p (set_ready rest k)) by (unfold read_proc, mbind, M_bind, get, unwrap; simpl; by rewrite Hp).
  destruct (Inner.is_ready (inner p)) eqn:Er; simpl.
  - destruct (q =? next) eqn:Eqn; simpl; [eexists; reflexivity|]. apply Z.eqb_neq in Eqn.
    apply bool_decide_eq_true in Er. destruct (Hres next ltac:(by left) (not_eq_sym Eqn) p Hl Er) as (v & reg & n & Hv & Ha).
    destruct (restore_returns p ctx k v reg n Hv Ha) as (r & m & Hr).
    rewrite (bind_step _ _ _ r (set_kmem m (set_ready rest k))) by (unfold on_mem, zoom; simpl; by rewrite Hr).
    rewrite (bind_step _ _ _ _ _ eq_refl).
    match goal with |- ∃ _, mbind _ (set_pid _ _) ?s = _ =>
      destruct (set_pid_returns next s) as [k' Hk'] end.
    { destruct (wf_running _ _ Hwf) as (c & Hc & _). by exists c. }
    rewrite (bind_step _ _ _ _ _ Hk'). eexists. reflexivity.
  - apply IH; [|simpl in *; lia|intros x Hx; apply Hres; by right].
    apply wf_drop; [done|rewrite Eq; set_solver|]. intros x Hx Hrx. rewrite Eq in Hx.
    apply elem_of_cons in Hx as [->|Hx]; [|by right]. unfold is_ready in Hrx. rewrite Hl in Hrx.
    unfold Inner.is_ready in Er. congruence.
Qed.

Lemma save_current_returns ctx (k : St) cur loc p :
  wf k → running k = Some cur → processes k !! cur = Some loc → procs k !! loc = Some p →
  (debug_assertions = true → 0 ≤ ticks_passed (inner p) + 1 < 2 ^ 64) →
  save_current cpuid ctx k = Done (cur, set_inner loc (preempted ctx (inner p)) k).
Proof.
  intros Hwf Hr Hq Hp Ht. unfold save_current, current, get_proc.
  rewrite (bind_step _ _ k loc k); cycle 1.
  { rewrite (bind_step _ _ _ _ _ (current_pid_running _ _ _ Hr)).
    rewrite (bind_step _ _ _ _ _ eq_refl), Hq. done. }
  rewrite (bind_step _ _ k p k) by (unfold read_proc, mbind, M_bind, get, unwrap; by rewrite Hp).
  destruct (wf_table _ _ Hwf cur loc Hq) as (p' & Hp' & Hpid & _). simplify_eq.
  assert (Htick : on_mem (Inner.tick (inner p)) k =
    Done (mkInner (name (inner p)) (parent (inner p)) (children (inner p))
      (wrap 64 (ticks_passed (inner p) + 1)) (status (inner p)) (context (inner p))
      (exit_code (inner p)) (proc_data (inner p)) (proc_vm (inner p)), k)).
  { unfold on_mem, zoom, Inner.tick, mbind, M_bind, word_op.
    destruct (in_word 64 (ticks_passed (inner p) + 1)) eqn:Ew; simpl.
    - unfold in_word in Ew. apply andb_true_iff in Ew. rewrite wrap_small by lia. by destruct k.
    - destruct debug_assertions; simpl; [|by destruct k]. rewrite in_word_true in Ew by auto. done. }
  rewrite (bind_step _ _ _ _ _ Htick).
  rewrite (bind_step _ _ _ _ _ eq_refl). unfold set_inner. rewrite Hp. done.
Qed.

Lemma switch_spec_aux ctx (k : St) cur p :
  wf k → running k = Some cur → lookup_proc k cur = Some p →
  (debug_assertions = true → 0 ≤ ticks_passed (inner p) + 1 < 2 ^ 64) →
  (∀ q, q ∈ ready_queue k → q ≠ cur → resumable k q) →
  ∃ ctx' k', switch cpuid ctx k = Done (ctx', k').
Proof.
  intros Hwf Hr Hl Ht Hres.
  pose proof Hl as Hl'. unfold lookup_proc in Hl'. apply bind_Some in Hl' as (loc & Hq & Hp).
  pose proof (save_current_returns ctx k cur loc p Hwf Hr Hq Hp Ht) as Hsv.
  destruct (wf_set_ready_push k cur loc p ctx Hwf Hr Hq Hp) as (Hwf1 & Hr1 & Hq1 & Hps1 & Hm1 & Hpr1).
  unfold switch. rewrite (bind_step _ _ _ _ _ Hsv). unfold push_ready. rewrite (bind_step _ _ _ _ _ eq_refl).
  rewrite Hq1. set (k2 := set_ready _ _) in *.
  assert (∃ r, switch_next cpuid ctx k2 = Done r) as [[r k3] Hn].
  { unfold switch_next. rewrite (bind_step _ _ _ _ _ (current_pid_running cpuid k2 cur Hr1)).
    rewrite (bind_step _ _ _ _ _ eq_refl). apply switch_loop_returns; [done|lia|].
    intros x Hx Hne p0 Hl0 Hs0. change (lookup_proc (set_inner loc (preempted ctx (inner p)) k) x = Some p0) in Hl0.
    rewrite (lookup_set_inner cpuid k loc _ cur x p), decide_False in Hl0 by done.
    apply elem_of_app in Hx as [Hx|Hx]; [|set_solver].
    destruct (Hres x Hx Hne p0 Hl0 Hs0) as (v & reg & n & ? & ?).
    exists v, reg, n. split; [done|]. by rewrite <- Hm1 in *. }
  rewrite (bind_step _ _ _ _ _ Hn). eexists _, _. reflexivity.
Qed.

(** C6: The timer interrupt.  When every ready process in the queue still has its
    memory, [switch] returns.  The interrupted process is saved, marked ready
    and put at the back of the queue; the first process of the queue that is
    ready runs next, the entries before it, which are not ready, are dropped;
    the registers loaded are the saved ones of that process (or, if it is the
    interrupted one, stay as they are), and no other process changes. *)
Theorem switch_spec ctx (k : St) cur p :
  wf k → running k = Some cur → lookup_proc k cur = Some p →
  (debug_assertions = true → 0 ≤ ticks_passed (inner p) + 1 < 2 ^ 64) →
  (∀ q, q ∈ ready_queue k → q ≠ cur → resumable k q) →
  ∃ ctx' k' next dropped rest, switch cpuid ctx k = Done (ctx', k') ∧
    switch_effect ctx k ctx' k' cur next dropped rest.
Proof.
  intros Hwf Hr Hl Ht Hres. destruct (switch_spec_aux ctx k cur p Hwf Hr Hl Ht Hres) as (ctx' & k' & Hs).
  destruct (switch_Done _ _ _ _ Hwf Hs) as (c & next & dropped & rest & He).
  assert (c = cur) as -> by (pose proof (sw_cur _ _ _ _ _ _ _ _ He); congruence). eauto 10.
Qed.

(** ** Runs of the timer *)

(** Timer interrupts in a row; each takes the context of whatever was running and
    gives the process that runs next with the context it continues with. *)
Fixpoint timer (cs : list ProcessContext) : M St (list (Z * ProcessContext)) :=
  match cs with
  | [] => mret []
  | c :: cs =>
      c' ← switch cpuid c;
      q ← current_pid cpuid;
      rest ← timer cs;
      mret ((q, c') :: rest)
  end.

Lemma timer_cons_Done c cs (k : St) outs k' :
  wf k → timer (c :: cs) k = Done (outs, k') →
  ∃ cur next dropped rest c' k1 outs', switch_effect c k c' k1 cur next dropped rest ∧ wf k1 ∧
    timer cs k1 = Done (outs', k') ∧ outs = (next, c') :: outs'.
Proof.
  intros Hwf Ht. simpl in Ht. apply bind_Done in Ht as (c' & k1 & Hs & Ht).
  destruct (switch_Done _ _ _ _ Hwf Hs) as (cur & next & dropped & rest & He).
  apply switch_wf in Hs; [|done].
  apply bind_Done in Ht as (q & k2 & Hc & Ht). apply current_pid_Done in Hc as (-> & Hc & _).
  apply bind_Done in Ht as (outs' & k2 & Ht & Hr). apply ret_Done in Hr as [<- <-].
  pose proof (sw_running _ _ _ _ _ _ _ _ He) as Hn. assert (q = next) as -> by congruence. eauto 15.
Qed.

(** The processes that can run have their memory, and their tick counters are
    [n] away from overflowing. *)
Definition healthy (n : Z) (k : St) : Prop :=
  ∀ q p, lookup_proc k q = Some p → status (inner p) = Ready ∨ running k = Some q →
    (∃ v reg m, proc_vm (inner p) = Some v ∧ arcs (kmem k) !! page_table v = Some (reg, m)) ∧
    0 ≤ ticks_passed (inner p) ∧ ticks_passed (inner p) + n < 2 ^ 64.

Lemma is_ready_lookup (k : St) q : is_ready k q = true → ∃ p, lookup_proc k q = Some p ∧ status (inner p) = Ready.
Proof.
  unfold is_ready. destruct (lookup_proc k q) as [p|]; [|done]. intros Hs%bool_decide_eq_true. eauto.
Qed.

Lemma switch_healthy n c (k : St) c' k' cur next dropped rest :
  0 ≤ n → switch_effect c k c' k' cur next dropped rest → wf k → healthy (n + 1) k → healthy n k'.
Proof.
  intros Hn He Hwf Hh q p Hl Hst. rewrite (sw_arcs _ _ _ _ _ _ _ _ He).
  destruct (wf_running _ _ Hwf) as (c0 & Hc0 & [loc Hloc]).
  pose proof (sw_cur _ _ _ _ _ _ _ _ He) as Hcur. assert (c0 = cur) as -> by congruence.
  destruct (wf_table _ _ Hwf cur loc Hloc) as (pc & Hpc & _).
  pose proof (lookup_proc_Some _ _ _ _ Hloc Hpc) as Hlc.
  pose proof (sw_saved _ _ _ _ _ _ _ _ He pc Hlc) as Hsv.
  destruct (decide (q = cur)) as [->|Hqc].
  - rewrite Hsv in Hl. injection Hl as <-. destruct (Hh cur pc Hlc ltac:(by right)) as (Hv & Ht0 & Ht1).
    simpl. rewrite wrap_small by lia. split; [done|lia].
  - destruct (decide (q = next)) as [->|Hqn].
    + pose proof (sw_loaded _ _ _ _ _ _ _ _ He) as Hld. rewrite decide_False in Hld by done.
      destruct Hld as (pn & v & Hln & Hv & _ & Hl'). rewrite Hl' in Hl. injection Hl as <-. simpl.
      destruct (sw_next _ _ _ _ _ _ _ _ He) as [?|Hr]; [done|].
      apply is_ready_lookup in Hr as (pn' & Hln' & Hrs). simplify_eq.
      destruct (Hh next pn Hln ltac:(by left)) as (? & ? & ?). split; [done|lia].
    + rewrite (sw_other _ _ _ _ _ _ _ _ He q Hqc Hqn) in Hl.
      assert (status (inner p) = Ready) as Hs.
      { destruct Hst as [|Hr]; [done|]. rewrite (sw_running _ _ _ _ _ _ _ _ He) in Hr. congruence. }
      destruct (Hh q p Hl ltac:(by left)) as (? & ? & ?). split; [done|lia].
Qed.

Lemma timer_returns cs (k : St) :
  wf k → healthy (Z.of_nat (length cs)) k → ∃ outs k', timer cs k = Done (outs, k').
Proof.
  revert k. induction cs as [|c cs IH]; intros k Hwf Hh; [by eexists _, _|].
  destruct (wf_running _ _ Hwf) as (cur & Hcur & [loc Hloc]).
  destruct (wf_table _ _ Hwf cur loc Hloc) as (p & Hp & _). pose proof (lookup_proc_Some _ _ _ _ Hloc Hp) as Hl.
  assert (∃ c' k1, switch cpuid c k = Done (c', k1)) as (c' & k1 & Hs).
  { destruct (switch_spec_aux c k cur p Hwf Hcur Hl) as (c' & k1 & Hs).
    - intros _. destruct (Hh cur p Hl ltac:(by right)) as (_ & ? & ?). simpl in *. lia.
    - intros q _ _ p0 Hl0 Hs0. apply (Hh q p0 Hl0). by left.
    - eauto. }
  destruct (switch_Done _ _ _ _ Hwf Hs) as (cu & next & dropped & rest & He).
  pose proof (switch_wf _ _ _ _ _ Hwf Hs) as Hwf1.
  destruct (IH k1 Hwf1) as (outs & k' & Ht).
  { eapply switch_healthy; [|exact He|done|]; [lia|]. simpl in Hh.
    replace (Z.of_nat (length cs) + 1) with (Z.of_nat (S (length cs))) by lia. done. }
  simpl. rewrite (bind_step _ _ _ _ _ Hs).
  rewrite (bind_step _ _ _ _ _ (current_pid_running _ _ _ (sw_running _ _ _ _ _ _ _ _ He))).
  rewrite (bind_step _ _ _ _ _ Ht). by eexists _, _.
Qed.

(** One tick brings a process that stays ready forward in the queue, or runs it. *)
Lemma switch_advances c (k : St) c' k1 cur next dropped rest pre q post :
  switch_effect c k c' k1 cur next dropped rest →
  ready_queue k = pre ++ q :: post → is_ready k q = true →
  next = q ∨ ∃ pre' post', ready_queue k1 = pre' ++ q :: post' ∧ (length pre' < length pre)%nat.
Proof.
  intros He Hq Hr. pose proof (sw_queue _ _ _ _ _ _ _ _ He) as Hqueue. rewrite Hq, <- app_assoc in Hqueue.
  apply app_eq_inv in Hqueue as [(l & Hl1 & Hl2)|(l & Hl1 & Hl2)].
  - destruct l as [|x l]; simpl in Hl2.
    + injection Hl2 as -> _. by left.
    + injection Hl2 as <- Hrest. right. exists l, (post ++ [cur]).
      rewrite (sw_rest _ _ _ _ _ _ _ _ He), Hrest, Hl1, length_app. split; [done|]. simpl. lia.
  - destruct l as [|x l]; simpl in Hl2.
    + injection Hl2 as -> _. by left.
    + injection Hl2 as <- _.
      destruct (sw_dropped _ _ _ _ _ _ _ _ He q) as [_ Hx]; [rewrite Hl1; set_solver|]. congruence.
Qed.

Lemma switch_keeps_ready c (k : St) c' k1 cur next dropped rest q :
  switch_effect c k c' k1 cur next dropped rest → wf k → is_ready k q = true → next ≠ q →
  is_ready k1 q = true.
Proof.
  intros He Hwf Hr Hne. destruct (decide (q = cur)) as [->|Hqc].
  - apply is_ready_lookup in Hr as (p & Hl & _). unfold is_ready.
    by rewrite (sw_saved _ _ _ _ _ _ _ _ He p Hl).
  - unfold is_ready in *. by rewrite (sw_other _ _ _ _ _ _ _ _ He q Hqc (not_eq_sym Hne)).
Qed.

Lemma timer_fair n : ∀ cs (k : St) pre q post outs k',
  (length pre ≤ n)%nat → wf k → ready_queue k = pre ++ q :: post → is_ready k q = true →
  (length pre < length cs)%nat → timer cs k = Done (outs, k') →
  ∃ i c, (i ≤ length pre)%nat ∧ outs !! i = Some (q, c).
Proof.
  induction n as [|n IH]; intros [|c cs] k pre q post outs k' Hn Hwf Hq Hr Hlen Ht; simpl in Hlen; try lia;
    destruct (timer_cons_Done _ _ _ _ _ Hwf Ht) as (cur & next & dropped & rest & c' & k1 & outs' & He & Hwf1 & Ht1 & ->);
    destruct (switch_advances _ _ _ _ _ _ _ _ _ _ _ He Hq Hr) as [->|(pre' & post' & Hq' & Hl')];
    try (exists 0%nat, c'; split; [lia|done]); [lia|].
  destruct (decide (next = q)) as [->|Hne]; [exists 0%nat, c'; split; [lia|done]|].
  destruct (IH cs k1 pre' q post' outs' k') as (i & c2 & Hi & Ho); [lia|done|done| |lia|done|].
  { by eapply switch_keeps_ready. }
  exists (S i), c2. split; [lia|done].
Qed.

(** C7: No ready process starves.  Behind [n] others in the ready queue a process
    runs within [n + 1] timer interrupts; and the timer does go on for that
    long, as long as the processes that can run have their memory. *)
Theorem round_robin_fair cs (k : St) pre q post :
  wf k → healthy (Z.of_nat (length cs)) k → ready_queue k = pre ++ q :: post → is_ready k q = true →
  (length pre < length cs)%nat →
  ∃ outs k', timer cs k = Done (outs, k') ∧ ∃ i c, (i ≤ length pre)%nat ∧ outs !! i = Some (q, c).
Proof.
  intros Hwf Hh Hq Hr Hlen. destruct (timer_returns cs k Hwf Hh) as (outs & k' & Ht).
  exists outs, k'. split; [done|]. by eapply timer_fair.
Qed.

(** ** Preemption *)

Lemma resumed_context q c : ∀ cs (k : St) p outs c' k',
  wf k → lookup_proc k q = Some p → context (inner p) = c → running k ≠ Some q →
  timer cs k = Done (outs ++ [(q, c')], k') → (∀ x, x ∈ outs → x.1 ≠ q) → c' = c.
Proof.
  intros cs. induction cs as [|d cs IH]; intros k p outs c' k' Hwf Hl Hc Hne Ht Ho.
  { simpl in Ht. apply ret_Done in Ht as [Ht _]. by destruct outs. }
  destruct (timer_cons_Done _ _ _ _ _ Hwf Ht) as (cur & next & dropped & rest & c2 & k1 & outs' & He & Hwf1 & Ht1 & Houts).
  pose proof (sw_cur _ _ _ _ _ _ _ _ He) as Hcur. assert (Hqc : q ≠ cur) by congruence.
  pose proof (sw_loaded _ _ _ _ _ _ _ _ He) as Hld.
  destruct outs as [|x outs]; simpl in Houts; injection Houts as -> Houts.
  - rewrite decide_False in Hld by congruence. destruct Hld as (p' & v & Hl' & _ & -> & _). by simplify_eq.
  - pose proof (Ho (next, c2) ltac:(by left)) as Hn. simpl in Hn. subst outs'.
    eapply (IH k1 p outs c' k'); [done| |done| |exact Ht1|].
    + by rewrite (sw_other _ _ _ _ _ _ _ _ He q Hqc (not_eq_sym Hn)).
    + rewrite (sw_running _ _ _ _ _ _ _ _ He). congruence.
    + intros x Hx. apply Ho. by right.
Qed.

(** C8: Preemption is invisible.  A process that is interrupted with the registers
    [c] continues with exactly these registers the next time the timer runs it,
    however many other processes ran in between. *)
Theorem preemption_transparent c cs (k : St) q outs c' k' :
  wf k → running k = Some q → timer (c :: cs) k = Done (outs ++ [(q, c')], k') →
  (∀ x, x ∈ outs → x.1 ≠ q) → c' = c.
Proof.
  intros Hwf Hr Ht Ho.
  destruct (timer_cons_Done _ _ _ _ _ Hwf Ht) as (cur & next & dropped & rest & c2 & k1 & outs' & He & Hwf1 & Ht1 & Houts).
  pose proof (sw_cur _ _ _ _ _ _ _ _ He) as Hcur. assert (cur = q) as -> by congruence.
  pose proof (sw_loaded _ _ _ _ _ _ _ _ He) as Hld.
  destruct outs as [|x outs]; simpl in Houts.
  { simplify_eq. by rewrite decide_True in Hld. }
  simplify_eq.
  - pose proof (Ho (next, c2) ltac:(by left)) as Hn. simpl in Hn.
    destruct (wf_running _ _ Hwf) as (c0 & Hc0 & [loc Hloc]). assert (c0 = q) as -> by congruence.
    destruct (wf_table _ _ Hwf q loc Hloc) as (p & Hp & _).
    eapply (resumed_context q c cs k1); [done|eapply (sw_saved _ _ _ _ _ _ _ _ He); by eapply lookup_proc_Some|
      by destruct c| |exact Ht1|].
    + rewrite (sw_running _ _ _ _ _ _ _ _ He). congruence.
    + intros x Hx. apply Ho. by right.
Qed.

(** ** Waking a process that was killed *)

Lemma zombie_stops n : ∀ cs (k : St) pre q post p r,
  (length pre ≤ n)%nat → wf k → ready_queue k = pre ++ q :: post → lookup_proc k q = Some p →
  status (inner p) = Ready → exit_code (inner p) ≠ None → running k ≠ Some q →
  (length pre < length cs)%nat → timer cs k ≠ Done r.
Proof.
  induction n as [|n IH]; intros [|c cs] k pre q post p [outs k'] Hn Hwf Hq Hl Hs Hex Hr Hlen Ht;
    simpl in Hlen; try lia;
    destruct (timer_cons_Done _ _ _ _ _ Hwf Ht) as (cur & next & dropped & rest & c' & k1 & outs' & He & Hwf1 & Ht1 & ->);
    pose proof (sw_cur _ _ _ _ _ _ _ _ He) as Hcur; assert (Hqc : q ≠ cur) by congruence;
    assert (Hne : next ≠ q)
      by (intros ->; pose proof (sw_loaded _ _ _ _ _ _ _ _ He) as Hld; rewrite decide_False in Hld by done;
          destruct Hld as (p' & v & Hl' & Hv & _); simplify_eq;
          pose proof Hl as Hl2; unfold lookup_proc in Hl2; apply bind_Some in Hl2 as (loc & Hloc & Hp);
          destruct (wf_table _ _ Hwf q loc Hloc) as (p2 & Hp2 & _ & (H1' & _)); simplify_eq;
          apply Hex, H1'; by rewrite Hv);
    destruct (switch_advances _ _ _ _ _ _ _ _ _ _ _ He Hq (is_ready_true _ _ _ Hl Hs))
      as [?|(pre' & post' & Hq' & Hl')]; try done; [lia|].
  refine (IH cs k1 pre' q post' p (outs', k') _ Hwf1 Hq' _ Hs Hex _ _ Ht1); [lia| | |lia].
  - by rewrite (sw_other _ _ _ _ _ _ _ _ He q Hqc (not_eq_sym Hne)).
  - rewrite (sw_running _ _ _ _ _ _ _ _ He). congruence.
Qed.

(** A switch does not run out of fuel: its loop has one unit for every entry of the queue and
    one more. *)
Lemma bind_fuel {S A B} (m : M S A) (f : A → M S B) s :
  m s ≠ OutOfFuel → (∀ a s1, m s = Done (a, s1) → f a s1 ≠ OutOfFuel) → (m ≫= f) s ≠ OutOfFuel.
Proof. unfold mbind, M_bind. destruct (m s) as [[a s1]| |] eqn:E; [|done..]. intros _ Hf. by apply Hf. Qed.

Lemma zoom_fuel {S T A} (proj : S → T) upd (m : M T A) s : m (proj s) ≠ OutOfFuel → zoom proj upd m s ≠ OutOfFuel.
Proof. unfold zoom. by destruct (m (proj s)) as [[]| |]. Qed.

Lemma unwrap_fuel {S A} (o : option A) (s : S) : unwrap o s ≠ OutOfFuel.
Proof. by destruct o. Qed.

Lemma word_op_fuel {S} w x (s : S) : word_op w x s ≠ OutOfFuel.
Proof. unfold word_op. repeat case_match; done. Qed.

#[local] Ltac fuel :=
  repeat first [apply unwrap_fuel | apply word_op_fuel | apply zoom_fuel | apply bind_fuel; [|intros ? ? _] | done].

Lemma current_pid_fuel (k : St) : current_pid cpuid k ≠ OutOfFuel.
Proof. unfold current_pid, on_cpus, Processor.current_pid, Processor.current. fuel. Qed.

Lemma save_current_fuel c (k : St) : save_current cpuid c k ≠ OutOfFuel.
Proof.
  unfold save_current, current, read_proc, on_mem, Inner.tick. fuel.
Qed.

Lemma switch_loop_fuel n q c (k : St) : (length (ready_queue k) < n)%nat → switch_loop cpuid n q c k ≠ OutOfFuel.
Proof.
  revert k. induction n as [|n IH]; intros k Hn; [lia|]. cbn [switch_loop].
  apply bind_fuel; [unfold pop_ready; by case_match|]. intros o k1 Ho.
  unfold pop_ready in Ho. destruct (ready_queue k) as [|x l]; injection Ho as <- <-; [done|]. simpl in Hn.
  unfold read_proc.
  apply bind_fuel; [done|]. intros a k2 [= <- <-]. apply bind_fuel; [fuel|]. intros loc k2 [_ <-]%unwrap_Done.
  apply bind_fuel; [fuel|]. intros p k2 Hp. apply bind_Done in Hp as (s & k3 & [= <- <-] & [_ <-]%unwrap_Done).
  case_match; [apply IH; simpl; lia|]. case_match; [|done].
  unfold on_mem, Inner.restore, Inner.vm, PageTableContext.load, Arc_deref, set_pid, on_cpus, Processor.set_pid, Processor.current, write_proc. fuel.
Qed.

Lemma timer_fuel cs (k : St) : timer cs k ≠ OutOfFuel.
Proof.
  revert k. induction cs as [|c cs IH]; intros k; [done|]. cbn [timer].
  apply bind_fuel; [|intros c' k1 _; apply bind_fuel; [apply current_pid_fuel|intros q k2 _; apply bind_fuel; [apply IH|done]]].
  unfold switch. apply bind_fuel; [apply save_current_fuel|]. intros q k1 _. apply bind_fuel; [done|]. intros u k2 _.
  apply bind_fuel; [|done]. unfold switch_next. apply bind_fuel; [apply current_pid_fuel|]. intros q' k3 _.
  apply bind_fuel; [done|]. intros n k4 [= <- <-]. apply switch_loop_fuel. lia.
Qed.

(** C39: Waking a process that was killed stops the kernel.  [wake_up] does not look
    at the status: a process that was killed while it waited for another one, or
    for a semaphore, is made ready and queued when the event comes, though
    its memory is gone; and the kernel panics before the timer has gone off once
    for every entry of the queue and once more.  Where all other processes are healthy it is
    that process which stops it: without the waking the same timer interrupts all return. *)
Theorem wake_up_killed cs ret (k : St) q p u k1 :
  wf k → lookup_proc k q = Some p → exit_code (inner p) ≠ None → running k ≠ Some q →
  wake_up q ret k = Done (u, k1) → (length (ready_queue k) < length cs)%nat →
  proc_vm (inner p) = None ∧ timer cs k1 = Panic ∧
  (healthy (Z.of_nat (length cs)) k → ∃ r, timer cs k = Done r).
Proof.
  intros Hwf Hl Hex Hr Hw Hlen. destruct (wake_up_wf cpuid _ _ _ _ _ Hwf Hw) as (Hwf1 & (Hr1 & _) & _).
  pose proof Hl as Hl2. unfold lookup_proc in Hl2. apply bind_Some in Hl2 as (loc & Hloc & Hp).
  apply wake_up_Done in Hw. rewrite Hloc in Hw. destruct Hw as (p' & Hp' & ->).
  assert (p' = p) as -> by congruence.
  pose proof (wf_push cpuid k q Hwf ltac:(by rewrite Hloc)) as Hwfp.
  split_and!; [|..|intros Hh; destruct (timer_returns cs k Hwf Hh) as (outs & k' & ->); by eexists].
  { destruct (wf_table _ _ Hwf q loc Hloc) as (p2 & Hp2 & _ & (Hi & _)). simplify_eq.
    apply eq_None_not_Some. intros [v Hv]. apply Hex, Hi. by rewrite Hv. }
  match goal with |- ?t = Panic => destruct t as [r| |] eqn:Et; [|done|by apply timer_fuel in Et] end.
  exfalso. revert Et. eapply (zombie_stops _ cs _ (ready_queue k) q []); [reflexivity|done| | | | |by rewrite Hr1|done].
  - unfold set_inner. simpl. by rewrite Hp.
  - rewrite (lookup_set_inner cpuid _ loc _ q q p); [by rewrite decide_True|done|done|done].
  - done.
  - done.
Qed.

(** *** Checking a concrete kernel *)

Definition healthy_proc (n : Z) (k : St) (q : Z) (loc : nat) : bool :=
  match procs k !! loc with
  | Some p =>
      negb (bool_decide (status (inner p) = Ready ∨ running k = Some q)) ||
      match proc_vm (inner p) with
      | Some v => bool_decide (is_Some (arcs (kmem k) !! page_table v))
      | None => false
      end && bool_decide (0 ≤ ticks_passed (inner p) ∧ ticks_passed (inner p) + n < 2 ^ 64)
  | None => false
  end.

Definition healthyb (n : Z) (k : St) : bool :=
  bool_decide (map_Forall (λ q loc, healthy_proc n k q loc = true) (processes k)).

Lemma healthyb_healthy n (k : St) : healthyb n k = true → healthy n k.
Proof.
  unfold healthyb. rewrite bool_decide_eq_true. intros Hh q p (loc & Hl & Hp)%bind_Some Hs.
  specialize (Hh q loc Hl). unfold healthy_proc in Hh. rewrite Hp in Hh.
  rewrite (bool_decide_eq_true_2 _ Hs) in Hh. simpl in Hh. apply andb_true_iff in Hh as [Hv Ht%bool_decide_eq_true]. split; [|done].
  destruct (proc_vm (inner p)) as [v|]; [|done]. apply bool_decide_eq_true in Hv as [[reg m] Hv]. eauto.
Qed.

End RoundRobin.

(** ** Examples *)

Section RoundRobinWitnesses.
#[local] Existing Instance x86_ref.
#[local] Existing Instance release.

Lemma switch_spec_witness :
  ∃ ctx' k' next dropped rest, switch 0 (regs_example 11) kernel_example = Done (ctx', k') ∧
    switch_effect 0 (regs_example 11) kernel_example ctx' k' 1 next dropped rest.
Proof.
  apply (switch_spec 0 (regs_example 11) kernel_example 1
    (mkProcess 1 (inner_example Running 10 0 stack_example))).
  - apply kernel_example_wf.
  - done.
  - vm_compute. reflexivity.
  - discriminate.
  - intros q Hq Hne p Hp Hs. apply elem_of_cons in Hq as [->|Hq%list_elem_of_singleton].
    + vm_compute in Hp. injection Hp as <-. discriminate Hs.
    + subst q. vm_compute in Hp. injection Hp as <-.
      eexists _, _, _. split; [reflexivity|vm_compute; reflexivity].
Defined.

Lemma round_robin_fair_witness :
  ∃ outs k', timer 0 [regs_example 11; regs_example 21] kernel_example = Done (outs, k') ∧
    ∃ i c, (i ≤ 1)%nat ∧ outs !! i = Some (2, c).
Proof.
  apply (round_robin_fair 0 [regs_example 11; regs_example 21] kernel_example [3] 2 []).
  - apply kernel_example_wf.
  - apply healthyb_healthy. vm_compute. reflexivity.
  - done.
  - vm_compute. reflexivity.
  - simpl. lia.
Defined.

(** Process 2 runs between the two. *)
Lemma preemption_transparent_witness :
  ∃ c', timer 0 [regs_example 11; regs_example 21] kernel_example =
      Done ([(2, regs_example 20); (1, c')], state_of (timer 0 [regs_example 11; regs_example 21] kernel_example) kernel_example) ∧
    c' = regs_example 11.
Proof.
  assert (Ht : ∃ c', timer 0 [regs_example 11; regs_example 21] kernel_example =
      Done ([(2, regs_example 20); (1, c')], state_of (timer 0 [regs_example 11; regs_example 21] kernel_example) kernel_example)).
  { eexists. apply value_state. vm_compute. reflexivity. }
  destruct Ht as [c' Ht]. exists c'. split; [exact Ht|].
  apply (preemption_transparent 0 (regs_example 11) [regs_example 21] kernel_example 1
    [(2, regs_example 20)] c'
    (state_of (timer 0 [regs_example 11; regs_example 21] kernel_example) kernel_example)).
  - apply kernel_example_wf.
  - done.
  - exact Ht.
  - intros x ->%list_elem_of_singleton. done.
Defined.

(** Process 4 was killed; three timer interrupts return, but not after it was woken. *)
Lemma wake_up_killed_witness :
  timer 0 [regs_example 1; regs_example 2; regs_example 3]
    (state_of (wake_up 4 0 kernel_example) kernel_example) = Panic ∧
  ∃ r, timer 0 [regs_example 1; regs_example 2; regs_example 3] kernel_example = Done r.
Proof.
  destruct (wake_up_killed 0 [regs_example 1; regs_example 2; regs_example 3] 0 kernel_example 4 (mkProcess 4 dead_example) ()
    (state_of (wake_up 4 0 kernel_example) kernel_example)) as (_ & Hp & Hh).
  - apply kernel_example_wf.
  - vm_compute. reflexivity.
  - discriminate.
  - discriminate.
  - apply value_state. vm_compute. reflexivity.
  - simpl. lia.
  - split; [exact Hp|]. apply Hh, healthyb_healthy. vm_compute. reflexivity.
Defined.

End RoundRobinWitnesses.
