(* ===== verification/Lifecycle.v ===== *)
(** How processes wait for each other: exit codes and [wait_pid], killing, and
    semaphores between processes, down to the registers they continue with. *)
From S2P Require Import Prelude Arch Pid Sync Frames Elf Stack Heap Vm Context Resource Data Process Manager Scheduler KernelExample RoundRobin.
From stdpp Require Import strings.
#[local] Open Scope Z_scope.

Section Lifecycle.
Context `{Profile} `{X86_64} {PT Q : Type} `{Mapper PT} `{ArrayQueue Q}.
Context (PHYSICAL_OFFSET : option Z) (cpuid : nat).
#[local] Abbreviation St := (Kernel PT Q).
#[local] Abbreviation wf := (wf cpuid).
#[local] Abbreviation running := (running cpuid).

(** ** Waking *)

(** A process that is woken with the return value [ret]. *)
Definition woken (ret : Z) (i : ProcessInner) : ProcessInner :=
  Inner.pause (Inner.set_return_value ret i).

Definition map_inner (f : ProcessInner → ProcessInner) (p : Process) : Process :=
  mkProcess (Process.pid p) (f (inner p)).

Definition known (k : St) (q : Z) : Prop := is_Some (processes k !! q).
#[local] Instance known_dec k q : Decision (known k q).
Proof. unfold known. apply _. Defined.

Lemma woken_twice ret i : woken ret (woken ret i) = woken ret i.
Proof. destruct i as [? ? ? ? ? [[[]]] ? ? ?]. reflexivity. Qed.

Lemma lookup_proc_pid (k : St) q p : wf k → lookup_proc k q = Some p → Process.pid p = q.
Proof.
  intros Hwf (loc & Hl & Hp)%bind_Some. destruct (wf_table _ _ Hwf q loc Hl) as (p' & ? & ? & _).
  by simplify_eq.
Qed.

Lemma wake_up_effect q ret (k : St) u k' :
  wf k → wake_up q ret k = Done (u, k') →
  kmem k' = kmem k ∧ data k' = data k ∧ Process.wait_queue k' = Process.wait_queue k ∧
  processes k' = processes k ∧
  ready_queue k' = ready_queue k ++ (if decide (known k q) then [q] else []) ∧
  ∀ q', lookup_proc k' q' = if decide (q' = q) then map_inner (woken ret) <$> lookup_proc k q' else lookup_proc k q'.
Proof.
  intros Hwf Hw. apply wake_up_Done in Hw. destruct (processes k !! q) as [loc|] eqn:Hq; cycle 1.
  { subst k'. rewrite decide_False, app_nil_r by (unfold known; rewrite Hq; by intros []).
    split_and!; try done. intros q'. destruct (decide (q' = q)) as [->|]; [|done].
    unfold lookup_proc. by rewrite Hq. }
  destruct Hw as (p & Hp & ->). destruct (wf_table _ _ Hwf q loc Hq) as (p' & Hp' & Hpid & Hi). simplify_eq.
  pose proof (wf_push cpuid k (Process.pid p) Hwf ltac:(by rewrite Hq)) as Hwf'.
  rewrite decide_True by (unfold known; by rewrite Hq).
  split_and!; try (unfold set_inner; simpl; by rewrite Hp).
  intros q'. rewrite (lookup_set_inner cpuid _ loc _ (Process.pid p) q' p) by done.
  destruct (decide (q' = Process.pid p)) as [->|]; [|done].
  by rewrite (lookup_proc_Some _ _ _ _ Hq Hp).
Qed.

Lemma modify_inner_returns loc f (k : St) p :
  procs k !! loc = Some p → modify_inner loc f k = Done ((), set_inner loc (f (inner p)) k).
Proof.
  intros Hp. unfold modify_inner, read_proc, write_proc, mbind, M_bind, get, modify. rewrite Hp. simpl.
  unfold set_inner. by rewrite Hp.
Qed.

Lemma wake_up_returns q ret (k : St) : wf k → ∃ k', wake_up q ret k = Done ((), k').
Proof.
  intros Hwf. unfold wake_up, get_proc. rewrite (bind_step _ _ _ _ _ eq_refl).
  destruct (processes k !! q) as [loc|] eqn:Hq; [|by eexists].
  destruct (wf_table _ _ Hwf q loc Hq) as (p & Hp & _).
  rewrite (bind_step _ _ _ _ _ (modify_inner_returns loc _ k p Hp)). by eexists.
Qed.

Lemma wake_all_returns qs ret (k : St) : wf k → ∃ k', wake_all qs ret k = Done ((), k').
Proof.
  revert k. induction qs as [|q qs IH]; intros k Hwf; simpl; [by eexists|].
  destruct (wake_up_returns q ret k Hwf) as [k1 Hw]. rewrite (bind_step _ _ _ _ _ Hw).
  apply IH. by eapply wake_up_wf.
Qed.

Lemma current_returns (k : St) cur loc :
  running k = Some cur → processes k !! cur = Some loc → current cpuid k = Done (loc, k).
Proof.
  intros Hr Hq. unfold current. rewrite (bind_step _ _ _ _ _ (current_pid_running _ _ _ Hr)).
  unfold get_proc. rewrite (bind_step _ _ _ _ _ eq_refl), Hq. done.
Qed.

Lemma wake_all_effect qs ret (k : St) u k' :
  wf k → wake_all qs ret k = Done (u, k') →
  kmem k' = kmem k ∧ data k' = data k ∧ Process.wait_queue k' = Process.wait_queue k ∧
  processes k' = processes k ∧
  ready_queue k' = ready_queue k ++ filter (known k) qs ∧
  ∀ q, lookup_proc k' q = if decide (q ∈ qs) then map_inner (woken ret) <$> lookup_proc k q else lookup_proc k q.
Proof.
  revert k. induction qs as [|q qs IH]; intros k Hwf Hw; simpl in Hw.
  { inv_done. rewrite app_nil_r. by split_and!. }
  apply bind_Done in Hw as (u' & k1 & Hw1 & Hw). destruct (wake_up_wf cpuid _ _ _ _ _ Hwf Hw1) as (Hwf1 & _).
  apply wake_up_effect in Hw1 as (Hm1 & Hd1 & Hq1 & Hp1 & Hr1 & Hl1); [|done].
  apply IH in Hw as (Hm & Hd & Hq & Hp & Hr & Hl); [|done].
  split_and!; try congruence.
  - rewrite Hr, Hr1, <- app_assoc. f_equal. rewrite filter_cons.
    assert (Hk : ∀ x, known k1 x ↔ known k x) by (intros; unfold known; by rewrite Hp1).
    rewrite (list_filter_iff (known k1) (known k) qs Hk). by destruct (decide (known k q)).
  - intros x. rewrite Hl, Hl1.
    destruct (decide (x = q)) as [->|Hxq].
    + rewrite (decide_True (P := q ∈ q :: qs)) by (by left).
      destruct (decide (q ∈ qs)); [|done]. destruct (lookup_proc k q) as [p|]; [|done]. simpl.
      unfold map_inner. simpl. by rewrite woken_twice.
    + rewrite (decide_ext (x ∈ q :: qs) (x ∈ qs)); [done|]. rewrite elem_of_cons. naive_solver.
Qed.

(** ** Killing *)

(** What is left of a process that exited with [ret]. *)
Definition killed (ret : Z) (i : ProcessInner) : ProcessInner :=
  mkInner (name i) (parent i) (children i) (ticks_passed i) Dead (context i) (Some ret) None None.

Definition waiters (k : St) (q : Z) : list Z := default [] (Process.wait_queue k !! q).

Lemma manager_kill_Done q ret (k : St) p u k' :
  wf k → lookup_proc k q = Some p → manager_kill PHYSICAL_OFFSET q ret k = Done (u, k') →
  (match proc_vm (inner p) with
   | Some v => Vm.drop PHYSICAL_OFFSET v (kmem k) = Done ((), kmem k')
   | None => kmem k' = kmem k
   end) ∧
  data k' = data k ∧ Process.wait_queue k' = delete q (Process.wait_queue k) ∧ processes k' = processes k ∧
  ready_queue k' = ready_queue k ++ filter (known k) (waiters k q) ∧
  (∀ w, lookup_proc k' w =
     let o := if decide (w = q) then Some (map_inner (killed ret) p) else lookup_proc k w in
     if decide (w ∈ waiters k q) then map_inner (woken ret) <$> o else o).
Proof.
  intros Hwf (loc & Hq & Hp)%bind_Some Hk. unfold manager_kill, get_proc in Hk.
  apply bind_Done in Hk as (o & k1 & Hg & Hk). apply gets_Done in Hg as [<- <-]. rewrite Hq in Hk.
  apply bind_Done in Hk as (u' & k1 & Hd & Hk). apply kill_Done in Hd as (p' & t & Hp' & -> & Hdrop).
  pose proof (wf_dead cpuid k t q loc p ret Hwf Hq ltac:(congruence)) as Hwf1.
  destruct (wf_table _ _ Hwf q loc Hq) as (p0 & Hp0 & Hpid & Hi). simplify_eq.
  change (mkInner (name (inner p)) _ _ _ _ _ _ _ _) with (killed ret (inner p)) in Hk, Hwf1.
  set (k1 := set_inner loc (killed ret (inner p)) (set_kmem t k)) in *.
  assert (Hwf0 : wf (set_kmem t k)) by (by eapply (sched_eq_wf cpuid k)).
  assert (Hk1 : k1 = set_procs (<[loc := mkProcess (Process.pid p) (killed ret (inner p))]> (procs k)) (set_kmem t k))
    by (unfold k1, set_inner; simpl; by rewrite Hp).
  assert (Hl1 : ∀ w, lookup_proc k1 w =
    if decide (w = Process.pid p) then Some (map_inner (killed ret) p) else lookup_proc k w).
  { intros w. apply (lookup_set_inner cpuid (set_kmem t k) loc _ (Process.pid p) w p); done. }
  assert (Hw1 : Process.wait_queue k1 = Process.wait_queue k ∧ processes k1 = processes k ∧ kmem k1 = t ∧
    data k1 = data k ∧ ready_queue k1 = ready_queue k) by (by rewrite Hk1).
  clearbody k1. destruct Hw1 as (Hw1 & Hps1 & Ht & Hd1 & Hr1). subst t.
  unfold take_waiters in Hk. apply bind_Done in Hk as (w & k2 & Hw & Hk). injection Hw as <- <-.
  unfold waiters. rewrite Hw1 in Hk.
  destruct (Process.wait_queue k !! Process.pid p) as [pids|] eqn:Ew; simpl in Hk |- *.
  - apply wake_all_effect in Hk as (Hm & Hd & Hq' & Hps & Hr & Hl); [|by eapply (sched_eq_wf cpuid k1)].
    simpl in *. assert (Hkn : ∀ x, known (set_waits (delete (Process.pid p) (Process.wait_queue k)) k1) x ↔ known k x)
      by (intros; unfold known; simpl; by rewrite Hps1).
    rewrite (list_filter_iff _ (known k) pids Hkn) in Hr.
    split_and!; try congruence.
    + destruct (proc_vm (inner p)); congruence.
    + intros w. rewrite Hl. change (lookup_proc (set_waits _ k1) w) with (lookup_proc k1 w). by rewrite Hl1.
  - inv_done. rewrite app_nil_r. by split_and!.
Qed.

(** The memory of the process, if it has some, can be given back. *)
Definition droppable (k : St) (p : Process) : Prop :=
  ∀ v, proc_vm (inner p) = Some v → ∃ t, Vm.drop PHYSICAL_OFFSET v (kmem k) = Done ((), t).

Lemma kill_returns loc ret (k : St) p :
  procs k !! loc = Some p → droppable k p → ∃ k', Proc.kill PHYSICAL_OFFSET loc ret k = Done ((), k').
Proof.
  intros Hp Hd. unfold Proc.kill, read_proc, write_proc, on_mem, zoom, Inner.kill, mbind, M_bind, get, modify.
  rewrite Hp. simpl. destruct (proc_vm (inner p)) as [v|] eqn:Hv; [|by eexists].
  destruct (Hd v Hv) as [t ->]. by eexists.
Qed.

Lemma manager_kill_returns q ret (k : St) p :
  wf k → lookup_proc k q = Some p → droppable k p → ∃ k', manager_kill PHYSICAL_OFFSET q ret k = Done ((), k').
Proof.
  intros Hwf (loc & Hq & Hp)%bind_Some Hd. unfold manager_kill, get_proc.
  rewrite (bind_step _ _ _ _ _ eq_refl), Hq. destruct (kill_returns loc ret k p Hp Hd) as [k1 Hk].
  rewrite (bind_step _ _ _ _ _ Hk). unfold take_waiters. rewrite (bind_step _ _ _ _ _ eq_refl).
  destruct (Process.wait_queue k1 !! q) as [pids|]; [|by eexists].
  apply wake_all_returns. eapply (sched_eq_wf cpuid k1); [done|].
  apply kill_Done in Hk as (p' & t & Hp' & -> & _). by apply (wf_dead cpuid k t q).
Qed.

(** The end of a process.  [ProcessManager::kill] returns when the
    memory of the process can be given back.  It drops that memory, records the exit code, which [get_ret] answers from then on, and
    marks the process dead; every process that waits for it becomes ready with
    the exit code in [rax] and its other registers as they were saved, in the
    ready queue after those that were there; nobody waits for it any more, and
    no other process changes.  (A process that waits for itself would be among
    the ones that are woken.) *)
Theorem manager_kill_spec q ret (k : St) p :
  wf k → lookup_proc k q = Some p → q ∉ waiters k q → droppable k p →
  ∃ k', manager_kill PHYSICAL_OFFSET q ret k = Done ((), k') ∧
  (match proc_vm (inner p) with
   | Some v => Vm.drop PHYSICAL_OFFSET v (kmem k) = Done ((), kmem k')
   | None => kmem k' = kmem k
   end) ∧
  lookup_proc k' q = Some (map_inner (killed ret) p) ∧ get_ret q k' = Done (Some ret, k') ∧
  (∀ w pw, w ∈ waiters k q → lookup_proc k w = Some pw →
     lookup_proc k' w = Some (map_inner (λ i, Inner.set_status Ready
       (Inner.set_context (Context.set_rax (as_usize ret) (context i)) i)) pw) ∧
     w ∈ ready_queue k') ∧
  (∀ w, w ≠ q → w ∉ waiters k q → lookup_proc k' w = lookup_proc k w) ∧
  waiters k' q = [] ∧ (∀ x, x ≠ q → waiters k' x = waiters k x) ∧
  (∃ queued, ready_queue k' = ready_queue k ++ queued ∧ ∀ w, w ∈ queued → w ∈ waiters k q).
Proof.
  intros Hwf Hl Hself Hdr. destruct (manager_kill_returns q ret k p Hwf Hl Hdr) as [k' Hk].
  exists k'. split; [exact Hk|]. apply manager_kill_Done with (p := p) in Hk as (Hm & _ & Hw & Hps & Hr & Hlk); [|done..].
  assert (Hq : lookup_proc k' q = Some (map_inner (killed ret) p)).
  { rewrite Hlk. cbv zeta. by rewrite (decide_True (P := q = q)), decide_False. }
  split_and!; [done|done| | | | | |].
  - apply bind_Some in Hl as (loc & Hl & _). unfold lookup_proc in Hq. rewrite Hps, Hl in Hq. simpl in Hq.
    unfold get_ret, get_proc. rewrite (bind_step _ _ _ _ _ eq_refl). rewrite Hps, Hl.
    unfold read_proc, mbind, M_bind, get. by rewrite Hq.
  - intros w pw Hin Hpw. assert (Hne : w ≠ q) by congruence.
    rewrite Hlk, Hr. cbv zeta. rewrite (decide_False (P := w = q)), decide_True by done. split; [by rewrite Hpw|].
    apply elem_of_app. right. apply list_elem_of_filter. split; [|done]. unfold known.
    apply bind_Some in Hpw as (loc & -> & _). done.
  - intros w Hne Hin. rewrite Hlk. cbv zeta. by rewrite !decide_False by done.
  - unfold waiters. by rewrite Hw, lookup_delete_eq.
  - intros x Hx. unfold waiters. by rewrite Hw, lookup_delete_ne.
  - eexists. split; [exact Hr|]. intros w Hin. by apply list_elem_of_filter in Hin as [_ ?].
Qed.

(** ** Blocking *)

(** The running process, when it is saved with [ctx] and blocked. *)
Definition blocked (ctx : ProcessContext) (i : ProcessInner) : ProcessInner :=
  Inner.block (preempted ctx i).

(** How [switch_next] goes on when the running process [cur] is blocked: some other
    process that is ready runs, or, when there is none, [cur] itself does. *)
Definition goes_on (k : St) (cur : Z) (ctx ctx' : ProcessContext) (k' : St) : Prop :=
  ((∀ q, q ≠ cur → is_ready k q = false) ∧ running k' = Some cur ∧ ctx' = ctx) ∨
  ∃ next pn, next ≠ cur ∧ is_ready k next = true ∧ running k' = Some next ∧
    lookup_proc k next = Some pn ∧ ctx' = context (inner pn).

Lemma block_switch ctx (k : St) cur loc p r k' :
  wf k → running k = Some cur → processes k !! cur = Some loc → procs k !! loc = Some p →
  wf (set_inner loc (blocked ctx (inner p)) k) →
  switch_next cpuid ctx (set_inner loc (blocked ctx (inner p)) k) = Done (r, k') →
  lookup_proc k' cur = Some (map_inner (blocked ctx) p) ∧ goes_on k cur ctx r.2 k' ∧
  Process.wait_queue k' = Process.wait_queue k ∧ data k' = data k.
Proof.
  intros Hwf Hr Hq Hp Hwf1 Hs. destruct (wf_table _ _ Hwf cur loc Hq) as (p' & Hp' & Hpid & Hi). simplify_eq.
  set (k1 := set_inner loc (blocked ctx (inner p)) k) in *.
  assert (Hl1 : ∀ w, lookup_proc k1 w =
    if decide (w = Process.pid p) then Some (map_inner (blocked ctx) p) else lookup_proc k w).
  { intros w. by apply (lookup_set_inner cpuid k loc _ (Process.pid p) w p). }
  assert (Hrd : ∀ w, is_ready k1 w = if decide (w = Process.pid p) then false else is_ready k w).
  { intros w. unfold is_ready. rewrite Hl1. by destruct (decide (w = Process.pid p)). }
  assert (Hk1 : ready_queue k1 = ready_queue k ∧ Process.wait_queue k1 = Process.wait_queue k ∧ data k1 = data k ∧
    running k1 = running k) by (unfold k1, set_inner; by rewrite Hp).
  destruct Hk1 as (Hq1 & Hw1 & Hd1 & Hr1). clearbody k1.
  apply switch_next_Done in Hs as (c & Hc & Hs); [|done]. assert (c = Process.pid p) as -> by congruence.
  destruct (first_ready k1 (ready_queue k1)) as [[next rest]|] eqn:E.
  - apply first_ready_Some in E as (Hir & _). rewrite Hrd in Hir.
    destruct (decide (next = Process.pid p)) as [?|Hne]; [done|].
    destruct Hs as (l & pn & v & reg & n & Hl & Hpn & Hpid & Hv & Ha & -> & ->).
    rewrite (lookup_started cpuid k1 next l pn) by done. rewrite decide_False, Hl1, decide_True by done.
    split_and!; [done| |done|done]. right. exists next, pn. split_and!; [done|done| | |by destruct (context (inner pn))].
    + by apply running_started.
    + pose proof (lookup_proc_Some _ _ _ _ Hl Hpn) as Hx. by rewrite Hl1, decide_False in Hx.
  - destruct Hs as [-> ->]. split_and!; [|left|done|done].
    + change (lookup_proc k1 (Process.pid p) = Some (map_inner (blocked ctx) p)). by rewrite Hl1, decide_True.
    + split_and!; [|by rewrite <- Hr, <- Hr1|done]. intros q Hne. apply first_ready_None in E.
      rewrite Forall_forall in E. destruct (is_ready k q) eqn:Er; [|done].
      assert (Hin : q ∈ ready_queue k).
      { unfold is_ready in Er. destruct (lookup_proc k q) as [pq|] eqn:Eq; [|done].
        apply bool_decide_eq_true in Er. destruct (wf_ready _ _ Hwf q pq Eq Er) as [Hx|]; [congruence|done]. }
      rewrite Hq1 in E. specialize (E q Hin). simpl in E. rewrite Hrd, decide_False in E by done. congruence.
Qed.

Lemma elem_of_btree_insert x y l : y ∈ btree_insert x l ↔ y = x ∨ y ∈ l.
Proof.
  induction l as [|z l IH]; simpl; [by rewrite list_elem_of_singleton, elem_of_nil; tauto|].
  destruct (x <? z); [by rewrite !elem_of_cons|].
  destruct (Z.eqb_spec x z) as [->|]; rewrite !elem_of_cons, ?IH; tauto.
Qed.

Lemma set_inner_twice loc i j (k : St) p :
  procs k !! loc = Some p → set_inner loc j (set_inner loc i k) = set_inner loc j k.
Proof.
  intros Hp. unfold set_inner. rewrite Hp. simpl. rewrite lookup_insert_eq. simpl.
  destruct k. unfold set_procs. simpl. by rewrite insert_insert_eq.
Qed.

(** Saving, blocking and switching away, as [wait_pid] and [sem_wait] do. *)
Lemma save_block_switch ctx (k : St) q loc p r k1 k' :
  wf k → save_current cpuid ctx k = Done (q, k1) →
  processes k !! q = Some loc → procs k !! loc = Some p →
  switch_next cpuid ctx (set_inner loc (Inner.block (preempted ctx (inner p))) k1) = Done (r, k') →
  lookup_proc k' q = Some (map_inner (blocked ctx) p) ∧ goes_on k q ctx r.2 k' ∧
  Process.wait_queue k' = Process.wait_queue k ∧ data k' = data k.
Proof.
  intros Hwf Hsv Hq Hp Hs. pose proof (saved_block cpuid _ _ _ _ Hwf Hsv) as (l & p1 & _ & Hl & Hp1 & Hwfb & _).
  apply save_current_Done in Hsv as (loc' & p' & Hr & Hq' & Hp' & ->); [|done].
  assert (loc' = loc) as -> by congruence. assert (p' = p) as -> by congruence.
  assert (Hl1 : procs (set_inner loc (preempted ctx (inner p)) k) !! loc =
    Some (mkProcess (Process.pid p) (preempted ctx (inner p)))).
  { unfold set_inner. rewrite Hp. simpl. by rewrite lookup_insert_eq. }
  assert (l = loc) as -> by (unfold set_inner in Hl; rewrite Hp in Hl; simpl in Hl; congruence).
  rewrite Hl1 in Hp1. injection Hp1 as <-. simpl in Hwfb.
  erewrite set_inner_twice in Hwfb, Hs by done. by eapply block_switch.
Qed.

(** The caller [cur] of a blocking call can be saved, and whoever may run next has
    its memory. *)
Definition can_block (k : St) (cur : Z) (p : Process) : Prop :=
  (debug_assertions = true → 0 ≤ ticks_passed (inner p) + 1 < 2 ^ 64) ∧
  ∀ q, q ∈ ready_queue k → q ≠ cur → resumable k q.

Lemma block_returns ctx (k : St) cur loc p :
  wf k → running k = Some cur → processes k !! cur = Some loc → procs k !! loc = Some p →
  can_block k cur p →
  ∃ k1 p1 r, save_current cpuid ctx k = Done (cur, k1) ∧
    running k1 = Some cur ∧ processes k1 !! cur = Some loc ∧ procs k1 !! loc = Some p1 ∧
    switch_next cpuid ctx (set_inner loc (Inner.block (inner p1)) k1) = Done r.
Proof.
  intros Hwf Hr Hq Hp [Ht Hres].
  pose proof (save_current_returns cpuid ctx k cur loc p Hwf Hr Hq Hp Ht) as Hsv.
  set (k1 := set_inner loc _ k) in *.
  destruct (saved_block cpuid _ _ _ _ Hwf Hsv) as (l & p1 & Hr1 & Hl1 & Hp1 & Hwfb & _).
  assert (Hk1 : k1 = set_procs (<[loc := mkProcess (Process.pid p) (preempted ctx (inner p))]> (procs k)) k)
    by (unfold k1, set_inner; by rewrite Hp).
  assert (l = loc) as -> by (rewrite Hk1 in Hl1; simpl in Hl1; congruence).
  assert (Hk2 : ∀ x, x ≠ cur → lookup_proc (set_inner loc (Inner.block (inner p1)) k1) x = lookup_proc k x).
  { intros x Hx. destruct (save_current_wf _ _ _ _ _ Hwf Hsv) as (Hwf1 & _).
    rewrite (lookup_set_inner cpuid k1 loc _ cur x p1) by done. rewrite decide_False by done.
    unfold k1. by rewrite (lookup_set_inner cpuid k loc _ cur x p), decide_False by done. }
  assert (Hrun : running (set_inner loc (Inner.block (inner p1)) k1) = Some cur ∧
    ready_queue (set_inner loc (Inner.block (inner p1)) k1) = ready_queue k ∧
    kmem (set_inner loc (Inner.block (inner p1)) k1) = kmem k).
  { unfold set_inner at 1 2 3. rewrite Hp1. simpl. by rewrite Hk1. }
  destruct Hrun as (Hrun & Hqq & Hmm). exists k1, p1.
  set (k2 := set_inner loc (Inner.block (inner p1)) k1) in *.
  assert (∃ r, switch_next cpuid ctx k2 = Done r) as [r ?]; [|by exists r].
  unfold switch_next. rewrite (bind_step _ _ _ _ _ (current_pid_running cpuid k2 cur Hrun)).
  rewrite (bind_step _ _ _ _ _ eq_refl). apply switch_loop_returns; [done|lia|].
  intros x Hx Hne p0 Hl0 Hs0. rewrite Hqq in Hx. rewrite Hk2 in Hl0 by done. rewrite Hmm. by apply (Hres x).
Qed.

Definition exit_status (k : St) (q : Z) : option Z := lookup_proc k q ≫= λ p, exit_code (inner p).

Lemma wait_pid_effect q ctx (k : St) cur p ctx' k' :
  wf k → running k = Some cur → lookup_proc k cur = Some p →
  wait_pid cpuid q ctx k = Done (ctx', k') →
  match exit_status k q with
  | Some ret => ctx' = Context.set_rax (as_usize ret) ctx ∧ k' = k
  | None =>
      lookup_proc k' cur = Some (map_inner (blocked ctx) p) ∧ goes_on k cur ctx ctx' k' ∧
      (∀ w, w ∈ waiters k' q ↔ w = cur ∨ w ∈ waiters k q) ∧
      (∀ x, x ≠ q → waiters k' x = waiters k x) ∧ data k' = data k
  end.
Proof.
  intros Hwf Hr Hl Hs. unfold wait_pid in Hs. apply bind_Done in Hs as (o & k1 & Hw & Hs).
  apply manager_wait_pid_Done in Hw. unfold exit_status. destruct (lookup_proc k q ≫= _) as [ret|].
  { destruct Hw as [-> ->]. by inv_done. }
  destruct Hw as (-> & c & Hc & ->). assert (c = cur) as -> by congruence.
  assert (Hwf1 : wf (add_waiter q cur k)) by (by eapply (sched_eq_wf cpuid k)).
  apply bind_Some in Hl as (loc & Hq & Hp).
  apply bind_Done in Hs as (c & k2 & Hsv & Hs).
  assert (c = cur) as ->.
  { destruct (save_current_wf _ _ _ _ _ Hwf1 Hsv) as (_ & _ & Hx & _). change (running k = Some c) in Hx. congruence. }
  pose proof (saved_block cpuid _ _ _ _ Hwf1 Hsv) as (l & p1 & Hr1 & Hl1 & Hp1 & _).
  pose proof (save_current_Done _ _ _ _ _ Hwf1 Hsv) as (l' & p' & _ & Hq' & Hp' & Hk2). simpl in Hq', Hp'.
  assert (l' = loc) as -> by congruence. assert (p' = p) as -> by congruence.
  apply bind_Done in Hs as (l' & k3 & Hcu & Hs). apply current_Done in Hcu as (-> & c' & Hc' & Hl').
  assert (c' = cur) as -> by congruence. assert (l' = l) as -> by congruence.
  assert (l = loc) as -> by (rewrite Hk2 in Hl1; unfold set_inner in Hl1; simpl in Hl1; rewrite Hp in Hl1; simpl in Hl1; congruence).
  apply bind_Done in Hs as (u & k3 & Hm & Hs). apply modify_inner_Done in Hm as (p2 & Hp2 & ->).
  assert (p2 = p1) as -> by congruence.
  assert (Hi1 : inner p1 = preempted ctx (inner p)).
  { rewrite Hk2 in Hp1. unfold set_inner in Hp1. simpl in Hp1. rewrite Hp in Hp1. simpl in Hp1.
    rewrite lookup_insert_eq in Hp1. by injection Hp1 as <-. }
  rewrite Hi1 in Hs. apply bind_Done in Hs as (r & k3 & Hn & Hs). apply ret_Done in Hs as [<- <-].
  eapply save_block_switch in Hn as (Hlc & Hg & Hwq & Hd); [|exact Hwf1|exact Hsv|exact Hq|exact Hp].
  unfold waiters. rewrite Hwq. simpl. split_and!; [done|exact Hg| | |done].
  - intros w. rewrite lookup_insert_eq. simpl. apply elem_of_btree_insert.
  - intros x Hx. by rewrite lookup_insert_ne.
Qed.

Lemma wait_pid_returns q ctx (k : St) cur p :
  wf k → running k = Some cur → lookup_proc k cur = Some p →
  (exit_status k q = None → can_block k cur p) →
  ∃ r, wait_pid cpuid q ctx k = Done r.
Proof.
  intros Hwf Hr (loc & Hq & Hp)%bind_Some Hb. unfold wait_pid.
  assert (∃ o k1, manager_wait_pid cpuid q k = Done (o, k1)) as (o & k1 & Hm).
  { unfold manager_wait_pid, get_ret, get_proc, read_proc, mbind, M_bind, gets, get, mret, M_ret.
    destruct (processes k !! q) as [l|] eqn:Hl; simpl.
    - destruct (wf_table _ _ Hwf q l Hl) as (pq & -> & _). simpl. destruct (exit_code (inner pq)); [by do 2 eexists|].
      rewrite (current_pid_running cpuid k cur Hr). by do 2 eexists.
    - rewrite (current_pid_running cpuid k cur Hr). by do 2 eexists. }
  rewrite (bind_step _ _ _ _ _ Hm). apply manager_wait_pid_Done in Hm. unfold exit_status in Hb.
  destruct (lookup_proc k q ≫= _) as [ret|]; [destruct Hm as [-> ->]; by eexists|].
  destruct Hm as (-> & c & Hc & ->). assert (c = cur) as -> by congruence.
  assert (Hwf1 : wf (add_waiter q cur k)) by (by eapply (sched_eq_wf cpuid k)).
  destruct (block_returns ctx (add_waiter q cur k) cur loc p) as (k1 & p1 & [r k2] & Hsv & Hr1 & Hq1 & Hp1 & Hn);
    [done..|by destruct (Hb eq_refl)|].
  rewrite (bind_step _ _ _ _ _ Hsv), (bind_step _ _ _ _ _ (current_returns _ _ _ Hr1 Hq1)).
  rewrite (bind_step _ _ _ _ _ (modify_inner_returns _ _ _ _ Hp1)), (bind_step _ _ _ _ _ Hn). by eexists.
Qed.

(** C10: [wait_pid] returns.  When the process has exited, the caller continues at once
    with the exit code in [rax] and nothing else changes.  Otherwise the caller
    is registered as a waiter and blocked with its registers saved, and another
    process that is ready runs with its own saved registers; only when no other
    process is ready the blocked caller itself runs on, as if nothing had
    happened. *)
Theorem wait_pid_spec q ctx (k : St) cur p :
  wf k → running k = Some cur → lookup_proc k cur = Some p →
  (exit_status k q = None → can_block k cur p) →
  ∃ ctx' k', wait_pid cpuid q ctx k = Done (ctx', k') ∧
  match exit_status k q with
  | Some ret => ctx' = Context.set_rax (as_usize ret) ctx ∧ k' = k
  | None =>
      lookup_proc k' cur = Some (map_inner (blocked ctx) p) ∧ goes_on k cur ctx ctx' k' ∧
      (∀ w, w ∈ waiters k' q ↔ w = cur ∨ w ∈ waiters k q) ∧
      (∀ x, x ≠ q → waiters k' x = waiters k x) ∧ data k' = data k
  end.
Proof.
  intros Hwf Hr Hl Hb. destruct (wait_pid_returns q ctx k cur p Hwf Hr Hl Hb) as [[ctx' k'] Hs].
  exists ctx', k'. split; [done|]. by eapply wait_pid_effect.
Qed.

(** ** Semaphores between processes *)

(** The store after the semaphore [key] of the processes sharing [d] became [s]. *)
Definition with_semaphore (d : ProcessData) (key : Z) (s : Semaphore) (ds : DataStore Q) : DataStore Q :=
  mkStore (envs ds) (resources ds)
    (alter (insert key s) (semaphores_ d) (semaphores ds)) (io ds).

Definition sem_table (k : St) (d : ProcessData) (key : Z) : option Semaphore :=
  semaphores (data k) !! semaphores_ d ≫= λ t, t !! key.

Lemma on_sems_Done d key m (ds : DataStore Q) r ds' :
  Data.on_sems d (SemaphoreSet.on_sem key m) ds = Done (r, ds') →
  match semaphores ds !! semaphores_ d ≫= λ t, t !! key with
  | None => r = NotExist ∧ ds' = ds
  | Some s => ∃ s', m s = Done (r, s') ∧ ds' = with_semaphore d key s' ds
  end.
Proof.
  intros Hs. unfold Data.on_sems in Hs. apply bind_Done in Hs as (d0 & d1 & Hg & Hs).
  apply get_Done in Hg as [<- <-]. apply bind_Done in Hs as (t & d1 & Hg & Hs).
  apply unwrap_Done in Hg as [Ht <-]. rewrite Ht. simpl.
  destruct (SemaphoreSet.on_sem key m t) as [[r' t']| |] eqn:E; [|done..].
  apply bind_Done in Hs as (u & d2 & Hu & Hs). unfold Data.set_semaphores in Hu. apply modify_Done in Hu as <-.
  apply ret_Done in Hs as [<- <-]. unfold SemaphoreSet.on_sem in E. apply bind_Done in E as (t0 & t1 & Hg & E).
  apply get_Done in Hg as [<- <-]. destruct (t !! key) as [s|] eqn:Ek.
  - apply zoom_Done in E as (s' & Hm & ->). exists s'. split; [done|]. unfold with_semaphore.
    f_equal. apply map_eq. intros i. destruct (decide (i = semaphores_ d)) as [->|Hne].
    + by rewrite lookup_insert_eq, lookup_alter_eq, Ht.
    + by rewrite lookup_insert_ne, lookup_alter_ne.
  - apply ret_Done in E as [<- <-]. split; [done|]. rewrite insert_id by done. by destruct ds.
Qed.

(** The common beginning of [sem_wait] and [sem_signal]. *)
Lemma on_current_sem cur p d {R} (f : SemaphoreResult → M St R) m key (k : St) r k' :
  wf k → running k = Some cur → lookup_proc k cur = Some p → proc_data (inner p) = Some d →
  (loc ← current cpuid; p ← read_proc loc; d ← unwrap (proc_data (inner p));
   ret ← on_data (Data.on_sems d (SemaphoreSet.on_sem key m)); f ret) k = Done (r, k') →
  match sem_table k d key with
  | None => f NotExist k = Done (r, k')
  | Some s => ∃ ret s', m s = Done (ret, s') ∧
      f ret (set_data (with_semaphore d key s' (data k)) k) = Done (r, k')
  end.
Proof.
  intros Hwf Hr (loc & Hq & Hp)%bind_Some Hd Hs.
  apply bind_Done in Hs as (loc' & k1 & Hc & Hs). apply current_Done in Hc as (-> & q & Hr' & Hq').
  assert (q = cur) as -> by congruence. assert (loc' = loc) as -> by congruence.
  apply bind_Done in Hs as (p' & k1 & Hp' & Hs). apply read_proc_Done in Hp' as [-> Hp'].
  assert (p' = p) as -> by congruence. apply bind_Done in Hs as (d' & k1 & Hu & Hs).
  apply unwrap_Done in Hu as [Hu <-]. assert (d' = d) as -> by congruence.
  apply bind_Done in Hs as (ret & k1 & Hm & Hs). apply on_data_eq in Hm as (_ & ds & Hm & ->).
  apply on_sems_Done in Hm. unfold sem_table. destruct (semaphores (data k) !! _ ≫= _) as [s|].
  - destruct Hm as (s' & Hm & ->). eauto.
  - destruct Hm as [-> ->]. by destruct k.
Qed.

(** The table of semaphores the process shares is in the store. *)
Definition has_semaphores (k : St) (d : ProcessData) : Prop := is_Some (semaphores (data k) !! semaphores_ d).

Lemma on_current_sem_returns cur p d {R} (f : SemaphoreResult → M St R) m key (k : St) :
  running k = Some cur → lookup_proc k cur = Some p → proc_data (inner p) = Some d →
  has_semaphores k d →
  (∀ s, sem_table k d key = Some s → ∃ ret s', m s = Done (ret, s') ∧
     ∃ r, f ret (set_data (with_semaphore d key s' (data k)) k) = Done r) →
  (sem_table k d key = None → ∃ r, f NotExist k = Done r) →
  ∃ r, (loc ← current cpuid; p ← read_proc loc; d ← unwrap (proc_data (inner p));
   ret ← on_data (Data.on_sems d (SemaphoreSet.on_sem key m)); f ret) k = Done r.
Proof.
  intros Hr (loc & Hq & Hp)%bind_Some Hd [t Ht] Hs Hn.
  rewrite (bind_step _ _ _ _ _ (current_returns _ _ _ Hr Hq)).
  rewrite (bind_step _ _ k p k) by (unfold read_proc, mbind, M_bind, get, unwrap; by rewrite Hp).
  rewrite (bind_step _ _ k d k) by (by rewrite Hd).
  unfold sem_table in Hs, Hn. rewrite Ht in Hs, Hn. simpl in Hs, Hn.
  assert (∃ ret ds, Data.on_sems d (SemaphoreSet.on_sem key m) (data k) = Done (ret, ds) ∧
    ∃ r, f ret (set_data ds k) = Done r) as (ret & ds & Ho & r & Hf).
  { unfold Data.on_sems, SemaphoreSet.on_sem, Data.set_semaphores, zoom, mbind, M_bind, get, modify, unwrap.
    rewrite Ht. destruct (t !! key) as [s|] eqn:Ek.
    - destruct (Hs s eq_refl) as (ret & s' & Hm & r & Hf). simpl. rewrite Ek. simpl. rewrite Hm. simpl. do 2 eexists. split; [done|].
      exists r. rewrite <- Hf. do 2 f_equal. unfold with_semaphore. f_equal. apply map_eq. intros i.
      destruct (decide (i = semaphores_ d)) as [->|Hne].
      + by rewrite lookup_insert_eq, lookup_alter_eq, Ht.
      + by rewrite lookup_insert_ne, lookup_alter_ne.
    - simpl. rewrite Ek. simpl. destruct (Hn eq_refl) as [r Hf]. do 2 eexists. split; [done|]. exists r. rewrite <- Hf. f_equal.
      rewrite insert_id by done. by destruct k as [? [] ? ? ? ? ? ? ?]. }
  rewrite (bind_step _ _ k ret (set_data ds k)); [by exists r|]. unfold on_data, zoom. by rewrite Ho.
Qed.

Lemma sem_wait_effect key ctx (k : St) cur p d ctx' k' :
  wf k → running k = Some cur → lookup_proc k cur = Some p → proc_data (inner p) = Some d →
  (∀ s, sem_table k d key = Some s → Semaphore.wf s) →
  sem_wait cpuid key ctx k = Done (ctx', k') →
  match sem_table k d key with
  | None => ctx' = Context.set_rax 1 ctx ∧ k' = k
  | Some s =>
      if count s =? 0 then
        data k' = with_semaphore d key (mkSemaphore 0 (Sync.wait_queue s ++ [cur])) (data k) ∧
        lookup_proc k' cur = Some (map_inner (blocked ctx) p) ∧ goes_on k cur ctx ctx' k'
      else ctx' = Context.set_rax 0 ctx ∧
        k' = set_data (with_semaphore d key (mkSemaphore (count s - 1) (Sync.wait_queue s)) (data k)) k
  end.
Proof.
  intros Hwf Hr Hl Hd Hsw Hs. unfold sem_wait in Hs.
  rewrite (bind_step _ _ _ _ _ (current_pid_running _ _ _ Hr)) in Hs.
  apply (on_current_sem cur p d) in Hs; [|done..].
  destruct (sem_table k d key) as [s|]; [|by apply ret_Done in Hs as [<- <-]].
  destruct Hs as (ret & s' & Hw & Hs). rewrite Semaphore.wait_eq in Hw by auto.
  destruct (count s =? 0); injection Hw as <- <-; [|by apply ret_Done in Hs as [<- <-]].
  set (k1 := set_data _ k) in *. assert (Hwf1 : wf k1) by (by eapply (sched_eq_wf cpuid k)).
  apply bind_Some in Hl as (loc & Hq & Hp).
  apply bind_Done in Hs as (c & k2 & Hsv & Hs).
  assert (c = cur) as ->.
  { destruct (save_current_wf _ _ _ _ _ Hwf1 Hsv) as (_ & _ & Hx & _). change (running k = Some c) in Hx. congruence. }
  pose proof (save_current_Done _ _ _ _ _ Hwf1 Hsv) as (l' & p' & _ & Hq' & Hp' & Hk2).
  assert (l' = loc) as -> by (simpl in Hq'; congruence). assert (p' = p) as -> by (simpl in Hp'; congruence).
  apply bind_Done in Hs as (u & k3 & Hb & Hs). unfold manager_block, get_proc in Hb.
  apply bind_Done in Hb as (o & k4 & Ho & Hb). apply gets_Done in Ho as [<- <-].
  assert (Hq2 : processes k2 !! cur = Some loc) by (rewrite Hk2; unfold set_inner; by rewrite Hp').
  rewrite Hq2 in Hb. apply modify_inner_Done in Hb as (p2 & Hp2 & ->).
  assert (Hi2 : inner p2 = preempted ctx (inner p)).
  { rewrite Hk2 in Hp2. unfold set_inner in Hp2. rewrite Hp' in Hp2. simpl in Hp2.
    rewrite lookup_insert_eq in Hp2. by injection Hp2 as <-. }
  rewrite Hi2 in Hs. apply bind_Done in Hs as (r & k3 & Hn & Hs). apply ret_Done in Hs as [<- <-].
  eapply save_block_switch in Hn as (Hlc & Hg & _ & Hdd); [|exact Hwf1|exact Hsv|done|done].
  split_and!; [by rewrite Hdd|done|exact Hg].
Qed.

Lemma sem_wait_returns key ctx (k : St) cur p d :
  wf k → running k = Some cur → lookup_proc k cur = Some p → proc_data (inner p) = Some d →
  has_semaphores k d → (∀ s, sem_table k d key = Some s → Semaphore.wf s) →
  (∀ s, sem_table k d key = Some s → count s = 0 → can_block k cur p) →
  ∃ r, sem_wait cpuid key ctx k = Done r.
Proof.
  intros Hwf Hr Hl Hd Ht Hs Hb. unfold sem_wait. rewrite (bind_step _ _ _ _ _ (current_pid_running _ _ _ Hr)).
  apply (on_current_sem_returns cur p d); [done..| |by eexists].
  intros s Hk. rewrite Semaphore.wait_eq by auto. destruct (Z.eqb_spec (count s) 0) as [Hz|]; [|do 2 eexists; split; [done|by eexists]].
  do 2 eexists. split; [done|]. set (k1 := set_data _ k).
  assert (Hwf1 : wf k1) by (by eapply (sched_eq_wf cpuid k)). apply bind_Some in Hl as (loc & Hq & Hp).
  destruct (block_returns ctx k1 cur loc p) as (k2 & p2 & [r k3] & Hsv & Hr2 & Hq2 & Hp2 & Hn);
    [done..|by destruct (Hb s Hk Hz)|].
  rewrite (bind_step _ _ _ _ _ Hsv). unfold manager_block, get_proc.
  rewrite (bind_step _ _ k2 () (set_inner loc (Inner.block (inner p2)) k2)); cycle 1.
  { rewrite (bind_step _ _ _ _ _ eq_refl), Hq2. by apply modify_inner_returns. }
  rewrite (bind_step _ _ _ _ _ Hn). by eexists.
Qed.

(** C28: [sem_wait] returns.  A semaphore that does not exist answers 1; one with permits
    gives one and answers 0; on one without, the caller joins the back of its
    queue and is blocked with its registers saved, and the kernel goes on with
    another ready process (or, when there is none, with the caller).  Processes
    that share their data, as a fork does with its parent, share the
    semaphore. *)
Theorem sem_wait_spec key ctx (k : St) cur p d :
  wf k → running k = Some cur → lookup_proc k cur = Some p → proc_data (inner p) = Some d →
  has_semaphores k d → (∀ s, sem_table k d key = Some s → Semaphore.wf s) →
  (∀ s, sem_table k d key = Some s → count s = 0 → can_block k cur p) →
  ∃ ctx' k', sem_wait cpuid key ctx k = Done (ctx', k') ∧
  match sem_table k d key with
  | None => ctx' = Context.set_rax 1 ctx ∧ k' = k
  | Some s =>
      if count s =? 0 then
        data k' = with_semaphore d key (mkSemaphore 0 (Sync.wait_queue s ++ [cur])) (data k) ∧
        lookup_proc k' cur = Some (map_inner (blocked ctx) p) ∧ goes_on k cur ctx ctx' k'
      else ctx' = Context.set_rax 0 ctx ∧
        k' = set_data (with_semaphore d key (mkSemaphore (count s - 1) (Sync.wait_queue s)) (data k)) k
  end.
Proof.
  intros Hwf Hr Hl Hd Ht Hs Hb. destruct (sem_wait_returns key ctx k cur p d Hwf Hr Hl Hd Ht Hs Hb) as [[ctx' k'] Hw].
  exists ctx', k'. split; [done|]. by eapply sem_wait_effect.
Qed.

Lemma sem_signal_effect key ctx (k : St) cur p d ctx' k' :
  wf k → running k = Some cur → lookup_proc k cur = Some p → proc_data (inner p) = Some d →
  (∀ s, sem_table k d key = Some s → Semaphore.wf s ∧ count s < 2 ^ 64 - 1) →
  sem_signal cpuid key ctx k = Done (ctx', k') →
  match sem_table k d key with
  | None => ctx' = Context.set_rax 1 ctx ∧ k' = k
  | Some s =>
      match Sync.wait_queue s with
      | [] => ctx' = Context.set_rax 0 ctx ∧
          k' = set_data (with_semaphore d key (mkSemaphore (count s + 1) []) (data k)) k
      | w :: ws => ctx' = ctx ∧
          data k' = with_semaphore d key (mkSemaphore (count s) ws) (data k) ∧
          (∀ pw, lookup_proc k w = Some pw →
             lookup_proc k' w = Some (map_inner (λ i, Inner.set_status Ready
               (Inner.set_context (Context.set_rax 0 (context i)) i)) pw) ∧
             ready_queue k' = ready_queue k ++ [w]) ∧
          ∀ q, q ≠ w → lookup_proc k' q = lookup_proc k q
      end
  end.
Proof.
  intros Hwf Hr Hl Hd Hsw Hs. unfold sem_signal in Hs.
  rewrite (bind_step _ _ _ _ _ (current_pid_running _ _ _ Hr)) in Hs.
  apply (on_current_sem cur p d) in Hs; [|done..].
  destruct (sem_table k d key) as [s|]; [|by apply ret_Done in Hs as [<- <-]].
  destruct (Hsw s eq_refl) as [Hs1 Hs2]. destruct Hs as (ret & s' & Hw & Hs).
  rewrite Semaphore.signal_eq in Hw by auto.
  destruct (Sync.wait_queue s) as [|w ws]; injection Hw as <- <-; [by apply ret_Done in Hs as [<- <-]|].
  set (k1 := set_data _ k) in *. assert (Hwf1 : wf k1) by (by eapply (sched_eq_wf cpuid k)).
  apply bind_Done in Hs as (u & k2 & Hw & Hs). apply ret_Done in Hs as [<- <-].
  apply wake_up_effect in Hw as (_ & Hdd & _ & _ & Hrq & Hlk); [|done].
  split_and!; [done|by rewrite Hdd| |].
  - intros pw Hpw. rewrite Hlk, decide_True by done.
    change (lookup_proc k1 w) with (lookup_proc k w). rewrite Hpw. split; [done|].
    rewrite Hrq, decide_True; [done|]. apply bind_Some in Hpw as (loc & Hloc & _). unfold known. simpl. by rewrite Hloc.
  - intros q Hq. by rewrite Hlk, decide_False.
Qed.

Lemma sem_signal_returns key ctx (k : St) cur p d :
  wf k → running k = Some cur → lookup_proc k cur = Some p → proc_data (inner p) = Some d →
  has_semaphores k d → (∀ s, sem_table k d key = Some s → Semaphore.wf s ∧ count s < 2 ^ 64 - 1) →
  ∃ r, sem_signal cpuid key ctx k = Done r.
Proof.
  intros Hwf Hr Hl Hd Ht Hs. unfold sem_signal. rewrite (bind_step _ _ _ _ _ (current_pid_running _ _ _ Hr)).
  apply (on_current_sem_returns cur p d); [done..| |by eexists].
  intros s Hk. destruct (Hs s Hk). rewrite Semaphore.signal_eq by auto.
  destruct (Sync.wait_queue s) as [|w ws]; (do 2 eexists; split; [done|]); [by eexists|].
  edestruct (wake_up_returns w 0) as [k1 Hw]; [|rewrite (bind_step _ _ _ _ _ Hw); by eexists].
  by eapply (sched_eq_wf cpuid k).
Qed.

(** C29: [sem_signal] returns.  A semaphore that does not exist answers 1; when nobody
    waits, a permit is added and the answer is 0; otherwise the process at the
    front of the queue becomes ready, with 0 in [rax] and its other registers
    as they were saved, and the caller goes on with its registers unchanged:
    what it finds in [rax] is the number of the system call. *)
Theorem sem_signal_spec key ctx (k : St) cur p d :
  wf k → running k = Some cur → lookup_proc k cur = Some p → proc_data (inner p) = Some d →
  has_semaphores k d → (∀ s, sem_table k d key = Some s → Semaphore.wf s ∧ count s < 2 ^ 64 - 1) →
  ∃ ctx' k', sem_signal cpuid key ctx k = Done (ctx', k') ∧
  match sem_table k d key with
  | None => ctx' = Context.set_rax 1 ctx ∧ k' = k
  | Some s =>
      match Sync.wait_queue s with
      | [] => ctx' = Context.set_rax 0 ctx ∧
          k' = set_data (with_semaphore d key (mkSemaphore (count s + 1) []) (data k)) k
      | w :: ws => ctx' = ctx ∧
          data k' = with_semaphore d key (mkSemaphore (count s) ws) (data k) ∧
          (∀ pw, lookup_proc k w = Some pw →
             lookup_proc k' w = Some (map_inner (λ i, Inner.set_status Ready
               (Inner.set_context (Context.set_rax 0 (context i)) i)) pw) ∧
             ready_queue k' = ready_queue k ++ [w]) ∧
          ∀ q, q ≠ w → lookup_proc k' q = lookup_proc k q
      end
  end.
Proof.
  intros Hwf Hr Hl Hd Ht Hs. destruct (sem_signal_returns key ctx k cur p d Hwf Hr Hl Hd Ht Hs) as [[ctx' k'] Hw].
  exists ctx', k'. split; [done|]. by eapply sem_signal_effect.
Qed.

End Lifecycle.

(** ** Examples *)

Section LifecycleWitnesses.
#[local] Existing Instance x86_ref.
#[local] Existing Instance release.

Definition proc1 : Process := mkProcess 1 (inner_example Running 10 0 stack_example).
Definition kill_example : Kernel table queue :=
  state_of (manager_kill offset_example 2 7 kernel_example) kernel_example.
Definition wait_example : Kernel table queue :=
  state_of (wait_pid 0 3 (regs_example 61) kernel_example) kernel_example.
Definition sem_wait_example : Kernel table queue :=
  state_of (sem_wait 0 7 (regs_example 63) kernel_example) kernel_example.
Definition sem_signal_example : Kernel table queue :=
  state_of (sem_signal 0 7 (regs_example 63) kernel_example) kernel_example.

Lemma state_of_Done {S A} (o : outcome (A * S)) s a s' : o = Done (a, s') → state_of o s = s'.
Proof. by intros ->. Qed.

Lemma can_block_example : can_block kernel_example 1 proc1.
Proof.
  split; [done|]. intros q Hq Hne p Hp Hs. apply elem_of_cons in Hq as [->|Hq%list_elem_of_singleton].
  - vm_compute in Hp. injection Hp as <-. discriminate Hs.
  - subst q. vm_compute in Hp. injection Hp as <-. eexists _, _, _. split; [reflexivity|vm_compute; reflexivity].
Qed.

Lemma manager_kill_spec_witness :
  lookup_proc kill_example 2 = Some (map_inner (killed 7) (mkProcess 2 (inner_example Ready 20 0 forked_child))) ∧
  get_ret 2 kill_example = Done (Some 7, kill_example) ∧ 4 ∈ ready_queue kill_example.
Proof.
  destruct (manager_kill_spec offset_example 0 2 7 kernel_example
    (mkProcess 2 (inner_example Ready 20 0 forked_child)))
    as (k' & Hk & _ & H1 & H2 & H3 & _).
  - apply kernel_example_wf.
  - vm_compute. reflexivity.
  - vm_compute. intros Hin. by apply list_elem_of_singleton in Hin.
  - intros v [= <-]. eexists. vm_compute. reflexivity.
  - apply (state_of_Done _ kernel_example) in Hk as <-. split_and!; [exact H1|exact H2|]. apply (H3 4 (mkProcess 4 dead_example)).
    + by left.
    + vm_compute. reflexivity.
Defined.

Lemma wait_pid_spec_witness :
  lookup_proc wait_example 1 = Some (map_inner (blocked (regs_example 61)) proc1) ∧
  ∃ ctx', goes_on 0 kernel_example 1 (regs_example 61) ctx' wait_example.
Proof.
  destruct (wait_pid_spec 0 3 (regs_example 61) kernel_example 1 proc1) as (ctx' & k' & Hk & Hx);
    [apply kernel_example_wf|vm_compute; reflexivity..|intros _; apply can_block_example|].
  assert (E : exit_status kernel_example 3 = None) by (vm_compute; reflexivity). rewrite E in Hx.
  apply (state_of_Done _ kernel_example) in Hk as <-. destruct Hx as (H1 & H2 & _). split; [exact H1|]. exists ctx'. exact H2.
Defined.

Lemma sem_wait_spec_witness :
  data sem_wait_example =
    with_semaphore (mkProcessData 0 0 0) 7 (mkSemaphore 0 [3; 1]) (data kernel_example) ∧
  lookup_proc sem_wait_example 1 = Some (map_inner (blocked (regs_example 63)) proc1).
Proof.
  assert (E : sem_table kernel_example (mkProcessData 0 0 0) 7 = Some (mkSemaphore 0 [3]))
    by (vm_compute; reflexivity).
  destruct (sem_wait_spec 0 7 (regs_example 63) kernel_example 1 proc1 (mkProcessData 0 0 0))
    as (ctx' & k' & Hk & Hx); [apply kernel_example_wf|vm_compute; reflexivity..| | | |].
  - by eexists.
  - rewrite E. intros s [= <-]. split; [simpl; lia|by left].
  - intros _ _ _. apply can_block_example.
  - rewrite E in Hx. apply (state_of_Done _ kernel_example) in Hk as <-. destruct Hx as (H1 & H2 & _). by split.
Defined.

Lemma sem_signal_spec_witness :
  ready_queue sem_signal_example = ready_queue kernel_example ++ [3].
Proof.
  assert (E : sem_table kernel_example (mkProcessData 0 0 0) 7 = Some (mkSemaphore 0 [3]))
    by (vm_compute; reflexivity).
  destruct (sem_signal_spec 0 7 (regs_example 63) kernel_example 1 proc1 (mkProcessData 0 0 0))
    as (ctx' & k' & Hk & Hx); [apply kernel_example_wf|vm_compute; reflexivity..| | |].
  - by eexists.
  - rewrite E. intros s [= <-]. split; [split; [simpl; lia|by left]|simpl; lia].
  - rewrite E in Hx. apply (state_of_Done _ kernel_example) in Hk as <-. destruct Hx as (_ & _ & H2 & _).
    apply (H2 (mkProcess 3 (inner_example Blocked 30 0 stack_example))). vm_compute. reflexivity.
Defined.

End LifecycleWitnesses.
