(* ===== verification/Fork.v ===== *)
(** [fork]: what the parent and the child continue with, and why the call cannot
    succeed in a build with debug assertions. *)
From S2P Require Import Prelude Arch Pid Sync Frames Elf Stack Heap Vm Context Resource Data Process Manager Scheduler KernelExample.
From stdpp Require Import strings.
#[local] Open Scope Z_scope.

Section Fork.
Context `{Profile} `{X86_64} {PT Q : Type} `{Mapper PT} `{ArrayQueue Q}.
Context (PHYSICAL_OFFSET : option Z) (cpuid : nat).
#[local] Abbreviation St := (Kernel PT Q).
#[local] Abbreviation wf := (wf cpuid).
#[local] Abbreviation running := (running cpuid).

Definition with_stack_pointer (sp : Z) (c : ProcessContext) : ProcessContext :=
  let f := stack_frame (value c) in
  mkContext (mkValue (regs (value c))
    (mkFrame (instruction_pointer f) (code_segment f) (cpu_flags f) sp (stack_segment f))).

(** What a fork makes of the parent's part [i], interrupted with [ctx]. *)
Record forked_child (ctx : ProcessContext) (parent_ : nat) (i ci : ProcessInner) (v : ProcessVm) : Prop := {
  fc_context : ∃ cv off sp, proc_vm ci = Some cv ∧
    off = wrap 64 (range_start (stack cv) - range_start (stack v)) ∧
    VirtAddr_add (stack_pointer (stack_frame (value ctx))) off = Some sp ∧
    context ci = Context.set_rax 0 (with_stack_pointer sp ctx) ∧
    page_table cv = page_table v ∧ heap cv = heap v;
  fc_data : proc_data ci = proc_data i;
  fc_parent : parent ci = Some parent_;
  fc_children : children ci = [];
  fc_exit : exit_code ci = None;
}.

Lemma stack_offset_Done self old (m : Mem PT) off m' :
  on_machine (StackOps.stack_offset self old) m = Done (off, m') →
  off = wrap 64 (range_start self - range_start old).
Proof.
  intros Ho. apply on_machine_Done in Ho as (t & Ho & _). unfold StackOps.stack_offset in Ho.
  apply bind_Done in Ho as (o & s1 & Hw & Ho). apply word_op_Done in Hw as [_ Hw].
  apply bind_Done in Ho as (u & s2 & _ & Ho). apply ret_Done in Ho as [<- _].
  destruct Hw as [[? ->]|(_ & _ & ->)]; [by rewrite wrap_small|done].
Qed.

Lemma Vm_fork_shares v n (m : Mem PT) c m' :
  Vm.fork PHYSICAL_OFFSET v n m = Done (c, m') → page_table c = page_table v ∧ heap c = heap v.
Proof.
  unfold Vm.fork, PageTableContext.fork. intros Hf. apply bind_Done in Hf as (a & m1 & Hc & Hf).
  assert (a = page_table v) as ->.
  { unfold Arc_clone in Hc. inv_done. done. }
  inv_done. split; [done|]. unfold Heap_fork. by destruct (heap v).
Qed.

Lemma inner_fork_child ctx loc i (m : Mem PT) ci m' :
  inner_wf i → Inner.fork PHYSICAL_OFFSET loc (preempted ctx i) m = Done (ci, m') →
  ∃ v, proc_vm i = Some v ∧ forked_child ctx loc i ci v ∧ status ci = Ready ∧ inner_wf ci.
Proof.
  intros Hi Hf. assert (Hiw : inner_wf (preempted ctx i)).
  { destruct Hi as (? & ? & ?). by split_and!. }
  apply inner_fork_Done in Hf as (Hst & Hw & _ & Hpar & Hch & Hdata & v & cv & off & sp & m1 & Hv & Hcv & Hfk & Hoff & Hsp & Hctx);
    [|done].
  apply stack_offset_Done in Hoff. apply Vm_fork_shares in Hfk as [Hpt Hh].
  exists v. split_and!; [done| |done|done]. split; try done.
  - exists cv, off, sp. by split_and!.
  - apply (proj2 (proj1 Hw)). by rewrite Hcv.
Qed.

(** The table after [save_current] and [ProcessManager::fork]. *)
Lemma fork_table ctx (k : St) cur loc p k1 u k2 :
  wf k → NEXT_PID k + 1 < 2 ^ 16 → processes k !! cur = Some loc → procs k !! loc = Some p →
  save_current cpuid ctx k = Done (cur, k1) → manager_fork PHYSICAL_OFFSET cpuid k1 = Done (u, k2) →
  ∃ v ci cl, proc_vm (inner p) = Some v ∧ forked_child ctx loc (inner p) ci v ∧ status ci = Ready ∧
    wf k2 ∧ running k2 = Some cur ∧ ready_queue k2 = ready_queue k ++ [NEXT_PID k] ∧
    lookup_proc k (NEXT_PID k) = None ∧ cur ≠ NEXT_PID k ∧
    lookup_proc k2 (NEXT_PID k) = Some (mkProcess (NEXT_PID k) ci) ∧
    lookup_proc k2 cur = Some (mkProcess cur (forked_parent cl (NEXT_PID k) (preempted ctx (inner p)))) ∧
    ∀ q, q ≠ cur → q ≠ NEXT_PID k → lookup_proc k2 q = lookup_proc k q.
Proof.
  intros Hwf Hn Hq Hp Hsv Hf.
  destruct (save_current_wf _ _ _ _ _ Hwf Hsv) as (Hwf1 & Hr1 & Hr & Hq1 & Hps1 & _).
  apply save_current_Done in Hsv as (l & p' & _ & Hl & Hp' & Hk1); [|done].
  assert (l = loc) as -> by congruence. assert (p' = p) as -> by congruence.
  destruct (wf_table _ _ Hwf cur loc Hq) as (p' & Hp2 & Hpid & Hi).
  assert (p' = p) as -> by congruence.
  assert (Hn1 : NEXT_PID k1 = NEXT_PID k) by (rewrite Hk1; apply (frame_set_inner cpuid)).
  assert (Hpr1 : procs k1 !! loc = Some (mkProcess cur (preempted ctx (inner p)))).
  { rewrite Hk1. unfold set_inner. rewrite Hp, Hpid. simpl. by rewrite lookup_insert_eq. }
  assert (Hl1 : ∀ q, q ≠ cur → lookup_proc k1 q = lookup_proc k q).
  { intros q Hne. rewrite Hk1. rewrite (lookup_set_inner cpuid k loc _ cur q p), decide_False; done. }
  destruct (manager_fork_wf _ _ _ _ _ Hwf1 ltac:(by rewrite Hn1) Hf) as (Hwf2 & Hr2 & _).
  apply manager_fork_Done in Hf as (q & l & p3 & ci & m & Hr' & Hq' & Hp3 & Hfk & Hk2); [|done|by rewrite Hn1].
  assert (q = cur) as -> by congruence. assert (l = loc) as -> by congruence.
  assert (p3 = mkProcess cur (preempted ctx (inner p))) as -> by congruence. simpl in Hfk, Hk2.
  apply inner_fork_child in Hfk as (v & Hv & Hfc & Hst & Hciw); [|done].
  set (cl := fresh (dom (procs k1))) in *. rewrite Hn1 in Hk2.
  set (k3 := set_inner loc _ _) in Hk2. exists v, ci, cl.
  assert (Hwfm : wf (set_kmem m k1)) by (by apply wf_set_kmem).
  assert (Hcur : cur ≠ NEXT_PID k) by (destruct (wf_pids _ _ Hwf cur); [by rewrite Hq|lia]).
  assert (Hl3 : ∀ w, lookup_proc k3 w = if decide (w = cur)
    then Some (mkProcess cur (forked_parent cl (NEXT_PID k) (preempted ctx (inner p)))) else lookup_proc k1 w).
  { intros w. by apply (lookup_set_inner cpuid (set_kmem m k1) loc _ cur w
      (mkProcess cur (preempted ctx (inner p)))). }
  assert (Hfree : procs k3 !! cl = None).
  { unfold k3, set_inner. simpl. rewrite Hpr1. simpl.
    rewrite lookup_insert_ne; [apply not_elem_of_dom, is_fresh|].
    intros Heq. rewrite Heq in Hpr1. apply elem_of_dom_2 in Hpr1. by apply (is_fresh (dom (procs k1))). }
  assert (Hwf3 : wf k3).
  { eapply wf_set_inner; [exact Hwfm|exact Hq'|exact Hpr1| | |done].
    - apply forked_parent_wf. destruct Hi as (? & ? & ?). by split_and!.
    - intros _. left. by rewrite <- Hr1. }
  assert (Hn3 : NEXT_PID k3 = NEXT_PID k) by (rewrite <- Hn1; apply (frame_set_inner cpuid _ _ (set_kmem m k1))).
  destruct (add_process_wf cpuid cl (mkProcess (NEXT_PID k) ci) k3 Hwf3 Hfree) as (_ & _ & _ & Hl2);
    [done|by rewrite Hn3|done|done|]. simpl in Hl2.
  split_and!; [done..|congruence| | |done| | |].
  - rewrite Hk2. simpl. unfold k3, set_inner. simpl. rewrite Hpr1. simpl. by rewrite Hq1.
  - unfold lookup_proc. destruct (processes k !! NEXT_PID k) as [x|] eqn:E; [|done].
    destruct (wf_pids _ _ Hwf (NEXT_PID k)); [by rewrite E|lia].
  - rewrite Hk2. unfold lookup_proc. simpl. rewrite lookup_insert_eq. simpl. by rewrite lookup_insert_eq.
  - rewrite Hk2, Hl2, Hl3, decide_True by done. done.
  - intros w Hw1 Hw2. rewrite Hk2, Hl2, Hl3, decide_False, Hl1 by done. done.
Qed.

(** [switch_next] after a fork: the child [c] is ready and queued before the parent,
    so a process before it or the child itself runs next. *)
Lemma fork_next ctx (k2 : St) cur c rq r k' :
  wf (set_ready (rq ++ [c; cur]) k2) → running k2 = Some cur → cur ∉ rq → cur ≠ c → is_ready k2 c = true →
  switch_next cpuid ctx (set_ready (rq ++ [c; cur]) k2) = Done (r, k') →
  ∃ next dropped rest loc p v reg, rq ++ [c; cur] = dropped ++ next :: rest ∧
    (∀ q, q ∈ dropped → q ≠ c ∧ q ≠ cur ∧ is_ready k2 q = false) ∧ next ≠ cur ∧
    processes k2 !! next = Some loc ∧ procs k2 !! loc = Some p ∧
    r.2 = context (inner p) ∧ k' = started cpuid (set_ready (rq ++ [c; cur]) k2) next loc p v reg rest.
Proof.
  intros Hwf Hr Hnq Hcc Hcr Hs. apply switch_next_Done in Hs as (x & Hx & Hs); [|done].
  change (running k2 = Some x) in Hx. assert (x = cur) as -> by congruence.
  rewrite first_ready_set_ready in Hs. cbn [set_ready ready_queue] in Hs.
  destruct (first_ready k2 (rq ++ [c; cur])) as [[next rest]|] eqn:E; cycle 1.
  { apply first_ready_None in E. rewrite Forall_forall in E. specialize (E c ltac:(set_solver)). simpl in E. congruence. }
  apply first_ready_Some in E as (_ & dropped & Hqueue & Hd). rewrite Forall_forall in Hd. simpl in Hd.
  assert (Hpre : ∃ post, rq ++ [c] = dropped ++ next :: post).
  { pose proof Hqueue as Hx'. change [c; cur] with ([c] ++ [cur]) in Hx'. rewrite app_assoc in Hx'.
    destruct (decide (rest = [])) as [->|Hne].
    - apply app_inj_tail in Hx' as [Hx' _]. exfalso. specialize (Hd c). rewrite <- Hx' in Hd.
      rewrite Hd in Hcr; [done|set_solver].
    - destruct (exists_last Hne) as (post & y & ->). exists post.
      rewrite app_comm_cons, app_assoc in Hx'. by apply app_inj_tail in Hx' as [Hx' _]. }
  assert (Hin : ∀ q, q ∈ dropped ∨ q = next → q ≠ cur).
  { destruct Hpre as [post Hx']. intros q Hq ->. assert (Hi : cur ∈ rq ++ [c]) by (rewrite Hx'; set_solver).
    apply elem_of_app in Hi as [?|?%list_elem_of_singleton]; done. }
  rewrite decide_False in Hs by auto.
  destruct Hs as (l & pn & vn & reg & n & Hl & Hpn & _ & _ & _ & -> & ->).
  exists next, dropped, rest, l, pn, vn, reg. split_and!; try done; [|auto|by destruct (context (inner pn))].
  intros q Hq. split_and!; [|auto|auto]. intros ->. rewrite Hd in Hcr; done.
Qed.

(** C5: [fork] returns twice.  The child, under a pid that was not in use, has the
    parent's registers except [rax], which is 0, and the stack pointer, which is
    moved as far as the child's stack lies from the parent's; it shares the
    parent's page table, heap and data (descriptors, semaphores, environment).
    The parent's saved registers are the interrupted ones with the child's pid in
    [rax].  The child is queued behind the processes that were ready, the parent
    behind the child, and the first of these that is ready runs. *)
Theorem fork_spec ctx (k : St) cur loc p ctx' k' :
  wf k → NEXT_PID k + 1 < 2 ^ 16 → running k = Some cur → cur ∉ ready_queue k →
  processes k !! cur = Some loc → procs k !! loc = Some p →
  fork PHYSICAL_OFFSET cpuid ctx k = Done (ctx', k') →
  ∃ v child par next pn dropped rest,
    proc_vm (inner p) = Some v ∧ lookup_proc k (NEXT_PID k) = None ∧
    lookup_proc k' (NEXT_PID k) = Some child ∧ forked_child ctx loc (inner p) (inner child) v ∧
    lookup_proc k' cur = Some par ∧ context (inner par) = Context.set_rax (NEXT_PID k) ctx ∧
    status (inner par) = Ready ∧
    (∀ q, q ≠ cur → q ≠ NEXT_PID k → q ≠ next → lookup_proc k' q = lookup_proc k q) ∧
    ready_queue k ++ [NEXT_PID k; cur] = dropped ++ next :: rest ∧ ready_queue k' = rest ∧
    (∀ q, q ∈ dropped → q ≠ NEXT_PID k ∧ is_ready k q = false) ∧
    next ≠ cur ∧ running k' = Some next ∧ lookup_proc k' next = Some pn ∧ ctx' = context (inner pn).
Proof.
  intros Hwf Hn Hr Hnq Hq Hp Hs. unfold fork in Hs. apply bind_Done in Hs as (c & k1 & Hsv & Hs).
  assert (c = cur) as ->.
  { destruct (save_current_wf _ _ _ _ _ Hwf Hsv) as (_ & _ & Hx & _). congruence. }
  apply bind_Done in Hs as (u & k2 & Hf & Hs).
  destruct (fork_table _ _ _ _ _ _ _ _ Hwf Hn Hq Hp Hsv Hf)
    as (v & ci & cl & Hv & Hfc & Hst & Hwf2 & Hr2 & Hq2 & Hfree & Hcne & Hlc & Hlp & Hlo).
  apply bind_Done in Hs as (u' & k3 & Hpu & Hs). unfold push_ready in Hpu. apply modify_Done in Hpu as <-.
  apply bind_Done in Hs as (r & k3 & Hsn & Hs). apply ret_Done in Hs as [<- <-].
  assert (Hwf3 : wf (set_ready (ready_queue k2 ++ [cur]) k2)).
  { apply wf_push; [done|]. apply bind_Some in Hlp as (? & -> & _). done. }
  rewrite Hq2, <- app_assoc in Hsn, Hwf3. simpl in Hsn, Hwf3.
  apply fork_next in Hsn as (next & dropped & rest & l & pn & vn & reg & Hqueue & Hd & Hnc & Hl & Hpn & Hr2' & ->);
    [|done..|by eapply is_ready_true].
  set (k3 := set_ready (ready_queue k ++ [NEXT_PID k; cur]) k2) in *.
  assert (Hls : ∀ q, lookup_proc (started cpuid k3 next l pn vn reg rest) q =
    if decide (q = next) then Some (mkProcess next (Inner.set_status Running (inner pn))) else lookup_proc k2 q)
    by (intros; by apply (lookup_started cpuid k3)).
  assert (Hln : lookup_proc k2 next = Some pn) by (by eapply lookup_proc_Some).
  set (child := if decide (NEXT_PID k = next) then mkProcess next (Inner.set_status Running (inner pn))
                else mkProcess (NEXT_PID k) ci).
  exists v, child, (mkProcess cur (forked_parent cl (NEXT_PID k) (preempted ctx (inner p)))), next,
    (mkProcess next (Inner.set_status Running (inner pn))), dropped, rest.
  split_and!; try done.
  - rewrite Hls. unfold child. by destruct (decide _).
  - unfold child. destruct (decide _) as [Heq|]; [|done]. rewrite <- Heq, Hlc in Hln. injection Hln as <-.
    by destruct Hfc.
  - by rewrite Hls, decide_False.
  - intros q H1' H2' H3'. rewrite Hls, decide_False by done. by apply Hlo.
  - intros q Hin. destruct (Hd q Hin) as (Hqc & Hqcur & Hir). split; [done|]. unfold is_ready in *. by rewrite Hlo in Hir.
  - by apply running_started.
  - by rewrite Hls, decide_True.
Qed.

(** ** With debug assertions *)

Lemma fork_loop_checked fuel root n top (s : Machine PT BootInfoFrameAllocator) top' s' :
  debug_assertions = true → 0 ≤ top < 2 ^ 64 → StackOps.fork_loop fuel root n top s = Done (top', s') →
  ∃ j, top' = top - Z.of_nat j * STACK_MAX_SIZE ∧ 0 ≤ top'.
Proof.
  intros Hd. revert top s. induction fuel as [|fuel IH]; intros top s Ht Hl; [done|]. simpl in Hl.
  apply bind_Done in Hl as (r & s1 & _ & Hl). destruct r as [rng|e].
  { inv_done. exists 0%nat. lia. }
  apply bind_Done in Hl as (t & s2 & Hw & Hl). apply word_op_Done in Hw as [-> Hw].
  destruct Hw as [[Hge ->]|(Hf & _)]; [|congruence].
  apply IH in Hl as (j & -> & Hj); [|done]. exists (S j). split; [lia|done].
Qed.

Context `{!X86_64_Laws _}.

(** The distance of the stacks is a multiple of a slot that is not positive. *)
Lemma stack_fork_checked root active offset count (self child : Stack) (s s' : Machine PT BootInfoFrameAllocator) :
  debug_assertions = true → stack_wf self → 0 ≤ count →
  StackOps.fork root active offset self count s = Done (child, s') →
  ∃ j, 0 ≤ j ∧ range_start child - range_start self = - (j * STACK_MAX_SIZE).
Proof.
  intros Hd (Hal & _ & Hb & He & _) Hc Hf. unfold StackOps.fork in Hf.
  apply bind_Done in Hf as (skip & s0 & Hw & Hf). apply word_op_Done in Hw as [-> [[Hr ->]|(Hx & _)]]; [|congruence].
  apply bind_Done in Hf as (top & s0 & Hw & Hf). apply word_op_Done in Hw as [-> [[Hr' ->]|(Hx & _)]]; [|congruence].
  apply bind_Done in Hf as (top' & s1 & Hl & Hf). apply fork_loop_checked in Hl as (j & Htop & H0'); [|done|done].
  apply bind_Done in Hf as (u & s2 & _ & Hf). apply bind_Done in Hf as (va & s3 & Hva & Hf).
  apply unwrap_Done in Hva as [Hva _]. apply bind_Done in Hf as (stop & s4 & _ & Hf).
  apply ret_Done in Hf as [<- _]. simpl. exists (count + Z.of_nat j).
  assert (Hlt : top' < 2 ^ 47).
  { unfold STACK_MAX_SIZE, STACK_MAX_PAGES, PAGE in *. lia. }
  rewrite VirtAddr_new_canonical in Hva by (by left). injection Hva as <-.
  rewrite Page_containing_address_eq by (by left).
  assert (top' `mod` PAGE = 0) as ->; [|lia].
  rewrite Htop. unfold aligned, STACK_MAX_SIZE, STACK_MAX_PAGES, PAGE in *. Z.div_mod_to_equations. lia.
Qed.

(** The running process has its memory, with a well-formed stack. *)
Definition forkable (k : St) : Prop :=
  ∃ cur loc p v, running k = Some cur ∧ processes k !! cur = Some loc ∧ procs k !! loc = Some p ∧
    proc_vm (inner p) = Some v ∧ stack_wf (stack v).

(** In a build with debug assertions [fork] never succeeds: the distance of the
    child's stack from the parent's is a multiple of the 4 GiB slots below, so
    either the subtraction overflows or, for distance 0, the assertion, whose
    test is the wrong way round, fails. *)
Theorem fork_checked_panics ctx (k : St) r :
  debug_assertions = true → wf k → forkable k → fork PHYSICAL_OFFSET cpuid ctx k ≠ Done r.
Proof.
  intros Hd Hwf (cur & loc & p & v & Hr & Hq & Hp & Hv & Hst) Hs. destruct r as [ctx' k']. unfold fork in Hs.
  apply bind_Done in Hs as (c & k1 & Hsv & Hs).
  destruct (save_current_wf _ _ _ _ _ Hwf Hsv) as (Hwf1 & Hr1 & Hr' & _ & Hps & _).
  apply save_current_Done in Hsv as (l & p' & _ & Hl & Hp' & Hk1); [|done].
  assert (c = cur) as -> by congruence. assert (l = loc) as -> by congruence. assert (p' = p) as -> by congruence.
  apply bind_Done in Hs as (u & k2 & Hf & _). unfold manager_fork in Hf.
  apply bind_Done in Hf as (l & k3 & Hc & Hf). apply current_Done in Hc as (-> & q & Hq1 & Hl1).
  assert (l = loc) as -> by congruence. apply bind_Done in Hf as (child & k3 & Hf & _).
  apply proc_fork_Done in Hf as (p1 & ci & m & Hp1 & Hf & _).
  assert (p1 = mkProcess (Process.pid p) (preempted ctx (inner p))) as ->.
  { rewrite Hk1 in Hp1. unfold set_inner in Hp1. rewrite Hp in Hp1. simpl in Hp1.
    rewrite lookup_insert_eq in Hp1. by injection Hp1 as <-. }
  destruct (wf_table _ _ Hwf cur loc Hq) as (p2 & Hp2 & _ & Hi). assert (p2 = p) as -> by congruence.
  apply inner_fork_Done in Hf as (_ & _ & _ & _ & _ & _ & v' & cv & off & sp & m1 & Hv' & _ & Hfk & Hoff & _);
    [|destruct Hi as (? & ? & ?); by split_and!].
  simpl in Hv'. assert (v' = v) as -> by congruence. unfold Vm.fork in Hfk.
  do 4 apply bind_Done in Hfk as (? & ? & _ & Hfk). apply bind_Done in Hfk as (st & m2 & Hsf & Hfk).
  apply ret_Done in Hfk as [<- _]. simpl in Hoff. apply on_machine_Done in Hsf as (t & Hsf & _).
  apply stack_fork_checked in Hsf as (j & Hj & Hdist); [|done|done|lia].
  apply on_machine_Done in Hoff as (t' & Hoff & _). unfold StackOps.stack_offset in Hoff. rewrite Hdist in Hoff.
  apply bind_Done in Hoff as (o & s1 & Hw & Hoff). apply word_op_Done in Hw as [_ [[Hr0 ->]|(Hx & _)]]; [|congruence].
  assert (j = 0) as -> by (unfold STACK_MAX_SIZE, STACK_MAX_PAGES in Hr0; lia).
  apply bind_Done in Hoff as (u1 & s2 & Ha & _). apply debug_assert_Done in Ha as [_ Ha]. by specialize (Ha Hd).
Qed.

End Fork.

(** ** Examples *)

Section ForkWitnesses.
#[local] Existing Instance x86_ref.

Definition fork_context : ProcessContext :=
  mkContext (mkValue (regs (value (regs_example 58))) (mkFrame 0x400000 8 0x200 STACK_INIT_TOP 16)).

(** The example with some free frames. *)
Definition fork_before : Kernel table queue :=
  let m := kmem kernel_example in
  set_kmem (mkMem (mkMachine (tables (machine m)) (mkAllocator 10 5 [] [0x20000; 0x21000; 0x22000]) (Elf.mem (machine m)))
              (arcs m) (ends m) (cr3 m)) kernel_example.

Lemma fork_before_wf : wf 0 fork_before.
Proof. apply wfb_wf. vm_compute. reflexivity. Qed.

Definition fork_after : Kernel table queue :=
  state_of (fork (H := release) offset_example 0 fork_context fork_before) fork_before.

Lemma fork_spec_witness :
  ∃ child par, lookup_proc fork_after 5 = Some child ∧
    forked_child fork_context 10 (inner_example Running 10 0 stack_example) (inner child)
      (mkVm 0 stack_example (mkHeap HEAP_START 0) [] 0) ∧
    lookup_proc fork_after 1 = Some par ∧ context (inner par) = Context.set_rax 5 fork_context.
Proof.
  destruct (fork_spec (H := release) offset_example 0 fork_context fork_before 1 10%nat
    (mkProcess 1 (inner_example Running 10 0 stack_example)) (regs_example 20) fork_after)
    as (v & child & par & next & pn & dr & rest & Hv & _ & Hc & Hf & Hp & Hcp & _).
  - apply fork_before_wf.
  - simpl. lia.
  - reflexivity.
  - vm_compute. intros Hin. apply elem_of_cons in Hin as [?|Hin%list_elem_of_singleton]; discriminate.
  - vm_compute. reflexivity.
  - vm_compute. reflexivity.
  - apply value_state. vm_compute. reflexivity.
  - exists child, par. simpl in Hv. injection Hv as <-. split_and!; assumption.
Defined.

Lemma fork_checked_panics_witness :
  fork (H := debug) offset_example 0 fork_context fork_before ≠ Done (fork_context, fork_before).
Proof.
  apply (fork_checked_panics (H := debug) offset_example 0 fork_context fork_before (fork_context, fork_before)).
  - reflexivity.
  - apply fork_before_wf.
  - exists 1, 10%nat, (mkProcess 1 (inner_example Running 10 0 stack_example)),
      (mkVm 0 stack_example (mkHeap HEAP_START 0) [] 0).
    split_and!; [reflexivity|vm_compute; reflexivity..|apply stack_example_wf].
Defined.

End ForkWitnesses.
