(* ===== verification/Dispatch.v ===== *)
(** The system call dispatcher, case by case: most calls only touch the memory of
    the process that makes them and the data it shares; the others are the
    operations of the process manager. *)
From S2P Require Import Prelude Arch Pid Sync Frames Elf Stack Heap Vm Context Resource Data Process Manager Utils Listing Syscall Scheduler KernelExample Lifecycle.
From stdpp Require Import strings relations.
#[local] Open Scope Z_scope.

(** ** Programs that keep a relation *)

(** Whenever [m] returns, it has gone along [R]. *)
Definition keeping {S A} (R : relation S) (m : M S A) : Prop := ∀ s a s', m s = Done (a, s') → R s s'.

Section Keeping.
Context {S : Type} (R : relation S) `{!PreOrder R}.

Lemma keeping_bind {A B} (m : M S A) (f : A → M S B) :
  keeping R m → (∀ a, keeping R (f a)) → keeping R (m ≫= f).
Proof. intros Hm Hf s b s' (a & s1 & H1 & H2)%bind_Done. etrans; [by eapply Hm|by eapply Hf]. Qed.
Lemma keeping_ret {A} (a : A) : keeping R (mret a).
Proof. intros s b s' [_ <-]%ret_Done. done. Qed.
Lemma keeping_get : keeping R get.
Proof. intros s b s' [_ <-]%get_Done. done. Qed.
Lemma keeping_gets {A} (f : S → A) : keeping R (gets f).
Proof. intros s b s' [_ <-]%gets_Done. done. Qed.
Lemma keeping_unwrap {A} (o : option A) : keeping R (unwrap o).
Proof. intros s b s' [_ <-]%unwrap_Done. done. Qed.
Lemma keeping_word_op `{Profile} w x : keeping R (word_op w x).
Proof. intros s b s' [-> _]%word_op_Done. done. Qed.
Lemma keeping_panic {A} : keeping R (panic : M S A).
Proof. done. Qed.

End Keeping.

Create HintDb keeping.
#[export] Hint Resolve keeping_ret keeping_get keeping_gets keeping_unwrap keeping_word_op keeping_panic : keeping.

(** Follow the structure of a program down to what is known to keep the
    relation. *)
Ltac keep_step :=
  lazymatch goal with
  | |- keeping _ (mbind _ _) => apply keeping_bind; [typeclasses eauto| |intros ?]
  | |- keeping _ (match ?x with _ => _ end) => destruct x
  | |- keeping _ _ => solve [auto with keeping typeclass_instances]
  end.
Ltac keep := repeat keep_step.

(** ** Calls that leave the processes alone *)

Section Silent.
Context `{Profile} `{X86_64} {PT Q : Type} `{Mapper PT} `{ArrayQueue Q}.
Context (PHYSICAL_OFFSET : option Z) (cpuid : nat).
#[local] Abbreviation St := (Kernel PT Q).

(** What such a call does to memory: it writes to some addresses, [B], or the heap of
    the running process grows. *)
Context (B : Mem PT → Z → Prop).

Inductive mem_step (k : St) : Mem PT → Mem PT → Prop :=
  | mem_contents m f : (∀ a, f a ≠ Elf.mem (machine m) a → B m a) →
      mem_step k m (mkMem (mkMachine (tables (machine m)) (falloc (machine m)) f) (arcs m) (ends m) (cr3 m))
  | mem_brk q loc p a m r m' :
      running cpuid k = Some q → processes k !! q = Some loc → procs k !! loc = Some p →
      Inner.brk PHYSICAL_OFFSET (inner p) a m = Done (r, m') → mem_step k m m'.

(** Only memory and the data of the processes may change. *)
Definition silent (k k' : St) : Prop :=
  ∃ m d, k' = set_data d (set_kmem m k) ∧ rtc (mem_step k) (kmem k) m.

Lemma mem_step_equiv k k' m m' :
  procs k' = procs k → processes k' = processes k → PROCESSORS k' = PROCESSORS k → mem_step k m m' → mem_step k' m m'.
Proof.
  intros Hp Ht Hc [m0 f Hf|q loc p a m0 r m1 Hr Hq Hl Hb]; [by constructor|].
  eapply (mem_brk k' q loc p); [|by rewrite ?Ht, ?Hp..|exact Hb]. unfold running. by rewrite Hc.
Qed.

#[export] Instance silent_preorder : PreOrder silent.
Proof.
  split.
  - intros k. exists (kmem k), (data k). split; [by destruct k|done].
  - intros k1 k2 k3 (m & d & -> & Hm) (m' & d' & -> & Hm'). exists m', d'. split; [by destruct k1|].
    etrans; [exact Hm|]. eapply rtc_subrel, Hm'. intros x y. by apply mem_step_equiv.
Qed.

Lemma silent_sched k k' : silent k k' → sched_eq k k'.
Proof. intros (m & d & -> & _). by split_and!. Qed.

Lemma brk_same_refs i a : keeping (same_refs (PT := PT)) (Inner.brk PHYSICAL_OFFSET i a).
Proof.
  intros m r m'. unfold Inner.brk, Inner.vm. intros (v & m1 & [_ <-]%unwrap_Done & Hm)%bind_Done.
  apply bind_Done in Hm as (x & m1 & Hx & Hm).
  assert (m1 = m) as -> by (destruct a; inv_done; done).
  apply bind_Done in Hm as (y & m1 & Hb & Hm). apply ret_Done in Hm as [_ <-]. by eapply brk_refs.
Qed.

(** Page tables stay in use as they are. *)
Lemma mem_step_refs k m m' : mem_step k m m' → same_refs m m'.
Proof. intros [m0 f _|q loc p a m0 r m1 _ _ _ Hb]; [done|]. by eapply brk_same_refs. Qed.

Lemma silent_refs k k' : silent k k' → same_refs (kmem k) (kmem k').
Proof.
  intros (m & d & -> & Hm). simpl. induction Hm as [m|m m1 m2 Hs _ IH]; [done|]. etrans; [|exact IH].
  by eapply mem_step_refs.
Qed.

Lemma silent_on_mem {R} (m : M (Mem PT) R) : keeping eq m → keeping silent (on_mem m).
Proof.
  intros Hm k r k' (_ & t & Ht & ->)%on_mem_eq. apply Hm in Ht. subst t. exists (kmem k), (data k).
  split; [by destruct k|done].
Qed.
Lemma silent_contents f k r k' :
  (∀ a, f (Elf.mem (machine (kmem k))) a ≠ Elf.mem (machine (kmem k)) a → B (kmem k) a) →
  on_mem (on_machine (modify_mem f)) k = Done (r, k') → silent k k'.
Proof.
  intros Hf (_ & t & (t' & Ht & ->)%on_machine_Done & ->)%on_mem_eq. unfold modify_mem in Ht.
  apply modify_Done in Ht as <-.
  exists (mkMem (mkMachine (tables (machine (kmem k))) (falloc (machine (kmem k))) (f (Elf.mem (machine (kmem k)))))
    (arcs (kmem k)) (ends (kmem k)) (cr3 (kmem k))), (data k).
  split; [by destruct k|]. by apply rtc_once, mem_contents.
Qed.
Lemma silent_on_data {R} (m : M (DataStore Q) R) : keeping silent (on_data m).
Proof. intros k r k' (_ & d & _ & ->)%on_data_eq. exists (kmem k), d. split; [by destruct k|done]. Qed.
Lemma silent_current : keeping silent (current cpuid).
Proof. intros k r k' Hm. by apply current_Done in Hm as [-> _]. Qed.
Lemma silent_current_pid : keeping silent (current_pid cpuid).
Proof. intros k r k' Hm. by apply current_pid_Done in Hm as [-> _]. Qed.
Lemma silent_read_proc loc : keeping silent (read_proc loc).
Proof. intros k r k' Hm. by apply read_proc_Done in Hm as [-> _]. Qed.
Lemma memory_usage_reads v : keeping eq (Vm.memory_usage (PT := PT) v).
Proof.
  intros m r m'. unfold Vm.memory_usage. intros (st & m1 & Hst & Hm)%bind_Done.
  apply on_machine_Done in Hst as (t & Hst & ->). unfold StackOps.memory_usage in Hst. apply word_op_Done in Hst as [-> _].
  apply bind_Done in Hm as (h & m2 & Hh & Hm). apply on_heap_Done in Hh as (e & e' & t & He & Hh & ->).
  unfold HeapOps.memory_usage, HeapOps.load_end in Hh. apply bind_Done in Hh as (x & t' & [<- <-]%gets_Done & Hh).
  apply word_op_Done in Hh as [[= -> ->] _].
  apply bind_Done in Hm as (x & m3 & Hx & Hm). apply word_op_Done in Hx as [-> _].
  apply word_op_Done in Hm as [-> _]. simpl. destruct m. simpl in *. by rewrite insert_id.
Qed.

Lemma silent_brk a : keeping silent (brk PHYSICAL_OFFSET cpuid a).
Proof.
  intros k r k' Hb. unfold brk in Hb. apply bind_Done in Hb as (loc & k1 & Hc & Hb).
  apply current_Done in Hc as (-> & q & Hr & Hq). apply bind_Done in Hb as (p & k1 & Hp & Hb).
  apply read_proc_Done in Hp as [-> Hp]. apply on_mem_eq in Hb as (_ & m & Hb & ->).
  exists m, (data k). split; [by destruct k|]. apply rtc_once. by eapply mem_brk.
Qed.

End Silent.

Lemma silent_mono `{Profile} `{X86_64} {PT Q : Type} `{Mapper PT} (po : option Z) (cpuid : nat) (B B' : Mem PT → Z → Prop) (k k' : Kernel PT Q) :
  (∀ m a, B m a → B' m a) → silent po cpuid B k k' → silent po cpuid B' k k'.
Proof.
  intros HB (m & d & -> & Hm). exists m, d. split; [done|]. eapply rtc_subrel, Hm.
  intros m1 m2 [m0 f Hf|q loc p a m0 r m3 Hr Hq Hl Hb]; [constructor; auto|by eapply mem_brk].
Qed.
#[export] Hint Resolve silent_on_mem silent_on_data silent_current silent_current_pid silent_read_proc
  memory_usage_reads silent_brk : keeping.

Section SilentOps.
Context `{Profile} `{X86_64} {PT Q : Type} `{Mapper PT} `{ArrayQueue Q}.
Context (PHYSICAL_OFFSET : option Z) (cpuid : nat) (B : Mem PT → Z → Prop).
#[local] Abbreviation silent := (silent (PT := PT) (Q := Q) PHYSICAL_OFFSET cpuid B).

Lemma silent_read fd buf : keeping silent (read cpuid fd buf).
Proof. unfold read, manager_read. keep. Qed.
Lemma silent_write fd buf : keeping silent (write cpuid fd buf).
Proof. unfold write, manager_write. keep. Qed.
Lemma silent_new_sem key init : keeping silent (new_sem cpuid key init).
Proof. unfold new_sem. keep. Qed.
Lemma silent_remove_sem key : keeping silent (remove_sem cpuid key).
Proof. unfold remove_sem. keep. Qed.
Lemma silent_humanized_size n : keeping silent (humanized_size n).
Proof. unfold humanized_size, humanized_size_impl. keep. Qed.
Lemma silent_format_usage s used total : keeping silent (format_usage s used total).
Proof. unfold format_usage. keep; apply silent_humanized_size. Qed.
Lemma silent_process_rows locs : keeping silent (process_rows locs).
Proof.
  induction locs; simpl; [keep|]. unfold process_fmt, process_usage. keep; apply silent_humanized_size.
Qed.
Lemma silent_print_process_list heap_used user_heap_used :
  keeping silent (print_process_list heap_used user_heap_used).
Proof.
  unfold print_process_list. keep_step; [keep|]. keep_step; [apply silent_process_rows|].
  repeat (keep_step; [first [apply silent_format_usage|keep]|]). unfold print. keep.
Qed.
Lemma silent_println s : keeping silent (println s).
Proof. unfold println. keep. Qed.

End SilentOps.
#[export] Hint Resolve silent_read silent_write silent_new_sem silent_remove_sem
  silent_print_process_list silent_println : keeping.

(** ** System calls *)

Section Calls.
Context `{Profile} `{X86_64} {PT Q UA : Type} `{Mapper PT} `{ArrayQueue Q} `{UserAllocator UA}.
Context (PHYSICAL_OFFSET : option Z) (cpuid : nat) (selector : Z * Z) (clock_nanos : Z).
Context (Layout_of : list Z → Z * Z).
#[local] Abbreviation St := (Kernel PT Q * UA)%type.

Context (B : Mem PT → Z → Prop).
#[local] Abbreviation silent := (silent (PT := PT) (Q := Q) PHYSICAL_OFFSET cpuid B).

(** The same with the user allocator beside the kernel. *)
Definition silent_call (s s' : St) : Prop := silent s.1 s'.1.

#[export] Instance silent_call_preorder : PreOrder silent_call.
Proof. split; [intros s; red; reflexivity|]. intros s1 s2 s3 H12 H23. unfold silent_call in *. by etrans. Qed.

Lemma silent_on_kernel {R} (m : M (Kernel PT Q) R) : keeping silent m → keeping silent_call (on_kernel m).
Proof. intros Hm s r s' (k & Hk & ->)%zoom_Done. by eapply Hm. Qed.

Lemma silent_alloc (f : St → UA) : keeping silent_call (modify (λ s, (s.1, f s))).
Proof. intros s r s' <-%modify_Done. unfold silent_call. done. Qed.

Lemma silent_read_slice ptr len : keeping silent_call (read_slice PHYSICAL_OFFSET ptr len).
Proof. unfold read_slice, peek_slice. keep. Qed.

(** The addresses of a buffer of [len] bytes, as the page table in CR3 has them. *)
Definition phys_in (m : Mem PT) (va : Z) : option Z :=
  off ← PHYSICAL_OFFSET;
  f ← translate_page (addr (cr3 m)) (Page_containing_address va) (tables (machine m));
  Some (f + off + va `mod` PAGE).
Definition in_buffer (ptr len : Z) (m : Mem PT) (a : Z) : Prop := ∃ va, ptr ≤ va < ptr + len ∧ phys_in m va = Some a.

Lemma silent_write_byte va b :
  (∀ m a, phys_in m va = Some a → B m a) → keeping silent_call (write_byte PHYSICAL_OFFSET va b).
Proof.
  intros Hb s r s' Hs. unfold write_byte in Hs. apply bind_Done in Hs as (s1 & s2 & [<- <-]%get_Done & Hs).
  apply bind_Done in Hs as (pa & s2 & [Hpa <-]%unwrap_Done & (k & Hs & ->)%zoom_Done). unfold silent_call. simpl.
  eapply silent_contents, Hs. intros a Ha. apply Hb.
  unfold write_bytes in Ha. destruct ((pa <=? a) && (a <? pa + 1)) eqn:E; [|done].
  assert (a = pa) as -> by lia. exact Hpa.
Qed.

Lemma silent_write_slice ptr bytes :
  (∀ m a, in_buffer ptr (Z.of_nat (length bytes)) m a → B m a) → keeping silent_call (write_slice PHYSICAL_OFFSET ptr bytes).
Proof.
  revert ptr. induction bytes as [|b bytes IH]; intros ptr Hb; simpl; [keep|].
  apply keeping_bind; [typeclasses eauto| |].
  - apply silent_write_byte. intros m a Ha. apply Hb. exists ptr. split; [simpl; lia|done].
  - intros _. apply IH. intros m a (va & Hva & Hpa). apply Hb. exists va. split; [simpl; lia|done].
Qed.

Lemma read_length fd buf (k : Kernel PT Q) r k' : read cpuid fd buf k = Done (r, k') → length r.2 = length buf.
Proof.
  intros Hr. unfold read, manager_read in Hr. apply bind_Done in Hr as (loc & k1 & _ & Hr).
  apply bind_Done in Hr as (p & k2 & _ & Hr). apply bind_Done in Hr as (d & k3 & _ & Hr).
  apply on_data_eq in Hr as (_ & dt & Hr & _). unfold Data.read in Hr. apply bind_Done in Hr as (s & t1 & _ & Hr).
  apply bind_Done in Hr as (h & t2 & _ & Hr). apply zoom_Done in Hr as (i & Hr & _).
  unfold ResourceSet.read in Hr. destruct (h !! fd) as [res|]; [|by inv_done].
  apply bind_Done in Hr as ([o l] & i1 & Hr & Ho). assert (Hl : length l = length buf); [|by rewrite <- Hl; destruct o; apply ret_Done in Ho as [<- _]]. clear Ho.
  unfold Resource_read in Hr. destruct res as [[]|]; [|by apply ret_Done in Hr as [[= <- <-] _]..].
  apply bind_Done in Hr as (ch & i2 & _ & Hr). destruct ch; [destruct buf; [done|]|]; by apply ret_Done in Hr as [[= <- <-] _].
Qed.

Lemma silent_sys_read args :
  (∀ m a, in_buffer (arg1 args) (arg2 args) m a → B m a) →
  keeping silent_call (sys_read PHYSICAL_OFFSET cpuid args).
Proof.
  intros Hb s v s' Hs. unfold sys_read, peek_slice in Hs. apply bind_Done in Hs as (buf & s1 & [<- <-]%gets_Done & Hs).
  apply bind_Done in Hs as (r & s2 & (k & Hr & ->)%zoom_Done & Hs). pose proof (read_length _ _ _ _ _ Hr) as Hl.
  apply bind_Done in Hs as (u & s3 & Hw & Hs). apply ret_Done in Hs as [_ <-].
  apply silent_write_slice in Hw; [etrans; [|exact Hw]; by eapply silent_read|].
  intros m a (va & Hva & Ha). apply Hb. exists va. split; [|done].
  unfold addresses in Hl. rewrite !length_fmap, length_seqZ in Hl. rewrite length_take in Hva. lia.
Qed.

Lemma silent_allocate args : keeping silent_call (sys_allocate PHYSICAL_OFFSET Layout_of args).
Proof.
  unfold sys_allocate. destruct (_ =? 0); [keep|].
  apply keeping_bind; [typeclasses eauto|apply silent_read_slice|intros bytes]. destruct (Layout_of bytes) as [sz al].
  destruct (sz =? 0); [keep|]. intros s r s' Hs. unfold get in Hs.
  rewrite (bind_step _ _ s s s eq_refl) in Hs. destruct (allocate_first_fit _ _ _) as [ret ua].
  apply bind_Done in Hs as (u & s1 & Hp & Hs). apply put_Done in Hp as <-. apply ret_Done in Hs as [_ <-].
  unfold silent_call. reflexivity.
Qed.

Lemma silent_deallocate args : keeping silent_call (sys_deallocate PHYSICAL_OFFSET Layout_of args).
Proof.
  unfold sys_deallocate. destruct (_ =? 0); [keep|].
  apply keeping_bind; [typeclasses eauto|apply silent_read_slice|intros bytes]. destruct (Layout_of bytes) as [sz al].
  destruct (_ || _); [keep|apply silent_alloc].
Qed.

End Calls.

(** ** The dispatcher *)

Section Dispatcher.
Context `{Profile} `{X86_64} {PT Q UA : Type} `{Mapper PT} `{ArrayQueue Q} `{UserAllocator UA}.
Context (PHYSICAL_OFFSET : option Z) (cpuid : nat) (selector : Z * Z) (clock_nanos : Z).
Context (Layout_of : list Z → Z * Z).
#[local] Abbreviation St := (Kernel PT Q * UA)%type.
#[local] Abbreviation in_buffer := (in_buffer PHYSICAL_OFFSET).

(** Only [read] writes to memory, to its buffer. *)
Definition written (ctx : ProcessContext) (m : Mem PT) (a : Z) : Prop :=
  Syscall.syscall (args_of ctx) = Syscall.Read ∧ in_buffer (arg1 (args_of ctx)) (arg2 (args_of ctx)) m a.
#[local] Abbreviation silent ctx := (silent (PT := PT) (Q := Q) PHYSICAL_OFFSET cpuid (written ctx)).
#[local] Abbreviation silent_call ctx := (silent_call (PT := PT) (Q := Q) (UA := UA) PHYSICAL_OFFSET cpuid (written ctx)).

(** What a system call that returns has done. *)
Inductive dispatched (ctx ctx' : ProcessContext) (s s' : St) : Prop :=
  | called_silent : silent ctx s.1 s'.1 → ctx' = ctx ∨ (∃ v, ctx' = Context.set_rax v ctx) → dispatched ctx ctx' s s'
  | called_spawn nm r v : spawn PHYSICAL_OFFSET cpuid selector nm s.1 = Done (r, s'.1) →
      ctx' = Context.set_rax v ctx → dispatched ctx ctx' s s'
  | called_fork : fork PHYSICAL_OFFSET cpuid ctx s.1 = Done (ctx', s'.1) → dispatched ctx ctx' s s'
  | called_exit ret : process_exit PHYSICAL_OFFSET cpuid ret ctx s.1 = Done (ctx', s'.1) → dispatched ctx ctx' s s'
  | called_wait_pid q : wait_pid cpuid q ctx s.1 = Done (ctx', s'.1) → dispatched ctx ctx' s s'
  | called_kill q : q ≠ KERNEL_PID → kill PHYSICAL_OFFSET cpuid q ctx s.1 = Done (ctx', s'.1) → dispatched ctx ctx' s s'
  | called_sem_wait key : sem_wait cpuid key ctx s.1 = Done (ctx', s'.1) → dispatched ctx ctx' s s'
  | called_sem_signal key : sem_signal cpuid key ctx s.1 = Done (ctx', s'.1) → dispatched ctx ctx' s s'.

Lemma on_kernel_Done {R} (m : M (Kernel PT Q) R) (s : St) r (s' : St) :
  on_kernel m s = Done (r, s') → m s.1 = Done (r, s'.1) ∧ s'.2 = s.2.
Proof. by intros (k & Hm & ->)%zoom_Done. Qed.

Lemma spawn_process_Done args (s : St) v (s' : St) :
  spawn_process PHYSICAL_OFFSET cpuid selector args s = Done (v, s') →
  ∃ nm r, spawn PHYSICAL_OFFSET cpuid selector nm s.1 = Done (r, s'.1).
Proof.
  intros Hs. unfold spawn_process in Hs. apply bind_Done in Hs as (nm & s1 & Hr & Hs).
  assert (s1 = s) as ->.
  { unfold read_slice, peek_slice in Hr. apply bind_Done in Hr as (? & ? & [<- <-]%get_Done & Hr).
    destruct (slice_mapped _ _ _ _); [|done]. by apply gets_Done in Hr as [_ <-]. }
  apply bind_Done in Hs as (p & s1 & Hp & Hs). apply on_kernel_Done in Hp as [Hp _].
  exists (string_of_bytes nm), p. destruct p; by apply ret_Done in Hs as [_ <-].
Qed.

Lemma dispatcher_Done ctx (s : St) ctx' (s' : St) :
  dispatcher PHYSICAL_OFFSET cpuid selector clock_nanos Layout_of ctx s = Done (ctx', s') → dispatched ctx ctx' s s'.
Proof.
  intros Hd. unfold dispatcher in Hd.
  assert (Hset : ∀ m : M St Z, keeping (silent_call ctx) m →
    (r ← m; mret (Context.set_rax r ctx)) s = Done (ctx', s') → dispatched ctx ctx' s s').
  { intros m Hm (r & s1 & Hs & [<- <-]%ret_Done)%bind_Done. apply called_silent; [by eapply Hm|eauto]. }
  assert (Hq : ∀ m : M St (), keeping (silent_call ctx) m → (m;; mret ctx) s = Done (ctx', s') → dispatched ctx ctx' s s').
  { intros m Hm (r & s1 & Hs & [<- <-]%ret_Done)%bind_Done. apply called_silent; [by eapply Hm|by left]. }
  assert (Hsame : (mret ctx : M St ProcessContext) s = Done (ctx', s') → dispatched ctx ctx' s s').
  { intros [<- <-]%ret_Done. apply called_silent; [reflexivity|by left]. }
  destruct (Syscall.syscall (args_of ctx)) eqn:Esys.
  - eapply Hset, Hd. apply silent_sys_read. intros m a Ha. by split.
  - eapply Hset, Hd. unfold sys_write, peek_slice. keep_step; [keep|]. keep_step; [keep|].
    keep_step; [apply silent_on_kernel; keep|]. cbv zeta. keep.
  - eapply Hset, Hd. apply silent_on_kernel. keep.
  - eapply Hset, Hd. apply silent_on_kernel. keep.
  - apply on_kernel_Done in Hd as [Hd _]. by eapply called_fork.
  - apply bind_Done in Hd as (v & s1 & Hs & [<- <-]%ret_Done). apply spawn_process_Done in Hs as (nm & r & Hs).
    by eapply called_spawn.
  - apply on_kernel_Done in Hd as [Hd _]. by eapply called_exit.
  - apply on_kernel_Done in Hd as [Hd _]. by eapply called_wait_pid.
  - unfold sys_kill in Hd. destruct (Z.eqb_spec (wrap 16 (arg0 (args_of ctx))) 1); [by apply Hsame|].
    apply on_kernel_Done in Hd as [Hd _]. by eapply called_kill.
  - unfold sys_sem in Hd. repeat case_match;
      first [apply ret_Done in Hd as [<- <-]; apply called_silent; [reflexivity|by eauto]
            |apply on_kernel_Done in Hd as [Hd _]; first [by eapply called_sem_wait|by eapply called_sem_signal]
            |eapply Hset, Hd; apply silent_on_kernel; keep].
  - eapply Hset, Hd. keep.
  - eapply Hq, Hd. unfold list_app. keep_step; [keep|]. apply silent_on_kernel. keep.
  - eapply Hq, Hd. unfold list_process. keep_step; [keep|]. apply silent_on_kernel. keep.
  - eapply Hset, Hd. apply silent_allocate.
  - eapply Hq, Hd. apply silent_deallocate.
  - by apply Hsame.
Qed.

Lemma receive_Done b (s : St) u (s' : St) : receive b s = Done (u, s') → sched_eq s.1 s'.1.
Proof.
  destruct b as [b|]; [|by intros [_ <-]%ret_Done]. intros [Hs _]%on_kernel_Done. by apply on_data_eq in Hs as [? _].
Qed.

Lemma page_fault_handler_Done a e (s : St) u (s' : St) :
  page_fault_handler PHYSICAL_OFFSET cpuid a e s = Done (u, s') →
  handle_page_fault PHYSICAL_OFFSET cpuid a e s.1 = Done (true, s'.1).
Proof.
  intros Hs. unfold page_fault_handler in Hs. apply bind_Done in Hs as (ok & s1 & Hf & Hs).
  apply on_kernel_Done in Hf as [Hf _]. destruct ok; [by apply ret_Done in Hs as [_ <-]|done].
Qed.

End Dispatcher.
