(* ===== verification/Reachable.v ===== *)
(** The kernel as a transition system: after initialisation, the timer, system
    calls, keys, page faults and the processes the kernel starts.  In every
    reachable state the process table is well formed and the kernel's own
    process can run. *)
From S2P Require Import Prelude Arch Pid Sync Frames Elf Stack Heap Vm Context Resource Data Process Manager Syscall Scheduler KernelExample Lifecycle Fork Dispatch.
From stdpp Require Import strings relations.
#[local] Open Scope Z_scope.

Section Alive.
Context `{Profile} `{X86_64} {PT Q : Type} `{Mapper PT} `{ArrayQueue Q}.
Context (PHYSICAL_OFFSET : option Z) (cpuid : nat) (selector : Z * Z).
#[local] Abbreviation St := (Kernel PT Q).
#[local] Abbreviation wf := (wf cpuid).
#[local] Abbreviation running := (running cpuid).

(** ** The kernel's process is alive *)

Definition can_run (i : ProcessInner) : Prop :=
  exit_code i = None ∧ (status i = Ready ∨ status i = Running).

Definition alive (k : St) : Prop := ∃ p, lookup_proc k KERNEL_PID = Some p ∧ can_run (inner p).

Definition inv (k : St) : Prop := wf k ∧ alive k.

(** Every process that could run still can, so [alive] is kept. *)
Definition keeps (k k' : St) : Prop :=
  ∀ p, lookup_proc k KERNEL_PID = Some p → can_run (inner p) →
    ∃ p', lookup_proc k' KERNEL_PID = Some p' ∧ can_run (inner p').

#[local] Instance keeps_preorder : PreOrder keeps.
Proof. split; [intros k p; eauto|]. intros k1 k2 k3 H1' H2' p Hl Hc. destruct (H1' p Hl Hc) as (? & ? & ?). eauto. Qed.

Lemma keeps_alive k k' : keeps k k' → alive k → alive k'.
Proof. intros Hk (p & Hl & Hc). apply (Hk p Hl Hc). Qed.

Lemma keeps_lookup k k' : lookup_proc k' KERNEL_PID = lookup_proc k KERNEL_PID → keeps k k'.
Proof. intros He p Hl Hc. rewrite He. eauto. Qed.

Lemma sched_eq_keeps k k' : sched_eq k k' → keeps k k'.
Proof. intros (_ & _ & Hp & Hps & _). apply keeps_lookup. unfold lookup_proc. by rewrite Hp, Hps. Qed.

Lemma set_inner_keeps k q loc p i :
  wf k → processes k !! q = Some loc → procs k !! loc = Some p →
  (q = KERNEL_PID → can_run (inner p) → can_run i) → keeps k (set_inner loc i k).
Proof.
  intros Hwf Hq Hp Hi pk Hl Hc. rewrite (lookup_set_inner cpuid k loc i q KERNEL_PID p) by done.
  destruct (decide _) as [<-|]; [|eauto]. rewrite (lookup_proc_Some _ _ _ _ Hq Hp) in Hl.
  injection Hl as <-. eauto.
Qed.

Lemma save_current_keeps ctx k q k' : wf k → save_current cpuid ctx k = Done (q, k') → keeps k k'.
Proof.
  intros Hwf (loc & p & _ & Hq & Hp & ->)%save_current_Done; [|done]. eapply set_inner_keeps; try done.
  intros _ [Hc _]. split; [done|by left].
Qed.

Lemma switch_next_keeps ctx k r k' : wf k → switch_next cpuid ctx k = Done (r, k') → keeps k k'.
Proof.
  intros Hwf (cur & _ & Hs)%switch_next_Done; [|done].
  destruct (first_ready k (ready_queue k)) as [[next rest]|].
  - destruct (decide _) as [->|Hne]; [by destruct Hs as [_ ->]; apply keeps_lookup|].
    destruct Hs as (loc & p & v & reg & n & Hq & Hp & _ & _ & _ & _ & ->).
    intros pk Hl [Hc Hst]. rewrite lookup_started by done. destruct (decide _) as [<-|]; [|by exists pk].
    rewrite (lookup_proc_Some _ _ _ _ Hq Hp) in Hl. injection Hl as <-.
    eexists. split; [done|]. split; [done|by right].
  - destruct Hs as [_ ->]. by apply keeps_lookup.
Qed.

Lemma push_keeps k q : keeps k (set_ready (ready_queue k ++ [q]) k).
Proof. by apply keeps_lookup. Qed.

Lemma wake_up_keeps q ret k u k' : wf k → wake_up q ret k = Done (u, k') → keeps k k'.
Proof.
  intros Hwf Hw. apply (wake_up_effect cpuid) in Hw as (_ & _ & _ & _ & _ & Hl); [|done]. intros p Hp [Hc Hst]. rewrite Hl.
  destruct (decide _); [|by exists p]. rewrite Hp. eexists. split; [done|]. split; [done|by left].
Qed.

Lemma manager_kill_keeps q ret k u k' :
  wf k → q ≠ KERNEL_PID → manager_kill PHYSICAL_OFFSET q ret k = Done (u, k') → keeps k k'.
Proof.
  intros Hwf Hne Hk. destruct (lookup_proc k q) as [p|] eqn:Hl.
  - destruct (manager_kill_Done PHYSICAL_OFFSET cpuid _ _ _ _ _ _ Hwf Hl Hk) as (_ & _ & _ & _ & _ & Hlk).
    intros pk Hpk [Hc Hst]. rewrite Hlk. cbv zeta. rewrite (decide_False (P := KERNEL_PID = q)) by done.
    destruct (decide _); rewrite Hpk; eexists; (split; [done|]); (split; [done|]); [by left|done].
  - unfold manager_kill, get_proc in Hk. apply bind_Done in Hk as (o & k1 & Ho & Hk).
    apply gets_Done in Ho as [<- <-]. unfold lookup_proc in Hl. destruct (processes k !! q) as [loc|] eqn:E.
    + destruct (wf_table _ _ Hwf q loc E) as (p & Hp & _). simpl in Hl. congruence.
    + inv_done. done.
Qed.

Lemma add_process_keeps k loc p :
  wf k → procs k !! loc = None → Process.pid p = NEXT_PID k → keeps k (add_process loc p k).
Proof.
  intros Hwf Hf Hp. intros pk Hl Hc. exists pk. split; [|done]. rewrite <- Hl. unfold lookup_proc. simpl.
  apply bind_Some in Hl as (l & Hl & Hpk). rewrite lookup_insert_ne; cycle 1.
  { intros Heq. destruct (wf_pids _ _ Hwf KERNEL_PID); [by rewrite Hl|]. lia. }
  rewrite Hl. simpl. rewrite lookup_insert_ne; [done|]. congruence.
Qed.

(** ** The process interface keeps it *)

Lemma switch_keeps ctx k ctx' k' : wf k → switch cpuid ctx k = Done (ctx', k') → keeps k k'.
Proof.
  intros Hwf Hs. unfold switch in Hs. apply bind_Done in Hs as (q & k1 & Hsv & Hs).
  pose proof (save_current_keeps _ _ _ _ Hwf Hsv) as Hk1.
  apply save_current_wf in Hsv as (Hwf1 & _ & _ & _ & Hps & Hin); [|done].
  apply bind_Done in Hs as (u & k2 & Hp & Hs). unfold push_ready in Hp. apply modify_Done in Hp as <-.
  apply bind_Done in Hs as (r & k2 & Hn & Hs). apply ret_Done in Hs as [_ <-].
  etrans; [exact Hk1|]. etrans; [apply (push_keeps k1 q)|]. eapply switch_next_keeps; [|exact Hn].
  apply wf_push; [done|by rewrite Hps].
Qed.

Lemma fork_keeps ctx k ctx' k' :
  wf k → NEXT_PID k + 1 < 2 ^ 16 → fork PHYSICAL_OFFSET cpuid ctx k = Done (ctx', k') → keeps k k'.
Proof.
  intros Hwf Hn Hs. unfold fork in Hs. apply bind_Done in Hs as (q & k1 & Hsv & Hs).
  pose proof (save_current_Done _ _ _ _ _ Hwf Hsv) as (loc & p & Hr & Hq & Hp & _).
  apply bind_Done in Hs as (u & k2 & Hf & Hs).
  destruct (fork_table _ _ _ _ _ _ _ _ _ _ Hwf Hn Hq Hp Hsv Hf)
    as (v & ci & cl & _ & _ & _ & Hwf2 & _ & _ & Hfree & _ & _ & Hlp & Hlo).
  apply bind_Done in Hs as (u' & k3 & Hpu & Hs). unfold push_ready in Hpu. apply modify_Done in Hpu as <-.
  apply bind_Done in Hs as (r & k3 & Hsn & Hs). apply ret_Done in Hs as [_ <-].
  assert (Hk : keeps k k2).
  { intros pk Hl [Hc Hst]. destruct (decide (KERNEL_PID = q)) as [<-|Hne].
    - rewrite Hlp. eexists. split; [done|]. rewrite (lookup_proc_Some _ _ _ _ Hq Hp) in Hl. injection Hl as <-.
      split; [done|by left].
    - exists pk. rewrite Hlo; [done|done|congruence]. }
  etrans; [exact Hk|]. etrans; [apply (push_keeps k2 q)|]. eapply switch_next_keeps; [|exact Hsn].
  apply wf_push; [done|]. apply bind_Some in Hlp as (? & -> & _). done.
Qed.

Lemma process_exit_keeps ret ctx k ctx' k' :
  wf k → running k ≠ Some KERNEL_PID → process_exit PHYSICAL_OFFSET cpuid ret ctx k = Done (ctx', k') → keeps k k'.
Proof.
  intros Hwf Hr Hs. unfold process_exit, kill_self in Hs. apply bind_Done in Hs as (u & k1 & Hk & Hs).
  apply bind_Done in Hk as (q & k2 & Hc & Hk). apply current_pid_Done in Hc as (-> & Hc & _).
  apply bind_Done in Hs as (r & k2 & Hn & Hs). apply ret_Done in Hs as [_ <-].
  etrans; [eapply manager_kill_keeps; [done| |exact Hk]; congruence|].
  eapply switch_next_keeps; [|exact Hn]. by apply (manager_kill_wf _ cpuid) in Hk as [? _].
Qed.

Lemma kill_keeps q ctx k ctx' k' :
  wf k → q ≠ KERNEL_PID → kill PHYSICAL_OFFSET cpuid q ctx k = Done (ctx', k') → keeps k k'.
Proof.
  intros Hwf Hne Hs. unfold kill in Hs. apply bind_Done in Hs as (c & k1 & Hc & Hs).
  apply current_pid_Done in Hc as (-> & Hc & _). destruct (Z.eqb_spec q c) as [->|].
  - apply bind_Done in Hs as (u & k1 & Hk & Hs). unfold kill_self in Hk.
    apply bind_Done in Hk as (q & k2 & Hq & Hk). apply current_pid_Done in Hq as (-> & Hq & _).
    assert (q = c) as -> by congruence.
    apply bind_Done in Hs as (r & k2 & Hn & Hs). apply ret_Done in Hs as [_ <-].
    etrans; [by eapply manager_kill_keeps|]. eapply switch_next_keeps; [|exact Hn].
    by apply (manager_kill_wf _ cpuid) in Hk as [? _].
  - apply bind_Done in Hs as (u & k1 & Hk & Hs). apply ret_Done in Hs as [_ <-]. by eapply manager_kill_keeps.
Qed.

(** Saving and blocking a process other than the kernel's. *)
Lemma block_current_keeps ctx k q k1 loc p r k' :
  wf k → save_current cpuid ctx k = Done (q, k1) → q ≠ KERNEL_PID →
  processes k1 !! q = Some loc → procs k1 !! loc = Some p →
  switch_next cpuid ctx (set_inner loc (Inner.block (inner p)) k1) = Done (r, k') → keeps k k'.
Proof.
  intros Hwf Hsv Hne Hq Hp Hn. pose proof (save_current_wf _ _ _ _ _ Hwf Hsv) as (Hwf1 & _).
  pose proof (saved_block cpuid _ _ _ _ Hwf Hsv) as (l & p' & _ & Hl & Hp' & Hwfb & _).
  assert (l = loc) as -> by congruence. assert (p' = p) as -> by congruence.
  etrans; [by eapply save_current_keeps|]. etrans; [|by eapply switch_next_keeps].
  by eapply (set_inner_keeps _ q).
Qed.

Lemma wait_pid_keeps q ctx k ctx' k' :
  wf k → running k ≠ Some KERNEL_PID → wait_pid cpuid q ctx k = Done (ctx', k') → keeps k k'.
Proof.
  intros Hwf Hr Hs. unfold wait_pid in Hs. apply bind_Done in Hs as (o & k1 & Hw & Hs).
  apply manager_wait_pid_Done in Hw. destruct (lookup_proc k q ≫= _) as [ret|].
  { destruct Hw as [-> ->]. by inv_done. }
  destruct Hw as (-> & cur & Hcur & ->).
  assert (Hwf1 : wf (add_waiter q cur k)) by (by eapply (sched_eq_wf cpuid k)).
  apply bind_Done in Hs as (c & k2 & Hsv & Hs).
  pose proof (save_current_wf _ _ _ _ _ Hwf1 Hsv) as (Hwf2 & Hr2 & Hrc & _).
  apply bind_Done in Hs as (loc & k3 & Hc & Hs). apply current_Done in Hc as (-> & c' & Hr' & Hloc).
  assert (c' = c) as -> by congruence.
  apply bind_Done in Hs as (u & k3 & Hm & Hs). apply modify_inner_Done in Hm as (p & Hp & ->).
  apply bind_Done in Hs as (r & k3 & Hn & Hs). apply ret_Done in Hs as [_ <-].
  etrans; [by apply (sched_eq_keeps k (add_waiter q cur k))|].
  eapply block_current_keeps; [exact Hwf1|exact Hsv| |exact Hloc|exact Hp|exact Hn].
  intros ->. apply Hr. exact Hrc.
Qed.

Lemma sem_wait_keeps key ctx k ctx' k' :
  wf k → running k ≠ Some KERNEL_PID → sem_wait cpuid key ctx k = Done (ctx', k') → keeps k k'.
Proof.
  intros Hwf Hr Hs. unfold sem_wait in Hs. apply bind_Done in Hs as (q & k1 & Hc & Hs).
  apply current_pid_Done in Hc as (-> & _ & _). apply bind_Done in Hs as (loc & k1 & Hc & Hs).
  apply current_Done in Hc as (-> & _). apply bind_Done in Hs as (p & k1 & Hp & Hs).
  apply read_proc_Done in Hp as [-> _]. apply bind_Done in Hs as (d & k1 & Hd & Hs).
  apply unwrap_Done in Hd as [_ <-]. apply bind_Done in Hs as (ret & k1 & Hd & Hs).
  apply on_data_eq in Hd as [Hse _]. pose proof (sched_eq_keeps _ _ Hse) as Hk1.
  apply (sched_eq_wf _ _ _ Hse) in Hwf. etrans; [exact Hk1|].
  assert (Hr1 : running k1 ≠ Some KERNEL_PID).
  { destruct Hse as (_ & Hx & _). unfold running. by rewrite Hx. }
  destruct ret as [| | |]; [by inv_done|by inv_done| |by inv_done].
  apply bind_Done in Hs as (c & k2 & Hsv & Hs).
  pose proof (saved_block cpuid _ _ _ _ Hwf Hsv) as (l & p' & _ & Hl & Hp' & _).
  pose proof (save_current_wf _ _ _ _ _ Hwf Hsv) as (_ & _ & Hrc & _).
  apply bind_Done in Hs as (u & k3 & Hb & Hs). unfold manager_block, get_proc in Hb.
  apply bind_Done in Hb as (o & k4 & Ho & Hb). apply gets_Done in Ho as [<- <-]. rewrite Hl in Hb.
  apply modify_inner_Done in Hb as (p2 & Hp2 & ->).
  apply bind_Done in Hs as (r & k3 & Hn & Hs). apply ret_Done in Hs as [_ <-].
  eapply block_current_keeps; [exact Hwf|exact Hsv| |exact Hl|exact Hp2|exact Hn]. congruence.
Qed.

Lemma sem_signal_keeps key ctx k ctx' k' :
  wf k → sem_signal cpuid key ctx k = Done (ctx', k') → keeps k k'.
Proof.
  intros Hwf Hs. unfold sem_signal in Hs. apply bind_Done in Hs as (q & k1 & Hc & Hs).
  apply current_pid_Done in Hc as (-> & _ & _). apply bind_Done in Hs as (loc & k1 & Hc & Hs).
  apply current_Done in Hc as (-> & _). apply bind_Done in Hs as (p & k1 & Hp & Hs).
  apply read_proc_Done in Hp as [-> _]. apply bind_Done in Hs as (d & k1 & Hd & Hs).
  apply unwrap_Done in Hd as [_ <-]. apply bind_Done in Hs as (ret & k1 & Hd & Hs).
  apply on_data_eq in Hd as [Hse _]. etrans; [by apply sched_eq_keeps|]. apply (sched_eq_wf _ _ _ Hse) in Hwf.
  destruct ret as [| | |]; [by inv_done|by inv_done|by inv_done|].
  apply bind_Done in Hs as (u & k2 & Hw & Hs). apply ret_Done in Hs as [_ <-]. by eapply wake_up_keeps.
Qed.

Lemma handle_page_fault_keeps a e k r k' :
  wf k → handle_page_fault PHYSICAL_OFFSET cpuid a e k = Done (r, k') → keeps k k'.
Proof.
  intros Hwf Hs. unfold handle_page_fault, manager_handle_page_fault in Hs.
  destruct (negb _); [|by inv_done].
  apply bind_Done in Hs as (loc & k1 & Hc & Hs). apply current_Done in Hc as (-> & q & Hr & Hq).
  apply bind_Done in Hs as (p & k1 & Hp & Hs). apply read_proc_Done in Hp as [-> Hp].
  apply bind_Done in Hs as (cur & k1 & Hg & Hs). apply gets_Done in Hg as [_ <-].
  apply bind_Done in Hs as ([b i] & k1 & Hf & Hs). apply on_mem_eq in Hf as (_ & t & Hf & ->).
  apply bind_Done in Hs as (u & k1 & Hw & Hs). unfold write_proc in Hw. apply modify_Done in Hw as <-.
  apply ret_Done in Hs as [_ <-]. unfold Inner.handle_page_fault in Hf.
  apply bind_Done in Hf as (v & m1 & _ & Hf). apply bind_Done in Hf as (r1 & m2 & _ & Hf).
  apply ret_Done in Hf as [Hf _]. injection Hf as _ <-.
  pose proof (set_inner_keeps (set_kmem t k) q loc p (Inner.set_vm (Some r1.2) (inner p))) as Hk.
  unfold set_inner in Hk. simpl in Hk. rewrite Hp in Hk. by apply Hk; [apply wf_set_kmem| | |].
Qed.

Lemma spawn_keeps nm k r k' :
  wf k → NEXT_PID k + 1 < 2 ^ 16 → spawn PHYSICAL_OFFSET cpuid selector nm k = Done (r, k') → keeps k k'.
Proof.
  intros Hwf Hn Hs. unfold spawn in Hs. apply bind_Done in Hs as (l & k1 & Hl & Hs).
  apply gets_Done in Hl as [_ <-]. destruct (l ≫= _) as [app|]; [|by inv_done].
  unfold elf_spawn in Hs. apply bind_Done in Hs as (loc & k1 & Hc & Hs). apply current_Done in Hc as (-> & _).
  apply bind_Done in Hs as (q & k1 & Hq & Hs). inv_done.
  apply (spawn_elf_Done _ cpuid) in Hq as (i & m & dt & _ & _ & _ & _ & _ & _ & _ & -> & _); [|done..].
  etrans; [by apply (sched_eq_keeps k (set_data dt (set_kmem m k)))|].
  apply add_process_keeps; [by eapply (sched_eq_wf cpuid k)|apply not_elem_of_dom, is_fresh|done].
Qed.

End Alive.

(** ** System calls *)

Section Calls.
Context `{Profile} `{X86_64} {PT Q UA : Type} `{Mapper PT} `{ArrayQueue Q} `{UserAllocator UA}.
Context (PHYSICAL_OFFSET : option Z) (cpuid : nat) (selector : Z * Z) (clock_nanos : Z).
Context (Layout_of : list Z → Z * Z).
#[local] Abbreviation St := (Kernel PT Q * UA)%type.
#[local] Abbreviation inv := (inv (PT := PT) (Q := Q) cpuid).
#[local] Abbreviation running := (running (PT := PT) (Q := Q) cpuid).

(** Pids are left for one more process. *)
Definition pids_left (k : Kernel PT Q) : Prop := NEXT_PID k + 1 < 2 ^ 16.

Lemma inv_step (k k' : Kernel PT Q) : wf cpuid k' → keeps k k' → inv k → inv k'.
Proof. intros Hwf Hk [_ Ha]. split; [done|by eapply keeps_alive]. Qed.

(** Every system call of a process other than the kernel's keeps the invariant. *)
Lemma dispatcher_inv ctx (s : St) ctx' (s' : St) :
  inv s.1 → pids_left s.1 → running s.1 ≠ Some KERNEL_PID →
  dispatcher PHYSICAL_OFFSET cpuid selector clock_nanos Layout_of ctx s = Done (ctx', s') → inv s'.1.
Proof.
  intros [Hwf Ha] Hn Hr Hd. apply dispatcher_Done in Hd as [Hs _|nm r v Hs _|Hs|ret Hs|q Hs|q Hq Hs|key Hs|key Hs];
    (eapply inv_step; [| |by split]).
  - eapply sched_eq_wf; [by eapply silent_sched|done].
  - by eapply sched_eq_keeps, silent_sched.
  - by eapply spawn_wf.
  - by eapply spawn_keeps.
  - by eapply fork_wf.
  - by eapply fork_keeps.
  - by eapply process_exit_wf.
  - by eapply process_exit_keeps.
  - by eapply wait_pid_wf.
  - by eapply wait_pid_keeps.
  - by eapply kill_wf.
  - by eapply kill_keeps.
  - by eapply sem_wait_wf.
  - by eapply sem_wait_keeps.
  - by eapply sem_signal_wf.
  - by eapply sem_signal_keeps.
Qed.

(** ** The transition system *)

(** System calls come from user processes only: the gate is entered with [int 0x80],
    which the kernel's own code does not execute.  The address of a page fault
    is the one in CR2.  The kernel's process starts other ones directly.  A user
    program stores bytes where its page table maps their addresses. *)
Inductive step : St → St → Prop :=
  | step_clock ctx ctx' s s' : clock cpuid ctx s = Done (ctx', s') → step s s'
  | step_call ctx ctx' s s' : running s.1 ≠ Some KERNEL_PID → pids_left s.1 →
      dispatcher PHYSICAL_OFFSET cpuid selector clock_nanos Layout_of ctx s = Done (ctx', s') → step s s'
  | step_key b s s' : receive b s = Done ((), s') → step s s'
  | step_fault a e s s' : canonical a → page_fault_handler PHYSICAL_OFFSET cpuid a e s = Done ((), s') → step s s'
  | step_spawn nm r s s' : pids_left s.1 →
      on_kernel (spawn PHYSICAL_OFFSET cpuid selector nm) s = Done (r, s') → step s s'
  | step_store va b s s' : running s.1 ≠ Some KERNEL_PID → write_byte PHYSICAL_OFFSET va b s = Done ((), s') → step s s'.

Lemma step_inv s s' : step s s' → inv s.1 → inv s'.1.
Proof.
  destruct 1 as [ctx ctx' s s' Hs|ctx ctx' s s' Hr Hn Hs|b s s' Hs|a e s s' _ Hs|nm r s s' Hn Hs|va b s s' _ Hs]; intros Hi;
    [|by eapply dispatcher_inv|..]; pose proof (proj1 Hi) as Hwf.
  - apply on_kernel_Done in Hs as [Hs _]. eapply inv_step; [by eapply switch_wf|by eapply switch_keeps|done].
  - apply receive_Done in Hs. eapply inv_step; [by eapply sched_eq_wf|by apply sched_eq_keeps|done].
  - apply page_fault_handler_Done in Hs. eapply inv_step; [by eapply handle_page_fault_wf|by eapply handle_page_fault_keeps|done].
  - apply on_kernel_Done in Hs as [Hs _]. eapply inv_step; [by eapply spawn_wf|by eapply spawn_keeps|done].
  - apply (silent_write_byte PHYSICAL_OFFSET cpuid (λ _ _, True)), silent_sched in Hs; [|done].
    eapply inv_step; [by eapply sched_eq_wf|by apply sched_eq_keeps|done].
Qed.

Lemma set_pid_Done q (k : Kernel PT Q) u k' :
  set_pid cpuid q k = Done (u, k') → k' = set_cpus (<[cpuid := q]> (PROCESSORS k)) k ∧ is_Some (PROCESSORS k !! cpuid).
Proof.
  intros (cs & Hw & ->)%zoom_Done. unfold Processor.set_pid in Hw. apply bind_Done in Hw as (c & cs' & Hc & Hw).
  unfold Processor.current in Hc. apply bind_Done in Hc as (c' & cs2 & [<- <-]%get_Done & [Hc <-]%unwrap_Done).
  apply modify_Done in Hw as <-. split; [done|]. by rewrite Hc.
Qed.

(** What [Manager.init] leaves: one process, the kernel's, which runs, with its memory
    on a new reference to the page table in CR3. *)
Lemma init_Done pages (k0 : Kernel PT Q) u k :
  NEXT_PID k0 = Pid.NEXT_PID_init → init cpuid pages k0 = Done (u, k) →
  ∃ a m1 v m2 v2 loc i, Arc_new (cr3 (kmem k0)) (kmem k0) = Done (a, m1) ∧ Vm.new a m1 = Done (v, m2) ∧
    page_table v2 = page_table v ∧ heap v2 = heap v ∧ stack v2 = StackOps.kstack ∧
    proc_vm i = Some v2 ∧ children i = [] ∧ status i = Running ∧ exit_code i = None ∧ is_Some (proc_data i) ∧
    kmem k = m2 ∧ NEXT_PID k = 2 ∧ procs k = <[loc := mkProcess KERNEL_PID i]> (procs k0) ∧
    processes k = {[ KERNEL_PID := loc ]} ∧ ready_queue k = [] ∧ app_list k = app_list k0 ∧
    Scheduler.running cpuid k = Some KERNEL_PID.
Proof.
  intros Hn Hs. unfold init in Hs. apply bind_Done in Hs as (pt & k1 & Hk & Hs). apply on_mem_eq in Hk as (_ & m1 & Hnew & ->).
  apply bind_Done in Hs as (v & k1 & Hk & Hs). apply on_mem_eq in Hk as (_ & m2 & Hv & ->).
  apply bind_Done in Hs as (v2 & k1 & Hk & Hs). apply on_mem_eq in Hk as (_ & m3 & Hv2 & ->). simpl in Hv, Hv2.
  unfold PageTableContext.new in Hnew. apply bind_Done in Hnew as (w & m0 & [<- <-]%gets_Done & Hnew).
  unfold Vm.init_kernel_vm in Hv2. apply bind_Done in Hv2 as (n & m4 & Hsc & Hv2). apply sum_counts_Done in Hsc as ->.
  apply bind_Done in Hv2 as (usage & m4 & Hu & Hv2). apply word_op_Done in Hu as [-> _]. apply ret_Done in Hv2 as [Hv2 <-].
  assert (page_table v2 = page_table v ∧ heap v2 = heap v ∧ stack v2 = StackOps.kstack) as (Hpt & Hh & Hst) by (by subst v2).
  clear Hv2. apply bind_Done in Hs as (loc & k1 & Hk & Hs). apply proc_new_Done in Hk as (d & dt & Hloc & ->). clear Hloc.
  apply bind_Done in Hs as (u1 & k1 & Hk & Hs). apply modify_inner_Done in Hk as (p & Hp & ->).
  simpl in Hp. rewrite lookup_insert_eq in Hp. injection Hp as <-.
  unfold set_inner in Hs. simpl in Hs. rewrite lookup_insert_eq in Hs. simpl in Hs.
  unfold manager_init in Hs. apply bind_Done in Hs as (p & k1 & Hk & Hs). apply read_proc_Done in Hk as [-> Hp].
  simpl in Hp. rewrite lookup_insert_eq in Hp. injection Hp as <-. simpl in Hs.
  apply bind_Done in Hs as (u2 & k1 & Hk & Hs). apply set_pid_Done in Hk as [-> [c Hc]]. simpl in Hc.
  apply modify_Done in Hs as <-. unfold Pid.NEXT_PID_init in Hn. rewrite Hn.
  set (k := set_processes _ _).
  assert (∃ i, procs k = <[loc := mkProcess KERNEL_PID i]> (procs k0) ∧ proc_vm i = Some v2 ∧ children i = [] ∧
    status i = Running ∧ exit_code i = None ∧ is_Some (proc_data i)) as (i & ? & ? & ? & ? & ? & ?).
  { eexists. split; [unfold k; simpl; by rewrite insert_insert_eq|by split_and!]. }
  exists pt, m1, v, m2, v2, loc, i. split_and!; try done.
  unfold Scheduler.running, k. simpl. rewrite list_lookup_insert_eq; [done|by eapply lookup_lt_Some].
Qed.

(** Initialisation establishes the invariant, and the kernel's process runs, the
    only one there is. *)
Lemma init_state pages (k0 : Kernel PT Q) u k :
  NEXT_PID k0 = Pid.NEXT_PID_init → init cpuid pages k0 = Done (u, k) →
  inv k ∧ Scheduler.running cpuid k = Some KERNEL_PID ∧ ∀ q p, lookup_proc k q = Some p → q = KERNEL_PID.
Proof.
  intros Hn Hs. destruct (init_Done _ _ _ _ Hn Hs) as (a & m1 & v & m2 & v2 & loc & i & _ & _ & _ & _ & _ &
    Hvm & _ & Hst & Hex & Hd & _ & Hnp & Hps & Hpr & Hq & _ & Hr).
  assert (Hl : ∀ q p, lookup_proc k q = Some p → q = KERNEL_PID ∧ p = mkProcess KERNEL_PID i).
  { intros q p Hl. unfold lookup_proc in Hl. rewrite Hpr, Hps in Hl. apply bind_Some in Hl as (l & Hl & Hp).
    apply lookup_singleton_Some in Hl as [<- <-]. rewrite lookup_insert_eq in Hp. by injection Hp as <-. }
  assert (Hi : inner_wf i).
  { split_and!; rewrite ?Hvm, ?Hex, ?Hst; done. }
  split; [split; [split|]|split; [exact Hr|by intros q p [-> _]%Hl]]; rewrite ?Hpr, ?Hps, ?Hnp, ?Hq.
  - intros q l [<- <-]%lookup_singleton_Some. rewrite lookup_insert_eq. eexists. by split_and!.
  - intros q [l [<- _]%lookup_singleton_Some]. done.
  - done.
  - exists KERNEL_PID. split; [done|]. by rewrite lookup_singleton_eq.
  - intros q Hin. by apply elem_of_nil in Hin.
  - intros q p [-> ->]%Hl _. by left.
  - intros q p [-> ->]%Hl. done.
  - exists (mkProcess KERNEL_PID i). split; [|by split; [|right]]. unfold lookup_proc.
    rewrite Hpr, Hps, lookup_singleton_eq. simpl. by rewrite lookup_insert_eq.
Qed.

Lemma init_inv_running pages (k0 : Kernel PT Q) u k :
  NEXT_PID k0 = Pid.NEXT_PID_init → init cpuid pages k0 = Done (u, k) →
  inv k ∧ Scheduler.running cpuid k = Some KERNEL_PID.
Proof. intros Hn Hi. by destruct (init_state _ _ _ _ Hn Hi) as (? & ? & _). Qed.

Lemma init_inv pages (k0 : Kernel PT Q) u k :
  NEXT_PID k0 = Pid.NEXT_PID_init → init cpuid pages k0 = Done (u, k) → inv k.
Proof. intros Hn Hs. by eapply init_inv_running. Qed.

(** C3: In every state the kernel can reach, from initialisation by timer
    interrupts, system calls and stores of user processes, keys, handled page faults
    and processes the kernel starts, while pids last: the process table is well
    formed (see [wf]: pids are unique and fresh, one process runs, exactly the
    processes that have not exited have memory and data, and no ready process is
    missing from the queue); and the kernel's own process has not exited and is
    running or ready, so that a process that blocks never runs on for lack of
    another one. *)
Theorem reachable_inv pages (k0 k : Kernel PT Q) u ua s :
  NEXT_PID k0 = Pid.NEXT_PID_init → init cpuid pages k0 = Done (u, k) → rtc step (k, ua) s →
  wf cpuid s.1 ∧
  (∃ p, lookup_proc s.1 KERNEL_PID = Some p ∧ exit_code (inner p) = None ∧
     status (inner p) ≠ Blocked ∧ status (inner p) ≠ Dead) ∧
  (running s.1 ≠ Some KERNEL_PID → is_ready s.1 KERNEL_PID = true ∧ KERNEL_PID ∈ ready_queue s.1).
Proof.
  intros Hn Hin Hs. assert (Hi : inv s.1).
  { pose proof (init_inv _ _ _ _ Hn Hin) as Hi. remember (k, ua) as s0 eqn:E.
    assert (Hi0 : inv s0.1) by (by rewrite E). clear -Hs Hi0. induction Hs; [done|].
    apply IHHs. by eapply step_inv. }
  destruct Hi as [Hwf (p & Hl & Hc & Hst)]. split_and!; [done| |].
  - exists p. split_and!; [done|done|by destruct Hst as [->| ->]..].
  - intros Hr. destruct Hst as [Hst|Hst]; [|by apply (wf_one _ _ Hwf _ _ Hl) in Hst].
    split; [by eapply is_ready_true|]. by destruct (wf_ready _ _ Hwf _ _ Hl Hst).
Qed.

End Calls.

(** ** Well-formedness is a type for kernels *)

Section Typing.
Context `{Profile} `{X86_64} {PT Q : Type} `{Mapper PT} `{ArrayQueue Q}.
Context (PHYSICAL_OFFSET : option Z) (cpuid : nat) (selector : Z * Z).

(** The operations of the process manager's interface, as they lead from one kernel to
    the next, whatever they answer. *)
Inductive operation (k k' : Kernel PT Q) : Prop :=
  | op_switch ctx c : switch cpuid ctx k = Done (c, k') → operation k k'
  | op_fork ctx c : NEXT_PID k + 1 < 2 ^ 16 → fork PHYSICAL_OFFSET cpuid ctx k = Done (c, k') → operation k k'
  | op_spawn nm r : NEXT_PID k + 1 < 2 ^ 16 → spawn PHYSICAL_OFFSET cpuid selector nm k = Done (r, k') → operation k k'
  | op_exit ret ctx c : process_exit PHYSICAL_OFFSET cpuid ret ctx k = Done (c, k') → operation k k'
  | op_kill q ctx c : kill PHYSICAL_OFFSET cpuid q ctx k = Done (c, k') → operation k k'
  | op_wait_pid q ctx c : wait_pid cpuid q ctx k = Done (c, k') → operation k k'
  | op_sem_wait key ctx c : sem_wait cpuid key ctx k = Done (c, k') → operation k k'
  | op_sem_signal key ctx c : sem_signal cpuid key ctx k = Done (c, k') → operation k k'
  | op_new_sem key v r : new_sem cpuid key v k = Done (r, k') → operation k k'
  | op_remove_sem key r : remove_sem cpuid key k = Done (r, k') → operation k k'
  | op_brk a r : brk PHYSICAL_OFFSET cpuid a k = Done (r, k') → operation k k'
  | op_page_fault a e r : handle_page_fault PHYSICAL_OFFSET cpuid a e k = Done (r, k') → operation k k'.

(** C37: Every operation of the process manager, started on any well-formed kernel, not
    only on one it can reach, leaves a well-formed one: pids stay unique and below
    the next one, a process has its memory and its data exactly until it exits, one
    process runs and is known, the ready queue holds known processes only and no
    ready process is missing from it.  Operations that create a process need a pid
    that is left. *)
Theorem operation_wf (k k' : Kernel PT Q) : operation k k' → wf cpuid k → wf cpuid k'.
Proof.
  intros Hop Hwf. destruct Hop.
  - by eapply switch_wf.
  - by eapply fork_wf.
  - by eapply spawn_wf.
  - by eapply process_exit_wf.
  - by eapply kill_wf.
  - by eapply wait_pid_wf.
  - by eapply sem_wait_wf.
  - by eapply sem_signal_wf.
  - by eapply new_sem_wf.
  - by eapply remove_sem_wf.
  - by eapply brk_wf.
  - by eapply handle_page_fault_wf.
Qed.

End Typing.

(** ** An example: initialisation, a key, a timer interrupt *)

Section ReachableWitnesses.
#[local] Existing Instance x86_ref.
#[local] Existing Instance release.

(** A bump allocator. *)
#[export] Instance bump_allocator : UserAllocator Z := {|
  allocate_first_fit size align next := (Some next, next + size);
  ua_deallocate ptr size align next := next;
  ua_used next := next;
  kernel_used _ := 0;
|}.

Definition boot_example : Kernel table queue :=
  mkKernel mem_empty (mkStore ∅ ∅ ∅ (mkIo INPUT_BUF_init [])) Pid.NEXT_PID_init
    Processor.PROCESSORS_init ∅ ∅ [] ∅ None.
Definition started_example : Kernel table queue := state_of (init 0 [] boot_example) boot_example.
Definition layout_example (l : list Z) : Z * Z := (0, 0).
Definition key_example : Kernel table queue * Z :=
  state_of (receive (Some 65) (started_example, 0)) (started_example, 0).
Definition tick_example : Kernel table queue * Z :=
  state_of (clock 0 (regs_example 5) key_example) key_example.

Lemma reachable_inv_witness :
  wf 0 tick_example.1 ∧
  (∃ p, lookup_proc tick_example.1 1 = Some p ∧ exit_code (inner p) = None ∧
     status (inner p) ≠ Blocked ∧ status (inner p) ≠ Dead).
Proof.
  destruct (reachable_inv offset_example 0 (8, 16) 0 layout_example [] boot_example started_example () 0 tick_example)
    as (H1 & H2 & _).
  - reflexivity.
  - apply value_state. vm_compute. reflexivity.
  - eapply rtc_l.
    { apply (step_key offset_example 0 (8, 16) 0 layout_example (Some 65) _ key_example).
      apply value_state. vm_compute. reflexivity. }
    eapply rtc_l; [|apply rtc_refl].
    apply (step_clock offset_example 0 (8, 16) 0 layout_example (regs_example 5) (regs_example 5)).
    apply value_state. vm_compute. reflexivity.
  - split; [exact H1|exact H2].
Defined.

Lemma operation_wf_witness : wf 0 sem_signal_example.
Proof.
  apply (operation_wf offset_example 0 (8, 16) kernel_example sem_signal_example); [|apply kernel_example_wf].
  apply (op_sem_signal _ _ _ _ _ 7 (regs_example 63) (regs_example 63)). apply value_state. vm_compute. reflexivity.
Defined.

End ReachableWitnesses.
