(* ===== verification/SyscallFacts.v ===== *)
(** What a user process gets from a system call: the numbering, reading and writing
    its standard streams through its own page table, and the arguments that
    stop the kernel. *)
From S2P Require Import Prelude Arch Pid Sync Frames Elf Stack Heap Vm Context Resource Data Process Manager Syscall Scheduler KernelExample Reachable.
From stdpp Require Import strings.
#[local] Open Scope Z_scope.

Section SyscallFacts.
Context `{Profile} `{X86_64} {PT Q UA : Type} `{Mapper PT} `{ArrayQueue Q} `{UserAllocator UA}.
Context (PHYSICAL_OFFSET : option Z) (cpuid : nat) (selector : Z * Z) (clock_nanos : Z).
Context (Layout_of : list Z → Z * Z).
#[local] Abbreviation St := (Kernel PT Q * UA)%type.
#[local] Abbreviation dispatcher :=
  (dispatcher (PT := PT) (Q := Q) (UA := UA) PHYSICAL_OFFSET cpuid selector clock_nanos Layout_of).
#[local] Abbreviation running := (running (PT := PT) (Q := Q) cpuid).

(** The registers of a call. *)
Definition call (ctx : ProcessContext) : Z := rax (regs (value ctx)).
Definition first (ctx : ProcessContext) : Z := rdi (regs (value ctx)).
Definition second (ctx : ProcessContext) : Z := rsi (regs (value ctx)).
Definition third (ctx : ProcessContext) : Z := rdx (regs (value ctx)).

Lemma from_number c : Syscall.from (Syscall.number c) = c.
Proof. by destruct c. Qed.

Lemma from_unknown n : (∀ c, Syscall.number c ≠ n) → Syscall.from n = Syscall.None_.
Proof.
  intros Hn. unfold Syscall.from. destruct (filter _ _) as [|c l] eqn:E; [done|].
  assert (Hin : c ∈ filter (λ s, Syscall.number s = n) Syscall.all) by (rewrite E; by left).
  apply list_elem_of_filter in Hin as [Hc _]. by apply Hn in Hc.
Qed.

(** Call numbers.  Every call is found back from its number, and a number that
    is none of them changes nothing: neither the kernel nor the registers of
    the caller. *)
Theorem call_numbers :
  (∀ c, Syscall.from (Syscall.number c) = c) ∧
  ∀ ctx (s : St), (∀ c, c ≠ Syscall.None_ → Syscall.number c ≠ call ctx) →
    dispatcher ctx s = Done (ctx, s).
Proof.
  split; [apply from_number|]. intros ctx s Hc. unfold Syscall.dispatcher.
  assert (E : Syscall.syscall (args_of ctx) = Syscall.None_); [|by rewrite E].
  unfold args_of, call in *. simpl. destruct (decide (rax (regs (value ctx)) = Syscall.number Syscall.None_)) as [->|Hne].
  { apply from_number. }
  apply from_unknown. intros c Hn. destruct (decide (c = Syscall.None_)) as [->|]; [congruence|by apply (Hc c)].
Qed.

Lemma dispatcher_call c ctx : Syscall.number c = call ctx → Syscall.syscall (args_of ctx) = c.
Proof. intros Hc. unfold args_of, call in *. simpl. rewrite <- Hc. apply from_number. Qed.

Context `{!X86_64_Laws _}.

(** Three calls by which a user process stops the kernel, whatever state it is
    in: [brk] with an address in the non-canonical gap, and [allocate] and
    [deallocate] with a null pointer to the layout. *)
Theorem user_stops_kernel ctx (s : St) r :
  (call ctx = Syscall.number Syscall.Brk ∧ 2 ^ 47 ≤ first ctx < 2 ^ 64 - 2 ^ 47) ∨
  (call ctx = Syscall.number Syscall.Allocate ∧ first ctx = 0) ∨
  (call ctx = Syscall.number Syscall.Deallocate ∧ second ctx = 0) →
  dispatcher ctx s ≠ Done r.
Proof.
  intros [[Hc Ha]|[[Hc Ha]|[Hc Ha]]] Hd; destruct r as [ctx' s']; unfold Syscall.dispatcher in Hd;
    rewrite (dispatcher_call _ _ (eq_sym Hc)) in Hd.
  - apply bind_Done in Hd as (r & s1 & Hd & _). unfold sys_brk in Hd. apply zoom_Done in Hd as (k & Hd & _).
    change (arg0 (args_of ctx)) with (first ctx) in Hd.
    rewrite (proj2 (Z.eqb_neq _ _)) in Hd by lia. unfold brk in Hd.
    apply bind_Done in Hd as (loc & k1 & _ & Hd). apply bind_Done in Hd as (p & k2 & _ & Hd).
    apply zoom_Done in Hd as (m & Hd & _). unfold Inner.brk in Hd. apply bind_Done in Hd as (v & m1 & _ & Hd).
    apply bind_Done in Hd as (a & m2 & Hd & _). apply bind_Done in Hd as (va & m3 & Hva & _).
    apply unwrap_Done in Hva as [Hva _]. by rewrite VirtAddr_new_gap in Hva.
  - apply bind_Done in Hd as (r & s1 & Hd & _). unfold sys_allocate in Hd.
    change (arg0 (args_of ctx)) with (first ctx) in Hd. by rewrite Ha in Hd.
  - apply bind_Done in Hd as (r & s1 & Hd & _). unfold sys_deallocate in Hd.
    change (arg1 (args_of ctx)) with (second ctx) in Hd. by rewrite Ha in Hd.
Qed.

(** ** The standard streams *)

(** The descriptor [fd] of the running process. *)
Definition descriptor (k : Kernel PT Q) (fd : Z) : option Resource :=
  q ← running k; p ← lookup_proc k q; d ← proc_data (inner p);
  handles ← resources (data k) !! resources_ d; handles !! fd.

Definition set_io (i : Io Q) (k : Kernel PT Q) : Kernel PT Q :=
  let d := data k in set_data (mkStore (envs d) (resources d) (semaphores d) i) k.

Lemma on_current_data {R} (f : ProcessData → M (DataStore Q) R) (k : Kernel PT Q) q p d :
  running k = Some q → lookup_proc k q = Some p → proc_data (inner p) = Some d →
  (loc ← current cpuid; p ← read_proc loc; d ← unwrap (proc_data (inner p)); on_data (f d)) k = on_data (f d) k.
Proof.
  intros Hr (loc & Hq & Hp)%bind_Some Hd.
  assert (Hcur : current cpuid k = Done (loc, k)).
  { unfold current, get_proc. rewrite (bind_step _ _ _ _ _ (current_pid_running _ _ _ Hr)).
    rewrite (bind_step _ _ _ _ _ eq_refl). by rewrite Hq. }
  assert (Hrd : read_proc loc k = Done (p, k)) by (unfold read_proc, mbind, M_bind, get; by rewrite Hp).
  rewrite (bind_step _ _ _ _ _ Hcur), (bind_step _ _ _ _ _ Hrd), Hd. done.
Qed.

(** [read] and [write] on the running process are those of its descriptor table. *)
Lemma descriptor_read k fd res buf :
  descriptor k fd = Some res →
  read cpuid fd buf k =
  match Resource_read res buf (io (data k)) with
  | Done (r, i) => Done (match r.1 with Some n => (as_isize n, r.2) | None => (-1, r.2) end, set_io i k)
  | Panic => Panic
  | OutOfFuel => OutOfFuel
  end.
Proof.
  intros (q & Hr & (p & Hp & (d & Hd & (hs & Hh & Hres)%bind_Some)%bind_Some)%bind_Some)%bind_Some.
  unfold read, manager_read. rewrite (on_current_data _ k q p d) by done.
  unfold on_data, zoom, Data.read, mbind, M_bind, get. rewrite Hh. simpl.
  unfold ResourceSet.read, zoom. rewrite Hres. unfold mbind, M_bind.
  destruct (Resource_read res buf (io (data k))) as [[r i]| |]; [|done..]. by destruct r as [[n|] b].
Qed.

Lemma descriptor_write k fd res buf :
  descriptor k fd = Some res →
  write cpuid fd buf k =
  match Resource_write res buf (io (data k)) with
  | Done (r, i) => Done (match r with Some n => as_isize n | None => -1 end, set_io i k)
  | Panic => Panic
  | OutOfFuel => OutOfFuel
  end.
Proof.
  intros (q & Hr & (p & Hp & (d & Hd & (hs & Hh & Hres)%bind_Some)%bind_Some)%bind_Some)%bind_Some.
  unfold write, manager_write. rewrite (on_current_data _ k q p d) by done.
  unfold on_data, zoom, Data.write, mbind, M_bind, get. rewrite Hh. simpl.
  unfold ResourceSet.write, zoom. rewrite Hres. unfold mbind, M_bind.
  destruct (Resource_write res buf (io (data k))) as [[r i]| |]; [|done..]. by destruct r as [n|].
Qed.

Context (contents : Q → list Z) (capacity : Q → nat) `{!ArrayQueue_Laws Q contents capacity}.

Definition set_bytes (f : (Z → Z) → Z → Z) (k : Kernel PT Q) : Kernel PT Q :=
  let m := kmem k in
  set_kmem (mkMem (mkMachine (tables (machine m)) (falloc (machine m)) (f (Elf.mem (machine m)))) (arcs m) (ends m) (cr3 m)) k.

Lemma answer ctx (m : M St Z) s r s' :
  m s = Done (r, s') → (r ← m; mret (Context.set_rax r ctx)) s = Done (Context.set_rax r ctx, s').
Proof. intros Hm. by rewrite (bind_step _ _ _ _ _ Hm). Qed.

Lemma addresses_cons ptr len : 0 < len → ∃ l, addresses ptr len = ptr :: l.
Proof.
  intros Hl. unfold addresses. rewrite seqZ_cons by done. eexists. simpl. f_equal. lia.
Qed.

Lemma write_byte_eq va b (k : Kernel PT Q) (ua : UA) pa :
  physical PHYSICAL_OFFSET k va = Some pa →
  write_byte PHYSICAL_OFFSET va b (k, ua) = Done ((), (set_bytes (write_bytes pa b 1) k, ua)).
Proof. intros Hp. unfold write_byte. rewrite (bind_step _ _ _ _ _ eq_refl). simpl. by rewrite Hp. Qed.

Lemma stdin_read (buf : list Z) b (i : Io Q) :
  Resource_read (Console Stdin) (b :: buf) i =
  let q' := (aq_pop (INPUT_BUF i)).2 in
  match (aq_pop (INPUT_BUF i)).1 with
  | Some ch => Done ((Some 1, ch :: buf), mkIo q' (output i))
  | None => Done ((Some 0, b :: buf), mkIo q' (output i))
  end.
Proof.
  unfold Resource_read, try_pop_key, mbind, M_bind. by destruct (aq_pop (INPUT_BUF i)) as [[ch|] q].
Qed.

(** Reading the keyboard.  [read] on a descriptor open on the standard input
    never blocks: with no key waiting it answers 0 and changes nothing but the
    register; otherwise the key that arrived first is removed from the buffer
    and stored at the first byte of the caller's buffer, as the caller's page
    table maps it, and the answer is 1. *)
Theorem sys_read_stdin ctx (k : Kernel PT Q) (ua : UA) pa :
  call ctx = Syscall.number Syscall.Read → descriptor k (wrap 8 (first ctx)) = Some (Console Stdin) →
  0 < third ctx → physical PHYSICAL_OFFSET k (second ctx) = Some pa →
  let q' := (aq_pop (INPUT_BUF (io (data k)))).2 in
  let k1 := set_io (mkIo q' (output (io (data k)))) k in
  match contents (INPUT_BUF (io (data k))) with
  | [] => contents q' = [] ∧ dispatcher ctx (k, ua) = Done (Context.set_rax 0 ctx, (k1, ua))
  | ch :: rest => contents q' = rest ∧
      dispatcher ctx (k, ua) = Done (Context.set_rax 1 ctx, (set_bytes (write_bytes pa ch 1) k1, ua))
  end.
Proof.
  intros Hc Hd Hlen Hpa. cbv zeta. unfold Syscall.dispatcher. rewrite (dispatcher_call _ _ (eq_sym Hc)).
  set (m := sys_read _ _ _). set (i := io (data k)).
  destruct (aq_pop (INPUT_BUF i)) as [o q'] eqn:Eq. apply aq_pop_contents in Eq as Hq. destruct Hq as (_ & Hq & Hn).
  rewrite Hq. simpl.
  assert (Hm : m (k, ua) = match o with
    | Some ch => Done (1, (set_bytes (write_bytes pa ch 1) (set_io (mkIo q' (output i)) k), ua))
    | None => Done (0, (set_io (mkIo q' (output i)) k, ua)) end).
  { unfold m, sys_read, peek_slice. change (arg0 (args_of ctx)) with (first ctx).
    change (arg1 (args_of ctx)) with (second ctx). change (arg2 (args_of ctx)) with (third ctx).
    rewrite (bind_step _ _ _ _ _ eq_refl). destruct (addresses_cons (second ctx) (third ctx) Hlen) as [l ->].
    cbv zeta. cbn [fmap list_fmap]. unfold on_kernel at 1.
    unfold mbind at 1, M_bind at 1, zoom at 1. simpl fst. rewrite (descriptor_read _ _ _ _ Hd), stdin_read.
    fold i. rewrite Eq. destruct o as [ch|]; simpl; [|done].
    assert (Hpa' : physical PHYSICAL_OFFSET (set_io (mkIo q' (output i)) k) (second ctx) = Some pa) by exact Hpa.
    by rewrite (bind_step _ _ _ _ _ (bind_step _ _ _ _ _ (write_byte_eq _ ch _ ua _ Hpa'))). }
  destruct o as [ch|]; simpl.
  - split; [done|]. by apply answer.
  - rewrite Hn in Hq by done. simpl in Hq. rewrite <- Hq. split; [done|]. by apply answer.
Qed.

Lemma addresses_lookup ptr len (i : nat) : Z.of_nat i < len → addresses ptr len !! i = Some (ptr + Z.of_nat i).
Proof.
  intros Hi. unfold addresses. rewrite list_lookup_fmap, (proj2 (lookup_seqZ _ _ _ (Z.of_nat i))); [done|lia].
Qed.

Lemma length_addresses ptr len : 0 ≤ len → Z.of_nat (length (addresses ptr len)) = len.
Proof. intros Hl. unfold addresses. rewrite length_fmap, length_seqZ. lia. Qed.

Lemma slice_mapped_lookup (k : Kernel PT Q) ptr len va :
  slice_mapped PHYSICAL_OFFSET k ptr len = true → va ∈ addresses ptr len →
  is_Some (physical PHYSICAL_OFFSET k va).
Proof.
  unfold slice_mapped. rewrite forallb_forall. intros Hm Hin. apply list_elem_of_In in Hin.
  by apply Hm, bool_decide_eq_true in Hin.
Qed.

(** Writing.  [write] of a buffer that is mapped answers its length on the
    standard output, which gets exactly the bytes that the caller's page table
    maps the buffer to, on the standard error, where they are logged, and on the
    null resource, where they are ignored; on the standard input it answers -1.
    Nothing else changes. *)
Theorem sys_write_spec ctx (k : Kernel PT Q) (ua : UA) res :
  call ctx = Syscall.number Syscall.Write → descriptor k (wrap 8 (first ctx)) = Some res →
  0 ≤ third ctx < 2 ^ 63 → slice_mapped PHYSICAL_OFFSET k (second ctx) (third ctx) = true →
  ∃ bytes,
    Z.of_nat (length bytes) = third ctx ∧
    (∀ i : nat, Z.of_nat i < third ctx → ∃ pa,
       physical PHYSICAL_OFFSET k (second ctx + Z.of_nat i) = Some pa ∧
       bytes !! i = Some (Elf.mem (machine (kmem k)) pa)) ∧
    let i := io (data k) in
    let answered n o := Done (Context.set_rax n ctx, (set_io (mkIo (INPUT_BUF i) o) k, ua)) in
    dispatcher ctx (k, ua) =
    match res with
    | Console Stdin => answered u64_max (output i)
    | Console Stdout => answered (third ctx) (Print bytes :: output i)
    | Console Stderr => answered (third ctx) (Warn bytes :: output i)
    | Null => answered (third ctx) (output i)
    end.
Proof.
  intros Hc Hd Hlen Hm. set (bytes := (λ va, from_option (Elf.mem (machine (kmem k))) 0 (physical PHYSICAL_OFFSET k va))
    <$> addresses (second ctx) (third ctx)).
  assert (Hl : Z.of_nat (length bytes) = third ctx) by (unfold bytes; rewrite length_fmap; apply length_addresses; lia).
  exists bytes. split_and!; [done| |].
  { intros i Hi. pose proof (addresses_lookup (second ctx) (third ctx) i Hi) as Ha.
    destruct (slice_mapped_lookup _ _ _ _ Hm (list_elem_of_lookup_2 _ _ _ Ha)) as [pa Hpa].
    exists pa. split; [done|]. unfold bytes. rewrite list_lookup_fmap, Ha. simpl. by rewrite Hpa. }
  cbv zeta. set (i := io (data k)).
  assert (Hw : ∀ r o, Resource_write res bytes i = Done (r, mkIo (INPUT_BUF i) o) →
    dispatcher ctx (k, ua) = Done (Context.set_rax (as_usize (match r with Some n => as_isize n | None => -1 end)) ctx,
      (set_io (mkIo (INPUT_BUF i) o) k, ua))).
  { intros r o Hr. unfold Syscall.dispatcher. rewrite (dispatcher_call _ _ (eq_sym Hc)). apply answer.
    unfold sys_write, peek_slice. rewrite (bind_step _ _ _ _ _ eq_refl). simpl. fold bytes.
    change (arg0 (args_of ctx)) with (first ctx). change (arg1 (args_of ctx)) with (second ctx).
    change (arg2 (args_of ctx)) with (third ctx). rewrite (bind_step _ _ _ _ _ eq_refl).
    assert (Hk : on_kernel (write cpuid (wrap 8 (first ctx)) bytes) (k, ua) =
      Done (match r with Some n => as_isize n | None => -1 end, (set_io (mkIo (INPUT_BUF i) o) k, ua))).
    { unfold on_kernel, zoom. simpl. rewrite (descriptor_write _ _ _ _ Hd). fold i. by rewrite Hr. }
    fold bytes in Hk |- *. rewrite (bind_step _ _ _ _ _ Hk), (bind_step _ _ _ _ _ eq_refl). cbv zeta. cbn [fst].
    change (slice_mapped _ k (rsi _) (rdx _)) with (slice_mapped PHYSICAL_OFFSET k (second ctx) (third ctx)). rewrite Hm. by rewrite andb_false_r. }
  assert (Hn : as_usize (as_isize (Z.of_nat (length bytes))) = third ctx).
  { rewrite Hl. unfold as_isize, as_usize. rewrite (proj2 (Z.ltb_lt _ _)) by lia. apply wrap_small. lia. }
  destruct res as [[| |]|].
  - apply (Hw None). by destruct i.
  - rewrite <- Hn. by apply (Hw (Some (Z.of_nat (length bytes)))).
  - rewrite <- Hn. by apply (Hw (Some (Z.of_nat (length bytes)))).
  - rewrite <- Hn. apply (Hw (Some (Z.of_nat (length bytes)))). by destruct i.
Qed.

End SyscallFacts.

(** ** Examples *)

Section SyscallWitnesses.
#[local] Existing Instance x86_ref.
#[local] Existing Instance release.

(** The registers of a call with three arguments. *)
Definition call_example (n a b c : Z) : ProcessContext :=
  mkContext (mkValue (mkRegs 0 0 0 0 0 0 0 0 a b c 0 0 n 0) (mkFrame 0x400000 8 0x200 STACK_INIT_TOP 16)).

(** The letter a waits in the input buffer. *)
Definition typed_example : Kernel table queue := set_io (mkIo (128%nat, [97]) []) kernel_example.
Definition buffer_example : Z := STACK_INIT_BOT + 8.

Lemma user_stops_kernel_witness :
  dispatcher offset_example 0 (8, 16) 0 layout_example (call_example 12 (2 ^ 47) 0 0) (kernel_example, 0)
    ≠ Done (call_example 0 0 0 0, (kernel_example, 0)).
Proof.
  apply (user_stops_kernel offset_example 0 (8, 16) 0 layout_example (call_example 12 (2 ^ 47) 0 0)
    (kernel_example, 0)).
  left. split; [reflexivity|]. unfold first. simpl. lia.
Defined.

Lemma sys_read_stdin_witness :
  dispatcher offset_example 0 (8, 16) 0 layout_example (call_example 0 0 buffer_example 1) (typed_example, 0) =
  Done (Context.set_rax 1 (call_example 0 0 buffer_example 1),
    (set_bytes (write_bytes 0x10a008 97 1) (set_io (mkIo (128%nat, []) []) typed_example), 0)).
Proof.
  refine (proj2 (sys_read_stdin offset_example 0 (8, 16) 0 layout_example snd fst
    (call_example 0 0 buffer_example 1) typed_example 0 0x10a008 _ _ _ _)).
  - reflexivity.
  - vm_compute. reflexivity.
  - reflexivity.
  - vm_compute. reflexivity.
Defined.

Lemma sys_write_spec_witness :
  ∃ bytes, Z.of_nat (length bytes) = 2 ∧
    dispatcher offset_example 0 (8, 16) 0 layout_example (call_example 1 1 buffer_example 2) (kernel_example, 0) =
    Done (Context.set_rax 2 (call_example 1 1 buffer_example 2),
      (set_io (mkIo INPUT_BUF_init [Print bytes]) kernel_example, 0)).
Proof.
  destruct (sys_write_spec offset_example 0 (8, 16) 0 layout_example
    (call_example 1 1 buffer_example 2) kernel_example 0 (Console Stdout)) as (bytes & Hl & _ & Hd).
  - reflexivity.
  - vm_compute. reflexivity.
  - unfold third. simpl. lia.
  - vm_compute. reflexivity.
  - exists bytes. split; [exact Hl|exact Hd].
Defined.

End SyscallWitnesses.
