(* ===== verification/Clients.v ===== *)
(** User processes as clients of the kernel's semaphores.

    A user program forks workers that share its memory (a fork copies the
    stack only) and its table of semaphores.  A worker is the list of what it
    still has to do: calls of [wait] and [signal] ([pkg/lib/src/sync.rs]), and
    actions on the shared memory.  [turn] is one step of one worker; its
    answers from the semaphores are those of [Sync.SemaphoreSet], and it is
    blocked and woken as [proc/mod.rs] does.  The workers of a system take
    their turns in any order, which is what preemption allows.

    [balanced] is the invariant that the applications' proofs rest on: what is
    left of a semaphore's count is its first value, less the grants, plus the
    signals. *)
From S2P Require Import Prelude Sync.

(** * Sums over a finite map *)

Definition total {A} (f : A → Z) (m : gmap Z A) : Z := map_fold (λ _ a n, f a + n) 0 m.

Lemma total_empty {A} (f : A → Z) : total f ∅ = 0.
Proof. apply map_fold_empty. Qed.

Lemma total_new {A} (f : A → Z) m p a :
  m !! p = None → total f (<[p := a]> m) = f a + total f m.
Proof.
  intros. unfold total. apply (map_fold_insert_L (λ _ a n, f a + n)); [|done]. intros. lia.
Qed.

Lemma total_delete {A} (f : A → Z) m p a :
  m !! p = Some a → total f m = f a + total f (delete p m).
Proof.
  intros E. rewrite <- (insert_id m p a) at 1 by done. rewrite <- insert_delete_eq.
  apply total_new, lookup_delete_eq.
Qed.

Lemma total_update {A} (f : A → Z) m p a b :
  m !! p = Some a → total f (<[p := b]> m) = total f m + f b - f a.
Proof.
  intros E. rewrite <- insert_delete_eq, total_new by apply lookup_delete_eq.
  rewrite (total_delete f m p a E). lia.
Qed.

Lemma total_le {A} (f g : A → Z) m :
  map_Forall (λ _ a, f a ≤ g a) m → total f m ≤ total g m.
Proof.
  induction m as [|p a m E IH] using map_ind; intros H; [by rewrite !total_empty|].
  rewrite !total_new by done. apply map_Forall_insert in H as [? ?]; [|done].
  specialize (IH ltac:(done)). lia.
Qed.

Lemma total_add {A} (f g : A → Z) m : total (λ a, f a + g a) m = total f m + total g m.
Proof.
  induction m as [|p a m E IH] using map_ind; [by rewrite !total_empty|].
  rewrite !total_new by done. lia.
Qed.

Lemma total_ext {A} (f g : A → Z) m : (∀ a, f a = g a) → total f m = total g m.
Proof. intros H. apply Z.le_antisymm; apply total_le; intros p a _; rewrite H; lia. Qed.

Lemma total_scale {A} (f : A → Z) n m : total (λ a, n * f a) m = n * total f m.
Proof.
  induction m as [|p a m E IH] using map_ind; [rewrite !total_empty; lia|].
  rewrite !total_new by done. lia.
Qed.

Lemma total_nonneg {A} (f : A → Z) m : map_Forall (λ _ a, 0 ≤ f a) m → 0 ≤ total f m.
Proof.
  induction m as [|p a m E IH] using map_ind; intros H; [by rewrite total_empty|].
  rewrite total_new by done. apply map_Forall_insert in H as [? ?]; [|done].
  specialize (IH ltac:(done)). lia.
Qed.

Lemma total_zero {A} (f : A → Z) m : map_Forall (λ _ a, f a = 0) m → total f m = 0.
Proof.
  induction m as [|p a m E IH] using map_ind; intros H; [by rewrite total_empty|].
  rewrite total_new by done. apply map_Forall_insert in H as [-> ?]; [|done].
  by rewrite IH.
Qed.

Lemma total_ge {A} (f : A → Z) m p a :
  map_Forall (λ _ a, 0 ≤ f a) m → m !! p = Some a → f a ≤ total f m.
Proof.
  intros H E. rewrite (total_delete f m p a E).
  pose proof (total_nonneg f (delete p m) (map_Forall_delete _ _ _ H)). lia.
Qed.

Lemma total_ge2 {A} (f : A → Z) m p q a b :
  map_Forall (λ _ a, 0 ≤ f a) m → p ≠ q → m !! p = Some a → m !! q = Some b →
  f a + f b ≤ total f m.
Proof.
  intros H Hpq Ea Eb. rewrite (total_delete f m p a Ea).
  pose proof (total_ge f (delete p m) q b (map_Forall_delete _ _ _ H)) as Hb.
  rewrite lookup_delete_ne in Hb by done. specialize (Hb Eb). lia.
Qed.

Lemma total_list {A} (f : A → Z) (l : list (Z * A)) :
  NoDup l.*1 → total f (list_to_map l) = foldr (λ x n, f x.2 + n) 0 l.
Proof.
  induction l as [|[p a] l IH]; simpl; [done|]. intros [Hp Hl]%NoDup_cons.
  rewrite total_new by by apply not_elem_of_list_to_map_1. by rewrite IH.
Qed.

(** * The programs *)

(** What a worker does next: a system call on the semaphore with a key, or an
    action on the shared memory. *)
Inductive instr (act : Type) : Type :=
  | Wait (key : Z)
  | Signal (key : Z)
  | Act (a : act).
Arguments Wait {act} key.
Arguments Signal {act} key.
Arguments Act {act} a.

#[global] Instance instr_eq_dec `{EqDecision act} : EqDecision (instr act).
Proof. solve_decision. Defined.

(** [lib::Semaphore]: a key; [wait] and [signal] drop the call's answer. *)
Module UserSemaphore.
Record Semaphore : Type := mkSemaphore { key : Z }.

Definition new (key : Z) : Semaphore := mkSemaphore key.

Definition init (s : Semaphore) (value : Z) : M (gmap Z Sync.Semaphore) bool :=
  SemaphoreSet.insert (key s) value.

Definition wait {act} (s : Semaphore) : instr act := Wait (key s).

Definition signal {act} (s : Semaphore) : instr act := Signal (key s).

Definition remove (s : Semaphore) : M (gmap Z Sync.Semaphore) bool :=
  SemaphoreSet.remove (key s).
End UserSemaphore.

(** What an action does to the worker's own variables and the shared memory;
    [Spin] has the worker try again. *)
Inductive effect (L G : Type) : Type :=
  | Go (l : L) (g : G)
  | Spin
  | Crash.
Arguments Go {L G} l g.
Arguments Spin {L G}.
Arguments Crash {L G}.

Section System.
Context `{Profile} {L G act : Type}.
(** What the actions do, which is the application's. *)
Variable run : act → L → G → effect L G.

(** A worker: what is left of its program, the semaphore it is blocked on, and
    its variables. *)
Record client : Type := mkClient {
  rem : list (instr act);
  waiting : option Z;
  local : L;
}.

Record state : Type := mkState {
  sems : gmap Z Semaphore;
  clients : gmap Z client;
  shared : G;
}.

Definition update (p : Z) (c : client) : M state () :=
  modify (λ s, mkState (sems s) (<[p := c]> (clients s)) (shared s)).

Definition unblock (c : client) : client := mkClient (rem c) None (local c).

Definition wake (p : Z) : M state () :=
  modify (λ s, mkState (sems s) (alter unblock p (clients s)) (shared s)).

Definition on_sems {A} (m : M (gmap Z Semaphore) A) : M state A :=
  zoom sems (λ t s, mkState t (clients s) (shared s)) m.

(** One step of the worker [p]; nothing happens when it cannot run. *)
Definition turn (p : Z) : M state () :=
  s ← get;
  match clients s !! p with
  | Some (mkClient (Act a :: r) None l) =>
      match run a l (shared s) with
      | Go l' g => put (mkState (sems s) (<[p := mkClient r None l']> (clients s)) g)
      | Spin => mret ()
      | Crash => panic
      end
  | Some (mkClient (Wait k :: r) None l) =>
      ans ← on_sems (SemaphoreSet.wait k p);
      update p (mkClient r (match ans with Block _ => Some k | _ => None end) l)
  | Some (mkClient (Signal k :: r) None l) =>
      ans ← on_sems (SemaphoreSet.signal k);
      update p (mkClient r None l);;
      match ans with WakeUp q => wake q | _ => mret () end
  | _ => mret ()
  end.

(** The worker [p] can run. *)
Definition runnable (p : Z) (s : state) : Prop :=
  ∃ i r l, clients s !! p = Some (mkClient (i :: r) None l).

Definition step (s s' : state) : Prop := ∃ p, runnable p s ∧ turn p s = Done ((), s').

(** Every worker is through. *)
Definition finished (s : state) : Prop :=
  map_Forall (λ _ c, rem c = [] ∧ waiting c = None) (clients s).

(** A schedule: which worker takes each turn. *)
Fixpoint schedule (ps : list Z) : M state () :=
  match ps with
  | [] => mret ()
  | p :: ps => turn p;; schedule ps
  end.

(** ** What is owed to a semaphore *)

Fixpoint waits (k : Z) (r : list (instr act)) : Z :=
  match r with
  | [] => 0
  | Wait j :: r => (if decide (j = k) then 1 else 0) + waits k r
  | _ :: r => waits k r
  end.

Fixpoint signals (k : Z) (r : list (instr act)) : Z :=
  match r with
  | [] => 0
  | Signal j :: r => (if decide (j = k) then 1 else 0) + signals k r
  | _ :: r => signals k r
  end.

Definition is_waiting (k : Z) (c : client) : Z := if decide (waiting c = Some k) then 1 else 0.

(** The grants a worker still needs from [k], less the signals it will give. *)
Definition need (k : Z) (c : client) : Z :=
  waits k (rem c) + is_waiting k c - signals k (rem c).

(** At most so many grants to come. *)
Definition weight (c : client) : Z :=
  Z.of_nat (length (rem c)) + if decide (waiting c = None) then 0 else 1.

(** The worker [p] is somewhere in its program [P p], and is blocked only
    right after a [wait]. *)
Definition on_track (P : Z → list (instr act)) (p : Z) (c : client) : Prop :=
  ∃ n, (n ≤ length (P p))%nat ∧ rem c = drop n (P p) ∧
       ∀ k, waiting c = Some k → P p !! pred n = Some (Wait k) ∧ (0 < n)%nat.

(** The workers blocked on [k]. *)
Definition waiter (k : Z) (m : gmap Z client) (p : Z) : Prop :=
  ∃ c, m !! p = Some c ∧ waiting c = Some k.

(** The invariant of a system whose semaphores have [base k] more permits than
    their users are to take. *)
Record balanced (base : Z → Z) (P : Z → list (instr act)) (s : state) : Prop := {
  balanced_track : map_Forall (on_track P) (clients s);
  balanced_count : ∀ k sem, sems s !! k = Some sem →
    count sem = base k + total (need k) (clients s) ∧ Semaphore.wf sem;
  balanced_queue : ∀ k sem, sems s !! k = Some sem →
    NoDup (wait_queue sem) ∧ ∀ p, p ∈ wait_queue sem ↔ waiter k (clients s) p;
  balanced_key : ∀ p k, waiter k (clients s) p → is_Some (sems s !! k);
  balanced_room : ∀ k, is_Some (sems s !! k) → base k + total weight (clients s) < 2 ^ 64;
}.

(** ** One turn, case by case *)

Definition put_client (p : Z) (c : client) (s : state) : state :=
  mkState (sems s) (<[p := c]> (clients s)) (shared s).

Definition put_sem (k : Z) (sem : Semaphore) (s : state) : state :=
  mkState (<[k := sem]> (sems s)) (clients s) (shared s).

Definition put_shared (g : G) (s : state) : state := mkState (sems s) (clients s) g.

Lemma turn_act p s a r l :
  clients s !! p = Some (mkClient (Act a :: r) None l) →
  turn p s = match run a l (shared s) with
             | Go l' g => Done ((), put_shared g (put_client p (mkClient r None l') s))
             | Spin => Done ((), s)
             | Crash => Panic
             end.
Proof.
  intros E. unfold turn, get. rewrite (bind_step _ _ s s s) by done. rewrite E. by case_match.
Qed.

Lemma turn_sems_Done {A} (m : M (gmap Z Semaphore) A) s a t :
  m (sems s) = Done (a, t) → on_sems m s = Done (a, mkState t (clients s) (shared s)).
Proof. intros E. unfold on_sems, zoom. by rewrite E. Qed.

Lemma turn_wait p s k r l sem :
  clients s !! p = Some (mkClient (Wait k :: r) None l) →
  sems s !! k = Some sem → Semaphore.wf sem →
  turn p s = Done ((),
    if count sem =? 0
    then put_client p (mkClient r (Some k) l) (put_sem k (mkSemaphore 0 (wait_queue sem ++ [p])) s)
    else put_client p (mkClient r None l) (put_sem k (mkSemaphore (count sem - 1) (wait_queue sem)) s)).
Proof.
  intros E Ek Hwf. unfold turn, get. rewrite (bind_step _ _ s s s) by done. rewrite E.
  pose proof (Semaphore.wait_eq p sem Hwf) as Ew.
  destruct (count sem =? 0); apply (SemaphoreSet.on_sem_Some k _ _ _ _ _ Ek) in Ew;
    by rewrite (bind_step _ _ _ _ _ (turn_sems_Done _ _ _ _ Ew)).
Qed.

Lemma turn_signal p s k r l sem :
  clients s !! p = Some (mkClient (Signal k :: r) None l) →
  sems s !! k = Some sem → Semaphore.wf sem → count sem < 2 ^ 64 - 1 →
  turn p s = Done ((),
    match wait_queue sem with
    | q :: w =>
        let s' := put_client p (mkClient r None l) (put_sem k (mkSemaphore (count sem) w) s) in
        mkState (sems s') (alter unblock q (clients s')) (shared s')
    | [] => put_client p (mkClient r None l) (put_sem k (mkSemaphore (count sem + 1) []) s)
    end).
Proof.
  intros E Ek Hwf Hb. unfold turn, get. rewrite (bind_step _ _ s s s) by done. rewrite E.
  pose proof (Semaphore.signal_eq sem Hwf Hb) as Ew.
  destruct (wait_queue sem); apply (SemaphoreSet.on_sem_Some k _ _ _ _ _ Ek) in Ew; rewrite (bind_step _ _ _ _ _ (turn_sems_Done _ _ _ _ Ew));
    by unfold update; rewrite (bind_step _ _ _ _ _ eq_refl).
Qed.

(** A semaphore that was never created: the calls answer 1, which
    [lib::Semaphore] drops, and the worker goes on. *)
Lemma turn_not_exist p s k r l i :
  clients s !! p = Some (mkClient (i :: r) None l) → i = Wait k ∨ i = Signal k →
  sems s !! k = None →
  turn p s = Done ((), put_client p (mkClient r None l) s).
Proof.
  intros E Hi Ek. unfold turn, get. rewrite (bind_step _ _ s s s) by done. rewrite E.
  pose proof (λ m, turn_sems_Done _ s _ _ (SemaphoreSet.on_sem_None k m (sems s) Ek)) as Ew.
  unfold SemaphoreSet.wait, SemaphoreSet.signal, update.
  destruct Hi as [-> | ->]; rewrite (bind_step _ _ _ _ _ (Ew _));
    [done|by rewrite (bind_step _ _ _ _ _ eq_refl)].
Qed.

(** ** The sums a turn changes *)

Lemma need_wait_granted k j r l :
  need k (mkClient r None l) =
  need k (mkClient (Wait j :: r) None l) - if decide (j = k) then 1 else 0.
Proof. unfold need, is_waiting. simpl. destruct (decide (j = k)); lia. Qed.

Lemma need_wait_blocked k j r l :
  need k (mkClient r (Some j) l) = need k (mkClient (Wait j :: r) None l).
Proof.
  unfold need, is_waiting. simpl. destruct (decide (j = k)) as [->|].
  - rewrite decide_True by done. lia.
  - rewrite decide_False by congruence. lia.
Qed.

Lemma need_signal k j r l :
  need k (mkClient r None l) =
  need k (mkClient (Signal j :: r) None l) + if decide (j = k) then 1 else 0.
Proof. unfold need, is_waiting. simpl. destruct (decide (j = k)); lia. Qed.

Lemma need_act k a r l l' :
  need k (mkClient r None l) = need k (mkClient (Act a :: r) None l').
Proof. unfold need, is_waiting. simpl. lia. Qed.

Lemma need_unblock k j c :
  waiting c = Some j → need k (unblock c) = need k c - if decide (j = k) then 1 else 0.
Proof.
  intros E. unfold need, is_waiting, unblock. simpl. rewrite E. destruct (decide (j = k)) as [->|].
  - rewrite decide_True by done. lia.
  - rewrite decide_False by congruence. lia.
Qed.

Lemma waits_le k r : 0 ≤ waits k r ≤ Z.of_nat (length r).
Proof.
  induction r as [|[j|j|a] r IH]; simpl; [lia|destruct (decide (j = k))| |]; lia.
Qed.

Lemma signals_left_nonneg k r : 0 ≤ signals k r.
Proof. induction r as [|[j|j|a] r IH]; simpl; [lia| |destruct (decide (j = k))|]; lia. Qed.

Lemma need_weight k c : need k c ≤ weight c.
Proof.
  unfold need, weight, is_waiting. pose proof (waits_le k (rem c)). pose proof (signals_left_nonneg k (rem c)).
  destruct (waiting c); repeat case_decide; try lia; congruence.
Qed.

Lemma weight_nonneg c : 0 ≤ weight c.
Proof. unfold weight. case_decide; lia. Qed.

Lemma on_track_next P p i r l w l' :
  on_track P p (mkClient (i :: r) None l) → (∀ k, w = Some k → i = Wait k) →
  on_track P p (mkClient r w l').
Proof.
  intros (n & Hn & Hr & _) Hw. simpl in Hr. exists (S n).
  assert (Hl : (length (drop n (P p)) = S (length r))%nat) by by rewrite <- Hr.
  rewrite length_drop in Hl. split_and!; [lia| |].
  - simpl. by rewrite <- (Nat.add_1_r n), <- drop_drop, <- Hr.
  - simpl. intros k ->%Hw. split; [|lia]. rewrite <- (Nat.add_0_r n), <- lookup_drop. by rewrite <- Hr.
Qed.

Lemma on_track_unblock P p c : on_track P p c → on_track P p (unblock c).
Proof. intros (n & Hn & Hr & _). by exists n. Qed.
Lemma waiter_insert k m p c q :
  waiter k (<[p := c]> m) q ↔ (q = p ∧ waiting c = Some k) ∨ (q ≠ p ∧ waiter k m q).
Proof.
  unfold waiter. destruct (decide (q = p)) as [->|Hq].
  - rewrite lookup_insert_eq. naive_solver.
  - rewrite lookup_insert_ne by done. naive_solver.
Qed.

Lemma waiter_alter k m p q : waiter k (alter unblock p m) q ↔ q ≠ p ∧ waiter k m q.
Proof.
  unfold waiter. destruct (decide (q = p)) as [->|Hq].
  - rewrite lookup_alter_eq. destruct (m !! p); naive_solver.
  - rewrite lookup_alter_ne by done. naive_solver.
Qed.

(** ** Every turn keeps the balance *)

Section Turn.
Context (base : Z → Z) (P : Z → list (instr act)) (s : state) (B : balanced base P s).
Context (p : Z) (i : instr act) (r : list (instr act)) (l : L).
Context (E : clients s !! p = Some (mkClient (i :: r) None l)).

Lemma total_need_turn k c :
  total (need k) (<[p := c]> (clients s)) =
  total (need k) (clients s) + need k c - need k (mkClient (i :: r) None l).
Proof. by apply total_update. Qed.

Lemma not_waiter k : ¬ waiter k (clients s) p.
Proof. intros (c & Hc & Hw). simplify_eq/=. Qed.

Lemma track_turn w l' :
  (∀ k, w = Some k → i = Wait k) →
  map_Forall (on_track P) (<[p := mkClient r w l']> (clients s)).
Proof.
  intros Hw. apply map_Forall_insert_2; [|apply B].
  eapply on_track_next; [|done]. by apply (balanced_track _ _ _ B) in E.
Qed.

Lemma room_turn k w l' :
  is_Some (sems s !! k) → base k + total weight (<[p := mkClient r w l']> (clients s)) < 2 ^ 64.
Proof.
  intros Hk. pose proof (balanced_room _ _ _ B k Hk) as Hr.
  rewrite (total_update _ _ _ _ _ E). unfold weight at 2 3. simpl. case_decide; lia.
Qed.

(** The worker goes on, and the permits of every semaphore change with what it
    needs. *)
Lemma balanced_go l' g (t : gmap Z Semaphore) :
  (∀ k sem, t !! k = Some sem → ∃ sem0, sems s !! k = Some sem0 ∧
     count sem = count sem0 + need k (mkClient r None l') - need k (mkClient (i :: r) None l) ∧
     wait_queue sem = wait_queue sem0 ∧ Semaphore.wf sem) →
  (∀ k, is_Some (sems s !! k) → is_Some (t !! k)) →
  balanced base P (mkState t (<[p := mkClient r None l']> (clients s)) g).
Proof.
  intros Ht Hk. split; simpl.
  - by apply track_turn.
  - intros k sem Hs. destruct (Ht k sem Hs) as (sem0 & H0 & Hc & Hq & Hwf).
    destruct (balanced_count _ _ _ B k sem0 H0) as [Hc0 _].
    rewrite total_need_turn. split; [lia|done].
  - intros k sem Hs. destruct (Ht k sem Hs) as (sem0 & H0 & Hc & Hq & Hwf).
    destruct (balanced_queue _ _ _ B k sem0 H0) as [Hnd Hin]. rewrite Hq. split; [done|].
    intros q. rewrite Hin, waiter_insert. pose proof (not_waiter k). simpl.
    destruct (decide (q = p)) as [->|]; naive_solver.
  - intros q k Hq. apply Hk. apply (balanced_key _ _ _ B q).
    by apply waiter_insert in Hq as [[_ ?]|[_ ?]].
  - intros k Hs. apply room_turn. destruct Hs as [sem Hs]. destruct (Ht k sem Hs) as (? & ? & _). eauto.
Qed.

(** The worker is blocked on [k]. *)
Lemma balanced_block k sem :
  i = Wait k → sems s !! k = Some sem → count sem = 0 →
  balanced base P
    (put_client p (mkClient r (Some k) l) (put_sem k (mkSemaphore 0 (wait_queue sem ++ [p])) s)).
Proof.
  intros Ei Hk Hc. assert (Hn : ∀ j, total (need j) (<[p := mkClient r (Some k) l]> (clients s)) =
    total (need j) (clients s)).
  { intros j. rewrite total_need_turn, Ei, (need_wait_blocked j k). lia. }
  destruct (balanced_count _ _ _ B k sem Hk) as [Hcount _].
  destruct (balanced_queue _ _ _ B k sem Hk) as [Hnd Hin].
  unfold put_client, put_sem. split; simpl.
  - apply track_turn. congruence.
  - intros j sem'. rewrite Hn, lookup_insert_Some.
    intros [[<- <-]|[_ Hj]]; [|by apply B]. simpl. split; [lia|]. split; simpl; [lia|by left].
  - intros j sem'. rewrite lookup_insert_Some. intros [[<- <-]|[Hj Hs]]; simpl.
    + split.
      * apply NoDup_app. split_and!; [done| |apply NoDup_singleton].
        intros q Hq ->%list_elem_of_singleton.
        by apply Hin, not_waiter in Hq.
      * intros q. rewrite elem_of_app, list_elem_of_singleton, Hin, waiter_insert. simpl.
        destruct (decide (q = p)) as [->|]; naive_solver.
    + destruct (balanced_queue _ _ _ B j sem' Hs) as [Hnd' Hin']. split; [done|].
      intros q. rewrite Hin', waiter_insert. simpl. pose proof (not_waiter j).
      destruct (decide (q = p)) as [->|]; naive_solver.
  - intros q j Hq. destruct (decide (j = k)) as [->|]; [by rewrite lookup_insert_eq|].
    rewrite lookup_insert_ne by done. apply (balanced_key _ _ _ B q).
    apply waiter_insert in Hq as [[_ ?]|[_ ?]]; [simplify_eq/=|done].
  - intros j Hj. apply room_turn. destruct (decide (j = k)) as [->|]; [by rewrite Hk|].
    by rewrite lookup_insert_ne in Hj by done.
Qed.

(** The worker signals [k] and the first in the queue goes on. *)
Lemma balanced_wake k sem q w :
  i = Signal k → sems s !! k = Some sem → wait_queue sem = q :: w →
  balanced base P
    (mkState (<[k := mkSemaphore (count sem) w]> (sems s))
       (alter unblock q (<[p := mkClient r None l]> (clients s))) (shared s)).
Proof.
  intros Ei Hk Hq. destruct (balanced_queue _ _ _ B k sem Hk) as [Hnd Hin].
  destruct (balanced_count _ _ _ B k sem Hk) as [Hcount [Hc0 Hwf]].
  rewrite Hq in Hnd. apply NoDup_cons in Hnd as [Hqw Hnd].
  assert (waiter k (clients s) q) as (c & Ec & Hw) by (apply Hin; rewrite Hq; left).
  assert (Hqp : q ≠ p) by (intros ->; by apply (not_waiter k); exists c).
  assert (Ec' : <[p := mkClient r None l]> (clients s) !! q = Some c)
    by by rewrite lookup_insert_ne by done.
  assert (Ha : alter unblock q (<[p := mkClient r None l]> (clients s)) =
    <[q := unblock c]> (<[p := mkClient r None l]> (clients s))).
  { apply map_eq. intros j. destruct (decide (j = q)) as [->|].
    - by rewrite lookup_alter_eq, lookup_insert_eq, Ec'.
    - by rewrite lookup_alter_ne, (lookup_insert_ne _ q j) by done. }
  assert (Hn : ∀ j, total (need j) (alter unblock q (<[p := mkClient r None l]> (clients s))) =
    total (need j) (clients s)).
  { intros j. rewrite Ha, (total_update _ _ _ _ _ Ec'), total_need_turn, Ei.
    rewrite (need_signal j k), (need_unblock j k c Hw). lia. }
  split; simpl.
  - rewrite Ha. apply map_Forall_insert_2; [|by apply track_turn].
    apply on_track_unblock. by apply (balanced_track _ _ _ B) in Ec.
  - intros j sem'. rewrite Hn, lookup_insert_Some.
    intros [[<- <-]|[_ Hj]]; [|by apply B]. simpl. split; [lia|]. split; simpl; [lia|left].
    destruct Hwf as [?|Hwf]; [done|]. by rewrite Hq in Hwf.
  - intros j sem'. rewrite lookup_insert_Some. intros [[<- <-]|[Hj Hs]]; simpl.
    + split; [done|]. intros x. rewrite waiter_alter, waiter_insert. simpl.
      pose proof (not_waiter k). specialize (Hin x). rewrite Hq, elem_of_cons in Hin.
      destruct (decide (x = p)) as [->|]; naive_solver.
    + destruct (balanced_queue _ _ _ B j sem' Hs) as [Hnd' Hin']. split; [done|].
      intros x. rewrite Hin', waiter_alter, waiter_insert. simpl. pose proof (not_waiter j).
      assert (x = q → ¬ waiter j (clients s) x).
      { by intros -> (c' & Hc' & Hw'); simplify_eq. }
      destruct (decide (x = p)) as [->|]; naive_solver.
  - intros x j Hx. apply lookup_insert_is_Some'. right. apply (balanced_key _ _ _ B x).
    apply waiter_alter in Hx as [_ Hx]. by apply waiter_insert in Hx as [[_ ?]|[_ ?]].
  - intros j Hj. rewrite Ha, (total_update _ _ _ _ _ Ec').
    assert (Hj' : is_Some (sems s !! j)).
    { destruct (decide (j = k)) as [->|]; [by rewrite Hk|]. by rewrite lookup_insert_ne in Hj by done. }
    pose proof (room_turn j None l Hj').
    assert (weight (unblock c) ≤ weight c); [|lia].
    unfold weight, unblock. simpl. case_decide; lia.
Qed.

End Turn.

(** What is left to do for a worker, whether blocked or not. *)
Definition bare (c : client) : list (instr act) * L := (rem c, local c).

Lemma bare_unblock q (m : gmap Z client) : bare <$> alter unblock q m = bare <$> m.
Proof.
  apply map_eq. intros j. rewrite !lookup_fmap. destruct (decide (j = q)) as [->|].
  - rewrite lookup_alter_eq. by destruct (m !! q).
  - by rewrite lookup_alter_ne by done.
Qed.

(** What a turn leads to, for the application: the worker is past the
    instruction, an action had its effect, and nothing else changed but who is
    blocked. *)
Definition took_turn (p : Z) (i : instr act) (r : list (instr act)) (l : L) (s s' : state) : Prop :=
  dom (sems s') = dom (sems s) ∧
  match i with
  | Act a =>
      match run a l (shared s) with
      | Go l' g => shared s' = g ∧ bare <$> clients s' = <[p := (r, l')]> (bare <$> clients s)
      | Spin => s' = s
      | Crash => False
      end
  | _ => shared s' = shared s ∧ bare <$> clients s' = <[p := (r, l)]> (bare <$> clients s)
  end.

Lemma need_other k i r l :
  i ≠ Wait k → i ≠ Signal k → need k (mkClient r None l) = need k (mkClient (i :: r) None l).
Proof.
  intros Hw Hs. destruct i as [j|j|a].
  - rewrite (need_wait_granted k j), decide_False by congruence. lia.
  - rewrite (need_signal k j r), decide_False by congruence. lia.
  - apply need_act.
Qed.

(** A turn always ends, keeps the balance, and does what the instruction says. *)
Lemma turn_spec base P s p i r l :
  balanced base P s → clients s !! p = Some (mkClient (i :: r) None l) →
  (∀ a, i = Act a → run a l (shared s) ≠ Crash) →
  ∃ s', turn p s = Done ((), s') ∧ balanced base P s' ∧ took_turn p i r l s s'.
Proof.
  intros B E Hrun. unfold took_turn.
  assert (Hgo : ∀ j l', (∀ k, is_Some (sems s !! k) → i ≠ Wait k ∧ i ≠ Signal k) →
    balanced base P (mkState (sems s) (<[p := mkClient r None l']> (clients s)) j)).
  { intros j l' Hi. apply (balanced_go base P s B p _ r l E); [|done]. intros k sem Hk. exists sem.
    destruct (Hi k (mk_is_Some _ _ Hk)).
    destruct (balanced_count _ _ _ B k sem Hk).
    assert (need k (mkClient r None l') = need k (mkClient r None l)) by done.
    rewrite <- (need_other k i r l) by done. split_and!; [done|lia|done..]. }
  destruct i as [k|k|a].
  3: { specialize (Hrun a eq_refl). rewrite (turn_act _ _ _ _ _ E).
       destruct (run a l (shared s)) as [l' g| |]; [|by eauto|done].
       eexists. split_and!; [done|by apply Hgo|done..|]. simpl. by rewrite fmap_insert. }
  all: destruct (sems s !! k) as [sem|] eqn:Ek.
  2, 4: rewrite (turn_not_exist _ _ _ _ _ _ E ltac:(eauto) Ek); eexists;
    split_and!; [done|apply Hgo; intros j [? ?]; split; congruence|done..|];
    simpl; by rewrite fmap_insert.
  - destruct (balanced_count _ _ _ B k sem Ek) as [Hc Hwf]. rewrite (turn_wait _ _ _ _ _ _ E Ek Hwf).
    eexists. split; [done|]. destruct (Z.eqb_spec (count sem) 0) as [H0|H0].
    + split; [by eapply balanced_block|]. simpl. rewrite fmap_insert.
      rewrite (dom_insert_lookup_L _ _ _ (mk_is_Some _ _ Ek)). done.
    + split; [|simpl; rewrite fmap_insert, (dom_insert_lookup_L _ _ _ (mk_is_Some _ _ Ek)); done].
      apply (balanced_go base P s B p _ r l E).
      * intros j sem'. simpl. rewrite lookup_insert_Some. intros [[<- <-]|[Hj Hs]]; simpl.
        -- exists sem. destruct Hwf as [? Hq]. rewrite (need_wait_granted k k), decide_True by done.
           split_and!; [done|lia|done|]. split; simpl; [lia|right; by destruct Hq].
        -- exists sem'. destruct (balanced_count _ _ _ B j sem' Hs).
           rewrite (need_wait_granted j k), decide_False by done. split_and!; [done|lia|done..].
      * intros j Hj. simpl. apply lookup_insert_is_Some'. by right.
  - destruct (balanced_count _ _ _ B k sem Ek) as [Hc Hwf].
    assert (Hb : count sem < 2 ^ 64 - 1).
    { pose proof (balanced_room _ _ _ B k (mk_is_Some _ _ Ek)).
      pose proof (total_need_turn s p (Signal k) r l E k (mkClient r None l)) as Hn.
      rewrite (need_signal k k r), decide_True in Hn by done.
      pose proof (room_turn base P s B p (Signal k) r l E k None l (mk_is_Some _ _ Ek)).
      pose proof (total_le (need k) weight (<[p := mkClient r None l]> (clients s))
        (λ _ c _, need_weight k c)). lia. }
    rewrite (turn_signal _ _ _ _ _ _ E Ek Hwf Hb). eexists. split; [done|].
    destruct (wait_queue sem) as [|q w] eqn:Hq.
    + split; [|simpl; rewrite fmap_insert, (dom_insert_lookup_L _ _ _ (mk_is_Some _ _ Ek)); done].
      apply (balanced_go base P s B p _ r l E).
      * intros j sem'. simpl. rewrite lookup_insert_Some. intros [[<- <-]|[Hj Hs]]; simpl.
        -- exists sem. destruct Hwf as [? _]. rewrite (need_signal k k r), decide_True by done.
           split_and!; [done|lia|done|]. split; simpl; [lia|by right].
        -- exists sem'. destruct (balanced_count _ _ _ B j sem' Hs).
           rewrite (need_signal j k r), decide_False by done. split_and!; [done|lia|done..].
      * intros j Hj. simpl. apply lookup_insert_is_Some'. by right.
    + split; [exact (balanced_wake base P s B p _ r l E k sem q w eq_refl Ek Hq)|]. simpl. rewrite bare_unblock, fmap_insert.
      by rewrite (dom_insert_lookup_L _ _ _ (mk_is_Some _ _ Ek)).
Qed.

(** ** Runs *)

(** The instructions left, which a turn that does not spin makes one fewer. *)
Definition size (s : state) : Z := total (λ b, Z.of_nat (length b.1)) (bare <$> clients s).

Lemma took_turn_size p i r l s s' :
  clients s !! p = Some (mkClient (i :: r) None l) →
  (∀ a, i = Act a → run a l (shared s) ≠ Spin) →
  took_turn p i r l s s' → size s = size s' + 1.
Proof.
  intros E Hspin [_ Ht]. unfold size.
  assert (Hb : (bare <$> clients s) !! p = Some (i :: r, l)) by by rewrite lookup_fmap, E.
  assert (∃ l', bare <$> clients s' = <[p := (r, l')]> (bare <$> clients s)) as [l' ->].
  { destruct i as [k|k|a]; [naive_solver..|]. specialize (Hspin a eq_refl). case_match; naive_solver. }
  rewrite (total_update _ _ _ _ _ Hb). cbn [fst length]. lia.
Qed.

(** Where no action spins, each turn is one instruction, so runs are no longer
    than the programs. *)
Lemma turn_bare p s s' i r l :
  clients s !! p = Some (mkClient (i :: r) None l) → turn p s = Done ((), s') →
  (∀ a, i = Act a → run a l (shared s) ≠ Spin) →
  ∃ l', bare <$> clients s' = <[p := (r, l')]> (bare <$> clients s).
Proof.
  intros E Ht Hs. unfold turn, get in Ht. rewrite (bind_step _ _ s s s) in Ht by done. rewrite E in Ht.
  destruct i as [k|k|a].
  - apply bind_Done in Ht as (ans & s1 & (t & _ & ->)%zoom_Done & Hu%modify_Done). subst s'. exists l.
    simpl. by rewrite fmap_insert.
  - apply bind_Done in Ht as (ans & s1 & (t & _ & ->)%zoom_Done & Ht).
    apply bind_Done in Ht as ([] & s2 & Hu%modify_Done & Ht). subst s2. exists l.
    destruct ans; (apply ret_Done in Ht as [_ <-] || (apply modify_Done in Ht; subst s')); simpl;
      by rewrite ?bare_unblock, fmap_insert.
  - specialize (Hs a eq_refl). destruct (run a l (shared s)) as [l' g| |]; [|done..].
    inv_done. exists l'. simpl. by rewrite fmap_insert.
Qed.

Lemma nsteps_size n s s' :
  (∀ a l g, run a l g ≠ Spin) → nsteps step n s s' → size s = size s' + Z.of_nat n.
Proof.
  intros Hs. induction 1 as [s|n s1 s2 s3 (p & (i & r & l & E) & Ht) _ IH]; [lia|].
  destruct (turn_bare p s1 s2 i r l E Ht) as [l' Hb]; [by intros; apply Hs|].
  unfold size in *. rewrite Hb in IH.
  rewrite (total_update _ _ p (i :: r, l)) in IH by by rewrite lookup_fmap, E. simpl in IH. lia.
Qed.

Lemma size_nonneg s : 0 ≤ size s.
Proof. apply total_nonneg. intros ? ? _. lia. Qed.

(** Where nobody can run, everyone is through or blocked. *)
Lemma stuck s p c :
  (∀ p, ¬ runnable p s) → clients s !! p = Some c →
  (rem c = [] ∧ waiting c = None) ∨ is_Some (waiting c).
Proof.
  intros Hs E. destruct c as [[|i r] [k|] l]; simpl; eauto.
  destruct (Hs p). by exists i, r, l.
Qed.

(** A semaphore with permits has nobody waiting. *)
Lemma permits_no_waiter base P s k sem p :
  balanced base P s → sems s !! k = Some sem → 0 < count sem → ¬ waiter k (clients s) p.
Proof.
  intros B Hk Hc. destruct (balanced_queue _ _ _ B k sem Hk) as [_ Hq]. rewrite <- Hq.
  destruct (balanced_count _ _ _ B k sem Hk) as [_ [_ [?| ->]]]; [lia|]. apply not_elem_of_nil.
Qed.

(** A semaphore with one permit whose users take it and give it back one after
    the other: two of them never have it at once. *)
Lemma one_permit base P s k p q c d :
  balanced base P s → base k = 1 → is_Some (sems s !! k) →
  (∀ p c, clients s !! p = Some c → need k c = 0 ∨ need k c = -1) →
  clients s !! p = Some c → clients s !! q = Some d → need k c = -1 → need k d = -1 → p = q.
Proof.
  intros B Hb [sem Hk] Hn Ec Ed Hc Hd. destruct (decide (p = q)) as [|Hpq]; [done|exfalso].
  destruct (balanced_count _ _ _ B k sem Hk) as [Hcount [Hs _]].
  pose proof (total_ge2 (λ c, -1 * need k c) (clients s) p q c d) as Ht. rewrite total_scale in Ht.
  cut (-1 * need k c + -1 * need k d ≤ -1 * total (need k) (clients s)); [lia|].
  apply Ht; [|done..]. intros x e Ee. destruct (Hn x e Ee) as [-> | ->]; lia.
Qed.

(** ** The start *)

(** The workers with their programs; they share what the parent set up. *)
Definition start (t : gmap Z Semaphore) (progs : gmap Z (list (instr act))) (l : L) (g : G) : state :=
  mkState t ((λ r, mkClient r None l) <$> progs) g.

Definition program (progs : gmap Z (list (instr act))) (p : Z) : list (instr act) :=
  default [] (progs !! p).

Lemma total_fmap {A B} (f : B → Z) (h : A → B) (m : gmap Z A) : total f (h <$> m) = total (f ∘ h) m.
Proof. apply map_fold_fmap. Qed.

(** The permits that are never used: what a semaphore starts with, less what
    all the programs take. *)
Definition spare (t : gmap Z Semaphore) (progs : gmap Z (list (instr act))) (k : Z) : Z :=
  from_option count 0 (t !! k) - total (λ r, waits k r - signals k r) progs.

Lemma balanced_start t progs l g :
  map_Forall (λ _ sem, Semaphore.wf sem ∧ wait_queue sem = []) t →
  (∀ k, is_Some (t !! k) → spare t progs k + total (λ r, Z.of_nat (length r)) progs < 2 ^ 64) →
  balanced (spare t progs) (program progs) (start t progs l g).
Proof.
  intros Ht Hroom.
  assert (Hw : ∀ k p, ¬ waiter k (clients (start t progs l g)) p).
  { intros k p (c & Hc & Hw). simpl in Hc. rewrite lookup_fmap in Hc.
    by destruct (progs !! p); simplify_eq/=. }
  split; simpl.
  - intros p c. rewrite lookup_fmap, fmap_Some. intros (r & Hr & ->). exists 0%nat.
    unfold program. rewrite Hr. simpl. split; [lia|]. by rewrite drop_0.
  - intros k sem Hk. split; [|apply (Ht _ _ Hk)]. unfold spare. rewrite Hk, total_fmap. simpl.
    rewrite (total_ext (need k ∘ _) (λ r, waits k r - signals k r)); [lia|].
    intros r. unfold need, is_waiting, compose. simpl. lia.
  - intros k sem Hk. destruct (Ht k sem Hk) as [_ ->]. split; [constructor|].
    intros p. rewrite elem_of_nil. split; [done|]. intros Hp. by apply Hw in Hp.
  - intros p k Hp. by apply Hw in Hp.
  - intros k Hk. rewrite total_fmap.
    rewrite (total_ext (weight ∘ _) (λ r, Z.of_nat (length r))); [auto|].
    intros r. unfold weight, compose. simpl. lia.
Qed.

(** ** Facts of every point of a program *)

(** [Q] of what is left and of the semaphore waited for, at every point. *)
Definition at_points (Q : list (instr act) → option Z → bool) (prog : list (instr act)) : bool :=
  forallb (λ n,
    Q (drop n prog) None &&
    match prog !! pred n with
    | Some (Wait k) => if decide (n = 0%nat) then true else Q (drop n prog) (Some k)
    | _ => true
    end) (seq 0 (S (length prog))).

Lemma at_points_track Q P p c :
  on_track P p c → at_points Q (P p) = true → Q (rem c) (waiting c) = true.
Proof.
  intros (n & Hn & Hr & Hw) Hq. unfold at_points in Hq. rewrite forallb_forall in Hq.
  specialize (Hq n ltac:(apply in_seq; lia)). apply andb_true_iff in Hq as [H0 H1].
  rewrite Hr. destruct (waiting c) as [k|]; [|done].
  destruct (Hw k eq_refl) as [E Hpos]. rewrite E, decide_False in H1 by lia. done.
Qed.

(** ** Running and exploring a system by computation *)

Definition can_run (p : Z) (s : state) : bool :=
  match clients s !! p with Some (mkClient (_ :: _) None _) => true | _ => false end.

Lemma can_run_runnable p s : can_run p s = true ↔ runnable p s.
Proof.
  unfold can_run, runnable. split.
  - destruct (clients s !! p) as [[[|i r] [k|] l]|]; try done. eauto.
  - by intros (i & r & l & ->).
Qed.

(** [n] turns, each of the first worker of [ps] that can run. *)
Fixpoint drive (n : nat) (ps : list Z) (s : state) : option state :=
  match n with
  | O => Some s
  | S n =>
      p ← List.find (λ p, can_run p s) ps;
      match turn p s with Done (_, s') => drive n ps s' | _ => None end
  end.

Lemma drive_nsteps n ps s s' : drive n ps s = Some s' → nsteps step n s s'.
Proof.
  revert s. induction n as [|n IH]; intros s; simpl; [intros [= ->]; constructor|].
  destruct (List.find _ ps) as [p|] eqn:Ef; simpl; [|done].
  apply List.find_some in Ef as [_ Hp%can_run_runnable].
  destruct (turn p s) as [[[] s1]| |] eqn:Et; [|done..]. intros Hd.
  eapply nsteps_l; [by exists p|]. by apply IH.
Qed.

Lemma schedule_app ps qs s : schedule (ps ++ qs) s = (schedule ps;; schedule qs) s.
Proof.
  revert s. induction ps as [|p ps IH]; intros s; [done|]. simpl.
  unfold mbind, M_bind. destruct (turn p s) as [[[] s']| |]; [|done..]. apply IH.
Qed.

Section Explore.
Context `{EqDecision L, EqDecision G, EqDecision act}.

#[local] Instance client_eq_dec : EqDecision client.
Proof. solve_decision. Defined.

#[local] Instance Semaphore_eq_dec : EqDecision Semaphore.
Proof. solve_decision. Defined.

#[local] Instance state_eq_dec : EqDecision state.
Proof. solve_decision. Defined.

(** The states one turn leads to, or [None] if a worker panics. *)
Fixpoint nexts (ps : list Z) (s : state) : option (list state) :=
  match ps with
  | [] => Some []
  | p :: ps =>
      rest ← nexts ps s;
      if can_run p s then
        match turn p s with Done (_, s') => Some (s' :: rest) | _ => None end
      else Some rest
  end.

(** All that can be reached from [todo], in at most [n] rounds. *)
Fixpoint explore (n : nat) (ps : list Z) (todo found : list state) : option (list state) :=
  match n, todo with
  | _, [] => Some found
  | O, _ => None
  | S n, s :: todo =>
      if decide (s ∈ found) then explore n ps todo found
      else ss ← nexts ps s; explore n ps (ss ++ todo) (s :: found)
  end.

Definition all_workers (ps : list Z) (s : state) : Prop := ∀ p, is_Some (clients s !! p) → p ∈ ps.

Lemma turn_workers ps p s s' : all_workers ps s → turn p s = Done ((), s') → all_workers ps s'.
Proof.
  intros Hs Ht q Hq. apply Hs. unfold turn in Ht. inv_done. unfold on_sems, update, wake in *.
  repeat (case_match; simplify_eq/=; inv_done); simpl in *;
    rewrite ?lookup_alter_is_Some in Hq; rewrite ?lookup_insert_is_Some in Hq;
    destruct (decide (q = p)) as [->|]; naive_solver.
Qed.

Lemma nexts_spec ps s ss p s' :
  nexts ps s = Some ss → p ∈ ps → runnable p s → turn p s = Done ((), s') → s' ∈ ss.
Proof.
  revert ss. induction ps as [|q ps IH]; intros ss Hn Hp Hr Ht; [by apply elem_of_nil in Hp|].
  simpl in Hn. destruct (nexts ps s) as [rest|] eqn:En; simpl in Hn; [|done].
  apply elem_of_cons in Hp as [->|Hp].
  - apply can_run_runnable in Hr. rewrite Hr, Ht in Hn. simplify_eq. apply elem_of_cons. by left.
  - specialize (IH rest eq_refl Hp Hr Ht).
    repeat case_match; simplify_eq; [apply elem_of_cons; by right|done].
Qed.

Lemma nexts_runs ps s ss p :
  nexts ps s = Some ss → p ∈ ps → runnable p s → ∃ s', turn p s = Done ((), s').
Proof.
  revert ss. induction ps as [|q ps IH]; intros ss Hn Hp Hr; [by apply elem_of_nil in Hp|].
  simpl in Hn. destruct (nexts ps s) as [rest|] eqn:En; simpl in Hn; [|done].
  apply elem_of_cons in Hp as [->|Hp]; [|by eapply IH].
  apply can_run_runnable in Hr. rewrite Hr in Hn. destruct (turn q s) as [[[] s']| |]; eauto; done.
Qed.

(** What is found is closed under turns. *)
Lemma explore_closed n ps todo found all :
  explore n ps todo found = Some all →
  (∀ s, s ∈ found → ∃ ss, nexts ps s = Some ss ∧ ∀ s', s' ∈ ss → s' ∈ found ++ todo) →
  (∀ s, s ∈ found ++ todo → s ∈ all) ∧
  ∀ s, s ∈ all → ∃ ss, nexts ps s = Some ss ∧ ∀ s', s' ∈ ss → s' ∈ all.
Proof.
  revert todo found. induction n as [|n IH]; intros [|s todo] found; simpl; try done.
  1, 2: by intros [= ->]; setoid_rewrite app_nil_r.
  case_decide as Hs.
  - intros He Hf. destruct (IH todo found He) as [H1 H2].
    + intros x Hx. destruct (Hf x Hx) as (ss & Hn & Hin). exists ss. split; [done|].
      intros y Hy. apply Hin in Hy. set_solver.
    + split; [|done]. intros x Hx. apply H1. set_solver.
  - destruct (nexts ps s) as [ss|] eqn:En; simpl; [|done]. intros He Hf.
    destruct (IH (ss ++ todo) (s :: found) He) as [H1 H2].
    + intros x [->|Hx]%elem_of_cons.
      * exists ss. split; [done|]. set_solver.
      * destruct (Hf x Hx) as (ss' & Hn & Hin). exists ss'. split; [done|].
        intros y Hy. apply Hin in Hy. set_solver.
    + split; [|done]. intros x Hx. apply H1. set_solver.
Qed.

(** So what holds of all states found holds of all reachable states, and none
    of their workers panics. *)
Lemma explore_spec n ps s0 all (Q : state → bool) :
  explore n ps [s0] [] = Some all → all_workers ps s0 → forallb Q all = true →
  ∀ s, rtc step s0 s →
    Q s = true ∧ all_workers ps s ∧ ∀ p, runnable p s → ∃ s', turn p s = Done ((), s').
Proof.
  intros He Hps Hq s Hrtc. destruct (explore_closed n ps [s0] [] all He) as [H0 Hc].
  { intros x Hx. by apply elem_of_nil in Hx. }
  assert (Hin : s0 ∈ all ∧ all_workers ps s0) by (split; [apply H0; set_solver|done]).
  clear He H0 Hps. induction Hrtc as [s|s1 s2 s3 (p & Hp & Ht) _ IH]; destruct Hin as [Hs Hw].
  - split_and!; [|done|].
    + rewrite forallb_forall in Hq. by apply Hq, list_elem_of_In.
    + intros p Hp. destruct (Hc s Hs) as (ss & Hn & _). apply (nexts_runs ps s ss); [done| |done].
      apply Hw. destruct Hp as (i & r & l & ->). eauto.
  - apply IH. split; [|by eapply turn_workers]. destruct (Hc s1 Hs) as (ss & Hn & Hss).
    apply Hss. eapply nexts_spec; [done| |done..]. apply Hw. destruct Hp as (i & r & l & ->). eauto.
Qed.

End Explore.

End System.
Arguments client L act : clear implicits.
Arguments state L G act : clear implicits.
