(* ===== verification/Mq.v ===== *)
(** The message queue of [pkg/app/mq]: eight producers and eight consumers
    share a queue of at most eight messages, guarded by three semaphores.

    The workers run as [Clients] says, in any order.  The queue is ordinary
    memory: [push_back] and [pop_front] first read it and then write it back,
    in two steps, so that two of them at once would lose messages.  The
    theorem is that this cannot happen, that no [unwrap] fails, that no
    schedule is stuck before all is done, and that what was sent arrives in the
    order it was sent. *)
From S2P Require Import Prelude Sync Clients.

Record Message : Type := mkMessage { pid : Z; val : Z }.

#[global] Instance Message_eq_dec : EqDecision Message.
Proof. solve_decision. Defined.

Definition SIZE : Z := 8.
Definition MUTEX : UserSemaphore.Semaphore := UserSemaphore.new 1.
Definition EMPTY : UserSemaphore.Semaphore := UserSemaphore.new 2.
Definition FULL : UserSemaphore.Semaphore := UserSemaphore.new 3.

(** The lines the program prints. *)
Inductive line : Type :=
  | Sent (m : Message) (len : Z)
  | Received (by_pid : Z) (m : Message) (len : Z).

(** The memory the workers share, and the terminal. *)
Record memory : Type := mkMemory { MQ : list Message; console : list line }.

(** A worker's own variables: the queue as it has read it, and [msg]. *)
Record vars : Type := mkVars { seen : list Message; msg : option Message }.

Inductive action : Type :=
  | SaySent (m : Message)
  | ReadMQ
  | Push (m : Message)
  | Pop
  | SayReceived (pid : Z).

Definition run (a : action) (l : vars) (g : memory) : effect vars memory :=
  match a with
  | SaySent m => Go l (mkMemory (MQ g) (console g ++ [Sent m (Z.of_nat (length (MQ g)))]))
  | ReadMQ => Go (mkVars (MQ g) (msg l)) g
  | Push m => Go l (mkMemory (seen l ++ [m]) (console g))
  | Pop =>
      match seen l with
      | m :: q => Go (mkVars (seen l) (Some m)) (mkMemory q (console g))
      | [] => Crash
      end
  | SayReceived p =>
      match msg l with
      | Some m => Go l (mkMemory (MQ g) (console g ++ [Received p m (Z.of_nat (length (MQ g)))]))
      | None => Crash
      end
  end.

Definition produce (p : Z) : list (instr action) :=
  i ← seqZ 0 10;
  let m := mkMessage p i in
  [UserSemaphore.wait EMPTY; UserSemaphore.wait MUTEX;
   Act (SaySent m); Act ReadMQ; Act (Push m);
   UserSemaphore.signal MUTEX; UserSemaphore.signal FULL].

Definition consume (p : Z) : list (instr action) :=
  _ ← seqZ 0 10;
  [UserSemaphore.wait FULL; UserSemaphore.wait MUTEX;
   Act ReadMQ; Act Pop; Act (SayReceived p);
   UserSemaphore.signal MUTEX; UserSemaphore.signal EMPTY].

(** [main], up to the forks: the semaphores, and one worker for each of the
    pids [sys_fork] gave, producers at the even places. *)
Definition init_semaphores : M (gmap Z Semaphore) () :=
  UserSemaphore.init MUTEX 1;; UserSemaphore.init EMPTY SIZE;; UserSemaphore.init FULL 0;;
  mret ().

Definition workers (pids : list Z) : gmap Z (list (instr action)) :=
  list_to_map (imap (λ i p, (p, if Nat.even i then produce p else consume p)) pids).

Definition main (pids : list Z) : state vars memory action :=
  start (state_of (init_semaphores SemaphoreSet.default) ∅) (workers pids)
    (mkVars [] None) (mkMemory [] []).

(** ** What is read off the console *)

Definition sent (c : list line) : list Message :=
  omap (λ x, match x with Sent m _ => Some m | _ => None end) c.

Definition received (c : list line) : list Message :=
  omap (λ x, match x with Received _ m _ => Some m | _ => None end) c.

(** ** What is left of a program *)

Definition count_act (f : action → bool) (r : list (instr action)) : Z :=
  Z.of_nat (length (List.filter (λ i, match i with Act a => f a | _ => false end) r)).

Definition is_push (a : action) : bool := match a with Push _ => true | _ => false end.
Definition is_pop (a : action) : bool := match a with Pop => true | _ => false end.

Definition pushes : list (instr action) → Z := count_act is_push.
Definition pops : list (instr action) → Z := count_act is_pop.

(** The messages a worker has still to announce. *)
Definition to_say (r : list (instr action)) : list Message :=
  omap (λ i, match i with Act (SaySent m) => Some m | _ => None end) r.

Definition owed (k : Z) (r : list (instr action)) (w : option Z) : Z :=
  waits k r + (if decide (w = Some k) then 1 else 0) - signals k r.

Lemma need_owed k (c : client vars action) : need k c = owed k (rem c) (waiting c).
Proof. done. Qed.

(** Room that is taken and not yet used: by a producer that passed [EMPTY] and
    has not pushed, or a consumer that popped and has not signalled. *)
Definition held_empty (r : list (instr action)) (w : option Z) : Z :=
  pushes r - pops r - owed 2 r w.

(** Messages that are there and granted or not yet announced by [FULL]. *)
Definition held_full (r : list (instr action)) (w : option Z) : Z :=
  pops r - pushes r - owed 3 r w.

(** The worker is between its [wait] and its [signal] of [MUTEX]. *)
Definition inside (r : list (instr action)) (w : option Z) : bool := owed 1 r w =? -1.

(** The worker is not between a message and the queue: nothing it has read or
    holds is still to be used. *)
Definition calm (r : list (instr action)) : bool :=
  match r with
  | Act (Push _) :: _ | Act Pop :: _ | Act (SayReceived _) :: _ => false
  | Act ReadMQ :: Act (Push _) :: _ => false
  | _ => true
  end.

(** What holds of a worker at every point of its program: what it holds is
    never negative, it acts inside only, ... *)
Definition holds_ok (r : list (instr action)) (w : option Z) : bool :=
  (0 <=? held_empty r w) && (0 <=? held_full r w) && (0 <=? pushes r) && (0 <=? pops r) &&
  ((owed 1 r w =? 0) || inside r w) &&
  match r, w with
  | Act Pop :: _, None => inside r w && (1 <=? held_full r w)
  | Act _ :: _, None => inside r w
  | _, None => true
  | _, Some _ => calm r
  end.

(** ... its actions come in the order of the code, ... *)
Definition order_ok (r : list (instr action)) (w : option Z) : bool :=
  match r with
  | Act ReadMQ :: r' => match r' with Act Pop :: _ | Act (Push _) :: _ => true | _ => false end
  | Act (SaySent m) :: r' =>
      match r' with Act ReadMQ :: Act (Push m') :: _ => val m =? val m' | _ => false end
  | Act Pop :: r' => match r' with Act (SayReceived _) :: r'' => calm r'' | _ => false end
  | _ :: r' => calm r'
  | [] => true
  end.

(** ... and where it is blocked or through it is outside, and holds nothing
    unless it waits for [MUTEX]. *)
Definition rest_ok (r : list (instr action)) (w : option Z) : bool :=
  match w with
  | Some k =>
      negb (inside r w) &&
      ((k =? 1) || (held_empty r w =? 0) && (held_full r w =? 0) &&
       ((k =? 2) && (1 <=? pushes r) && (pops r =? 0) ||
        (k =? 3) && (1 <=? pops r) && (pushes r =? 0)))
  | None =>
      match r with
      | [] => (held_empty r w =? 0) && (held_full r w =? 0) && negb (inside r w) &&
              (pushes r =? 0) && (pops r =? 0)
      | _ => true
      end
  end.

Definition point_ok (r : list (instr action)) (w : option Z) : bool :=
  holds_ok r w && order_ok r w && rest_ok r w.

Lemma produce_ok p : at_points point_ok (produce p) = true.
Proof. vm_compute. reflexivity. Qed.

Lemma consume_ok p : at_points point_ok (consume p) = true.
Proof. vm_compute. reflexivity. Qed.

(** ** The invariant *)

(** The message a worker has taken from the queue and not announced, and the
    one it has announced and not put into it. *)
Definition popped (b : list (instr action) * vars) : list Message :=
  match b.1 with Act (SayReceived _) :: _ => option_list (msg b.2) | _ => [] end.

Definition announced (b : list (instr action) * vars) : list Message :=
  match b.1 with
  | Act ReadMQ :: Act (Push m) :: _ | Act (Push m) :: _ => [m]
  | _ => []
  end.

(** What a worker has read is still so. *)
Definition vars_ok (q : list Message) (b : list (instr action) * vars) : Prop :=
  match b.1 with
  | Act (Push _) :: _ | Act Pop :: _ => seen b.2 = q
  | Act (SayReceived _) :: _ => is_Some (msg b.2)
  | _ => True
  end.

Definition from_pid (p : Z) (ms : list Message) : list Message := filter (λ m, pid m = p) ms.

Definition flight (b : list (instr action) * vars) : list Message * list Message :=
  (popped b, announced b).

(** When at most one worker holds a message, all that was sent was received, is
    held, or is in the queue, in this order. *)
Definition ordered (g : memory) (f : gmap Z (list Message * list Message)) : Prop :=
  ∀ p x, f !! p = Some x → (∀ q y, q ≠ p → f !! q = Some y → y = ([], [])) →
  sent (console g) = received (console g) ++ x.1 ++ MQ g ++ x.2.

Record inv (base : Z → Z) (P : Z → list (instr action)) (s : state vars memory action) : Prop := {
  inv_balanced : balanced base P s;
  inv_sems : dom (sems s) = {[ 1; 2; 3 ]};
  inv_length : Z.of_nat (length (MQ (shared s))) =
    total (λ b, pops b.1 - pushes b.1) (bare <$> clients s);
  inv_vars : map_Forall (λ _ b, vars_ok (MQ (shared s)) b) (bare <$> clients s);
  inv_order : ordered (shared s) (flight <$> (bare <$> clients s));
  inv_there : ∀ p, P p ≠ [] → is_Some ((bare <$> clients s) !! p);
  inv_said : ∀ p b, (bare <$> clients s) !! p = Some b →
    from_pid p (sent (console (shared s))) ++ to_say b.1 = to_say (P p);
}.

Lemma calm_flight r l : calm r = true → flight (r, l) = ([], []) ∧ ∀ q, vars_ok q (r, l).
Proof. destruct r as [|[| |[]] [|[| |[]] r]]; done. Qed.

Lemma from_pid_app p ms ns : from_pid p (ms ++ ns) = from_pid p ms ++ from_pid p ns.
Proof. apply filter_app. Qed.

Lemma from_pid_own p q ms :
  Forall (λ m, pid m = p) ms → from_pid q ms = if decide (q = p) then ms else [].
Proof.
  unfold from_pid. induction 1 as [|m ms Hm _ IH]; [by case_decide|]. rewrite filter_cons, IH, Hm.
  repeat case_decide; congruence.
Qed.

Section Invariant.
Context `{Profile} (base : Z → Z) (P : Z → list (instr action)).
Context (Hbase : base 1 = 1 ∧ base 2 = SIZE ∧ base 3 = 0).
Context (HP : ∀ p, P p = produce p ∨ P p = consume p ∨ P p = []).

#[local] Abbreviation state := (state vars memory action).

Lemma point (s : state) p c :
  inv base P s → clients s !! p = Some c → point_ok (rem c) (waiting c) = true.
Proof.
  intros I E. apply (at_points_track point_ok P p c).
  - by apply (balanced_track _ _ _ (inv_balanced _ _ _ I)) in E.
  - destruct (HP p) as [->|[->| ->]]; [apply produce_ok|apply consume_ok|done].
Qed.

Lemma sem_there (s : state) k :
  inv base P s → k ∈ ({[ 1; 2; 3 ]} : gset Z) → ∃ sem, sems s !! k = Some sem.
Proof. intros I Hk. rewrite <- (inv_sems _ _ _ I), elem_of_dom in Hk. by destruct Hk; eauto. Qed.

(** The three equations between the counts, the workers and the queue. *)
Lemma counts (s : state) :
  inv base P s → ∃ m e f,
    sems s !! 1 = Some m ∧ sems s !! 2 = Some e ∧ sems s !! 3 = Some f ∧
    Semaphore.wf m ∧ Semaphore.wf e ∧ Semaphore.wf f ∧
    count m = 1 + total (need 1) (clients s) ∧
    SIZE = Z.of_nat (length (MQ (shared s))) + count e +
           total (λ c, held_empty (rem c) (waiting c)) (clients s) ∧
    Z.of_nat (length (MQ (shared s))) = count f +
           total (λ c, held_full (rem c) (waiting c)) (clients s).
Proof.
  intros I. destruct Hbase as (B1 & B2 & B3). pose proof (inv_balanced _ _ _ I) as B.
  destruct (sem_there s 1 I) as [m Em]; [set_solver|].
  destruct (sem_there s 2 I) as [e Ee]; [set_solver|].
  destruct (sem_there s 3 I) as [f Ef]; [set_solver|].
  destruct (balanced_count _ _ _ B _ _ Em), (balanced_count _ _ _ B _ _ Ee),
    (balanced_count _ _ _ B _ _ Ef).
  exists m, e, f. rewrite (inv_length _ _ _ I), total_fmap. split_and!; try done; [lia| |].
  - rewrite H2, B2.
    rewrite (total_ext (_ ∘ bare) (λ c, -1 * (need 2 c + held_empty (rem c) (waiting c)))).
    + rewrite total_scale, total_add. lia.
    + intros c. rewrite need_owed. unfold held_empty, bare, compose. simpl. lia.
  - rewrite H4, B3.
    rewrite (total_ext (_ ∘ bare) (λ c, need 3 c + held_full (rem c) (waiting c))), total_add; [lia|].
    intros c. rewrite need_owed. unfold held_full, bare, compose. simpl. lia.
Qed.

Ltac bools H := repeat rewrite ?andb_true_iff, ?orb_true_iff, ?Z.leb_le, ?Z.eqb_eq, ?negb_true_iff in H.

Lemma holds (s : state) p c :
  inv base P s → clients s !! p = Some c →
  0 ≤ held_empty (rem c) (waiting c) ∧ 0 ≤ held_full (rem c) (waiting c) ∧
  0 ≤ pushes (rem c) ∧ 0 ≤ pops (rem c) ∧ (need 1 c = 0 ∨ need 1 c = -1).
Proof.
  intros I E. pose proof (point s p c I E) as Hp. unfold point_ok, holds_ok, inside in Hp.
  rewrite <- need_owed in Hp. bools Hp. tauto.
Qed.

(** Mutual exclusion: two workers are never both inside. *)
Lemma exclusive (s : state) p q c d :
  inv base P s → clients s !! p = Some c → clients s !! q = Some d →
  inside (rem c) (waiting c) = true → inside (rem d) (waiting d) = true → p = q.
Proof.
  intros I Ec Ed Hc Hd. unfold inside in *. rewrite <- need_owed in *. bools Hc. bools Hd.
  destruct (sem_there s 1 I) as [m Hm]; [set_solver|].
  apply (one_permit base P s 1 p q c d); try done; [apply I|by apply Hbase|].
  intros x e Ee. by apply (holds s x e).
Qed.

Lemma bare_Some (s : state) p r l :
  (bare <$> clients s) !! p = Some (r, l) → ∃ w, clients s !! p = Some (mkClient r w l).
Proof.
  rewrite lookup_fmap, fmap_Some. intros ([r' w l'] & E & [= -> ->]). eauto.
Qed.

(** What is not calm is inside. *)
Lemma not_calm_inside (s : state) p r l w :
  inv base P s → clients s !! p = Some (mkClient r w l) → calm r = false →
  w = None ∧ inside r w = true.
Proof.
  intros I E Hr. pose proof (point s p _ I E) as Hp. simpl in Hp.
  unfold point_ok, holds_ok in Hp. bools Hp. destruct Hp as [[[_ Hp] _] _].
  destruct w; [by destruct r as [|[| |[]] [|[| |[]]]]|]. split; [done|].
  destruct r as [|[| |[]] [|[| |[]]]]; try done; bools Hp; tauto.
Qed.

(** When a worker is inside, the others hold no messages. *)
Lemma others_calm (s : state) p q c b :
  inv base P s → clients s !! p = Some c → inside (rem c) (waiting c) = true →
  q ≠ p → (bare <$> clients s) !! q = Some b → calm b.1 = true.
Proof.
  intros I Ec Hc Hqp Eb. destruct b as [r l]. apply bare_Some in Eb as [w Ew]. simpl.
  destruct (calm r) eqn:Er; [done|].
  destruct (not_calm_inside s q r l w I Ew Er) as [-> Hr].
  destruct Hqp. by eapply (exclusive s q p).
Qed.

Lemma order_at (s : state) p i r w l :
  inv base P s → clients s !! p = Some (mkClient (i :: r) w l) → order_ok (i :: r) w = true.
Proof.
  intros I E. pose proof (point s p _ I E) as Hp. unfold point_ok in Hp. bools Hp. tauto.
Qed.

(** The messages a worker handles carry its pid. *)
Definition own (p : Z) (i : instr action) : Prop :=
  match i with Act (SaySent m) | Act (Push m) => pid m = p | _ => True end.

Lemma own_rem (s : state) p c : inv base P s → clients s !! p = Some c → Forall (own p) (rem c).
Proof.
  intros I E. apply (balanced_track _ _ _ (inv_balanced _ _ _ I)) in E as (n & _ & -> & _).
  apply Forall_drop. destruct (HP p) as [->|[->| ->]]; repeat constructor.
Qed.

(** A system call: the shared memory and what the worker holds stay. *)
Lemma inv_call (s s' : state) p i r l :
  inv base P s → clients s !! p = Some (mkClient (i :: r) None l) →
  (∀ a, i ≠ Act a) → balanced base P s' → took_turn run p i r l s s' → inv base P s'.
Proof.
  intros I E Hi B [Hdom Ht].
  assert (Hc : calm r = true).
  { pose proof (order_at s p i r _ l I E) as Ho. destruct i; [done..|by destruct (Hi a)]. }
  destruct (calm_flight r l Hc) as [Hf Hv].
  assert (Eb : (bare <$> clients s) !! p = Some (i :: r, l)) by by rewrite lookup_fmap, E.
  assert (Hb : shared s' = shared s ∧ bare <$> clients s' = <[p := (r, l)]> (bare <$> clients s)).
  { destruct i; [done..|by destruct (Hi a)]. }
  assert (Hn : ∀ f, count_act f (i :: r) = count_act f r) by by destruct i; [..|by destruct (Hi a)].
  destruct Hb as [Hg Hb]. split; rewrite ?Hg, ?Hb; [done| |..].
  - by rewrite Hdom, (inv_sems _ _ _ I).
  - rewrite (total_update _ _ _ _ _ Eb), (inv_length _ _ _ I). unfold pushes, pops. simpl.
    rewrite !Hn. lia.
  - apply map_Forall_insert_2; [apply Hv|apply (inv_vars _ _ _ I)].
  - rewrite fmap_insert, Hf, insert_id; [apply (inv_order _ _ _ I)|].
    rewrite lookup_fmap, Eb. simpl. f_equal. destruct i; [done..|by destruct (Hi a)].
  - intros q Hq. apply lookup_insert_is_Some'. right. by apply (inv_there _ _ _ I).
  - intros q b. rewrite lookup_insert_Some. intros [[<- <-]|[_ Hq]]; [|by apply (inv_said _ _ _ I)].
    rewrite <- (inv_said _ _ _ I p _ Eb). by destruct i; [..|by destruct (Hi a)].
Qed.

Lemma pop_nonempty (s : state) p r l :
  inv base P s → clients s !! p = Some (mkClient (Act Pop :: r) None l) → MQ (shared s) ≠ [].
Proof.
  intros I E Hq. pose proof (point s p _ I E) as Hp. unfold point_ok, holds_ok in Hp. simpl in Hp.
  bools Hp. destruct (counts s I) as (m & e & f & _ & _ & _ & _ & _ & [Hf _] & _ & _ & Hlen).
  rewrite Hq in Hlen. simpl in Hlen.
  pose proof (total_ge (λ c, held_full (rem c) (waiting c)) (clients s) p _
    ltac:(intros x c Hx; by apply (holds s x c)) E). simpl in *. lia.
Qed.

(** An action never fails, and does to the memory what the queue's operations
    do at once. *)
Lemma act_effect (s : state) p a r l :
  inv base P s → clients s !! p = Some (mkClient (Act a :: r) None l) →
  ∃ l' g, run a l (shared s) = Go l' g ∧
    MQ g = match a with Push m => MQ (shared s) ++ [m] | Pop => tail (MQ (shared s)) | _ => MQ (shared s) end ∧
    Z.of_nat (length (MQ g)) =
      Z.of_nat (length (MQ (shared s))) + count_act is_push [Act a] - count_act is_pop [Act a] ∧
    vars_ok (MQ g) (r, l') ∧
    (sent (console (shared s)) = received (console (shared s)) ++ popped (Act a :: r, l) ++
       MQ (shared s) ++ announced (Act a :: r, l) →
     sent (console g) = received (console g) ++ popped (r, l') ++ MQ g ++ announced (r, l')) ∧
    sent (console g) = sent (console (shared s)) ++ to_say [Act a] ∧
    Forall (λ m, pid m = p) (to_say [Act a]).
Proof.
  intros I E. pose proof (order_at s p _ r _ l I E) as Ho. pose proof (own_rem s p _ I E) as Hown.
  pose proof (inv_vars _ _ _ I p (Act a :: r, l) ltac:(by rewrite lookup_fmap, E)) as Hv.
  simpl in Hown. apply Forall_cons in Hown as [Hp Hown].
  destruct a as [m| |m| |by_pid]; unfold vars_ok in Hv; simpl in *.
  - destruct r as [|[| |[]] [|[| |[]]]]; try done. apply Z.eqb_eq in Ho.
    apply Forall_cons in Hown as [_ [Hm _]%Forall_cons]. simpl in Hm.
    assert (m0 = m) as -> by (destruct m, m0; simpl in *; congruence).
    eexists _, _. split; [done|]. unfold sent, received. simpl. rewrite !omap_app. simpl.
    rewrite !app_nil_r. split_and!; try done; [unfold count_act; simpl; lia| |by constructor].
    intros ->. by rewrite <- !(assoc_L (++)).
  - eexists _, _. split; [done|].
    rewrite app_nil_r. unfold count_act. destruct r as [|[| |[]]]; try done; simpl;
      (split_and!; [done|lia|done| |done..]); by rewrite ?app_nil_r.
  - eexists _, _. split; [done|]. unfold count_act. simpl. rewrite Hv, length_app, app_nil_r.
    destruct (calm_flight r l Ho) as [[= -> ->] Hc]. simpl. split_and!; [done|lia|apply Hc| |done..].
    by rewrite app_nil_r.
  - destruct (seen l) as [|m q] eqn:Es.
    { by destruct (pop_nonempty s p r l I E). }
    eexists _, _. split; [done|]. destruct r as [|[| |[]]]; try done.
    rewrite <- Hv. unfold count_act. simpl. split_and!; try done; [lia|by eexists|..]; by rewrite ?app_nil_r.
  - destruct Hv as [m Hm]. rewrite Hm. eexists _, _. split; [done|].
    destruct (calm_flight r l Ho) as [[= -> ->] Hc]. unfold count_act, sent, received. simpl.
    rewrite !omap_app, app_nil_r. simpl. rewrite !app_nil_r. split_and!; try done; [lia|].
    intros ->. unfold popped. simpl. by rewrite Hm, <- (assoc_L (++)).
Qed.

Lemma inv_action (s s' : state) p a r l :
  inv base P s → clients s !! p = Some (mkClient (Act a :: r) None l) →
  balanced base P s' → took_turn run p (Act a) r l s s' → inv base P s'.
Proof.
  intros I E B [Hdom Ht]. destruct (act_effect s p a r l I E) as (l' & g & Hr & _ & Hlen & Hv & Ho & Hs & Hp).
  rewrite Hr in Ht. destruct Ht as [Hg Hb].
  assert (Eb : (bare <$> clients s) !! p = Some (Act a :: r, l)) by by rewrite lookup_fmap, E.
  assert (Hin : inside (Act a :: r) None = true).
  { pose proof (point s p _ I E) as Hpt. unfold point_ok, holds_ok in Hpt. simpl in Hpt.
    bools Hpt. destruct a; bools Hpt; tauto. }
  assert (Hcalm : ∀ q b, q ≠ p → (bare <$> clients s) !! q = Some b →
    flight b = ([], []) ∧ ∀ q, vars_ok q b).
  { intros q [r' l''] Hq Hb'. apply calm_flight. by apply (others_calm s p q _ _ I E Hin Hq Hb'). }
  assert (Hpre : sent (console (shared s)) = received (console (shared s)) ++
    popped (Act a :: r, l) ++ MQ (shared s) ++ announced (Act a :: r, l)).
  { apply (inv_order _ _ _ I p (flight (Act a :: r, l))); [by rewrite lookup_fmap, Eb|].
    intros q y Hq. rewrite lookup_fmap, fmap_Some. intros (b & Hb' & ->). by apply (Hcalm q). }
  apply Ho in Hpre. split; rewrite ?Hg, ?Hb; [done|by rewrite Hdom, (inv_sems _ _ _ I)|..].
  - rewrite (total_update _ _ _ _ _ Eb), Hlen, (inv_length _ _ _ I). unfold pushes, pops, count_act. simpl.
    destruct (is_push a), (is_pop a); simpl; lia.
  - intros q b. rewrite lookup_insert_Some. intros [[<- <-]|[Hq Hb']]; [done|]. by apply (Hcalm q).
  - intros q x. rewrite fmap_insert, lookup_insert_Some. intros [[<- <-]|[Hq Hx]] Hothers; [done|].
    rewrite lookup_fmap, fmap_Some in Hx. destruct Hx as (b & Hb' & ->).
    destruct (Hcalm q b ltac:(done) Hb') as [-> _]. simpl.
    specialize (Hothers p (flight (r, l')) ltac:(done) ltac:(by rewrite lookup_insert_eq)).
    injection Hothers as E1 E2. by rewrite E1, E2 in Hpre.
  - intros q Hq. apply lookup_insert_is_Some'. right. by apply (inv_there _ _ _ I).
  - intros q b. rewrite lookup_insert_Some. intros [[<- <-]|[Hq Hb']].
    + rewrite Hs, from_pid_app, (from_pid_own p p _ Hp), decide_True by done.
      rewrite <- (inv_said _ _ _ I p _ Eb), <- (assoc_L (++)). by destruct a.
    + rewrite Hs, from_pid_app, (from_pid_own p q _ Hp), decide_False, app_nil_r by done.
      by apply (inv_said _ _ _ I).
Qed.


(** Every turn ends and keeps the invariant. *)
Lemma inv_turn (s : state) p :
  inv base P s → runnable p s →
  ∃ s', turn run p s = Done ((), s') ∧ inv base P s' ∧ size s = size s' + 1.
Proof.
  intros I (i & r & l & E).
  assert (Hgo : ∀ a, i = Act a → ∃ l' g, run a l (shared s) = Go l' g).
  { intros a ->. destruct (act_effect s p a r l I E) as (l' & g & Hr & _). eauto. }
  destruct (turn_spec run base P s p i r l (inv_balanced _ _ _ I) E) as (s' & Ht & B & Htook).
  { intros a Ha. destruct (Hgo a Ha) as (? & ? & ->). done. }
  exists s'. split_and!; [done| |].
  - destruct i as [k|k|a]; [by eapply inv_call..|by eapply inv_action].
  - eapply took_turn_size; [done| |done]. intros a Ha. destruct (Hgo a Ha) as (? & ? & ->). done.
Qed.

(** A worker that cannot go on waits for [EMPTY] or [FULL], or is through. *)
Lemma at_rest (s : state) p c :
  inv base P s → (∀ q, ¬ runnable q s) → clients s !! p = Some c →
  inside (rem c) (waiting c) = false ∧
  (waiting c = Some 1 ∨
   held_empty (rem c) (waiting c) = 0 ∧ held_full (rem c) (waiting c) = 0 ∧
   (waiting c = Some 2 ∧ 1 ≤ pushes (rem c) ∧ pops (rem c) = 0 ∨
    waiting c = Some 3 ∧ 1 ≤ pops (rem c) ∧ pushes (rem c) = 0 ∨
    rem c = [] ∧ waiting c = None ∧ pushes (rem c) = 0 ∧ pops (rem c) = 0)).
Proof.
  intros I Hstuck E. pose proof (point s p c I E) as Hp. unfold point_ok, rest_ok in Hp.
  apply andb_true_iff in Hp as [_ Hp].
  destruct (stuck s p c Hstuck E) as [[Hr Hw]|[k Hw]]; rewrite ?Hr, ?Hw in Hp |- *; cbv iota beta in Hp; bools Hp.
  - tauto.
  - destruct Hp as [Hin [->|Hp]]; [by split; [|left]|]. split; [done|]. right.
    bools Hp. destruct Hp as [[? ?] [[[-> ?] ?]|[[-> ?] ?]]]; tauto.
Qed.

(** No deadlock: where nobody can go on, all are through. *)
Lemma no_deadlock (s : state) : inv base P s → (∀ q, ¬ runnable q s) → finished s.
Proof.
  intros I Hstuck. pose proof (λ p c, at_rest s p c I Hstuck) as Hrest.
  destruct (counts s I) as (m & e & f & Em & Ee & Ef & _ & Wf_e & Wf_f & Hm & He & Hf).
  assert (Hzero := λ g, total_zero (A := client vars action) g (clients s)).
  pose proof (permits_no_waiter base P s) as Hno.
  assert (H1 : ∀ p, ¬ waiter 1 (clients s) p).
  { intros p. apply (Hno 1 m p (inv_balanced _ _ _ I) Em). rewrite Hm, Hzero; [lia|].
    intros q c Hc. destruct (Hrest q c Hc) as [Hin _]. destruct (holds s q c I Hc) as (_ & _ & _ & _ & [?|Hi]); [done|].
    unfold inside in Hin. by rewrite <- need_owed, Hi in Hin. }
  assert (Hr : ∀ p c, clients s !! p = Some c → waiting c ≠ Some 1).
  { intros p c Hc Hw. apply (H1 p). by exists c. }
  rewrite Hzero in He by (intros p c Hc; destruct (Hrest p c Hc) as [_ [?|?]]; [by destruct (Hr p c)|tauto]).
  rewrite Hzero in Hf by (intros p c Hc; destruct (Hrest p c Hc) as [_ [?|?]]; [by destruct (Hr p c)|tauto]).
  assert (Hlen : Z.of_nat (length (MQ (shared s))) =
    total (pops ∘ rem) (clients s) - total (pushes ∘ rem) (clients s)).
  { rewrite (inv_length _ _ _ I), total_fmap.
    rewrite (total_ext (_ ∘ bare) (λ c, (pops ∘ rem) c + -1 * (pushes ∘ rem) c))
      by (intros; unfold bare, compose; simpl; lia).
    rewrite total_add, total_scale. lia. }
  assert (Hpos : 0 ≤ total (pushes ∘ rem) (clients s)).
  { apply total_nonneg. intros q d Hd. by apply (holds s q d). }
  assert (He0 : 0 < count e).
  { destruct (decide (0 < count e)); [done|]. destruct Wf_e, Wf_f as [Hf0 _]. unfold SIZE in He.
    rewrite (Hzero (pops ∘ rem)) in Hlen; [lia|]. intros q d Hd. specialize (Hr q d Hd).
    destruct (Hrest q d Hd) as [_ [?|(_ & _ & [?|[[Hw _]|?]])]]; [done|tauto| |tauto].
    destruct (Hno 3 f q (inv_balanced _ _ _ I) Ef); [lia|by exists d]. }
  assert (H2 : ∀ p c, clients s !! p = Some c → waiting c ≠ Some 2).
  { intros p c Hc Hw. apply (Hno 2 e p (inv_balanced _ _ _ I) Ee He0). by exists c. }
  rewrite (Hzero (pushes ∘ rem)) in Hlen.
  2: { intros q d Hd. specialize (Hr q d Hd). specialize (H2 q d Hd).
       destruct (Hrest q d Hd) as [_ ?]. unfold compose. tauto. }
  intros p c Hc. specialize (Hr p c Hc). specialize (H2 p c Hc).
  destruct (Hrest p c Hc) as [_ [?|(_ & _ & [?|[[Hw [Hp _]]|?]])]]; [done|tauto| |tauto]. exfalso.
  destruct (decide (0 < count f)).
  - destruct (Hno 3 f p (inv_balanced _ _ _ I) Ef); [lia|by exists c].
  - pose proof (total_ge (pops ∘ rem) (clients s) p c
      ltac:(intros q d Hd; by apply (holds s q d)) Hc) as Hle. unfold compose at 1 in Hle. lia.
Qed.

Lemma inv_nsteps n (s s' : state) :
  inv base P s → nsteps (step run) n s s' → inv base P s' ∧ size s = size s' + Z.of_nat n.
Proof.
  intros I Hn. induction Hn as [s|n s1 s2 s3 (p & Hp & Ht) _ IH]; [split; [done|lia]|].
  destruct (inv_turn s1 p I Hp) as (s' & Ht' & I' & Hs). rewrite Ht in Ht'. injection Ht' as <-.
  destruct (IH I') as [? ?]. split; [done|lia].
Qed.

(** A state that is not finished has a next one. *)
Lemma progress (s : state) : inv base P s → finished s ∨ ∃ s', step run s s'.
Proof.
  intros I. destruct (decide (map_Forall (λ _ c, rem c = [] ∨ is_Some (waiting c)) (clients s))) as [Hall|Hnot].
  - left. apply no_deadlock; [done|]. intros q (i & r & l & E). apply Hall in E as [?|[? ?]]; done.
  - right. apply map_not_Forall in Hnot as (p & c & E & Hc); [|intros ? ?; apply _].
    destruct c as [[|i r] [k|] l]; simpl in Hc; [naive_solver..|].
    destruct (inv_turn s p I) as (s' & Ht & _); [by exists i, r, l|]. exists s', p. split; [by exists i, r, l|done].
Qed.

Lemma finished_size (s : state) : inv base P s → finished s ↔ size s = 0.
Proof.
  intros I. unfold size. rewrite total_fmap. split.
  - intros Hf. apply total_zero. intros p c [Hr _]%Hf. unfold compose. simpl. by rewrite Hr.
  - intros Hs. apply no_deadlock; [done|]. intros p (i & r & l & E).
    pose proof (total_ge _ _ p _ (λ _ c _, Zle_0_nat (length (bare c).1)) E) as Hle.
    unfold compose in Hs. simpl in *. lia.
Qed.

End Invariant.

(** ** The start *)

Section Main.
Context `{Profile} (pids : list Z) (Hnd : NoDup pids) (H16 : length pids = 16%nat).

Definition role (i : nat) (p : Z) : list (instr action) := if Nat.even i then produce p else consume p.

Lemma imap_fst {A B} (f : nat → A → B) (l : list A) : (imap (λ i a, (a, f i a)) l).*1 = l.
Proof. revert f. induction l as [|a l IH]; intros f; [done|]. simpl. f_equal. apply (IH (f ∘ S)). Qed.

Lemma workers_lookup p r :
  workers pids !! p = Some r ↔ ∃ i, pids !! i = Some p ∧ r = role i p.
Proof.
  unfold workers. rewrite <- elem_of_list_to_map by by rewrite (imap_fst role).
  rewrite list_elem_of_lookup. setoid_rewrite list_lookup_imap. unfold role. split.
  - intros (i & Hi). destruct (pids !! i) eqn:E; simplify_eq/=. eauto.
  - intros (i & Hi & ->). exists i. by rewrite Hi.
Qed.

Lemma sum_roles (f : list (instr action) → Z) (x y : Z) (l : list Z) :
  (∀ p, f (produce p) = x) → (∀ p, f (consume p) = y) → length l = 16%nat →
  foldr (λ b n, f b.2 + n) 0 (imap (λ i p, (p, role i p)) l) = 8 * x + 8 * y.
Proof.
  intros Hx Hy Hl. do 16 (destruct l as [|? l]; [discriminate Hl|]). destruct l; [|discriminate Hl].
  cbn -[produce consume Z.add Z.mul]. rewrite !Hx, !Hy. lia.
Qed.

Lemma total_workers (f : list (instr action) → Z) (x y : Z) :
  (∀ p, f (produce p) = x) → (∀ p, f (consume p) = y) → total f (workers pids) = 8 * x + 8 * y.
Proof.
  intros Hx Hy. unfold workers. rewrite total_list by by rewrite (imap_fst role). by apply sum_roles.
Qed.

Lemma workers_role p :
  program (workers pids) p = produce p ∨ program (workers pids) p = consume p ∨
  program (workers pids) p = [].
Proof.
  unfold program. destruct (workers pids !! p) as [r|] eqn:E; [|by auto].
  apply workers_lookup in E as (i & _ & ->). simpl. unfold role. destruct (Nat.even i); auto.
Qed.

Definition table : gmap Z Semaphore := state_of (init_semaphores SemaphoreSet.default) ∅.

Lemma spare_key k x y :
  (∀ p, waits k (produce p) - signals k (produce p) = x) →
  (∀ p, waits k (consume p) - signals k (consume p) = y) →
  spare table (workers pids) k = from_option count 0 (table !! k) - (8 * x + 8 * y).
Proof.
  intros Hx Hy. unfold spare.
  by rewrite (total_workers (λ r, waits k r - signals k r) x y).
Qed.

Lemma spare_table :
  spare table (workers pids) 1 = 1 ∧ spare table (workers pids) 2 = SIZE ∧
  spare table (workers pids) 3 = 0.
Proof.
  rewrite (spare_key 1 0 0), (spare_key 2 10 (-10)), (spare_key 3 (-10) 10);
    [vm_compute; auto|intros p; vm_compute; reflexivity..].
Qed.

Lemma table_new : map_Forall (λ _ sem, Semaphore.wf sem ∧ wait_queue sem = []) table.
Proof.
  change table with (<[3 := Semaphore.new 0]> (<[2 := Semaphore.new 8]> {[1 := Semaphore.new 1]} : gmap Z Semaphore)).
  repeat apply map_Forall_insert_2; [..|apply map_Forall_empty];
    (split; [apply Semaphore.new_wf; lia|done]).
Qed.

Lemma main_inv : inv (spare table (workers pids)) (program (workers pids)) (main pids).
Proof.
  assert (Hdom : dom table = {[ 1; 2; 3 ]}) by (vm_compute; reflexivity).
  split.
  - apply balanced_start.
    + exact table_new.
    + intros k Hk. change (is_Some (table !! k)) in Hk. fold table. rewrite (total_workers _ 70 70) by (intros p; vm_compute; reflexivity).
      apply (elem_of_dom (D := gset Z)) in Hk. rewrite Hdom in Hk. destruct spare_table as (S1 & S2 & S3).
      assert (k = 1 ∨ k = 2 ∨ k = 3) as [->|[->| ->]] by set_solver; rewrite ?S1, ?S2, ?S3; unfold SIZE; lia.
  - exact Hdom.
  - simpl. rewrite !total_fmap.
    rewrite (total_ext (_ ∘ _) (λ r, pops r - pushes r)) by done.
    rewrite (total_workers _ (-10) 10); [done|intros p; vm_compute; reflexivity..].
  - intros p b Hb. simpl in Hb. rewrite !lookup_fmap in Hb.
    destruct (workers pids !! p) as [r|] eqn:E; simplify_eq/=.
    apply workers_lookup in E as (i & _ & ->). unfold role. by destruct (Nat.even i).
  - intros p x Hx _. simpl in *. rewrite !lookup_fmap in Hx.
    destruct (workers pids !! p) as [r|] eqn:E; simplify_eq/=.
    apply workers_lookup in E as (i & _ & ->). unfold role. by destruct (Nat.even i).
  - intros p Hp. simpl. rewrite !lookup_fmap. unfold program in Hp. by destruct (workers pids !! p).
  - intros p b Hb. simpl in *. rewrite !lookup_fmap in Hb. unfold program.
    destruct (workers pids !! p) as [r|] eqn:E; by simplify_eq/=.
Qed.
Lemma main_size : size (main pids) = 1120.
Proof.
  unfold size. simpl. rewrite !total_fmap.
  rewrite (total_ext (_ ∘ _) (λ r, Z.of_nat (length r))) by done.
  by rewrite (total_workers _ 70 70) by (intros p; vm_compute; reflexivity).
Qed.

(** A run of [n] turns ends in a state with the invariant, [n] instructions on. *)
Lemma run_inv n (s : state vars memory action) :
  nsteps (step run) n (main pids) s →
  inv (spare table (workers pids)) (program (workers pids)) s ∧ size s = 1120 - Z.of_nat n.
Proof.
  intros Hn. destruct (inv_nsteps _ _ spare_table workers_role n _ s main_inv Hn) as [I Hs].
  rewrite main_size in Hs. split; [done|lia].
Qed.

End Main.

(** C22: Safety of the message queue.  However the sixteen workers are
    interleaved, the queue never holds more than [SIZE] messages, two workers
    are never both between [wait] and [signal] of [MUTEX], and no worker ever
    panics: [pop_front] always finds a message. *)
Theorem mq_safe `{Profile} (pids : list Z) (s : state vars memory action) :
  NoDup pids → length pids = 16%nat → rtc (step run) (main pids) s →
  Z.of_nat (length (MQ (shared s))) ≤ SIZE ∧
  (∀ p q c d, clients s !! p = Some c → clients s !! q = Some d →
     inside (rem c) (waiting c) = true → inside (rem d) (waiting d) = true → p = q) ∧
  (∀ p, runnable p s → ∃ s', turn run p s = Done ((), s')).
Proof.
  intros Hnd H16 [n Hn]%rtc_nsteps. destruct (run_inv pids Hnd H16 n s Hn) as [I _].
  pose proof (spare_table pids Hnd H16) as Hb. pose proof (workers_role pids Hnd) as HP.
  split_and!.
  - destruct (counts _ _ Hb s I) as (m & e & f & _ & _ & _ & _ & [He0 _] & _ & _ & He & _).
    pose proof (total_nonneg (λ c, held_empty (rem c) (waiting c)) (clients s)
      ltac:(intros p c Hc; by apply (holds _ _ Hb HP s p c))). lia.
  - intros p q c d. by apply (exclusive _ _ Hb HP s).
  - intros p Hp. destruct (inv_turn _ _ Hb HP s p I Hp) as (s' & Ht & _). eauto.
Qed.

Lemma mq_safe_witness :
  let s := main (seqZ 3 16) in
  Z.of_nat (length (MQ (shared s))) ≤ SIZE ∧
  (∀ p q c d, clients s !! p = Some c → clients s !! q = Some d →
     inside (rem c) (waiting c) = true → inside (rem d) (waiting d) = true → p = q) ∧
  (∀ p, runnable p s → ∃ s', turn (H := debug) run p s = Done ((), s')).
Proof.
  apply (mq_safe (H := debug) (seqZ 3 16)).
  - apply NoDup_seqZ.
  - reflexivity.
  - apply rtc_refl.
Defined.

(** C23: The message queue's program always ends, and in the right way.  Whatever
    the schedule, a run is not stuck until it has taken 1120 turns, and it
    cannot take more.  Then all workers are through and the queue is empty, as
    the program prints; the messages were received in the order they were
    sent; and each producer sent its ten messages in order. *)
Theorem mq_completes `{Profile} (pids : list Z) (n : nat) (s : state vars memory action) :
  NoDup pids → length pids = 16%nat → nsteps (step run) n (main pids) s →
  Z.of_nat n ≤ 1120 ∧
  (Z.of_nat n < 1120 → ∃ s', step run s s') ∧
  (Z.of_nat n = 1120 →
     finished s ∧ MQ (shared s) = [] ∧
     sent (console (shared s)) = received (console (shared s)) ∧
     ∀ i p, pids !! i = Some p → Nat.even i = true →
       from_pid p (sent (console (shared s))) = mkMessage p <$> seqZ 0 10).
Proof.
  intros Hnd H16 Hn. destruct (run_inv pids Hnd H16 n s Hn) as [I Hs].
  pose proof (spare_table pids Hnd H16) as Hb. pose proof (workers_role pids Hnd) as HP.
  assert (0 ≤ size s) by (apply total_nonneg; intros ? ? _; simpl; lia).
  split_and!; [lia| |].
  - intros Hlt. destruct (progress _ _ Hb HP s I) as [Hf|]; [|done].
    apply (finished_size _ _ Hb HP s I) in Hf. lia.
  - intros E. assert (Hf : finished s) by (apply (finished_size _ _ Hb HP s I); lia).
    assert (Hrem : ∀ p b, (bare <$> clients s) !! p = Some b → b.1 = []).
    { intros p [r l] [w Hw]%bare_Some. by apply Hf in Hw as [? _]. }
    assert (Hq : MQ (shared s) = []).
    { apply length_zero_iff_nil. pose proof (inv_length _ _ _ I) as Hlen.
      rewrite total_zero in Hlen; [lia|]. intros p b Hb'. by rewrite (Hrem p b Hb'). }
    assert (Hthere : ∀ i p, pids !! i = Some p →
      program (workers pids) p = role i p ∧ ∃ l, (bare <$> clients s) !! p = Some ([], l)).
    { intros i p Hi. assert (E' : workers pids !! p = Some (role i p)) by (apply workers_lookup; eauto).
      assert (Hp : program (workers pids) p = role i p) by (unfold program; by rewrite E').
      split; [done|]. destruct (inv_there _ _ _ I p) as [[r l] Hb'].
      - rewrite Hp. unfold role. by destruct (Nat.even i).
      - exists l. pose proof (Hrem p _ Hb') as Hr. simpl in Hr. by subst. }
    split_and!; [done|done| |].
    + destruct pids as [|p pids']; [done|]. destruct (Hthere 0%nat p eq_refl) as [_ [l Hl]].
      pose proof (inv_order _ _ _ I p (flight ([], l)) ltac:(by rewrite lookup_fmap, Hl)) as Ho.
      rewrite Hq in Ho. simpl in Ho. rewrite app_nil_r in Ho. apply Ho.
      intros q y _. rewrite lookup_fmap, fmap_Some. intros ([r l'] & Hb' & ->).
      pose proof (Hrem q _ Hb') as Hr. simpl in Hr. by subst.
    + intros i p Hi He. destruct (Hthere i p Hi) as [Hp [l Hl]].
      pose proof (inv_said _ _ _ I p _ Hl) as Hsaid. rewrite app_nil_r in Hsaid. rewrite Hsaid, Hp.
      unfold role. rewrite He. vm_compute. reflexivity.
Qed.

(** A whole run. *)
Definition last : state vars memory action :=
  default (main []) (drive (H := debug) run 1120 (seqZ 3 16) (main (seqZ 3 16))).

Lemma last_reached : nsteps (step (H := debug) run) 1120 (main (seqZ 3 16)) last.
Proof. apply (drive_nsteps (H := debug) run 1120 (seqZ 3 16)). vm_compute. reflexivity. Qed.

Lemma mq_completes_witness :
  Z.of_nat 1120 ≤ 1120 ∧
  (Z.of_nat 1120 < 1120 → ∃ s', step (H := debug) run last s') ∧
  (Z.of_nat 1120 = 1120 →
     finished last ∧ MQ (shared last) = [] ∧
     sent (console (shared last)) = received (console (shared last)) ∧
     ∀ i p, seqZ 3 16 !! i = Some p → Nat.even i = true →
       from_pid p (sent (console (shared last))) = mkMessage p <$> seqZ 0 10).
Proof.
  apply (mq_completes (H := debug) (seqZ 3 16) 1120).
  - apply NoDup_seqZ.
  - reflexivity.
  - exact last_reached.
Defined.
