(* ===== verification/Fish.v ===== *)
(** The fish of [pkg/app/fish] and the philosophers of [pkg/app/dinner].

    Three processes of [fish] print one kind of character each and take turns
    through semaphores; whatever the schedule, the terminal shows the same five
    fish.  This is checked on every reachable state ([Clients.explore]).  The
    processes of [dinner] use semaphores that nobody creates. *)
From S2P Require Import Prelude Sync Clients.
From Stdlib Require Import Ascii String.
From stdpp Require Import strings.
Open Scope Z_scope.
Open Scope list_scope.

Module Fish.

Definition PROCESS0 : UserSemaphore.Semaphore := UserSemaphore.new 0.
Definition PROCESS1 : UserSemaphore.Semaphore := UserSemaphore.new 1.
Definition PROCESS2 : UserSemaphore.Semaphore := UserSemaphore.new 2.
Definition WAITER : UserSemaphore.Semaphore := UserSemaphore.new 3.

Inductive action : Type :=
  | Print (c : ascii)
  | Unreachable.

#[global] Instance action_eq_dec : EqDecision action.
Proof. solve_decision. Defined.

(** The memory that matters is the terminal. *)
Definition run (a : action) (l : ()) (out : list ascii) : effect () (list ascii) :=
  match a with
  | Print c => Go l (out ++ [c])
  | Unreachable => Crash
  end.

Definition wait : UserSemaphore.Semaphore → instr action := UserSemaphore.wait.
Definition signal : UserSemaphore.Semaphore → instr action := UserSemaphore.signal.

(** One round of the [match] in [print], and what it adds to [idx]. *)
Definition arm (id : Z) : list (instr action) * Z :=
  match id with
  | 0 => ([wait PROCESS0; wait WAITER; Act (Print ">"); signal WAITER; signal PROCESS1;
           wait PROCESS0; wait WAITER; Act (Print ">"); signal WAITER; signal PROCESS2], 1)
  | 1 => ([wait PROCESS1; Act (Print "<"); signal PROCESS0], 1)
  | 2 => ([wait PROCESS2; wait WAITER; Act (Print "_"); signal WAITER; signal PROCESS0], 1)
  | _ => ([Act Unreachable], 0)
  end.

(** [while idx < 10]; ten rounds are more than enough. *)
Fixpoint print_loop (fuel : nat) (id idx : Z) : list (instr action) :=
  match fuel with
  | O => []
  | S fuel =>
      if idx <? 10 then (arm id).1 ++ print_loop fuel id (idx + (arm id).2 + 1) else []
  end.

Definition print (id : Z) : list (instr action) := print_loop 10 id 0.

Definition init_semaphores : M (gmap Z Semaphore) () :=
  UserSemaphore.init PROCESS0 0;; UserSemaphore.init PROCESS1 0;; UserSemaphore.init PROCESS2 0;;
  UserSemaphore.init WAITER 1;; mret ().

(** The children, and the parent (process 3) after the forks, up to its waiting
    for them. *)
Definition main : state () (list ascii) action :=
  start (state_of (init_semaphores SemaphoreSet.default) ∅)
    {[ 0 := print 0; 1 := print 1; 2 := print 2; 3 := [signal PROCESS0] ]} () [].

Definition school : list ascii := mjoin (replicate 5 [">"; "<"; ">"; "_"]%char).

Definition workers : list Z := [0; 1; 2; 3].

Definition states `{Profile} : list (state () (list ascii) action) :=
  default [] (explore run 2000 workers [main] []).

(** What is printed is a part of the school; a state is the end or can go on. *)
Definition good (s : state () (list ascii) action) : bool :=
  bool_decide (shared s `prefix_of` school) &&
  (existsb (λ p, can_run p s) workers ||
   (bool_decide (shared s = school) &&
    forallb (λ p, match clients s !! p with Some (mkClient [] None _) => true | _ => false end) workers)).

Lemma main_workers : all_workers workers main.
Proof.
  intros p Hp. change (is_Some (clients main !! p)) in Hp.
  apply (elem_of_dom (D := gset Z)) in Hp.
  assert (Hd : dom (clients main) = {[ 0; 1; 2; 3 ]}) by (vm_compute; reflexivity).
  rewrite Hd in Hp. unfold workers. set_solver.
Qed.

Section Check.
Context `{Profile}.

(** One search finds the states and looks at each. *)
Lemma states_checked : match explore run 2000 workers [main] [] with Some l => forallb good l | None => false end = true.
Proof. destruct H as [[]]; vm_cast_no_check (eq_refl true). Qed.

Lemma states_found : explore run 2000 workers [main] [] = Some states.
Proof. pose proof states_checked. unfold states. by destruct (explore _ _ _ _ _). Qed.

Lemma states_good : forallb good states = true.
Proof. pose proof states_checked. unfold states. by destruct (explore _ _ _ _ _). Qed.

Lemma good_spec s :
  good s = true → all_workers workers s →
  shared s `prefix_of` school ∧
  ((∃ p, runnable p s) ∨ shared s = school ∧ finished s).
Proof.
  unfold good. intros [Hpre Hg]%andb_true_iff Hw. apply bool_decide_eq_true in Hpre. split; [done|].
  apply orb_true_iff in Hg as [Hrun|[Hsh Hfin]%andb_true_iff].
  - left. apply existsb_exists in Hrun as (p & _ & Hp). exists p. by apply can_run_runnable.
  - right. apply bool_decide_eq_true in Hsh. split; [done|]. intros p c Hc.
    rewrite forallb_forall in Hfin.
    specialize (Hfin p ltac:(apply list_elem_of_In, Hw; eauto)). rewrite Hc in Hfin.
    by destruct c as [[|] [|] l].
Qed.

(** The fish.  Whatever the schedule, what [fish] has printed at any time is
    the beginning of five fish [><>_]; no process is ever stuck or panics
    before all five are there; and no run is longer than the 91 instructions of the
    four processes, so every run can be continued to the end and ends so. *)
Theorem fish_prints (n : nat) (s : state () (list ascii) action) :
  nsteps (step run) n main s →
  shared s `prefix_of` school ∧ Z.of_nat n ≤ 91 ∧
  ((∃ s', step run s s') ∨ (shared s = school ∧ finished s)).
Proof.
  intros Hn.
  destruct (explore_spec run 2000 workers main states good states_found main_workers states_good s)
    as (Hg & Hw & Hruns); [by eapply rtc_nsteps_2|].
  destruct (good_spec s Hg Hw) as [Hpre Hend]. split_and!; [done| |].
  - pose proof (nsteps_size run n main s ltac:(by intros [])  Hn) as Hs. pose proof (size_nonneg s).
    assert (Clients.size main = 91) by (vm_compute; reflexivity). lia.
  - destruct Hend as [[p Hp]|?]; [left|by right]. destruct (Hruns p Hp) as [s' Ht]. by exists s', p.
Qed.
End Check.

(** A whole run. *)
Definition last : state () (list ascii) action :=
  default main (drive (H := debug) run 91 workers main).

Lemma fish_prints_witness :
  nsteps (step (H := debug) run) 91 main last ∧
  (shared last `prefix_of` school ∧ Z.of_nat 91 ≤ 91 ∧
   ((∃ s', step (H := debug) run last s') ∨ (shared last = school ∧ finished last))).
Proof.
  assert (Hn : nsteps (step (H := debug) run) 91 main last).
  { apply (drive_nsteps (H := debug) run 91 workers). vm_compute. reflexivity. }
  split; [exact Hn|]. apply (fish_prints (H := debug) 91 last Hn).
Defined.

End Fish.

(** * The philosophers *)

Module Dinner.

Definition CHOPSTICK (i : Z) : UserSemaphore.Semaphore := UserSemaphore.new i.

(** The line that is printed. *)
Definition run (a : Z) (l : ()) (out : list Z) : effect () (list Z) := Go l (out ++ [a]).

Definition wait : UserSemaphore.Semaphore → instr Z := UserSemaphore.wait.
Definition signal : UserSemaphore.Semaphore → instr Z := UserSemaphore.signal.

Definition dinner (set : Z) : list (instr Z) :=
  let left := set in
  let right := (set + 1) `mod` 5 in
  if set `mod` 2 =? 0 then
    [wait (CHOPSTICK left); wait (CHOPSTICK right); Act set;
     signal (CHOPSTICK right); signal (CHOPSTICK left)]
  else
    [wait (CHOPSTICK right); wait (CHOPSTICK left); Act set;
     signal (CHOPSTICK left); signal (CHOPSTICK right)].

(** [main] creates no semaphore before it forks. *)
Definition main : state () (list Z) Z :=
  start SemaphoreSet.default
    {[ 0 := dinner 0; 1 := dinner 1; 2 := dinner 2; 3 := dinner 3; 4 := dinner 4 ]} () [].

(** The philosopher has both chopsticks, as far as its program says. *)
Definition eating (s : state () (list Z) Z) (p : Z) : bool :=
  match clients s !! p with Some (mkClient (Act _ :: _) None _) => true | _ => false end.

(** In [dinner] the chopsticks are never created, so [wait] answers 1, which
    [lib::Semaphore::wait] drops, and everyone goes on: there is a schedule
    after which all five philosophers eat at once, each with a chopstick of its
    neighbour's. *)
Theorem dinner_all_eat_at_once `{Profile} :
  ∃ ps s, schedule run ps main = Done ((), s) ∧ ∀ p, 0 ≤ p < 5 → eating s p = true.
Proof.
  exists [0; 0; 1; 1; 2; 2; 3; 3; 4; 4]. eexists. split.
  - destruct H as [[]]; vm_compute; reflexivity.
  - intros p Hp. assert (p = 0 ∨ p = 1 ∨ p = 2 ∨ p = 3 ∨ p = 4) by lia.
    destruct_or!; subst p; vm_compute; reflexivity.
Qed.

End Dinner.
