(* ===== verification/Counter.v ===== *)
(** The two counters of [pkg/app/counter]: four threads increment the first
    under a spin lock ([lib::SpinLock]), four the second under a semaphore.

    An increment reads the counter and writes it back in separate steps, so
    that without a lock increments would be lost.  A thread that finds the lock
    taken tries again, and need not be scheduled fairly: what holds is that no
    increment is lost, and that at any time somebody can get on. *)
From S2P Require Import Prelude Sync Clients.

(** [lib::SpinLock] and the two counters, in shared memory; [false] is the
    counter under the spin lock, [true] the one under the semaphore. *)
Record memory : Type := mkMemory { bolt : bool; COUNTER : Z; COUNTER_SEM : Z }.

Definition cell (c : bool) (g : memory) : Z := if c then COUNTER_SEM g else COUNTER g.

Definition set_cell (c : bool) (v : Z) (g : memory) : memory :=
  if c then mkMemory (bolt g) (COUNTER g) v else mkMemory (bolt g) v (COUNTER_SEM g).

Inductive action : Type :=
  | CompareExchange
  | StoreBolt (b : bool)
  | Load (c : bool)
  | Add
  | Store (c : bool).

(** A thread's [val]. *)
Definition run (a : action) (val : Z) (g : memory) : effect Z memory :=
  match a with
  | CompareExchange => if bolt g then Spin else Go val (mkMemory true (COUNTER g) (COUNTER_SEM g))
  | StoreBolt b => Go val (mkMemory b (COUNTER g) (COUNTER_SEM g))
  | Load c => Go (cell c g) g
  | Add => Go (val + 1) g
  | Store c => Go val (set_cell c val g)
  end.

Module SpinLock.
(** [compare_exchange] in a loop that spins, then a store. *)
Definition acquire : list (instr action) := [Act CompareExchange; Act (StoreBolt true)].
Definition release : list (instr action) := [Act (StoreBolt false)].
End SpinLock.

Definition key : Z := 0x1234.

Definition inc_counter : list (instr action) := [Act (Load false); Act Add; Act (Store false)].
Definition inc_counter_sem : list (instr action) := [Act (Load true); Act Add; Act (Store true)].

Definition do_counter_inc : list (instr action) :=
  mjoin (replicate 100 (SpinLock.acquire ++ inc_counter ++ SpinLock.release)).

Definition do_counter_inc_semaphore : list (instr action) :=
  mjoin (replicate 100 ([Wait key] ++ inc_counter_sem ++ [Signal key])).

Definition THREAD_COUNT : nat := 8.
Definition HOLD : nat := THREAD_COUNT / 2.

(** [test_spin_lock] runs in the child of [main] and [test_semaphore] in the
    parent: the pids of their threads are [ps] and [qs]. *)
Definition workers (ps qs : list Z) : gmap Z (list (instr action)) :=
  list_to_map (((λ p, (p, do_counter_inc)) <$> ps) ++ ((λ q, (q, do_counter_inc_semaphore)) <$> qs)).

Definition table : gmap Z Semaphore :=
  state_of (SemaphoreSet.insert key 1 SemaphoreSet.default) ∅.

Definition main (ps qs : list Z) : state Z memory action :=
  start table (workers ps qs) 0 (mkMemory false 0 0).

(** ** What is left of a program *)

Definition count_act (f : action → bool) (r : list (instr action)) : Z :=
  Z.of_nat (length (List.filter (λ i, match i with Act a => f a | _ => false end) r)).

Definition is_store (c : bool) (a : action) : bool :=
  match a with Store c' => Bool.eqb c c' | _ => false end.

Definition stores (c : bool) : list (instr action) → Z := count_act (is_store c).

(** 1 while the thread has the spin lock. *)
Definition holds (r : list (instr action)) : Z :=
  count_act (λ a, match a with StoreBolt false => true | _ => false end) r -
  count_act (λ a, match a with CompareExchange => true | _ => false end) r.

Definition owed (r : list (instr action)) (w : option Z) : Z :=
  waits key r + (if decide (w = Some key) then 1 else 0) - signals key r.

Definition locked (c : bool) (r : list (instr action)) (w : option Z) : bool :=
  if c then owed r w =? -1 else holds r =? 1.

(** The thread's [val] is not in use. *)
Definition fresh (r : list (instr action)) : bool :=
  match r with Act Add :: _ | Act (Store _) :: _ => false | _ => true end.

(** What holds at every point of a thread. *)
Definition point_ok (r : list (instr action)) (w : option Z) : bool :=
  ((holds r =? 0) || (holds r =? 1)) && ((owed r w =? 0) || (owed r w =? -1)) &&
  match w with
  | Some k => (k =? key) && (owed r w =? 0) && (holds r =? 0) && fresh r
  | None =>
      match r with
      | Act (Load c) :: r' =>
          locked c r w && match r' with Act Add :: Act (Store c') :: _ => Bool.eqb c c' | _ => false end
      | Act Add :: r' => match r' with Act (Store c) :: _ => locked c r w | _ => false end
      | Act (Store c) :: r' => locked c r w && fresh r'
      | Act CompareExchange :: r' => (holds r =? 0) && fresh r'
      | Act (StoreBolt b) :: r' => (holds r =? 1) && fresh r'
      | _ :: r' => fresh r'
      | [] => (owed r w =? 0) && (holds r =? 0) && (stores true r =? 0) && (stores false r =? 0)
      end
  end.

Lemma spin_ok : at_points point_ok do_counter_inc = true.
Proof. vm_compute. reflexivity. Qed.

Lemma semaphore_ok : at_points point_ok do_counter_inc_semaphore = true.
Proof. vm_compute. reflexivity. Qed.

(** ** The invariant *)

(** What a thread has read is still so. *)
Definition vars_ok (g : memory) (b : list (instr action) * Z) : Prop :=
  match b.1 with
  | Act Add :: Act (Store c) :: _ => b.2 = cell c g
  | Act (Store c) :: _ => b.2 = cell c g + 1
  | _ => True
  end.

Lemma fresh_vars g r v : fresh r = true → vars_ok g (r, v).
Proof. by destruct r as [|[| |[]]]. Qed.

Lemma vars_ok_cells g g' b : (∀ c, cell c g' = cell c g) → vars_ok g b → vars_ok g' b.
Proof.
  intros Hc. unfold vars_ok. destruct b.1 as [|[| |[]] [|[| |[]] r]]; rewrite ?Hc; done.
Qed.

Record inv (base : Z → Z) (P : Z → list (instr action)) (s : state Z memory action) : Prop := {
  inv_balanced : balanced base P s;
  inv_key : is_Some (sems s !! key);
  inv_cell : ∀ c, cell c (shared s) + total (stores c ∘ fst) (bare <$> clients s) = 400;
  inv_bolt : total (holds ∘ fst) (bare <$> clients s) = if bolt (shared s) then 1 else 0;
  inv_vars : map_Forall (λ _ b, vars_ok (shared s) b) (bare <$> clients s);
}.

Ltac bools H := repeat rewrite ?andb_true_iff, ?orb_true_iff, ?Z.leb_le, ?Z.eqb_eq in H.

Section Invariant.
Context `{Profile} (base : Z → Z) (P : Z → list (instr action)).
Context (Hbase : base key = 1).
Context (HP : ∀ p, P p = do_counter_inc ∨ P p = do_counter_inc_semaphore ∨ P p = []).

#[local] Abbreviation state := (state Z memory action).

Lemma counter_point (s : state) p c :
  inv base P s → clients s !! p = Some c → point_ok (rem c) (waiting c) = true.
Proof.
  intros I E. apply (at_points_track point_ok P p c).
  - by apply (balanced_track _ _ _ (inv_balanced _ _ _ I)) in E.
  - destruct (HP p) as [->|[->| ->]]; [apply spin_ok|apply semaphore_ok|done].
Qed.

Lemma holds_owed (s : state) p c :
  inv base P s → clients s !! p = Some c →
  (holds (rem c) = 0 ∨ holds (rem c) = 1) ∧ (need key c = 0 ∨ need key c = -1).
Proof.
  intros I E. pose proof (counter_point s p c I E) as Hp. unfold point_ok in Hp. bools Hp.
  change (need key c) with (owed (rem c) (waiting c)). tauto.
Qed.

Lemma not_fresh (s : state) p r w v :
  inv base P s → clients s !! p = Some (mkClient r w v) → fresh r = false →
  ∃ c, (∃ r', r = Act Add :: Act (Store c) :: r' ∨ r = Act (Store c) :: r') ∧ locked c r w = true.
Proof.
  intros I E Hf. pose proof (counter_point s p _ I E) as Hp. unfold point_ok in Hp. simpl in Hp.
  apply andb_true_iff in Hp as [_ Hp]. destruct w; [bools Hp; destruct Hp; congruence|].
  destruct r as [|[| |[]] r]; try done.
  - destruct r as [|[| |[]]]; try done. eauto.
  - bools Hp. destruct Hp. eauto.
Qed.

(** Mutual exclusion, for both kinds of lock. *)
Lemma lock_exclusive (s : state) k p q c d :
  inv base P s → clients s !! p = Some c → clients s !! q = Some d →
  locked k (rem c) (waiting c) = true → locked k (rem d) (waiting d) = true → p = q.
Proof.
  intros I Ec Ed Hc Hd. destruct k; simpl in *; apply Z.eqb_eq in Hc, Hd.
  - apply (one_permit base P s key p q c d); try done; [apply I..|].
    intros x e Ee. by apply (holds_owed s x e).
  - destruct (decide (p = q)) as [|Hpq]; [done|exfalso].
    pose proof (total_ge2 (holds ∘ fst) (bare <$> clients s) p q (bare c) (bare d)) as Ht.
    rewrite !lookup_fmap, Ec, Ed, (inv_bolt _ _ _ I) in Ht. unfold compose, bare in Ht. simpl in Ht.
    cut (holds (rem c) + holds (rem d) ≤ if bolt (shared s) then 1 else 0); [case_match; lia|].
    apply Ht; [|done..]. intros x b. rewrite lookup_fmap, fmap_Some. intros (e & Ee & ->). simpl.
    destruct (holds_owed s x e I Ee) as [[-> | ->] _]; lia.
Qed.

(** Another thread has nothing read from a counter that [p] is at. *)
Lemma other_vars (s : state) k p q c b v :
  inv base P s → clients s !! p = Some c → locked k (rem c) (waiting c) = true → q ≠ p →
  (bare <$> clients s) !! q = Some b → vars_ok (set_cell k v (shared s)) b.
Proof.
  intros I Ec Hc Hq Eb. pose proof (inv_vars _ _ _ I q b Eb) as Hv.
  rewrite lookup_fmap, fmap_Some in Eb. destruct Eb as ([r w x] & Ed & ->). unfold bare in *. simpl in *.
  destruct (fresh r) eqn:Ef; [by apply fresh_vars|].
  destruct (not_fresh s q r w x I Ed Ef) as (k' & (r' & Hr) & Hk').
  assert (k' ≠ k) by (intros ->; destruct Hq; by eapply (lock_exclusive s k q p)).
  destruct Hr as [-> | ->]; unfold vars_ok in *; simpl in *; rewrite Hv; by destruct k, k'.
Qed.

Lemma inv_lock_call (s s' : state) p i r l :
  inv base P s → clients s !! p = Some (mkClient (i :: r) None l) →
  (∀ a, i ≠ Act a) → balanced base P s' → took_turn run p i r l s s' → inv base P s'.
Proof.
  intros I E Hi B [Hdom Ht].
  assert (Hf : fresh r = true).
  { pose proof (counter_point s p _ I E) as Hp. unfold point_ok in Hp. simpl in Hp.
    apply andb_true_iff in Hp as [_ Hp]. destruct i; [done..|by destruct (Hi a)]. }
  assert (Eb : (bare <$> clients s) !! p = Some (i :: r, l)) by by rewrite lookup_fmap, E.
  assert (Hb : shared s' = shared s ∧ bare <$> clients s' = <[p := (r, l)]> (bare <$> clients s)).
  { destruct i; [done..|by destruct (Hi a)]. }
  assert (Hn : ∀ f, count_act f (i :: r) = count_act f r) by by destruct i; [..|by destruct (Hi a)].
  destruct Hb as [Hg Hb]. split; rewrite ?Hg, ?Hb; [done| |..].
  - rewrite <- (elem_of_dom (D := gset Z)), Hdom, elem_of_dom. apply I.
  - intros c. rewrite (total_update _ _ _ _ _ Eb). rewrite <- (inv_cell _ _ _ I c).
    unfold compose, stores. simpl. rewrite Hn. lia.
  - rewrite (total_update _ _ _ _ _ Eb), <- (inv_bolt _ _ _ I).
    unfold compose, holds. simpl. rewrite !Hn. lia.
  - apply map_Forall_insert_2; [by apply fresh_vars|apply (inv_vars _ _ _ I)].
Qed.

(** A thread at [release] has the lock, so the bolt is set. *)
Lemma bolt_set (s : state) p b r v :
  inv base P s → clients s !! p = Some (mkClient (Act (StoreBolt b) :: r) None v) →
  bolt (shared s) = true.
Proof.
  intros I E. pose proof (counter_point s p _ I E) as Hp. unfold point_ok in Hp. simpl in Hp. bools Hp.
  destruct Hp as [_ [Hh _]].
  pose proof (total_ge (holds ∘ fst) (bare <$> clients s) p (Act (StoreBolt b) :: r, v)) as Ht.
  rewrite (inv_bolt _ _ _ I), lookup_fmap, E in Ht. unfold compose in Ht. simpl in Ht.
  rewrite Hh in Ht. destruct (bolt (shared s)); [done|]. exfalso.
  cut (1 ≤ 0); [lia|]. apply Ht; [|done]. intros x e. rewrite lookup_fmap, fmap_Some.
  intros (d & Ed & ->). simpl. destruct (holds_owed s x d I Ed) as [[-> | ->] _]; lia.
Qed.

(** What an action does to the counters, to the bolt and to what is read. *)
Lemma cell_effect (s : state) p a r v v' g :
  inv base P s → clients s !! p = Some (mkClient (Act a :: r) None v) →
  run a v (shared s) = Go v' g →
  (∀ c, cell c g = cell c (shared s) + stores c [Act a]) ∧
  (if bolt g then 1 else 0) = (if bolt (shared s) then 1 else 0) - holds [Act a] ∧
  vars_ok g (r, v') ∧
  (∀ q b, q ≠ p → (bare <$> clients s) !! q = Some b → vars_ok g b).
Proof.
  intros I E Hr. pose proof (counter_point s p _ I E) as Hp. unfold point_ok in Hp. simpl in Hp.
  apply andb_true_iff in Hp as [_ Hp].
  pose proof (inv_vars _ _ _ I p (Act a :: r, v) ltac:(by rewrite lookup_fmap, E)) as Hv.
  assert (Hothers : (∀ c, cell c g = cell c (shared s)) →
    ∀ q b, q ≠ p → (bare <$> clients s) !! q = Some b → vars_ok g b).
  { intros Hc q b _ Hb. apply (vars_ok_cells (shared s)); [done|]. by apply (inv_vars _ _ _ I q). }
  destruct a as [|b|c| |c]; simpl in Hr.
  - destruct (bolt (shared s)) eqn:Eb; [done|]. injection Hr as <- <-.
    split_and!; [by intros []; unfold stores, count_act; simpl; lia|done| |by apply Hothers; intros []].
    apply fresh_vars. by apply andb_true_iff in Hp as [_ ?].
  - injection Hr as <- <-. pose proof (bolt_set s p b r v I E) as ->.
    split_and!; [by intros []; unfold stores, count_act; simpl; lia|by destruct b| |by apply Hothers; intros []].
    apply fresh_vars. by apply andb_true_iff in Hp as [_ ?].
  - injection Hr as <- <-.
    split_and!; [by intros []; unfold stores, count_act; simpl; lia|unfold holds, count_act; simpl; lia| |by apply Hothers].
    apply andb_true_iff in Hp as [_ Hp]. destruct r as [|[| |[]] [|[| |[]]]]; try done.
    by apply Bool.eqb_prop in Hp as ->.
  - injection Hr as <- <-.
    split_and!; [by intros []; unfold stores, count_act; simpl; lia|unfold holds, count_act; simpl; lia| |by apply Hothers].
    destruct r as [|[| |[]]]; try done. unfold vars_ok in *. simpl in *. by rewrite Hv.
  - injection Hr as <- <-. apply andb_true_iff in Hp as [Hl Hf]. unfold vars_ok in Hv. simpl in Hv.
    split_and!; [|destruct c; unfold holds, count_act; simpl; lia|by apply fresh_vars|].
    + intros c'. rewrite Hv. unfold stores, count_act. by destruct c, c'; simpl; lia.
    + intros q b Hq Hb. by eapply other_vars.
Qed.

Lemma inv_cell_action (s s' : state) p a r v :
  inv base P s → clients s !! p = Some (mkClient (Act a :: r) None v) →
  balanced base P s' → took_turn run p (Act a) r v s s' → inv base P s'.
Proof.
  intros I E B [Hdom Ht]. destruct (run a v (shared s)) as [v' g| |] eqn:Hr; [|by subst s'|done].
  destruct Ht as [Hg Hb]. destruct (cell_effect s p a r v v' g I E Hr) as (Hcell & Hbolt & Hv & Ho).
  assert (Eb : (bare <$> clients s) !! p = Some (Act a :: r, v)) by by rewrite lookup_fmap, E.
  assert (Hcons : ∀ f, count_act f (Act a :: r) = count_act f [Act a] + count_act f r).
  { intros f. unfold count_act. simpl. destruct (f a); simpl; lia. }
  split; rewrite ?Hg, ?Hb; [done| |..].
  - rewrite <- (elem_of_dom (D := gset Z)), Hdom, elem_of_dom. apply I.
  - intros c. rewrite (total_update _ _ _ _ _ Eb), Hcell. rewrite <- (inv_cell _ _ _ I c).
    unfold compose, stores. simpl. rewrite Hcons. lia.
  - rewrite (total_update _ _ _ _ _ Eb), Hbolt, <- (inv_bolt _ _ _ I).
    unfold compose, holds. simpl. rewrite !(Hcons _). lia.
  - intros q b. rewrite lookup_insert_Some. intros [[<- <-]|[Hq Hq']]; [done|by eapply Ho].
Qed.

Lemma inv_lock_turn (s : state) p :
  inv base P s → runnable p s →
  ∃ s', turn run p s = Done ((), s') ∧ inv base P s'.
Proof.
  intros I (i & r & v & E).
  destruct (turn_spec run base P s p i r v (inv_balanced _ _ _ I) E) as (s' & Ht & B & Htook).
  { intros a _. destruct a; simpl; try done. by case_match. }
  exists s'. split; [done|]. destruct i as [k|k|a]; [by eapply inv_lock_call..|by eapply inv_cell_action].
Qed.

(** Where nobody can go on, all are through. *)
Lemma counter_no_deadlock (s : state) : inv base P s → (∀ q, ¬ runnable q s) → finished s.
Proof.
  intros I Hstuck. pose proof (inv_balanced _ _ _ I) as B. destruct (inv_key _ _ _ I) as [sem Hk].
  assert (Hz : map_Forall (λ _ c, need key c = 0) (clients s)).
  { intros p c Hc. pose proof (counter_point s p c I Hc) as Hp. unfold point_ok in Hp.
    apply andb_true_iff in Hp as [_ Hp]. change (need key c) with (owed (rem c) (waiting c)).
    destruct (stuck s p c Hstuck Hc) as [[Hr Hw]|[k Hw]]; rewrite ?Hr, ?Hw in Hp |- *;
      cbv iota beta in Hp; bools Hp; tauto. }
  destruct (balanced_count _ _ _ B key sem Hk) as [Hcount _]. rewrite (total_zero _ _ Hz), Hbase in Hcount.
  intros p c Hc. destruct (stuck s p c Hstuck Hc) as [?|[k Hw]]; [done|exfalso].
  pose proof (counter_point s p c I Hc) as Hp. unfold point_ok in Hp. rewrite Hw in Hp. bools Hp.
  destruct Hp as [_ [[[-> _] _] _]].
  apply (permits_no_waiter base P s key sem p B Hk); [lia|by exists c].
Qed.

(** A worker that can run and does not find the bolt set gets on. *)
Lemma turn_gets_on (s : state) p i r v :
  inv base P s → clients s !! p = Some (mkClient (i :: r) None v) →
  (bolt (shared s) = true → i ≠ Act CompareExchange) →
  ∃ s', step run s s' ∧ size s' < size s.
Proof.
  intros I E Hi. assert (Hp : runnable p s) by by exists i, r, v.
  destruct (inv_lock_turn s p I Hp) as (s' & Ht & _). exists s'. split; [by exists p|].
  destruct (turn_bare run p s s' i r v E Ht) as [l' Hb].
  { intros a ->. destruct a; try done. simpl. destruct (bolt (shared s)); [|done]. by destruct Hi. }
  unfold size. rewrite Hb, (total_update _ _ p (i :: r, v)) by by rewrite lookup_fmap, E. simpl. lia.
Qed.

(** The thread that has the spin lock can go on. *)
Lemma holder (s : state) :
  inv base P s → bolt (shared s) = true →
  ∃ p i r v, clients s !! p = Some (mkClient (i :: r) None v) ∧ i ≠ Act CompareExchange.
Proof.
  intros I Hb. pose proof (inv_bolt _ _ _ I) as Ht. rewrite Hb, total_fmap in Ht.
  destruct (decide (map_Forall (λ _ c, (holds ∘ fst ∘ bare) c = 0) (clients s))) as [Hz|Hnz].
  { rewrite (total_zero _ _ Hz) in Ht. done. }
  apply map_not_Forall in Hnz as (p & c & E & Hc); [|intros ? ?; apply _].
  unfold compose, bare in Hc. simpl in Hc. pose proof (counter_point s p c I E) as Hp. unfold point_ok in Hp.
  destruct c as [r w v]. simpl in *. bools Hp. destruct Hp as [[[?|Hh] _] Hp]; [done|].
  destruct w; [bools Hp; tauto|]. destruct r as [|i r]; [done|]. exists p, i, r, v. split; [done|].
  intros ->. bools Hp. destruct Hp. congruence.
Qed.

(** Unless all are through, somebody's turn makes progress. *)
Lemma counter_progress (s : state) :
  inv base P s → finished s ∨ ∃ s', step run s s' ∧ size s' < size s.
Proof.
  intros I. destruct (bolt (shared s)) eqn:Eb.
  { destruct (holder s I Eb) as (p & i & r & v & E & Hi). right. by eapply turn_gets_on. }
  destruct (decide (map_Forall (λ _ c, rem c = [] ∨ is_Some (waiting c)) (clients s))) as [Hall|Hnot].
  - left. apply counter_no_deadlock; [done|]. intros q (i & r & l & E). apply Hall in E as [?|[? ?]]; done.
  - right. apply map_not_Forall in Hnot as (p & c & E & Hc); [|intros ? ?; apply _].
    destruct c as [[|i r] [k|] v]; simpl in Hc; [naive_solver..|].
    eapply turn_gets_on; [done..|]. by rewrite Eb.
Qed.

Lemma inv_rtc (s s' : state) : inv base P s → rtc (step run) s s' → inv base P s'.
Proof.
  intros I Hr. induction Hr as [|s1 s2 s3 (p & Hp & Ht) _ IH]; [done|]. apply IH.
  destruct (inv_lock_turn s1 p I Hp) as (s'' & Ht' & I'). rewrite Ht in Ht'. by injection Ht' as <-.
Qed.

(** At the end nothing is lost. *)
Lemma finished_cells (s : state) c : inv base P s → finished s → cell c (shared s) = 400.
Proof.
  intros I Hf. rewrite <- (inv_cell _ _ _ I c), total_fmap, total_zero; [lia|].
  intros p d Hd. destruct (Hf p d Hd) as [Hr _]. unfold compose, bare. simpl. by rewrite Hr.
Qed.

End Invariant.

(** ** The start *)

Section Main.
Context `{Profile} (ps qs : list Z) (Hnd : NoDup (ps ++ qs)).
Context (Hps : length ps = HOLD) (Hqs : length qs = HOLD).

Lemma sum_group (f : list (instr action) → Z) (r : list (instr action)) (l : list Z) rest :
  foldr (λ b n, f b.2 + n) 0 (((λ p, (p, r)) <$> l) ++ rest) =
  Z.of_nat (length l) * f r + foldr (λ b n, f b.2 + n) 0 rest.
Proof.
  induction l as [|p l IH]; [simpl; lia|].
  rewrite fmap_cons, <- app_comm_cons. cbn [foldr length snd]. rewrite IH. lia.
Qed.

Lemma fst_group (r : list (instr action)) (l : list Z) : ((λ p, (p, r)) <$> l).*1 = l.
Proof. induction l as [|p l IH]; simpl; [done|]. by f_equal. Qed.

Lemma counter_total_workers (f : list (instr action) → Z) :
  total f (workers ps qs) = 4 * f do_counter_inc + 4 * f do_counter_inc_semaphore.
Proof.
  unfold workers. rewrite total_list by by rewrite fmap_app, !fst_group.
  rewrite sum_group, <- (app_nil_r (_ <$> qs)), sum_group, Hps, Hqs. cbn [foldr]. unfold HOLD. simpl Z.of_nat. lia.
Qed.

Lemma workers_program p :
  program (workers ps qs) p = do_counter_inc ∨
  program (workers ps qs) p = do_counter_inc_semaphore ∨ program (workers ps qs) p = [].
Proof.
  unfold program, workers. destruct (list_to_map _ !! p) as [r|] eqn:E; [|by auto].
  apply elem_of_list_to_map_2 in E. rewrite elem_of_app, !list_elem_of_fmap in E.
  destruct E as [(? & [= _ ->] & _)|(? & [= _ ->] & _)]; auto.
Qed.

Lemma counter_spare_table : spare table (workers ps qs) key = 1.
Proof. unfold spare. rewrite counter_total_workers. vm_compute. reflexivity. Qed.

Lemma counter_main_inv : inv (spare table (workers ps qs)) (program (workers ps qs)) (main ps qs).
Proof.
  assert (Ht : table = {[ key := Semaphore.new 1 ]}) by (vm_compute; reflexivity).
  assert (Hstart : ∀ f : list (instr action) * Z → Z,
    total f (bare <$> clients (main ps qs)) = total (λ r, f (r, 0)) (workers ps qs)).
  { intros f. simpl. rewrite !total_fmap. by apply total_ext. }
  split.
  - apply balanced_start.
    + rewrite Ht. apply map_Forall_singleton. split; [apply Semaphore.new_wf; lia|done].
    + intros k Hk. rewrite Ht in Hk. assert (k = key) as ->.
      { destruct Hk as [? Hk]. by apply lookup_singleton_Some in Hk as [-> _]. }
      rewrite counter_spare_table, counter_total_workers. vm_compute. reflexivity.
  - simpl. rewrite Ht, lookup_singleton_eq. eauto.
  - intros c. rewrite Hstart, counter_total_workers. by destruct c; vm_compute.
  - rewrite Hstart, counter_total_workers. vm_compute. reflexivity.
  - intros p b Hb. simpl in Hb. rewrite !lookup_fmap in Hb.
    pose proof (workers_program p) as Hp. unfold program in Hp.
    destruct (workers ps qs !! p) as [r|] eqn:E; simplify_eq/=.
    by destruct Hp as [->|[->| ->]].
Qed.

End Main.

(** No increment is lost.  However the eight threads of [counter] are
    interleaved, two of them are never both between taking and giving back the
    same lock; no thread panics; some schedule from here on makes progress
    unless all are through (so nobody is deadlocked, though a spinning thread
    may wait for long); and when all are through both counters are 400. *)
Theorem counters_exact `{Profile} (ps qs : list Z) (s : state Z memory action) :
  NoDup (ps ++ qs) → length ps = HOLD → length qs = HOLD → rtc (step run) (main ps qs) s →
  (∀ k p q c d, clients s !! p = Some c → clients s !! q = Some d →
     locked k (rem c) (waiting c) = true → locked k (rem d) (waiting d) = true → p = q) ∧
  (∀ p, runnable p s → ∃ s', turn run p s = Done ((), s')) ∧
  (finished s ∨ ∃ s', step run s s' ∧ size s' < size s) ∧
  (finished s → COUNTER (shared s) = 400 ∧ COUNTER_SEM (shared s) = 400).
Proof.
  intros Hnd Hps Hqs Hr. pose proof (counter_spare_table ps qs Hnd Hps Hqs) as Hb.
  pose proof (workers_program ps qs) as HP.
  pose proof (inv_rtc _ _ Hb HP _ _ (counter_main_inv ps qs Hnd Hps Hqs) Hr) as I. split_and!.
  - intros k p q c d. by apply (lock_exclusive _ _ Hb HP s).
  - intros p Hp. destruct (inv_lock_turn _ _ Hb HP s p I Hp) as (s' & Ht & _). eauto.
  - by apply (counter_progress _ _ Hb HP).
  - intros Hf. split; [apply (finished_cells _ _ s false I Hf)|apply (finished_cells _ _ s true I Hf)].
Qed.

(** A whole run. *)
Definition last : state Z memory action :=
  default (main [] []) (drive (H := debug) run 4400 (seqZ 3 8) (main (seqZ 3 4) (seqZ 7 4))).

Lemma counter_last_reached :
  nsteps (step (H := debug) run) 4400 (main (seqZ 3 4) (seqZ 7 4)) last.
Proof. apply (drive_nsteps (H := debug) run 4400 (seqZ 3 8)). vm_compute. reflexivity. Qed.

Lemma counters_exact_witness :
  (∀ k p q c d, clients last !! p = Some c → clients last !! q = Some d →
     locked k (rem c) (waiting c) = true → locked k (rem d) (waiting d) = true → p = q) ∧
  (∀ p, runnable p last → ∃ s', turn (H := debug) run p last = Done ((), s')) ∧
  (finished last ∨ ∃ s', step (H := debug) run last s' ∧ size s' < size last) ∧
  (finished last → COUNTER (shared last) = 400 ∧ COUNTER_SEM (shared last) = 400).
Proof.
  apply (counters_exact (H := debug) (seqZ 3 4) (seqZ 7 4)).
  - apply (NoDup_seqZ 3 8).
  - reflexivity.
  - reflexivity.
  - eapply rtc_nsteps_2, counter_last_reached.
Defined.
