(* ===== verification/CounterMain.v ===== *)
(** All of [pkg/app/counter]: [main] forks a child for [test_spin_lock] and runs
    [test_semaphore] itself; each of them forks four threads and waits for them
    in turn.  A thread begins when it is forked, a [sys_wait_pid] goes on when the
    process it waits for has exited, and the semaphore is there between
    [sys_new_sem] and [sys_del_sem].  The threads are those of [Counter]. *)
From S2P Require Import Prelude Sync Clients Counter.
#[local] Open Scope Z_scope.

(** Where the child of [main] is in [test_spin_lock]. *)
Inductive spin_pc : Type :=
  | Unborn
  | Forking (i : nat)
  | Waiting (i : nat)
  | Exited.

(** Where [main] is; in the middle, in [test_semaphore]. *)
Inductive main_pc : Type :=
  | ForkChild
  | NewSem
  | ForkingSem (i : nat)
  | WaitingSem (i : nat)
  | WaitChild
  | Printed (counter counter_sem : Z).

#[global] Instance spin_pc_eq_dec : EqDecision spin_pc.
Proof. solve_decision. Defined.

Record sys : Type := mkSys {
  threads : state Z memory action;
  spin : spin_pc;
  main_ : main_pc;
}.

Section System.
Context `{Profile} (ps qs : list Z).

(** How many threads have been forked. *)
Definition forked_spin (c : spin_pc) : nat :=
  match c with Unborn => 0 | Forking i => i | Waiting _ | Exited => HOLD end.
Definition forked_sem (m : main_pc) : nat :=
  match m with ForkChild | NewSem => 0 | ForkingSem i => i | _ => HOLD end.

Definition born (s : sys) (p : Z) : Prop :=
  p ∈ take (forked_spin (spin s)) ps ∨ p ∈ take (forked_sem (main_ s)) qs.

(** A thread that has done its work exits at once. *)
Definition exited (t : state Z memory action) (p : Z) : Prop :=
  ∃ l, clients t !! p = Some (mkClient [] None l).

Definition with_sems (m : gmap Z Semaphore) (t : state Z memory action) : state Z memory action :=
  mkState m (clients t) (shared t).

Inductive sys_step : sys → sys → Prop :=
  | thread_runs s p t :
      born s p → runnable p (threads s) → turn run p (threads s) = Done ((), t) →
      sys_step s (mkSys t (spin s) (main_ s))
  (* test_spin_lock *)
  | spin_forks t m i : (i < HOLD)%nat → sys_step (mkSys t (Forking i) m) (mkSys t (Forking (S i)) m)
  | spin_forked t m : sys_step (mkSys t (Forking HOLD) m) (mkSys t (Waiting 0) m)
  | spin_waits t m i p :
      ps !! i = Some p → exited t p → sys_step (mkSys t (Waiting i) m) (mkSys t (Waiting (S i)) m)
  | spin_exits t m : sys_step (mkSys t (Waiting HOLD) m) (mkSys t Exited m)
  (* main and test_semaphore *)
  | main_forks t : sys_step (mkSys t Unborn ForkChild) (mkSys t (Forking 0) NewSem)
  | sem_new t c b m :
      SemaphoreSet.insert key 1 (sems t) = Done (b, m) →
      sys_step (mkSys t c NewSem) (mkSys (with_sems m t) c (ForkingSem 0))
  | sem_forks t c i : (i < HOLD)%nat → sys_step (mkSys t c (ForkingSem i)) (mkSys t c (ForkingSem (S i)))
  | sem_forked t c : sys_step (mkSys t c (ForkingSem HOLD)) (mkSys t c (WaitingSem 0))
  | sem_waits t c i p :
      qs !! i = Some p → exited t p → sys_step (mkSys t c (WaitingSem i)) (mkSys t c (WaitingSem (S i)))
  | sem_del t c b m :
      SemaphoreSet.remove key (sems t) = Done (b, m) →
      sys_step (mkSys t c (WaitingSem HOLD)) (mkSys (with_sems m t) c WaitChild)
  | main_prints t :
      sys_step (mkSys t Exited WaitChild) (mkSys t Exited (Printed (COUNTER (shared t)) (COUNTER_SEM (shared t)))).

(** The start: nobody but [main]. *)
Definition sys_start : sys :=
  mkSys (with_sems SemaphoreSet.default (main ps qs)) Unborn ForkChild.

End System.

(** ** The threads do what they do in [Counter] *)

Section Facts.
Context `{Profile} (ps qs : list Z) (Hnd : NoDup (ps ++ qs)).
Context (Hps : length ps = HOLD) (Hqs : length qs = HOLD).
#[local] Abbreviation T := (state Z memory action).
#[local] Abbreviation base := (spare table (workers ps qs)).
#[local] Abbreviation P := (program (workers ps qs)).

(** The semaphores while the threads could have them all along: those of [a],
    the run of [Counter]. *)
Definition sems_at (m : main_pc) (a : T) : gmap Z Semaphore :=
  match m with
  | ForkChild | NewSem => ∅
  | ForkingSem _ | WaitingSem _ => sems a
  | WaitChild | Printed _ _ => delete key (sems a)
  end.

Definition before_sem (m : main_pc) : Prop := match m with ForkChild | NewSem => True | _ => False end.
Definition after_sem (m : main_pc) : Prop := match m with WaitChild | Printed _ _ => True | _ => False end.

Definition waited_spin (c : spin_pc) : nat := match c with Waiting i => i | Exited => HOLD | _ => 0 end.
Definition waited_sem (m : main_pc) : nat :=
  match m with WaitingSem i => i | WaitChild | Printed _ _ => HOLD | _ => 0 end.

Definition pcs_ok (c : spin_pc) (m : main_pc) : Prop :=
  (c = Unborn ↔ m = ForkChild) ∧ (forked_spin c ≤ HOLD)%nat ∧ (waited_spin c ≤ HOLD)%nat ∧
  (forked_sem m ≤ HOLD)%nat ∧ (waited_sem m ≤ HOLD)%nat.

Record sys_inv (s : sys) (a : T) : Prop := {
  si_inv : inv base P a;
  si_threads : threads s = with_sems (sems_at (main_ s) a) a;
  si_before : before_sem (main_ s) → sems a = table;
  si_dom p : p ∈ ps ++ qs → is_Some (clients a !! p);
  si_pcs : pcs_ok (spin s) (main_ s);
  si_spin i p : ps !! i = Some p → (i < waited_spin (spin s))%nat → exited a p;
  si_sem i p : qs !! i = Some p → (i < waited_sem (main_ s))%nat → exited a p;
  si_printed c d : main_ s = Printed c d → c = 400 ∧ d = 400;
}.

Lemma exited_with_sems m (t : T) p : exited (with_sems m t) p ↔ exited t p.
Proof. done. Qed.

(** A thread of [test_spin_lock] calls no semaphore. *)
Lemma spin_thread_acts p : p ∈ ps → P p = do_counter_inc.
Proof.
  intros Hp. unfold program, workers.
  rewrite (elem_of_list_to_map_1 _ p do_counter_inc); [done| |].
  - rewrite fmap_app. by rewrite !fst_group.
  - apply elem_of_app. left. apply list_elem_of_fmap. by exists p.
Qed.

Lemma acts_only : ∀ i, i ∈ do_counter_inc → ∃ a, i = Act a.
Proof.
  intros i. unfold do_counter_inc. intros (l & Hi & Hl)%list_elem_of_join. 
  apply elem_of_replicate in Hl as [-> _].
  unfold SpinLock.acquire, SpinLock.release, inc_counter in Hi. simpl in Hi.
  rewrite !elem_of_cons, elem_of_nil in Hi. naive_solver.
Qed.

Lemma spin_turn_acts (a : T) p i r l :
  inv base P a → p ∈ ps → clients a !! p = Some (mkClient (i :: r) None l) → ∃ x, i = Act x.
Proof.
  intros I Hp E. pose proof (balanced_track _ _ _ (inv_balanced _ _ _ I) p _ E) as (n & Hn & Hr & _).
  rewrite (spin_thread_acts p Hp) in Hr. simpl in Hr. apply acts_only.
  apply (subseteq_drop n). rewrite <- Hr. by left.
Qed.

(** What a turn does to the threads: none disappears, and one that is through
    stays as it is. *)
Lemma turn_clients q (a a' : T) p c :
  turn run q a = Done ((), a') → clients a !! p = Some c →
  ∃ c', clients a' !! p = Some c' ∧ (rem c = [] → waiting c = None → c' = c).
Proof.
  assert (Hins : ∀ (m : gmap Z (client Z action)) i r l c2, m !! q = Some (mkClient (i :: r) None l) → m !! p = Some c →
    ∃ c', <[q := c2]> m !! p = Some c' ∧ (rem c = [] → waiting c = None → c' = c)).
  { intros m i r l c2 Hq Hp. destruct (decide (p = q)) as [->|Hne].
    - rewrite lookup_insert_eq. exists c2. split; [done|]. simplify_eq. done.
    - rewrite lookup_insert_ne by done. by exists c. }
  intros Ht Hp. unfold turn in Ht. apply bind_Done in Ht as (x & y & [<- <-]%get_Done & Ht).
  destruct (clients a !! q) as [[[|[k|k|x] r] [w|] l]|] eqn:E; try (apply ret_Done in Ht as [_ <-]; by exists c).
  - apply bind_Done in Ht as (ans & a1 & Hs & Ht). unfold on_sems in Hs. apply zoom_Done in Hs as (m & _ & ->).
    unfold update in Ht. apply modify_Done in Ht as <-. by eapply Hins.
  - apply bind_Done in Ht as (ans & a1 & Hs & Ht). unfold on_sems in Hs. apply zoom_Done in Hs as (m & _ & ->).
    unfold update in Ht. apply bind_Done in Ht as (u & a2 & Hu & Ht). apply modify_Done in Hu as <-.
    destruct (Hins (clients a) _ _ _ (mkClient r None l) E Hp) as (c1 & Hc1 & Hsame).
    destruct ans as [| |v|v]; try (apply ret_Done in Ht as [_ <-]; by exists c1).
    unfold wake in Ht. apply modify_Done in Ht as <-. simpl.
    destruct (decide (p = v)) as [->|Hne]; [|rewrite lookup_alter_ne by done; by exists c1].
    rewrite lookup_alter_eq, Hc1. exists (unblock c1). split; [done|]. intros Hr Hw. rewrite Hsame by done.
    destruct c as [? [] ?]; [done|]. simpl in *. by subst.
  - destruct (run x l (shared a)) as [l' g| |]; [|apply ret_Done in Ht as [_ <-]; by exists c|done].
    apply put_Done in Ht as <-. by eapply Hins.
Qed.

Lemma exited_turn q (a a' : T) p : turn run q a = Done ((), a') → exited a p → exited a' p.
Proof.
  intros Ht [l Hl]. destruct (turn_clients _ _ _ _ _ Ht Hl) as (c' & Hc' & Heq). exists l.
  by rewrite Hc', Heq.
Qed.

(** An action does not look at the semaphores. *)
Lemma act_turn_sems m (a : T) p x r l t :
  clients a !! p = Some (mkClient (Act x :: r) None l) → turn run p (with_sems m a) = Done ((), t) →
  ∃ a', turn run p a = Done ((), a') ∧ t = with_sems m a' ∧ sems a' = sems a.
Proof.
  intros E Ht. rewrite (turn_act run p (with_sems m a) x r l E) in Ht. rewrite (turn_act run p a x r l E).
  change (shared (with_sems m a)) with (shared a) in Ht.
  destruct (run x l (shared a)) as [l' g| |]; [|injection Ht as <-; eauto|done]. injection Ht as <-. eauto.
Qed.

Lemma act_turn_back m (a : T) p x r l a' :
  clients a !! p = Some (mkClient (Act x :: r) None l) → turn run p a = Done ((), a') →
  turn run p (with_sems m a) = Done ((), with_sems m a').
Proof.
  intros E Ht. rewrite (turn_act run p (with_sems m a) x r l E). rewrite (turn_act run p a x r l E) in Ht.
  change (shared (with_sems m a)) with (shared a).
  destruct (run x l (shared a)) as [l' g| |]; [|by injection Ht as <-|done]. by injection Ht as <-.
Qed.

(** A thread of [test_semaphore] is not there before the semaphore, and is
    through when the semaphore is deleted. *)
Lemma outside_spin (s : sys) a p :
  sys_inv s a → born ps qs s p → runnable p (threads s) → before_sem (main_ s) ∨ after_sem (main_ s) → p ∈ ps.
Proof.
  intros I [Hb|Hb] (i & r & l & E) Hor; [by apply (subseteq_take (forked_spin (spin s)))|exfalso].
  rewrite (si_threads _ _ I) in E. simpl in E.
  apply elem_of_take in Hb as (j & Hj & Hlt).
  assert (Hw : (j < waited_sem (main_ s))%nat) by (destruct (main_ s); simpl in *; destruct Hor; done || lia).
  destruct (si_sem _ _ I j p Hj Hw) as [l' Hl]. congruence.
Qed.

Lemma thread_turn (s : sys) a p t :
  sys_inv s a → born ps qs s p → runnable p (threads s) → turn run p (threads s) = Done ((), t) →
  ∃ a', turn run p a = Done ((), a') ∧ t = with_sems (sems_at (main_ s) a') a' ∧
    (before_sem (main_ s) → sems a' = table).
Proof.
  intros I Hb Hr Ht. rewrite (si_threads _ _ I) in Ht. pose proof (si_before _ _ I) as Hbef.
  assert (Hact : before_sem (main_ s) ∨ after_sem (main_ s) →
    ∃ a', turn run p a = Done ((), a') ∧ t = with_sems (sems_at (main_ s) a) a' ∧ sems a' = sems a).
  { intros Hor. pose proof (outside_spin _ _ _ I Hb Hr Hor) as Hp. destruct Hr as (i & r & l & E).
    rewrite (si_threads _ _ I) in E. simpl in E.
    destruct (spin_turn_acts a p i r l (si_inv _ _ I) Hp E) as [x ->]. by eapply act_turn_sems. }
  destruct (main_ s) eqn:Em; try (destruct Hact as (a' & Ha & -> & Hs); [first [by left|by right]|];
    exists a'; simpl; rewrite Hs; split_and!; auto).
  - exists t. simpl in Ht. destruct a, t. by split_and!.
  - exists t. simpl in Ht. destruct a, t. by split_and!.
Qed.

Lemma thread_returns (s : sys) a p :
  sys_inv s a → born ps qs s p → runnable p (threads s) → ∃ t, turn run p (threads s) = Done ((), t).
Proof.
  intros I Hb Hr. pose proof (counter_spare_table ps qs Hnd Hps Hqs) as Hbase. pose proof (workers_program ps qs) as HP.
  assert (Hra : runnable p a) by (rewrite (si_threads _ _ I) in Hr; exact Hr).
  destruct (inv_lock_turn _ _ Hbase HP a p (si_inv _ _ I) Hra) as (a' & Ha & _).
  pose proof (outside_spin s a p I Hb Hr) as Hp. rewrite (si_threads _ _ I).
  assert (Hact : before_sem (main_ s) ∨ after_sem (main_ s) → ∀ m, ∃ t, turn run p (with_sems m a) = Done ((), t)).
  { intros Hor m. destruct Hra as (i & r & l & E). destruct (spin_turn_acts a p i r l (si_inv _ _ I) (Hp Hor) E) as [x ->].
    eexists. by eapply act_turn_back. }
  destruct (main_ s); try (apply Hact; first [by left|by right]); exists a'; by destruct a.
Qed.

(** All that were forked and waited for are through. *)
Lemma all_exited (a : T) :
  inv base P a → (∀ p, p ∈ ps ++ qs → exited a p) → finished a.
Proof.
  intros I Hall p c E. destruct (decide (p ∈ ps ++ qs)) as [Hin|Hni].
  - destruct (Hall p Hin) as [l Hl]. by simplify_eq.
  - pose proof (balanced_track _ _ _ (inv_balanced _ _ _ I) p _ E) as (n & Hn & Hr & Hw).
    assert (HP : P p = []).
    { unfold program, workers. rewrite not_elem_of_list_to_map_1; [done|].
      by rewrite fmap_app, !fst_group. }
    rewrite HP in *. rewrite drop_nil in Hr. split; [done|].
    destruct (waiting c) as [k|]; [|done]. by destruct (Hw k eq_refl) as [? _].
Qed.

Lemma sys_inv_cells (s : sys) a :
  sys_inv s a → spin s = Exited → main_ s = WaitChild → COUNTER (shared (threads s)) = 400 ∧ COUNTER_SEM (shared (threads s)) = 400.
Proof.
  intros I Hc Hm. rewrite (si_threads _ _ I). simpl.
  assert (Hf : finished a).
  { apply all_exited; [apply I|]. intros p [Hp|Hp]%elem_of_app; apply list_elem_of_lookup in Hp as [i Hi];
      pose proof (lookup_lt_Some _ _ _ Hi); [apply (si_spin _ _ I i p Hi)|apply (si_sem _ _ I i p Hi)];
      rewrite ?Hc, ?Hm; simpl; lia. }
  pose proof (counter_spare_table ps qs Hnd Hps Hqs) as Hb. pose proof (workers_program ps qs) as HP.
  split; [apply (finished_cells _ _ a false (si_inv _ _ I) Hf)|apply (finished_cells _ _ a true (si_inv _ _ I) Hf)].
Qed.

Lemma start_sys_inv : sys_inv (sys_start ps qs) (main ps qs).
Proof.
  split; [by apply counter_main_inv|done|done| |unfold pcs_ok; simpl; intuition (done || lia)|simpl; lia..|done].
  intros p Hp. simpl. rewrite lookup_fmap, fmap_is_Some. unfold workers.
  destruct (list_to_map _ !! p) eqn:E; [by eexists|]. apply not_elem_of_list_to_map_2 in E.
  rewrite fmap_app, !fst_group in E. done.
Qed.

Ltac solve_pcs := unfold pcs_ok in *; simpl in *; intuition (done || lia).

Lemma step_sys_inv (s s' : sys) a : sys_inv s a → sys_step ps qs s s' → ∃ a', sys_inv s' a'.
Proof.
  intros I Hs. pose proof (counter_spare_table ps qs Hnd Hps Hqs) as Hb. pose proof (workers_program ps qs) as HP.
  pose proof I as [Hi Ht Hbef Hdom Hpc Hsp Hse Hpr].
  destruct Hs as [s p t Hborn Hrun Hturn|t m i Hlt|t m|t m i p Hp He|t m|t|t c b m Hn|t c i Hlt|t c|t c i p Hp He|t c b m Hd|t];
    [|simpl in *; rewrite ?Ht in *..].
  - destruct (thread_turn s a p t I Hborn Hrun Hturn) as (a' & Ha & Hta & Hbef'). exists a'.
    assert (Hi' : inv base P a').
    { rewrite (si_threads _ _ I) in Hrun. destruct (inv_lock_turn _ _ Hb HP a p Hi Hrun) as (a2 & Ha2 & Hi2).
      rewrite Ha in Ha2. by injection Ha2 as <-. }
    split; simpl; try done.
    + intros q Hq. destruct (Hdom q Hq) as [c Hc]. destruct (turn_clients _ _ _ _ _ Ha Hc) as (c' & Hc' & _). eauto.
    + intros i q Hq Hlt. eapply exited_turn; [exact Ha|by eapply Hsp].
    + intros i q Hq Hlt. eapply exited_turn; [exact Ha|by eapply Hse].
  - exists a. split; simpl; try done; [solve_pcs|..]; intros; lia.
  - exists a. split; simpl; try done; [solve_pcs|..]; intros; lia.
  - exists a. split; simpl; try done.
    + pose proof (lookup_lt_Some _ _ _ Hp). solve_pcs.
    + intros j q Hq Hlt. destruct (decide (j = i)) as [->|]; [by simplify_eq|by apply (Hsp j); [|lia]].
  - exists a. split; simpl; try done. solve_pcs.
  - exists a. split; simpl; try done; [solve_pcs|..]; intros; lia.
  - exists a. injection Hn as _ <-. split; simpl; try done; [|solve_pcs|..]; try (intros; lia).
    unfold with_sems. simpl. f_equal. rewrite Hbef by done. by vm_compute.
  - exists a. split; simpl; try done; [solve_pcs|..]; intros; lia.
  - exists a. split; simpl; try done; [solve_pcs|..]; intros; lia.
  - exists a. split; simpl; try done.
    + pose proof (lookup_lt_Some _ _ _ Hp). solve_pcs.
    + intros j q Hq Hlt. destruct (decide (j = i)) as [->|]; [by simplify_eq|by apply (Hse j); [|lia]].
  - exists a. injection Hd as _ <-. split; simpl; try done. solve_pcs.
  - exists a. destruct (sys_inv_cells _ _ I eq_refl eq_refl) as [H1' H2']. simpl in H1', H2'.
    split; simpl; try done. intros x y [= <- <-]. done.
Qed.

(** ** The program comes to its end *)

(** What main and its child have still to do. *)
Definition spin_left (c : spin_pc) : nat :=
  match c with Unborn => 2 * HOLD + 3 | Forking i => 2 * HOLD + 2 - i | Waiting i => HOLD + 1 - i | Exited => 0 end.
Definition main_left (m : main_pc) : nat :=
  match m with
  | ForkChild => 2 * HOLD + 6 | NewSem => 2 * HOLD + 5 | ForkingSem i => 2 * HOLD + 4 - i
  | WaitingSem i => HOLD + 3 - i | WaitChild => 2 | Printed _ _ => 0
  end.
Definition left (s : sys) : Z := size (threads s) + Z.of_nat (spin_left (spin s) + main_left (main_ s)).

Lemma left_nonneg s : 0 ≤ left s.
Proof.
  unfold left, size. cut (0 ≤ total (λ b : list (instr action) * Z, Z.of_nat (length b.1)) (bare <$> clients (threads s))); [lia|].
  apply total_nonneg. intros p b _. lia.
Qed.

(** When both wait, some thread that was forked goes on. *)
Lemma thread_progress (s : sys) a :
  sys_inv s a → forked_spin (spin s) = HOLD → forked_sem (main_ s) = HOLD →
  (∀ p, p ∈ ps ++ qs → exited a p) ∨ ∃ s', sys_step ps qs s s' ∧ left s' < left s.
Proof.
  intros I Hfs Hfm. pose proof (counter_spare_table ps qs Hnd Hps Hqs) as Hb. pose proof (workers_program ps qs) as HP.
  destruct (counter_progress _ _ Hb HP a (si_inv _ _ I)) as [Hf|(a' & (p & Hr & Ht) & Hsz)].
  { left. intros p Hp. destruct (si_dom _ _ I p Hp) as [[r w l] Hc]. destruct (Hf p _ Hc) as [Hr Hw].
    simpl in *. subst. by exists l. }
  right. assert (Hborn : born ps qs s p).
  { unfold born. rewrite Hfs, Hfm, <- Hps, firstn_all, Hps, <- Hqs, firstn_all.
    destruct Hr as (i & r & l & E). destruct (decide (p ∈ ps ++ qs)) as [|Hni]; [by apply elem_of_app|exfalso].
    pose proof (balanced_track _ _ _ (inv_balanced _ _ _ (si_inv _ _ I)) p _ E) as (n & _ & Hrem & _).
    unfold program, workers in Hrem. rewrite not_elem_of_list_to_map_1 in Hrem by (by rewrite fmap_app, !fst_group).
    simpl in Hrem. by rewrite drop_nil in Hrem. }
  assert (Hrun : runnable p (threads s)) by (rewrite (si_threads _ _ I); exact Hr).
  assert (∃ t, turn run p (threads s) = Done ((), t) ∧ clients t = clients a') as (t & Htt & Hcl).
  { rewrite (si_threads _ _ I). destruct (main_ s) eqn:Em; simpl; try (simpl in Hfm; done);
      try (exists a'; split; [by destruct a|done]).
    all: pose proof (outside_spin s a p I Hborn Hrun) as Hp; rewrite Em in Hp; specialize (Hp (or_intror Logic.I));
      destruct Hr as (i & r & l & E); destruct (spin_turn_acts a p i r l (si_inv _ _ I) Hp E) as [x ->];
      eexists; split; [by eapply act_turn_back|done]. }
  exists (mkSys t (spin s) (main_ s)). split; [by eapply thread_runs|].
  unfold left. simpl. unfold size in *. rewrite Hcl. rewrite (si_threads _ _ I). simpl. lia.
Qed.

Lemma sys_progress (s : sys) a :
  sys_inv s a → main_ s = Printed 400 400 ∨ ∃ s', sys_step ps qs s s' ∧ left s' < left s.
Proof.
  intros I. pose proof (si_pcs _ _ I) as (Hun & Hf & Hw & Hfm & Hwm). pose proof (si_printed _ _ I) as Hpr.
  pose proof (si_threads _ _ I) as Ht.
  assert (Hex : ∀ p, exited a p → exited (threads s) p) by (intros p; by rewrite Ht).
  pose proof (thread_progress s a I) as Hth.
  destruct s as [t c m]; cbn [threads spin main_] in *.
  assert (Hstep : ∀ s', sys_step ps qs (mkSys t c m) s' → size (threads s') = size t →
    (spin_left (spin s') + main_left (main_ s') < spin_left c + main_left m)%nat →
    ∃ s', sys_step ps qs (mkSys t c m) s' ∧ left s' < left (mkSys t c m)).
  { intros s' Hs Hsz Hlt. exists s'. split; [done|]. unfold left. cbn [threads spin main_]. rewrite Hsz. lia. }
  (* the child *)
  assert (Hchild : m ≠ ForkChild → c ≠ Exited → forked_sem m = HOLD →
    ∃ s', sys_step ps qs (mkSys t c m) s' ∧ left s' < left (mkSys t c m)).
  { intros Hm Hc Hfs. destruct c as [|i|i|]; [by destruct Hm; apply Hun| | |done]; cbn [forked_spin waited_spin] in *;
      (destruct (decide (i = HOLD)) as [->|Hi]).
    - eapply Hstep; [apply spin_forked|done|cbn [spin main_ spin_left main_left]; lia].
    - eapply Hstep; [apply spin_forks; lia|done|cbn [spin main_ spin_left main_left]; lia].
    - eapply Hstep; [apply spin_exits|done|cbn [spin main_ spin_left main_left]; lia].
    - destruct (lookup_lt_is_Some_2 ps i) as [p Hp]; [lia|]. destruct (Hth eq_refl Hfs) as [Hall|?]; [|done].
      eapply Hstep; [eapply spin_waits; [exact Hp|]|done|cbn [spin main_ spin_left main_left]; lia].
      apply Hex, Hall, elem_of_app. left. by eapply list_elem_of_lookup_2. }
  destruct m as [| |i|i| |x y]; cbn [forked_sem waited_sem] in *.
  - right. assert (c = Unborn) as -> by (by apply Hun). eapply Hstep; [apply main_forks|done|cbn [spin main_ spin_left main_left]; lia].
  - right. eapply Hstep; [eapply sem_new; reflexivity|done|cbn [spin main_ spin_left main_left]; lia].
  - right. destruct (decide (i = HOLD)) as [->|]; [eapply Hstep; [apply sem_forked|done|cbn [spin main_ spin_left main_left]; lia]|].
    eapply Hstep; [apply sem_forks; lia|done|cbn [spin main_ spin_left main_left]; lia].
  - right. destruct (decide (i = HOLD)) as [->|Hi]; [eapply Hstep; [eapply sem_del; reflexivity|done|cbn [spin main_ spin_left main_left]; lia]|].
    destruct (decide (c = Exited)) as [->|Hc]; [|by apply Hchild].
    destruct (lookup_lt_is_Some_2 qs i) as [q Hq]; [lia|]. destruct (Hth eq_refl eq_refl) as [Hall|?]; [|done].
    eapply Hstep; [eapply sem_waits; [exact Hq|]|done|cbn [spin main_ spin_left main_left]; lia].
    apply Hex, Hall, elem_of_app. right. by eapply list_elem_of_lookup_2.
  - right. destruct (decide (c = Exited)) as [->|Hc]; [eapply Hstep; [apply main_prints|done|cbn [spin main_ spin_left main_left]; lia]|by apply Hchild].
  - left. by destruct (Hpr x y eq_refl) as [-> ->].
Qed.

End Facts.

(** C24: All of the counter program.  In every state it can get to, however its
    ten processes are interleaved: a thread that has been forked and can run does not
    panic; if [main] has printed, it has printed 400 for both counters; and the
    program can come to its end, with 400 printed for both.  So no thread
    is waited for in vain, and the semaphore is there for as long as it is used. *)
Theorem counter_main `{Profile} (ps qs : list Z) (s : sys) :
  NoDup (ps ++ qs) → length ps = HOLD → length qs = HOLD → rtc (sys_step ps qs) (sys_start ps qs) s →
  (∀ p, born ps qs s p → runnable p (threads s) → ∃ t, turn run p (threads s) = Done ((), t)) ∧
  (∀ c d, main_ s = Printed c d → c = 400 ∧ d = 400) ∧
  ∃ s', rtc (sys_step ps qs) s s' ∧ main_ s' = Printed 400 400.
Proof.
  intros Hnd Hps Hqs Hr.
  assert (∃ a, sys_inv ps qs s a) as [a I].
  { assert (Hi : ∃ a, sys_inv ps qs (sys_start ps qs) a) by (eexists; by apply start_sys_inv).
    induction Hr as [|s1 s2 s3 Hs _ IH]; [done|]. apply IH. destruct Hi as [a I]. by eapply step_sys_inv. }
  clear Hr. split_and!.
  - intros p Hb Hrun. by eapply (thread_returns ps qs).
  - apply (si_printed _ _ _ _ I).
  - remember (Z.to_nat (left s)) as n eqn:E. revert s a I E. induction n as [n IH] using lt_wf_ind. intros s a I E.
    destruct (sys_progress ps qs Hnd Hps Hqs s a I) as [Hp|(s' & Hs & Hlt)]; [by exists s|].
    destruct (step_sys_inv ps qs Hnd Hps Hqs s s' a I Hs) as [a' I'].
    assert (0 ≤ left s') by (by apply (left_nonneg ps qs)).
    destruct (IH (Z.to_nat (left s')) ltac:(lia) s' a' I' eq_refl) as (s2 & Hr & Hm).
    exists s2. split; [by eapply rtc_l|done].
Qed.

(** Ten processes, from the start on. *)
Example counter_main_witness :
  let H := debug in let ps := seqZ 3 4 in let qs := seqZ 7 4 in
  (∀ p, born ps qs (sys_start ps qs) p → runnable p (threads (sys_start ps qs)) →
     ∃ t, turn run p (threads (sys_start ps qs)) = Done ((), t)) ∧
  ∃ s', rtc (sys_step ps qs) (sys_start ps qs) s' ∧ main_ s' = Printed 400 400.
Proof.
  intros H ps qs. destruct (counter_main ps qs (sys_start ps qs)) as (H1 & _ & H3).
  - exact (NoDup_seqZ 3 8).
  - reflexivity.
  - reflexivity.
  - apply rtc_refl.
  - exact (conj H1 H3).
Defined.
