(* ===== verification/Refine.v ===== *)
(** The kernel's semaphores implement those of the clients.

    [Clients.turn] is what the applications' proofs assume of [wait] and
    [signal].  Here the kernel's [sem_wait], [sem_signal] and [switch] are shown
    to be its turns: the relation [implements] between a kernel and a state of
    the clients holds again after a call and the turn it stands for, and after a
    preemption, which is no turn at all. *)
From S2P Require Import Clients.
From S2P Require Import Prelude Arch Pid Sync Frames Elf Stack Heap Vm Context Resource Data Process Manager.
From S2P Require Import Scheduler KernelExample RoundRobin Lifecycle.
From stdpp Require Import strings.
#[local] Open Scope Z_scope.

Section Refine.
Context `{Profile} `{X86_64} {PT Q : Type} `{Mapper PT} `{ArrayQueue Q}.
Context (cpuid : nat) {L G act : Type} (run : act → L → G → Clients.effect L G).
#[local] Abbreviation St := (Kernel PT Q).
#[local] Abbreviation wf := (wf cpuid).
#[local] Abbreviation running := (running cpuid).

(** ** What a switch leaves of the others *)

Definition is_blocked (p : Process) : Prop := status (inner p) = Blocked.

(** Every process is still there with its data, and but for [cur] blocked or not as
    before. *)
Definition stays (cur : Z) (k k' : St) : Prop :=
  data k' = data k ∧
  ∀ q p, lookup_proc k q = Some p → ∃ p', lookup_proc k' q = Some p' ∧
    proc_data (inner p') = proc_data (inner p) ∧ (q ≠ cur → is_blocked p' ↔ is_blocked p).

#[local] Instance stays_preorder cur : PreOrder (stays cur).
Proof.
  split; [intros k; split; [done|]; intros q p Hl; by exists p|].
  intros k1 k2 k3 [D1 S1] [D2 S2]. split; [congruence|]. intros q p Hl.
  destruct (S1 q p Hl) as (p2 & Hl2 & E2 & B2). destruct (S2 q p2 Hl2) as (p3 & Hl3 & E3 & B3).
  exists p3. split_and!; [done|congruence|]. intros Hq. by rewrite B3, B2.
Qed.

Lemma set_inner_stays cur loc i (k : St) p :
  wf k → processes k !! cur = Some loc → procs k !! loc = Some p → proc_data i = proc_data (inner p) →
  stays cur k (set_inner loc i k).
Proof.
  intros Hwf Hq Hp Hd. split; [unfold set_inner; by rewrite Hp|]. intros q p' Hl.
  rewrite (lookup_set_inner cpuid k loc i cur q p) by done. destruct (decide (q = cur)) as [->|Hne].
  - rewrite (lookup_proc_Some _ _ _ _ Hq Hp) in Hl. injection Hl as <-. eexists. split; [done|]. by split.
  - by exists p'.
Qed.

Lemma save_current_stays ctx (k : St) cur k' :
  wf k → save_current cpuid ctx k = Done (cur, k') → stays cur k k'.
Proof.
  intros Hwf Hs. apply save_current_Done in Hs as (loc & p & _ & Hq & Hp & ->); [|done].
  by eapply set_inner_stays.
Qed.

Lemma set_ready_stays cur l (k : St) : stays cur k (set_ready l k).
Proof. split; [done|]. intros q p Hl. by exists p. Qed.

(** Of two processes only the one that was ready changes. *)
Lemma switch_next_stays ctx (k : St) r k' :
  wf k → switch_next cpuid ctx k = Done (r, k') → ∀ cur, stays cur k k'.
Proof.
  intros Hwf Hs cur. apply switch_next_Done in Hs as (c & _ & Hs); [|done].
  destruct (first_ready k (ready_queue k)) as [[next rest]|] eqn:E.
  - apply first_ready_Some in E as (Hir & _). destruct (decide (next = c)) as [->|Hne].
    + destruct Hs as [_ ->]. apply set_ready_stays.
    + destruct Hs as (loc & p & v & reg & n & Hq & Hp & _ & _ & _ & _ & ->). split; [done|].
      intros q p' Hl. rewrite lookup_started by done. destruct (decide (q = next)) as [->|]; [|by exists p'].
      rewrite (lookup_proc_Some _ _ _ _ Hq Hp) in Hl. injection Hl as <-. eexists. split_and!; [done..|].
      intros _. apply is_ready_lookup in Hir as (p' & Hl' & Hst).
      rewrite (lookup_proc_Some _ _ _ _ Hq Hp) in Hl'. injection Hl' as <-.
      unfold is_blocked. simpl. by rewrite Hst.
  - destruct Hs as [_ ->]. apply set_ready_stays.
Qed.

(** ** The relation *)

(** The kernel [k] runs the clients of [σ], whose semaphores are the shared table [t]:
    a client waits exactly if its process is blocked, and the process that runs,
    if it is one of them, does not wait. *)
Record implements (t : nat) (k : St) (σ : @Clients.state L G act) : Prop := {
  impl_wf : wf k;
  impl_sems : semaphores (data k) !! t = Some (Clients.sems σ);
  impl_sem_wf : map_Forall (λ _, Semaphore.wf) (Clients.sems σ);
  impl_client q c : Clients.clients σ !! q = Some c →
    ∃ p d, lookup_proc k q = Some p ∧ proc_data (inner p) = Some d ∧ semaphores_ d = t ∧
      (is_blocked p ↔ Clients.waiting c ≠ None);
  impl_running q c : running k = Some q → Clients.clients σ !! q = Some c → Clients.waiting c = None;
}.

Lemma impl_table t k σ d key :
  implements t k σ → semaphores_ d = t → sem_table k d key = Clients.sems σ !! key.
Proof. intros Hi <-. unfold sem_table. by rewrite (impl_sems _ _ _ Hi). Qed.

Lemma with_semaphore_table t k σ d key s :
  implements t k σ → semaphores_ d = t →
  semaphores (with_semaphore d key s (data k)) !! t = Some (<[key := s]> (Clients.sems σ)).
Proof. intros Hi <-. simpl. by rewrite lookup_alter_eq, (impl_sems _ _ _ Hi). Qed.

(** A preemption is no turn: whoever runs next, the clients are where they were. *)
Lemma switch_implements t ctx (k : St) σ ctx' k' :
  implements t k σ → switch cpuid ctx k = Done (ctx', k') → implements t k' σ.
Proof.
  intros Hi Hs. pose proof (impl_wf _ _ _ Hi) as Hwf. pose proof (switch_wf _ _ _ _ _ Hwf Hs) as Hwf'.
  pose proof (switch_Done _ _ _ _ _ Hwf Hs) as (cur & next & dropped & rest & E).
  assert (Hst : stays cur k k').
  { unfold switch in Hs. apply bind_Done in Hs as (c & k1 & Hsv & Hs).
    pose proof (save_current_wf _ _ _ _ _ Hwf Hsv) as (Hwf1 & _ & Hr & Hrq & Hps & Hin).
    assert (c = cur) as -> by (pose proof (sw_cur _ _ _ _ _ _ _ _ _ E); congruence).
    apply save_current_stays in Hsv; [|done]. apply bind_Done in Hs as (u & k2 & Hpu & Hs).
    unfold push_ready in Hpu. apply modify_Done in Hpu as <-.
    apply bind_Done in Hs as (r & k3 & Hn & Hs). apply ret_Done in Hs as [_ <-].
    etransitivity; [exact Hsv|]. etransitivity; [apply set_ready_stays|].
    eapply switch_next_stays; [|exact Hn]. apply wf_push; [done|by rewrite Hps]. }
  destruct Hst as [Hd Hst]. split.
  - done.
  - rewrite Hd. by apply impl_sems.
  - by eapply impl_sem_wf.
  - intros q c Hc. destruct (impl_client _ _ _ Hi q c Hc) as (p & d & Hl & Hpd & Ht & Hb).
    destruct (Hst q p Hl) as (p' & Hl' & Hpd' & Hb'). exists p', d. split_and!; [done|congruence|done|].
    destruct (decide (q = cur)) as [->|Hne]; [|by rewrite Hb'].
    rewrite (impl_running _ _ _ Hi _ _ (sw_cur _ _ _ _ _ _ _ _ _ E) Hc).
    pose proof (sw_saved _ _ _ _ _ _ _ _ _ E _ Hl) as Hs'. rewrite Hl' in Hs'. injection Hs' as ->.
    split; [by intros|done].
  - intros q c Hr Hc. rewrite (sw_running _ _ _ _ _ _ _ _ _ E) in Hr. injection Hr as <-.
    destruct (sw_next _ _ _ _ _ _ _ _ _ E) as [->|Hrd].
    + by eapply (impl_running _ _ _ Hi); [apply (sw_cur _ _ _ _ _ _ _ _ _ E)|].
    + destruct (impl_client _ _ _ Hi _ c Hc) as (p & d & Hl & _ & _ & Hb).
      apply is_ready_lookup in Hrd as (p' & Hl' & Hst'). rewrite Hl in Hl'. injection Hl' as <-.
      destruct (Clients.waiting c) eqn:Ew; [|done]. destruct Hb as [_ Hb].
      specialize (Hb ltac:(done)). unfold is_blocked in Hb. congruence.
Qed.

(** What [sem_wait] does to the other processes, when it blocks. *)
Lemma sem_wait_stays key ctx (k : St) cur p d s ctx' k' :
  wf k → running k = Some cur → lookup_proc k cur = Some p → proc_data (inner p) = Some d →
  sem_table k d key = Some s → Semaphore.wf s → count s = 0 →
  sem_wait cpuid key ctx k = Done (ctx', k') →
  stays cur (set_data (with_semaphore d key (mkSemaphore 0 (Sync.wait_queue s ++ [cur])) (data k)) k) k'.
Proof.
  intros Hwf Hr Hl Hd Hk Hsw Hz Hs. unfold sem_wait in Hs.
  rewrite (bind_step _ _ _ _ _ (current_pid_running _ _ _ Hr)) in Hs.
  apply (on_current_sem cpuid cur p d) in Hs; [|done..]. rewrite Hk in Hs.
  destruct Hs as (ret & s' & Hw & Hs). rewrite Semaphore.wait_eq, Hz in Hw by done. injection Hw as <- <-.
  set (k1 := set_data _ k) in *. assert (Hwf1 : wf k1) by (by eapply (sched_eq_wf cpuid k)).
  apply bind_Done in Hs as (c & k2 & Hsv & Hs).
  pose proof (saved_block cpuid _ _ _ _ Hwf1 Hsv) as (loc & p1 & Hr1 & Hq1 & Hp1 & Hwfb & _).
  pose proof (save_current_wf _ _ _ _ _ Hwf1 Hsv) as (Hwf2 & _ & Hrc & _).
  assert (c = cur) as -> by (change (running k = Some c) in Hrc; congruence).
  apply save_current_stays in Hsv; [|done]. apply bind_Done in Hs as (u & k3 & Hb & Hs).
  unfold manager_block, get_proc in Hb. apply bind_Done in Hb as (o & k4 & Ho & Hb).
  apply gets_Done in Ho as [<- <-]. rewrite Hq1 in Hb. apply modify_inner_Done in Hb as (p2 & Hp2 & ->).
  assert (p2 = p1) as -> by congruence. apply bind_Done in Hs as (r & k3 & Hn & Hs). apply ret_Done in Hs as [_ <-].
  etransitivity; [exact Hsv|]. etransitivity.
  - apply (set_inner_stays cur loc (Inner.block (inner p1)) k2 p1); done.
  - by apply (switch_next_stays ctx _ r k3).
Qed.

(** The clients after a turn of [cur] that only changed its semaphore. *)
Lemma implements_put t key (k k' : St) σ cur c c0 s :
  implements t k σ → wf k' → running k = Some cur → Semaphore.wf s →
  Clients.clients σ !! cur = Some c0 →
  semaphores (data k') !! t = Some (<[key := s]> (Clients.sems σ)) →
  (∀ q p, lookup_proc k q = Some p → ∃ p', lookup_proc k' q = Some p' ∧
    proc_data (inner p') = proc_data (inner p) ∧
    if decide (q = cur) then is_blocked p' ↔ Clients.waiting c ≠ None else is_blocked p' ↔ is_blocked p) →
  (∀ q c', running k' = Some q → Clients.clients (Clients.put_client cur c σ) !! q = Some c' → Clients.waiting c' = None) →
  implements t k' (Clients.put_client cur c (Clients.put_sem key s σ)).
Proof.
  intros Hi Hwf' Hr Hs Hc0 Ht Hl Hrun. split; [done|done| | |exact Hrun].
  - simpl. apply map_Forall_insert_2; [done|]. by eapply impl_sem_wf.
  - simpl. intros q c'. destruct (decide (q = cur)) as [->|Hne].
    + rewrite lookup_insert_eq. intros [= <-].
      destruct (impl_client _ _ _ Hi _ _ Hc0) as (p & d & Hp & Hd & Hdt & _).
      destruct (Hl cur p Hp) as (p' & Hp' & Hd' & Hb). rewrite decide_True in Hb by done.
      exists p', d. split_and!; [done|congruence|done|done].
    + rewrite lookup_insert_ne by done. intros Hc.
      destruct (impl_client _ _ _ Hi _ _ Hc) as (p & d & Hp & Hd & Hdt & Hb0).
      destruct (Hl q p Hp) as (p' & Hp' & Hd' & Hb). rewrite decide_False in Hb by done.
      exists p', d. split_and!; [done|congruence|done|by rewrite Hb].
Qed.

(** A call of [wait] on a semaphore. *)
Lemma sem_wait_implements t key ctx (k : St) σ cur r l s ctx' k' :
  implements t k σ → running k = Some cur →
  Clients.clients σ !! cur = Some (Clients.mkClient (Clients.Wait key :: r) None l) →
  Clients.sems σ !! key = Some s →
  (count s = 0 → ∃ q, q ≠ cur ∧ is_ready k q = true) →
  sem_wait cpuid key ctx k = Done (ctx', k') →
  ∃ σ', Clients.turn run cur σ = Done ((), σ') ∧ implements t k' σ'.
Proof.
  intros Hi Hr Hc Hs Hother Hw. pose proof (impl_wf _ _ _ Hi) as Hwf.
  pose proof (impl_sem_wf _ _ _ Hi key s Hs) as Hswf. pose proof (sem_wait_wf _ _ _ _ _ _ Hwf Hw) as Hwf'.
  destruct (impl_client _ _ _ Hi _ _ Hc) as (p & d & Hl & Hd & Hdt & Hb).
  pose proof (impl_table _ _ _ d key Hi Hdt) as Htab. rewrite Hs in Htab.
  rewrite (Clients.turn_wait run cur σ key r l s Hc Hs Hswf). eexists. split; [done|].
  pose proof (sem_wait_effect cpuid key ctx k cur p d ctx' k' Hwf Hr Hl Hd) as He. rewrite Htab in He.
  specialize (He ltac:(by intros ? [= <-]) Hw). destruct (Z.eqb_spec (count s) 0) as [Hz|Hz].
  - destruct He as (Hdat & Hcur & Hg).
    destruct (sem_wait_stays key ctx k cur p d s ctx' k' Hwf Hr Hl Hd Htab Hswf Hz Hw) as [_ Hst].
    eapply implements_put; [done..| |done| | |].
    + split; simpl; [lia|by left].
    + rewrite Hdat. by apply with_semaphore_table.
    + intros q pq Hq. destruct (Hst q pq Hq) as (p' & Hp' & Hpd & Hbb). exists p'. split_and!; [done..|].
      destruct (decide (q = cur)) as [->|Hne]; [|by apply Hbb]. rewrite Hcur in Hp'. injection Hp' as <-. done.
    + intros q c' Hr' Hc'. destruct Hg as [(Hno & _)|(next & pn & Hne & Hrd & Hrn & Hln & _)].
      { destruct (Hother Hz) as (q' & Hq' & Hrd). rewrite Hno in Hrd by done. done. }
      assert (q = next) as -> by congruence. simpl in Hc'. rewrite lookup_insert_ne in Hc' by done.
      destruct (impl_client _ _ _ Hi _ _ Hc') as (p2 & d2 & Hl2 & _ & _ & Hb2).
      apply is_ready_lookup in Hrd as (p3 & Hl3 & Hst3). rewrite Hl2 in Hl3. injection Hl3 as <-.
      destruct (Clients.waiting c') eqn:Ew; [|done]. destruct Hb2 as [_ Hb2]. specialize (Hb2 ltac:(done)).
      unfold is_blocked in Hb2. congruence.
  - destruct He as [_ ->]. eapply implements_put; [done..| |done| | |].
    + destruct Hswf as [? [?|?]]; split; simpl; [lia|lia|lia|by right].
    + by apply with_semaphore_table.
    + intros q pq Hq. exists pq. split_and!; [done..|]. destruct (decide (q = cur)) as [->|]; [|done].
      rewrite Hl in Hq. by injection Hq as <-.
    + intros q c' Hr' Hc'. change (running k = Some q) in Hr'. assert (q = cur) as -> by congruence.
      simpl in Hc'. rewrite lookup_insert_eq in Hc'. by injection Hc' as <-.
Qed.

Lemma sem_signal_running key ctx (k : St) ctx' k' :
  wf k → sem_signal cpuid key ctx k = Done (ctx', k') → running k' = running k.
Proof.
  intros Hwf Hs. unfold sem_signal in Hs. apply bind_Done in Hs as (q & k1 & Hc & Hs).
  apply current_pid_Done in Hc as (-> & _ & _). apply bind_Done in Hs as (loc & k1 & Hc & Hs).
  apply current_Done in Hc as (-> & _). apply bind_Done in Hs as (p & k1 & Hp & Hs).
  apply read_proc_Done in Hp as [-> _]. apply bind_Done in Hs as (d & k1 & Hd & Hs).
  apply unwrap_Done in Hd as [_ <-]. apply bind_Done in Hs as (ret & k1 & Hd & Hs).
  apply on_data_eq in Hd as [Hse _]. pose proof (sched_eq_wf cpuid _ _ Hse Hwf) as Hwf1.
  apply (sched_eq_frame cpuid) in Hse as [Hr _].
  destruct ret as [| | |]; [by inv_done|by inv_done|by inv_done|].
  apply bind_Done in Hs as (u & k2 & Hw & Hs). apply ret_Done in Hs as [_ <-].
  apply (wake_up_wf cpuid) in Hw as (_ & [Hr2 _] & _); [|done]. congruence.
Qed.

(** A call of [signal]. *)
Lemma sem_signal_implements t key ctx (k : St) σ cur r l s ctx' k' :
  implements t k σ → running k = Some cur →
  Clients.clients σ !! cur = Some (Clients.mkClient (Clients.Signal key :: r) None l) →
  Clients.sems σ !! key = Some s → count s < 2 ^ 64 - 1 →
  sem_signal cpuid key ctx k = Done (ctx', k') →
  ∃ σ', Clients.turn run cur σ = Done ((), σ') ∧ implements t k' σ'.
Proof.
  intros Hi Hr Hc Hs Hbound Hw. pose proof (impl_wf _ _ _ Hi) as Hwf.
  pose proof (impl_sem_wf _ _ _ Hi key s Hs) as Hswf. pose proof (sem_signal_wf _ _ _ _ _ _ Hwf Hw) as Hwf'.
  pose proof (sem_signal_running _ _ _ _ _ Hwf Hw) as Hr'.
  destruct (impl_client _ _ _ Hi _ _ Hc) as (p & d & Hl & Hd & Hdt & Hb).
  pose proof (impl_table _ _ _ d key Hi Hdt) as Htab. rewrite Hs in Htab.
  rewrite (Clients.turn_signal run cur σ key r l s Hc Hs Hswf Hbound). eexists. split; [done|].
  pose proof (sem_signal_effect cpuid key ctx k cur p d ctx' k' Hwf Hr Hl Hd) as He. rewrite Htab in He.
  specialize (He ltac:(by intros ? [= <-]) Hw). set (c := Clients.mkClient r None l).
  assert (Hrun : ∀ q c', running k' = Some q → Clients.clients (Clients.put_client cur c σ) !! q = Some c' →
    Clients.waiting c' = None).
  { intros q c' Hq Hc'. assert (q = cur) as -> by congruence. simpl in Hc'. rewrite lookup_insert_eq in Hc'.
    by injection Hc' as <-. }
  destruct (Sync.wait_queue s) as [|w ws] eqn:Eq.
  - destruct He as [_ ->]. eapply implements_put; [done..| |done| | |exact Hrun].
    + destruct Hswf as [? _]. split; simpl; [lia|by right].
    + by apply with_semaphore_table.
    + intros q pq Hq. exists pq. split_and!; [done..|]. destruct (decide (q = cur)) as [->|]; [|done].
      rewrite Hl in Hq. by injection Hq as <-.
  - destruct He as (_ & Hdat & Hwoken & Hothers). cbv zeta. split; [done| | | |].
    + rewrite Hdat. simpl. by apply with_semaphore_table.
    + simpl. apply map_Forall_insert_2; [|by eapply impl_sem_wf].
      destruct Hswf as [? [?|?]]; split; simpl; [lia|by left|lia|congruence].
    + simpl. intros q c' Hc'. assert (∃ c1, <[cur := c]> (Clients.clients σ) !! q = Some c1 ∧
        (if decide (q = w) then c' = Clients.unblock c1 else c' = c1)) as (c1 & Hc1 & Hcc).
      { destruct (decide (q = w)) as [->|Hne].
        - rewrite lookup_alter_eq in Hc'. apply fmap_Some in Hc' as (c1 & ? & ->). eauto.
        - rewrite lookup_alter_ne in Hc' by done. eauto. }
      assert (∃ pq dq, lookup_proc k q = Some pq ∧ proc_data (inner pq) = Some dq ∧ semaphores_ dq = t ∧
        (is_blocked pq ↔ Clients.waiting c1 ≠ None)) as (pq & dq & Hlq & Hdq & Htq & Hbq).
      { destruct (decide (q = cur)) as [->|Hne].
        - rewrite lookup_insert_eq in Hc1. injection Hc1 as <-. eauto 10.
        - rewrite lookup_insert_ne in Hc1 by done. by eapply impl_client. }
      destruct (decide (q = w)) as [->|Hne]; subst c'.
      * destruct (Hwoken pq Hlq) as [Hlw _]. eexists _, dq. split_and!; [exact Hlw|done|done|].
        split; [by intros|done].
      * exists pq, dq. by rewrite Hothers.
    + intros q c' Hq Hc'. simpl in Hc'. assert (q = cur) as -> by congruence.
      destruct (decide (cur = w)) as [<-|Hne].
      * rewrite lookup_alter_eq, lookup_insert_eq in Hc'. by injection Hc' as <-.
      * rewrite lookup_alter_ne, lookup_insert_eq in Hc' by done. by injection Hc' as <-.
Qed.

(** A call on a semaphore that does not exist. *)
Lemma sem_missing_implements t key ctx (k : St) σ cur i r l ctx' k' :
  implements t k σ → running k = Some cur →
  Clients.clients σ !! cur = Some (Clients.mkClient (i :: r) None l) →
  Clients.sems σ !! key = None →
  i = Clients.Wait key ∧ sem_wait cpuid key ctx k = Done (ctx', k') ∨
  i = Clients.Signal key ∧ sem_signal cpuid key ctx k = Done (ctx', k') →
  ∃ σ', Clients.turn run cur σ = Done ((), σ') ∧ implements t k' σ'.
Proof.
  intros Hi Hr Hc Hs Hcall. pose proof (impl_wf _ _ _ Hi) as Hwf.
  destruct (impl_client _ _ _ Hi _ _ Hc) as (p & d & Hl & Hd & Hdt & Hb).
  pose proof (impl_table _ _ _ d key Hi Hdt) as Htab. rewrite Hs in Htab.
  rewrite (Clients.turn_not_exist run cur σ key r l i Hc ltac:(tauto) Hs). eexists. split; [done|].
  assert (k' = k) as ->.
  { destruct Hcall as [[_ Hw]|[_ Hw]].
    - pose proof (sem_wait_effect cpuid key ctx k cur p d ctx' k' Hwf Hr Hl Hd) as He. rewrite Htab in He.
      by destruct (He ltac:(intros ? [=]) Hw).
    - pose proof (sem_signal_effect cpuid key ctx k cur p d ctx' k' Hwf Hr Hl Hd) as He. rewrite Htab in He.
      by destruct (He ltac:(intros ? [=]) Hw). }
  split; [done|exact (impl_sems _ _ _ Hi)|exact (impl_sem_wf _ _ _ Hi)| |].
  - simpl. intros q c'. destruct (decide (q = cur)) as [->|Hne].
    + rewrite lookup_insert_eq. intros [= <-]. eauto 10.
    + rewrite lookup_insert_ne by done. by apply impl_client.
  - simpl. intros q c' Hq. assert (q = cur) as -> by congruence. rewrite lookup_insert_eq. by intros [= <-].
Qed.

(** C20: The kernel refines the semaphores its clients are proved against.  Let a kernel
    run clients that share a table of semaphores.  When the running process makes
    its next call, [wait] or [signal], on any key, the call returns, and kernel and
    clients are related again after the clients' turn; and a timer interrupt
    between the calls is no turn at all.  So everything the kernel does for these
    processes is a schedule of turns, in the order of the calls.  (A [wait] that
    blocks needs another process that is ready, which the kernel's own always is;
    a [signal] needs a count that does not overflow.) *)
Theorem kernel_refines_turns t ctx (k : St) σ cur p i r l :
  implements t k σ → running k = Some cur → lookup_proc k cur = Some p →
  Clients.clients σ !! cur = Some (Clients.mkClient (i :: r) None l) →
  (∀ key s, i = Clients.Wait key → Clients.sems σ !! key = Some s → count s = 0 →
    can_block k cur p ∧ ∃ q, q ≠ cur ∧ is_ready k q = true) →
  (∀ key s, i = Clients.Signal key → Clients.sems σ !! key = Some s → count s < 2 ^ 64 - 1) →
  (∀ key, i = Clients.Wait key → ∃ ctx' k' σ', sem_wait cpuid key ctx k = Done (ctx', k') ∧
     Clients.turn run cur σ = Done ((), σ') ∧ implements t k' σ') ∧
  (∀ key, i = Clients.Signal key → ∃ ctx' k' σ', sem_signal cpuid key ctx k = Done (ctx', k') ∧
     Clients.turn run cur σ = Done ((), σ') ∧ implements t k' σ') ∧
  (∀ ctx' k', switch cpuid ctx k = Done (ctx', k') → implements t k' σ).
Proof.
  intros Hi Hr Hl Hc Hblock Hbound. pose proof (impl_wf _ _ _ Hi) as Hwf.
  destruct (impl_client _ _ _ Hi _ _ Hc) as (p' & d & Hl' & Hd & Hdt & _). assert (p' = p) as -> by congruence.
  pose proof (λ key, impl_table _ _ _ d key Hi Hdt) as Htab.
  assert (Hhas : has_semaphores k d) by (unfold has_semaphores; rewrite Hdt, (impl_sems _ _ _ Hi); eauto).
  split_and!; [intros key ->..|intros ctx' k'; by apply switch_implements].
  - destruct (sem_wait_returns cpuid key ctx k cur p d) as [[ctx' k'] Hw]; [done..| | |].
    { intros s Hs. rewrite Htab in Hs. by eapply impl_sem_wf. }
    { intros s Hs Hz. rewrite Htab in Hs. by destruct (Hblock key s eq_refl Hs Hz). }
    destruct (Clients.sems σ !! key) as [s|] eqn:Es.
    + edestruct sem_wait_implements as (σ' & Ht & Hi'); [exact Hi|done|done|exact Es| |exact Hw|].
      { intros Hz. by destruct (Hblock key s eq_refl Es Hz). }
      by exists ctx', k', σ'.
    + edestruct sem_missing_implements as (σ' & Ht & Hi'); [exact Hi|done|done|exact Es|by left|].
      by exists ctx', k', σ'.
  - destruct (sem_signal_returns cpuid key ctx k cur p d) as [[ctx' k'] Hw]; [done..| |].
    { intros s Hs. rewrite Htab in Hs. split; [by eapply impl_sem_wf|by eapply Hbound]. }
    destruct (Clients.sems σ !! key) as [s|] eqn:Es.
    + edestruct sem_signal_implements as (σ' & Ht & Hi');
        [exact Hi|done|done|exact Es|by eapply Hbound|exact Hw|]. by exists ctx', k', σ'.
    + edestruct sem_missing_implements as (σ' & Ht & Hi'); [exact Hi|done|done|exact Es|by right|].
      by exists ctx', k', σ'.
Qed.

End Refine.

(** ** An example: process 1 waits behind process 3 *)

Section RefineWitness.
#[local] Existing Instance x86_ref.
#[local] Existing Instance release.

Definition run_nothing (a : Empty_set) (l g : ()) : Clients.effect () () := match a with end.
Definition clients_example : @Clients.state () () Empty_set :=
  Clients.mkState {[ 7 := mkSemaphore 0 [3] ]}
    {[ 1 := Clients.mkClient [Clients.Wait 7] None (); 2 := Clients.mkClient [Clients.Signal 7] None ();
       3 := Clients.mkClient [] (Some 7) () ]} ().

Lemma implements_example : implements 0 0 kernel_example clients_example.
Proof.
  split.
  - apply kernel_example_wf.
  - vm_compute. reflexivity.
  - cbn [Clients.sems clients_example]. apply map_Forall_singleton. split; [simpl; lia|by left].
  - intros q c Hc. simpl in Hc.
    apply lookup_insert_Some in Hc as [[<- <-]|[_ Hc]];
      [|apply lookup_insert_Some in Hc as [[<- <-]|[_ Hc]]; [|apply lookup_singleton_Some in Hc as [<- <-]]];
      eexists _, (mkProcessData 0 0 0); (split_and!; [vm_compute; reflexivity|done|done|]); by split.
  - intros q c Hq Hc. assert (q = 1) as -> by (vm_compute in Hq; congruence).
    vm_compute in Hc. by injection Hc as <-.
Qed.

Lemma kernel_refines_turns_witness :
  ∃ ctx' k' σ', sem_wait 0 7 (regs_example 63) kernel_example = Done (ctx', k') ∧
    Clients.turn run_nothing 1 clients_example = Done ((), σ') ∧ implements 0 0 k' σ'.
Proof.
  destruct (kernel_refines_turns 0 run_nothing 0 (regs_example 63) kernel_example clients_example 1 proc1
    (Clients.Wait 7) [] ()) as (Hw & _ & _).
  - apply implements_example.
  - vm_compute. reflexivity.
  - vm_compute. reflexivity.
  - reflexivity.
  - intros _ _ _ _ _. split; [apply can_block_example|]. exists 2. split; [done|]. vm_compute. reflexivity.
  - intros ? ? [=].
  - apply (Hw 7 eq_refl).
Defined.

End RefineWitness.
