(* ===== verification/Config.v ===== *)
(** The boot loader's configuration: [pkg/boot/src/config.rs].

    [parse] reads [boot.conf], line by line.  The theorems: what is written in
    the file's format is read back; the file of the repository gives the
    configuration it describes; and which files stop the boot loader. *)
From S2P Require Import Prelude Text.
From stdpp Require Import strings.
#[local] Open Scope Z_scope.

Record Config : Type := mkConfig {
  kernel_stack_address : Z;
  kernel_stack_size : Z;
  physical_memory_offset : Z;
  kernel_stack_auto_grow : Z;
  kernel_path : str;
  initramfs : option str;
  cmdline : str;
  load_apps : bool;
  log_level : str;
}.

Definition DEFAULT_CONFIG : Config := mkConfig
  0xFFFFFF0100000000 512 0xFFFF800000000000 0 (chars "\KERNEL.ELF") None [] false (chars "info").

Definition set_kernel_stack_address x c := mkConfig x (kernel_stack_size c) (physical_memory_offset c)
  (kernel_stack_auto_grow c) (kernel_path c) (initramfs c) (cmdline c) (load_apps c) (log_level c).
Definition set_kernel_stack_size x c := mkConfig (kernel_stack_address c) x (physical_memory_offset c)
  (kernel_stack_auto_grow c) (kernel_path c) (initramfs c) (cmdline c) (load_apps c) (log_level c).
Definition set_physical_memory_offset x c := mkConfig (kernel_stack_address c) (kernel_stack_size c) x
  (kernel_stack_auto_grow c) (kernel_path c) (initramfs c) (cmdline c) (load_apps c) (log_level c).
Definition set_kernel_stack_auto_grow x c := mkConfig (kernel_stack_address c) (kernel_stack_size c)
  (physical_memory_offset c) x (kernel_path c) (initramfs c) (cmdline c) (load_apps c) (log_level c).
Definition set_kernel_path x c := mkConfig (kernel_stack_address c) (kernel_stack_size c)
  (physical_memory_offset c) (kernel_stack_auto_grow c) x (initramfs c) (cmdline c) (load_apps c) (log_level c).
Definition set_initramfs x c := mkConfig (kernel_stack_address c) (kernel_stack_size c)
  (physical_memory_offset c) (kernel_stack_auto_grow c) (kernel_path c) x (cmdline c) (load_apps c) (log_level c).
Definition set_cmdline x c := mkConfig (kernel_stack_address c) (kernel_stack_size c)
  (physical_memory_offset c) (kernel_stack_auto_grow c) (kernel_path c) (initramfs c) x (load_apps c) (log_level c).
Definition set_load_apps x c := mkConfig (kernel_stack_address c) (kernel_stack_size c)
  (physical_memory_offset c) (kernel_stack_auto_grow c) (kernel_path c) (initramfs c) (cmdline c) x (log_level c).
Definition set_log_level x c := mkConfig (kernel_stack_address c) (kernel_stack_size c)
  (physical_memory_offset c) (kernel_stack_auto_grow c) (kernel_path c) (initramfs c) (cmdline c) (load_apps c) x.

(** Both numbers are read whatever the key is. *)
Definition process (key value : str) : M Config () :=
  let r10 := default 0 (from_str 64 value) in
  r16 ← (if 2 <? str_len value then
           v ← unwrap (slice_from 2 value); mret (default 0 (from_str_radix 64 16 v))
         else mret 0);
  if decide (key = chars "kernel_stack_address") then modify (set_kernel_stack_address r16)
  else if decide (key = chars "kernel_stack_size") then modify (set_kernel_stack_size r10)
  else if decide (key = chars "physical_memory_offset") then modify (set_physical_memory_offset r16)
  else if decide (key = chars "kernel_path") then modify (set_kernel_path value)
  else if decide (key = chars "kernel_stack_auto_grow") then modify (set_kernel_stack_auto_grow r10)
  else if decide (key = chars "initramfs") then modify (set_initramfs (Some value))
  else if decide (key = chars "cmdline") then modify (set_cmdline value)
  else if decide (key = chars "load_apps") then modify (set_load_apps (negb (r10 =? 0)))
  else if decide (key = chars "log_level") then modify (set_log_level value)
  else mret ().

(** The loop over the lines. *)
Fixpoint parse_lines (ls : list str) : M Config () :=
  match ls with
  | [] => mret ()
  | line :: ls =>
      let line := trim line in
      (if decide (line = []) then mret ()
       else if decide (head line = Some 35) then mret ()
       else match split_once 61 line with
            | Some (key, value) => process key value
            | None => mret ()
            end);;
      parse_lines ls
  end.

Definition parse (content : list Z) : outcome Config :=
  match from_utf8 content with
  | None => Panic
  | Some content =>
      match parse_lines (lines content) DEFAULT_CONFIG with
      | Done (_, c) => Done c
      | Panic => Panic
      | OutOfFuel => OutOfFuel
      end
  end.

(** ** The format *)

(** A value the format can hold: without a line feed, with no blank at its end,
    and byte 2 the start of a character, if there is one. *)
Record good_value (v : str) : Prop := {
  value_scalar : Forall (λ c, is_scalar c = true) v;
  value_line : 10 ∉ v;
  value_end : ∀ c, last v = Some c → is_whitespace c = false;
  value_slice : 2 < str_len v → is_Some (slice_from 2 v);
}.

Definition good_key (k : str) : bool :=
  match k with
  | [] => false
  | c :: _ => negb (is_whitespace c) && negb (c =? 35)
  end && forallb (λ c, is_scalar c && negb (c =? 10) && negb (c =? 61)) k.

Definition entry (kv : str * str) : str := kv.1 ++ 61 :: kv.2.

(** The file that says [kvs]. *)
Definition file (kvs : list (str * str)) : list Z := as_bytes (kvs ≫= λ kv, entry kv ++ [10]).

Lemma good_key_spec k :
  good_key k = true → Forall (λ c, is_scalar c = true) k ∧ 10 ∉ k ∧ 61 ∉ k ∧
  ∃ c k', k = c :: k' ∧ is_whitespace c = false ∧ c ≠ 35.
Proof.
  unfold good_key. intros [Hh Hf]%andb_true_iff. rewrite forallb_forall in Hf.
  assert (Hk : ∀ c, c ∈ k → is_scalar c = true ∧ c ≠ 10 ∧ c ≠ 61).
  { intros c Hc. apply list_elem_of_In, Hf in Hc.
    rewrite !andb_true_iff, !negb_true_iff, !Z.eqb_neq in Hc. tauto. }
  split_and!.
  - apply Forall_forall. intros c Hc. by apply Hk.
  - intros Hc. by apply Hk in Hc as (_ & ? & _).
  - intros Hc. by apply Hk in Hc as (_ & _ & ?).
  - destruct k as [|c k]; [done|]. exists c, k. rewrite andb_true_iff, !negb_true_iff, Z.eqb_neq in Hh.
    split; [done|]. tauto.
Qed.

Lemma entry_last k v c :
  last (entry (k, v)) = Some c → (v = [] ∧ c = 61) ∨ last v = Some c.
Proof.
  unfold entry. cbn [fst snd]. rewrite last_app_cons. destruct v as [|d v].
  - intros [= <-]. by left.
  - rewrite last_cons_cons. by right.
Qed.

Lemma entry_line k v :
  good_key k = true → good_value v → is_line (entry (k, v)) ∧ trim (entry (k, v)) = entry (k, v).
Proof.
  intros (_ & H10 & H61 & c & k' & -> & Hc & _)%good_key_spec Hv.
  assert (Hlast : ∀ d, last (entry (c :: k', v)) = Some d → is_whitespace d = false).
  { intros d [[_ ->]|Hd]%entry_last; [done|]. by apply (value_end v Hv). }
  split; [split|].
  - unfold entry. simpl. apply not_elem_of_cons in H10 as [H10 H10'].
    rewrite not_elem_of_cons, not_elem_of_app, not_elem_of_cons. split_and!; [done..|apply Hv].
  - intros Hd. by apply Hlast in Hd.
  - apply trim_id; [|done]. intros d [= <-]. done.
Qed.

(** The lines of the file are processed in order. *)
Lemma parse_lines_entries kvs :
  Forall (λ kv, good_key kv.1 = true ∧ good_value kv.2) kvs →
  parse_lines (entry <$> kvs) = foldr (λ kv m, process kv.1 kv.2;; m) (mret ()) kvs.
Proof.
  induction 1 as [|[k v] kvs [Hk Hv] _ IH]; [done|]. rewrite fmap_cons. cbn [parse_lines foldr fst snd] in *.
  rewrite (proj2 (entry_line k v Hk Hv)), IH.
  apply good_key_spec in Hk as (_ & _ & H61 & c & k' & -> & _ & Hc).
  change (entry (c :: k', v)) with (c :: (k' ++ 61 :: v)).
  rewrite decide_False by done. rewrite decide_False by (intros [= ?]; done).
  change (c :: (k' ++ 61 :: v)) with ((c :: k') ++ 61 :: v). by rewrite split_once_app.
Qed.

Lemma parse_file kvs :
  Forall (λ kv, good_key kv.1 = true ∧ good_value kv.2) kvs →
  parse (file kvs) =
  match foldr (λ kv m, process kv.1 kv.2;; m) (mret ()) kvs DEFAULT_CONFIG with
  | Done (_, c) => Done c
  | Panic => Panic
  | OutOfFuel => OutOfFuel
  end.
Proof.
  intros Hkvs. unfold parse, file.
  replace (kvs ≫= λ kv, entry kv ++ [10]) with ((entry <$> kvs) ≫= λ l, l ++ [10])
    by (clear; induction kvs as [|kv kvs IH]; [done|]; by rewrite fmap_cons, !bind_cons, IH).
  rewrite from_utf8_as_bytes, lines_unlines, parse_lines_entries; [done..| |].
  - apply Forall_fmap. eapply Forall_impl; [done|]. intros [k v] [Hk Hv]. by apply entry_line.
  - clear -Hkvs. induction Hkvs as [|[k v] kvs [Hk Hv] _ IH]; [done|].
    cbn [fst snd] in *. rewrite fmap_cons, bind_cons. apply good_key_spec in Hk as (Hk & _).
    unfold entry. cbn [fst snd]. rewrite !Forall_app, Forall_cons, Forall_singleton.
    split_and!; try done. apply Hv.
Qed.

(** ** What is written is read *)

(** The file of a configuration. *)
Definition entries (c : Config) : list (str * str) :=
  [(chars "kernel_stack_address", chars "0x" ++ show 16 (kernel_stack_address c));
   (chars "kernel_stack_size", show 10 (kernel_stack_size c));
   (chars "physical_memory_offset", chars "0x" ++ show 16 (physical_memory_offset c));
   (chars "kernel_path", kernel_path c);
   (chars "kernel_stack_auto_grow", show 10 (kernel_stack_auto_grow c))] ++
  match initramfs c with Some v => [(chars "initramfs", v)] | None => [] end ++
  [(chars "cmdline", cmdline c);
   (chars "load_apps", show 10 (if load_apps c then 1 else 0));
   (chars "log_level", log_level c)].

Record good (c : Config) : Prop := {
  good_address : 0 ≤ kernel_stack_address c < 2 ^ 64;
  good_size : 0 ≤ kernel_stack_size c < 2 ^ 64;
  good_offset : 0 ≤ physical_memory_offset c < 2 ^ 64;
  good_grow : 0 ≤ kernel_stack_auto_grow c < 2 ^ 64;
  good_path : good_value (kernel_path c);
  good_initramfs : ∀ v, initramfs c = Some v → good_value v;
  good_cmdline : good_value (cmdline c);
  good_log : good_value (log_level c);
}.

Lemma slice_ascii s : Forall (λ c, c < 0x80) s → 2 < str_len s → slice_from 2 s = Some (drop 2 s).
Proof.
  intros Hs Hl. destruct Hs as [|c s Hc Hs]; [simpl in Hl; lia|]. unfold slice_from, str_len, len_utf8 in *.
  rewrite (proj2 (Z.ltb_lt c _)) in * by done. fold str_len in Hl. fold slice_from. simpl.
  destruct Hs as [|d s Hd Hs]; [simpl in Hl; lia|]. simpl. unfold len_utf8.
  rewrite (proj2 (Z.ltb_lt d _)) by done. simpl. by destruct s.
Qed.

Lemma ascii_good s :
  Forall (λ c, is_digit c = true) s → good_value s.
Proof.
  intros Hs. assert (Hd : ∀ c, is_digit c = true → 48 ≤ c ≤ 122).
  { intros c. unfold is_digit. rewrite orb_true_iff, !andb_true_iff. lia. }
  split.
  - eapply Forall_impl; [done|]. intros c Hc%Hd. apply is_scalar_spec. lia.
  - intros Hc. rewrite Forall_forall in Hs. apply Hs, Hd in Hc. lia.
  - intros c Hc. apply last_Some_elem_of in Hc. rewrite Forall_forall in Hs. apply Hs, Hd in Hc.
    unfold is_whitespace. rewrite !orb_false_iff, !andb_false_iff. lia.
  - intros Hl. rewrite slice_ascii; [eauto| |done]. eapply Forall_impl; [done|]. intros c Hc%Hd. lia.
Qed.

(** What [process] has for [r16]. *)
Lemma r16_good v : good_value v → ∃ x, ∀ s : Config,
  (if 2 <? str_len v then
     v ← unwrap (slice_from 2 v); mret (default 0 (from_str_radix 64 16 v))
   else mret 0) s = Done (x, s).
Proof.
  intros Hv. destruct (Z.ltb_spec 2 (str_len v)) as [Hl|Hl]; [|by eexists].
  destruct (value_slice v Hv Hl) as [t ->]. by eexists.
Qed.

Lemma r16_hex n (s : Config) :
  0 ≤ n < 2 ^ 64 →
  let v := chars "0x" ++ show 16 n in
  (if 2 <? str_len v then
     v ← unwrap (slice_from 2 v); mret (default 0 (from_str_radix 64 16 v))
   else mret 0) s = Done (n, s).
Proof.
  intros Hn v. destruct (show_spec 16 n ltac:(lia) ltac:(lia)) as [Hd Hne].
  assert (Hl : 2 < str_len v).
  { unfold v. destruct (show 16 n) as [|c ds]; [done|]. change (2 < 1 + (1 + str_len (c :: ds))).
    cbn [str_len]. pose proof (len_utf8_pos c). rewrite str_len_bytes. lia. }
  rewrite (proj2 (Z.ltb_lt _ _) Hl). change (slice_from 2 v) with (slice_from 0 (show 16 n)).
  assert (slice_from 0 (show 16 n) = Some (show 16 n)) as -> by by destruct (show 16 n).
  unfold mbind, M_bind. simpl. by rewrite from_str_radix_show by lia.
Qed.

(** Unfold [process] on a known key, given what [r16] is. *)
Ltac on_key E :=
  unfold process; rewrite (bind_step _ _ _ _ _ E);
  repeat (rewrite decide_False by (vm_compute; discriminate)); rewrite decide_True by done;
  unfold modify.

Lemma process_text v c :
  good_value v →
  process (chars "kernel_path") v c = Done ((), set_kernel_path v c) ∧
  process (chars "initramfs") v c = Done ((), set_initramfs (Some v) c) ∧
  process (chars "cmdline") v c = Done ((), set_cmdline v c) ∧
  process (chars "log_level") v c = Done ((), set_log_level v c).
Proof.
  intros [x Hx]%r16_good. specialize (Hx c). split_and!; by on_key Hx.
Qed.

Lemma process_hex n c :
  0 ≤ n < 2 ^ 64 →
  process (chars "kernel_stack_address") (chars "0x" ++ show 16 n) c =
    Done ((), set_kernel_stack_address n c) ∧
  process (chars "physical_memory_offset") (chars "0x" ++ show 16 n) c =
    Done ((), set_physical_memory_offset n c).
Proof. intros Hn. pose proof (r16_hex n c Hn) as Hx. split; by on_key Hx. Qed.

Lemma process_dec n c :
  0 ≤ n < 2 ^ 64 →
  process (chars "kernel_stack_size") (show 10 n) c = Done ((), set_kernel_stack_size n c) ∧
  process (chars "kernel_stack_auto_grow") (show 10 n) c = Done ((), set_kernel_stack_auto_grow n c) ∧
  process (chars "load_apps") (show 10 n) c = Done ((), set_load_apps (negb (n =? 0)) c).
Proof.
  intros Hn. destruct (r16_good (show 10 n)) as [x Hx].
  { apply ascii_good, show_spec; lia. }
  specialize (Hx c). split_and!; on_key Hx; unfold from_str; by rewrite from_str_radix_show by lia.
Qed.

Lemma hex_good n : 0 ≤ n → good_value (chars "0x" ++ show 16 n).
Proof.
  intros Hn. apply ascii_good, Forall_app. split; [by repeat constructor|by apply show_spec; lia].
Qed.

Lemma dec_good n : 0 ≤ n → good_value (show 10 n).
Proof. intros Hn. by apply ascii_good, show_spec. Qed.

Lemma entries_good c :
  good c → Forall (λ kv, good_key kv.1 = true ∧ good_value kv.2) (entries c).
Proof.
  intros []. unfold entries. rewrite !Forall_app, !Forall_cons.
  split_and!; cbn [fst snd];
    lazymatch goal with
    | |- good_key _ = true => vm_compute; reflexivity
    | |- good_value (_ ++ _) => apply hex_good; lia
    | |- good_value (show _ (if ?b then _ else _)) => apply dec_good; destruct b; lia
    | |- good_value (show _ _) => apply dec_good; lia
    | |- good_value _ => assumption
    | |- Forall _ [] => constructor
    | |- _ => idtac
    end.
  destruct (initramfs c); constructor; [|constructor]. split; [vm_compute; reflexivity|by apply good_initramfs0].
Qed.

(** C35: The configuration round trip.  What the format can hold is read back
    exactly: the file that spells out a configuration parses to it, whatever
    the defaults, if its numbers are 64-bit and its strings have no line feed
    and no blank at the end, and can be cut after two bytes (see
    [parse_multibyte]). *)
Theorem parse_file_roundtrip (c : Config) :
  good c → parse (file (entries c)) = Done c.
Proof.
  intros Hc. rewrite parse_file by by apply entries_good. destruct Hc, c as [a z o g p i m l e].
  simpl in *. unfold entries. simpl.
  assert (Hl : 0 ≤ (if l then 1 else 0) < 2 ^ 64) by (destruct l; lia).
  assert (El : negb ((if l then 1 else 0) =? 0) = l) by by destruct l.
  destruct i as [v|]; cbn [app foldr fst snd];
    rewrite (bind_step _ _ _ _ _ (proj1 (process_hex a _ good_address0))),
      (bind_step _ _ _ _ _ (proj1 (process_dec z _ good_size0))),
      (bind_step _ _ _ _ _ (proj2 (process_hex o _ good_offset0))),
      (bind_step _ _ _ _ _ (proj1 (process_text p _ good_path0))),
      (bind_step _ _ _ _ _ (proj1 (proj2 (process_dec g _ good_grow0))));
    [rewrite (bind_step _ _ _ _ _ (proj1 (proj2 (process_text v _ (good_initramfs0 v eq_refl)))))|];
    rewrite (bind_step _ _ _ _ _ (proj1 (proj2 (proj2 (process_text m _ good_cmdline0))))),
      (bind_step _ _ _ _ _ (proj2 (proj2 (process_dec _ _ Hl)))),
      (bind_step _ _ _ _ _ (proj2 (proj2 (proj2 (process_text e _ good_log0)))));
    unfold mret, M_ret; rewrite El; reflexivity.
Qed.

Definition config_example : Config := mkConfig
  0x1000 16 0xffff000000000000 2 (chars "\K.ELF") (Some (chars "\INIT")) (chars "a = b") true (chars "warn").

Lemma text_good s : Forall (λ c, is_scalar c = true ∧ c < 0x80 ∧ c ≠ 10) s →
  (∀ c, last s = Some c → is_whitespace c = false) → good_value s.
Proof.
  intros Hs Hl. rewrite Forall_forall in Hs. split; [apply Forall_forall; naive_solver|naive_solver|done|].
  intros Hlen. rewrite slice_ascii; [eauto| |done]. apply Forall_forall. naive_solver.
Qed.

Lemma parse_file_roundtrip_witness :
  parse (file (entries config_example)) = Done config_example.
Proof.
  apply parse_file_roundtrip. split; try (vm_compute; done).
  all: intros; simpl in *; simplify_eq; apply text_good;
    [repeat constructor; vm_compute; discriminate || reflexivity|intros d [= <-]; reflexivity].
Defined.

(** [pkg/kernel/config/boot.conf] as it is. *)
Definition boot_conf : str := chars "# The config file for rboot.

# The address at which the kernel stack is placed.
kernel_stack_address=0xFFFFFF0100000000

# The size of the kernel stack, given in number of 4KiB pages. Defaults to 512.
kernel_stack_size=1048576

# The virtual address offset from which physical memory is mapped, as described in
# https://os.phil-opp.com/paging-implementation/#map-the-complete-physical-memory
physical_memory_offset=0xFFFF800000000000

# The path of kernel ELF
kernel_path=\KERNEL.ELF

# Define if the kernel stack will auto grow (handled by kernel).
# Defaults to 0, meaning no. If greater than 0, the bootloader will only alloc specified number of 4KiB pages.
kernel_stack_auto_grow=8

# Whether to load apps in bootloader.
load_apps=1

# Log Level
log_level=debug
".

(** The configuration of the repository.  [boot.conf] parses to a stack of
    2^20 pages that ends at 0xffffff0200000000, of which the last eight are to be
    mapped, the direct map at 0xffff800000000000, and applications loaded. *)
Theorem parse_boot_conf :
  parse (as_bytes boot_conf) = Done (mkConfig 0xFFFFFF0100000000 1048576 0xFFFF800000000000 8
    (chars "\KERNEL.ELF") None [] true (chars "debug")).
Proof. vm_compute. reflexivity. Qed.

(** A configuration file may stop the boot loader.  [process] cuts two bytes
    off every value before it looks at the key, so a value whose third byte is
    inside a character panics, whatever the key: the command line [a]
    followed by a letter with an accent cannot be given. *)
Theorem parse_multibyte :
  (∀ key v c, 2 < str_len v → slice_from 2 v = None → process key v c = Panic) ∧
  parse (as_bytes (chars "cmdline=a" ++ [233])) = Panic.
Proof.
  split; [|vm_compute; reflexivity]. intros key v c Hl Hs. unfold process.
  rewrite (proj2 (Z.ltb_lt _ _) Hl), Hs. reflexivity.
Qed.
