(* ===== verification/Boot.v ===== *)
(** The boot loader: [pkg/boot/src/main.rs], [fs.rs], [allocator.rs] and the
    [BootInfo] of [lib.rs].

    UEFI's services and the ELF parser are not part of the repository: they are
    the class [BootServices].  [efi_main] runs in the machine of the loader
    library ([Elf.Machine]), with the boot services as the frame allocator.  The
    log, the control registers' bits and the jump itself are left out: the
    result is what the kernel is handed. *)
From S2P Require Import Prelude Arch Frames Elf ElfLoad ElfBoot Text Config.
From S2P Require Stack.
From stdpp Require Import strings.
#[local] Open Scope Z_scope.

(** ** What is not in the repository *)

(** A file of the EFI partition. *)
Record RegularFile : Type := mkFile { contents : list Z }.
Definition file_len (f : RegularFile) : Z := Z.of_nat (length (contents f)).

(** An entry of a directory, and what opening it gives. *)
Inductive Opened : Type := OpenFailed | Directory | Regular (f : RegularFile).
Record DirEntry : Type := mkEntry { file_name : str; entry_file : Opened }.

Class BootServices (B : Type) := {
  (** [allocate_pages(AnyPages, LOADER_DATA, n)] *)
  bs_allocate_pages : Z → B → option (Z * B);
  bs_free_pages : Z → Z → B → option B;
  (** the regular file at a path that fits [n] units of UTF-16 *)
  bs_open : str → Z → B → option RegularFile;
  (** the entries of the directory [\APP\] *)
  bs_read_dir : B → option (list DirEntry);
  bs_memory_map : B → option (list MemoryDescriptor);
  (** the memory map that [exit_boot_services] gives *)
  bs_exit : B → list MemoryDescriptor;
  (** [xmas_elf::ElfFile::new] *)
  ElfFile_new : list Z → option ElfFile;
}.

(** ** [lib.rs]: what the kernel is handed *)

Record App : Type := mkApp { name : str; elf : ElfFile }.

Record BootInfo : Type := mkBootInfo {
  memory_map : list MemoryDescriptor;
  physical_memory_offset : Z;
  loaded_apps : option (list App);
  log_level : str;
  kernel_pages : list (Z * Z);
}.

(** Where the kernel starts: its entry point and its stack pointer. *)
Record Handover : Type := mkHandover { bootinfo : BootInfo; entry : Z; stacktop : Z }.

(** Collecting into an [ArrayVec] of a capacity panics when there are more. *)
Definition collect {S A} (capacity : nat) (l : list A) : M S (list A) :=
  if (length l <=? capacity)%nat then mret l else panic.

Section Boot.
Context `{Profile} `{X86_64} `{X86_64_Frames} {PT B : Type} `{Mapper PT} `{HugeMapper PT} `{BootServices B}.

(** ** [allocator.rs] *)

Definition allocate_frame (b : B) : outcome (option Z * B) :=
  match bs_allocate_pages 1 b with
  | Some (addr, b) =>
      match PhysAddr_new addr with
      | Some addr => Done (Some (PhysFrame_containing_address addr), b)
      | None => Panic
      end
  | None => Panic
  end.

#[export] Instance UEFIFrameAllocator : FrameAllocator B := allocate_frame.

#[local] Abbreviation St := (Machine PT B).

Definition on_bs {A} (m : M B A) : M St A :=
  zoom falloc (λ b s, mkMachine (tables s) b (mem s)) m.

(** ** [fs.rs] *)

Definition open_file (path : str) : M B RegularFile :=
  b ← get; unwrap (bs_open path 64 b).

(** The answer is the buffer: its address and its bytes, which are kept here and
    not in the machine's memory. *)
Definition load_file (f : RegularFile) : M B (Z * list Z) :=
  let pages := file_len f / 0x1000 + 1 in
  b ← get;
  '(mem_start, b) ← unwrap (bs_allocate_pages pages b);
  put b;;
  (* [read] fills the buffer as far as the file goes *)
  let bytes := take (Z.to_nat (pages * 0x1000)) (contents f) in
  mret (mem_start, bytes).

(** The loop over the directory; [ArrayString<16>] and [ArrayVec<App, 16>] have
    room for 16 bytes and 16 applications. *)
Fixpoint load_apps_loop (entries : list DirEntry) (apps : list App) : M B (list App) :=
  match entries with
  | [] => mret apps
  | info :: entries =>
      c ← unwrap (head (file_name info));
      if c =? 46 then load_apps_loop entries apps
      else
        match entry_file info with
        | OpenFailed => panic
        | Directory => load_apps_loop entries apps
        | Regular f =>
            '(_, buf) ← load_file f;
            elf ← unwrap (ElfFile_new buf);
            if 16 <? str_len (file_name info) then panic
            else if (length apps <? 16)%nat then load_apps_loop entries (apps ++ [mkApp (file_name info) elf])
            else panic
        end
  end.

Definition load_apps : M B (list App) :=
  b ← get;
  entries ← unwrap (bs_read_dir b);
  load_apps_loop entries [].

Definition free_elf (buffer : Z * list Z) : M B () :=
  let pages := Z.of_nat (length buffer.2) / 0x1000 + 1 in
  b ← get;
  b ← unwrap (bs_free_pages buffer.1 pages b);
  put b.

(** ** [main.rs] *)

Definition CONFIG_PATH : str := chars "\EFI\BOOT\boot.conf".

Definition load_config : M B Config :=
  file ← open_file CONFIG_PATH;
  '(_, buf) ← load_file file;
  match parse buf with
  | Done c => mret c
  | _ => panic
  end.

(** The end of physical memory, and of the I/O APIC's registers. *)
Fixpoint max_end {S} (mmap : list MemoryDescriptor) : M S (option Z) :=
  match mmap with
  | [] => mret None
  | m :: mmap =>
      n ← word_op 64 (Frames.page_count m * 0x1000);
      e ← word_op 64 (phys_start m + n);
      r ← max_end mmap;
      mret (Some (match r with Some x => Z.max e x | None => e end))
  end.

Definition max_phys_addr (mmap : list MemoryDescriptor) : M St Z :=
  m ← max_end mmap;
  m ← unwrap m;
  mret (Z.max m 0x100000000).

(** First address and number of pages of the stack that is mapped. *)
Definition init_stack {S} (config : Config) : M S (Z * Z) :=
  if 0 <? kernel_stack_auto_grow config then
    n ← word_op 64 (kernel_stack_size config - kernel_stack_auto_grow config);
    n ← word_op 64 (n * 0x1000);
    stack_start ← word_op 64 (kernel_stack_address config + n);
    mret (stack_start, kernel_stack_auto_grow config)
  else mret (kernel_stack_address config, kernel_stack_size config).

Definition stack_top {S} (config : Config) : M S Z :=
  n ← word_op 64 (kernel_stack_size config * 0x1000);
  a ← word_op 64 (kernel_stack_address config + n);
  word_op 64 (a - 8).

(** [expect] on a [Result] *)
Definition expect {S A E} (r : result A E) : M S A :=
  match r with Ok a => mret a | Err _ => panic end.

Definition efi_main (root : Z) : M St Handover :=
  config ← on_bs load_config;
  file ← on_bs (open_file (kernel_path config));
  buf ← on_bs (load_file file);
  elf ← unwrap (ElfFile_new buf.2);
  apps ← (if Config.load_apps config then apps ← on_bs load_apps; mret (Some apps) else mret None);
  s ← get;
  mmap ← unwrap (bs_memory_map (falloc s));
  max_addr ← max_phys_addr mmap;
  map_physical_memory (Config.physical_memory_offset config) max_addr root;;
  r ← load_elf elf (Config.physical_memory_offset config) root false;
  pages ← expect r;
  '(stack_start, stack_size) ← init_stack config;
  r ← map_pages stack_start stack_size root false;
  _ ← expect r;
  on_bs (free_elf buf);;
  s ← get;
  kernel_pages ← collect 8 pages;
  memory_map ← collect 256 (bs_exit (falloc s));
  top ← stack_top config;
  mret (mkHandover
    (mkBootInfo memory_map (Config.physical_memory_offset config) apps (Config.log_level config) kernel_pages)
    (entry_point elf) top).

End Boot.

(** * Facts *)

(** The [x86_64] crate in the upper half. *)
Class X86_64_Upper_Laws (X : X86_64) : Prop := {
  Page_add_upper p n : aligned p → 2 ^ 64 - 2 ^ 47 ≤ p → 0 ≤ n → p + n * PAGE < 2 ^ 64 →
    Page_add p n = Some (p + n * PAGE);
  Page_sub_upper p n : aligned p → p < 2 ^ 64 → 0 ≤ n → 2 ^ 64 - 2 ^ 47 ≤ p - n * PAGE →
    Page_sub p n = Some (p - n * PAGE);
  Page_range_inclusive_upper s e : aligned s → aligned e → 2 ^ 64 - 2 ^ 47 ≤ s → s ≤ e → e < 2 ^ 64 - PAGE →
    Page_range_inclusive s e = pages_between s (e + PAGE);
}.

#[export] Instance x86_ref_upper : X86_64_Upper_Laws x86_ref.
Proof.
  split; cbn -[Z.pow wrap in_word]; unfold PAGE; intros; try done.
  - rewrite wrap_small by lia. unfold checked. rewrite canonicalb_true; [done|right; lia].
  - rewrite wrap_small by lia. unfold checked. rewrite canonicalb_true; [done|right; lia].
Qed.

Section BootFacts.
Context `{Profile} `{!X86_64} `{!X86_64_Laws _} `{!X86_64_Upper_Laws _} `{!X86_64_Frames}.
Context {PT B : Type} `{!Mapper PT} `{!HugeMapper PT} `{!BootServices B}.
Context (mapping : PT → Z → Z → option (Z * Z)) `{!Mapper_Laws PT mapping}.
#[local] Abbreviation St := (Machine PT B).

(** Where the stack may lie. *)
Definition upper_range (addr pages : Z) : Prop :=
  aligned addr ∧ 2 ^ 64 - 2 ^ 47 ≤ addr ∧ 0 < pages ∧ addr + pages * PAGE < 2 ^ 64 - PAGE.

Lemma map_pages_upper addr pages root (s : St) r s' :
  upper_range addr pages → map_pages addr pages root false s = Done (Ok r, s') →
  r = (addr, addr + pages * PAGE) ∧ mem s' = mem s ∧
  ∃ fs, mapped_exactly mapping root (map_flags false) (pages_between addr (addr + pages * PAGE)) fs
          (tables s) (tables s').
Proof.
  intros (Hal & Hlo & Hp & Hhi) Hm. unfold map_pages, map_range in Hm.
  assert (Hc : canonical addr) by (right; unfold PAGE in *; lia).
  apply bind_Done in Hm as ([] & s1 & [-> _]%debug_assert_Done & Hm).
  rewrite VirtAddr_new_canonical in Hm by done. rewrite (bind_step _ _ s addr s) in Hm by done.
  cbv zeta in Hm. rewrite Page_containing_address_eq in Hm by done.
  rewrite Hal, Z.sub_0_r in Hm.
  rewrite Page_add_upper in Hm by (unfold PAGE in *; done || lia).
  rewrite (bind_step _ _ s (addr + pages * PAGE) s) in Hm by done.
  assert (Hal' : aligned (addr + pages * PAGE)) by by apply aligned_add.
  rewrite Page_sub_upper in Hm by (unfold PAGE in *; done || lia).
  rewrite (bind_step _ _ s (addr + pages * PAGE - 1 * PAGE) s) in Hm by done.
  rewrite Page_range_inclusive_upper in Hm; [|done| |lia|unfold PAGE in *; lia..].
  2: { replace (addr + pages * PAGE - 1 * PAGE) with (addr + (pages - 1) * PAGE) by lia. by apply aligned_add. }
  replace (addr + pages * PAGE - 1 * PAGE + PAGE) with (addr + pages * PAGE) in Hm by lia.
  apply bind_Done in Hm as (r' & s1 & Hl & Hm).
  apply (map_loop_Done mapping) in Hl as (Hme & _ & Hr'); [|apply pages_between_NoDup].
  destruct r' as [[]|e]; inv_done; done.
Qed.

(** The buffer holds the whole file. *)
Lemma load_file_Done f (b : B) buf b' :
  load_file f b = Done (buf, b') →
  buf.2 = contents f ∧ bs_allocate_pages (file_len f / 0x1000 + 1) b = Some (buf.1, b').
Proof.
  unfold load_file. intros Hl. inv_done. case_match. inv_done. split; [|done].
  apply take_ge. unfold file_len. Z.div_mod_to_equations. lia.
Qed.

(** What [load_file] allocates, [free_elf] gives back: the same address and the
    same number of pages. *)
Lemma free_elf_load_file f (b b1 b2 : B) buf :
  load_file f b = Done (buf, b1) →
  ∃ n addr, bs_allocate_pages n b = Some (addr, b1) ∧
    free_elf buf b2 = match bs_free_pages addr n b2 with Some b3 => Done ((), b3) | None => Panic end.
Proof.
  intros [Hc Ha]%load_file_Done. exists (file_len f / 0x1000 + 1), buf.1. split; [done|].
  unfold free_elf, get, file_len. rewrite (bind_step _ _ b2 b2 b2), Hc by done.
  by destruct (bs_free_pages _ _ b2).
Qed.

(** An application's name, as the kernel's list has it. *)
Definition app_ok (a : App) : Prop := str_len (name a) ≤ 16 ∧ ∀ c, head (name a) = Some c → c ≠ 46.

Lemma load_apps_loop_Done entries apps (b : B) apps' b' :
  load_apps_loop entries apps b = Done (apps', b') →
  (length apps ≤ 16)%nat → Forall app_ok apps → (length apps' ≤ 16)%nat ∧ Forall app_ok apps'.
Proof.
  revert apps b. induction entries as [|[nm ef] entries IH]; intros apps b Hl H16 Hok; simpl in Hl.
  { by inv_done. }
  apply bind_Done in Hl as (c & b1 & [Hc <-]%unwrap_Done & Hl).
  destruct (Z.eqb_spec c 46) as [->|Hne]; [by eapply IH|].
  destruct ef as [| |f]; [by inv_done|by eapply IH|].
  apply bind_Done in Hl as ([a buf] & b2 & _ & Hl). apply bind_Done in Hl as (e & b3 & _ & Hl).
  destruct (Z.ltb_spec 16 (str_len nm)); [by inv_done|].
  destruct (Nat.ltb_spec (length apps) 16); [|by inv_done].
  eapply IH; [done|rewrite length_app; simpl; lia|].
  apply Forall_app. split; [done|]. constructor; [|done]. split; [done|]. simpl. congruence.
Qed.

Definition stack_pages (c : Config) : Z * Z :=
  if 0 <? kernel_stack_auto_grow c
  then (kernel_stack_address c + (kernel_stack_size c - kernel_stack_auto_grow c) * PAGE, kernel_stack_auto_grow c)
  else (kernel_stack_address c, kernel_stack_size c).

(** A configuration whose stack lies in the upper half. *)
Definition stack_ok (c : Config) : Prop :=
  upper_range (kernel_stack_address c) (kernel_stack_size c) ∧
  kernel_stack_auto_grow c ≤ kernel_stack_size c.

Lemma init_stack_Done {S} c (s : S) : stack_ok c →
  init_stack c s = Done (stack_pages c, s) ∧
  stack_top c s = Done (kernel_stack_address c + kernel_stack_size c * PAGE - 8, s) ∧
  upper_range (stack_pages c).1 (stack_pages c).2 ∧
  (stack_pages c).1 + (stack_pages c).2 * PAGE = kernel_stack_address c + kernel_stack_size c * PAGE.
Proof.
  intros [(Hal & Hlo & Hp & Hhi) Hg]. unfold init_stack, stack_pages, stack_top, PAGE in *.
  rewrite (bind_step _ _ _ _ _ (word_op_exact 64 (kernel_stack_size c * 4096) s ltac:(lia))).
  rewrite (bind_step _ _ _ _ _ (word_op_exact 64 (kernel_stack_address c + kernel_stack_size c * 4096) s ltac:(lia))).
  rewrite (word_op_exact 64 (kernel_stack_address c + kernel_stack_size c * 4096 - 8) s ltac:(lia)).
  destruct (Z.ltb_spec 0 (kernel_stack_auto_grow c)); simpl.
  - rewrite (bind_step _ _ _ _ _ (word_op_exact 64 (kernel_stack_size c - kernel_stack_auto_grow c) s ltac:(lia))).
    rewrite (bind_step _ _ _ _ _ (word_op_exact 64 ((kernel_stack_size c - kernel_stack_auto_grow c) * 4096) s ltac:(lia))).
    rewrite (bind_step _ _ _ _ _ (word_op_exact 64 (kernel_stack_address c +
      (kernel_stack_size c - kernel_stack_auto_grow c) * 4096) s ltac:(lia))).
    split_and!; [done|done| |lia]. unfold upper_range, PAGE.
    split_and!; [exact (aligned_add _ (kernel_stack_size c - kernel_stack_auto_grow c) Hal)|lia..].
  - done.
Qed.

Lemma load_config_Done (b : B) c b' config file :
  bs_open CONFIG_PATH 64 b = Some file → parse (contents file) = Done config →
  load_config b = Done (c, b') → c = config.
Proof.
  intros Hf Hp Hc. unfold load_config, open_file in Hc.
  apply bind_Done in Hc as (f & b2 & Hf' & Hc). apply bind_Done in Hf' as (b3 & b4 & [= <- <-] & Hf').
  apply unwrap_Done in Hf' as [Hf' <-]. rewrite Hf in Hf'. injection Hf' as <-.
  apply bind_Done in Hc as ([a buf] & b5 & [Hbuf _]%load_file_Done & Hc). simpl in Hbuf. subst buf.
  rewrite Hp in Hc. by inv_done.
Qed.

(** C31: What the kernel is handed.  If the boot loader gets through, with a stack
    in the upper half: the entry point is that of the file the configuration names;
    the pages of the stack that are to be mapped, and they end where the stack
    ends, were unmapped and are now mapped one to one to new frames, writable
    and not for the user; the stack pointer is eight bytes below their end; the direct
    map's offset and the log level are those of the configuration, applications are
    there exactly if it asks for them, and the fixed-size lists hold everything. *)
Theorem efi_main_spec root (s : St) h s' config file :
  bs_open CONFIG_PATH 64 (falloc s) = Some file → parse (contents file) = Done config →
  stack_ok config → efi_main root s = Done (h, s') →
  let '(start, n) := stack_pages config in
  let stop := kernel_stack_address config + kernel_stack_size config * PAGE in
  start + n * PAGE = stop ∧ stacktop h = stop - 8 ∧
  (∃ pt fs, mapped_exactly mapping root (map_flags false) (pages_between start stop) fs pt (tables s')) ∧
  (∃ b kernel_file elf, bs_open (kernel_path config) 64 b = Some kernel_file ∧
     ElfFile_new (contents kernel_file) = Some elf ∧ entry h = entry_point elf) ∧
  physical_memory_offset (bootinfo h) = Config.physical_memory_offset config ∧
  log_level (bootinfo h) = Config.log_level config ∧
  (length (kernel_pages (bootinfo h)) ≤ 8)%nat ∧ (length (memory_map (bootinfo h)) ≤ 256)%nat ∧
  match loaded_apps (bootinfo h) with
  | Some apps => Config.load_apps config = true ∧ (length apps ≤ 16)%nat ∧ Forall app_ok apps
  | None => Config.load_apps config = false
  end.
Proof.
  intros Hf Hp Hok Hm. unfold efi_main in Hm.
  apply bind_Done in Hm as (c & s1 & (b1 & Hc & ->)%zoom_Done & Hm).
  assert (c = config) as -> by by eapply load_config_Done.
  apply bind_Done in Hm as (kf & s2 & (b2 & Hkf & ->)%zoom_Done & Hm).
  apply bind_Done in Hm as (buf & s3 & (b3 & [Hbuf _]%load_file_Done & ->)%zoom_Done & Hm).
  apply bind_Done in Hm as (elf & s4 & [Helf <-]%unwrap_Done & Hm).
  apply bind_Done in Hm as (apps & s5 & Happs & Hm).
  apply bind_Done in Hm as (s6 & s7 & _ & Hm). apply bind_Done in Hm as (mmap & s8 & _ & Hm).
  apply bind_Done in Hm as (mx & s9 & _ & Hm). apply bind_Done in Hm as (u & s10 & _ & Hm).
  apply bind_Done in Hm as (r & s11 & _ & Hm). apply bind_Done in Hm as (pages & s12 & _ & Hm).
  destruct (init_stack_Done config s12 Hok) as (Hi & _ & Hr & Hend).
  rewrite (bind_step _ _ _ _ _ Hi) in Hm. destruct (stack_pages config) as [start n]. simpl in Hr, Hend.
  apply bind_Done in Hm as (r2 & s13 & Hmap & Hm).
  apply bind_Done in Hm as (rng & s14 & He & Hm).
  destruct r2 as [rng'|]; [|by apply panic_Done in He]. apply ret_Done in He as [_ <-].
  apply map_pages_upper in Hmap as (_ & _ & fs & Hmap); [|done].
  apply bind_Done in Hm as (u2 & s15 & (b15 & _ & Hs15)%zoom_Done & Hm).
  apply bind_Done in Hm as (s16 & s17 & [-> <-]%get_Done & Hm).
  apply bind_Done in Hm as (kp & s18 & Hkp & Hm). apply bind_Done in Hm as (mm & s19 & Hmm & Hm).
  unfold collect in Hkp, Hmm.
  destruct (Nat.leb_spec (length pages) 8); [|by inv_done]. apply ret_Done in Hkp as [-> <-].
  destruct (Nat.leb_spec (length (bs_exit (falloc s16))) 256); [|by inv_done]. apply ret_Done in Hmm as [<- <-].
  destruct (init_stack_Done config s16 Hok) as (_ & Ht & _). rewrite (bind_step _ _ _ _ _ Ht) in Hm.
  apply ret_Done in Hm as [<- <-]. cbn [stacktop bootinfo entry physical_memory_offset log_level kernel_pages memory_map loaded_apps].
  split_and!; [done|done| | |done|done|done|done|].
  - exists (tables s12), fs. rewrite <- Hend, Hs15. exact Hmap.
  - apply bind_Done in Hkf as (b4 & b5 & [-> <-]%get_Done & Hkf). apply unwrap_Done in Hkf as [Hkf _].
    exists b4, kf, elf. rewrite <- Hbuf. split_and!; [exact Hkf|exact Helf|done].
  - destruct (Config.load_apps config); [|by inv_done].
    apply bind_Done in Happs as (l & s20 & (b6 & Hl & ->)%zoom_Done & Happs).
    apply ret_Done in Happs as [<- _]. split; [done|].
    unfold load_apps in Hl. apply bind_Done in Hl as (b7 & b8 & _ & Hl).
    apply bind_Done in Hl as (es & b9 & _ & Hl). eapply load_apps_loop_Done; [done|simpl; lia|done].
Qed.

(** The boot loader and the kernel agree on the kernel's stack, but for one page.
    With the repository's [boot.conf], the pages mapped are those from
    [KSTACK_INIT_BOT] on, [KSTACK_DEF_PAGE] of them, and the stack pointer is
    [KSTACK_INIT_TOP], as the kernel's constants say; but the page range of the
    kernel's [kstack], whose end is exclusive, lacks the topmost page, the one the
    stack pointer is in: seven pages, with a usage of eight. *)
Theorem kernel_stack_agrees :
  ∃ c, parse (as_bytes boot_conf) = Done c ∧ stack_ok c ∧
    stack_pages c = (Stack.KSTACK_INIT_BOT, Stack.KSTACK_DEF_PAGE) ∧
    (∀ s : St, stack_top c s = Done (Stack.KSTACK_INIT_TOP, s)) ∧
    Stack.range_start Stack.StackOps.kstack = Stack.KSTACK_INIT_BOT ∧
    Stack.usage Stack.StackOps.kstack = Stack.KSTACK_DEF_PAGE ∧
    length (pages_between (Stack.range_start Stack.StackOps.kstack) (Stack.range_end Stack.StackOps.kstack)) = 7%nat ∧
    Stack.KSTACK_INIT_TOP - Stack.KSTACK_INIT_TOP `mod` PAGE = Stack.range_end Stack.StackOps.kstack.
Proof.
  eexists. split; [vm_compute; reflexivity|].
  match goal with |- stack_ok ?c ∧ _ => set (cfg := c) end.
  assert (Hok : stack_ok cfg).
  { unfold stack_ok, upper_range, aligned, PAGE, cfg. simpl. split_and!; done || lia. }
  split; [done|]. split; [vm_compute; reflexivity|]. split.
  { intros s. destruct (init_stack_Done cfg s Hok) as (_ & Ht & _). exact Ht. }
  assert (Hb : Page_containing_address Stack.KSTACK_INIT_BOT = Stack.KSTACK_INIT_BOT).
  { rewrite Page_containing_address_eq by (right; vm_compute; split; congruence). vm_compute. reflexivity. }
  assert (Ht : Page_containing_address Stack.KSTACK_INIT_TOP = Stack.KSTACK_MAX - 4096).
  { rewrite Page_containing_address_eq by (right; vm_compute; split; congruence). vm_compute. reflexivity. }
  unfold Stack.StackOps.kstack, Stack.StackOps.KSTACK_INIT_PAGE, Stack.StackOps.KSTACK_INIT_TOP_PAGE. cbn [Stack.range_start Stack.range_end Stack.usage].
  rewrite Hb, Ht. split_and!; [done|done|vm_compute; reflexivity..].
Qed.

End BootFacts.

(** ** A run of the boot loader *)

Section BootWitness.
#[local] Existing Instance debug.
#[local] Existing Instance x86_ref.

(** Services with a list of free frames; every path but that of the configuration is
    the kernel's, and the parser accepts everything. *)
#[local] Instance services_example : BootServices (list Z) := {|
  bs_allocate_pages n b := match b with f :: b => Some (f, b) | [] => None end;
  bs_free_pages _ _ b := Some b;
  bs_open path _ _ := Some (mkFile (if decide (path = CONFIG_PATH) then as_bytes boot_conf else [1; 2; 3]));
  bs_read_dir _ := Some [mkEntry (chars ".") Directory; mkEntry (chars "hello") (Regular (mkFile [4]))];
  bs_memory_map _ := Some [mkDescriptor 7 0 0x100];
  bs_exit _ := [mkDescriptor 7 0 0x100];
  ElfFile_new _ := Some (mkElfFile (λ _, 0) [] 0xffffff0000000000);
|}.

Definition boot_machine : Machine table (list Z) := mkMachine ∅ ((λ i, i * 4096) <$> seqZ 1 32) (λ _, 0).

Lemma boot_returns : match efi_main 7 boot_machine with Done _ => true | _ => false end = true.
Proof. vm_compute. reflexivity. Qed.

Lemma boot_stack_ok c : parse (as_bytes boot_conf) = Done c → stack_ok c.
Proof.
  intros E. vm_compute in E. injection E as <-.
  unfold stack_ok, upper_range, aligned, PAGE. simpl. split_and!; done || lia.
Qed.

Lemma efi_main_spec_witness :
  ∃ h s' config, efi_main 7 boot_machine = Done (h, s') ∧
  parse (as_bytes boot_conf) = Done config ∧
  let '(start, n) := stack_pages config in
  let stop := kernel_stack_address config + kernel_stack_size config * PAGE in
  start + n * PAGE = stop ∧ stacktop h = stop - 8 ∧
  (∃ pt fs, mapped_exactly table_mapping 7 (map_flags false) (pages_between start stop) fs pt (tables s')).
Proof.
  pose proof boot_returns as Hret.
  destruct (efi_main 7 boot_machine) as [[h s']| |] eqn:E; [|discriminate Hret..]. clear Hret.
  destruct (parse (as_bytes boot_conf)) as [config| |] eqn:Ec; [|vm_compute in Ec; discriminate Ec..].
  exists h, s', config. split; [reflexivity|]. split; [reflexivity|].
  pose proof (efi_main_spec table_mapping 7 boot_machine h s' config (mkFile (as_bytes boot_conf))
    eq_refl Ec (boot_stack_ok config Ec) E) as Hs.
  destruct (stack_pages config) as [start n]. destruct Hs as (H1 & H2 & H3 & _). auto.
Defined.

End BootWitness.
