(* ===== verification/UserLib.v ===== *)
(** The user library [pkg/lib]: the system calls as user programs make them
    ([syscall.rs], on the macros of [pkg/syscall]), and line input ([io.rs]).

    The wrappers are split at the [int 0x80]: the registers they enter the
    kernel with, and what they make of the [rax] they get back.  The theorems
    meet the kernel's side in [Syscall]: every wrapper reaches its operation
    with its arguments, and results come back as they were meant. *)
From S2P Require Import Prelude Arch Pid Sync Frames Elf Stack Heap Vm Context Resource Data Process Manager Syscall Text.
From stdpp Require Import strings.
#[local] Open Scope Z_scope.

(** * Making a call: [pkg/syscall/src/macros.rs] *)

(** The registers at the [int 0x80]; those that are not inputs keep what is in
    them. *)
Definition syscall0 (n : Syscall.t) (r : RegistersValue) : RegistersValue :=
  Handler.set_rax (Syscall.number n) r.
Definition syscall1 (n : Syscall.t) (a0 : Z) (r : RegistersValue) : RegistersValue :=
  Handler.set_rdi a0 (syscall0 n r).
Definition syscall2 (n : Syscall.t) (a0 a1 : Z) (r : RegistersValue) : RegistersValue :=
  Handler.set_rsi a1 (syscall1 n a0 r).
Definition syscall3 (n : Syscall.t) (a0 a1 a2 : Z) (r : RegistersValue) : RegistersValue :=
  Handler.set_rdx a2 (syscall2 n a0 a1 r).

(** * The wrappers: [pkg/lib/src/syscall.rs] *)

Module User.

(** [as isize], and [None] if negative *)
Definition count_of (ret : Z) : option Z :=
  let ret := as_isize ret in if ret <? 0 then None else Some ret.

Definition sys_write (fd ptr len : Z) := syscall3 Syscall.Write fd ptr len.
Definition sys_read (fd ptr len : Z) := syscall3 Syscall.Read fd ptr len.
Definition sys_allocate (layout : Z) := syscall1 Syscall.Allocate layout.
Definition sys_list_app := syscall0 Syscall.ListApp.
Definition sys_deallocate (ptr layout : Z) := syscall2 Syscall.Deallocate ptr layout.
Definition sys_exit (code : Z) := syscall1 Syscall.Exit code.
Definition sys_wait_pid (pid : Z) := syscall1 Syscall.WaitPid pid.
Definition wait_pid_of (ret : Z) : Z := as_isize ret.
Definition sys_time := syscall0 Syscall.Time.

(** The seconds and nanoseconds that [DateTime::from_timestamp] is given. *)
Definition time_of (ret : Z) : Z * Z :=
  let time := as_isize ret in
  (Z.quot time 1000000000, wrap 32 (Z.rem time 1000000000)).

Definition sys_stat := syscall0 Syscall.Stat.
Definition sys_spawn (ptr len : Z) := syscall2 Syscall.Spawn ptr len.
Definition sys_get_pid := syscall0 Syscall.GetPid.
Definition sys_kill (pid : Z) := syscall1 Syscall.Kill pid.
Definition sys_fork := syscall0 Syscall.Fork.

(** [as u16], of [sys_spawn], [sys_get_pid] and [sys_fork] *)
Definition pid_of (ret : Z) : Z := wrap 16 ret.

Definition sys_new_sem (key val : Z) := syscall3 Syscall.Sem 0 key val.
Definition sys_del_sem (key : Z) := syscall3 Syscall.Sem 1 key 0.
Definition sys_signal_sem (key : Z) := syscall2 Syscall.Sem 2 key.
Definition sys_wait_sem (key : Z) := syscall2 Syscall.Sem 3 key.

(** [== 0], of [sys_new_sem] and [sys_del_sem] *)
Definition sem_of (ret : Z) : bool := ret =? 0.

Definition sys_brk (a : option Z) := syscall1 Syscall.Brk (default 0 a).
Definition brk_of (ret : Z) : option Z := if ret =? u64_max then None else Some ret.

End User.

(** * Line input: [pkg/lib/src/io.rs] *)

Module Stdin.

(** What the program sees of the kernel: the answers of [sys_read] that are still
    to come (the bytes read, or [None]), and the bytes written, each call's
    at the end. *)
Record world : Type := mkWorld { answers : list (option (list Z)); written : list Z }.

Definition sys_read : M world (option (list Z)) :=
  s ← get;
  match answers s with
  | a :: rest => put (mkWorld rest (written s));; mret a
  | [] => out_of_fuel   (* waits for input *)
  end.

Definition sys_write (bytes : list Z) : M world () :=
  modify (λ s, mkWorld (answers s) (written s ++ bytes)).

(** [line.pop()] *)
Definition pop (line : str) : str := reverse (tail (reverse line)).

(** The loop over the bytes that were read; [Some] is the [return]. *)
Fixpoint handle_bytes (line : str) (bytes : list Z) : M world (str * bool) :=
  match bytes with
  | [] => mret (line, false)
  | c :: bytes =>
      if c =? 13 then sys_write [10];; mret (line, true)
      else if (c =? 0x08) || (c =? 0x7f) then
        sys_write [0x08; 0x20; 0x08];; handle_bytes (pop line) bytes
      else sys_write [c];; handle_bytes (line ++ [c]) bytes
  end.

(** The [loop]: it ends with a line, or waits. *)
Fixpoint read_line_loop (fuel : nat) (line : str) : M world str :=
  match fuel with
  | O => out_of_fuel
  | S fuel =>
      ret ← sys_read;
      match ret with
      | None => read_line_loop fuel line
      | Some bytes =>
          '(line, done) ← handle_bytes line bytes;
          if done : bool then mret line else read_line_loop fuel line
      end
  end.

(** Every round takes an answer. *)
Definition read_line : M world str :=
  s ← get; read_line_loop (S (length (answers s))) [].

(** ** The reference: editing a line *)

Definition edit1 (line : str) (c : Z) : str :=
  if (c =? 0x08) || (c =? 0x7f) then pop line else line ++ [c].
Definition edit (line : str) (keys : list Z) : str := foldl edit1 line keys.

Definition echo (keys : list Z) : list Z :=
  keys ≫= λ c, if (c =? 0x08) || (c =? 0x7f) then [0x08; 0x20; 0x08] else [c].

Lemma handle_bytes_none line bytes s :
  13 ∉ bytes → handle_bytes line bytes s =
    Done ((edit line bytes, false), mkWorld (answers s) (written s ++ echo bytes)).
Proof.
  revert line s. induction bytes as [|c bytes IH]; intros line s Hn.
  { unfold echo. simpl. rewrite app_nil_r. by destruct s. }
  apply not_elem_of_cons in Hn as [Hc Hn]. cbn [handle_bytes].
  rewrite (proj2 (Z.eqb_neq _ _)) by done. unfold echo, edit in *. rewrite bind_cons. cbn [foldl].
  unfold edit1 at 2. destruct ((c =? 8) || (c =? 127)); unfold sys_write;
    rewrite (bind_step _ _ s () _ eq_refl), IH by done; simpl; by rewrite <- (assoc_L (++)).
Qed.

Lemma handle_bytes_return line b1 b2 s :
  13 ∉ b1 → handle_bytes line (b1 ++ 13 :: b2) s =
    Done ((edit line b1, true), mkWorld (answers s) (written s ++ echo b1 ++ [10])).
Proof.
  revert line s. induction b1 as [|c b1 IH]; intros line s Hn; [done|].
  apply not_elem_of_cons in Hn as [Hc Hn]. cbn [handle_bytes app].
  rewrite (proj2 (Z.eqb_neq _ _)) by done. unfold echo, edit in *. rewrite bind_cons. cbn [foldl].
  unfold edit1 at 2. destruct ((c =? 8) || (c =? 127)); unfold sys_write;
    rewrite (bind_step _ _ s () _ eq_refl), IH by done; simpl; by rewrite <- !(assoc_L (++)).
Qed.

Lemma sys_read_next a l w : sys_read (mkWorld (a :: l) w) = Done (a, mkWorld l w).
Proof. done. Qed.

(** The bytes of a list of answers. *)
Definition read_bytes (l : list (option (list Z))) : list Z := l ≫= default [].

Lemma read_line_loop_edits before after b1 b2 out line fuel :
  13 ∉ read_bytes before → 13 ∉ b1 → Nat.lt (length before) fuel →
  read_line_loop fuel line (mkWorld (before ++ Some (b1 ++ 13 :: b2) :: after) out) =
  Done (edit line (read_bytes before ++ b1),
        mkWorld after (out ++ echo (read_bytes before ++ b1) ++ [10])).
Proof.
  intros Hb H1. revert line out fuel. induction before as [|a before IH]; intros line out fuel Hfuel;
    (destruct fuel as [|fuel]; [simpl in Hfuel; lia|]); cbn [read_line_loop app];
    rewrite (bind_step _ _ _ _ _ (sys_read_next _ _ _)).
  - by rewrite (bind_step _ _ _ _ _ (handle_bytes_return _ _ _ _ H1)).
  - unfold read_bytes in Hb. rewrite bind_cons, not_elem_of_app in Hb. destruct Hb as [Ha Hb].
    simpl in Hfuel. unfold read_bytes. rewrite bind_cons. destruct a as [bytes|]; cbn [default from_option] in *; unfold id in *.
    + rewrite (bind_step _ _ _ _ _ (handle_bytes_none _ _ _ Ha)). cbn [answers written].
      rewrite IH by (done || lia). unfold edit, echo, read_bytes. rewrite !foldl_app, !bind_app.
      by rewrite <- !(assoc_L (++)).
    + rewrite IH by (done || lia). done.
Qed.

(** C33: [read_line] is the editing of what is typed up to the first carriage
    return, however the kernel cuts the input into answers and however often it
    has none: it always ends when there is a carriage return, gives the line edited with
    the backspaces, and echoes every key; what the answer that holds the
    carriage return has after it is lost (the kernel gives one byte at a time),
    and the answers after it are left for the next line. *)
Theorem read_line_edits (before after : list (option (list Z))) (b1 b2 : list Z) (out : list Z) :
  13 ∉ read_bytes before → 13 ∉ b1 →
  read_line (mkWorld (before ++ Some (b1 ++ 13 :: b2) :: after) out) =
  Done (edit [] (read_bytes before ++ b1),
        mkWorld after (out ++ echo (read_bytes before ++ b1) ++ [10])).
Proof.
  intros Hb H1. unfold read_line. rewrite (bind_step _ _ _ _ _ eq_refl). cbn [answers].
  apply read_line_loop_edits; [done..|]. rewrite length_app. lia.
Qed.

Lemma read_line_edits_witness :
  read_line (mkWorld [Some [104]; None; Some []; Some [120]; Some [8]; Some [105; 13]; Some [33]] [62]) =
  Done ([104; 105], mkWorld [Some [33]] [62; 104; 120; 8; 32; 8; 105; 10]).
Proof.
  apply (read_line_edits [Some [104]; None; Some []; Some [120]; Some [8]] [Some [33]] [105] [] [62]).
  - intros Hin%list_elem_of_In. vm_compute in Hin. intuition discriminate.
  - intros Hin%list_elem_of_In. vm_compute in Hin. intuition discriminate.
Defined.

End Stdin.

(** * The two sides of the interrupt *)

Section Wrappers.
Context `{Profile} `{X86_64} {PT Q UA : Type} `{Mapper PT} `{ArrayQueue Q} `{UserAllocator UA}.
Context (PHYSICAL_OFFSET : option Z) (cpuid : nat) (selector : Z * Z) (clock_nanos : Z).
Context (Layout_of : list Z → Z * Z).
#[local] Abbreviation St := (Kernel PT Q * UA)%type.
#[local] Abbreviation dispatcher :=
  (dispatcher (PT := PT) (Q := Q) (UA := UA) PHYSICAL_OFFSET cpuid selector clock_nanos Layout_of).

(** The interrupted process with the registers of a call. *)
Definition enter (f : RegistersValue → RegistersValue) (ctx : ProcessContext) : ProcessContext :=
  mkContext (mkValue (f (regs (value ctx))) (stack_frame (value ctx))).

Lemma from_call_number n : Syscall.from (Syscall.number n) = n.
Proof. by destruct n. Qed.

(** The arguments arrive; those that are not set are what the registers hold. *)
Lemma args3 ctx n a0 a1 a2 : args_of (enter (syscall3 n a0 a1 a2) ctx) = mkArgs n a0 a1 a2.
Proof. unfold args_of. simpl. by rewrite from_call_number. Qed.
Lemma args2 ctx n a0 a1 :
  args_of (enter (syscall2 n a0 a1) ctx) = mkArgs n a0 a1 (rdx (regs (value ctx))).
Proof. unfold args_of. simpl. by rewrite from_call_number. Qed.
Lemma args1 ctx n a0 :
  args_of (enter (syscall1 n a0) ctx) = mkArgs n a0 (rsi (regs (value ctx))) (rdx (regs (value ctx))).
Proof. unfold args_of. simpl. by rewrite from_call_number. Qed.
Lemma args0 ctx n :
  args_of (enter (syscall0 n) ctx) =
  mkArgs n (rdi (regs (value ctx))) (rsi (regs (value ctx))) (rdx (regs (value ctx))).
Proof. unfold args_of. simpl. by rewrite from_call_number. Qed.

(** C32: Every wrapper of the user library reaches the kernel's operation of its
    name, all eighteen, with the arguments it was given, in a process that does not otherwise
    change: what [pid as u64] and the like widen, the kernel's [as u16], [as u32],
    [as u8] cut back to the same number; [sys_brk(None)] asks for the end of the
    heap, and so does [sys_brk(Some(0))]. *)
Theorem wrappers_reach ctx (s : St) :
  (∀ pid, 0 ≤ pid < 2 ^ 16 →
     dispatcher (enter (User.sys_wait_pid pid) ctx) s =
       on_kernel (wait_pid cpuid pid (enter (User.sys_wait_pid pid) ctx)) s ∧
     dispatcher (enter (User.sys_kill pid) ctx) s =
       (if pid =? 1 then mret (enter (User.sys_kill pid) ctx)
        else on_kernel (kill PHYSICAL_OFFSET cpuid pid (enter (User.sys_kill pid) ctx))) s) ∧
  (∀ key, 0 ≤ key < 2 ^ 32 →
     (∀ val, let c := enter (User.sys_new_sem key val) ctx in
        dispatcher c s = (r ← on_kernel (new_sem cpuid key val); mret (Context.set_rax r c)) s) ∧
     (let c := enter (User.sys_del_sem key) ctx in
        dispatcher c s = (r ← on_kernel (remove_sem cpuid key); mret (Context.set_rax r c)) s) ∧
     (let c := enter (User.sys_signal_sem key) ctx in
        dispatcher c s = on_kernel (sem_signal cpuid key c) s) ∧
     (let c := enter (User.sys_wait_sem key) ctx in
        dispatcher c s = on_kernel (sem_wait cpuid key c) s)) ∧
  (∀ fd ptr len, 0 ≤ fd < 2 ^ 8 →
     wrap 8 (arg0 (args_of (enter (User.sys_read fd ptr len) ctx))) = fd ∧
     (let c := enter (User.sys_read fd ptr len) ctx in
        dispatcher c s = (r ← sys_read PHYSICAL_OFFSET cpuid (mkArgs Syscall.Read fd ptr len); mret (Context.set_rax r c)) s) ∧
     (let c := enter (User.sys_write fd ptr len) ctx in
        dispatcher c s = (r ← sys_write PHYSICAL_OFFSET cpuid (mkArgs Syscall.Write fd ptr len); mret (Context.set_rax r c)) s)) ∧
  (∀ code, dispatcher (enter (User.sys_exit code) ctx) s =
     on_kernel (process_exit PHYSICAL_OFFSET cpuid (as_isize code) (enter (User.sys_exit code) ctx)) s) ∧
  (∀ a, let c := enter (User.sys_brk a) ctx in
     dispatcher c s =
       (r ← on_kernel (brk PHYSICAL_OFFSET cpuid (if decide (a = Some 0) then None else a));
        mret (Context.set_rax r c)) s) ∧
  (let c := enter User.sys_fork ctx in dispatcher c s = on_kernel (fork PHYSICAL_OFFSET cpuid c) s) ∧
  (∀ ptr len, let c := enter (User.sys_spawn ptr len) ctx in
     dispatcher c s =
       (name ← read_slice PHYSICAL_OFFSET ptr len;
        r ← on_kernel (spawn PHYSICAL_OFFSET cpuid selector (string_of_bytes name));
        mret (Context.set_rax (match r with Ok pid => pid | Err _ => 0 end) c)) s) ∧
  (let c := enter User.sys_get_pid ctx in
     dispatcher c s = (r ← on_kernel (current_pid cpuid); mret (Context.set_rax r c)) s) ∧
  (let c := enter User.sys_time ctx in dispatcher c s = Done (Context.set_rax (as_usize clock_nanos) c, s)) ∧
  (let c := enter User.sys_stat ctx in dispatcher c s = (list_process;; mret c) s) ∧
  (let c := enter User.sys_list_app ctx in dispatcher c s = (list_app;; mret c) s) ∧
  (∀ layout, let c := enter (User.sys_allocate layout) ctx in
     dispatcher c s = (r ← sys_allocate PHYSICAL_OFFSET Layout_of
         (mkArgs Syscall.Allocate layout (rsi (regs (value ctx))) (rdx (regs (value ctx))));
       mret (Context.set_rax r c)) s) ∧
  (∀ ptr layout, let c := enter (User.sys_deallocate ptr layout) ctx in
     dispatcher c s = (sys_deallocate PHYSICAL_OFFSET Layout_of
         (mkArgs Syscall.Deallocate ptr layout (rdx (regs (value ctx))));; mret c) s).
Proof.
  split_and!; intros; cbv zeta; try split_and!; intros;
    repeat match goal with c := _ : ProcessContext |- _ => subst c end;
    unfold User.sys_wait_pid, User.sys_kill, User.sys_new_sem, User.sys_del_sem,
      User.sys_signal_sem, User.sys_wait_sem, User.sys_read, User.sys_write, User.sys_exit,
      User.sys_brk, User.sys_fork, User.sys_spawn, User.sys_get_pid, User.sys_time, User.sys_stat, User.sys_list_app,
      User.sys_allocate, User.sys_deallocate, Syscall.dispatcher;
    first [rewrite args3|rewrite args2|rewrite args1|rewrite args0];
    cbv zeta; cbn [Syscall.syscall arg0 arg1 arg2];
    unfold Syscall.sys_wait_pid, Syscall.sys_kill, Syscall.sys_sem, Syscall.exit_process, Syscall.sys_brk;
    cbn [Syscall.syscall arg0 arg1 arg2]; rewrite ?wrap_small by done; try reflexivity.
  - destruct a as [x|]; [|reflexivity]. cbn [default from_option]. unfold id.
    destruct (Z.eqb_spec x 0) as [->|Hx]; [by rewrite decide_True|by rewrite decide_False by congruence].
  - unfold spawn_process, mbind, M_bind. cbn [arg0 arg1].
    destruct (read_slice PHYSICAL_OFFSET ptr len s) as [[name s1]| |]; [|done..].
    by destruct (on_kernel _ s1) as [[[pid|e] s2]| |].
Qed.
End Wrappers.

(** Results come back as they were meant: the kernel's signed counts and exit
    codes through the unsigned [rax], where a negative count is [None]; pids through [as u16];
    [!0] of [brk] as [None]; and the time, if it is not before 1970, as its
    seconds and nanoseconds. *)
Theorem results_return :
  (∀ r, - 2 ^ 63 ≤ r < 2 ^ 63 →
     User.count_of (as_usize r) = (if r <? 0 then None else Some r) ∧ User.wait_pid_of (as_usize r) = r) ∧
  (∀ pid, 0 ≤ pid < 2 ^ 16 → User.pid_of pid = pid) ∧
  (∀ e, User.brk_of (default u64_max e) = (if decide (e = Some u64_max) then None else e)) ∧
  (∀ b : bool, User.sem_of (if b then 0 else 1) = b) ∧
  (∀ t, 0 ≤ t < 2 ^ 63 → let '(s, n) := User.time_of (as_usize t) in
     0 ≤ n < 10 ^ 9 ∧ s * 10 ^ 9 + n = t).
Proof.
  split_and!.
  - intros r Hr. unfold User.count_of, User.wait_pid_of. by rewrite as_isize_usize.
  - intros pid Hp. unfold User.pid_of. by apply wrap_small.
  - intros [e|]; [|reflexivity]. unfold User.brk_of. cbn [default from_option]. unfold id.
    destruct (Z.eqb_spec e u64_max) as [->|Hne]; [by rewrite decide_True|by rewrite decide_False by congruence].
  - by intros [].
  - intros t Ht. unfold User.time_of. rewrite as_isize_usize by lia.
    rewrite Z.rem_mod_nonneg, Z.quot_div_nonneg by lia.
    assert (0 ≤ t `mod` 1000000000 < 1000000000) by (apply Z.mod_pos_bound; lia).
    rewrite wrap_small by lia. split; [lia|]. change (10 ^ 9) with 1000000000.
    pose proof (Z.div_mod t 1000000000). lia.
Qed.
