(* ===== verification/Input.v ===== *)
(** The kernel's line input: [pop_key], [get_line], [is_utf8] and [to_utf8] of
    [pkg/kernel/src/drivers/input.rs].

    The keys are those that will be popped from the input buffer, in order;
    when there are no more, [pop_key] waits, which is [OutOfFuel] here. *)
From S2P Require Import Prelude Text.

(** The keys to come, and the bytes printed. *)
Record console : Type := mkConsole { keys : list Z; printed : list Z }.

Definition pop_key : M console Z :=
  s ← get;
  match keys s with
  | k :: ks => put (mkConsole ks (printed s));; mret k
  | [] => out_of_fuel
  end.

Definition print (bytes : list Z) : M console () :=
  modify (λ s, mkConsole (keys s) (printed s ++ bytes)).

Definition is_utf8 (ch : Z) : bool :=
  (Z.land ch 0x80 =? 0) || (Z.land ch 0xe0 =? 0xc0) || (Z.land ch 0xf0 =? 0xe0) || (Z.land ch 0xf8 =? 0xf0).

Definition to_utf8 (ch : Z) : M console Z :=
  if Z.land ch 0x80 =? 0 then mret ch
  else if Z.land ch 0xe0 =? 0xc0 then
    let codepoint := Z.shiftl (Z.land ch 0x1f) 6 in
    k ← pop_key;
    mret (Z.lor codepoint (Z.land k 0x3f))
  else if Z.land ch 0xf0 =? 0xe0 then
    let codepoint := Z.shiftl (Z.land ch 0x0f) 12 in
    k ← pop_key;
    let codepoint := Z.lor codepoint (Z.shiftl (Z.land k 0x3f) 6) in
    k ← pop_key;
    mret (Z.lor codepoint (Z.land k 0x3f))
  else if Z.land ch 0xf8 =? 0xf0 then
    let codepoint := Z.shiftl (Z.land ch 0x07) 18 in
    k ← pop_key;
    let codepoint := Z.lor codepoint (Z.shiftl (Z.land k 0x3f) 12) in
    k ← pop_key;
    let codepoint := Z.lor codepoint (Z.shiftl (Z.land k 0x3f) 6) in
    k ← pop_key;
    mret (Z.lor codepoint (Z.land k 0x3f))
  else mret 0.

(** [line.pop()] *)
Definition pop (line : str) : str := reverse (tail (reverse line)).

(** Every round pops a key. *)
Fixpoint get_line_loop (fuel : nat) (line : str) : M console str :=
  match fuel with
  | O => out_of_fuel
  | S fuel =>
      ch ← pop_key;
      if ch =? 13 then print [10; 13];; mret line
      else if ((ch =? 0x08) || (ch =? 0x7f)) && negb (bool_decide (line = [])) then
        print [0x08; 0x20; 0x08];;
        get_line_loop fuel (pop line)
      else if is_utf8 ch then
        c ← to_utf8 ch;
        utf_char ← unwrap (char_from_u32 c);
        print (encode_utf8 utf_char);;
        get_line_loop fuel (line ++ [utf_char])
      else
        print (encode_utf8 ch);;
        get_line_loop fuel (line ++ [ch])
  end.

Definition get_line : M console str :=
  s ← get; get_line_loop (S (length (keys s))) [].

(** ** Decoding *)

Lemma pop_key_next k ks out : pop_key (mkConsole (k :: ks) out) = Done (k, mkConsole ks out).
Proof. done. Qed.

(** The masks and shifts of a byte are its remainders and quotients, checked for all bytes. *)
Definition byte_ok (b : Z) : bool :=
  (Z.land b 0x3f =? b `mod` 64) &&
  Bool.eqb (Z.land b 0x80 =? 0) (b <? 0x80) &&
  Bool.eqb (Z.land b 0xe0 =? 0xc0) ((0xc0 <=? b) && (b <? 0xe0)) &&
  Bool.eqb (Z.land b 0xf0 =? 0xe0) ((0xe0 <=? b) && (b <? 0xf0)) &&
  Bool.eqb (Z.land b 0xf8 =? 0xf0) ((0xf0 <=? b) && (b <? 0xf8)) &&
  (Z.land b 0x1f =? b `mod` 32) && (Z.land b 0x0f =? b `mod` 16) && (Z.land b 0x07 =? b `mod` 8).

Lemma bytes_ok : forallb byte_ok (seqZ 0 256) = true.
Proof. vm_compute. reflexivity. Qed.

Lemma byte_spec b : 0 ≤ b < 256 →
  Z.land b 0x3f = b `mod` 64 ∧
  (Z.land b 0x80 =? 0) = (b <? 0x80) ∧
  (Z.land b 0xe0 =? 0xc0) = ((0xc0 <=? b) && (b <? 0xe0)) ∧
  (Z.land b 0xf0 =? 0xe0) = ((0xe0 <=? b) && (b <? 0xf0)) ∧
  (Z.land b 0xf8 =? 0xf0) = ((0xf0 <=? b) && (b <? 0xf8)) ∧
  Z.land b 0x1f = b `mod` 32 ∧ Z.land b 0x0f = b `mod` 16 ∧ Z.land b 0x07 = b `mod` 8.
Proof.
  intros Hb. pose proof bytes_ok as Hok. rewrite forallb_forall in Hok.
  specialize (Hok b ltac:(apply list_elem_of_In, elem_of_seqZ; lia)). unfold byte_ok in Hok.
  rewrite !andb_true_iff, !Z.eqb_eq, !eqb_true_iff in Hok. tauto.
Qed.

(** Or-ing bits below a shifted number adds them. *)
Lemma lor_shift a n b : 0 ≤ n → 0 ≤ b < 2 ^ n → Z.lor (Z.shiftl a n) b = a * 2 ^ n + b.
Proof.
  intros Hn Hb. rewrite <- Z.shiftl_mul_pow2 by done. rewrite <- Z.add_lor_land.
  assert (Z.land (Z.shiftl a n) b = 0) as ->; [|lia].
  apply Z.bits_inj'. intros i Hi. rewrite Z.land_spec, Z.bits_0.
  destruct (Z.ltb_spec i n).
  - by rewrite Z.shiftl_spec_low.
  - destruct (decide (b = 0)) as [->|]; [by rewrite Z.bits_0, andb_false_r|].
    rewrite (Z.bits_above_log2 b i), andb_false_r; [done|lia|]. apply Z.log2_lt_pow2; [lia|].
    eapply Z.lt_le_trans; [apply Hb|]. apply Z.pow_le_mono_r; lia.
Qed.

Lemma lor_shift3 a b d : 0 ≤ b < 64 → 0 ≤ d < 64 →
  Z.lor (Z.lor (Z.shiftl a 12) (Z.shiftl b 6)) d = a * 2 ^ 12 + b * 2 ^ 6 + d.
Proof.
  intros Hb Hd. rewrite <- (Z.lor_assoc), (lor_shift b 6 d) by lia.
  rewrite lor_shift by lia. lia.
Qed.

Lemma lor_shift4 a b d e : 0 ≤ b < 64 → 0 ≤ d < 64 → 0 ≤ e < 64 →
  Z.lor (Z.lor (Z.lor (Z.shiftl a 18) (Z.shiftl b 12)) (Z.shiftl d 6)) e =
  a * 2 ^ 18 + b * 2 ^ 12 + d * 2 ^ 6 + e.
Proof.
  intros Hb Hd He. rewrite <- !Z.lor_assoc, (Z.lor_assoc (Z.shiftl b 12)), lor_shift3 by lia.
  rewrite lor_shift by lia. lia.
Qed.

Lemma tail_byte x : 0x80 + x `mod` 0x40 < 256 ∧ 0 ≤ 0x80 + x `mod` 0x40 ∧
  Z.land (0x80 + x `mod` 0x40) 0x3f = x `mod` 64.
Proof.
  pose proof (Z.mod_pos_bound x 0x40 ltac:(lia)).
  destruct (byte_spec (0x80 + x `mod` 0x40) ltac:(lia)) as [-> _].
  split_and!; [lia|lia|]. rewrite <- Zplus_mod_idemp_l. change (128 `mod` 64) with 0. by rewrite Z.add_0_l, Z.mod_mod.
Qed.

(** [to_utf8] reads what UTF-8 wrote. *)
Lemma to_utf8_encode c ks out :
  is_scalar c = true → ∃ b0 rest, encode_utf8 c = b0 :: rest ∧ is_utf8 b0 = true ∧
    (b0 = c ∨ 0x80 ≤ b0 ∧ 0x80 ≤ c) ∧
    to_utf8 b0 (mkConsole (rest ++ ks) out) = Done (c, mkConsole ks out).
Proof.
  intros Hs%is_scalar_spec. unfold encode_utf8, to_utf8, is_utf8.
  destruct (Z.ltb_spec c 0x80); [|destruct (Z.ltb_spec c 0x800); [|destruct (Z.ltb_spec c 0x10000)]].
  - exists c, []. split; [done|]. destruct (byte_spec c ltac:(lia)) as (_ & -> & _).
    rewrite (proj2 (Z.ltb_lt _ _)) by done. auto.
  - eexists _, _. split; [reflexivity|].
    destruct (byte_spec (0xc0 + c / 2 ^ 6) ltac:(Z.to_euclidean_division_equations; lia))
      as (_ & -> & -> & -> & -> & -> & _).
    rewrite (proj2 (Z.ltb_ge _ 0x80)), (proj2 (andb_true_iff (_ <=? _) _))
      by (Z.to_euclidean_division_equations; lia).
    split; [done|]. split; [right; Z.to_euclidean_division_equations; lia|]. cbv zeta. cbn [app].
    rewrite (bind_step _ _ _ _ _ (pop_key_next _ _ _)). destruct (tail_byte (c / 2 ^ (6 * 0))) as (_ & _ & ->).
    rewrite lor_shift by (Z.to_euclidean_division_equations; lia). unfold mret, M_ret. do 2 f_equal.
    change (2 ^ (6 * 0)) with 1. Z.to_euclidean_division_equations. lia.
  - eexists _, _. split; [reflexivity|].
    destruct (byte_spec (0xe0 + c / 2 ^ 12) ltac:(Z.to_euclidean_division_equations; lia))
      as (_ & -> & -> & -> & -> & _ & -> & _).
    rewrite (proj2 (Z.ltb_ge _ 0x80)), (proj2 (andb_false_iff (0xc0 <=? _) _)),
      (proj2 (andb_true_iff (0xe0 <=? _) _)) by (Z.to_euclidean_division_equations; lia).
    split; [done|]. split; [right; Z.to_euclidean_division_equations; lia|]. cbv zeta. cbn [app].
    rewrite !(bind_step _ _ _ _ _ (pop_key_next _ _ _)).
    destruct (tail_byte (c / 2 ^ (6 * 0))) as (_ & _ & ->).
    destruct (tail_byte (c / 2 ^ (6 * 1))) as (_ & _ & ->).
    rewrite !lor_shift3 by (Z.to_euclidean_division_equations; lia). unfold mret, M_ret. do 2 f_equal.
    change (2 ^ (6 * 0)) with 1. change (2 ^ (6 * 1)) with 64. Z.to_euclidean_division_equations. lia.
  - eexists _, _. split; [reflexivity|].
    destruct (byte_spec (0xf0 + c / 2 ^ 18) ltac:(Z.to_euclidean_division_equations; lia))
      as (_ & -> & -> & -> & -> & _ & _ & ->).
    rewrite (proj2 (Z.ltb_ge _ 0x80)), (proj2 (andb_false_iff (0xc0 <=? _) _)),
      (proj2 (andb_false_iff (0xe0 <=? _) _)), (proj2 (andb_true_iff (0xf0 <=? _) _))
      by (Z.to_euclidean_division_equations; lia).
    split; [done|]. split; [right; Z.to_euclidean_division_equations; lia|]. cbv zeta. cbn [app].
    rewrite !(bind_step _ _ _ _ _ (pop_key_next _ _ _)).
    destruct (tail_byte (c / 2 ^ (6 * 0))) as (_ & _ & ->).
    destruct (tail_byte (c / 2 ^ (6 * 1))) as (_ & _ & ->).
    destruct (tail_byte (c / 2 ^ (6 * 2))) as (_ & _ & ->).
    rewrite !lor_shift4 by (Z.to_euclidean_division_equations; lia). unfold mret, M_ret. do 2 f_equal.
    change (2 ^ (6 * 0)) with 1. change (2 ^ (6 * 1)) with 64. change (2 ^ (6 * 2)) with 4096.
    Z.to_euclidean_division_equations. lia.
Qed.

(** A character that is neither the end of the line nor a backspace. *)
Definition plain (c : Z) : bool := is_scalar c && negb (c =? 13) && negb (c =? 8) && negb (c =? 127).

Lemma get_line_char fuel line c ks out :
  plain c = true →
  get_line_loop (S fuel) line (mkConsole (encode_utf8 c ++ ks) out) =
  get_line_loop fuel (line ++ [c]) (mkConsole ks (out ++ encode_utf8 c)).
Proof.
  unfold plain. rewrite !andb_true_iff, !negb_true_iff, !Z.eqb_neq. intros [[[Hs H13] H8] H127].
  destruct (to_utf8_encode c ks out Hs) as (b0 & rest & E & Hu & Hb & Ht). rewrite E. cbn [app get_line_loop].
  rewrite (bind_step _ _ _ _ _ (pop_key_next _ _ _)).
  assert (b0 ≠ 13 ∧ b0 ≠ 8 ∧ b0 ≠ 127) as (N1 & N2 & N3) by (destruct Hb as [->|Hb]; lia).
  rewrite (proj2 (Z.eqb_neq b0 13)), (proj2 (Z.eqb_neq b0 8)), (proj2 (Z.eqb_neq b0 127)) by done.
  cbn [orb andb]. rewrite Hu, (bind_step _ _ _ _ _ Ht). unfold char_from_u32. rewrite Hs.
  rewrite (bind_step _ _ _ c _ eq_refl). by rewrite E.
Qed.

Lemma get_line_plain line cs ks out fuel :
  Forall (λ c, plain c = true) cs → (length cs < fuel)%nat →
  get_line_loop fuel line (mkConsole (as_bytes cs ++ 13 :: ks) out) =
  Done (line ++ cs, mkConsole ks (out ++ as_bytes cs ++ [10; 13])).
Proof.
  intros Hcs. revert line out fuel. induction Hcs as [|c cs Hc _ IH]; intros line out fuel Hf;
    (destruct fuel as [|fuel]; [simpl in Hf; lia|]).
  - cbn [as_bytes mbind list_bind app get_line_loop]. rewrite (bind_step _ _ _ _ _ (pop_key_next _ _ _)).
    by rewrite app_nil_r.
  - unfold as_bytes in *. rewrite bind_cons, <- (assoc_L (++)), get_line_char by done.
    rewrite IH by (simpl in Hf; lia). by rewrite <- !(assoc_L (++)).
Qed.

Lemma as_bytes_length cs : (length cs ≤ length (as_bytes cs))%nat.
Proof.
  induction cs as [|c cs IH]; [done|]. unfold as_bytes in *. rewrite bind_cons, length_app. simpl.
  pose proof (len_encode c). pose proof (len_utf8_pos c). lia.
Qed.

(** The kernel's line editor takes UTF-8.  Typing the encoding of a text without
    control characters of its own, and return, always gives that text, in whatever
    script, and echoes its encoding; the keys after it are left for the next line. *)
Theorem get_line_utf8 (cs : str) (ks out : list Z) :
  Forall (λ c, plain c = true) cs →
  get_line (mkConsole (as_bytes cs ++ 13 :: ks) out) =
  Done (cs, mkConsole ks (out ++ as_bytes cs ++ [10; 13])).
Proof.
  intros Hcs. unfold get_line. rewrite (bind_step _ _ _ _ _ eq_refl). cbn [keys].
  rewrite get_line_plain; [done..|]. rewrite length_app. pose proof (as_bytes_length cs). simpl. lia.
Qed.

Lemma get_line_utf8_witness :
  get_line (mkConsole (as_bytes [0x41; 0xe9; 0x4f60; 0x1f600] ++ 13 :: [104]) []) =
  Done ([0x41; 0xe9; 0x4f60; 0x1f600],
        mkConsole [104] ([] ++ as_bytes [0x41; 0xe9; 0x4f60; 0x1f600] ++ [10; 13])).
Proof.
  apply (get_line_utf8 [0x41; 0xe9; 0x4f60; 0x1f600] [104] []).
  repeat constructor.
Defined.

(** The kernel's line editor trusts the bytes it gets.  The encoding of a
    surrogate makes [char::from_u32] fail and the [unwrap] stops the kernel; a
    backspace at the start of a line becomes part of the line. *)
Theorem get_line_bad_keys line ks out fuel :
  get_line_loop (S fuel) line (mkConsole (0xed :: 0xa0 :: 0x80 :: ks) out) = Panic ∧
  get_line (mkConsole (8 :: 13 :: ks) out) = Done ([8], mkConsole ks (out ++ [8; 10; 13])).
Proof.
  split; [done|]. unfold get_line. rewrite (bind_step _ _ _ _ _ eq_refl). cbn [keys].
  transitivity (Done ([8], mkConsole ks ((out ++ [8]) ++ [10; 13]))); [reflexivity|]. by rewrite <- (assoc_L (++)).
Qed.
