(* ===== verification/Apps.v ===== *)
(** Applications that talk to a person: the shell [pkg/app/sh] and the factorial
    [pkg/app/fact].

    They read lines through [UserLib.Stdin].  The shell's system calls are an
    interface, [Calls]; how a line is understood is the function [command]. *)
From stdpp Require Import strings.
From S2P Require Import Prelude Text.
From S2P Require UserLib.
#[local] Open Scope Z_scope.

Module Shell.

(** What a line asks for. *)
Inductive request : Type :=
  | Exit
  | Stat
  | ListApp
  | Exec (name : str)
  | ExecUsage
  | Kill (pid : Z)
  | KillUsage
  | CannotParse
  | Help
  | Clear
  | Blank
  | Said (input : str).

Definition command (input : str) : request :=
  let line := split 32 (trim input) in
  let word := default [] (line !! 0%nat) in
  if decide (word = [4]) then Exit
  else if decide (word = chars "exit") then Exit
  else if decide (word = chars "ps") then Stat
  else if decide (word = chars "ls") then ListApp
  else if decide (word = chars "exec") then
    match line !! 1%nat with None => ExecUsage | Some name => Exec name end
  else if decide (word = chars "kill") then
    match line !! 1%nat with
    | None => KillUsage
    | Some pid => match from_str 16 pid with Some pid => Kill pid | None => CannotParse end
    end
  else if decide (word = chars "help") then Help
  else if decide (word = chars "clear") then Clear
  else if decide (word = []) then Blank
  else Said input.

(** The system calls the shell makes. *)
Class Calls (W : Type) := {
  read_line : M W str;
  print : str → M W ();
  err : str → M W ();
  sys_stat : M W ();
  sys_list_app : M W ();
  sys_time : M W Z;              (** in nanoseconds *)
  sys_spawn : str → M W Z;
  sys_wait_pid : Z → M W Z;
  sys_kill : Z → M W ();
}.

Section Shell.
Context {W : Type} `{Calls W}.

Definition println (s : str) : M W () := print (s ++ [10]).
Definition errln (s : str) : M W () := err (s ++ [10]).

(** [{}] of a signed number. *)
Definition show_signed (n : Z) : str := if n <? 0 then 45 :: show 10 (- n) else show 10 n.

(** [services::exec] *)
Definition exec (name : str) : M W () :=
  start ← sys_time;
  pid ← sys_spawn (to_ascii_lowercase name);
  if pid =? 0 then errln (chars "failed to spawn process: " ++ name)
  else
    ret ← sys_wait_pid pid;
    now ← sys_time;
    println (chars "[+] process exited with code " ++ show_signed ret ++ chars " @ " ++
             show_signed (Z.quot (now - start) 1000000000) ++ [115]).

(** [services::kill] *)
Definition kill (pid : Z) : M W () := sys_kill pid.

Definition help_text (version : str) : str :=
  chars "    YatSenOS shell v" ++ version ++ chars " Baihyf 22331049" ++ chars "

Usage:
    help        | show this help
    ps          | show process list
    ls          | show app list
    exec <name> | execute program
    kill <pid>  | kill process
    clear       | clear screen
    exit        | exit shell

Shortcuts:
    Ctrl + D    | exit shell
    Ctrl + C    | cancel current command
".

(** One turn of the loop; [true] is the [break]. *)
Definition serve (version : str) (r : request) : M W bool :=
  match r with
  | Exit => println [];; mret true
  | Stat => sys_stat;; mret false
  | ListApp => sys_list_app;; mret false
  | Exec name => exec name;; mret false
  | ExecUsage => println (chars "Usage: exec <file>");; mret false
  | Kill pid => kill pid;; mret false
  | KillUsage => println (chars "Usage: kill <pid>");; mret false
  | CannotParse => errln (chars "Cannot parse pid");; mret false
  | Help => print (help_text version);; mret false
  | Clear => print (27 :: chars "[1;1H" ++ 27 :: chars "[2J");; mret false
  | Blank => println [];; mret false
  | Said input => println (chars "[=] you said " ++ 34 :: input ++ [34]);; mret false
  end.

Fixpoint main_loop (fuel : nat) (version : str) : M W Z :=
  match fuel with
  | O => out_of_fuel
  | S fuel =>
      print (chars "$ ");;
      input ← read_line;
      stop ← serve version (command input);
      if stop : bool then mret 0 else main_loop fuel version
  end.

Definition main (fuel : nat) (version : str) : M W Z :=
  println (chars "            <<< Welcome to YatSenOS shell >>>            ");;
  println (chars "                                 type `help` for help");;
  main_loop fuel version.

End Shell.

(** ** How lines are understood *)

Definition blank (s : str) : Prop := Forall (λ c, is_whitespace c = true) s.

Lemma trim_start_blank s t : blank s → trim_start (s ++ t) = trim_start t.
Proof. induction 1 as [|c s Hc _ IH]; [done|]. simpl. by rewrite Hc. Qed.

(** Blanks around a line do not matter. *)
Lemma trim_blanks a s b :
  blank a → blank b → (∀ c, head s = Some c → is_whitespace c = false) →
  (∀ c, last s = Some c → is_whitespace c = false) → trim (a ++ s ++ b) = s.
Proof.
  intros Ha Hb Hh Hl. unfold trim. rewrite trim_start_blank by done. unfold trim_end.
  destruct s as [|c s].
  - cbn [app]. rewrite <- (app_nil_r b), trim_start_blank by done. done.
  - rewrite (trim_start_id ((c :: s) ++ b)) by (intros d [= <-]; auto).
    rewrite reverse_app, trim_start_blank by by apply Forall_reverse.
    rewrite trim_start_id; [apply reverse_involutive|]. intros d. rewrite head_reverse. apply Hl.
Qed.

Lemma words_split a b : 32 ∉ a → 32 ∉ b → split 32 (a ++ 32 :: b) = [a; b].
Proof. intros Ha Hb. by rewrite split_app, split_none. Qed.

(** A word: not empty, without blanks. *)
Definition word (s : str) : Prop := s ≠ [] ∧ Forall (λ c, is_whitespace c = false) s.

Lemma word_ends s : word s →
  32 ∉ s ∧ (∀ c, head s = Some c → is_whitespace c = false) ∧ (∀ c, last s = Some c → is_whitespace c = false).
Proof.
  intros [_ Hs]. rewrite Forall_forall in Hs. split_and!.
  - by intros ?%Hs.
  - intros c Hc. apply Hs. by destruct s; simplify_eq/=; left.
  - intros c Hc. by apply Hs, last_Some_elem_of.
Qed.

(** Two words with one space between them, and blanks around. *)
Lemma command_two a b k w :
  blank a → blank b → word k → word w →
  split 32 (trim (a ++ (k ++ 32 :: w) ++ b)) = [k; w].
Proof.
  intros Ha Hb Hk Hw. destruct (word_ends k Hk) as (Hk32 & Hkh & _), (word_ends w Hw) as (Hw32 & _ & Hwl).
  rewrite trim_blanks; [by apply words_split|done..| |].
  - intros c Hc. apply Hkh. destruct Hk as [Hk _]. by destruct k.
  - intros c Hc. apply Hwl. rewrite last_app_cons in Hc. destruct Hw as [Hw _]. by destruct w.
Qed.

Lemma command_one a b k : blank a → blank b → word k → split 32 (trim (a ++ k ++ b)) = [k].
Proof.
  intros Ha Hb Hk. destruct (word_ends k Hk) as (H32 & Hh & Hl). rewrite trim_blanks by done.
  by apply split_none.
Qed.

Lemma keyword_word s : forallb (λ c, negb (is_whitespace c)) s && negb (bool_decide (s = [])) = true → word s.
Proof.
  intros [Hf Hn]%andb_true_iff. split; [by apply negb_true_iff, bool_decide_eq_false in Hn|].
  apply Forall_forall. intros c Hc. rewrite forallb_forall in Hf.
  apply list_elem_of_In, Hf in Hc. by apply negb_true_iff in Hc.
Qed.

Lemma digits_word n : 0 ≤ n → word (show 10 n).
Proof.
  intros Hn. destruct (show_spec 10 n ltac:(lia) Hn) as [Hd Hne]. split; [done|].
  eapply Forall_impl; [exact Hd|]. intros c. unfold is_digit, is_whitespace.
  rewrite orb_true_iff, !andb_true_iff, !orb_false_iff, !andb_false_iff. lia.
Qed.

(** What the shell understands, whatever blanks surround the line: [kill] and a
    printed pid kill that process, if it fits 16 bits, and is refused otherwise;
    [exec] and a word run that word; [exit], and Ctrl+D as a line of its own, end
    the shell. *)
Theorem shell_commands (a b : str) :
  blank a → blank b →
  (∀ n, 0 ≤ n < 2 ^ 64 → command (a ++ (chars "kill" ++ 32 :: show 10 n) ++ b) =
     if n <? 2 ^ 16 then Kill n else CannotParse) ∧
  (∀ w, word w → command (a ++ (chars "exec" ++ 32 :: w) ++ b) = Exec w) ∧
  command (a ++ chars "exit" ++ b) = Exit ∧ command (a ++ [4] ++ b) = Exit ∧
  command (a ++ chars "kill" ++ b) = KillUsage ∧ command (a ++ b) = Blank.
Proof.
  intros Ha Hb. unfold command. split_and!.
  - intros n Hn. rewrite command_two by (done || (by apply keyword_word) || (apply digits_word; lia)).
    cbn [lookup list_lookup default from_option].
    repeat (rewrite decide_False by (vm_compute; discriminate)). rewrite decide_True by done.
    change ([chars "kill"; show 10 n] !! 1%nat) with (Some (show 10 n)). cbv iota beta. unfold from_str.
    destruct (Z.ltb_spec n (2 ^ 16)); [by rewrite from_str_radix_show by lia|].
    by rewrite from_str_radix_overflow by lia.
  - intros w Hw. rewrite command_two by (done || (by apply keyword_word)). done.
  - rewrite command_one by (done || (by apply keyword_word)). done.
  - rewrite command_one by (done || (by apply keyword_word)). done.
  - rewrite command_one by (done || (by apply keyword_word)). done.
  - rewrite <- (app_nil_l b), trim_blanks by done. done.
Qed.

Lemma shell_commands_witness :
  blank [32] ∧ blank [13; 10] ∧
  (∀ n, 0 ≤ n < 2 ^ 64 → command ([32] ++ (chars "kill" ++ 32 :: show 10 n) ++ [13; 10]) =
     if n <? 2 ^ 16 then Kill n else CannotParse) ∧
  command ([32] ++ (chars "exec" ++ 32 :: chars "fact") ++ [13; 10]) = Exec (chars "fact").
Proof.
  assert (Ha : blank [32]) by (repeat constructor).
  assert (Hb : blank [13; 10]) by (repeat constructor).
  destruct (shell_commands [32] [13; 10] Ha Hb) as (Hk & He & _).
  split_and!; [done|done|exact Hk|]. apply He, keyword_word. reflexivity.
Defined.

End Shell.

(** ** pkg/app/fact *)
Module Fact.
Import Shell.

Definition MOD : Z := 1000000007.

Section Fact.
Context {W : Type} `{Calls W} `{Profile}.

(** The argument is the number of calls still to come. *)
Fixpoint factorial (n : nat) : M W Z :=
  match n with
  | O => mret 1
  | S n' =>
      let v := Z.of_nat n in
      (if v `mod` 100000 =? 0 then sys_stat else mret ());;
      r ← factorial n';
      p ← word_op 64 (v * r);
      mret (p `mod` MOD)
  end.

Definition answer (n result : Z) : str :=
  chars "The factorial of " ++ show 10 n ++ chars " under modulo " ++ show 10 MOD ++
  chars " is " ++ show 10 result ++ chars ".".

Definition main : M W Z :=
  print (chars "Input n: ");;
  input ← read_line;
  n ← unwrap (from_str 64 input);
  if 1000000 <? n then println (chars "n must be less than 1_000_000");; mret 1
  else
    result ← factorial (Z.to_nat n);
    sys_stat;;
    println (answer n result);;
    mret 0.

End Fact.

(** The factorial. *)
Fixpoint product (n : nat) : Z :=
  match n with O => 1 | S n' => Z.of_nat n * product n' end.

Section Proofs.
Context {W : Type} `{Calls W} `{Profile} (stat : W → W).
Hypothesis stat_spec : ∀ w, sys_stat w = Done ((), stat w).

Lemma step_reports n : (S n `div` 100000 = n `div` 100000 + (if (Z.of_nat (S n) `mod` 100000 =? 0)%Z then 1 else 0))%nat.
Proof.
  destruct (Z.eqb_spec (Z.of_nat (S n) `mod` 100000) 0) as [E|E];
    apply Nat2Z.inj; rewrite ?Nat2Z.inj_add, !Nat2Z.inj_div; change (Z.of_nat 100000) with 100000 in *;
    rewrite Nat2Z.inj_succ in *; Z.div_mod_to_equations; lia.
Qed.

(** No product overflows: both factors are below 2^32. *)
Lemma factorial_mod (n : nat) (w : W) :
  Z.of_nat n < 2 ^ 32 →
  factorial n w = Done (product n `mod` MOD, Nat.iter (n `div` 100000) stat w).
Proof.
  revert w. induction n as [|n IH]; intros w Hn; [done|].
  cbn [factorial product]. rewrite step_reports.
  set (b := Z.of_nat (S n) `mod` 100000 =? 0).
  rewrite (bind_step _ _ _ () (if b then stat w else w)) by (destruct b; [apply stat_spec|done]).
  rewrite (bind_step _ _ _ _ _ (IH _ ltac:(lia))).
  assert (0 ≤ product n `mod` MOD < MOD) by (apply Z.mod_pos_bound; done).
  assert (Hp : 0 ≤ Z.of_nat (S n) * (product n `mod` MOD) < 2 ^ 64).
  { change MOD with 1000000007 in *. change (2 ^ 64) with (2 ^ 32 * 2 ^ 32). nia. }
  rewrite (bind_step _ _ _ _ _ (word_op_exact _ _ _ Hp)).
  unfold mret, M_ret. rewrite Z.mul_mod_idemp_r by done. f_equal. f_equal.
  destruct b; [|by rewrite Nat.add_0_r]. by rewrite Nat.iter_add.
Qed.

End Proofs.

(** The program answers with the factorial of the number on the line, modulo
    10^9 + 7, exactly and on every profile, reporting the system's state once for
    every 100000 steps and once at the end; a number above 10^6 is refused, and an
    empty line, or one with a character that no number has, is a panic. *)
Theorem fact_answers `{Calls W, Profile} (out : str → W → W) (stat : W → W) (line : str) (w w1 : W) :
  (∀ s w, print s w = Done ((), out s w)) → (∀ w, sys_stat w = Done ((), stat w)) →
  read_line (out (chars "Input n: ") w) = Done (line, w1) →
  (∀ n, 0 ≤ n ≤ 1000000 → line = show 10 n →
    main w = Done (0, out (answer n (product (Z.to_nat n) `mod` MOD) ++ [10])
                          (Nat.iter (S (Z.to_nat n `div` 100000)) stat w1))) ∧
  (∀ n, 1000000 < n < 2 ^ 64 → line = show 10 n →
    main w = Done (1, out (chars "n must be less than 1_000_000" ++ [10]) w1)) ∧
  (line = [] ∨ (∃ s c t, to_digit 10 c = None ∧ c ≠ 43 ∧ line = s ++ c :: t) → main w = Panic).
Proof.
  intros Hout Hstat Hline. unfold main, println.
  rewrite (bind_step _ _ _ _ _ (Hout _ _)), (bind_step _ _ _ _ _ Hline). unfold from_str.
  split_and!; [intros n Hn ->..|].
  - rewrite from_str_radix_show by lia. unfold unwrap. rewrite (bind_step _ _ _ n w1) by done.
    destruct (Z.ltb_spec 1000000 n); [lia|].
    rewrite (bind_step _ _ _ _ _ (factorial_mod stat Hstat (Z.to_nat n) _ ltac:(lia))).
    by rewrite (bind_step _ _ _ _ _ (Hstat _)), (bind_step _ _ _ _ _ (Hout _ _)).
  - rewrite from_str_radix_show by lia. unfold unwrap. rewrite (bind_step _ _ _ n w1) by done.
    destruct (Z.ltb_spec 1000000 n); [|lia]. by rewrite (bind_step _ _ _ _ _ (Hout _ _)).
  - intros [->|(s & c & t & Hc & H43 & ->)]; [done|]. by rewrite from_str_radix_bad.
Qed.

(** A console: what was printed, and the line to read. *)
Definition console (line : str) : Calls str := {|
  read_line s := Done (line, s);
  print s out := Done ((), out ++ s);
  err s out := Done ((), out ++ s);
  sys_stat out := Done ((), out);
  sys_list_app out := Done ((), out);
  sys_time out := Done (0, out);
  sys_spawn _ out := Done (0, out);
  sys_wait_pid _ out := Done (0, out);
  sys_kill _ out := Done ((), out) |}.

Lemma fact_answers_witness :
  main (H := console (show 10 13)) (H0 := debug) [] =
    Done (0, chars "Input n: " ++ chars "The factorial of 13 under modulo 1000000007 is 227020758." ++ [10]) ∧
  main (H := console (chars "12x")) (H0 := debug) [] = Panic.
Proof.
  split.
  - refine (eq_trans (proj1 (fact_answers (H := console (show 10 13)) (H0 := debug)
      (λ s o, o ++ s) id (show 10 13) [] (chars "Input n: ") _ _ _) 13 _ _) _);
      first [reflexivity | lia | done].
  - refine (proj2 (proj2 (fact_answers (H := console (chars "12x")) (H0 := debug)
      (λ s o, o ++ s) id (chars "12x") [] (chars "Input n: ") _ _ _)) _); [done..|].
    right. exists (chars "12"), 120, []. done.
Defined.

End Fact.
