(* ===== verification/Console.v ===== *)
(** The serial console: the driver of the UART ([drivers/uart16550.rs],
    [drivers/serial.rs]), the printing macros and the panic handler
    ([utils/macros.rs]) and the logger ([utils/logger.rs]).

    The port is a parameter, [Ports], and what the documentation of the 16550
    says of it are the laws [Uart16550]: its state is what was programmed, the
    bytes it has sent and those it has received, and how often its status must
    still be read until the transmitter is empty.  [chip] is an instance.  The
    driver waits for the transmitter in a loop, which has fuel here: a read of
    the status for every unit.  The strings that the panic handler builds take memory of
    the kernel's heap, a parameter, [KernelHeap]; [println!] itself allocates nothing. *)
From stdpp Require Import strings.
From S2P Require Import Prelude Text.

(** * Cells that are initialised once: [once_mutex!], [guard_access_fn!] *)

Module Once.

(** [spin::Once<spin::Mutex<T>>] *)
Record mutex (T : Type) : Type := mkMutex { locked : bool; content : T }.
Arguments mkMutex {T} locked content.
Arguments locked {T} m.
Arguments content {T} m.
Definition t (T : Type) : Type := option (mutex T).

Section Once.
Context {T : Type}.

(** [init_$v]: only the first value counts. *)
Definition init (v : T) : M (t T) () := λ c,
  match c with None => Done ((), Some (mkMutex false v)) | Some _ => Done ((), c) end.

(** [get_$v()]: the guard, [None] if there is no value or the lock is taken. *)
Definition get : M (t T) (option T) := λ c,
  match c with
  | Some (mkMutex false v) => Done (Some v, Some (mkMutex true v))
  | _ => Done (None, c)
  end.

(** The [expect] of [get_$v_for_sure()]. *)
Definition get_for_sure : M (t T) T := r ← get; unwrap r.

(** The end of a guard's scope, and [$v.get().unwrap().force_unlock()]. *)
Definition force_unlock : M (t T) () := λ c,
  match c with Some m => Done ((), Some (mkMutex false (content m))) | None => Panic end.

End Once.
End Once.

(** * The UART: [drivers/uart16550.rs] *)

Class Ports (D : Type) := {
  inb : Z → M D Z;
  outb : Z → Z → M D ();
}.

Module Uart.

Record SerialPort : Type := mkSerialPort {
  data : Z;
  interrupt_enable : Z;
  interrupt_identification_fifo_control : Z;
  line_control : Z;
  line_status : Z;
  scratch : Z;
}.

(** [Port::new(port + 1)], of a constant; no wrap-around. *)
Definition new (port : Z) : SerialPort :=
  mkSerialPort port (port + 1) (port + 2) (port + 3) (port + 5) (port + 7).

(** [LineControl] *)
Definition DLAB : Z := 0x80.
Definition OneStopBit : Z := 0.
Definition NoneParity : Z := 0.
Definition EightCharLength : Z := 3.

Section Uart.
Context {D : Type} `{Ports D}.

Definition init (self : SerialPort) : M D () :=
  outb (interrupt_enable self) 0x00;;
  outb (line_control self) DLAB;;
  outb (data self) 0x03;;
  outb (interrupt_enable self) 0x00;;
  outb (line_control self) (Z.lor (Z.lor EightCharLength NoneParity) OneStopBit);;
  outb (interrupt_identification_fifo_control self) 0xC7;;
  outb (scratch self) 0xAE;;
  outb (interrupt_enable self) 0x01.

(** [while self.line_status.read() & 0x20 == 0 {}] *)
Fixpoint wait_empty (fuel : nat) (self : SerialPort) : M D () :=
  match fuel with
  | O => out_of_fuel
  | S fuel =>
      s ← inb (line_status self);
      if Z.land s 0x20 =? 0 then wait_empty fuel self else mret ()
  end.

Definition send (fuel : nat) (self : SerialPort) (byte : Z) : M D () :=
  wait_empty fuel self;;
  outb (data self) byte.

Definition receive (self : SerialPort) : M D (option Z) :=
  s ← inb (line_status self);
  if negb (Z.land s 1 =? 0) then b ← inb (data self); mret (Some b)
  else mret None.

Fixpoint send_all (fuel : nat) (self : SerialPort) (bytes : list Z) : M D () :=
  match bytes with
  | [] => mret ()
  | byte :: bytes => send fuel self byte;; send_all fuel self bytes
  end.

(** [fmt::Write::write_str], which never fails *)
Definition write_str (fuel : nat) (self : SerialPort) (s : str) : M D () :=
  send_all fuel self (as_bytes s).

End Uart.

(** ** What a 16550 does *)

(** What is programmed: the divisor latch and the control registers. *)
Record settings : Type := mkSettings { dll : Z; dlm : Z; ier : Z; fcr : Z; lcr : Z; scr : Z }.

Definition dlab (s : settings) : bool := Z.testbit (lcr s) 7.

(** What a write to the register at an offset programs; [None] for a byte to be
    transmitted. *)
Definition program (offset v : Z) (s : settings) : option settings :=
  let '(mkSettings l m i f c x) := s in
  if offset =? 0 then (if dlab s then Some (mkSettings v m i f c x) else None)
  else if offset =? 1 then Some (if dlab s then mkSettings l v i f c x else mkSettings l m v f c x)
  else if offset =? 2 then Some (mkSettings l m i v c x)
  else if offset =? 3 then Some (mkSettings l m i f v x)
  else if offset =? 7 then Some (mkSettings l m i f c v)
  else Some s.

End Uart.

(** The laws: programming changes the settings only; the status tells whether the
    transmitter is empty, which it is after [busy] reads, and whether a byte has
    come; a byte given to the empty transmitter is sent. *)
Class Uart16550 (D : Type) `{Ports D} (port : Z) := {
  programmed : D → Uart.settings;
  sent : D → list Z;
  received : D → list Z;
  busy : D → nat;
  baud_bound : nat;

  uart_busy d : (busy d ≤ baud_bound)%nat;
  uart_program offset v d s :
    Uart.program offset v (programmed d) = Some s →
    ∃ d', outb (port + offset) v d = Done ((), d') ∧
      programmed d' = s ∧ sent d' = sent d ∧ received d' = received d;
  uart_status d :
    ∃ v d', inb (port + 5) d = Done (v, d') ∧
      programmed d' = programmed d ∧ sent d' = sent d ∧ received d' = received d ∧
      busy d' = pred (busy d) ∧
      Z.testbit v 5 = bool_decide (busy d = O) ∧ Z.testbit v 0 = bool_decide (received d ≠ []);
  uart_send v d :
    Uart.dlab (programmed d) = false → busy d = O →
    ∃ d', outb (port + 0) v d = Done ((), d') ∧
      programmed d' = programmed d ∧ sent d' = sent d ++ [v] ∧ received d' = received d;
  uart_receive b bs d :
    Uart.dlab (programmed d) = false → received d = b :: bs →
    ∃ d', inb (port + 0) d = Done (b, d') ∧
      programmed d' = programmed d ∧ sent d' = sent d ∧ received d' = bs;
}.

Section Driver.
Context {D : Type} `{HP : Ports D} (port : Z) `{HU : !Uart16550 D port}.

(** A step that only programs. *)
Lemma program_step {B} offset v (k : () → M D B) d s :
  Uart.program offset v (programmed d) = Some s →
  ∃ d', (outb (port + offset) v ≫= k) d = k () d' ∧
    programmed d' = s ∧ sent d' = sent d ∧ received d' = received d.
Proof.
  intros Hs. destruct (uart_program offset v d s Hs) as (d' & Hd & Hrest). exists d'.
  split; [by apply bind_step|done].
Qed.

#[local] Tactic Notation "program" ident(d') ident(E) "by" tactic3(tac) :=
  match goal with |- ∃ _, (outb (port + ?o) ?v ≫= ?k) ?d = _ ∧ _ =>
    edestruct (program_step o v k d) as (d' & -> & E & ? & ?); [tac|cbv beta]
  end.

Definition self : Uart.SerialPort := Uart.new port.

Lemma wait_empty_spec fuel d :
  (busy d < fuel)%nat →
  ∃ d', Uart.wait_empty fuel self d = Done ((), d') ∧ programmed d' = programmed d ∧
    sent d' = sent d ∧ received d' = received d ∧ busy d' = O.
Proof.
  revert d. induction fuel as [|fuel IH]; intros d Hf; [lia|]. cbn [Uart.wait_empty].
  destruct (uart_status d) as (v & d1 & Hd & Hp & Hs & Hr & Hb & H5 & _).
  rewrite (bind_step _ _ _ _ _ Hd). cbv beta. change 0x20 with (2 ^ 5). rewrite land_bit, H5 by done.
  case_bool_decide as Hbd; simpl.
  - exists d1. split_and!; [done..|lia].
  - destruct (IH d1) as (d2 & -> & ? & ? & ? & ?); [lia|]. exists d2. split_and!; congruence.
Qed.

Lemma send_spec fuel v d :
  (baud_bound < fuel)%nat → Uart.dlab (programmed d) = false →
  ∃ d', Uart.send fuel self v d = Done ((), d') ∧ programmed d' = programmed d ∧
    sent d' = sent d ++ [v] ∧ received d' = received d.
Proof.
  intros Hf Hd. pose proof (uart_busy d). unfold Uart.send.
  destruct (wait_empty_spec fuel d) as (d1 & H1 & Hp & Hs & Hr & Hb); [lia|].
  rewrite (bind_step _ _ _ _ _ H1).
  destruct (uart_send v d1) as (d2 & H2 & ? & ? & ?); [by rewrite Hp|done|].
  rewrite Z.add_0_r in H2. exists d2. split_and!; [exact H2|congruence..].
Qed.

Lemma send_all_spec fuel bytes d :
  (baud_bound < fuel)%nat → Uart.dlab (programmed d) = false →
  ∃ d', Uart.send_all fuel self bytes d = Done ((), d') ∧ programmed d' = programmed d ∧
    sent d' = sent d ++ bytes ∧ received d' = received d.
Proof.
  intros Hf. revert d. induction bytes as [|b bytes IH]; intros d Hd; cbn [Uart.send_all].
  - exists d. by rewrite app_nil_r.
  - destruct (send_spec fuel b d Hf Hd) as (d1 & H1 & Hp & Hs & Hr).
    rewrite (bind_step _ _ _ _ _ H1).
    destruct (IH d1) as (d2 & -> & ? & Hs2 & ?); [by rewrite Hp|].
    exists d2. rewrite Hs2, Hs, <- app_assoc. split_and!; [done|congruence|done|congruence].
Qed.

(** [SerialPort::init] leaves the port with divisor 3 (38400 baud), eight bits, no
    parity and one stop bit, the FIFOs on, the received-data interrupt on, and the
    divisor latch closed, whatever was programmed before; it sends nothing. *)
Theorem uart_init d :
  ∃ d', Uart.init self d = Done ((), d') ∧
    programmed d' = Uart.mkSettings 0x03 0x00 0x01 0xC7 0x03 0xAE ∧
    sent d' = sent d ∧ received d' = received d.
Proof.
  unfold Uart.init, self, Uart.new. cbn [Uart.interrupt_enable Uart.line_control Uart.data
    Uart.interrupt_identification_fifo_control Uart.scratch].
  assert (Hp : outb (D := D) port 3 = outb (port + 0) 3) by (by rewrite Z.add_0_r).
  rewrite Hp. clear Hp. destruct (programmed d) as [l m i f c x] eqn:E0.
  assert (Hs : ∃ i' l' m', Uart.program 1 0 (programmed d) = Some (Uart.mkSettings l' m' i' f c x)).
  { rewrite E0. unfold Uart.program. simpl. case_match; eauto. }
  destruct Hs as (i' & l' & m' & Hs).
  program d1 E1 by exact Hs.
  program d2 E2 by (by rewrite E1).
  program d3 E3 by (by rewrite E2).
  program d4 E4 by (by rewrite E3).
  program d5 E5 by (by rewrite E4).
  program d6 E6 by (by rewrite E5).
  program d7 E7 by (by rewrite E6).
  destruct (uart_program 1 1 d7 _ ltac:(by rewrite E7)) as (d8 & E & E8 & S8 & R8).
  exists d8. split_and!; [exact E|exact E8|congruence..].
Qed.

(** [receive] takes the oldest byte, if one has come. *)
Lemma receive_spec d :
  Uart.dlab (programmed d) = false →
  ∃ d', Uart.receive self d = Done (head (received d), d') ∧ programmed d' = programmed d ∧
    sent d' = sent d ∧ received d' = tail (received d).
Proof.
  intros Hd. unfold Uart.receive, self, Uart.new. cbn [Uart.line_status Uart.data].
  destruct (uart_status d) as (v & d1 & H1 & Hp & Hs & Hr & _ & _ & H0).
  rewrite (bind_step _ _ _ _ _ H1). cbv beta. change 1 with (2 ^ 0). rewrite land_bit, H0, negb_involutive by done.
  case_bool_decide as Hb.
  - destruct (received d) as [|b bs] eqn:Er; [done|].
    destruct (uart_receive b bs d1) as (d2 & H2 & ? & ? & ?); [by rewrite Hp|done|].
    rewrite Z.add_0_r in H2. rewrite (bind_step _ _ _ _ _ H2). exists d2. split_and!; [done|simpl; congruence..].
  - destruct (received d) as [|b bs] eqn:Er; [|done]. exists d1. split_and!; [done|simpl; congruence..].
Qed.

End Driver.

(** * Printing *)

(** The kernel's heap, which the panic handler needs for its strings: what is left of
    it when it holds a string too, if there is memory for it.  Before [allocator::init]
    there is none. *)
Class KernelHeap (K : Type) := { make_string : str → K → option K }.

(** The log crate's levels, in the order in which they let messages through. *)
Inductive Level : Type := Error | Warn | Info | Debug | Trace.
Definition level_number (l : Level) : Z :=
  match l with Error => 1 | Warn => 2 | Info => 3 | Debug => 4 | Trace => 5 end.

(** The interrupt flag, the port and its lock, the logger and the level it was set
    to ([None]: off). *)
Record world (D : Type) : Type := mkWorld {
  enabled : bool;
  SERIAL : Once.t Uart.SerialPort;
  uart : D;
  LOGGER : bool;
  max_level : option Level;
}.
Arguments mkWorld {D} enabled SERIAL uart LOGGER max_level.
Arguments enabled {D} w.
Arguments SERIAL {D} w.
Arguments uart {D} w.
Arguments LOGGER {D} w.
Arguments max_level {D} w.

Definition SERIAL_IO_PORT : Z := 0x3F8.

(** [env!("CARGO_PKG_VERSION")], from [pkg/kernel/Cargo.toml] *)
Definition CARGO_PKG_VERSION : str := chars "0.4.0".

Definition get_ascii_header : str :=
  chars "
__  __      __  _____            ____  _____
\ \/ /___ _/ /_/ ___/___  ____  / __ \/ ___/
 \  / __ `/ __/\__ \/ _ \/ __ \/ / / /\__ \
 / / /_/ / /_ ___/ /  __/ / / / /_/ /___/ /
/_/\__,_/\__//____/\___/_/ /_/\____//____/

                                       v" ++ CARGO_PKG_VERSION.

Definition get_header : str := chars ">>> YatSenOS v" ++ CARGO_PKG_VERSION.

Section Printing.
Context {D : Type} `{HP : Ports D} (fuel : nat).

Definition set_enabled (b : bool) (w : world D) : world D :=
  mkWorld b (SERIAL w) (uart w) (LOGGER w) (max_level w).
Definition set_SERIAL (c : Once.t Uart.SerialPort) (w : world D) : world D :=
  mkWorld (enabled w) c (uart w) (LOGGER w) (max_level w).
Definition set_uart (d : D) (w : world D) : world D :=
  mkWorld (enabled w) (SERIAL w) d (LOGGER w) (max_level w).

Definition on_cell {A} : M (Once.t Uart.SerialPort) A → M (world D) A := zoom SERIAL set_SERIAL.
Definition on_uart {A} : M D A → M (world D) A := zoom uart set_uart.

(** [interrupts::without_interrupts] *)
Definition without_interrupts {A} (m : M (world D) A) : M (world D) A :=
  was ← gets enabled;
  modify (set_enabled false);;
  a ← m;
  modify (set_enabled was);;
  mret a.

(** [halt]: [enable_and_hlt] ends with the next interrupt. *)
Definition halt : M (world D) () :=
  was ← gets enabled;
  modify (set_enabled true);;
  if was : bool then mret () else modify (set_enabled false).

(** [print_warn_internal] and [print_serial_internal] are the same. *)
Definition print_internal (s : str) : M (world D) () :=
  without_interrupts (
    g ← on_cell Once.get;
    match g with
    | Some serial => on_uart (Uart.write_str fuel serial s);; on_cell Once.force_unlock
    | None => mret ()
    end).

Definition println (s : str) : M (world D) () := print_internal (s ++ [10; 13]).

(** [serial::init] *)
Definition serial_init : M (world D) () :=
  on_cell (Once.init (Uart.new SERIAL_IO_PORT));;
  serial ← on_cell Once.get_for_sure;
  on_uart (Uart.init serial);;
  on_cell Once.force_unlock;;
  println get_ascii_header;;
  println (chars "[+] Serial Initialized.").

(** [serial::backspace] *)
Definition backspace : M (world D) () :=
  serial ← on_cell Once.get_for_sure;
  on_uart (Uart.send fuel serial 8);;
  on_cell Once.force_unlock.

(** * The logger *)

(** A log record: its level, where it was written, and its text. *)
Record record : Type := mkRecord { level : Level; file : option str; line : option Z; args : str }.

(** [Logger::log] *)
Definition logger_log (r : record) : M (world D) () :=
  match level r with
  | Error => println (chars "[E] " ++ default [] (file r) ++ chars "@" ++
                      show 10 (default 0 (line r)) ++ chars ": " ++ args r)
  | Warn => println (chars "[!] " ++ args r)
  | Info => println (chars "[+] " ++ args r)
  | Debug => println (chars "[D] " ++ args r)
  | Trace => println (chars "[T] " ++ args r)
  end.

(** [log::log!]: below the level, the logger is called. *)
Definition log (r : record) : M (world D) () :=
  w ← get;
  if LOGGER w && match max_level w with None => false | Some l => level_number (level r) <=? level_number l end
  then logger_log r else mret ().

(** The level of a name in [boot.conf]. *)
Definition level_of (name : str) : Level :=
  if decide (name = chars "error") then Error
  else if decide (name = chars "warn") then Warn
  else if decide (name = chars "info") then Info
  else if decide (name = chars "debug") then Debug
  else if decide (name = chars "trace") then Trace
  else Info.

Definition level_name (l : Level) : str :=
  match l with
  | Error => chars "ERROR" | Warn => chars "WARN" | Info => chars "INFO"
  | Debug => chars "DEBUG" | Trace => chars "TRACE"
  end.

Definition info (s : str) : M (world D) () := log (mkRecord Info None None s).

(** [logger::init]: [set_logger] fails the second time. *)
Definition logger_init (log_level : str) : M (world D) () :=
  w ← get;
  (if LOGGER w then panic else mret ());;
  let l := level_of log_level in
  put (mkWorld (enabled w) (SERIAL w) (uart w) true (Some l));;
  info (chars "Current log level: " ++ level_name l);;
  info (chars "Logger Initialized.").

(** * The panic handler, until its endless loop *)

Record location : Type := mkLocation { loc_file : str; loc_line : Z; loc_column : Z }.

(** [alloc::format!] and [to_string] in the kernel's heap [K]: without memory
    [alloc_error_handler] panics. *)
Definition to_String {K} `{KernelHeap K} (s : str) : M (world D * K) str := λ wk,
  match make_string s wk.2 with Some k => Done (s, (wk.1, k)) | None => Panic end.

Definition on_world {A K} : M (world D) A → M (world D * K) A := zoom fst (λ w wk, (w, wk.2)).

Definition panic_handler {K} `{KernelHeap K} (file : str) (line : Z) (loc : option location) (message : option str) :
    M (world D * K) () :=
  on_world (on_cell Once.force_unlock);;
  location ← match loc with
    | Some l => to_String (loc_file l ++ chars " @ " ++ show 10 (loc_line l) ++ chars ":" ++ show 10 (loc_column l))
    | None => to_String (chars "Unknown location")
    end;
  msg ← match message with Some m => to_String m | None => to_String (chars "No more message...") end;
  on_world (log (mkRecord Error (Some file) (Some line)
    ([10; 10; 13] ++ chars "ERROR: panicked at " ++ location ++ [10; 10; 13] ++ msg))).

End Printing.

(** ** What is printed *)

(** The line a record becomes. *)
Definition rendered (r : record) : str :=
  match level r with
  | Error => chars "[E] " ++ default [] (file r) ++ chars "@" ++ show 10 (default 0 (line r)) ++ chars ": "
  | Warn => chars "[!] " | Info => chars "[+] " | Debug => chars "[D] " | Trace => chars "[T] "
  end ++ args r ++ [10; 13].

Section Printed.
Context {D : Type} `{HP : Ports D} `{HU : !Uart16550 D SERIAL_IO_PORT} (fuel : nat).
Hypothesis enough : (baud_bound < fuel)%nat.

(** The console is ready: the port is set up, and its lock is [lk]. *)
Definition ready (lk : bool) (w : world D) : Prop :=
  SERIAL w = Some (Once.mkMutex lk (Uart.new SERIAL_IO_PORT)) ∧ Uart.dlab (programmed (uart w)) = false.

(** From [w] to [w'] exactly [bytes] were sent, and nothing else changed. *)
Definition printed (bytes : list Z) (w w' : world D) : Prop :=
  w' = set_uart (uart w') w ∧ sent (uart w') = sent (uart w) ++ bytes ∧
  programmed (uart w') = programmed (uart w) ∧ received (uart w') = received (uart w).

Lemma printed_nil w : printed [] w w.
Proof. split_and!; [by destruct w|by rewrite app_nil_r|done..]. Qed.

Lemma printed_trans b1 b2 w1 w2 w3 : printed b1 w1 w2 → printed b2 w2 w3 → printed (b1 ++ b2) w1 w3.
Proof.
  intros (E1 & S1 & P1 & R1) (E2 & S2 & P2 & R2). split_and!; [|by rewrite S2, S1, <- app_assoc|congruence..].
  rewrite E2, E1. done.
Qed.

Lemma printed_ready lk b w w' : printed b w w' → ready lk w → ready lk w'.
Proof. intros (E & _ & P & _) [Hs Hd]. split; [by rewrite E|by rewrite P]. Qed.

Lemma print_ready s w :
  ready false w → ∃ w', print_internal fuel s w = Done ((), w') ∧ printed (as_bytes s) w w'.
Proof.
  intros [Hs Hd]. destruct w as [b c d lg ml]. simpl in *. subst c.
  destruct (send_all_spec SERIAL_IO_PORT fuel (as_bytes s) d enough Hd) as (d' & E & P & S & R).
  exists (mkWorld b (Some (Once.mkMutex false (Uart.new SERIAL_IO_PORT))) d' lg ml). split; [|by split_and!].
  unfold self in E. generalize dependent (Uart.new SERIAL_IO_PORT). intros p E.
  unfold print_internal, without_interrupts, on_cell, on_uart, zoom, mbind, M_bind, gets, modify, Uart.write_str.
  cbn. by rewrite E.
Qed.

(** A print while the lock is held, or before the port is there, is dropped. *)
Lemma print_dropped s w :
  SERIAL w = None ∨ (∃ p, SERIAL w = Some (Once.mkMutex true p)) → print_internal fuel s w = Done ((), w).
Proof.
  destruct w as [b c d lg ml]. simpl. by intros [->|[p ->]].
Qed.

Lemma as_bytes_app a b : as_bytes (a ++ b) = as_bytes a ++ as_bytes b.
Proof. apply bind_app. Qed.

Lemma logger_log_ready r w :
  ready false w → ∃ w', logger_log fuel r w = Done ((), w') ∧ printed (as_bytes (rendered r)) w w'.
Proof.
  intros Hw.
  assert (E : logger_log fuel r = print_internal fuel (rendered r)).
  { unfold logger_log, rendered, println. destruct (level r); by rewrite <- ?app_assoc. }
  rewrite E. by apply print_ready.
Qed.

Lemma log_ready r w l :
  ready false w → LOGGER w = true → max_level w = Some l →
  ∃ w', log fuel r w = Done ((), w') ∧
    printed (if level_number (level r) <=? level_number l then as_bytes (rendered r) else []) w w'.
Proof.
  intros Hw Hl Hm. unfold log. rewrite (bind_step _ _ _ w w) by done. rewrite Hl, Hm. simpl.
  case_match; [by apply logger_log_ready|]. exists w. split; [done|apply printed_nil].
Qed.

(** After [serial::init] the port is ready. *)
Lemma halt_restores (w : world D) : halt w = Done ((), w).
Proof. destruct w as [[] ? ? ? ?]; done. Qed.

Lemma serial_init_spec w :
  SERIAL w = None →
  ∃ w', serial_init fuel w = Done ((), w') ∧ ready false w' ∧
    sent (uart w') = sent (uart w) ++ as_bytes (get_ascii_header ++ [10; 13]) ++ as_bytes (chars "[+] Serial Initialized." ++ [10; 13]) ∧
    enabled w' = enabled w ∧ LOGGER w' = LOGGER w.
Proof.
  intros Hs. destruct w as [b c d lg ml]. simpl in Hs. subst c.
  destruct (uart_init SERIAL_IO_PORT d) as (d1 & E1 & P1 & S1 & R1).
  unfold self in E1. set (p := Uart.new SERIAL_IO_PORT) in *.
  set (w1 := mkWorld b (Some (Once.mkMutex false p)) d1 lg ml).
  assert (Hw1 : ready false w1) by (split; [done|cbn; by rewrite P1]).
  destruct (print_ready (get_ascii_header ++ [10; 13]) w1 Hw1) as (w2 & E2 & P2).
  pose proof (printed_ready _ _ _ _ P2 Hw1) as Hw2.
  destruct (print_ready (chars "[+] Serial Initialized." ++ [10; 13]) w2 Hw2) as (w3 & E3 & P3).
  pose proof (printed_trans _ _ _ _ _ P2 P3) as P23.
  exists w3. split_and!; [|by eapply printed_ready| | |].
  - unfold serial_init. fold p. rewrite (bind_step _ _ _ () (mkWorld b (Some (Once.mkMutex false p)) d lg ml)) by done.
    rewrite (bind_step _ _ _ p (mkWorld b (Some (Once.mkMutex true p)) d lg ml)) by done.
    rewrite (bind_step _ _ _ () (mkWorld b (Some (Once.mkMutex true p)) d1 lg ml))
      by (unfold on_uart, zoom; cbn [uart]; by rewrite E1).
    rewrite (bind_step _ _ _ () w1) by done. unfold println. by rewrite (bind_step _ _ _ _ _ E2).
  - destruct P23 as (_ & -> & _). cbn [uart w1]. by rewrite S1.
  - by destruct P23 as (-> & _).
  - by destruct P23 as (-> & _).
Qed.

(** The announcements do not take the port away. *)
Lemma logger_init_ready name w :
  ready false w → LOGGER w = false →
  ∃ w', logger_init fuel name w = Done ((), w') ∧ ready false w' ∧ enabled w' = enabled w ∧
    LOGGER w' = true ∧ max_level w' = Some (level_of name) ∧ SERIAL w' = SERIAL w ∧
    ∃ l, sent (uart w') = sent (uart w) ++ l ∧
      l = if 3 <=? level_number (level_of name) then
        as_bytes (chars "[+] Current log level: " ++ level_name (level_of name) ++ [10; 13] ++
          chars "[+] Logger Initialized." ++ [10; 13]) else [].
Proof.
  intros Hw Hl. unfold logger_init. rewrite (bind_step _ _ _ w w) by done. rewrite Hl.
  rewrite (bind_step _ _ _ () w) by done. set (l := level_of name).
  set (w0 := mkWorld (enabled w) (SERIAL w) (uart w) true (Some l)).
  rewrite (bind_step _ _ _ () w0) by done.
  assert (Hw0 : ready false w0) by done.
  destruct (log_ready (mkRecord Info None None (chars "Current log level: " ++ level_name l)) w0 l Hw0)
    as (w1 & E1 & P1); [done..|].
  unfold info. rewrite (bind_step _ _ _ _ _ E1).
  pose proof (printed_ready _ _ _ _ P1 Hw0) as Hw1. pose proof P1 as (K1 & _).
  destruct (log_ready (mkRecord Info None None (chars "Logger Initialized.")) w1 l Hw1)
    as (w2 & E2 & P2); [by rewrite K1..|].
  exists w2. pose proof (printed_trans _ _ _ _ _ P1 P2) as P. pose proof P as (K & Hs & _).
  split_and!; [done|by eapply printed_ready|by rewrite K..|]. eexists. split; [exact Hs|].
  cbn [level level_number]. destruct (3 <=? level_number l); [|done].
  unfold rendered. cbn [level args]. by rewrite !as_bytes_app, <- !app_assoc.
Qed.

(** Once the logger is set to the level that [boot.conf] names, a message goes to the
    serial line exactly if its level is at most that one, as one line with its
    mark, byte for byte in UTF-8, and nothing else is sent; at [info] and above the
    logger announces itself. *)
Theorem log_filters (name : str) w :
  ready false w → LOGGER w = false →
  ∃ w1, logger_init fuel name w = Done ((), w1) ∧
    sent (uart w1) = sent (uart w) ++
      (if 3 <=? level_number (level_of name) then
        as_bytes (chars "[+] Current log level: " ++ level_name (level_of name) ++ [10; 13] ++
          chars "[+] Logger Initialized." ++ [10; 13]) else []) ∧
    ∀ r, ∃ w2, log fuel r w1 = Done ((), w2) ∧
      printed (if level_number (level r) <=? level_number (level_of name) then as_bytes (rendered r) else []) w1 w2.
Proof.
  intros Hw Hl. destruct (logger_init_ready name w Hw Hl) as (w1 & E & Hw1 & _ & Hl1 & Hm1 & _ & b & Hs & ->).
  exists w1. split_and!; [done..|]. intros r. by apply log_ready.
Qed.

(** C38: The panic handler is heard even if the panicking code held the lock of the port,
    as long as the heap has memory for the two strings it builds: it takes the lock away and prints
    the place, file, line and column, and the message, as an error, at
    every level of the logger; an ordinary print would have been dropped.  Without memory for
    the first string, as before [allocator::init], or for the second, the handler itself panics, with nothing
    printed, and so it does before the port is set up. *)
Theorem panic_speaks {K} `{HK : KernelHeap K} file line loc message w lk l (h h1 h2 : K) :
  ready lk w → LOGGER w = true → max_level w = Some l →
  let place := match loc with
    | Some (mkLocation f n c) => f ++ chars " @ " ++ show 10 n ++ chars ":" ++ show 10 c
    | None => chars "Unknown location" end in
  let msg := default (chars "No more message...") message in
  make_string place h = Some h1 → make_string msg h1 = Some h2 →
  (∃ w', panic_handler fuel file line loc message (w, h) = Done ((), (w', h2)) ∧ ready false w' ∧
    sent (uart w') = sent (uart w) ++ as_bytes (chars "[E] " ++ file ++ chars "@" ++ show 10 line ++
       chars ": " ++ [10; 10; 13] ++ chars "ERROR: panicked at " ++ place ++ [10; 10; 13] ++ msg ++ [10; 13])) ∧
  (lk = true → ∀ s, print_internal fuel s w = Done ((), w)) ∧
  (∀ h', make_string place h' = None → panic_handler fuel file line loc message (w, h') = Panic) ∧
  (∀ h' h1', make_string place h' = Some h1' → make_string msg h1' = None →
    panic_handler fuel file line loc message (w, h') = Panic) ∧
  ∀ h', panic_handler fuel file line loc message (set_SERIAL None w, h') = Panic.
Proof.
  intros Hw Hl Hm place msg Hh1 Hh2.
  assert (Hrun : ∀ h', panic_handler fuel file line loc message (w, h') =
    match make_string place h' with
    | None => Panic
    | Some h1 => match make_string msg h1 with
      | None => Panic
      | Some h2 => on_world (log fuel (mkRecord Error (Some file) (Some line)
          ([10; 10; 13] ++ chars "ERROR: panicked at " ++ place ++ [10; 10; 13] ++ msg)))
          (set_SERIAL (Some (Once.mkMutex false (Uart.new SERIAL_IO_PORT))) w, h2)
      end end).
  { intros h'. destruct Hw as [Hs _]. unfold panic_handler.
    rewrite (bind_step _ _ _ () (set_SERIAL (Some (Once.mkMutex false (Uart.new SERIAL_IO_PORT))) w, h')).
    2: { unfold on_world, on_cell, zoom, Once.force_unlock. cbn [fst snd]. by rewrite Hs. }
    unfold mbind, M_bind, to_String. subst place msg. destruct loc as [[f n c']|], message; cbn [fst snd loc_file loc_line loc_column default from_option];
      destruct (make_string _ h') as [h1'|]; cbn [fst snd]; try done; by destruct (make_string _ h1'). }
  split_and!.
  - rewrite (Hrun h), Hh1, Hh2.
    set (w0 := set_SERIAL (Some (Once.mkMutex false (Uart.new SERIAL_IO_PORT))) w).
    assert (Hw0 : ready false w0) by (destruct Hw; done).
    match goal with |- ∃ _, on_world (log _ ?r) _ = _ ∧ _ => destruct (log_ready r w0 l Hw0 Hl Hm) as (w1 & E1 & P1) end.
    exists w1. split; [unfold on_world, zoom; cbn [fst snd]; by rewrite E1|]. split; [by eapply printed_ready|].
    destruct P1 as (_ & -> & _). change (uart w0) with (uart w). f_equal.
    assert (Hle : (level_number Error <=? level_number l) = true) by (by destruct l).
    cbn [level]. rewrite Hle. f_equal. unfold rendered. cbn [level args default from_option Console.file Console.line].
    by rewrite <- !app_assoc.
  - intros -> s. apply print_dropped. destruct Hw as [Hs _]. rewrite Hs. eauto.
  - intros h' Hn. by rewrite (Hrun h'), Hn.
  - intros h' h1' Hn Hn1. by rewrite (Hrun h'), Hn, Hn1.
  - done.
Qed.

End Printed.

(** * A 16550 on COM1 *)

Record chip : Type := mkChip { c_set : Uart.settings; c_sent : list Z; c_in : list Z; c_busy : nat }.

Definition chip_busy (d : chip) : nat := Nat.min 2 (c_busy d).

Definition chip_inb (p : Z) : M chip Z := λ d,
  if p =? SERIAL_IO_PORT + 5 then
    Done ((if decide (chip_busy d = O) then 32 else 0) + (if decide (c_in d = []) then 0 else 1),
      mkChip (c_set d) (c_sent d) (c_in d) (pred (chip_busy d)))
  else if p =? SERIAL_IO_PORT + 0 then
    Done (default 0 (head (c_in d)), mkChip (c_set d) (c_sent d) (tail (c_in d)) (c_busy d))
  else Done (0, d).

Definition chip_outb (p v : Z) : M chip () := λ d,
  Done ((), match Uart.program (p - SERIAL_IO_PORT) v (c_set d) with
            | Some s => mkChip s (c_sent d) (c_in d) (c_busy d)
            | None => mkChip (c_set d) (c_sent d ++ [v]) (c_in d) 2
            end).

#[export] Instance chip_ports : Ports chip := {| inb := chip_inb; outb := chip_outb |}.

#[export, program] Instance chip_uart : Uart16550 chip SERIAL_IO_PORT := {|
  programmed := c_set; sent := c_sent; received := c_in; busy := chip_busy; baud_bound := 2 |}.
Next Obligation. intros. unfold chip_busy. lia. Qed.
Next Obligation.
  intros offset v d s Hs. eexists. split; [done|]. cbn -[Uart.program].
  replace (SERIAL_IO_PORT + offset - SERIAL_IO_PORT) with offset by lia. by rewrite Hs.
Qed.
Next Obligation.
  intros d. do 2 eexists. split; [done|]. cbn [c_set c_sent c_in]. split_and!; [done..| | |].
  - unfold chip_busy at 1. cbn [c_busy]. unfold chip_busy. lia.
  - by destruct (decide (chip_busy d = O)), (decide (c_in d = [])); case_bool_decide.
  - by destruct (decide (chip_busy d = O)), (decide (c_in d = [])); case_bool_decide.
Qed.
Next Obligation.
  intros v [[l m i f c x] o n b] Hd _. eexists. split; [done|]. unfold Uart.program; cbn in *. by rewrite Hd.
Qed.
Next Obligation.
  intros b bs [s o n k] Hd Hr. cbn in Hr. subst n. eexists. split; [done|]. done.
Qed.

(** A chip as it is found: the divisor latch open, the transmitter busy. *)
Definition cold_chip : chip := mkChip (Uart.mkSettings 1 2 3 4 0x80 6) [] [65] 2.
Definition warm_chip : chip := mkChip (Uart.mkSettings 3 0 1 0xC7 3 0xAE) [] [65] 2.
Definition warm_world (lk : bool) (lg : bool) (ml : option Level) : world chip :=
  mkWorld true (Some (Once.mkMutex lk (Uart.new SERIAL_IO_PORT))) warm_chip lg ml.

Lemma chip_enough : (baud_bound (D := chip) (port := SERIAL_IO_PORT) < 3)%nat.
Proof. simpl. lia. Qed.

Lemma uart_init_witness :
  ∃ d', Uart.init (Uart.new SERIAL_IO_PORT) cold_chip = Done ((), d') ∧
    c_set d' = Uart.mkSettings 0x03 0x00 0x01 0xC7 0x03 0xAE ∧ c_in d' = [65].
Proof. destruct (uart_init SERIAL_IO_PORT cold_chip) as (d' & E & P & S & R). eauto. Defined.

Lemma log_filters_witness :
  ready false (warm_world false false None) ∧
  ∃ w1, logger_init 3 (chars "warn") (warm_world false false None) = Done ((), w1) ∧ sent (uart w1) = [] ∧
    ∃ w2, log 3 (mkRecord Warn None None (chars "hi")) w1 = Done ((), w2) ∧
      sent (uart w2) = sent (uart w1) ++ as_bytes (chars "[!] hi" ++ [10; 13]).
Proof.
  assert (H : ready false (warm_world false false None)) by done. split; [done|].
  destruct (log_filters 3 chip_enough (chars "warn") _ H eq_refl) as (w1 & E & S & F).
  exists w1. split_and!; [done|by rewrite S|].
  destruct (F (mkRecord Warn None None (chars "hi"))) as (w2 & E2 & _ & S2 & _).
  exists w2. split; [done|]. by rewrite S2.
Defined.

(** A heap of which only the number of free bytes counts. *)
Definition bytes_left (s : str) (n : Z) : option Z :=
  if Z.of_nat (length (as_bytes s)) <=? n then Some (n - Z.of_nat (length (as_bytes s))) else None.
#[local] Instance bytes_heap : KernelHeap Z := {| make_string := bytes_left |}.

Lemma panic_speaks_witness :
  ready true (warm_world true true (Some Error)) ∧
  (∃ w', panic_handler 3 (chars "f.rs") 7 (Some (mkLocation (chars "g.rs") 12 5)) (Some (chars "boom"))
      (warm_world true true (Some Error), 100) = Done ((), (w', 85)) ∧
    sent (uart w') = as_bytes (chars "[E] f.rs@7: " ++ [10; 10; 13] ++ chars "ERROR: panicked at g.rs @ 12:5" ++ [10; 10; 13] ++
      chars "boom" ++ [10; 13])) ∧
  panic_handler 3 (chars "f.rs") 7 (Some (mkLocation (chars "g.rs") 12 5)) (Some (chars "boom"))
    (warm_world true true (Some Error), 0) = Panic.
Proof.
  assert (H : ready true (warm_world true true (Some Error))) by done. split; [done|].
  destruct (panic_speaks (HK := bytes_heap) 3 chip_enough (chars "f.rs") 7 (Some (mkLocation (chars "g.rs") 12 5)) (Some (chars "boom")) _ true Error
    100 89 85 H eq_refl eq_refl ltac:(vm_compute; reflexivity) ltac:(vm_compute; reflexivity)) as ((w' & E & R & S) & _ & Hno & _).
  split; [|apply Hno; vm_compute; reflexivity]. exists w'. split; [exact E|]. rewrite S. reflexivity.
Defined.
