(* ===== verification/Apic.v ===== *)
(** Interrupts: the local APIC and the I/O APIC ([interrupt/apic]), the interrupt
    descriptor table ([interrupt/mod.rs], [consts.rs], the [reg_idt]s and the
    handlers of [interrupt/exception.rs]) and the interrupt stacks
    ([memory/gdt.rs]).

    The devices are parameters: memory-mapped registers, [Mmio], with the laws of
    the two chips, [Lapic] and [IoApicChip], from their documentation.  The loops
    that wait for the delivery of an interprocessor interrupt have fuel, a read
    of the register for every unit. *)
From S2P Require Import Prelude Arch Frames.

Class Mmio (D : Type) := {
  read_volatile : Z → M D Z;
  write_volatile : Z → Z → M D ();
}.

(** * The numbers of interrupts: [interrupt/consts.rs] *)

Module Interrupts.
Definition DivideError : Z := 0.
Definition Debug : Z := 1.
Definition NonMaskableInterrupt : Z := 2.
Definition Breakpoint : Z := 3.
Definition Overflow : Z := 4.
Definition BoundRangeExceeded : Z := 5.
Definition InvalidOpcode : Z := 6.
Definition DeviceNotAvailable : Z := 7.
Definition DoubleFault : Z := 8.
Definition InvalidTSS : Z := 10.
Definition SegmentNotPresent : Z := 11.
Definition StackSegmentFault : Z := 12.
Definition GeneralProtectionFault : Z := 13.
Definition PageFault : Z := 14.
Definition AlignmentCheck : Z := 17.
Definition MachineCheck : Z := 18.
Definition SIMDFloatingPointException : Z := 19.
Definition IrqBase : Z := 0x20.
Definition Syscall : Z := 0x80.
End Interrupts.

Module Irq.
Definition Timer : Z := 0.
Definition Serial0 : Z := 4.
End Irq.

(** * The local APIC: [apic/xapic.rs], [apic/mod.rs] *)

Module XApic.

Definition LAPIC_ADDR : Z := 0xfee00000.
Definition ID : Z := 0x0020.
Definition VER : Z := 0x0030.
Definition TPR : Z := 0x0080.
Definition EOI : Z := 0x00B0.
Definition SVR : Z := 0x00F0.
Definition ENABLE : Z := 0x00000100.
Definition ESR : Z := 0x0280.
Definition ICRLO : Z := 0x0300.
Definition INIT : Z := 0x00000500.
Definition DELIVS : Z := 0x00001000.
Definition LEVEL : Z := 0x00008000.
Definition BCAST : Z := 0x00080000.
Definition ICRHI : Z := 0x0310.
Definition TIMER : Z := 0x0320.
Definition PERIODIC : Z := 0x00020000.
Definition PCINT : Z := 0x0340.
Definition LINT0 : Z := 0x0350.
Definition LINT1 : Z := 0x0360.
Definition ERROR : Z := 0x0370.
Definition MASKED : Z := 0x00010000.
Definition TICR : Z := 0x0380.
Definition TDCR : Z := 0x03E0.
Definition T_IRQ0 : Z := 32.
Definition IRQ_TIMER : Z := 0.
Definition IRQ_ERROR : Z := 19.
Definition IRQ_SPURIOUS : Z := 31.

Section XApic.
Context {D : Type} `{Mmio D} `{Profile} (addr : Z).

Definition read (reg : Z) : M D Z := a ← word_op 64 (addr + reg); read_volatile a.

Definition write (reg value : Z) : M D () :=
  a ← word_op 64 (addr + reg);
  write_volatile a value;;
  read 0x20;;
  mret ().

(** [while self.read(ICRLO) & DELIVS != 0 {}] *)
Fixpoint wait_delivery (fuel : nat) : M D () :=
  match fuel with
  | O => out_of_fuel
  | S fuel =>
      v ← read ICRLO;
      if negb (Z.land v DELIVS =? 0) then wait_delivery fuel else mret ()
  end.

Definition cpu_init (fuel : nat) : M D () :=
  write SVR (Z.lor ENABLE (T_IRQ0 + IRQ_SPURIOUS));;
  write TDCR 11;;
  write TIMER (Z.lor PERIODIC (T_IRQ0 + IRQ_TIMER));;
  write TICR 0x20000;;
  write LINT0 MASKED;;
  write LINT1 MASKED;;
  v ← read VER;
  (if 4 <=? Z.land (Z.shiftr v 16) 0xFF then write PCINT MASKED else mret ());;
  write ERROR (T_IRQ0 + IRQ_ERROR);;
  write ESR 0;;
  write ESR 0;;
  write EOI 0;;
  write ICRHI 0;;
  write ICRLO (Z.lor (Z.lor BCAST INIT) LEVEL);;
  wait_delivery fuel;;
  write TPR 0.

Definition id : M D Z := v ← read ID; mret (Z.shiftr v 24).
Definition version : M D Z := read VER.

Definition icr : M D Z :=
  hi ← read ICRHI;
  lo ← read ICRLO;
  mret (Z.lor (Z.shiftl hi 32) lo).

(** [while self.read(ICRLO).get_bit(12) {}] *)
Fixpoint wait_idle (fuel : nat) : M D () :=
  match fuel with
  | O => out_of_fuel
  | S fuel =>
      v ← read ICRLO;
      if Z.testbit v 12 then wait_idle fuel else mret ()
  end.

Definition set_icr (fuel : nat) (value : Z) : M D () :=
  wait_idle fuel;;
  write ICRHI (wrap 32 (Z.shiftr value 32));;
  write ICRLO (wrap 32 value);;
  wait_idle fuel.

Definition eoi : M D () := write EOI 0.

(** [LocalApic::send_ipi] *)
Definition send_ipi (fuel : nat) (apic_id int_id : Z) : M D () :=
  set_icr fuel (Z.lor (Z.shiftl apic_id 56) int_id).

End XApic.

(** The bits of a register that a write sets. *)
Definition mask (r : Z) : Z :=
  if r =? SVR then 0x1ff
  else if r =? TDCR then 0xb
  else if r =? TIMER then 0x300ff
  else if r =? TICR then 0xffffffff
  else if (r =? LINT0) || (r =? LINT1) then 0x1a7ff
  else if r =? PCINT then 0x107ff
  else if r =? ERROR then 0x100ff
  else if r =? ICRHI then 0xff000000
  else if r =? ICRLO then 0xccfff
  else if r =? TPR then 0xff
  else 0.

(** The registers that keep what is written to them, and those that can be read. *)
Definition config (r : Z) : bool := negb (mask r =? 0).
Definition readable (r : Z) : bool := config r || (r =? VER) || (r =? ID).

End XApic.

(** What a local APIC does: a register keeps what is written; a write of the low
    half of the command register sends the command, and its delivery bit is set
    for the next [pending] reads of it; a write to [EOI] ends an interrupt. *)
Class Lapic (D : Type) `{Mmio D} (addr : Z) := {
  reg : D → Z → Z;
  commands : D → list Z;
  eois : D → nat;
  pending : D → nat;
  delivery_bound : nat;

  lapic_pending d : (pending d ≤ delivery_bound)%nat;
  lapic_icr d : Z.land (reg d XApic.ICRLO) (XApic.mask XApic.ICRLO) = reg d XApic.ICRLO;
  lapic_read r d :
    0 ≤ r < 0x400 →
    ∃ v d', read_volatile (addr + r) d = Done (v, d') ∧
      (∀ r', reg d' r' = reg d r') ∧ commands d' = commands d ∧ eois d' = eois d ∧
      pending d' = (if r =? XApic.ICRLO then pred (pending d) else pending d) ∧
      (r = XApic.ICRLO → v = Z.lor (reg d r) (if decide (pending d = O) then 0 else XApic.DELIVS)) ∧
      (XApic.readable r = true → r ≠ XApic.ICRLO → v = reg d r);
  lapic_write r v d :
    0 ≤ r < 0x400 → Z.land v (XApic.mask r) = v →
    ∃ d', write_volatile (addr + r) v d = Done ((), d') ∧
      (∀ r', XApic.readable r' = true → reg d' r' = if (r' =? r) && XApic.config r then v else reg d r') ∧
      commands d' = commands d ++
        (if r =? XApic.ICRLO then [Z.lor (Z.shiftl (reg d XApic.ICRHI) 32) v] else []) ∧
      eois d' = (eois d + if (r =? XApic.EOI)%Z then 1 else 0)%nat ∧
      (r ≠ XApic.ICRLO → pending d' = pending d);
}.

(** A small number has no high bits. *)
Lemma bits_small w x n : 0 ≤ x < 2 ^ w → w ≤ n → Z.testbit x n = false.
Proof.
  intros Hx Hn. destruct (decide (x = 0)) as [->|]; [apply Z.bits_0|].
  apply Z.bits_above_log2; [lia|]. apply Z.log2_lt_pow2; [lia|].
  destruct (decide (0 ≤ w)); [|rewrite (Z.pow_neg_r 2 w) in Hx; lia].
  apply Z.lt_le_trans with (2 ^ w); [lia|]. by apply Z.pow_le_mono_r.
Qed.

Section LocalApic.
Context {D : Type} `{HM : Mmio D} (addr : Z) `{HL : !Lapic D addr} `{Profile} (fuel : nat).
Hypothesis in_range : 0 ≤ addr ≤ 2 ^ 64 - 0x400.
Hypothesis enough : (delivery_bound < fuel)%nat.

(** From [d] to [d'] the driver wrote [v] to [r]. *)
Definition wrote (r v : Z) (d d' : D) : Prop :=
  (∀ r', XApic.readable r' = true → reg d' r' = if (r' =? r) && XApic.config r then v else reg d r') ∧
  commands d' = commands d ++
    (if r =? XApic.ICRLO then [Z.lor (Z.shiftl (reg d XApic.ICRHI) 32) v] else []) ∧
  eois d' = (eois d + if (r =? XApic.EOI)%Z then 1 else 0)%nat.

(** From [d] to [d'] the driver only read. *)
Definition same (d d' : D) : Prop :=
  (∀ r, reg d' r = reg d r) ∧ commands d' = commands d ∧ eois d' = eois d.

Lemma same_trans d1 d2 d3 : same d1 d2 → same d2 d3 → same d1 d3.
Proof. intros (R1 & C1 & E1) (R2 & C2 & E2). split_and!; [intros; by rewrite R2|congruence..]. Qed.

Lemma read_step r d :
  0 ≤ r < 0x400 →
  ∃ v d', XApic.read addr r d = Done (v, d') ∧ same d d' ∧
    (XApic.readable r = true → r ≠ XApic.ICRLO → v = reg d r) ∧
    (r = XApic.ICRLO → pending d' = pred (pending d) ∧
       v = Z.lor (reg d r) (if decide (pending d = O) then 0 else XApic.DELIVS)).
Proof.
  intros Hr. destruct (lapic_read r d Hr) as (v & d' & E & R & C & N & P & L & V).
  exists v, d'. unfold XApic.read. rewrite (bind_step _ _ _ _ _ (word_op_exact 64 (addr + r) d ltac:(lia))).
  split_and!; [exact E|by split_and!|exact V|]. intros ->. rewrite Z.eqb_refl in P. auto.
Qed.

Lemma write_spec r v d :
  0 ≤ r < 0x400 → Z.land v (XApic.mask r) = v →
  ∃ d', XApic.write addr r v d = Done ((), d') ∧ wrote r v d d'.
Proof.
  intros Hr Hv. destruct (lapic_write r v d Hr Hv) as (d1 & E & R & C & N & _).
  destruct (read_step 0x20 d1) as (v2 & d2 & E2 & (R2 & C2 & N2) & _); [lia|].
  exists d2. unfold XApic.write.
  rewrite (bind_step _ _ _ _ _ (word_op_exact 64 (addr + r) d ltac:(lia))), (bind_step _ _ _ _ _ E),
    (bind_step _ _ _ _ _ E2).
  split; [done|]. split_and!; [intros r' Hr'; rewrite R2; by apply R|congruence..].
Qed.

Lemma write_step {B} r v (k : () → M D B) d :
  0 ≤ r < 0x400 → Z.land v (XApic.mask r) = v →
  ∃ d', (XApic.write addr r v ≫= k) d = k () d' ∧ wrote r v d d'.
Proof.
  intros Hr Hv. destruct (write_spec r v d Hr Hv) as (d' & E & W). exists d'.
  split; [by apply bind_step|done].
Qed.

(** The delivery bit, tested with either mask. *)
Lemma delivery_bit d v :
  v = Z.lor (reg d XApic.ICRLO) (if decide (pending d = O) then 0 else XApic.DELIVS) →
  Z.testbit v 12 = negb (bool_decide (pending d = O)).
Proof.
  intros ->. rewrite Z.lor_spec, <- lapic_icr, Z.land_spec. change (Z.testbit (XApic.mask XApic.ICRLO) 12) with false.
  rewrite andb_false_r. case_decide; case_bool_decide; try done.
Qed.

Lemma wait_idle_spec n d :
  (pending d < n)%nat →
  ∃ d', XApic.wait_idle addr n d = Done ((), d') ∧ same d d' ∧ pending d' = O.
Proof.
  revert d. induction n as [|n IH]; intros d Hn; [lia|]. cbn [XApic.wait_idle].
  destruct (read_step XApic.ICRLO d) as (v & d1 & E & S & _ & L); [done|]. destruct (L eq_refl) as [P V].
  rewrite (bind_step _ _ _ _ _ E). cbv beta. rewrite (delivery_bit d v V).
  case_bool_decide; simpl; [exists d1; split_and!; [done..|lia]|].
  destruct (IH d1) as (d2 & E2 & S2 & P2); [lia|]. exists d2. split_and!; [done|by eapply same_trans|done].
Qed.

Lemma wait_delivery_idle n d : XApic.wait_delivery addr n d = XApic.wait_idle addr n d.
Proof.
  revert d. induction n as [|n IH]; intros d; [done|]. cbn [XApic.wait_delivery XApic.wait_idle].
  apply bind_same; [done|]. intros v d' _. change XApic.DELIVS with (2 ^ 12). rewrite land_bit, negb_involutive by done.
  case_match; [apply IH|done].
Qed.

(** The write of [PCINT], which depends on the version. *)
Lemma pcint_step {B} (b : bool) (k : () → M D B) d :
  ∃ d', ((if b then XApic.write addr XApic.PCINT XApic.MASKED else mret ()) ≫= k) d = k () d' ∧
    (∀ r, XApic.readable r = true →
      reg d' r = if b && (r =? XApic.PCINT) then XApic.MASKED else reg d r) ∧
    commands d' = commands d ∧ eois d' = eois d.
Proof.
  destruct b; [|by exists d].
  destruct (write_step XApic.PCINT XApic.MASKED k d) as (d' & E & R & C & N); [done..|].
  exists d'. split_and!; [done| |by rewrite C, app_nil_r|by rewrite N, Nat.add_0_r].
  intros r Hr. rewrite R by done. by rewrite andb_true_r.
Qed.

#[local] Tactic Notation "writes" ident(d') ident(W) :=
  match goal with |- ∃ _, (XApic.write addr ?r ?v ≫= ?k) ?d = _ ∧ _ =>
    destruct (write_step r v k d) as (d' & -> & W); [done..|cbv beta]
  end.

(** [cpu_init] ends, and leaves the local APIC enabled: the spurious vector is 63,
    the timer is periodic on vector 32 and counts from 0x20000, the local lines
    (and the counter overflow, where the version has it) are masked, errors come
    as vector 51, every priority is accepted; it sends one command, an INIT
    de-assert to all, and acknowledges one interrupt. *)
Theorem cpu_init_spec d :
  ∃ d', XApic.cpu_init addr fuel d = Done ((), d') ∧
    reg d' XApic.SVR = 0x100 + 63 ∧ reg d' XApic.TIMER = 0x20000 + 32 ∧ reg d' XApic.TICR = 0x20000 ∧
    reg d' XApic.TDCR = 11 ∧ reg d' XApic.LINT0 = XApic.MASKED ∧ reg d' XApic.LINT1 = XApic.MASKED ∧
    (4 ≤ Z.land (Z.shiftr (reg d XApic.VER) 16) 0xFF → reg d' XApic.PCINT = XApic.MASKED) ∧
    reg d' XApic.ERROR = 51 ∧ reg d' XApic.TPR = 0 ∧
    commands d' = commands d ++ [0x88500] ∧ eois d' = S (eois d).
Proof.
  unfold XApic.cpu_init.
  writes d1 W1. writes d2 W2. writes d3 W3. writes d4 W4. writes d5 W5. writes d6 W6.
  destruct (read_step XApic.VER d6) as (ver & d7 & E7 & (R7 & C7 & N7) & V7 & _); [done|].
  rewrite (bind_step _ _ _ _ _ E7). specialize (V7 eq_refl ltac:(done)).
  assert (Hver : ver = reg d XApic.VER).
  { by rewrite V7, (proj1 W6), (proj1 W5), (proj1 W4), (proj1 W3), (proj1 W2), (proj1 W1). }
  clear V7. subst ver. match goal with |- ∃ _, ((if ?b then _ else _) ≫= ?k) _ = _ ∧ _ =>
    destruct (pcint_step b k d7) as (d8 & -> & R8 & C8 & N8); set (b8 := b) in * end.
  cbv beta. writes d9 W9. writes d10 W10. writes d11 W11. writes d12 W12. writes d13 W13. writes d14 W14.
  destruct (wait_idle_spec fuel d14) as (d15 & E15 & (R15 & C15 & N15) & _).
  { pose proof (lapic_pending d14). lia. }
  rewrite <- wait_delivery_idle in E15. rewrite (bind_step _ _ _ _ _ E15).
  destruct (write_spec XApic.TPR 0 d15) as (d16 & E16 & W16); [done..|].
  exists d16. split; [exact E16|].
  assert (Hreg : ∀ r, XApic.readable r = true → reg d16 r = (
    if (r =? XApic.TPR) then 0 else if r =? XApic.ICRLO then 0x88500 else if r =? XApic.ICRHI then 0
    else if r =? XApic.ERROR then 51 else if b8 && (r =? XApic.PCINT) then XApic.MASKED
    else if r =? XApic.LINT1 then XApic.MASKED else if r =? XApic.LINT0 then XApic.MASKED
    else if r =? XApic.TICR then 0x20000 else if r =? XApic.TIMER then 0x20020
    else if r =? XApic.TDCR then 11 else if r =? XApic.SVR then 0x13f else reg d r)).
  { intros r Hr. rewrite (proj1 W16), R15 by done.
    rewrite (proj1 W14), (proj1 W13), (proj1 W12), (proj1 W11), (proj1 W10), (proj1 W9) by done.
    rewrite R8, R7 by done.
    rewrite (proj1 W6), (proj1 W5), (proj1 W4), (proj1 W3), (proj1 W2), (proj1 W1) by done.
    change (XApic.config XApic.EOI) with false. change (XApic.config XApic.ESR) with false.
    rewrite !andb_false_r. by repeat match goal with |- context [XApic.config ?c] =>
      change (XApic.config c) with true; rewrite andb_true_r end. }
  split_and!; try (rewrite Hreg by done; by rewrite ?andb_false_r).
  - intros Hv. rewrite Hreg by done. unfold b8. by rewrite (proj2 (Z.leb_le _ _) Hv).
  - destruct W16 as (_ & -> & _). rewrite C15. destruct W14 as (_ & -> & _), W13 as (R13 & -> & _),
      W12 as (_ & -> & _), W11 as (_ & -> & _), W10 as (_ & -> & _), W9 as (_ & -> & _). rewrite C8, C7.
    destruct W6 as (_ & -> & _), W5 as (_ & -> & _), W4 as (_ & -> & _), W3 as (_ & -> & _),
      W2 as (_ & -> & _), W1 as (_ & -> & _). rewrite R13 by done. cbn. by rewrite !app_nil_r.
  - destruct W16 as (_ & _ & ->). rewrite N15. destruct W14 as (_ & _ & ->), W13 as (_ & _ & ->),
      W12 as (_ & _ & ->), W11 as (_ & _ & ->), W10 as (_ & _ & ->), W9 as (_ & _ & ->). rewrite N8, N7.
    destruct W6 as (_ & _ & ->), W5 as (_ & _ & ->), W4 as (_ & _ & ->), W3 as (_ & _ & ->),
      W2 as (_ & _ & ->), W1 as (_ & _ & ->). cbn. lia.
Qed.

(** Setting the command register sends the command, and reads back. *)
Lemma set_icr_spec value d :
  0 ≤ value < 2 ^ 64 →
  Z.land (Z.shiftr value 32) (XApic.mask XApic.ICRHI) = Z.shiftr value 32 →
  Z.land (wrap 32 value) (XApic.mask XApic.ICRLO) = wrap 32 value →
  ∃ d', XApic.set_icr addr fuel value d = Done ((), d') ∧
    commands d' = commands d ++ [value] ∧ eois d' = eois d ∧ ∃ d'', XApic.icr addr d' = Done (value, d'').
Proof.
  intros Hv Hhi Hlo.
  assert (Hw : wrap 32 (Z.shiftr value 32) = Z.shiftr value 32).
  { apply wrap_small. rewrite Z.shiftr_div_pow2 by lia. split; [apply Z.div_pos; lia|].
    apply Z.div_lt_upper_bound; lia. }
  assert (Hval : Z.lor (Z.shiftl (Z.shiftr value 32) 32) (wrap 32 value) = value).
  { unfold wrap. rewrite <- Z.land_ones by lia. apply Z.bits_inj'. intros n Hn.
    rewrite Z.lor_spec, Z.land_spec. destruct (decide (n < 32)).
    - rewrite Z.shiftl_spec_low, Z.ones_spec_low by lia. by rewrite andb_true_r.
    - rewrite Z.shiftl_spec, Z.shiftr_spec, Z.ones_spec_high, andb_false_r, orb_false_r by lia. f_equal. lia. }
  unfold XApic.set_icr. destruct (wait_idle_spec fuel d) as (d1 & E1 & (R1 & C1 & N1) & _).
  { pose proof (lapic_pending d). lia. }
  rewrite (bind_step _ _ _ _ _ E1), Hw. writes d2 W2. writes d3 W3.
  destruct (wait_idle_spec fuel d3) as (d4 & E4 & (R4 & C4 & N4) & P4).
  { pose proof (lapic_pending d3). lia. }
  exists d4. destruct W2 as (R2 & C2 & N2), W3 as (R3 & C3 & N3). split_and!.
  - exact E4.
  - rewrite C4, C3, C2, C1, (R2 XApic.ICRHI) by done. cbn -[wrap]. rewrite app_nil_r. by rewrite Hval.
  - rewrite N4, N3, N2, N1. cbn. lia.
  - unfold XApic.icr.
    destruct (read_step XApic.ICRHI d4) as (hi & d5 & E5 & (R5 & _) & V5 & _); [done|].
    destruct (lapic_read XApic.ICRHI d4 ltac:(done)) as (v & d5' & Er & _ & _ & _ & Pr & _).
    rewrite (bind_step _ _ _ _ _ E5).
    destruct (read_step XApic.ICRLO d5) as (lo & d6 & E6 & _ & _ & V6); [done|].
    destruct (V6 eq_refl) as [_ ->]. rewrite (bind_step _ _ _ _ _ E6). exists d6. unfold mret, M_ret.
    assert (P5 : pending d5 = O).
    { unfold XApic.read in E5. rewrite (bind_step _ _ _ _ _ (word_op_exact 64 (addr + XApic.ICRHI) d4 ltac:(unfold XApic.ICRHI; lia))) in E5.
      rewrite Er in E5. simplify_eq. by rewrite Pr, P4. }
    rewrite decide_True, Z.lor_0_r by done. rewrite V5, R5, R4, R4 by done.
    rewrite !R3, R2 by done. cbn -[wrap Z.lor Z.shiftl Z.shiftr]. by rewrite Hval.
Qed.

(** [send_ipi] ends, and sends one command: the fixed interrupt [int_id] to the local
    APIC [apic_id]; read back, the command register holds exactly that command. *)
Theorem send_ipi_spec apic_id int_id d :
  0 ≤ apic_id < 256 → 0 ≤ int_id < 256 →
  ∃ d', XApic.send_ipi addr fuel apic_id int_id d = Done ((), d') ∧
    commands d' = commands d ++ [apic_id * 2 ^ 56 + int_id] ∧ eois d' = eois d ∧
    ∃ d'', XApic.icr addr d' = Done (apic_id * 2 ^ 56 + int_id, d'').
Proof.
  intros Ha Hi. unfold XApic.send_ipi.
  assert (E : Z.lor (Z.shiftl apic_id 56) int_id = apic_id * 2 ^ 56 + int_id).
  { rewrite Z.shiftl_mul_pow2, <- Z.add_lor_land by lia.
    replace (Z.land (apic_id * 2 ^ 56) int_id) with 0; [lia|]. symmetry. apply Z.bits_inj'. intros n Hn.
    rewrite Z.land_spec, Z.bits_0, <- Z.shiftl_mul_pow2 by lia. destruct (decide (n < 56)).
    - by rewrite Z.shiftl_spec_low by lia.
    - by rewrite (bits_small 8 int_id), andb_false_r by lia. }
  rewrite E. apply set_icr_spec; [lia| |].
  - replace (Z.shiftr (apic_id * 2 ^ 56 + int_id) 32) with (Z.shiftl apic_id 24).
    + change (XApic.mask XApic.ICRHI) with (Z.shiftl (Z.ones 8) 24).
      rewrite <- Z.shiftl_land, Z.land_ones, Z.mod_small by lia. done.
    + rewrite Z.shiftr_div_pow2, Z.shiftl_mul_pow2 by lia.
      apply (Z.div_unique _ _ _ int_id); lia.
  - replace (wrap 32 (apic_id * 2 ^ 56 + int_id)) with int_id.
    + apply Z.bits_inj'. intros n Hn. rewrite Z.land_spec.
      destruct (decide (n < 8)).
      * assert (Hm : Z.testbit (XApic.mask XApic.ICRLO) n = true).
        { assert (n = 0 ∨ n = 1 ∨ n = 2 ∨ n = 3 ∨ n = 4 ∨ n = 5 ∨ n = 6 ∨ n = 7)
            as [->|[->|[->|[->|[->|[->|[->| ->]]]]]]] by lia; done. }
        by rewrite Hm, andb_true_r.
      * by rewrite (bits_small 8 int_id) by lia.
    + unfold wrap. apply (Z.mod_unique_pos _ _ (apic_id * 2 ^ 24)); lia.
Qed.

End LocalApic.

(** * The I/O APIC: [apic/ioapic.rs] *)

Module IoApic.

Definition IOAPIC_ADDR : Z := 0xFEC00000.

(** [RedirectionEntry] *)
Definition DISABLED : Z := 0x00010000.
Definition NONE : Z := 0x00000000.

Record IoApic : Type := mkIoApic { reg : Z; data : Z }.

(** [get_bits(lo..hi)] of a 32-bit word *)
Definition get_bits (lo hi v : Z) : Z := Z.land (Z.shiftr v lo) (Z.ones (hi - lo)).

Section IoApic.
Context {D : Type} `{Mmio D} `{Profile}.

Definition new {S} (addr : Z) : M S IoApic := d ← word_op 64 (addr + 0x10); mret (mkIoApic addr d).

Section Ops.
Context (self : IoApic).

Definition read (r : Z) : M D Z := write_volatile (reg self) r;; read_volatile (data self).
Definition write (r v : Z) : M D () := write_volatile (reg self) r;; write_volatile (data self) v.

Definition write_irq (irq flags dest : Z) : M D () :=
  twice ← word_op 8 (2 * irq);
  low ← word_op 8 (0x10 + twice);
  vector ← word_op 8 (32 + irq);
  write low (Z.lor vector flags);;
  high ← word_op 8 (low + 1);
  write high (wrap 32 (Z.shiftl dest 24)).

Definition enable (irq cpuid : Z) : M D () := write_irq irq NONE cpuid.
Definition disable (irq cpuid : Z) : M D () := write_irq irq DISABLED cpuid.

Definition id : M D Z := v ← read 0x00; mret (get_bits 24 28 v).
Definition version : M D Z := v ← read 0x01; mret (get_bits 0 8 v).
Definition maxintr : M D Z := v ← read 0x01; mret (get_bits 16 24 v).

Fixpoint disable_loop (irqs : list Z) : M D () :=
  match irqs with
  | [] => mret ()
  | i :: irqs => write_irq i DISABLED 0;; disable_loop irqs
  end.

Definition disable_all : M D () := m ← maxintr; disable_loop (seqZ 0 (m + 1)).

End Ops.
End IoApic.

(** The bits of a redirection register that a write sets. *)
Definition mask (r : Z) : Z := if Z.even r then 0x1afff else 0xff000000.

End IoApic.

(** What an I/O APIC does: the first register selects, the second is a window on the
    selected one; from 0x10 on there are two registers for every interrupt. *)
Class IoApicChip (D : Type) `{Mmio D} (addr : Z) := {
  selected : D → Z;
  ioreg : D → Z → Z;

  ioapic_select v d :
    0 ≤ v < 256 →
    ∃ d', write_volatile addr v d = Done ((), d') ∧ selected d' = v ∧ ∀ i, ioreg d' i = ioreg d i;
  ioapic_load d :
    ∃ d', read_volatile (addr + 0x10) d = Done (ioreg d (selected d), d') ∧
      selected d' = selected d ∧ ∀ i, ioreg d' i = ioreg d i;
  ioapic_store v d :
    0x10 ≤ selected d < 0x12 + 2 * IoApic.get_bits 16 24 (ioreg d 1) →
    Z.land v (IoApic.mask (selected d)) = v →
    ∃ d', write_volatile (addr + 0x10) v d = Done ((), d') ∧ selected d' = selected d ∧
      ∀ i, ioreg d' i = if i =? selected d then v else ioreg d i;
}.

Section Redirection.
Context {D : Type} `{HM : Mmio D} (addr : Z) `{HI : !IoApicChip D addr} `{Profile}.

Definition io : IoApic.IoApic := IoApic.mkIoApic addr (addr + 0x10).
Definition max (d : D) : Z := IoApic.get_bits 16 24 (ioreg d 1).

Lemma io_write_spec r v d :
  0x10 ≤ r < 0x12 + 2 * max d → r < 256 → Z.land v (IoApic.mask r) = v →
  ∃ d', IoApic.write io r v d = Done ((), d') ∧ ∀ i, ioreg d' i = if i =? r then v else ioreg d i.
Proof.
  intros Hr Hr' Hv. destruct (ioapic_select r d) as (d1 & E1 & S1 & I1); [lia|].
  destruct (ioapic_store v d1) as (d2 & E2 & S2 & I2); [rewrite S1, I1; exact Hr|by rewrite S1|].
  exists d2. unfold IoApic.write, io. cbn [IoApic.reg IoApic.data].
  rewrite (bind_step _ _ _ _ _ E1). split; [done|]. intros i. by rewrite I2, S1, I1.
Qed.

(** [flags] is [NONE] or [DISABLED]. *)
Lemma redirection_low irq flags :
  0 ≤ irq < 120 → flags = IoApic.NONE ∨ flags = IoApic.DISABLED →
  Z.lor (32 + irq) flags = 32 + irq + flags ∧ Z.land (32 + irq + flags) 0x1afff = 32 + irq + flags.
Proof.
  intros Hi Hf.
  assert (Hall : forallb (λ i, (Z.lor (32 + i) 0 =? 32 + i + 0) && (Z.land (32 + i + 0) 0x1afff =? 32 + i + 0) &&
    (Z.lor (32 + i) 0x10000 =? 32 + i + 0x10000) && (Z.land (32 + i + 0x10000) 0x1afff =? 32 + i + 0x10000))
    (seqZ 0 120) = true) by (vm_compute; reflexivity).
  rewrite forallb_forall in Hall. specialize (Hall irq ltac:(apply list_elem_of_In, elem_of_seqZ; lia)).
  rewrite !andb_true_iff, !Z.eqb_eq in Hall. destruct Hf as [-> | ->]; unfold IoApic.NONE, IoApic.DISABLED; tauto.
Qed.

(** What [write_irq] leaves: the entry of [irq], and every other register as it was. *)
Definition entry_set (irq flags dest : Z) (d d' : D) : Prop :=
  ∀ i, ioreg d' i = if i =? 0x10 + 2 * irq then 32 + irq + flags
                    else if i =? 0x10 + 2 * irq + 1 then dest * 2 ^ 24 else ioreg d i.

Lemma write_irq_spec irq flags dest d :
  0 ≤ irq ≤ max d → irq < 120 → 0 ≤ dest < 256 → flags = IoApic.NONE ∨ flags = IoApic.DISABLED →
  ∃ d', IoApic.write_irq io irq flags dest d = Done ((), d') ∧ entry_set irq flags dest d d'.
Proof.
  intros Hi Hi' Hd Hf. destruct (redirection_low irq flags) as [Hlor Hland]; [lia|done|].
  unfold IoApic.write_irq.
  rewrite (bind_step _ _ _ _ _ (word_op_exact 8 (2 * irq) d ltac:(lia))).
  rewrite (bind_step _ _ _ _ _ (word_op_exact 8 (0x10 + 2 * irq) d ltac:(lia))).
  rewrite (bind_step _ _ _ _ _ (word_op_exact 8 (32 + irq) d ltac:(lia))), Hlor.
  destruct (io_write_spec (0x10 + 2 * irq) (32 + irq + flags) d) as (d1 & E1 & I1); [lia|lia| |].
  { unfold IoApic.mask. rewrite Z.even_add, Z.even_mul. exact Hland. }
  rewrite (bind_step _ _ _ _ _ E1).
  rewrite (bind_step _ _ _ _ _ (word_op_exact 8 (0x10 + 2 * irq + 1) d1 ltac:(lia))).
  rewrite Z.shiftl_mul_pow2, wrap_small by lia.
  destruct (io_write_spec (0x10 + 2 * irq + 1) (dest * 2 ^ 24) d1) as (d2 & E2 & I2); [|lia| |].
  { unfold max. rewrite I1. destruct (Z.eqb_spec 1 (0x10 + 2 * irq)); [lia|]. fold (max d). lia. }
  { unfold IoApic.mask. rewrite !Z.even_add, Z.even_mul. cbn [Z.even negb eqb orb Bool.eqb].
    change 0xff000000 with (Z.shiftl (Z.ones 8) 24).
    rewrite <- Z.shiftl_mul_pow2, <- Z.shiftl_land, Z.land_ones, Z.mod_small by lia. done. }
  exists d2. split; [exact E2|]. intros i. rewrite I2, I1.
  destruct (Z.eqb_spec i (0x10 + 2 * irq)), (Z.eqb_spec i (0x10 + 2 * irq + 1)); (lia || done).
Qed.

Lemma entry_set_max irq flags dest d d' : 0 ≤ irq → entry_set irq flags dest d d' → max d' = max d.
Proof.
  intros Hi He. unfold max. rewrite He. destruct (Z.eqb_spec 1 (0x10 + 2 * irq)); [lia|].
  destruct (Z.eqb_spec 1 (0x10 + 2 * irq + 1)); [lia|done].
Qed.

(** [maxintr] is the number of the last entry. *)
Lemma maxintr_spec d : ∃ d', IoApic.maxintr io d = Done (max d, d') ∧ ∀ i, ioreg d' i = ioreg d i.
Proof.
  destruct (ioapic_select 1 d) as (d1 & E1 & S1 & I1); [lia|]. destruct (ioapic_load d1) as (d2 & E2 & S2 & I2).
  exists d2. unfold IoApic.maxintr, IoApic.read, io. cbn [IoApic.reg IoApic.data].
  assert (E : (write_volatile addr 1;; read_volatile (addr + 0x10)) d = Done (ioreg d 1, d2)).
  { rewrite (bind_step _ _ _ _ _ E1), E2. by rewrite S1, I1. }
  rewrite (bind_step _ _ _ _ _ E). split; [done|]. intros i. by rewrite I2, I1.
Qed.

Lemma disable_loop_spec n k d :
  0 ≤ k → k + Z.of_nat n - 1 ≤ max d → k + Z.of_nat n ≤ 120 →
  ∃ d', IoApic.disable_loop io (seqZ k (Z.of_nat n)) d = Done ((), d') ∧
    ∀ i, ioreg d' i = if (0x10 + 2 * k <=? i) && (i <? 0x10 + 2 * (k + Z.of_nat n)) then
      (if Z.even i then IoApic.DISABLED + 32 + (i - 0x10) / 2 else 0) else ioreg d i.
Proof.
  revert k d. induction n as [|n IH]; intros k d Hk Hm H120.
  - exists d. split; [done|]. intros i. destruct (Z.leb_spec (0x10 + 2 * k) i); [|done].
    destruct (Z.ltb_spec i (0x10 + 2 * (k + Z.of_nat 0))); [lia|done].
  - rewrite Nat2Z.inj_succ, <- Z.add_1_r, seqZ_cons by lia. cbn [IoApic.disable_loop].
    destruct (write_irq_spec k IoApic.DISABLED 0 d) as (d1 & E1 & I1); [lia|lia|lia|by right|].
    rewrite (bind_step _ _ _ _ _ E1). replace (Z.pred (Z.of_nat n + 1)) with (Z.of_nat n) by lia.
    rewrite <- Z.add_1_r.
    pose proof (entry_set_max _ _ _ _ _ Hk I1) as Hm1.
    destruct (IH (k + 1) d1) as (d2 & E2 & I2); [lia..|].
    exists d2. split; [exact E2|]. intros i. rewrite I2, I1.
    destruct (Z.leb_spec (0x10 + 2 * (k + 1)) i), (Z.leb_spec (0x10 + 2 * k) i),
      (Z.ltb_spec i (0x10 + 2 * (k + 1 + Z.of_nat n))), (Z.ltb_spec i (0x10 + 2 * (k + (Z.of_nat n + 1))));
      simpl; try lia; try done; destruct (Z.eqb_spec i (0x10 + 2 * k)), (Z.eqb_spec i (0x10 + 2 * k + 1)); try lia; subst.
    all: rewrite ?Z.even_add, ?Z.even_mul; simpl; try lia.
    replace (0x10 + 2 * k - 0x10) with (k * 2) by lia. rewrite Z.div_mul by lia. unfold IoApic.DISABLED. lia.
Qed.

(** Enabling an interrupt routes it: its entry says edge-triggered, active high, not
    masked, vector 32 + irq, to that CPU, and no other register changes; and
    [disable_all] masks every entry, whatever was routed before.  From irq 120 on
    the register number does not fit its byte, and the checked build panics. *)
Theorem ioapic_routes d :
  (∀ irq cpuid, 0 ≤ irq ≤ max d → irq < 120 → 0 ≤ cpuid < 256 →
    ∃ d', IoApic.enable io irq cpuid d = Done ((), d') ∧
      ∀ i, ioreg d' i = if i =? 0x10 + 2 * irq then 32 + irq
                        else if i =? 0x10 + 2 * irq + 1 then cpuid * 2 ^ 24 else ioreg d i) ∧
  (0 ≤ max d < 120 → ∃ d', IoApic.disable_all io d = Done ((), d') ∧
     ∀ irq, 0 ≤ irq ≤ max d → Z.testbit (ioreg d' (0x10 + 2 * irq)) 16 = true ∧ ioreg d' (0x10 + 2 * irq + 1) = 0) ∧
  (debug_assertions = true → ∀ irq cpuid, 120 ≤ irq < 256 → IoApic.enable io irq cpuid d = Panic).
Proof.
  split_and!.
  - intros irq cpuid Hi Hi' Hc. destruct (write_irq_spec irq IoApic.NONE cpuid d) as (d' & E & I); [done..|by left|].
    exists d'. split; [exact E|]. intros i. rewrite I. unfold IoApic.NONE. by rewrite Z.add_0_r.
  - intros Hm. destruct (maxintr_spec d) as (d1 & E1 & I1). unfold IoApic.disable_all.
    rewrite (bind_step _ _ _ _ _ E1).
    assert (Hm1 : max d1 = max d) by (unfold max; by rewrite I1).
    destruct (disable_loop_spec (Z.to_nat (max d + 1)) 0 d1) as (d2 & E2 & I2); [lia..|].
    rewrite Z2Nat.id in E2, I2 by lia. exists d2. split; [exact E2|]. intros irq Hi. rewrite !I2.
    rewrite !(proj2 (Z.leb_le _ _)), !(proj2 (Z.ltb_lt _ _)), !Z.even_add, Z.even_mul by lia.
    cbn [Z.even eqb negb orb andb Bool.eqb]. split; [|done].
    replace (16 + 2 * irq - 16) with (irq * 2) by lia. rewrite Z.div_mul by lia.
    replace (IoApic.DISABLED + 32 + irq) with (32 + irq + IoApic.DISABLED) by lia.
    destruct (redirection_low irq IoApic.DISABLED) as [<- _]; [lia|by right|].
    rewrite Z.lor_spec. apply orb_true_r.
  - intros Hdb irq cpuid Hi. unfold IoApic.enable, IoApic.write_irq, mbind, M_bind, word_op. rewrite Hdb.
    destruct (in_word 8 (2 * irq)) eqn:E; [|done]. unfold mret, M_ret.
    by rewrite (in_word_false 8 (0x10 + 2 * irq)) by lia.
Qed.

End Redirection.

(** * The interrupt stacks: [memory/gdt.rs] *)

Module Gdt.

Definition DOUBLE_FAULT_IST_INDEX : Z := 0.
Definition SYSCALL_IST_INDEX : Z := 1.
Definition PAGE_FAULT_IST_INDEX : Z := 2.
Definition CONTEXT_SWITCH_IST_INDEX : Z := 0.

Definition IST_SIZES : list Z := [0x1000; 0x1000; 0x4000; 0x1000].

(** The stack of the first privilege level, and the interrupt stacks by index. *)
Record TSS : Type := mkTSS { privilege_stack : Z; interrupt_stack_table : gmap Z Z }.

(** The end of the static array at [start]. *)
Definition stack_end `{X86_64} {S} (start : Z) (size : Z) : M S Z := unwrap (VirtAddr_add start size).

(** The argument are the addresses of the four arrays. *)
Definition tss `{X86_64} {S} (s0 s1 s2 s3 : Z) : M S TSS :=
  privilege ← stack_end s0 (IST_SIZES !!! 0%nat);
  double_fault ← stack_end s1 (IST_SIZES !!! 1%nat);
  syscall ← stack_end s2 (IST_SIZES !!! 2%nat);
  page_fault ← stack_end s3 (IST_SIZES !!! 3%nat);
  mret (mkTSS privilege
    (<[PAGE_FAULT_IST_INDEX := page_fault]> (<[SYSCALL_IST_INDEX := syscall]>
      (<[DOUBLE_FAULT_IST_INDEX := double_fault]> ∅)))).

(** The size that [init] reports. *)
Definition total_size : Z := foldl Z.add 0 IST_SIZES.

End Gdt.

(** * The interrupt descriptor table *)

Module Idt.

Inductive Handler : Type :=
  | divide_error_handler | debug_handler | nmi_handler | breakpoint_handler
  | overflow_handler | bound_range_exceeded_handler | invalid_opcode_handler
  | device_not_available_handler | double_fault_handler | invalid_tss_handler
  | segment_not_present_handler | stack_segment_fault_handler
  | general_protection_fault_handler | page_fault_handler | alignment_check_handler
  | machine_check_handler | simd_floating_point_handler
  | serial_handler | clock_handler | syscall_handler.

(** The stack index and the privilege level that may call the entry by [int]. *)
Record Entry : Type := mkEntry { handler : Handler; stack_index : option Z; ring : Z }.

Definition table : Type := gmap Z Entry.

Definition set_handler_fn (v : Z) (h : Handler) (idt : table) : table := <[v := mkEntry h None 0]> idt.
Definition set_stack_index (v i : Z) (idt : table) : table :=
  alter (λ e, mkEntry (handler e) (Some i) (ring e)) v idt.
Definition set_privilege_level (v r : Z) (idt : table) : table :=
  alter (λ e, mkEntry (handler e) (stack_index e) r) v idt.

(** [exception::reg_idt] *)
Definition reg_exceptions (idt : table) : table :=
  let idt := set_handler_fn Interrupts.DivideError divide_error_handler idt in
  let idt := set_handler_fn Interrupts.Debug debug_handler idt in
  let idt := set_handler_fn Interrupts.NonMaskableInterrupt nmi_handler idt in
  let idt := set_handler_fn Interrupts.Breakpoint breakpoint_handler idt in
  let idt := set_handler_fn Interrupts.Overflow overflow_handler idt in
  let idt := set_handler_fn Interrupts.BoundRangeExceeded bound_range_exceeded_handler idt in
  let idt := set_handler_fn Interrupts.InvalidOpcode invalid_opcode_handler idt in
  let idt := set_handler_fn Interrupts.DeviceNotAvailable device_not_available_handler idt in
  let idt := set_stack_index Interrupts.DoubleFault Gdt.DOUBLE_FAULT_IST_INDEX
               (set_handler_fn Interrupts.DoubleFault double_fault_handler idt) in
  let idt := set_handler_fn Interrupts.InvalidTSS invalid_tss_handler idt in
  let idt := set_handler_fn Interrupts.SegmentNotPresent segment_not_present_handler idt in
  let idt := set_handler_fn Interrupts.StackSegmentFault stack_segment_fault_handler idt in
  let idt := set_handler_fn Interrupts.GeneralProtectionFault general_protection_fault_handler idt in
  let idt := set_stack_index Interrupts.PageFault Gdt.PAGE_FAULT_IST_INDEX
               (set_handler_fn Interrupts.PageFault page_fault_handler idt) in
  let idt := set_handler_fn Interrupts.AlignmentCheck alignment_check_handler idt in
  let idt := set_handler_fn Interrupts.MachineCheck machine_check_handler idt in
  set_handler_fn Interrupts.SIMDFloatingPointException simd_floating_point_handler idt.

(** [serial::reg_idt], [clock::reg_idt] and [syscall::reg_idt] *)
Definition reg_serial (idt : table) : table :=
  set_handler_fn (Interrupts.IrqBase + Irq.Serial0) serial_handler idt.

Definition reg_clock (idt : table) : table :=
  set_stack_index (Interrupts.IrqBase + Irq.Timer) Gdt.CONTEXT_SWITCH_IST_INDEX
    (set_handler_fn (Interrupts.IrqBase + Irq.Timer) clock_handler idt).

Definition reg_syscall (idt : table) : table :=
  set_privilege_level Interrupts.Syscall 3
    (set_stack_index Interrupts.Syscall Gdt.SYSCALL_IST_INDEX
      (set_handler_fn Interrupts.Syscall syscall_handler idt)).

Definition IDT : table := reg_syscall (reg_clock (reg_serial (reg_exceptions ∅))).

(** What a handler does; those of the exceptions other than the page fault only panic. *)
Definition handle {S} (page_fault serial clock syscall : M S ()) (h : Handler) : M S () :=
  match h with
  | page_fault_handler => page_fault
  | serial_handler => serial
  | clock_handler => clock
  | syscall_handler => syscall
  | divide_error_handler | debug_handler | nmi_handler | breakpoint_handler
  | overflow_handler | bound_range_exceeded_handler | invalid_opcode_handler
  | device_not_available_handler | double_fault_handler | invalid_tss_handler
  | segment_not_present_handler | stack_segment_fault_handler
  | general_protection_fault_handler | alignment_check_handler
  | machine_check_handler | simd_floating_point_handler => panic
  end.

End Idt.

(** * Setting up interrupts: [interrupt/mod.rs], [serial::init] *)

Record machine (L I : Type) : Type := mkMachine { idtr : option Idt.table; lapic : L; ioapic : I }.
Arguments mkMachine {L I} idtr lapic ioapic.
Arguments idtr {L I} m.
Arguments lapic {L I} m.
Arguments ioapic {L I} m.

Section Setup.
Context {L I : Type} `{Mmio L} `{Mmio I} `{Profile} (PHYSICAL_OFFSET : option Z).

Definition on_lapic {A} : M L A → M (machine L I) A := zoom lapic (λ l m, mkMachine (idtr m) l (ioapic m)).
Definition on_ioapic {A} : M I A → M (machine L I) A := zoom ioapic (λ i m, mkMachine (idtr m) (lapic m) i).

Definition enable_irq (irq cpuid : Z) : M (machine L I) () :=
  a ← physical_to_virtual PHYSICAL_OFFSET IoApic.IOAPIC_ADDR;
  io ← IoApic.new a;
  on_ioapic (IoApic.enable io irq cpuid).

Definition ack (irq : Z) : M (machine L I) () :=
  a ← physical_to_virtual PHYSICAL_OFFSET XApic.LAPIC_ADDR;
  on_lapic (XApic.eoi a).

(** [interrupt::serial::init] *)
Definition serial_irq_init : M (machine L I) () := enable_irq Irq.Serial0 0.

Definition init (fuel : nat) : M (machine L I) () :=
  modify (λ m, mkMachine (Some Idt.IDT) (lapic m) (ioapic m));;
  a ← physical_to_virtual PHYSICAL_OFFSET XApic.LAPIC_ADDR;
  on_lapic (XApic.cpu_init a fuel);;
  serial_irq_init.

End Setup.

(** ** What the processor does with an interrupt *)

(** A vector comes from a device or is the processor's own fault, or it is that of an [int] of a
    program, which the entry must allow at its privilege level. *)
Inductive Source : Type := Hardware | Software.
(** The handler runs on the stack in use or on one that begins at an address. *)
Inductive Stack : Type := Same | On (top : Z).

(** Where vector [v] leads at privilege level [cpl]: [None] if there is no entry, if the level is
    too low, or if the TSS has no stack for the entry's index. *)
Definition arrives (idt : Idt.table) (t : Gdt.TSS) (source : Source) (cpl v : Z) : option (Idt.Handler * Stack) :=
  e ← idt !! v;
  if match source with Software => Idt.ring e <? cpl | Hardware => false end then None
  else match Idt.stack_index e with
       | Some i => top ← Gdt.interrupt_stack_table t !! i; Some (Idt.handler e, On top)
       | None => Some (Idt.handler e, if cpl =? 0 then Same else On (Gdt.privilege_stack t))
       end.

Section Routing.
Context {L I : Type} `{HML : Mmio L} `{HMI : Mmio I} `{HP : Profile} (off : Z).
Context `{HL : !Lapic L (XApic.LAPIC_ADDR + off)} `{HI : !IoApicChip I (IoApic.IOAPIC_ADDR + off)}.

(** The vector in a local vector table entry or a redirection entry, and whether it is
    masked. *)
Definition vector (r : Z) : Z := Z.land r 0xff.
Definition masked (r : Z) : bool := Z.testbit r 16.

Lemma zoom_step {S T A B} (proj : S → T) upd (m : M T A) (k : A → M S B) s a t :
  m (proj s) = Done (a, t) → (zoom proj upd m ≫= k) s = k a (upd t s).
Proof. intros E. apply bind_step. unfold zoom. by rewrite E. Qed.

(** [interrupt::init] returns. *)
Lemma init_returns (fuel : nat) (m : machine L I) :
  0 ≤ off → off + XApic.LAPIC_ADDR ≤ 2 ^ 64 - 0x400 → (delivery_bound < fuel)%nat →
  4 ≤ max (IoApic.IOAPIC_ADDR + off) (ioapic m) →
  ∃ l i, init (Some off) fuel m = Done ((), mkMachine (Some Idt.IDT) l i) ∧
    reg l XApic.TIMER = 0x20000 + 32 ∧ reg l XApic.SVR = 0x100 + 63 ∧ reg l XApic.ERROR = 51 ∧
    entry_set (IoApic.IOAPIC_ADDR + off) Irq.Serial0 IoApic.NONE 0 (ioapic m) i.
Proof.
  intros Ho Hr Hf Hm. unfold init. set (m0 := mkMachine (Some Idt.IDT) (lapic m) (ioapic m)).
  rewrite (bind_step _ _ _ () m0) by done. unfold physical_to_virtual.
  rewrite (bind_step _ _ _ (XApic.LAPIC_ADDR + off) m0).
  2: { rewrite (bind_step _ _ _ off m0) by done. apply word_op_exact. unfold XApic.LAPIC_ADDR in *. lia. }
  destruct (cpu_init_spec (XApic.LAPIC_ADDR + off) fuel ltac:(unfold XApic.LAPIC_ADDR in *; lia) Hf (lapic m0))
    as (l & El & Hsvr & Htimer & _ & _ & _ & _ & _ & Herr & _).
  unfold on_lapic. rewrite (zoom_step _ _ _ _ _ _ _ El). set (m1 := mkMachine (Some Idt.IDT) l (ioapic m)).
  change (mkMachine _ l _) with m1. unfold serial_irq_init, enable_irq, physical_to_virtual.
  rewrite (bind_step _ _ _ (IoApic.IOAPIC_ADDR + off) m1).
  2: { rewrite (bind_step _ _ _ off m1) by done. apply word_op_exact.
    unfold XApic.LAPIC_ADDR, IoApic.IOAPIC_ADDR in *. lia. }
  rewrite (bind_step _ _ _ (io (IoApic.IOAPIC_ADDR + off)) m1).
  2: { unfold IoApic.new. rewrite (bind_step _ _ _ _ _ (word_op_exact 64 (IoApic.IOAPIC_ADDR + off + 0x10) m1
         ltac:(unfold XApic.LAPIC_ADDR, IoApic.IOAPIC_ADDR in *; lia))). done. }
  destruct (write_irq_spec (IoApic.IOAPIC_ADDR + off) Irq.Serial0 IoApic.NONE 0 (ioapic m))
    as (i & Ei & Hi); [unfold Irq.Serial0; lia|done|lia|by left|].
  exists l, i. unfold on_ioapic, zoom, IoApic.enable. change (ioapic m1) with (ioapic m). rewrite Ei. by split_and!.
Qed.

(** What holds of every entry, by computation. *)
Lemma idt_check (f : Z → Idt.Entry → bool) v e :
  forallb (uncurry f) (map_to_list Idt.IDT) = true → Idt.IDT !! v = Some e → f v e = true.
Proof.
  intros Hf He%elem_of_map_to_list%list_elem_of_In. rewrite forallb_forall in Hf. exact (Hf _ He).
Qed.

Lemma ring_zero v e : v ≠ 0x80 → Idt.IDT !! v = Some e → Idt.ring e = 0.
Proof.
  intros Hv He. pose proof (idt_check (λ v e, (Idt.ring e =? 0) || (v =? 0x80)) v e eq_refl He) as Hc.
  by apply orb_true_iff in Hc as [?%Z.eqb_eq|?%Z.eqb_eq].
Qed.

(** C34: After [interrupt::init], with the segments that [gdt::init] loads, what the devices and
    user programs send arrives at the right code on the right stack: the
    local timer, periodic and not masked, at the clock handler, on the stack of
    4 KiB it shares with double faults; the serial line, not masked and sent to CPU 0, at
    the serial handler, on the stack of the privilege level when it interrupts user code; page faults
    and double faults at theirs, on stacks of their own.  [int 0x80] in a user program arrives at the handler
    of the system calls, on its stack of 16 KiB, and any other [int] there is a fault.  But
    the vectors for APIC errors and spurious interrupts have no entry at all. *)
Theorem interrupts_routed `{X86_64} {S} (fuel : nat) (m : machine L I) (s0 s1 s2 s3 e0 e1 e2 e3 : Z) (st : S) :
  0 ≤ off → off + XApic.LAPIC_ADDR ≤ 2 ^ 64 - 0x400 → (delivery_bound < fuel)%nat →
  4 ≤ max (IoApic.IOAPIC_ADDR + off) (ioapic m) →
  VirtAddr_add s0 0x1000 = Some e0 → VirtAddr_add s1 0x1000 = Some e1 →
  VirtAddr_add s2 0x4000 = Some e2 → VirtAddr_add s3 0x1000 = Some e3 →
  ∃ m' t idt, init (Some off) fuel m = Done ((), m') ∧ idtr m' = Some idt ∧
    Gdt.tss s0 s1 s2 s3 st = Done (t, st) ∧
    (let timer := reg (lapic m') XApic.TIMER in
     masked timer = false ∧ Z.land timer XApic.PERIODIC ≠ 0 ∧
     ∀ cpl, arrives idt t Hardware cpl (vector timer) = Some (Idt.clock_handler, On e1)) ∧
    (let serial := ioreg (ioapic m') (0x10 + 2 * Irq.Serial0) in
     masked serial = false ∧ ioreg (ioapic m') (0x10 + 2 * Irq.Serial0 + 1) = 0 ∧
     ∀ cpl, arrives idt t Hardware cpl (vector serial) = Some (Idt.serial_handler, if cpl =? 0 then Same else On e0)) ∧
    (∀ cpl, arrives idt t Hardware cpl 8 = Some (Idt.double_fault_handler, On e1) ∧
      arrives idt t Hardware cpl 14 = Some (Idt.page_fault_handler, On e3)) ∧
    arrives idt t Software 3 0x80 = Some (Idt.syscall_handler, On e2) ∧
    (∀ v, v ≠ 0x80 → arrives idt t Software 3 v = None) ∧
    idt !! vector (reg (lapic m') XApic.ERROR) = None ∧ idt !! vector (reg (lapic m') XApic.SVR) = None.
Proof.
  intros Ho Hr Hf Hm E0 E1 E2 E3. destruct (init_returns fuel m Ho Hr Hf Hm) as (l & i & E & Htimer & Hsvr & Herr & Hi).
  exists (mkMachine (Some Idt.IDT) l i), (Gdt.mkTSS e0 (<[2 := e3]> (<[1 := e2]> (<[0 := e1]> ∅)))), Idt.IDT.
  split; [exact E|]. cbn [lapic ioapic idtr]. split; [done|]. split.
  { unfold Gdt.tss, Gdt.stack_end. cbn. by rewrite E0, E1, E2, E3. }
  rewrite Htimer, Hsvr, Herr, !Hi. split_and!; try done.
  intros v Hv. unfold arrives. destruct (Idt.IDT !! v) as [e|] eqn:Ee; [|done].
    simpl. by rewrite (ring_zero v e Hv Ee).
Qed.

End Routing.

(** * Devices to run on *)

Record lapic_dev : Type := mkLapicDev { l_reg : gmap Z Z; l_commands : list Z; l_eois : nat; l_pending : nat }.

Definition l_read (d : lapic_dev) (r : Z) : Z :=
  if r =? XApic.ICRLO then Z.land (default 0 (l_reg d !! r)) (XApic.mask r) else default 0 (l_reg d !! r).

Definition lapic_mmio (base : Z) : Mmio lapic_dev := {|
  read_volatile a := λ d,
    let r := a - base in
    if r =? XApic.ICRLO then
      Done (Z.lor (l_read d r) (if decide (Nat.min 1 (l_pending d) = O) then 0 else XApic.DELIVS),
            mkLapicDev (l_reg d) (l_commands d) (l_eois d) (pred (Nat.min 1 (l_pending d))))
    else Done (l_read d r, d);
  write_volatile a v := λ d,
    let r := a - base in
    Done ((), mkLapicDev (if XApic.config r then <[r := v]> (l_reg d) else l_reg d)
      (l_commands d ++ (if r =? XApic.ICRLO then [Z.lor (Z.shiftl (l_read d XApic.ICRHI) 32) v] else []))
      (l_eois d + if (r =? XApic.EOI)%Z then 1 else 0)%nat
      (if r =? XApic.ICRLO then 1%nat else l_pending d)) |}.

#[program] Definition lapic_laws (base : Z) : @Lapic lapic_dev (lapic_mmio base) base := {|
  reg := l_read; commands := l_commands; eois := l_eois;
  pending := λ d, Nat.min 1 (l_pending d); delivery_bound := 1 |}.
Next Obligation. intros base d. apply Nat.le_min_l. Qed.
Next Obligation.
  intros base d. unfold l_read. rewrite Z.eqb_refl, <- Z.land_assoc. by rewrite Z.land_diag.
Qed.
Next Obligation.
  intros base r d Hr. cbn [read_volatile lapic_mmio]. replace (base + r - base) with r by lia.
  destruct (Z.eqb_spec r XApic.ICRLO) as [->|Hne].
  - do 2 eexists. split; [done|]. cbn [l_reg l_commands l_eois l_pending]. split_and!; try done. lia.
  - do 2 eexists. split; [done|]. by split_and!.
Qed.
Next Obligation.
  intros base r v d Hr Hv. cbn [write_volatile lapic_mmio]. replace (base + r - base) with r by lia.
  eexists. split; [done|]. cbn [l_reg l_commands l_eois l_pending]. split_and!; [|done..|].
  - intros r' Hr'. unfold l_read. cbn [l_reg]. destruct (XApic.config r) eqn:Hc.
    + rewrite andb_true_r. destruct (Z.eqb_spec r' r) as [->|Hne].
      * rewrite lookup_insert_eq. simpl. by destruct (r =? XApic.ICRLO).
      * by rewrite lookup_insert_ne by done.
    + by rewrite andb_false_r.
  - intros Hne. by destruct (Z.eqb_spec r XApic.ICRLO).
Qed.

Record ioapic_dev : Type := mkIoapicDev { i_sel : Z; i_reg : gmap Z Z }.

Definition i_read (d : ioapic_dev) (i : Z) : Z := default 0 (i_reg d !! i).

Definition ioapic_mmio (base : Z) : Mmio ioapic_dev := {|
  read_volatile a := λ d, Done (if a =? base then i_sel d else i_read d (i_sel d), d);
  write_volatile a v := λ d,
    Done ((), if a =? base then mkIoapicDev v (i_reg d) else mkIoapicDev (i_sel d) (<[i_sel d := v]> (i_reg d))) |}.

#[program] Definition ioapic_laws (base : Z) : @IoApicChip ioapic_dev (ioapic_mmio base) base := {|
  selected := i_sel; ioreg := i_read |}.
Next Obligation. intros base v d _. eexists. split; [done|]. simpl. by rewrite Z.eqb_refl. Qed.
Next Obligation.
  intros base d. cbn [read_volatile ioapic_mmio]. destruct (Z.eqb_spec (base + 16) base); [lia|]. eauto.
Qed.
Next Obligation.
  intros base v d _ _. cbn [write_volatile ioapic_mmio]. destruct (Z.eqb_spec (base + 16) base); [lia|].
  eexists. split; [done|]. split; [done|]. intros i. unfold i_read. cbn [i_reg i_sel].
  destruct (Z.eqb_spec i (i_sel d)) as [->|]; [by rewrite lookup_insert_eq|by rewrite lookup_insert_ne].
Qed.

(** A version 0x14 local APIC with 6 entries; an I/O APIC with 24 entries. *)
Definition lapic0 : lapic_dev := mkLapicDev {[ XApic.VER := 0x50014 ]} [] 0 0.
Definition ioapic0 : ioapic_dev := mkIoapicDev 0 {[ 1 := 0x170020 ]}.

Lemma cpu_init_spec_witness :
  ∃ d', XApic.cpu_init (H := lapic_mmio XApic.LAPIC_ADDR) (H0 := debug) XApic.LAPIC_ADDR 2 lapic0 = Done ((), d') ∧
    l_read d' XApic.TIMER = 0x20020 ∧ l_commands d' = [0x88500].
Proof.
  destruct (cpu_init_spec (HM := lapic_mmio XApic.LAPIC_ADDR) (HL := lapic_laws XApic.LAPIC_ADDR) (H := debug)
    XApic.LAPIC_ADDR 2 ltac:(unfold XApic.LAPIC_ADDR; lia) ltac:(simpl; lia) lapic0)
    as (d' & E & _ & T & _ & _ & _ & _ & _ & _ & _ & C & _).
  exists d'. split_and!; [exact E|exact T|exact C].
Defined.

Lemma send_ipi_spec_witness :
  ∃ d', XApic.send_ipi (H := lapic_mmio XApic.LAPIC_ADDR) (H0 := debug) XApic.LAPIC_ADDR 2 3 0x40 lapic0 =
    Done ((), d') ∧ l_commands d' = [3 * 2 ^ 56 + 0x40].
Proof.
  destruct (send_ipi_spec (HM := lapic_mmio XApic.LAPIC_ADDR) (HL := lapic_laws XApic.LAPIC_ADDR) (H := debug)
    XApic.LAPIC_ADDR 2 ltac:(unfold XApic.LAPIC_ADDR; lia) ltac:(simpl; lia) 3 0x40 lapic0 ltac:(lia) ltac:(lia))
    as (d' & E & C & _). eauto.
Defined.

Lemma ioapic_routes_witness :
  max (HI := ioapic_laws IoApic.IOAPIC_ADDR) IoApic.IOAPIC_ADDR ioapic0 = 23 ∧
  (∃ d', IoApic.enable (H := ioapic_mmio IoApic.IOAPIC_ADDR) (H0 := debug) (io IoApic.IOAPIC_ADDR) 4 0 ioapic0 =
     Done ((), d') ∧ i_read d' 24 = 36).
Proof.
  split; [done|].
  destruct (ioapic_routes (HM := ioapic_mmio IoApic.IOAPIC_ADDR) (HI := ioapic_laws IoApic.IOAPIC_ADDR)
    (H := debug) IoApic.IOAPIC_ADDR ioapic0) as (He & _).
  destruct (He 4 0) as (d' & E & I); [vm_compute; split; discriminate|lia|lia|].
  exists d'. split; [exact E|]. exact (I 24).
Defined.

Lemma interrupts_routed_witness :
  ∃ m' t idt, init (H := lapic_mmio XApic.LAPIC_ADDR) (H0 := ioapic_mmio IoApic.IOAPIC_ADDR) (H1 := release) (Some 0) 2
      (mkMachine None lapic0 ioapic0) = Done ((), m') ∧ idtr m' = Some idt ∧
    Gdt.tss (H := x86_ref) 0x10000 0x20000 0x30000 0x40000 () = Done (t, ()) ∧
    arrives idt t Hardware 3 (vector (l_read (lapic m') XApic.TIMER)) = Some (Idt.clock_handler, On 0x21000) ∧
    arrives idt t Software 3 0x80 = Some (Idt.syscall_handler, On 0x34000).
Proof.
  destruct (interrupts_routed (HML := lapic_mmio XApic.LAPIC_ADDR) (HMI := ioapic_mmio IoApic.IOAPIC_ADDR)
    (HP := release) 0 (HL := lapic_laws XApic.LAPIC_ADDR) (HI := ioapic_laws IoApic.IOAPIC_ADDR) (H := x86_ref) 2
    (mkMachine None lapic0 ioapic0) 0x10000 0x20000 0x30000 0x40000 0x11000 0x21000 0x34000 0x41000 ()
    ltac:(lia) ltac:(unfold XApic.LAPIC_ADDR; lia) ltac:(simpl; lia)
    ltac:(vm_compute; discriminate) eq_refl eq_refl eq_refl eq_refl) as (m' & t & idt & E & Hi & Ht & (_ & _ & T) & _ & _ & Hs & _).
  exists m', t, idt. split_and!; [exact E|exact Hi|exact Ht|apply T|exact Hs].
Defined.
