(* ===== verification/Segments.v ===== *)
(** The segments: the descriptor table and the segment registers of
    [pkg/kernel/src/memory/gdt.rs]; its task state segment is in [Apic].

    The table itself is the [x86_64] crate's, a parameter of the model with
    the laws its documentation states: [append] puts a descriptor
    at the next free entries, panics when there is no room, and answers the
    selector of the entry with the descriptor's privilege level. *)
From S2P Require Import Prelude Arch Apic.
#[local] Open Scope Z_scope.

(** The constructors of [Descriptor] that the kernel uses. *)
Inductive Descriptor : Type :=
  | kernel_code_segment
  | kernel_data_segment
  | user_code_segment
  | user_data_segment
  | tss_segment (t : Apic.Gdt.TSS).

(** The privilege level of a descriptor, and how many entries it takes. *)
Definition dpl (d : Descriptor) : Z :=
  match d with user_code_segment | user_data_segment => 3 | _ => 0 end.
Definition entries (d : Descriptor) : Z := match d with tss_segment _ => 2 | _ => 1 end.

(** What the processor reads off a selector. *)
Definition rpl (sel : Z) : Z := Z.land sel 3.
Definition index (sel : Z) : Z := Z.shiftr sel 3.

Class GlobalDescriptorTable (G : Type) := {
  new : G;
  append : Descriptor → G → option (Z * G);
  SegmentSelector_new : Z → Z → Z;
}.

(** [used] entries, of which [entry] tells the descriptors; there are eight. *)
Class GlobalDescriptorTable_Laws (G : Type) `{GlobalDescriptorTable G}
    (used : G → Z) (entry : G → Z → option Descriptor) : Prop := {
  new_used : used new = 1;
  append_room d g : used g + entries d ≤ 8 →
    ∃ g', append d g = Some (SegmentSelector_new (used g) (dpl d), g') ∧ used g' = used g + entries d ∧
      entry g' (used g) = Some d ∧ ∀ i, 0 ≤ i → i ≠ used g → entry g' i = entry g i;
  selector_rpl i r : 0 ≤ i < 2 ^ 13 → 0 ≤ r < 4 → rpl (SegmentSelector_new i r) = r;
  selector_index i r : 0 ≤ i < 2 ^ 13 → 0 ≤ r < 4 → index (SegmentSelector_new i r) = i;
}.

(** A concrete table: the descriptors, with an empty entry first and after that of the task
    state. *)
#[export] Instance gdt_ref : GlobalDescriptorTable (list (option Descriptor)) := {|
  new := [None];
  append d g :=
    if Z.of_nat (length g) + entries d <=? 8 then
      Some (Z.of_nat (length g) * 8 + dpl d, g ++ Some d :: replicate (Z.to_nat (entries d) - 1) None)
    else None;
  SegmentSelector_new i r := i * 8 + r;
|}.

#[export] Instance gdt_ref_laws : GlobalDescriptorTable_Laws (list (option Descriptor))
  (λ g, Z.of_nat (length g)) (λ g i, mjoin (g !! Z.to_nat i)).
Proof.
  split; simpl.
  - done.
  - intros d g Hr. rewrite (proj2 (Z.leb_le _ _) Hr). eexists. split; [done|]. rewrite Nat2Z.id. split_and!.
    + rewrite length_app. simpl. rewrite length_replicate. destruct d; simpl in *; lia.
    + by rewrite lookup_app_r, Nat.sub_diag.
    + intros i Hi Hne. destruct (decide (Z.to_nat i < length g)%nat); [by rewrite lookup_app_l|].
      rewrite lookup_app_r, (lookup_ge_None_2 g) by lia. destruct (Z.to_nat i - length g)%nat as [|n'] eqn:E; [lia|].
      simpl. destruct d; simpl; try done. by destruct n' as [|[|]].
  - intros i r Hi Hr. unfold rpl. change 3 with (Z.ones 2). rewrite Z.land_ones by lia. change (2 ^ 2) with 4.
    Z.div_mod_to_equations. lia.
  - intros i r Hi Hr. unfold index. rewrite Z.shiftr_div_pow2 by lia. change (2 ^ 3) with 8. Z.div_mod_to_equations. lia.
Qed.

(** ** [GDT] and [init] *)

Module Gdt.

Record KernelSelectors : Type := mkKernelSelectors {
  code_selector : Z;
  data_selector : Z;
  tss_selector : Z;
}.

Record UserSelectors : Type := mkUserSelectors {
  user_code_selector : Z;
  user_data_selector : Z;
}.

(** The segment registers, the table and the task the processor has loaded. *)
Record Registers (G : Type) : Type := mkRegisters {
  gdtr : G;
  CS : Z;
  DS : Z;
  SS : Z;
  ES : Z;
  FS : Z;
  GS : Z;
  TR : Z;
}.
Arguments mkRegisters {G}.
Arguments gdtr {G}.
Arguments CS {G}.
Arguments DS {G}.
Arguments SS {G}.
Arguments ES {G}.
Arguments FS {G}.
Arguments GS {G}.
Arguments TR {G}.

(** What [init] leaves: the task state, the table with its selectors, the
    registers. *)
Record Loaded (G : Type) : Type := mkLoaded {
  tss : Apic.Gdt.TSS;
  gdt : G * KernelSelectors * UserSelectors;
  registers : Registers G;
}.
Arguments mkLoaded {G}.
Arguments tss {G}.
Arguments gdt {G}.
Arguments registers {G}.

Section Ops.
Context `{GlobalDescriptorTable G} {S : Type}.

(** The [lazy_static] that [TSS] is part of. *)
Definition GDT (TSS : Apic.Gdt.TSS) : M S (G * KernelSelectors * UserSelectors) :=
  let gdt := new in
  '(code_selector, gdt) ← unwrap (append kernel_code_segment gdt);
  '(data_selector, gdt) ← unwrap (append kernel_data_segment gdt);
  '(tss_selector, gdt) ← unwrap (append (tss_segment TSS) gdt);
  '(user_code_selector, gdt) ← unwrap (append user_code_segment gdt);
  '(user_data_selector, gdt) ← unwrap (append user_data_segment gdt);
  mret (gdt, mkKernelSelectors code_selector data_selector tss_selector,
        mkUserSelectors user_code_selector user_data_selector).

(** The registers after [init]. *)
Definition load (g : G * KernelSelectors * UserSelectors) : Registers G :=
  let null := SegmentSelector_new 0 0 in
  mkRegisters g.1.1 (code_selector g.1.2) (data_selector g.1.2) null null null null (tss_selector g.1.2).

Definition get_user_selector (g : G * KernelSelectors * UserSelectors) : UserSelectors := g.2.

(** [init] with the addresses of the four stacks; what it reports is the callers'. *)
Definition init `{X86_64} (stacks : Z * Z * Z * Z) : M S (Loaded G) :=
  let '(s0, s1, s2, s3) := stacks in
  t ← Apic.Gdt.tss s0 s1 s2 s3;
  g ← GDT t;
  mret (mkLoaded t g (load g)).

End Ops.

Section Facts.
Context `{GlobalDescriptorTable_Laws G used entry}.

(** A selector that leads to [d] with its privilege level. *)
Definition selects (g : G) (sel : Z) (d : Descriptor) : Prop :=
  entry g (index sel) = Some d ∧ rpl sel = dpl d.

Record gdt_ok (TSS : Apic.Gdt.TSS) (g : G * KernelSelectors * UserSelectors) : Prop := {
  go_code : selects g.1.1 (code_selector g.1.2) kernel_code_segment;
  go_data : selects g.1.1 (data_selector g.1.2) kernel_data_segment;
  go_tss : selects g.1.1 (tss_selector g.1.2) (tss_segment TSS);
  go_user_code : selects g.1.1 (user_code_selector g.2) user_code_segment;
  go_user_data : selects g.1.1 (user_data_selector g.2) user_data_segment;
}.

(** One more descriptor: the selectors of those before stay what they are. *)
Lemma append_selects d g n :
  used g = n → 0 <= n → n + entries d ≤ 8 →
  ∃ sel g', append d g = Some (sel, g') ∧ used g' = n + entries d ∧ index sel = n ∧ selects g' sel d ∧
    ∀ sel' d', index sel' ≠ n → 0 ≤ index sel' → selects g sel' d' → selects g' sel' d'.
Proof.
  intros Hu Hn Hr. destruct (append_room d g) as (g' & Ha & Hu' & He & Ho); [by rewrite Hu|].
  rewrite Hu in *. assert (Hd : 0 ≤ dpl d < 4 ∧ 1 ≤ entries d) by (destruct d; simpl; lia).
  exists (SegmentSelector_new n (dpl d)), g'. rewrite selector_index by lia. split_and!; [done..| |].
  - split; [by rewrite selector_index by lia|]. apply selector_rpl; lia.
  - intros sel' d' Hne Hge [Hs Hp]. split; [by rewrite Ho|done].
Qed.

(** The table is built without a panic, and every selector leads to its descriptor. *)
Lemma GDT_returns {S} TSS (s : S) : ∃ g, GDT TSS s = Done (g, s) ∧ gdt_ok TSS g.
Proof.
  unfold GDT.
  destruct (append_selects kernel_code_segment new 1 new_used) as (s1 & g1 & E1 & U1 & I1 & S1 & _); [done..|].
  rewrite E1. rewrite (bind_step _ _ s (s1, g1) s) by done. simpl in U1.
  destruct (append_selects kernel_data_segment g1 2 U1) as (s2 & g2 & E2 & U2 & I2 & S2 & O2); [done..|].
  rewrite E2. rewrite (bind_step _ _ s (s2, g2) s) by done. simpl in U2.
  destruct (append_selects (tss_segment TSS) g2 3 U2) as (s3 & g3 & E3 & U3 & I3 & S3 & O3); [done..|].
  rewrite E3. rewrite (bind_step _ _ s (s3, g3) s) by done. simpl in U3.
  destruct (append_selects user_code_segment g3 5 U3) as (s4 & g4 & E4 & U4 & I4 & S4 & O4); [done..|].
  rewrite E4. rewrite (bind_step _ _ s (s4, g4) s) by done. simpl in U4.
  destruct (append_selects user_data_segment g4 6 U4) as (s5 & g5 & E5 & U5 & I5 & S5 & O5); [done..|].
  rewrite E5. rewrite (bind_step _ _ s (s5, g5) s) by done.
  eexists. split; [reflexivity|]. split; simpl; auto with lia.
Qed.

(** [gdt::init] builds the table and loads it: code runs from the kernel's code
    segment in ring 0, [DS] holds the kernel's data segment, the task register
    the task state, and the other registers the null selector; the selectors
    for user code lead to the user segments, in ring 3. *)
Theorem segments_loaded {S} TSS (s : S) :
  ∃ g, GDT TSS s = Done (g, s) ∧ let r := load g in
    selects (gdtr r) (CS r) kernel_code_segment ∧ selects (gdtr r) (DS r) kernel_data_segment ∧
    selects (gdtr r) (TR r) (tss_segment TSS) ∧
    Forall (λ sel, index sel = 0 ∧ rpl sel = 0) [SS r; ES r; FS r; GS r] ∧
    selects (gdtr r) (user_code_selector (get_user_selector g)) user_code_segment ∧
    selects (gdtr r) (user_data_selector (get_user_selector g)) user_data_segment ∧
    NoDup [CS r; DS r; TR r; user_code_selector (get_user_selector g); user_data_selector (get_user_selector g)].
Proof.
  destruct (GDT_returns TSS s) as (g & Hg & [C1 C2 C3 C4 C5]). exists g. split; [done|]. cbv zeta.
  split_and!; [done..| |done|done|].
  - simpl. repeat constructor; first [by apply selector_index|by apply selector_rpl].
  - unfold selects, get_user_selector in *. simpl. rewrite !NoDup_cons, !not_elem_of_cons. split_and!;
      try apply not_elem_of_nil; try apply NoDup_nil_2; intros Heq; rewrite Heq in *; naive_solver.
Qed.

(** What [init] leaves is in order. *)
Definition loaded_ok (l : Loaded G) : Prop := gdt_ok (tss l) (gdt l) ∧ registers l = load (gdt l).

Lemma gdt_load_returns {S} `{X86_64} s0 s1 s2 s3 (s : S) :
  is_Some (VirtAddr_add s0 0x1000) → is_Some (VirtAddr_add s1 0x1000) →
  is_Some (VirtAddr_add s2 0x4000) → is_Some (VirtAddr_add s3 0x1000) →
  ∃ l, init (s0, s1, s2, s3) s = Done (l, s) ∧ loaded_ok l.
Proof.
  intros [e0 E0] [e1 E1] [e2 E2] [e3 E3]. unfold init.
  set (t0 := Apic.Gdt.mkTSS e0 (<[Apic.Gdt.PAGE_FAULT_IST_INDEX := e3]> (<[Apic.Gdt.SYSCALL_IST_INDEX := e2]>
      (<[Apic.Gdt.DOUBLE_FAULT_IST_INDEX := e1]> ∅)))).
  rewrite (bind_step _ _ s t0 s); cycle 1.
  { unfold Apic.Gdt.tss, Apic.Gdt.stack_end. cbn. by rewrite E0, E1, E2, E3. }
  destruct (GDT_returns t0 s) as (g & Hg & Hok). rewrite (bind_step _ _ _ _ _ Hg).
  by exists (mkLoaded t0 g (load g)).
Qed.

End Facts.
End Gdt.
