(* ===== verification/Start.v ===== *)
(** The start of the kernel: [pkg/kernel/src/lib.rs] and [main.rs], with the
    initialisers of [memory/mod.rs], [memory/address.rs], [memory/allocator.rs],
    [utils/clock.rs] and [utils/uefi.rs].

    The state is that of all the parts: the console, the interrupt hardware, the
    cells that are set once, and the kernel proper.  [grow_stack], which only
    touches its own stack, and log lines other than the logger's own are left
    out.  The endless part is [wait]: a [hlt] is a parameter that stands for
    everything that happens until the kernel's process runs again. *)
From stdpp Require Import strings.
From S2P Require Import Utils UserHeap Syscall Console Apic KernelExample Lifecycle.
From S2P Require Import Prelude Arch Pid Sync Frames Elf Supply Stack Heap Vm Context Resource Data Process Manager.
From S2P Require Import Scheduler Reachable Text Segments.
#[local] Open Scope Z_scope.

(** What the boot loader hands over, as the kernel reads it. *)
Record BootInfo : Type := mkBootInfo {
  memory_map : list MemoryDescriptor;
  physical_memory_offset : Z;
  loaded_apps : option (list App);
  log_level : str;
  kernel_pages : list (Z * Z);
}.

Record System (PT Q D L I G : Type) : Type := mkSystem {
  console : Console.world D;
  machine : Apic.machine L I;
  PHYSICAL_OFFSET : option Z;
  GDT : option (Segments.Gdt.Loaded G);
  ALLOCATOR : option (Z * Z);           (** start and size of the kernel's heap *)
  UEFI_SERVICE : bool;
  FRAME_ALLOCATOR : bool;               (** its content is in [kernel] *)
  USER_ALLOCATOR : option (Z * Z);
  kernel : Kernel PT Q;
}.
Arguments mkSystem {PT Q D L I G}.
Arguments console {PT Q D L I G}.
Arguments machine {PT Q D L I G}.
Arguments PHYSICAL_OFFSET {PT Q D L I G}.
Arguments GDT {PT Q D L I G}.
Arguments ALLOCATOR {PT Q D L I G}.
Arguments UEFI_SERVICE {PT Q D L I G}.
Arguments FRAME_ALLOCATOR {PT Q D L I G}.
Arguments USER_ALLOCATOR {PT Q D L I G}.
Arguments kernel {PT Q D L I G}.

Definition HEAP_SIZE : Z := 8 * 1024 * 1024.

Section Start.
Context `{Profile} `{X86_64} {PT Q D L I G : Type} `{Mapper PT} `{ArrayQueue Q}.
Context `{HD : Console.Ports D} `{HL : Apic.Mmio L} `{HI : Apic.Mmio I} `{HG : Segments.GlobalDescriptorTable G}.
(** Fuel for the device loops, the CPU, the banner, and the
    addresses of the static arrays: the interrupt stacks and the kernel's heap. *)
Context (fuel : nat) (cpuid : nat) (stacks : Z * Z * Z * Z) (HEAP : Z).
#[local] Abbreviation St := (System PT Q D L I G).

Definition on_console {A} : M (Console.world D) A → M St A :=
  zoom console (λ c s, mkSystem c (machine s) (PHYSICAL_OFFSET s) (GDT s) (ALLOCATOR s) (UEFI_SERVICE s)
    (FRAME_ALLOCATOR s) (USER_ALLOCATOR s) (kernel s)).
Definition on_machine {A} : M (Apic.machine L I) A → M St A :=
  zoom machine (λ m s, mkSystem (console s) m (PHYSICAL_OFFSET s) (GDT s) (ALLOCATOR s) (UEFI_SERVICE s)
    (FRAME_ALLOCATOR s) (USER_ALLOCATOR s) (kernel s)).
Definition on_kernel {A} : M (Kernel PT Q) A → M St A :=
  zoom kernel (λ k s, mkSystem (console s) (machine s) (PHYSICAL_OFFSET s) (GDT s) (ALLOCATOR s) (UEFI_SERVICE s)
    (FRAME_ALLOCATOR s) (USER_ALLOCATOR s) k).

(** [address::init]: [call_once] *)
Definition address_init (b : BootInfo) : M St () :=
  modify (λ s, mkSystem (console s) (machine s)
    (match PHYSICAL_OFFSET s with Some o => Some o | None => Some (physical_memory_offset b) end)
    (GDT s) (ALLOCATOR s) (UEFI_SERVICE s) (FRAME_ALLOCATOR s) (USER_ALLOCATOR s) (kernel s)).

(** [gdt::init] *)
Definition gdt_init : M St () :=
  t ← Segments.Gdt.init stacks;
  modify (λ s, mkSystem (console s) (machine s) (PHYSICAL_OFFSET s) (Some t) (ALLOCATOR s) (UEFI_SERVICE s)
    (FRAME_ALLOCATOR s) (USER_ALLOCATOR s) (kernel s));;
  _ ← Utils.humanized_size Apic.Gdt.total_size;
  mret ().

(** [allocator::init] *)
Definition allocator_init : M St () :=
  _ ← unwrap (VirtAddr_add HEAP HEAP_SIZE);
  modify (λ s, mkSystem (console s) (machine s) (PHYSICAL_OFFSET s) (GDT s) (Some (HEAP, HEAP_SIZE))
    (UEFI_SERVICE s) (FRAME_ALLOCATOR s) (USER_ALLOCATOR s) (kernel s));;
  _ ← Utils.humanized_size HEAP_SIZE;
  mret ().

Definition interrupt_init : M St () :=
  o ← gets PHYSICAL_OFFSET; on_machine (Apic.init o fuel).

(** [clock::init] and [uefi::init] *)
Definition clock_init : M St () :=
  modify (λ s, mkSystem (console s) (machine s) (PHYSICAL_OFFSET s) (GDT s) (ALLOCATOR s) true
    (FRAME_ALLOCATOR s) (USER_ALLOCATOR s) (kernel s)).

Definition set_falloc (f : BootInfoFrameAllocator) (k : Kernel PT Q) : Kernel PT Q :=
  let m := kmem k in
  set_kmem (mkMem (mkMachine (tables (Vm.machine m)) f (mem (Vm.machine m))) (arcs m) (ends m) (cr3 m)) k.

(** [memory::init] *)
Definition memory_init (b : BootInfo) : M St () :=
  sizes ← count_pages (memory_map b) 0 0;
  total ← word_op 64 (sizes.1 * PAGE_SIZE);
  _ ← Utils.humanized_size total;
  usable ← word_op 64 (sizes.2 * PAGE_SIZE);
  _ ← Utils.humanized_size usable;
  modify (λ s, mkSystem (console s) (machine s) (PHYSICAL_OFFSET s) (GDT s) (ALLOCATOR s) (UEFI_SERVICE s)
    true (USER_ALLOCATOR s)
    (if FRAME_ALLOCATOR s then kernel s else set_falloc (FrameAlloc.init (memory_map b) sizes.2) (kernel s))).

(** [memory::user::init], whose [get_frame_alloc_for_sure] panics without the cell *)
Definition user_init : M St () :=
  s ← get;
  if FRAME_ALLOCATOR s then
    zoom (λ s, (kmem (kernel s), USER_ALLOCATOR s))
      (λ t s, mkSystem (console s) (machine s) (PHYSICAL_OFFSET s) (GDT s) (ALLOCATOR s) (UEFI_SERVICE s)
         (FRAME_ALLOCATOR s) t.2 (set_kmem t.1 (kernel s)))
      (UserHeap.init (PHYSICAL_OFFSET s))
  else panic.

(** [proc::init]: it allocates, so the kernel's heap must be there. *)
Definition proc_init (b : BootInfo) : M St () :=
  s ← get;
  match ALLOCATOR s with
  | None => panic
  | Some _ =>
      on_kernel (modify (λ k, mkKernel (kmem k) (data k) (NEXT_PID k) (PROCESSORS k) (procs k) (processes k)
        (ready_queue k) (wait_queue k) (loaded_apps b)));;
      on_kernel (Manager.init cpuid (kernel_pages b))
  end.

(** [interrupts::enable] *)
Definition enable : M St () := on_console (modify (Console.set_enabled true)).

Definition init (b : BootInfo) : M St () :=
  on_console (Console.serial_init fuel);;
  on_console (Console.logger_init fuel (log_level b));;
  address_init b;;
  gdt_init;;
  allocator_init;;
  interrupt_init;;
  clock_init;;
  memory_init b;;
  user_init;;
  proc_init b;;
  enable.

(** [spawn_init] *)
Definition spawn_init : M St Z :=
  o ← gets PHYSICAL_OFFSET;
  on_kernel (u ← gets app_list; Syscall.println
    (match u with
     | None => ">>> No app found in list!"
     | Some apps => ">>> App list: " +:+ Stdlib.Strings.String.concat ", " (app_name <$> apps)
     end)%string);;
  l ← gets GDT;
  g ← unwrap l;
  let u := Segments.Gdt.get_user_selector (Segments.Gdt.gdt g) in
  let selector := (Segments.Gdt.user_code_selector u, Segments.Gdt.user_data_selector u) in
  r ← on_kernel (spawn o cpuid selector "sh"%string);
  match r with Ok pid => mret pid | Err _ => panic end.

(** [wait]: until the process has exited *)
Fixpoint wait (hlt : M St ()) (rounds : nat) (pid : Z) : M St () :=
  match rounds with
  | O => out_of_fuel
  | S rounds =>
      r ← on_kernel (wait_no_block pid);
      match r with None => hlt;; wait hlt rounds pid | Some _ => mret () end
  end.

(** [shutdown]; the firmware's [reset] does not come back, so its answer is of any type. *)
Definition shutdown {R} (reset : M St R) : M St R :=
  on_console (Console.info fuel (chars "YatSenOS shutting down."));;
  reset.

Definition kernel_main {R} (hlt : M St ()) (reset : M St R) (rounds : nat) (b : BootInfo) : M St R :=
  init b;;
  pid ← spawn_init;
  wait hlt rounds pid;;
  shutdown reset.

End Start.

(** ** What a start leaves *)

(** The pages of a memory map, all and the usable ones. *)
Fixpoint total_pages (mm : list MemoryDescriptor) : Z :=
  match mm with [] => 0 | d :: mm => page_count d + total_pages mm end.
Definition usable_pages (mm : list MemoryDescriptor) : Z :=
  total_pages (filter (λ d, ty d = CONVENTIONAL) mm).

Lemma total_pages_usable mm :
  Forall (λ d, 0 ≤ page_count d) mm → 0 ≤ usable_pages mm ≤ total_pages mm.
Proof.
  unfold usable_pages. induction 1 as [|d mm Hd _ IH]; [done|]. rewrite filter_cons. case_decide; simpl; lia.
Qed.

Lemma count_pages_spec `{Profile} {S} mm a u (s : S) :
  Forall (λ d, 0 ≤ page_count d) mm → 0 ≤ u ≤ a → a + total_pages mm < 2 ^ 64 →
  count_pages mm a u s = Done ((a + total_pages mm, u + usable_pages mm), s).
Proof.
  intros Hmm. revert a u. unfold usable_pages. induction Hmm as [|d mm Hd Hmm IH]; intros a u Hu Ht; cbn [count_pages total_pages].
  - by rewrite !Z.add_0_r.
  - simpl in Ht. pose proof (total_pages_usable mm Hmm). unfold usable_pages in *.
    rewrite (bind_step _ _ _ _ _ (word_op_exact 64 (a + page_count d) s ltac:(lia))).
    rewrite filter_cons. destruct (Z.eqb_spec (ty d) CONVENTIONAL) as [E|E].
    + rewrite decide_True by done. cbn [total_pages].
      rewrite (bind_step _ _ _ _ _ (word_op_exact 64 (u + page_count d) s ltac:(lia))).
      rewrite IH by lia. by rewrite <- !Z.add_assoc.
    + rewrite decide_False by done. rewrite (bind_step _ _ _ u s) by done.
      rewrite IH by lia. by rewrite <- !Z.add_assoc.
Qed.

(** The iterator has a frame for each usable page. *)
Lemma frames_length mm :
  Forall (λ d, 0 ≤ page_count d) mm → Z.of_nat (length (create_frame_iter mm)) = usable_pages mm.
Proof.
  unfold usable_pages, create_frame_iter. induction 1 as [|d mm Hd _ IH]; [done|]. rewrite filter_cons. case_decide; [|done].
  cbn [total_pages]. rewrite bind_cons, length_app, length_fmap, length_seqZ, <- IH. lia.
Qed.

Lemma humanized_returns {S} n (s : S) :
  0 ≤ n < 2 ^ 40 - 2 ^ 15 → ∃ r, Utils.humanized_size n s = Done (r, s).
Proof.
  intros Hn. pose proof (Utils.humanized_size_spec n false s ltac:(lia)) as Hs.
  rewrite (proj2 (Z.ltb_lt _ _)) in Hs by lia. destruct Hs as (? & ? & ? & _ & E & _). eauto.
Qed.

Section Started.
Context `{Profile} `{X86_64} {PT Q D L I G : Type} `{Mapper PT} `{ArrayQueue Q}.
Context `{HD : Console.Ports D} `{HL : Apic.Mmio L} `{HI : Apic.Mmio I} `{HG : Segments.GlobalDescriptorTable G}.
Context (fuel : nat) (cpuid : nat) (stacks : Z * Z * Z * Z) (HEAP : Z).
#[local] Abbreviation St := (System PT Q D L I G).
Context `{HU : !Console.Uart16550 D Console.SERIAL_IO_PORT}.
Context (off : Z) `{HLA : !Apic.Lapic L (Apic.XApic.LAPIC_ADDR + off)}.
Context `{HIA : !Apic.IoApicChip I (Apic.IoApic.IOAPIC_ADDR + off)}.
Context (entries_of : G → Z) (entry : G → Z → option Descriptor).
Context `{HGL : !Segments.GlobalDescriptorTable_Laws G entries_of entry}.
Context `{!X86_64_Laws _} (mapping : PT → Z → Z → option (Z * Z)) `{!Mapper_Laws PT mapping}.
Context (huge : PT → Z → Z → Prop) `{!Mapper_Free PT mapping huge}.
#[local] Abbreviation loaded_ok := (Segments.Gdt.loaded_ok (entry := entry)).

(** A machine that has just been handed over: no cell is set, the first pid is next. *)
Definition cold (s : St) : Prop :=
  Console.SERIAL (console s) = None ∧ Console.LOGGER (console s) = false ∧
  PHYSICAL_OFFSET s = None ∧ FRAME_ALLOCATOR s = false ∧ USER_ALLOCATOR s = None ∧
  NEXT_PID (kernel s) = Pid.NEXT_PID_init.

(** The static arrays end at addresses. *)
Definition arrays_fit : Prop :=
  let '(s0, s1, s2, s3) := stacks in
  is_Some (VirtAddr_add s0 0x1000) ∧ is_Some (VirtAddr_add s1 0x1000) ∧
  is_Some (VirtAddr_add s2 0x4000) ∧ is_Some (VirtAddr_add s3 0x1000) ∧ is_Some (VirtAddr_add HEAP HEAP_SIZE).

Definition set_app_list (l : option (list App)) (k : Kernel PT Q) : Kernel PT Q :=
  mkKernel (kmem k) (data k) (NEXT_PID k) (PROCESSORS k) (procs k) (processes k) (ready_queue k) (wait_queue k) l.

(** The kernel with the boot loader's frames to hand out. *)
Definition with_frames (b : BootInfo) (k : Kernel PT Q) : Kernel PT Q :=
  set_falloc (FrameAlloc.init (memory_map b) (usable_pages (memory_map b))) k.

Lemma zoom_run {S T A B} (proj : S → T) upd (m : M T A) (k : A → M S B) s a t :
  m (proj s) = Done (a, t) → (zoom proj upd m ≫= k) s = k a (upd t s).
Proof. intros E. apply bind_step. unfold zoom. by rewrite E. Qed.

Lemma gdt_init_returns (s : St) :
  arrays_fit →
  ∃ t, loaded_ok t ∧ gdt_init stacks s = Done ((), mkSystem (console s) (machine s) (PHYSICAL_OFFSET s) (Some t)
    (ALLOCATOR s) (UEFI_SERVICE s) (FRAME_ALLOCATOR s) (USER_ALLOCATOR s) (kernel s)).
Proof.
  unfold arrays_fit, gdt_init. destruct stacks as [[[s0 s1] s2] s3]. intros (E0 & E1 & E2 & E3 & _).
  destruct (Segments.Gdt.gdt_load_returns s0 s1 s2 s3 s E0 E1 E2 E3) as (l & El & Hok). exists l. split; [done|].
  rewrite (bind_step _ _ _ _ _ El), (bind_step _ _ _ () _ eq_refl).
  match goal with |- (_ ≫= _) ?t = _ =>
    destruct (humanized_returns Apic.Gdt.total_size t) as [r Er]; [done|] end.
  by rewrite (bind_step _ _ _ _ _ Er).
Qed.

Lemma allocator_init_returns (s : St) :
  arrays_fit →
  allocator_init HEAP s = Done ((), mkSystem (console s) (machine s) (PHYSICAL_OFFSET s) (GDT s)
    (Some (HEAP, HEAP_SIZE)) (UEFI_SERVICE s) (FRAME_ALLOCATOR s) (USER_ALLOCATOR s) (kernel s)).
Proof.
  unfold arrays_fit, allocator_init. destruct stacks as [[[s0 s1] s2] s3]. intros (_ & _ & _ & _ & [e E]).
  rewrite E. rewrite (bind_step _ _ _ e s) by done. rewrite (bind_step _ _ _ () _ eq_refl).
  match goal with |- (_ ≫= _) ?t = _ => destruct (humanized_returns HEAP_SIZE t) as [r Er]; [done|] end.
  by rewrite (bind_step _ _ _ _ _ Er).
Qed.

Lemma memory_init_returns b (s : St) :
  Forall (λ d, 0 ≤ page_count d) (memory_map b) → total_pages (memory_map b) * PAGE_SIZE < 2 ^ 40 - 2 ^ 15 →
  FRAME_ALLOCATOR s = false →
  memory_init b s = Done ((), mkSystem (console s) (machine s) (PHYSICAL_OFFSET s) (GDT s)
    (ALLOCATOR s) (UEFI_SERVICE s) true (USER_ALLOCATOR s) (with_frames b (kernel s))).
Proof.
  intros Hmm Ht Hf. pose proof (total_pages_usable _ Hmm) as Hu. unfold memory_init, PAGE_SIZE in *.
  rewrite (bind_step _ _ _ _ _ (count_pages_spec (memory_map b) 0 0 s Hmm ltac:(lia) ltac:(lia))). cbn [fst snd].
  rewrite !Z.add_0_l. rewrite (bind_step _ _ _ _ _ (word_op_exact 64 (total_pages (memory_map b) * 4096) s ltac:(lia))).
  destruct (humanized_returns (total_pages (memory_map b) * 4096) s) as [r1 E1]; [lia|].
  rewrite (bind_step _ _ _ _ _ E1).
  rewrite (bind_step _ _ _ _ _ (word_op_exact 64 (usable_pages (memory_map b) * 4096) s ltac:(lia))).
  destruct (humanized_returns (usable_pages (memory_map b) * 4096) s) as [r2 E2]; [lia|].
  rewrite (bind_step _ _ _ _ _ E2). unfold modify. by rewrite Hf.
Qed.

(** The pages of the kernel's image, counted as [init_kernel_vm] does. *)
Fixpoint image_pages (rs : list (Z * Z)) : Z :=
  match rs with [] => 0 | r :: rs => Vm.range_count r + image_pages rs end.

Lemma image_pages_pos rs : 0 ≤ image_pages rs.
Proof. induction rs as [|r rs IH]; [done|]. cbn [image_pages]. unfold Vm.range_count. lia. Qed.

Lemma sum_counts_returns rs size (m : Mem PT) :
  0 ≤ size → size + image_pages rs < 2 ^ 64 → Vm.sum_counts rs size m = Done (size + image_pages rs, m).
Proof.
  revert size. induction rs as [|r rs IH]; intros size Hs Ht; cbn [image_pages Vm.sum_counts] in *.
  { by rewrite Z.add_0_r. }
  assert (Hn : 0 ≤ Vm.range_count r) by (unfold Vm.range_count; lia). pose proof (image_pages_pos rs).
  rewrite (bind_step _ _ m (size + Vm.range_count r) m), IH by (lia || (apply word_op_exact; lia)). f_equal. f_equal. lia.
Qed.

(** [proc::init] returns on a CPU that there is. *)
Lemma manager_init_returns pages (k : Kernel PT Q) :
  (cpuid < length (PROCESSORS k))%nat → image_pages pages * PAGE_SIZE < 2 ^ 64 →
  ∃ k', Manager.init cpuid pages k = Done ((), k').
Proof.
  intros Hc Hp. pose proof (image_pages_pos pages) as Hn. assert (Hret : returns (Manager.init cpuid pages) k).
  2: { destruct Hret as [[[] k'] Hk]. by exists k'. }
  unfold Manager.init. apply returns_bind.
  { apply returns_zoom. unfold returns, PageTableContext.new, Arc_new, set_arcs. eexists. reflexivity. }
  intros pt k1 Hk1.
  apply on_mem_eq in Hk1 as (_ & m1 & _ & ->). apply returns_bind.
  { apply returns_zoom. unfold Vm.new, Heap_empty. rewrite VirtAddr_new_canonical by (left; unfold HEAP_START; lia). by eexists. }
  intros v k2 Hk2. apply on_mem_eq in Hk2 as (_ & m2 & _ & ->). apply returns_bind.
  { apply returns_zoom. unfold Vm.init_kernel_vm. apply returns_bind.
    { eexists. apply sum_counts_returns; [done|unfold PAGE_SIZE in *; lia]. }
    intros n m3 Hs. rewrite sum_counts_returns in Hs by (done || (unfold PAGE_SIZE in *; lia)). injection Hs as <- <-.
    apply returns_bind; [apply returns_word_op; unfold PAGE_SIZE in *; lia|]. intros; apply returns_mret. }
  intros v' k3 Hk3. apply on_mem_eq in Hk3 as (_ & m3 & _ & ->).
  apply returns_bind; [unfold returns, Proc.new, Arc_new_proc; eexists; reflexivity|]. intros loc k4 Hk4. apply proc_new_Done in Hk4 as (d & dt & -> & ->).
  unfold modify_inner, manager_init, read_proc, write_proc. cbn [procs set_procs set_data set_next_pid set_kmem].
  apply returns_bind.
  { apply returns_bind; [|intros; by eexists]. apply returns_bind; [by eexists|]. intros s k5 [= <- <-].
    apply returns_unwrap. cbn [procs set_procs]. rewrite lookup_insert_eq. by eexists. }
  intros u k5 Hk5. apply bind_Done in Hk5 as (p & k6 & Hk6 & Hk5).
  apply bind_Done in Hk6 as (s & k7 & [= <- <-] & [_ <-]%unwrap_Done). apply modify_Done in Hk5 as <-.
  apply returns_bind.
  { apply returns_bind; [by eexists|]. intros s k5 [= <- <-].
    apply returns_unwrap. cbn [procs set_procs]. rewrite lookup_insert_eq. by eexists. }
  intros p' k5 Hk5. apply bind_Done in Hk5 as (s & k6 & [= <- <-] & [_ <-]%unwrap_Done).
  apply returns_bind; [|intros; by eexists]. apply returns_zoom. eexists. by apply Processor.set_pid_eq.
Qed.

(** The last two initialisers, from the machine that the others leave. *)
Lemma heap_and_processes b (k0 : Kernel PT Q) :
  let root := addr (cr3 (kmem k0)) in
  NEXT_PID k0 = Pid.NEXT_PID_init → Forall (λ d, 0 ≤ page_count d) (memory_map b) →
  FrameAlloc.valid_map (memory_map b) → 1020 ≤ usable_pages (memory_map b) →
  total_pages (memory_map b) * PAGE_SIZE < 2 ^ 40 - 2 ^ 15 → 0 ≤ root + off < 2 ^ 64 →
  (∀ p, p ∈ UserHeap.user_heap_pages → vacant mapping huge root (tables (Vm.machine (kmem k0))) p) →
  (cpuid < length (PROCESSORS k0))%nat → image_pages (kernel_pages b) * PAGE_SIZE < 2 ^ 64 →
  ∃ mem k, UserHeap.init (Some off) (kmem (with_frames b k0), None) =
      Done ((), (mem, Some (UserHeap.USER_HEAP_START, UserHeap.USER_HEAP_SIZE))) ∧
    Manager.init cpuid (kernel_pages b) (set_app_list (loaded_apps b) (set_kmem mem (with_frames b k0))) = Done ((), k) ∧
    (∃ fs, Elf.mapped_exactly mapping root UserHeap.user_heap_flags UserHeap.user_heap_pages fs
      (tables (Vm.machine (kmem k0))) (tables (Vm.machine (kmem k)))) ∧
    alloc_steps (FrameAlloc.init (memory_map b) (usable_pages (memory_map b))) (falloc (Vm.machine (kmem k))) ∧
    app_list k = loaded_apps b ∧ ready_queue k = [] ∧ wf cpuid k ∧ running cpuid k = Some KERNEL_PID.
Proof.
  intros root Hpid Hmm Hvm Hus Htot Hroot Hvac Hcpu Himg.
  pose proof (total_pages_usable _ Hmm) as Hup. pose proof (frames_length _ Hmm) as Hlen.
  destruct (UserHeap.user_heap_returns (Some off) mapping huge off (kmem (with_frames b k0), None)) as [[mem uh] Hh];
    [done|exact Hroot|exact Hvac| |].
  { apply boot_supplies; [done|exact Hvm|simpl; lia|done|]. unfold PAGE_SIZE in *. simpl. lia. }
  destruct (UserHeap.user_heap_short _ mapping _ _ _ Hh) as (Huh & Hmap & _ & _ & Hst). simpl in Huh. subst uh.
  destruct (manager_init_returns (kernel_pages b) (set_app_list (loaded_apps b) (set_kmem mem (with_frames b k0))) Hcpu Himg) as [k Hk].
  exists mem, k. split; [exact Hh|]. split; [exact Hk|].
  destruct (init_inv_running cpuid _ (set_app_list (loaded_apps b) (set_kmem mem (with_frames b k0))) () k Hpid Hk) as [[Hwf _] Hrun].
  apply init_Done in Hk as (a & m1 & v & m2 & v2 & loc & i & Ha & Hv & _ & _ & _ & _ & _ & _ & _ & _ & Hm & _ & _ & _ & Hrq & Happ & _); [|exact Hpid].
  assert (Hma : Vm.machine (kmem k) = Vm.machine mem).
  { rewrite Hm. unfold Arc_new in Ha. injection Ha as _ <-. unfold Vm.new, Heap_empty in Hv.
    apply bind_Done in Hv as (h & m3 & Hv & Hv2). apply ret_Done in Hv2 as [_ <-].
    apply bind_Done in Hv as (va & m4 & [_ <-]%unwrap_Done & Hv). injection Hv as _ <-. done. }
  rewrite Hma. split_and!; [exact Hmap|exact Hst|exact Happ|exact Hrq|exact Hwf|exact Hrun].
Qed.

(** C21: The kernel starts.  On a cold machine, with the physical memory mapped in range,
    less than a tebibyte in the memory map and 1020 usable pages or more, a CPU of the table, and
    nothing mapped yet where the user heap will be, [init] goes through all its
    initialisers without a panic: the order meets every need.  At the end the
    console prints, interrupts are on and reach their handlers, the segments are loaded; the user
    heap is mapped, writable for user programs, and its allocator set up; the frames to hand
    out are those of the memory map, but for those taken; the applications of the boot loader
    are listed; and the process table is well formed, with
    the kernel's process alive and running and no other ready. *)
Theorem kernel_starts (b : BootInfo) (s : St) :
  let root := addr (cr3 (kmem (kernel s))) in
  cold s → arrays_fit → (Console.baud_bound < fuel)%nat → (Apic.delivery_bound < fuel)%nat →
  physical_memory_offset b = off → 0 ≤ off → off + Apic.XApic.LAPIC_ADDR ≤ 2 ^ 64 - 0x400 →
  4 ≤ Apic.max (Apic.IoApic.IOAPIC_ADDR + off) (Apic.ioapic (machine s)) →
  Forall (λ d, 0 ≤ page_count d) (memory_map b) → total_pages (memory_map b) * PAGE_SIZE < 2 ^ 40 - 2 ^ 15 →
  FrameAlloc.valid_map (memory_map b) → 1020 ≤ usable_pages (memory_map b) →
  0 ≤ root + off < 2 ^ 64 →
  (∀ p, p ∈ UserHeap.user_heap_pages → vacant mapping huge root (tables (Vm.machine (kmem (kernel s)))) p) →
  (cpuid < length (PROCESSORS (kernel s)))%nat → image_pages (kernel_pages b) * PAGE_SIZE < 2 ^ 64 →
  ∃ s', init fuel cpuid stacks HEAP b s = Done ((), s') ∧
    Console.enabled (console s') = true ∧ Console.ready false (console s') ∧
    Console.max_level (console s') = Some (Console.level_of (log_level b)) ∧
    Apic.idtr (machine s') = Some Apic.Idt.IDT ∧ PHYSICAL_OFFSET s' = Some off ∧
    (∃ l, GDT s' = Some l ∧ loaded_ok l) ∧ ALLOCATOR s' = Some (HEAP, HEAP_SIZE) ∧ FRAME_ALLOCATOR s' = true ∧
    USER_ALLOCATOR s' = Some (UserHeap.USER_HEAP_START, UserHeap.USER_HEAP_SIZE) ∧
    (∃ fs, Elf.mapped_exactly mapping root UserHeap.user_heap_flags UserHeap.user_heap_pages fs
      (tables (Vm.machine (kmem (kernel s)))) (tables (Vm.machine (kmem (kernel s'))))) ∧
    alloc_steps (FrameAlloc.init (memory_map b) (usable_pages (memory_map b))) (falloc (Vm.machine (kmem (kernel s')))) ∧
    app_list (kernel s') = loaded_apps b ∧ ready_queue (kernel s') = [] ∧
    wf cpuid (kernel s') ∧ running cpuid (kernel s') = Some KERNEL_PID.
Proof.
  intros root (Hs & Hlg & Hoff & Hfa & Hua & Hpid) Harr Hf1 Hf2 Hb Ho Ho' Hmax Hmm Htot Hvm Hus Hroot Hvac Hcpu Himg.
  destruct (heap_and_processes b (kernel s) Hpid Hmm Hvm Hus Htot Hroot Hvac Hcpu Himg) as (mem & k & Hheap & Hproc & Hk).
  unfold init.
  destruct (Console.serial_init_spec fuel Hf1 (console s) Hs) as (c1 & E1 & R1 & _ & _ & L1).
  unfold on_console. rewrite (zoom_run _ _ _ _ _ _ _ E1).
  destruct (Console.logger_init_ready fuel Hf1 (log_level b) c1 R1 ltac:(by rewrite L1)) as (c2 & E2 & R2 & _ & _ & M2 & _).
  erewrite zoom_run by exact E2. cbn [console machine PHYSICAL_OFFSET GDT ALLOCATOR UEFI_SERVICE FRAME_ALLOCATOR USER_ALLOCATOR kernel].
  erewrite (bind_step (address_init b)) by done. cbn [console machine PHYSICAL_OFFSET GDT ALLOCATOR UEFI_SERVICE FRAME_ALLOCATOR USER_ALLOCATOR kernel].
  rewrite Hoff, Hb.
  edestruct gdt_init_returns as (t & Hok & Et); [exact Harr|]. rewrite (bind_step _ _ _ _ _ Et). clear Et.
  rewrite (bind_step _ _ _ _ _ (allocator_init_returns _ Harr)).
  cbn [console machine PHYSICAL_OFFSET GDT ALLOCATOR UEFI_SERVICE FRAME_ALLOCATOR USER_ALLOCATOR kernel].
  destruct (Apic.init_returns off fuel (machine s) Ho Ho' Hf2 Hmax) as (l & i & Ei & _).
  unfold interrupt_init at 1. rewrite (bind_step _ _ _ () (mkSystem c2 (Apic.mkMachine (Some Apic.Idt.IDT) l i) (Some off)
    (Some t) (Some (HEAP, HEAP_SIZE)) (UEFI_SERVICE s) (FRAME_ALLOCATOR s) (USER_ALLOCATOR s) (kernel s))).
  2: { erewrite (bind_step (gets PHYSICAL_OFFSET)) by done. cbn [PHYSICAL_OFFSET]. unfold on_machine, zoom. cbn [machine]. by rewrite Ei. }
  erewrite (bind_step clock_init) by done.
  cbn [console machine PHYSICAL_OFFSET GDT ALLOCATOR UEFI_SERVICE FRAME_ALLOCATOR USER_ALLOCATOR kernel].
  erewrite (bind_step (memory_init b)) by (apply memory_init_returns; [done..|exact Hfa]).
  cbn [console machine PHYSICAL_OFFSET GDT ALLOCATOR UEFI_SERVICE FRAME_ALLOCATOR USER_ALLOCATOR kernel].
  rewrite Hua.
  unfold user_init at 1. rewrite (bind_step _ _ _ () (mkSystem c2 (Apic.mkMachine (Some Apic.Idt.IDT) l i) (Some off)
    (Some t) (Some (HEAP, HEAP_SIZE)) true true (Some (UserHeap.USER_HEAP_START, UserHeap.USER_HEAP_SIZE)) (set_kmem mem (with_frames b (kernel s))))).
  2: { erewrite (bind_step get) by done. cbn [FRAME_ALLOCATOR PHYSICAL_OFFSET]. unfold zoom.
       cbn [kernel USER_ALLOCATOR]. by rewrite Hheap. }
  unfold proc_init at 1. rewrite (bind_step _ _ _ () (mkSystem c2 (Apic.mkMachine (Some Apic.Idt.IDT) l i) (Some off)
    (Some t) (Some (HEAP, HEAP_SIZE)) true true (Some (UserHeap.USER_HEAP_START, UserHeap.USER_HEAP_SIZE)) k)).
  2: { erewrite (bind_step get) by done. cbn [ALLOCATOR]. unfold on_kernel.
       erewrite zoom_run by done. unfold zoom. cbn [kernel].
       change (mkKernel _ _ _ _ _ _ _ _ _) with (set_app_list (loaded_apps b) (set_kmem mem (with_frames b (kernel s)))).
       by rewrite Hproc. }
  eexists. split; [done|].
  cbn [console machine PHYSICAL_OFFSET GDT ALLOCATOR UEFI_SERVICE FRAME_ALLOCATOR USER_ALLOCATOR kernel].
  destruct Hk as (Hmap & Hst & Happ & Hrq & Hwf & Hrun). split_and!; try done. by exists t.
Qed.

End Started.

(** ** Waiting for the shell *)

Section Waiting.
Context `{Profile} `{X86_64} {PT Q D L I G : Type} `{Mapper PT} `{ArrayQueue Q}.
#[local] Abbreviation St := (System PT Q D L I G).

(** The process has exited in [s]. *)
Definition exited (pid : Z) (s : St) : Prop :=
  ∃ p c, lookup_proc (kernel s) pid = Some p ∧ exit_code (inner p) = Some c.

Lemma wait_no_block_spec pid (k : Kernel PT Q) :
  (∀ q l, processes k !! q = Some l → is_Some (procs k !! l)) →
  wait_no_block pid k = Done (lookup_proc k pid ≫= λ p, exit_code (inner p), k).
Proof.
  intros Hwf. unfold wait_no_block, get_ret, get_proc. erewrite (bind_step (gets _)) by done.
  unfold lookup_proc. destruct (processes k !! pid) as [l|] eqn:El; [|done]. simpl.
  destruct (Hwf _ _ El) as [p Hp]. unfold read_proc. erewrite bind_step; [|erewrite bind_step by done; by rewrite Hp].
  by rewrite Hp.
Qed.

(** [wait] returns as soon as the process has exited and not before, whatever happens
    during the halts: if [n] halts lead through [f 0], ..., [f n], well-formed
    kernels in which the process has exited in the last only, then it returns
    after exactly those halts, in [f n]; and if it never exits it never returns. *)
Theorem wait_until_exit (hlt : M St ()) (pid : Z) (f : nat → St) (cpuid n : nat) :
  (∀ i, (i <= n)%nat → wf cpuid (kernel (f i))) →
  (∀ i, (i < n)%nat → hlt (f i) = Done ((), f (S i)) ∧ ¬ exited pid (f i)) →
  (exited pid (f n) → ∀ m, (n < m)%nat → wait hlt m pid (f 0%nat) = Done ((), f n)) ∧
  (∀ m, (m <= n)%nat → wait hlt m pid (f 0%nat) = OutOfFuel).
Proof.
  assert (Hstep : ∀ s : St, wf cpuid (kernel s) →
    on_kernel (wait_no_block pid) s = Done (lookup_proc (kernel s) pid ≫= λ p, exit_code (inner p), s)).
  { intros s Hwf. unfold on_kernel, zoom. rewrite wait_no_block_spec; [by destruct s|].
    intros q l Hl. destruct (wf_table _ _ Hwf q l Hl) as (p & -> & _). eauto. }
  assert (Hret : ∀ s : St, (lookup_proc (kernel s) pid ≫= λ p, exit_code (inner p)) = None ↔ ¬ exited pid s).
  { intros s. unfold exited. destruct (lookup_proc (kernel s) pid) as [p|]; simpl; [|split; [by intros _ (? & ? & ? & _)|done]].
    destruct (exit_code (inner p)) as [c|] eqn:Ec; [split; [done|]|split; [|done]].
    - intros Hn. destruct Hn. eauto.
    - intros _ (? & ? & [= <-] & ?). congruence. }
  revert f. induction n as [|n IH]; intros f Hwf Hf.
  - split.
    + intros He m Hm. destruct m as [|m]; [lia|]. cbn [wait]. rewrite (bind_step _ _ _ _ _ (Hstep _ (Hwf 0%nat ltac:(lia)))).
      destruct (_ ≫= _) eqn:E; [done|]. by apply Hret in E.
    + intros m Hm. by assert (m = 0%nat) as -> by lia.
  - destruct (Hf 0%nat ltac:(lia)) as [Hh Hn0]. destruct (IH (λ i, f (S i))) as [IH1 IH2].
    { intros i Hi. apply Hwf. lia. }
    { intros i Hi. apply Hf. lia. }
    split.
    + intros He m Hm. destruct m as [|m]; [lia|]. cbn [wait]. rewrite (bind_step _ _ _ _ _ (Hstep _ (Hwf 0%nat ltac:(lia)))).
      rewrite (proj2 (Hret _) Hn0), (bind_step _ _ _ _ _ Hh). apply IH1; [done|lia].
    + intros m Hm. destruct m as [|m]; [done|]. cbn [wait]. rewrite (bind_step _ _ _ _ _ (Hstep _ (Hwf 0%nat ltac:(lia)))).
      rewrite (proj2 (Hret _) Hn0), (bind_step _ _ _ _ _ Hh). apply IH2. lia.
Qed.

End Waiting.

(** * An example: a machine with one region of memory, and a shell that is killed *)

Section StartWitnesses.
#[local] Existing Instance x86_ref.
#[local] Existing Instance release.
#[local] Existing Instance Console.chip_ports.
#[local] Existing Instance Console.chip_uart.
#[local] Instance lapic_mmio0 : Apic.Mmio Apic.lapic_dev := Apic.lapic_mmio (Apic.XApic.LAPIC_ADDR + 0).
#[local] Instance ioapic_mmio0 : Apic.Mmio Apic.ioapic_dev := Apic.ioapic_mmio (Apic.IoApic.IOAPIC_ADDR + 0).
#[local] Instance lapic_laws0 : Apic.Lapic Apic.lapic_dev (Apic.XApic.LAPIC_ADDR + 0) := Apic.lapic_laws _.
#[local] Instance ioapic_laws0 : Apic.IoApicChip Apic.ioapic_dev (Apic.IoApic.IOAPIC_ADDR + 0) := Apic.ioapic_laws _.

Definition boot_info_example : BootInfo :=
  mkBootInfo [mkDescriptor CONVENTIONAL 0x100000 1100; mkDescriptor 0 0 16] 0 None (chars "info") [].
Definition system_with (k : Kernel table queue) : System table queue Console.chip Apic.lapic_dev Apic.ioapic_dev (list (option Descriptor)) :=
  mkSystem (Console.mkWorld false None Console.cold_chip false None)
    (Apic.mkMachine None Apic.lapic0 Apic.ioapic0) None None None false false None k.
Definition cold_example : System table queue Console.chip Apic.lapic_dev Apic.ioapic_dev (list (option Descriptor)) := system_with boot_example.

Lemma boot_vacant p :
  p ∈ UserHeap.user_heap_pages →
  vacant table_mapping (λ _ _ _, False) (addr (cr3 (kmem boot_example))) (tables (Vm.machine (kmem boot_example))) p.
Proof. intros _. split; [reflexivity|by intros []]. Qed.

Lemma kernel_starts_witness :
  ∃ s', init 3 0 (0x10000, 0x20000, 0x30000, 0x40000) 0x50000 boot_info_example cold_example = Done ((), s') ∧
    running 0 (kernel s') = Some KERNEL_PID ∧ USER_ALLOCATOR s' = Some (UserHeap.USER_HEAP_START, UserHeap.USER_HEAP_SIZE).
Proof.
  destruct (kernel_starts 3 0 (0x10000, 0x20000, 0x30000, 0x40000) 0x50000 0
    (λ g, Z.of_nat (length g)) (λ g i, mjoin (g !! Z.to_nat i)) table_mapping (λ _ _ _, False) boot_info_example
    cold_example) as (s' & E & _ & _ & _ & _ & _ & _ & _ & _ & U & _ & _ & _ & _ & _ & R).
  - by split_and!.
  - by split_and!; eexists.
  - simpl. lia.
  - simpl. lia.
  - done.
  - lia.
  - unfold Apic.XApic.LAPIC_ADDR. lia.
  - vm_compute. discriminate.
  - repeat constructor; simpl; lia.
  - reflexivity.
  - apply (bool_decide_eq_true_1 _). vm_compute. reflexivity.
  - vm_compute. discriminate.
  - split; vm_compute; (discriminate || reflexivity).
  - exact boot_vacant.
  - simpl. lia.
  - reflexivity.
  - exists s'. split_and!; [exact E|exact R|exact U].
Defined.

(** Process 2 is killed during the first halt. *)
Definition shell_states (i : nat) : System table queue Console.chip Apic.lapic_dev Apic.ioapic_dev (list (option Descriptor)) :=
  match i with O => system_with KernelExample.kernel_example | _ => system_with Lifecycle.kill_example end.

Lemma wait_until_exit_witness :
  wait (on_kernel (manager_kill Vm.offset_example 2 7)) 2 2 (shell_states 0) = Done ((), shell_states 1) ∧
  wait (on_kernel (manager_kill Vm.offset_example 2 7)) 1 2 (shell_states 0) = OutOfFuel.
Proof.
  destruct (wait_until_exit (on_kernel (manager_kill Vm.offset_example 2 7)) 2 shell_states 0 1) as [Hr Hn].
  - intros [|i] _; [apply KernelExample.kernel_example_wf|]. apply KernelExample.wfb_wf. vm_compute. reflexivity.
  - intros i Hi. assert (i = 0%nat) as -> by lia. split; [vm_compute; reflexivity|].
    intros (p & c & Hp & Hc). vm_compute in Hp. injection Hp as <-. discriminate Hc.
  - split; [|by apply Hn]. apply Hr; [|lia]. eexists _, 7. split; vm_compute; reflexivity.
Defined.

End StartWitnesses.
