(* ===== verification/Helpers.v ===== *)
(** The kernel's helpers: the test loop of [utils/func.rs], the calendar clock of
    [utils/clock.rs] with [utils/uefi.rs], and the busy wait [microdelay] of
    [interrupt/apic/xapic.rs].

    The test loop never returns; its model runs a number of rounds.  The time-stamp
    counter, the firmware's clock and the calendar of the [chrono] crate are
    parameters. *)
From stdpp Require Import strings.
From S2P Require Import Prelude Arch Resource Vm Data Process Manager Console Apic Text Listing KernelExample Segments Start.
#[local] Open Scope Z_scope.

(** ** [func::test] *)

Module Func.
Section Test.
Context `{Profile} `{X86_64} {PT Q D L I G : Type} `{Mapper PT} `{ArrayQueue Q}.
Context `{HD : Console.Ports D} `{HL : Apic.Mmio L} `{HI : Apic.Mmio I} `{HG : Segments.GlobalDescriptorTable G}.
(** As in Start: the device loops' fuel, the CPU, and what a [hlt] stands for. *)
Context (fuel : nat) (cpuid : nat) (hlt : M (System PT Q D L I G) ()).
#[local] Abbreviation St := (System PT Q D L I G).

(** ["\r{:-6} => Hello, world!"]; the sign means nothing to a string. *)
Definition greeting (id : str) : str := [13] ++ Fmt.pad_right 6 id ++ chars " => Hello, world!".

(** One round of the [loop], with [count]. *)
Definition round (id : str) (count : Z) : M St Z :=
  let count := count + 1 in
  count ← (if count =? 100 then on_console (Console.print_internal fuel (greeting id));; mret 0
           else mret count);
  hlt;;
  mret count.

Fixpoint rounds (n : nat) (id : str) (count : Z) : M St Z :=
  match n with
  | O => mret count
  | S n => count ← round id count; rounds n id count
  end.

Definition test (n : nat) : M St Z :=
  v ← on_kernel (Manager.env cpuid "id");
  let id := match v with Some id_env => chars id_env | None => chars "unknown" end in
  rounds n id 0.

End Test.

Section TestFacts.
Context `{Profile} `{X86_64} {PT Q D L I G : Type} `{Mapper PT} `{ArrayQueue Q}.
Context `{HD : Console.Ports D} `{HL : Apic.Mmio L} `{HI : Apic.Mmio I} `{HG : Segments.GlobalDescriptorTable G}.
Context `{HU : !Console.Uart16550 D Console.SERIAL_IO_PORT}.
Context (fuel : nat) (cpuid : nat) (hlt : M (System PT Q D L I G) ()).
#[local] Abbreviation St := (System PT Q D L I G).
Hypothesis enough : (Console.baud_bound < fuel)%nat.
(** Whatever happens between two interrupts prints nothing. *)
Hypothesis quiet : ∀ s : St, ∃ s', hlt s = Done ((), s') ∧ console s' = console s.

Lemma round_prints id count (s : St) :
  0 ≤ count < 100 → Console.ready false (console s) →
  ∃ s', round fuel hlt id count s = Done ((count + 1) `mod` 100, s') ∧
    Console.printed (if count + 1 =? 100 then as_bytes (greeting id) else []) (console s) (console s').
Proof.
  intros Hc Hr. unfold round. destruct (Z.eqb_spec (count + 1) 100) as [E|E].
  - destruct (Console.print_ready fuel enough (greeting id) _ Hr) as (c & Hp & Hpr).
    unfold mbind at 1, M_bind at 1, on_console. rewrite (zoom_run _ _ _ _ _ _ _ Hp).
    match goal with |- context [mret 0 ?t] => destruct (quiet t) as (s' & Eh & Hs') end.
    simpl. rewrite (bind_step _ _ _ _ _ Eh), E. exists s'. by rewrite Hs'.
  - destruct (quiet s) as (s' & Eh & Hs'). rewrite (bind_step _ _ s (count + 1) s) by done.
    rewrite (bind_step _ _ _ _ _ Eh), Z.mod_small by lia. exists s'. rewrite Hs'. split; [done|apply Console.printed_nil].
Qed.

(** Every hundred rounds, and only then, the line is printed once. *)
Lemma rounds_print n id count (s : St) :
  0 ≤ count < 100 → Console.ready false (console s) →
  ∃ s', rounds fuel hlt n id count s = Done ((count + Z.of_nat n) `mod` 100, s') ∧
    Console.printed (mjoin (replicate (Z.to_nat ((count + Z.of_nat n) / 100)) (as_bytes (greeting id))))
      (console s) (console s').
Proof.
  revert count s. induction n as [|n IH]; intros count s Hc Hr.
  { exists s. rewrite Z.add_0_r, Z.mod_small, Z.div_small by lia. split; [done|apply Console.printed_nil]. }
  cbn [rounds]. destruct (round_prints id count s Hc Hr) as (s1 & E1 & P1).
  rewrite (bind_step _ _ _ _ _ E1).
  destruct (IH ((count + 1) `mod` 100) s1) as (s2 & E2 & P2); [by apply Z.mod_pos_bound|by eapply Console.printed_ready|].
  exists s2. pose proof (Console.printed_trans _ _ _ _ _ P1 P2) as P. clear P1 P2.
  replace (count + Z.of_nat (S n)) with (count + 1 + Z.of_nat n) by lia.
  rewrite E2, Zplus_mod_idemp_l. split; [done|].
  destruct (Z.eqb_spec (count + 1) 100) as [Ec|Ec].
  - rewrite Ec in *. change (100 `mod` 100) with 0 in P.
    replace (Z.to_nat ((100 + Z.of_nat n) / 100)) with (S (Z.to_nat ((0 + Z.of_nat n) / 100))); [exact P|].
    replace (100 + Z.of_nat n) with (0 + Z.of_nat n + 1 * 100) by lia. rewrite Z.div_add by lia.
    assert (0 ≤ (0 + Z.of_nat n) / 100) by (apply Z.div_pos; lia). lia.
  - by rewrite (Z.mod_small (count + 1)) in P by lia.
Qed.

(** [test] prints its line, with the process's [id] or ["unknown"], once in a hundred
    interrupts. *)
Theorem test_prints n id (s : St) :
  Console.ready false (console s) → Manager.env cpuid "id" (kernel s) = Done (id, kernel s) →
  ∃ s', test fuel cpuid hlt n s = Done (Z.of_nat n `mod` 100, s') ∧
    Console.printed (mjoin (replicate (n / 100) (as_bytes (greeting (from_option chars (chars "unknown") id)))))
      (console s) (console s').
Proof.
  intros Hr He. unfold test, on_kernel. rewrite (zoom_run _ _ _ _ _ _ _ He).
  match goal with |- context [rounds _ _ _ ?i _ ?t] =>
    destruct (rounds_print n i 0 t) as (s' & E & P); [lia|exact Hr|] end.
  exists s'. rewrite E. split; [done|]. rewrite Z.add_0_l in P.
  replace (Z.to_nat (Z.of_nat n / 100)) with (n / 100)%nat in P by (change 100 with (Z.of_nat 100); rewrite <- Nat2Z.inj_div; lia).
  by destruct id.
Qed.

End TestFacts.
End Func.

(** ** [clock::now] *)

Module Clock.

(** [uefi::table::runtime::Time], as far as it is used. *)
Record Time : Type := mkTime {
  year : Z; month : Z; day : Z; hour : Z; minute : Z; second : Z; nanosecond : Z;
}.

(** The calendar: dates that exist, and the times of a day. *)
Class Chrono (NaiveDate NaiveDateTime : Type) := {
  from_ymd_opt : Z → Z → Z → option NaiveDate;
  NaiveDate_default : NaiveDate;
  and_hms_nano_opt : NaiveDate → Z → Z → Z → Z → option NaiveDateTime;
  NaiveDateTime_default : NaiveDateTime;
  timestamp_nanos_opt : NaiveDateTime → option Z;   (** of [and_utc] *)
}.

Section Now.
Context {ND DT E R : Type} `{Chrono ND DT}.
(** The firmware's runtime services: its clock can fail. *)
Context (firmware_time : R → result Time E).
#[local] Abbreviation St := (Console.Once.t R).

(** [uefi::init] through [clock::init]; a cell that is locked counts as missing. *)
Definition init (runtime_services : R) : M St () :=
  r ← Console.Once.get;
  match r with
  | None => Console.Once.init runtime_services
  | Some _ => Console.Once.force_unlock
  end.

Definition get_time (self : R) : M St Time :=
  match firmware_time self with Ok t => mret t | Err _ => panic end.

(** The guard lives until the end of the statement. *)
Definition now : M St DT :=
  rt ← Console.Once.get_for_sure;
  time ← get_time rt;
  Console.Once.force_unlock;;
  mret (default NaiveDateTime_default
    (and_hms_nano_opt (default NaiveDate_default (from_ymd_opt (year time) (month time) (day time)))
       (hour time) (minute time) (second time) (nanosecond time))).

(** [sys_clock] of [interrupt/syscall/service.rs] *)
Definition sys_clock : M St Z := t ← now; mret (default 0 (timestamp_nanos_opt t)).

(** After [init] the clock can be read, again and again, exactly when the firmware's
    clock works; a date that does not exist becomes the calendar's first. *)
Theorem now_after_init rt :
  init rt None = Done ((), Some (Console.Once.mkMutex false rt)) ∧
  init rt (Some (Console.Once.mkMutex false rt)) = Done ((), Some (Console.Once.mkMutex false rt)) ∧
  now None = Panic ∧
  now (Some (Console.Once.mkMutex false rt)) =
    match firmware_time rt with
    | Err _ => Panic
    | Ok t =>
        let date := default NaiveDate_default (from_ymd_opt (year t) (month t) (day t)) in
        Done (default NaiveDateTime_default (and_hms_nano_opt date (hour t) (minute t) (second t) (nanosecond t)),
          Some (Console.Once.mkMutex false rt))
    end.
Proof.
  split_and!; [done..|]. unfold now, get_time, mbind, M_bind. simpl. by destruct (firmware_time rt).
Qed.

End Now.
End Clock.

(** ** [microdelay] *)

(** The time-stamp counter goes up from read to read. *)
Class Tsc (D : Type) := rdtsc : M D Z.
Class Tsc_Laws (D : Type) `{Tsc D} (counter : D → Z) : Prop :=
  rdtsc_advances d : ∃ d', rdtsc d = Done (counter d', d') ∧ counter d < counter d'.

Section Delay.
Context `{Profile} {D : Type} `{Tsc D}.

Definition CPU_FREQ : Z := 3000000000.

Fixpoint spin (fuel : nat) (end_ : Z) : M D () :=
  match fuel with
  | O => out_of_fuel
  | S fuel => t ← rdtsc; if t <? end_ then spin fuel end_ else mret ()
  end.

Definition microdelay (fuel : nat) (us : Z) : M D () :=
  start ← rdtsc;
  ticks ← word_op 64 (CPU_FREQ / 1000000 * us);
  end_ ← word_op 64 (start + ticks);
  spin fuel end_.

Context (counter : D → Z) `{!Tsc_Laws D counter}.

Lemma spin_ends fuel end_ d :
  end_ - counter d < Z.of_nat fuel → (0 < fuel)%nat →
  ∃ d', spin fuel end_ d = Done ((), d') ∧ end_ ≤ counter d' ∧ counter d < counter d'.
Proof.
  revert d. induction fuel as [|fuel IH]; intros d Hf H0'; [lia|]. cbn [spin].
  destruct (rdtsc_advances (counter := counter) d) as (d1 & E1 & H1). rewrite (bind_step _ _ _ _ _ E1).
  destruct (Z.ltb_spec (counter d1) end_); [|by exists d1].
  destruct (IH d1) as (d2 & E2 & ? & ?); [lia..|]. exists d2. split_and!; [done..|lia].
Qed.

(** [microdelay us] lasts, and returns, after at least 3000 ticks for every microsecond,
    unless the end is past the counter's 64 bits: then it wraps, and the delay is
    lost, or the kernel panics where overflow is checked. *)
Theorem microdelay_waits fuel us d :
  0 ≤ us → counter d + 3000 * us < Z.of_nat fuel → 0 ≤ counter d →
  ∃ start d1, rdtsc d = Done (start, d1) ∧
    (start + 3000 * us < 2 ^ 64 →
     ∃ d', microdelay fuel us d = Done ((), d') ∧ start + 3000 * us ≤ counter d') ∧
    (2 ^ 64 ≤ start + 3000 * us < 2 ^ 65 → 3000 * us < 2 ^ 64 → start < 2 ^ 64 →
     debug_assertions = true → microdelay fuel us d = Panic).
Proof.
  intros Hu Hf Hc. destruct (rdtsc_advances (counter := counter) d) as (d1 & E1 & H1).
  exists (counter d1), d1. split; [done|]. unfold microdelay. rewrite (bind_step _ _ _ _ _ E1).
  change (CPU_FREQ / 1000000) with 3000. split.
  - intros Hb. rewrite (bind_step _ _ _ _ _ (word_op_exact 64 (3000 * us) d1 ltac:(lia))).
    rewrite (bind_step _ _ _ _ _ (word_op_exact 64 (counter d1 + 3000 * us) d1 ltac:(lia))).
    destruct (spin_ends fuel (counter d1 + 3000 * us) d1) as (d' & E & ? & _); [lia..|]. eauto.
  - intros Hb Ht Hs Hd. rewrite (bind_step _ _ _ _ _ (word_op_exact 64 (3000 * us) d1 ltac:(lia))).
    apply bind_Panic. unfold word_op. by rewrite in_word_false, Hd by lia.
Qed.

End Delay.

(** ** Examples *)

Section HelpersWitnesses.

(** A kernel whose console is set up. *)
Definition warm_example : System table queue Console.chip Apic.lapic_dev Apic.ioapic_dev (list (option Segments.Descriptor)) :=
  mkSystem (Console.warm_world false false None) (Apic.mkMachine None Apic.lapic0 Apic.ioapic0)
    None None None false false None KernelExample.kernel_example.

Lemma test_prints_witness :
  ∃ s', Func.test 3 0 (mret ()) 250 warm_example = Done (50, s') ∧
    Console.sent (Console.uart (console s')) = as_bytes (Func.greeting (chars "unknown")) ++ as_bytes (Func.greeting (chars "unknown")).
Proof.
  destruct (Func.test_prints 3 0 (mret ()) Console.chip_enough (λ s, ex_intro _ s (conj eq_refl eq_refl))
    250 None warm_example) as (s' & E & _ & S & _).
  - done.
  - vm_compute. reflexivity.
  - exists s'. split; [exact E|]. rewrite S. vm_compute. reflexivity.
Defined.

(** A counter that goes up by 1000 a read. *)
#[local] Instance tsc_example : Tsc Z := λ d, Done (d + 1000, d + 1000).
#[local] Instance tsc_example_laws : Tsc_Laws Z (λ d, d).
Proof. intros d. exists (d + 1000). split; [done|lia]. Qed.

Lemma microdelay_waits_witness : ∃ d', microdelay (H := release) 3010 1 0 = Done ((), d') ∧ 1000 + 3000 ≤ d'.
Proof.
  destruct (microdelay_waits (H := release) (λ d, d) 3010 1 0) as (start & d1 & E & Hw & _); [lia..|].
  injection E as <- _. apply Hw. lia.
Defined.

End HelpersWitnesses.
