(* ===== verification/Effects.v ===== *)
(** What the steps of the kernel do to the memories of the processes.  A step has at
    most one [effect] on them, the operation of [Manager] at its heart; before and
    after it the kernel only saves and restores contexts, moves processes between its
    queues, and loads page tables ([calm], [quiet]).  The invariants of memory
    ([Spaces], [Isolation]) go through the steps by these cases. *)
From S2P Require Import Prelude Arch Pid Sync Frames Elf Stack Heap Vm Context Resource Data Process Manager.
From S2P Require Import UserHeap Syscall Scheduler RoundRobin Lifecycle Fork Dispatch Reachable.
From stdpp Require Import strings relations.
#[local] Open Scope Z_scope.

Section Effects.
Context `{Profile} `{X86_64} {PT Q : Type} `{Mapper PT} `{ArrayQueue Q}.
Context (PHYSICAL_OFFSET : option Z) (cpuid : nat) (selector : Z * Z).
#[local] Abbreviation St := (Kernel PT Q).
#[local] Abbreviation wf := (wf cpuid).
#[local] Abbreviation running := (running cpuid).

(** ** The memories of the processes *)

Definition vm_map (k : St) : gmap nat ProcessVm := omap (λ p, proc_vm (inner p)) (procs k).

(** With the number of children, which tells a fork where to look for a place for
    the stack. *)
Definition memory_of (p : Process) : option ProcessVm * nat := (proc_vm (inner p), length (children (inner p))).
Definition memories (k : St) : gmap nat (option ProcessVm * nat) := memory_of <$> procs k.

Lemma lookup_vm_map k loc : vm_map k !! loc = procs k !! loc ≫= λ p, proc_vm (inner p).
Proof. unfold vm_map. by rewrite lookup_omap. Qed.

Lemma vm_map_memories k loc : vm_map k !! loc = memories k !! loc ≫= fst.
Proof. unfold memories. rewrite lookup_vm_map, lookup_fmap. by destruct (procs k !! loc). Qed.

Lemma memories_vm_map k k' : memories k' = memories k → vm_map k' = vm_map k.
Proof. intros Hm. apply map_eq. intros loc. by rewrite !vm_map_memories, Hm. Qed.

(** ** Calm operations *)

Definition calm (k k' : St) : Prop :=
  memories k' = memories k ∧ processes k' = processes k ∧ running k' = running k ∧
  NEXT_PID k' = NEXT_PID k ∧ app_list k' = app_list k ∧ kmem k' = kmem k.

#[export] Instance calm_preorder : PreOrder calm.
Proof.
  split; [done|]. intros k1 k2 k3 (? & ? & ? & ? & ? & ?) (? & ? & ? & ? & ? & ?). split_and!; congruence.
Qed.

Lemma calm_set_inner k loc i p :
  procs k !! loc = Some p → proc_vm i = proc_vm (inner p) → children i = children (inner p) → calm k (set_inner loc i k).
Proof.
  intros Hp Hi Hc. unfold set_inner. rewrite Hp. split_and!; [|done..]. unfold memories. simpl.
  rewrite fmap_insert. apply insert_id. rewrite lookup_fmap, Hp. unfold memory_of. simpl. by rewrite Hi, Hc.
Qed.

Lemma calm_modify_inner loc f k u k' :
  (∀ i, proc_vm (f i) = proc_vm i ∧ children (f i) = children i) → modify_inner loc f k = Done (u, k') → calm k k'.
Proof. intros Hf (p & Hp & ->)%modify_inner_Done. eapply calm_set_inner; [done|apply Hf..]. Qed.

Lemma calm_save_current ctx k q k' : wf k → save_current cpuid ctx k = Done (q, k') → calm k k'.
Proof. intros Hwf (loc & p & _ & _ & Hp & ->)%save_current_Done; [|done]. by eapply calm_set_inner. Qed.

Lemma calm_wake_up q ret k u k' : wake_up q ret k = Done (u, k') → calm k k'.
Proof.
  intros Hw%wake_up_Done. destruct (processes k !! q) as [loc|]; [|by subst].
  destruct Hw as (p & Hp & ->). etrans; [|by eapply calm_set_inner; [exact Hp|..]]. done.
Qed.

Lemma calm_wake_all qs ret k u k' : wake_all qs ret k = Done (u, k') → calm k k'.
Proof.
  revert k. induction qs as [|q qs IH]; intros k Hw; simpl in Hw; [by inv_done|].
  apply bind_Done in Hw as (u' & k1 & Hw & Hs). etrans; [by eapply calm_wake_up|by eapply IH].
Qed.

Lemma calm_on_data {R} (m : M (DataStore Q) R) k r k' : on_data m k = Done (r, k') → calm k k'.
Proof. intros (_ & dt & _ & ->)%on_data_eq. done. Qed.

Lemma calm_sem_signal key ctx k ctx' k' : sem_signal cpuid key ctx k = Done (ctx', k') → calm k k'.
Proof.
  intros Hs. unfold sem_signal in Hs. apply bind_Done in Hs as (q & k1 & Hc & Hs).
  apply current_pid_Done in Hc as (-> & _ & _). apply bind_Done in Hs as (loc & k1 & Hc & Hs).
  apply current_Done in Hc as (-> & _). apply bind_Done in Hs as (p & k1 & Hp & Hs).
  apply read_proc_Done in Hp as [-> _]. apply bind_Done in Hs as (d & k1 & Hd & Hs).
  apply unwrap_Done in Hd as [_ <-]. apply bind_Done in Hs as (ret & k1 & Hd & Hs).
  etrans; [by eapply calm_on_data|].
  destruct ret as [| | |]; [by inv_done|by inv_done|by inv_done|].
  apply bind_Done in Hs as (u & k2 & Hw & Hs). apply ret_Done in Hs as [_ <-]. by eapply calm_wake_up.
Qed.

(** ** Quiet ones *)

(** Calm but for the choice of the next process. *)
Inductive rest (k k' : St) : Prop :=
  | rest_calm : calm k k' → rest k k'
  | rest_switch_next ctx r : wf k → switch_next cpuid ctx k = Done (r, k') → rest k k'.

Definition quiet : relation St := rtc rest.

(** ** Effects *)

(** Some are for processes other than the kernel's only; [user] says when they are
    possible.  System calls write to the addresses [B]. *)
Context (user : Prop) (B : Mem PT → Z → Prop).

Inductive effect (k : St) : St → Prop :=
  | effect_none : effect k k
  | effect_silent k' : user → silent PHYSICAL_OFFSET cpuid B k k' → effect k k'
  | effect_spawn l app nm par od q k' : app_list k = Some l → app ∈ l → NEXT_PID k + 1 < 2 ^ 16 →
      spawn_elf PHYSICAL_OFFSET selector (app_elf app) nm par od k = Done (q, k') → effect k k'
  | effect_fork k' : user → NEXT_PID k + 1 < 2 ^ 16 → manager_fork PHYSICAL_OFFSET cpuid k = Done ((), k') → effect k k'
  | effect_kill q ret k' : user → (running k ≠ Some KERNEL_PID → q ≠ KERNEL_PID) →
      manager_kill PHYSICAL_OFFSET q ret k = Done ((), k') → effect k k'
  | effect_fault a e r k' : canonical a → handle_page_fault PHYSICAL_OFFSET cpuid a e k = Done (r, k') → effect k k'.

(** One effect between quiet operations, the first of which keep the running process. *)
Definition does (k k' : St) : Prop :=
  ∃ k1 k2, calm k k1 ∧ wf k1 ∧ effect k1 k2 ∧ quiet k2 k'.

Lemma does_effect k k' : wf k → effect k k' → does k k'.
Proof. intros Hwf He. exists k, k'. by split_and!; [..|apply rtc_refl]. Qed.

Lemma does_quiet k k' : wf k → quiet k k' → does k k'.
Proof. intros Hwf Hq. exists k, k. by split_and!; [..|constructor|]. Qed.

Lemma quiet_calm k k' : calm k k' → quiet k k'.
Proof. intros Hc. by apply rtc_once, rest_calm. Qed.

(** Going on with another process. *)
Lemma quiet_next k1 ctx k r k' :
  calm k1 k → wf k → switch_next cpuid ctx k = Done (r, k') → quiet k1 k'.
Proof. intros Hc Hwf Hn. eapply rtc_l; [by apply rest_calm|]. by eapply rtc_once, rest_switch_next. Qed.

(** ** The operations of the manager *)

Lemma switch_quiet ctx k ctx' k' : wf k → switch cpuid ctx k = Done (ctx', k') → quiet k k'.
Proof.
  intros Hwf Hs. unfold switch in Hs. apply bind_Done in Hs as (q & k1 & Hsv & Hs).
  pose proof (calm_save_current _ _ _ _ Hwf Hsv) as Hst.
  apply save_current_wf in Hsv as (Hwf1 & _ & _ & _ & Hps & Hin); [|done].
  apply bind_Done in Hs as (u & k2 & Hp & Hs). unfold push_ready in Hp. apply modify_Done in Hp as <-.
  apply bind_Done in Hs as (r & k2 & Hn & Hs). apply ret_Done in Hs as [_ <-].
  eapply quiet_next, Hn; [done|]. apply wf_push; [done|by rewrite Hps].
Qed.

Lemma switch_does ctx k ctx' k' : wf k → switch cpuid ctx k = Done (ctx', k') → does k k'.
Proof. intros Hwf Hs. apply does_quiet; [done|by eapply switch_quiet]. Qed.

Lemma fork_does ctx k ctx' k' :
  user → wf k → NEXT_PID k + 1 < 2 ^ 16 → fork PHYSICAL_OFFSET cpuid ctx k = Done (ctx', k') → does k k'.
Proof.
  intros Hu Hwf Hn Hs. unfold fork in Hs. apply bind_Done in Hs as (q & k1 & Hsv & Hs).
  pose proof (calm_save_current _ _ _ _ Hwf Hsv) as Hst. pose proof Hst as (_ & _ & _ & Hn1 & _).
  apply save_current_wf in Hsv as (Hwf1 & _ & _ & _ & Hps & Hin); [|done].
  apply bind_Done in Hs as ([] & k2 & Hf & Hs). rewrite <- Hn1 in Hn.
  pose proof (manager_fork_wf _ _ _ _ _ Hwf1 Hn Hf) as (Hwf2 & _ & Hp2 & _).
  apply bind_Done in Hs as (u' & k3 & Hpu & Hs). unfold push_ready in Hpu. apply modify_Done in Hpu as <-.
  apply bind_Done in Hs as (r & k3 & Hsn & Hs). apply ret_Done in Hs as [_ <-].
  exists k1, k2. split_and!; [done..|by apply effect_fork|]. eapply quiet_next, Hsn; [done|].
  apply wf_push; [done|apply Hp2; by rewrite Hps].
Qed.

Lemma kill_next_does q ret ctx k u k1 r k' :
  user → wf k → (running k ≠ Some KERNEL_PID → q ≠ KERNEL_PID) → manager_kill PHYSICAL_OFFSET q ret k = Done (u, k1) →
  switch_next cpuid ctx k1 = Done (r, k') → does k k'.
Proof.
  intros Hu Hwf Hq Hk Hn. destruct u. exists k, k1. split_and!; [done..|by eapply effect_kill|].
  eapply quiet_next, Hn; [done|]. by apply (manager_kill_wf _ cpuid) in Hk as [? _].
Qed.

Lemma process_exit_does ret ctx k ctx' k' :
  user → wf k → process_exit PHYSICAL_OFFSET cpuid ret ctx k = Done (ctx', k') → does k k'.
Proof.
  intros Hu Hwf Hs. unfold process_exit, kill_self in Hs. apply bind_Done in Hs as (u & k1 & Hk & Hs).
  apply bind_Done in Hk as (q & k2 & Hc & Hk). apply current_pid_Done in Hc as (-> & Hc & _).
  apply bind_Done in Hs as (r & k2 & Hn & Hs). apply ret_Done in Hs as [_ <-].
  eapply kill_next_does; [done..| |done|done]. congruence.
Qed.

Lemma kill_does q ctx k ctx' k' :
  user → wf k → q ≠ KERNEL_PID → kill PHYSICAL_OFFSET cpuid q ctx k = Done (ctx', k') → does k k'.
Proof.
  intros Hu Hwf Hne Hs. unfold kill in Hs. apply bind_Done in Hs as (c & k1 & Hc & Hs).
  apply current_pid_Done in Hc as (-> & Hc & _). destruct (Z.eqb_spec q c) as [->|].
  - unfold kill_self in Hs. apply bind_Done in Hs as (u & k1 & Hk & Hs).
    apply bind_Done in Hk as (q' & k2 & Hq & Hk). apply current_pid_Done in Hq as (-> & Hq & _).
    apply bind_Done in Hs as (r & k2 & Hn & Hs). apply ret_Done in Hs as [_ <-].
    eapply kill_next_does; [done..| |done|done]. congruence.
  - apply bind_Done in Hs as ([] & k1 & Hk & Hs). apply ret_Done in Hs as [_ <-].
    apply does_effect; [done|]. by eapply effect_kill.
Qed.

(** Saving, blocking and going on with another process. *)
Lemma block_quiet k k1 q loc p ctx r k' :
  wf k → save_current cpuid ctx k = Done (q, k1) →
  processes k1 !! q = Some loc → procs k1 !! loc = Some p →
  switch_next cpuid ctx (set_inner loc (Inner.block (inner p)) k1) = Done (r, k') → quiet k k'.
Proof.
  intros Hwf Hsv Hq Hp Hn. pose proof (saved_block cpuid _ _ _ _ Hwf Hsv) as (l & p' & _ & Hl & Hp' & Hwfb & _).
  assert (l = loc) as -> by congruence. assert (p' = p) as -> by congruence.
  eapply quiet_next, Hn; [|exact Hwfb]. etrans; [by eapply calm_save_current|by eapply calm_set_inner].
Qed.

Lemma wait_pid_does q ctx k ctx' k' : wf k → wait_pid cpuid q ctx k = Done (ctx', k') → does k k'.
Proof.
  intros Hwf Hs. unfold wait_pid in Hs. apply bind_Done in Hs as (o & k1 & Hw & Hs).
  apply manager_wait_pid_Done in Hw. destruct (lookup_proc k q ≫= _) as [ret|].
  { destruct Hw as [-> ->]. apply does_effect; [done|]. inv_done. constructor. }
  destruct Hw as (-> & cur & Hcur & ->).
  assert (Hwf1 : wf (add_waiter q cur k)) by (by eapply (sched_eq_wf cpuid k)).
  apply bind_Done in Hs as (c & k2 & Hsv & Hs).
  pose proof (save_current_wf _ _ _ _ _ Hwf1 Hsv) as (_ & Hr2 & _).
  apply bind_Done in Hs as (loc & k3 & Hc & Hs). apply current_Done in Hc as (-> & c' & Hr' & Hloc).
  assert (c' = c) as -> by congruence.
  apply bind_Done in Hs as (u & k3 & Hm & Hs). apply modify_inner_Done in Hm as (p & Hp & ->).
  apply bind_Done in Hs as (r & k3 & Hn & Hs). apply ret_Done in Hs as [_ <-].
  apply does_quiet; [done|]. etrans; [by apply (quiet_calm k (add_waiter q cur k))|].
  eapply block_quiet; [exact Hwf1|exact Hsv|exact Hloc|exact Hp|exact Hn].
Qed.

Lemma sem_wait_does key ctx k ctx' k' : wf k → sem_wait cpuid key ctx k = Done (ctx', k') → does k k'.
Proof.
  intros Hwf Hs. apply does_quiet; [done|]. unfold sem_wait in Hs. apply bind_Done in Hs as (q & k1 & Hc & Hs).
  apply current_pid_Done in Hc as (-> & _ & _). apply bind_Done in Hs as (loc & k1 & Hc & Hs).
  apply current_Done in Hc as (-> & _). apply bind_Done in Hs as (p & k1 & Hp & Hs).
  apply read_proc_Done in Hp as [-> _]. apply bind_Done in Hs as (d & k1 & Hd & Hs).
  apply unwrap_Done in Hd as [_ <-]. apply bind_Done in Hs as (ret & k1 & Hd & Hs).
  etrans; [by eapply quiet_calm, calm_on_data|]. apply on_data_eq in Hd as [Hse _].
  apply (sched_eq_wf _ _ _ Hse) in Hwf.
  destruct ret as [| | |]; [by inv_done; apply rtc_refl|by inv_done; apply rtc_refl| |by inv_done].
  apply bind_Done in Hs as (c & k2 & Hsv & Hs).
  pose proof (saved_block cpuid _ _ _ _ Hwf Hsv) as (l & p' & _ & Hl & Hp' & _).
  apply bind_Done in Hs as (u & k3 & Hb & Hs). unfold manager_block, get_proc in Hb.
  apply bind_Done in Hb as (o & k4 & Ho & Hb). apply gets_Done in Ho as [<- <-]. rewrite Hl in Hb.
  apply modify_inner_Done in Hb as (p2 & Hp2 & ->).
  apply bind_Done in Hs as (r & k3 & Hn & Hs). apply ret_Done in Hs as [_ <-].
  eapply block_quiet; [exact Hwf|exact Hsv|exact Hl|exact Hp2|exact Hn].
Qed.

Lemma spawn_does nm k r k' :
  wf k → NEXT_PID k + 1 < 2 ^ 16 → spawn PHYSICAL_OFFSET cpuid selector nm k = Done (r, k') → does k k'.
Proof.
  intros Hwf Hn Hs. apply does_effect; [done|]. unfold spawn in Hs. apply bind_Done in Hs as (l & k1 & Hl & Hs).
  apply gets_Done in Hl as [<- <-]. destruct (app_list k ≫= _) as [app|] eqn:Ha; [|inv_done; constructor].
  apply bind_Some in Ha as (l & Hl & Ha).
  assert (Hin : app ∈ l).
  { apply head_Some_elem_of, list_elem_of_filter in Ha. by destruct Ha. }
  unfold elf_spawn in Hs. apply bind_Done in Hs as (loc & k1 & Hc & Hs). apply current_Done in Hc as (-> & _).
  apply bind_Done in Hs as (q & k1 & Hq & Hs). inv_done. by eapply effect_spawn.
Qed.

End Effects.

(** ** System calls and the other steps *)

Section Calls.
Context `{Profile} `{X86_64} {PT Q UA : Type} `{Mapper PT} `{ArrayQueue Q} `{UserAllocator UA}.
Context (PHYSICAL_OFFSET : option Z) (cpuid : nat) (selector : Z * Z) (clock_nanos : Z).
Context (Layout_of : list Z → Z * Z).
#[local] Abbreviation St := (Kernel PT Q * UA)%type.
#[local] Abbreviation wf := (wf (PT := PT) (Q := Q) cpuid).
#[local] Abbreviation does := (does (PT := PT) (Q := Q) PHYSICAL_OFFSET cpuid selector).
#[local] Abbreviation user s := (running cpuid s ≠ Some KERNEL_PID).

Lemma calm_receive b (s : St) u s' : receive b s = Done (u, s') → calm cpuid s.1 s'.1.
Proof.
  intros Hs. unfold receive in Hs. destruct b as [b|]; [|by apply ret_Done in Hs as [_ <-]].
  apply on_kernel_Done in Hs as [Hs _]. by eapply calm_on_data.
Qed.

Lemma dispatcher_does B ctx (s : St) ctx' (s' : St) :
  (∀ m a, written PHYSICAL_OFFSET ctx m a → B m a) →
  wf s.1 → pids_left s.1 → user s.1 →
  dispatcher PHYSICAL_OFFSET cpuid selector clock_nanos Layout_of ctx s = Done (ctx', s') → does (user s.1) B s.1 s'.1.
Proof.
  intros HB Hwf Hn Hr Hd. apply dispatcher_Done in Hd as [Hs _|nm r v Hs _|Hs|ret Hs|q Hs|q Hq Hs|key Hs|key Hs].
  - apply does_effect; [done|apply effect_silent; [done|by eapply silent_mono]].
  - by eapply spawn_does.
  - by eapply fork_does.
  - by eapply process_exit_does.
  - by eapply wait_pid_does.
  - by eapply kill_does.
  - by eapply sem_wait_does.
  - apply does_quiet, quiet_calm; [done|by eapply calm_sem_signal].
Qed.

(** A byte that a user program stores. *)
Lemma store_does B va b (s s' : St) :
  (∀ m a, phys_in PHYSICAL_OFFSET m va = Some a → B m a) → wf s.1 → user s.1 →
  write_byte PHYSICAL_OFFSET va b s = Done ((), s') → does (user s.1) B s.1 s'.1.
Proof. intros HB Hwf Hr Hs. apply does_effect; [done|]. apply effect_silent; [done|]. by eapply silent_write_byte. Qed.

Lemma step_does s s' : step PHYSICAL_OFFSET cpuid selector clock_nanos Layout_of s s' → wf s.1 → does (user s.1) (λ _ _, True) s.1 s'.1.
Proof.
  destruct 1 as [ctx ctx' s s' Hs|ctx ctx' s s' Hr Hn Hs|b s s' Hs|a e s s' Ha Hs|nm r s s' Hn Hs|va b s s' Hr Hs]; intros Hwf.
  - apply on_kernel_Done in Hs as [Hs _]. by eapply switch_does.
  - by eapply dispatcher_does.
  - apply does_quiet, quiet_calm; [done|by eapply calm_receive].
  - apply page_fault_handler_Done in Hs. apply does_effect; [done|by eapply effect_fault].
  - apply on_kernel_Done in Hs as [Hs _]. by eapply spawn_does.
  - by eapply store_does.
Qed.

End Calls.
