(* ===== verification/Spaces.v ===== *)
(** The address spaces of the processes, as the whole kernel keeps them: every
    process that has not exited has its page table, whose reference count is the
    number of such processes on it, and its heap; and CR3 holds the page table of
    the running process. *)
From S2P Require Import Prelude Arch Pid Sync Frames Elf Stack Heap Vm Context Resource Data Process Manager.
From S2P Require Import UserHeap Syscall Scheduler KernelExample RoundRobin Lifecycle Fork Dispatch Reachable Effects.
From stdpp Require Import strings relations.
#[local] Open Scope Z_scope.

Section Spaces.
Context `{Profile} `{X86_64} {PT Q : Type} `{Mapper PT} `{ArrayQueue Q}.
Context (PHYSICAL_OFFSET : option Z) (cpuid : nat) (selector : Z * Z).
#[local] Abbreviation St := (Kernel PT Q).
#[local] Abbreviation wf := (wf cpuid).
#[local] Abbreviation running := (running cpuid).

(** ** The process memories of a kernel *)

Definition vms (k : St) : list ProcessVm := (map_to_list (vm_map k)).*2.

(** The page table the running process should have in CR3. *)
Definition loaded (k : St) : Prop :=
  ∀ q loc v reg n, running k = Some q → processes k !! q = Some loc → vm_map k !! loc = Some v →
    arcs (kmem k) !! page_table v = Some (reg, n) → cr3 (kmem k) = reg.

Definition spaces (k : St) : Prop := pool_wf (vms k, kmem k) ∧ loaded k.

(** The page table of a process is counted. *)
Lemma spaces_arc k loc v :
  spaces k → vm_map k !! loc = Some v → ∃ reg n, arcs (kmem k) !! page_table v = Some (reg, n).
Proof.
  intros [[Ha _] _] Hv. specialize (Ha (page_table v)). simpl in Ha.
  destruct (arcs (kmem k) !! page_table v) as [[reg n]|]; [by exists reg, n|]. destruct Ha.
  apply list_elem_of_fmap_2. unfold vms. apply list_elem_of_fmap. exists (loc, v).
  split; [done|]. by apply elem_of_map_to_list.
Qed.

Lemma pool_wf_perm vs vs' (m : Mem PT) : vs ≡ₚ vs' → pool_wf (vs, m) → pool_wf (vs', m).
Proof.
  intros Hp [Ha He]. split; simpl in *; [|intros v; rewrite <- Hp; apply He].
  intros a. specialize (Ha a). destruct (arcs m !! a) as [[w n]|].
  - by rewrite <- Hp.
  - by rewrite <- Hp.
Qed.

(** Replacing what the process at [loc] has. *)
Lemma vms_replace (m m' : gmap nat ProcessVm) loc :
  delete loc m' = delete loc m →
  ∃ rest, (map_to_list m).*2 ≡ₚ option_list (m !! loc) ++ rest ∧
          (map_to_list m').*2 ≡ₚ option_list (m' !! loc) ++ rest.
Proof.
  intros Hd. exists (map_to_list (delete loc m)).*2.
  assert (Hx : ∀ m : gmap nat ProcessVm, (map_to_list m).*2 ≡ₚ option_list (m !! loc) ++ (map_to_list (delete loc m)).*2).
  { intros m0. destruct (m0 !! loc) as [v|] eqn:E; simpl; [|by rewrite delete_id].
    rewrite <- (map_to_list_delete m0 loc v E). done. }
  split; [apply Hx|]. rewrite <- Hd. apply Hx.
Qed.

Lemma vm_map_insert (ps : gmap nat Process) loc p :
  omap (λ p, proc_vm (inner p)) (<[loc := p]> ps) =
  match proc_vm (inner p) with
  | Some v => <[loc := v]> (omap (λ p, proc_vm (inner p)) ps)
  | None => delete loc (omap (λ p, proc_vm (inner p)) ps)
  end.
Proof.
  destruct (proc_vm (inner p)) as [v|] eqn:E.
  - by rewrite (omap_insert_Some _ _ _ _ v).
  - by rewrite omap_insert_None.
Qed.

(** ** Steps that leave the memories alone *)

Definition still (k k' : St) : Prop :=
  vm_map k' = vm_map k ∧ processes k' = processes k ∧ running k' = running k ∧ same_refs (kmem k) (kmem k').

#[export] Instance still_preorder : PreOrder still.
Proof.
  split; [done|]. intros k1 k2 k3 (? & ? & ? & ?) (? & ? & ? & ?). split_and!; [congruence..|by etrans].
Qed.

Lemma still_spaces k k' : still k k' → spaces k → spaces k'.
Proof.
  intros (Hv & Hp & Hr & Hs) [[Ha He] Hl]. unfold spaces, vms, loaded. rewrite Hv, Hp, Hr. split; [split; simpl|].
  - by eapply same_refs_arc_wf.
  - intros v Hin. eapply same_refs_ends; [done|]. by apply He.
  - destruct Hs as (-> & _ & ->). exact Hl.
Qed.

Lemma still_set_inner k loc i p :
  procs k !! loc = Some p → proc_vm i = proc_vm (inner p) → still k (set_inner loc i k).
Proof.
  intros Hp Hi. unfold set_inner. rewrite Hp. split_and!; [|done..]. unfold vm_map. simpl.
  rewrite vm_map_insert. simpl. rewrite Hi. destruct (proc_vm (inner p)) as [v|] eqn:E.
  - apply insert_id. rewrite lookup_omap, Hp. simpl. done.
  - apply delete_id. rewrite lookup_omap, Hp. simpl. done.
Qed.

Lemma calm_still k k' : calm cpuid k k' → still k k'.
Proof. intros (Hm%memories_vm_map & ? & ? & _ & _ & Hk). split_and!; [done..|by rewrite Hk]. Qed.

Lemma silent_still B k k' : silent PHYSICAL_OFFSET cpuid B k k' → still k k'.
Proof. intros Hs. pose proof (silent_refs _ _ _ _ _ Hs). destruct Hs as (m & d & -> & _). by split_and!. Qed.

(** ** Steps that change them *)

(** [switch_next] loads the page table of the process it starts. *)
Lemma spaces_switch_next ctx k r k' : wf k → spaces k → switch_next cpuid ctx k = Done (r, k') → spaces k'.
Proof.
  intros Hwf Hsp (cur & _ & Hs)%switch_next_Done; [|done].
  destruct (first_ready k (ready_queue k)) as [[next rest]|].
  - destruct (decide _) as [->|Hne]; [by destruct Hs as [_ ->]; eapply still_spaces|].
    destruct Hs as (loc & p & v & reg & n & Hq & Hp & Hpid & Hv & Ha & _ & ->).
    assert (Hvm : vm_map (started cpuid k next loc p v reg rest) = vm_map k).
    { unfold vm_map, started. simpl. rewrite vm_map_insert. simpl. rewrite Hv. apply insert_id.
      rewrite lookup_omap, Hp. simpl. done. }
    destruct Hsp as [[Hwa He] _]. split.
    + unfold vms. rewrite Hvm. by split.
    + intros q l v' reg' n' Hr Hl Hv' Ha'. rewrite running_started in Hr by done. injection Hr as <-.
      rewrite Hvm, lookup_vm_map in Hv'. simpl in Hl, Ha' |- *. assert (l = loc) as -> by congruence.
      rewrite Hp in Hv'. simpl in Hv'. congruence.
  - destruct Hs as [_ ->]. by eapply still_spaces.
Qed.

(** An operation on the machine and the memory of the process at [loc], after
    which it has [o]; the page tables that stay in use stay what they are. *)
Lemma spaces_replace loc k k' :
  processes k' = processes k → running k' = running k → delete loc (vm_map k') = delete loc (vm_map k) →
  cr3 (kmem k') = cr3 (kmem k) →
  (∀ a reg n, arcs (kmem k') !! a = Some (reg, n) → ∃ n', arcs (kmem k) !! a = Some (reg, n')) →
  (∀ v, vm_map k' !! loc = Some v → ∃ v', vm_map k !! loc = Some v' ∧ page_table v = page_table v') →
  (∀ rest, pool_wf (option_list (vm_map k !! loc) ++ rest, kmem k) →
     pool_wf (option_list (vm_map k' !! loc) ++ rest, kmem k')) →
  spaces k → spaces k'.
Proof.
  intros Hp Hr Hd Hc Ha Hpt Hw [Hpool Hl].
  destruct (vms_replace (vm_map k) (vm_map k') loc Hd) as (rest & H1' & H2'). split.
  - eapply pool_wf_perm; [symmetry; exact H2'|]. apply Hw. by eapply pool_wf_perm.
  - intros q l v reg n. rewrite Hr, Hp, Hc. intros Hq Hloc Hv Hav.
    destruct (Ha _ _ _ Hav) as [n' Ha']. destruct (decide (l = loc)) as [->|Hne].
    + destruct (Hpt v Hv) as (v' & Hv' & Heq). rewrite Heq in Ha'. by eapply Hl.
    + assert (vm_map k !! l = Some v).
      { rewrite <- (lookup_delete_ne (vm_map k) loc l), <- Hd by done. by rewrite lookup_delete_ne. }
      by eapply Hl.
Qed.

Lemma drop_arcs_inv v (m : Mem PT) u m' a reg n :
  Vm.drop PHYSICAL_OFFSET v m = Done (u, m') → arcs m' !! a = Some (reg, n) →
  cr3 m' = cr3 m ∧ ∃ n', arcs m !! a = Some (reg, n').
Proof.
  intros Hd Ha. unfold Vm.drop in Hd. apply bind_Done in Hd as (r & m1 & Hc & Hd).
  destruct (clean_up_refs _ _ _ _ _ Hc) as [(Hr & _ & Hc3) _].
  unfold Arc_drop, mbind, M_bind, get, unwrap in Hd. simpl in Hd. rewrite Hr in Hd.
  destruct (arcs m !! page_table r.2) as [[w k]|] eqn:E; [|done]. simpl in Hd.
  destruct (decide (page_table r.2 = a)) as [Heq|Hne].
  - subst a. destruct k as [|[|k]]; simpl in Hd; injection Hd as _ <-; simpl in Ha |- *;
      rewrite ?lookup_insert_eq, ?lookup_delete_eq in Ha; try done. split; [done|]. injection Ha as -> _. eauto.
  - destruct k as [|[|k]]; simpl in Hd; injection Hd as _ <-; simpl in Ha |- *;
      rewrite ?lookup_insert_ne, ?lookup_delete_ne in Ha by done; rewrite ?Hr in Ha; eauto.
Qed.

Lemma drop_cr3 v (m : Mem PT) u m' : Vm.drop PHYSICAL_OFFSET v m = Done (u, m') → cr3 m' = cr3 m.
Proof.
  intros Hd. unfold Vm.drop in Hd. apply bind_Done in Hd as (r & m1 & Hc & Hd).
  destruct (clean_up_refs _ _ _ _ _ Hc) as [(_ & _ & Hc3) _]. apply (UserHeap.Arc_drop_machine) in Hd as [_ ->]. done.
Qed.

Lemma spaces_proc_kill loc ret k u k' :
  spaces k → Proc.kill PHYSICAL_OFFSET loc ret k = Done (u, k') → spaces k'.
Proof.
  intros Hsp (p & t & Hp & -> & Hd)%kill_Done. set (i := mkInner _ _ _ _ _ _ _ _ _).
  destruct (proc_vm (inner p)) as [v|] eqn:E; cycle 1.
  { subst t. eapply still_spaces; [|exact Hsp]. etrans; [|by eapply still_set_inner; [exact Hp|rewrite E]].
    by destruct k. }
  assert (Hk : set_inner loc i (set_kmem t k) = set_procs (<[loc := mkProcess (Process.pid p) i]> (procs k)) (set_kmem t k))
    by (unfold set_inner; simpl; by rewrite Hp).
  rewrite Hk. assert (Hv : vm_map k !! loc = Some v) by (by rewrite lookup_vm_map, Hp).
  assert (Hv' : vm_map (set_procs (<[loc := mkProcess (Process.pid p) i]> (procs k)) (set_kmem t k)) = delete loc (vm_map k)).
  { unfold vm_map. simpl. by rewrite vm_map_insert. }
  eapply (spaces_replace loc k); try done.
  - rewrite Hv'. by rewrite delete_delete_eq.
  - by eapply drop_cr3.
  - intros a reg n Ha. by eapply drop_arcs_inv.
  - intros w. rewrite Hv', lookup_delete_eq. done.
  - intros rest. rewrite Hv', Hv, lookup_delete_eq. simpl. intros Hw.
    apply (pool_step_wf PHYSICAL_OFFSET ([] ++ v :: rest, kmem k) ([] ++ rest, t)); [by eapply pool_drop|done].
Qed.

Lemma spaces_manager_kill q ret k u k' :
  spaces k → manager_kill PHYSICAL_OFFSET q ret k = Done (u, k') → spaces k'.
Proof.
  intros Hsp Hk. unfold manager_kill, get_proc in Hk. apply bind_Done in Hk as (o & k1 & Hg & Hk).
  apply gets_Done in Hg as [<- <-]. destruct (processes k !! q) as [loc|]; [|by inv_done].
  apply bind_Done in Hk as (u' & k1 & Hd & Hk). apply (spaces_proc_kill _ _ _ _ _ Hsp) in Hd.
  unfold take_waiters in Hk. apply bind_Done in Hk as (w & k2 & Hw & Hk). injection Hw as <- <-.
  assert (spaces (set_waits (delete q (Process.wait_queue k1)) k1)) by (by eapply still_spaces).
  destruct (Process.wait_queue k1 !! q) as [pids|]; [|by inv_done].
  eapply still_spaces; [by eapply calm_still, calm_wake_all|done].
Qed.

(** A new process, with a memory of its own. *)
Lemma spaces_add loc p v k m dt :
  wf k → spaces k → procs k !! loc = None → Process.pid p = NEXT_PID k → proc_vm (inner p) = Some v →
  pool_wf (v :: vms k, m) → cr3 m = cr3 (kmem k) →
  (∀ a reg n, is_Some (arcs (kmem k) !! a) → arcs m !! a = Some (reg, n) → ∃ n', arcs (kmem k) !! a = Some (reg, n')) →
  spaces (add_process loc p (set_data dt (set_kmem m k))).
Proof.
  intros Hwf Hsp Hf Hpid Hv Hw Hc Ha. pose proof Hsp as [_ Hl].
  assert (Hvm : vm_map (add_process loc p (set_data dt (set_kmem m k))) = <[loc := v]> (vm_map k)).
  { unfold vm_map. simpl. by rewrite vm_map_insert, Hv. }
  assert (Hn : vm_map k !! loc = None) by (by rewrite lookup_vm_map, Hf). split.
  - unfold vms. rewrite Hvm. eapply pool_wf_perm; [|exact Hw]. rewrite map_to_list_insert by done. done.
  - intros q l w reg n Hr Hq Hw' Ha'. rewrite Hvm in Hw'. simpl in Hq, Ha' |- *.
    change (running k = Some q) in Hr. rewrite Hc. destruct (wf_running _ _ Hwf) as (c & Hc' & [lc Hlc]).
    assert (c = q) as -> by congruence. destruct (wf_pids _ _ Hwf q) as [_ Hlt]; [by rewrite Hlc|].
    rewrite lookup_insert_ne in Hq by lia. destruct (wf_table _ _ Hwf q l Hq) as (pq & Hpq & _).
    rewrite lookup_insert_ne in Hw' by congruence.
    assert (Hin : is_Some (arcs (kmem k) !! page_table w)).
    { destruct (spaces_arc _ _ _ Hsp Hw') as (r & c & ->). done. }
    destruct (Ha _ _ _ Hin Ha') as [n' Ha'']. exact (Hl q l w reg n' Hr Hq Hw' Ha'').
Qed.

Lemma vms_elem k loc p v : procs k !! loc = Some p → proc_vm (inner p) = Some v → v ∈ vms k.
Proof.
  intros Hp Hv. unfold vms. apply list_elem_of_fmap. exists (loc, v). split; [done|].
  apply elem_of_map_to_list. by rewrite lookup_vm_map, Hp.
Qed.

Lemma Arc_new_arcs v (m : Mem PT) a m' : Arc_new v m = Done (a, m') →
  arcs m' = <[a := (v, 1%nat)]> (arcs m) ∧ arcs m !! a = None ∧ cr3 m' = cr3 m.
Proof. intros Hn. injection Hn as <- <-. split_and!; try done. apply not_elem_of_dom, is_fresh. Qed.

Lemma spaces_spawn_elf elf nm par od k q k' :
  wf k → NEXT_PID k + 1 < 2 ^ 16 → spaces k →
  spawn_elf PHYSICAL_OFFSET selector elf nm par od k = Done (q, k') → spaces k'.
Proof.
  intros Hwf Hn Hsp Hs. pose proof (spawn_elf_Done _ cpuid _ _ _ _ _ _ _ _ Hwf Hn Hs)
    as (i & m & dt & -> & _ & _ & _ & _ & _ & _ & -> & (loc & kp & v0 & a & m1 & v1 & m2 & v & Hkp & Hv0 & Hcl & Hnew & Hld & Hv & _) & _).
  pose proof (vms_elem _ _ _ _ Hkp Hv0) as Hin.
  assert (Hw2 : pool_wf (v1 :: vms k, m2)).
  { apply (pool_step_wf PHYSICAL_OFFSET (vms k, kmem k)); [by eapply pool_spawn|apply Hsp]. }
  assert (Hw : pool_wf (v :: vms k, m)).
  { apply (pool_step_wf PHYSICAL_OFFSET ([] ++ v1 :: vms k, m2) ([] ++ v :: vms k, m)); [by eapply pool_elf|done]. }
  apply clone_level_4_Done in Hcl as (m0 & w & (Ha0 & _ & Hc0) & (Ha1 & Hf1 & Hc1)%Arc_new_arcs).
  apply Vm_new_refs in Hnew as ((Ha2 & _ & Hc2) & _). apply load_elf_refs in Hld as ((Ha3 & _ & Hc3) & _).
  apply (spaces_add _ _ v); try done.
  - by apply not_elem_of_dom, is_fresh.
  - congruence.
  - intros b reg n [x Hb] Hx. rewrite Ha3, Ha2, Ha1 in Hx. rewrite Ha0 in Hf1, Hx.
    rewrite lookup_insert_ne in Hx by congruence. eauto.
Qed.

Lemma spaces_manager_fork k u k' :
  wf k → NEXT_PID k + 1 < 2 ^ 16 → spaces k → manager_fork PHYSICAL_OFFSET cpuid k = Done (u, k') → spaces k'.
Proof.
  intros Hwf Hn Hsp Hf. apply manager_fork_Done in Hf as (q & loc & p & ci & m & Hr & Hq & Hp & Hi & ->); [|done..].
  set (child := fresh (dom (procs k))). destruct (wf_table _ _ Hwf q loc Hq) as (p' & Hp' & _ & Hiw).
  assert (p' = p) as -> by congruence.
  apply inner_fork_Done in Hi as (_ & _ & _ & _ & _ & _ & v & cv & off & sp & m1 & Hv & Hcv & Hf & Hoff & _); [|done].
  apply on_machine_refs in Hoff as (Ha & Hd & Hc).
  pose proof (vms_elem _ _ _ _ Hp Hv) as Hin.
  assert (Hw1 : pool_wf (cv :: vms k, m1)).
  { apply (pool_step_wf PHYSICAL_OFFSET (vms k, kmem k)); [by eapply pool_fork|apply Hsp]. }
  set (fp := forked_parent _ _ _).
  assert (Hne : loc ≠ child).
  { intros ->. apply elem_of_dom_2 in Hp. by apply is_fresh in Hp. }
  assert (Hk : add_process child (mkProcess (NEXT_PID k) ci) (set_inner loc fp (set_kmem m k)) =
    set_inner loc fp (add_process child (mkProcess (NEXT_PID k) ci) (set_data (data k) (set_kmem m k)))).
  { unfold set_inner, add_process. simpl. rewrite lookup_insert_ne, Hp by done. simpl.
    unfold set_procs. simpl. by rewrite insert_insert_ne by done. }
  rewrite Hk. eapply still_spaces; [apply (still_set_inner _ loc _ p); [|done]; simpl; by rewrite lookup_insert_ne|].
  destruct Hsp as [[Hwa He] Hl]. destruct (fork_arcs _ _ _ _ _ _ _ Hwa Hf) as (w & n & Hw & Ha1 & Hc1).
  apply (spaces_add _ _ cv); try done.
  - by apply not_elem_of_dom, is_fresh.
  - split; simpl; [eapply arc_wf_eq; [exact Ha|]; apply Hw1|]. intros x Hx. apply elem_of_dom, Hd, elem_of_dom. by apply Hw1.
  - by rewrite Hc, Hc1.
  - intros b reg n' _ Hx. rewrite Ha, Ha1 in Hx.
    destruct (decide (b = page_table v)) as [->|Hb].
    + rewrite lookup_insert_eq in Hx. injection Hx as <- _. eauto.
    + rewrite lookup_insert_ne in Hx by done. eauto.
Qed.

(** The same page table and heap, another layout. *)
Lemma spaces_set_vm loc p v v' k m :
  spaces k → procs k !! loc = Some p → proc_vm (inner p) = Some v → same_refs (kmem k) m →
  page_table v' = page_table v → heap v' = heap v →
  spaces (set_inner loc (Inner.set_vm (Some v') (inner p)) (set_kmem m k)).
Proof.
  intros Hsp Hp Hv Hs Hpt Hh. unfold set_inner. simpl. rewrite Hp. set (k' := set_procs _ _).
  assert (Hvm : vm_map k' = <[loc := v']> (vm_map k)) by (unfold vm_map; simpl; by rewrite vm_map_insert).
  assert (Hl : vm_map k !! loc = Some v) by (by rewrite lookup_vm_map, Hp).
  apply (spaces_replace loc k); try done.
  - rewrite Hvm. by rewrite delete_insert_eq.
  - apply Hs.
  - destruct Hs as (Ha & _). change (arcs (kmem k')) with (arcs m). rewrite Ha. eauto.
  - intros w. rewrite Hvm, lookup_insert_eq. intros [= <-]. eauto.
  - intros rest. rewrite Hvm, Hl, lookup_insert_eq. simpl. intros Hw.
    by apply (pool_wf_update [] v rest v' (kmem k) m).
Qed.

Lemma spaces_page_fault a e k r k' :
  wf k → spaces k → handle_page_fault PHYSICAL_OFFSET cpuid a e k = Done (r, k') → spaces k'.
Proof.
  intros Hwf Hsp Hs. unfold handle_page_fault, manager_handle_page_fault in Hs.
  destruct (negb _); [|by inv_done].
  apply bind_Done in Hs as (loc & k1 & Hc & Hs). apply current_Done in Hc as (-> & q & Hr & Hq).
  apply bind_Done in Hs as (p & k1 & Hp & Hs). apply read_proc_Done in Hp as [-> Hp].
  apply bind_Done in Hs as (cur & k1 & Hg & Hs). apply gets_Done in Hg as [_ <-].
  apply bind_Done in Hs as ([b i] & k1 & Hf & Hs). apply on_mem_eq in Hf as (_ & t & Hf & ->).
  apply bind_Done in Hs as (u & k1 & Hw & Hs). unfold write_proc in Hw. apply modify_Done in Hw as <-.
  apply ret_Done in Hs as [_ <-]. unfold Inner.handle_page_fault in Hf.
  apply bind_Done in Hf as (v & m1 & Hv & Hf). apply unwrap_Done in Hv as [Hv <-].
  apply bind_Done in Hf as ([b' v'] & m2 & Hf & Hi).
  apply ret_Done in Hi as [Hi <-]. injection Hi as _ <-.
  apply handle_page_fault_refs in Hf as (Hs & Hpt & Hh).
  pose proof (spaces_set_vm loc p v v' k m2 Hsp Hp Hv Hs Hpt Hh) as Hx.
  unfold set_inner in Hx. simpl in Hx. by rewrite Hp in Hx.
Qed.

(** ** The operations *)

Lemma effect_spaces user B k k' : wf k → spaces k → effect PHYSICAL_OFFSET cpuid selector user B k k' → spaces k'.
Proof.
  intros Hwf Hsp [|k1 _ Hs|? ? ? ? ? ? ? _ _ ? ?|k1 _ ? ?|? ? k1 _ _ ?|].
  - done.
  - eapply still_spaces; [by eapply silent_still|done].
  - by eapply spaces_spawn_elf.
  - by eapply spaces_manager_fork.
  - by eapply spaces_manager_kill.
  - by eapply spaces_page_fault.
Qed.

Lemma quiet_spaces k k' : spaces k → quiet cpuid k k' → spaces k'.
Proof.
  intros Hsp Hq. induction Hq as [|k k1 k2 Hr _ IH]; [done|]. apply IH.
  destruct Hr as [Hc|]; [by eapply still_spaces; [apply calm_still|]|by eapply spaces_switch_next].
Qed.

Lemma does_spaces user B k k' : spaces k → does PHYSICAL_OFFSET cpuid selector user B k k' → spaces k'.
Proof.
  intros Hsp (k1 & k2 & Hc%calm_still & Hwf & He & Hq). eapply quiet_spaces, Hq.
  eapply effect_spaces, He; [done|by eapply still_spaces].
Qed.

End Spaces.

(** The operations that do not start programs. *)
Section Operations.
Context `{Profile} `{X86_64} {PT Q : Type} `{Mapper PT} `{ArrayQueue Q} (PHYSICAL_OFFSET : option Z) (cpuid : nat).
#[local] Abbreviation wf := (wf (PT := PT) (Q := Q) cpuid).
#[local] Abbreviation spaces := (spaces (PT := PT) (Q := Q) cpuid).

Lemma spaces_switch ctx k ctx' k' : wf k → spaces k → switch cpuid ctx k = Done (ctx', k') → spaces k'.
Proof. intros Hwf Hsp Hs. by eapply (does_spaces None cpuid (0, 0) True (λ _ _, True)), switch_does. Qed.

Lemma spaces_fork ctx k ctx' k' :
  wf k → NEXT_PID k + 1 < 2 ^ 16 → spaces k → fork PHYSICAL_OFFSET cpuid ctx k = Done (ctx', k') → spaces k'.
Proof. intros Hwf Hn Hsp Hs. by eapply (does_spaces PHYSICAL_OFFSET cpuid (0, 0) True (λ _ _, True)), fork_does. Qed.

Lemma spaces_wait_pid q ctx k ctx' k' :
  wf k → spaces k → wait_pid cpuid q ctx k = Done (ctx', k') → spaces k'.
Proof. intros Hwf Hsp Hs. by eapply (does_spaces None cpuid (0, 0) True (λ _ _, True)), wait_pid_does. Qed.

Lemma spaces_process_exit ret ctx k ctx' k' :
  wf k → spaces k → process_exit PHYSICAL_OFFSET cpuid ret ctx k = Done (ctx', k') → spaces k'.
Proof. intros Hwf Hsp Hs. by eapply (does_spaces PHYSICAL_OFFSET cpuid (0, 0) True (λ _ _, True)), process_exit_does. Qed.

End Operations.

(** ** System calls and the other steps *)

Section Calls.
Context `{Profile} `{X86_64} {PT Q UA : Type} `{Mapper PT} `{ArrayQueue Q} `{UserAllocator UA}.
Context (PHYSICAL_OFFSET : option Z) (cpuid : nat) (selector : Z * Z) (clock_nanos : Z).
Context (Layout_of : list Z → Z * Z).
#[local] Abbreviation St := (Kernel PT Q * UA)%type.
#[local] Abbreviation wf := (wf (PT := PT) (Q := Q) cpuid).
#[local] Abbreviation spaces := (spaces (PT := PT) (Q := Q) cpuid).

Lemma step_spaces s s' :
  step PHYSICAL_OFFSET cpuid selector clock_nanos Layout_of s s' → wf s.1 → spaces s.1 → spaces s'.1.
Proof. intros Hs Hwf Hsp. by eapply does_spaces, step_does. Qed.

(** Nothing was allocated before [proc::init]. *)
Definition pristine (k : Kernel PT Q) : Prop :=
  NEXT_PID k = Pid.NEXT_PID_init ∧ procs k = ∅ ∧ arcs (kmem k) = ∅.

Lemma init_spaces pages (k0 : Kernel PT Q) u k :
  pristine k0 → Manager.init cpuid pages k0 = Done (u, k) → spaces k.
Proof.
  intros (Hn & Hps & Ha) Hs. destruct (init_Done _ _ _ _ _ Hn Hs) as (a & m1 & v & m2 & v2 & loc & i & Hnew & Hv & Hpt2 & Hh2 & _ &
    Hvm & _ & _ & _ & _ & Hm & _ & Hpk & _).
  assert (Hw : pool_wf ([v], m2)).
  { apply (pool_step_wf PHYSICAL_OFFSET ([], kmem k0)).
    - eapply (pool_new _ _ _ a m1); [|exact Hv]. unfold PageTableContext.new. by rewrite (bind_step _ _ _ _ _ eq_refl).
    - split; [intros b; simpl; rewrite Ha, lookup_empty; set_solver|set_solver]. }
  apply Arc_new_arcs in Hnew as (Ha1 & _ & Hc1). apply Vm_new_refs in Hv as ((Ha2 & _ & Hc2) & Hpt & _).
  assert (Hvk : vm_map k = {[ loc := v2 ]}).
  { apply map_eq. intros l. rewrite lookup_vm_map, Hpk, Hps. destruct (decide (l = loc)) as [->|Hne].
    - rewrite lookup_insert_eq, lookup_singleton_eq. exact Hvm.
    - by rewrite lookup_insert_ne, lookup_singleton_ne. }
  split.
  - unfold vms. rewrite Hvk, map_to_list_singleton, Hm. simpl. by apply (pool_wf_update [] v [] v2 m2 m2).
  - intros q l w reg n _ _ Hw' Ha'. rewrite Hvk in Hw'. apply lookup_singleton_Some in Hw' as [_ <-].
    rewrite Hm in *. rewrite Hpt2, Hpt, Ha2, Ha1, lookup_insert_eq in Ha'. injection Ha' as <- _. by rewrite Hc2, Hc1.
Qed.

Lemma reachable_good pages (k0 k : Kernel PT Q) u ua s :
  pristine k0 → Manager.init cpuid pages k0 = Done (u, k) →
  rtc (step PHYSICAL_OFFSET cpuid selector clock_nanos Layout_of) (k, ua) s → inv cpuid s.1 ∧ spaces s.1.
Proof.
  intros Hpr Hin Hs. pose proof (init_inv cpuid _ _ _ _ (proj1 Hpr) Hin) as Hi.
  pose proof (init_spaces _ _ _ _ Hpr Hin) as Hsp.
  remember (k, ua) as s0 eqn:E. assert (Hi0 : inv cpuid s0.1 ∧ spaces s0.1) by (by rewrite E).
  clear -Hs Hi0. induction Hs as [|s0 s1 s2 Hstep _ IH]; [done|]. apply IH. destruct Hi0 as [Hi Hsp].
  split; [by eapply step_inv|eapply step_spaces; [done|apply Hi|done]].
Qed.

(** The address space of one process. *)
Lemma spaces_proc (k : Kernel PT Q) q p :
  wf k → spaces k → lookup_proc k q = Some p → exit_code (inner p) = None →
  ∃ v reg n, proc_vm (inner p) = Some v ∧ arcs (kmem k) !! page_table v = Some (reg, n) ∧
    n = length (filter (λ w, page_table w = page_table v) (vms k)) ∧
    is_Some (ends (kmem k) !! end_ (heap v)) ∧ (running cpuid k = Some q → cr3 (kmem k) = reg).
Proof.
  intros Hwf [[Ha He] Hl] (loc & Hq & Hp)%bind_Some Hex.
  destruct (wf_table _ _ Hwf q loc Hq) as (p' & Hp' & _ & (Hvm & _)). assert (p' = p) as -> by congruence.
  apply Hvm in Hex as [v Hv]. exists v. pose proof (vms_elem _ _ _ _ Hp Hv) as Hin'.
  specialize (Ha (page_table v)). simpl in Ha.
  destruct (arcs (kmem k) !! page_table v) as [[reg n]|] eqn:Ea; cycle 1.
  { destruct Ha. by apply list_elem_of_fmap_2. }
  exists reg, n. split_and!; [done..| | |].
  - destruct Ha as [-> _]. clear. induction (vms k) as [|x l IH]; [done|]. rewrite fmap_cons, !filter_cons.
    destruct (decide (page_table x = _)); simpl; lia.
  - by apply He.
  - intros Hr. apply (Hl q loc v reg n); [done..| |done]. by rewrite lookup_vm_map, Hp.
Qed.

(** C11: Every process that has not exited has its address space: its page table is
    there, and the reference count of the page table is the number of such
    processes on it; its heap is there; and the page table in CR3 is the running
    process's own, so that the pointers of its system calls are looked up where
    they should be. *)
Theorem reachable_spaces pages (k0 k : Kernel PT Q) u ua s :
  pristine k0 → Manager.init cpuid pages k0 = Done (u, k) →
  rtc (step PHYSICAL_OFFSET cpuid selector clock_nanos Layout_of) (k, ua) s →
  ∀ q p, lookup_proc s.1 q = Some p → exit_code (inner p) = None →
  ∃ v reg n, proc_vm (inner p) = Some v ∧ arcs (kmem s.1) !! page_table v = Some (reg, n) ∧
    n = length (filter (λ w, page_table w = page_table v) (vms s.1)) ∧
    is_Some (ends (kmem s.1) !! end_ (heap v)) ∧
    (running cpuid s.1 = Some q → cr3 (kmem s.1) = reg).
Proof.
  intros Hpr Hin Hs q p Hl Hex. destruct (reachable_good _ _ _ _ _ _ Hpr Hin Hs) as [[Hwf _] Hsp].
  by apply spaces_proc.
Qed.

(** C16: The timer interrupt never fails: in every reachable state in which no
    process that was killed has been made ready again (the one way to lose the memory of a ready process,
    [RoundRobin.wake_up_killed]), and as long as the count of ticks does not
    overflow where that is checked, [clock] returns, with a process running whose
    page table is in CR3. *)
Theorem clock_returns pages (k0 k : Kernel PT Q) u ua s ctx :
  pristine k0 → Manager.init cpuid pages k0 = Done (u, k) →
  rtc (step PHYSICAL_OFFSET cpuid selector clock_nanos Layout_of) (k, ua) s →
  (∀ q p, lookup_proc s.1 q = Some p → status (inner p) = Ready → exit_code (inner p) = None) →
  (debug_assertions = true → ∀ q p, lookup_proc s.1 q = Some p → 0 ≤ ticks_passed (inner p) < 2 ^ 64 - 1) →
  ∃ ctx' s' q p, clock cpuid ctx s = Done (ctx', s') ∧ running cpuid s'.1 = Some q ∧
    lookup_proc s'.1 q = Some p ∧
    (exit_code (inner p) = None → ∃ v n, proc_vm (inner p) = Some v ∧
       arcs (kmem s'.1) !! page_table v = Some (cr3 (kmem s'.1), n)).
Proof.
  intros Hpr Hin Hs Hrd Ht. destruct (reachable_good _ _ _ _ _ _ Hpr Hin Hs) as [[Hwf _] Hsp].
  destruct (wf_running _ _ Hwf) as (cur & Hr & [loc Hq]). destruct (wf_table _ _ Hwf cur loc Hq) as (p & Hp & _).
  pose proof (lookup_proc_Some _ _ _ _ Hq Hp) as Hl.
  destruct (switch_spec_aux cpuid ctx s.1 cur p Hwf Hr Hl) as (ctx' & k' & Hsw).
  - intros Hd. specialize (Ht Hd cur p Hl). lia.
  - intros q _ _ pq Hpq Hst. destruct (spaces_proc _ _ _ Hwf Hsp Hpq (Hrd _ _ Hpq Hst)) as (v & reg & n & ? & ? & _). eauto.
  - pose proof (switch_wf _ _ _ _ _ Hwf Hsw) as Hwf'. pose proof (spaces_switch _ _ _ _ _ Hwf Hsp Hsw) as Hsp'.
    destruct (wf_running _ _ Hwf') as (q & Hr' & [l Hq']). destruct (wf_table _ _ Hwf' q l Hq') as (p' & Hp' & _).
    exists ctx', (k', s.2), q, p'. split_and!; [by unfold clock, on_kernel, zoom; rewrite Hsw|done|by eapply lookup_proc_Some|].
    intros Hex. destruct (spaces_proc _ _ _ Hwf' Hsp' (lookup_proc_Some _ _ _ _ Hq' Hp') Hex) as (v & reg & n & Hv & Ha & _ & _ & Hc).
    exists v, n. simpl. rewrite (Hc Hr'). done.
Qed.

End Calls.

(** ** An example: a process is spawned, runs, and forks *)

Section SpacesWitnesses.
#[local] Existing Instance x86_ref.
#[local] Existing Instance release.

(** An application whose data is one word. *)
Definition app_data : list Z := [0xef; 0xbe; 0xad; 0xde; 0; 0; 0; 0].
Definition elf_app : ElfFile :=
  mkElfFile (λ a, default 0 (app_data !! Z.to_nat (a - 0x1000)))
    [mkProgramHeader (Some Load) 0x1000 0x401000 8 8 false true] 0x400000.
Definition app_memory : Mem table :=
  mkMem (mkMachine ∅ (mkAllocator 32 0 ((λ i, (i, 0x10000)) <$> seqZ 0 32) []) (λ _, 0)) ∅ ∅ (mkCr3 0x7000 0).
Definition app_boot : Kernel table queue := 
  mkKernel app_memory (mkStore ∅ ∅ ∅ (mkIo INPUT_BUF_init [])) Pid.NEXT_PID_init
    Processor.PROCESSORS_init ∅ ∅ [] ∅ (Some [mkApp "a" elf_app]).
Definition app_started : Kernel table queue := state_of (Manager.init 0 [] app_boot) app_boot.
Definition app_spawned : Kernel table queue * Z :=
  state_of (on_kernel (spawn offset_example 0 (8, 16) "a") (app_started, 0)) (app_started, 0).
Definition app_runs : Kernel table queue * Z := state_of (clock 0 (regs_example 5) app_spawned) app_spawned.
Definition fork_call : ProcessContext :=
  Context.set_rax (Syscall.number Syscall.Fork) (match lookup_proc app_runs.1 2 with Some p => context (inner p) | None => Context.default end).
Definition app_forked : Kernel table queue * Z :=
  state_of (dispatcher offset_example 0 (8, 16) 0 layout_example fork_call app_runs) app_runs.

Lemma app_boot_started : Manager.init 0 [] app_boot = Done ((), app_started).
Proof. apply value_state. vm_compute. reflexivity. Qed.

Lemma app_runs_reached : rtc (step offset_example 0 (8, 16) 0 layout_example) (app_started, 0) app_runs.
Proof.
  eapply rtc_l.
  { apply (step_spawn offset_example 0 (8, 16) 0 layout_example "a" (Ok 2) _ app_spawned).
    - vm_compute. reflexivity.
    - apply value_state. vm_compute. reflexivity. }
  eapply rtc_l; [|apply rtc_refl].
  apply (step_clock offset_example 0 (8, 16) 0 layout_example (regs_example 5)
    (match lookup_proc app_runs.1 2 with Some p => context (inner p) | None => Context.default end) _ app_runs).
  apply value_state. vm_compute. reflexivity.
Qed.

Lemma app_reached : rtc (step offset_example 0 (8, 16) 0 layout_example) (app_started, 0) app_forked.
Proof.
  eapply rtc_r; [exact app_runs_reached|].
  apply (step_call offset_example 0 (8, 16) 0 layout_example fork_call (regs_example 5) _ app_forked).
  - vm_compute. discriminate.
  - vm_compute. reflexivity.
  - apply value_state. vm_compute. reflexivity.
Qed.

Lemma app_boot_pristine : pristine app_boot.
Proof. by split_and!. Qed.

(** Parent (2) and child (3) share a page table, with a count of two; the
    kernel runs. *)
Lemma reachable_spaces_witness :
  ∃ v reg n, arcs (kmem app_forked.1) !! page_table v = Some (reg, n) ∧ n = 2%nat ∧
    proc_vm <$> (inner <$> lookup_proc app_forked.1 3) = Some (Some v).
Proof.
  assert (Hl : ∃ p, lookup_proc app_forked.1 3 = Some p ∧ exit_code (inner p) = None)
    by (eexists; split; vm_compute; reflexivity).
  destruct Hl as (p & Hl & Hex).
  destruct (reachable_spaces offset_example 0 (8, 16) 0 layout_example [] app_boot app_started () 0 app_forked
    app_boot_pristine app_boot_started app_reached 3 p Hl Hex) as (v & reg & n & Hv & Ha & Hn & _).
  exists v, reg, n. split_and!; [done| |by rewrite Hl; simpl; rewrite Hv].
  vm_compute in Hl. injection Hl as <-. injection Hv as <-. rewrite Hn. vm_compute. reflexivity.
Defined.

Lemma all_alive {PT Q} (k : Kernel PT Q) :
  forallb (λ x, bool_decide (exit_code (inner x.2) = None)) (map_to_list (procs k)) = true →
  ∀ q p, lookup_proc k q = Some p → exit_code (inner p) = None.
Proof.
  intros Hall q p (loc & _ & Hp)%bind_Some. rewrite forallb_forall in Hall.
  specialize (Hall (loc, p)). apply bool_decide_eq_true in Hall; [done|].
  by apply list_elem_of_In, elem_of_map_to_list.
Qed.

Lemma app_forked_alive q p :
  lookup_proc app_forked.1 q = Some p → status (inner p) = Ready → exit_code (inner p) = None.
Proof. intros Hl _. revert Hl. apply all_alive. vm_compute. reflexivity. Qed.

Lemma app_forked_next : running 0 (state_of (clock 0 (regs_example 9) app_forked) app_forked).1 = Some 3.
Proof. vm_compute. reflexivity. Qed.

Lemma clock_returns_witness : ∃ ctx' s', clock 0 (regs_example 9) app_forked = Done (ctx', s') ∧ running 0 s'.1 = Some 3.
Proof.
  destruct (clock_returns offset_example 0 (8, 16) 0 layout_example [] app_boot app_started () 0 app_forked (regs_example 9)
    app_boot_pristine app_boot_started app_reached) as (ctx' & s' & q & p & Hc & _).
  - exact app_forked_alive.
  - intros Hd. discriminate Hd.
  - exists ctx', s'. split; [exact Hc|].
    rewrite <- (state_of_Done _ app_forked _ _ Hc). exact app_forked_next.
Defined.

End SpacesWitnesses.
