(* ===== verification/Isolation.v ===== *)
(** Isolation: processes on different page tables share no memory in user space.
    Each user page of each address space has a frame of its own, which is not
    free and holds no page table, in every reachable state. *)
From S2P Require Import Prelude Arch Pid Sync Frames Elf Tables Stack Heap Vm Owners Context Resource Data Process Manager.
From S2P Require Import Syscall Scheduler KernelExample RoundRobin Lifecycle Fork Dispatch Reachable Effects Spaces.
From stdpp Require Import strings relations.
#[local] Open Scope Z_scope.

(** * The memory of the kernel *)

Section Memory.
Context `{Profile} `{!X86_64} `{!X86_64_Laws _} {PT : Type} `{!Mapper PT}.
Context (mapping : PT → Z → Z → option (Z * Z)) `{!Mapper_Laws PT mapping}.
Context (own : PT → Z → Prop) (entry : PT → Z → Z → option Z) (huge : PT → Z → Z → Prop)
  `{!Mapper_Tables PT mapping own entry huge}.
Context (PHYSICAL_OFFSET : option Z) (kroot : Z) (shared : Z → option Z).
(** What is watched: page tables, by reference and by address, with the mappings and
    the memory they had. *)
Context (WA : nat → Prop) (W : Z → Prop) (old : Z → Z → option (Z * Z)) (old_mem : Z → Z).
(** The kernel's reference to its page table. *)
Context (ka : nat).
#[local] Abbreviation off := (default 0 PHYSICAL_OFFSET).
#[local] Abbreviation St := (Mem PT).
#[local] Abbreviation iso := (iso mapping own entry huge kroot shared W off old old_mem).
#[local] Abbreviation acting := (acting W).

(** The level-4 tables in use. *)
Definition live (m : St) (r : Z) : Prop := ∃ a reg n, arcs m !! a = Some (reg, n) ∧ addr reg = r.

Record mem_ok (m : St) : Prop := {
  mem_iso : iso (live m) (machine m);
  mem_arcs a b ra na rb nb : arcs m !! a = Some (ra, na) → arcs m !! b = Some (rb, nb) → addr ra = addr rb → a = b;
  mem_kernel : ∃ reg n, arcs m !! ka = Some (reg, n) ∧ addr reg = kroot;
  mem_ends c e : ends m !! c = Some e → heap_range e;
  mem_watch a reg n : arcs m !! a = Some (reg, n) → WA a ↔ W (addr reg);
}.

(** Only page tables in use are watched. *)
Definition watchable (m : St) : Prop :=
  (∀ a, WA a → is_Some (arcs m !! a)) ∧ ∀ w, W w → aligned w → live m w.

Lemma live_arc (m : St) a reg n : arcs m !! a = Some (reg, n) → live m (addr reg).
Proof. intros Ha. by exists a, reg, n. Qed.

Lemma acting_arc (m : St) a reg n : mem_ok m → arcs m !! a = Some (reg, n) → ¬ WA a → acting (live m) (addr reg).
Proof. intros Hm Ha HW. split; [by eapply live_arc|]. by rewrite <- (mem_watch _ Hm a reg n Ha). Qed.

(** The memory of a user process. *)
Definition vm_ok (v : ProcessVm) : Prop :=
  page_table v ≠ ka ∧ stack_ok (stack v) ∧ base (heap v) = HEAP_START ∧ Forall code_ok (code v).

Lemma mem_ok_root (m : St) a reg n : mem_ok m → arcs m !! a = Some (reg, n) → a ≠ ka → addr reg ≠ kroot.
Proof.
  intros Hm Ha Hne Heq. destruct (mem_kernel _ Hm) as (rk & nk & Hk & Hkr). apply Hne.
  eapply (mem_arcs _ Hm); [exact Ha|exact Hk|congruence].
Qed.

(** The same page tables in use. *)
Lemma mem_ok_machine (m : St) t e :
  mem_ok m → iso (live m) t → (∀ c x, e !! c = Some x → heap_range x) → mem_ok (mkMem t (arcs m) e (cr3 m)).
Proof. intros [] Ht He. by split. Qed.

Lemma mem_ok_on_machine {R} (f : M (Machine PT BootInfoFrameAllocator) R) (m : St) r m' :
  mem_ok m → on_machine f m = Done (r, m') →
  (∀ t, f (machine m) = Done (r, t) → iso (live m) t) → mem_ok m'.
Proof. intros Hm (t & Ht & ->)%on_machine_Done Hi. apply mem_ok_machine; [done|by apply Hi|apply Hm]. Qed.

Lemma mem_ok_on_heap {R} h (f : M (Z * Machine PT BootInfoFrameAllocator) R) (m : St) r m' :
  mem_ok m → on_heap h f m = Done (r, m') →
  (∀ e e' t, heap_range e → f (e, machine m) = Done (r, (e', t)) → iso (live m) t ∧ heap_range e') → mem_ok m'.
Proof.
  intros Hm (e & e' & t & He & Hf & ->)%on_heap_Done Hi. destruct (Hi e e' t) as [Ht He']; [by eapply (mem_ends _ Hm)|done|].
  apply mem_ok_machine; [done..|]. intros c x Hx. destruct (decide (c = end_ h)) as [->|Hne].
  - rewrite lookup_insert_eq in Hx. by injection Hx as <-.
  - rewrite lookup_insert_ne in Hx by done. by eapply (mem_ends _ Hm).
Qed.

(** ** Creation *)

Lemma vm_new_ok a (m : St) v m' :
  mem_ok m → Vm.new a m = Done (v, m') →
  mem_ok m' ∧ arcs m' = arcs m ∧ page_table v = a ∧ base (heap v) = HEAP_START ∧ code v = [].
Proof.
  intros Hm Hn. unfold Vm.new, Heap_empty in Hn. apply bind_Done in Hn as (h & m1 & Hh & Hn).
  apply ret_Done in Hn as [<- <-]. rewrite user_VirtAddr in Hh by done.
  apply bind_Done in Hh as (va & m2 & [[= <-] <-]%unwrap_Done & Hh).
  apply bind_Done in Hh as (s & m2 & [<- <-]%get_Done & Hh). apply bind_Done in Hh as (u & m2 & Hs & Hh).
  unfold set_ends in Hs. apply modify_Done in Hs as <-. apply ret_Done in Hh as [<- <-].
  split_and!; [|done..]. apply mem_ok_machine; [done|apply Hm|]. intros c x Hx. destruct (decide (c = fresh (dom (ends m)))) as [->|Hne].
  - rewrite lookup_insert_eq in Hx. injection Hx as <-. unfold heap_range, HEAP_SIZE, HEAP_PAGES, PAGE_SIZE. lia.
  - rewrite lookup_insert_ne in Hx by done. by eapply (mem_ends _ Hm).
Qed.

(** [Arc::new] of a level-4 table that was not in use. *)
Lemma arc_new_ok reg (m : St) a m' :
  ¬ live m (addr reg) → (∃ rk n, arcs m !! ka = Some (rk, n) ∧ addr rk = kroot) →
  (∀ a b ra na rb nb, arcs m !! a = Some (ra, na) → arcs m !! b = Some (rb, nb) → addr ra = addr rb → a = b) →
  (∀ c e, ends m !! c = Some e → heap_range e) →
  (∀ b rb n, arcs m !! b = Some (rb, n) → WA b ↔ W (addr rb)) → (∀ b, WA b → is_Some (arcs m !! b)) →
  ¬ W (addr reg) → iso (λ r, live m r ∨ r = addr reg) (machine m) → Arc_new reg m = Done (a, m') →
  mem_ok m' ∧ a ≠ ka ∧ ¬ WA a.
Proof.
  intros Hnl Hk Hinj He Hwa Hin HnW Hi Hn. injection Hn as <- <-. set (a := fresh (dom (arcs m))).
  assert (Ha : arcs m !! a = None) by (apply not_elem_of_dom, is_fresh).
  assert (Hka : a ≠ ka) by (intros Heq; destruct Hk as (rk & n & Hk & _); congruence). assert (HWa : ¬ WA a) by (intros [? Hx]%Hin; congruence). split; [|done].
  assert (Hold : ∀ b rb nb, <[a := (reg, 1%nat)]> (arcs m) !! b = Some (rb, nb) →
    b = a ∧ rb = reg ∨ b ≠ a ∧ arcs m !! b = Some (rb, nb)).
  { intros b rb nb. destruct (decide (b = a)) as [->|Hne]; [rewrite lookup_insert_eq|rewrite lookup_insert_ne by done].
    - intros [= -> _]. by left.
    - by right. }
  split; simpl; [| | |done|].
  - eapply (iso_ext mapping own entry huge kroot shared W off old old_mem); [|exact Hi]. intros r. split.
    + intros [(b & rb & nb & Hb & <-)| ->]; [exists b, rb, nb|exists a, reg, 1%nat]; simpl.
      * rewrite lookup_insert_ne; [done|congruence].
      * by rewrite lookup_insert_eq.
    + intros (b & rb & nb & [[-> ->]|[_ Hb]]%Hold & <-); [by right|left]. by exists b, rb, nb.
  - intros b c rb nb rc nc [[-> ->]|[_ Hb]]%Hold [[-> ->]|[_ Hc]]%Hold Heq; try done.
    + destruct Hnl. rewrite Heq. by eapply live_arc.
    + destruct Hnl. rewrite <- Heq. by eapply live_arc.
    + by eapply Hinj.
  - destruct Hk as (rk & n & Hk & Hr). exists rk, n. by rewrite lookup_insert_ne.
  - by intros b rb nb [[-> ->]|[_ Hb]]%Hold; [|by eapply Hwa].
Qed.

Lemma clone_ok (m : St) a m' :
  mem_ok m → watchable m → PageTableContext.clone_level_4 PHYSICAL_OFFSET ka m = Done (a, m') →
  mem_ok m' ∧ a ≠ ka ∧ ¬ WA a.
Proof.
  intros Hm [HwA HwR] Hc. unfold PageTableContext.clone_level_4, physical_to_virtual in Hc.
  apply bind_Done in Hc as (o & m1 & Ha & Hc). apply on_machine_Done in Ha as (t & Ha & ->).
  apply (alloc_frame_iso mapping own entry huge kroot shared W off old old_mem (live m)) in Ha as (Hi & _ & Hh); [|apply Hm].
  apply bind_Done in Hc as (f & m1 & [-> <-]%unwrap_Done & Hc). specialize (Hh f eq_refl).
  assert (HnW : ¬ W f) by (destruct Hh as ([Hfa _] & _ & _ & HnR & _); intros HW; by apply HnR, HwR).
  apply bind_Done in Hc as (reg & m1 & Hr & Hc). apply Arc_deref_Done in Hr as [-> (n & Hr)]. simpl in Hr.
  destruct (mem_kernel _ Hm) as (rk & nk & Hk & Hkr). rewrite Hk in Hr. injection Hr as -> _.
  apply bind_Done in Hc as (x & m1 & Hx & Hc). apply bind_Done in Hx as (o & m2 & [_ <-]%unwrap_Done & [-> _]%word_op_Done).
  apply bind_Done in Hc as (y & m1 & Hx & Hc). apply bind_Done in Hx as (o2 & m2 & [_ <-]%unwrap_Done & [-> _]%word_op_Done).
  apply bind_Done in Hc as (u & m1 & Hcp & Hc). apply on_machine_Done in Hcp as (t2 & Hcp & ->).
  apply modify_Done in Hcp as <-. cbn [machine arcs ends cr3] in *.
  eapply arc_new_ok, Hc; simpl.
  - intros (b & rb & nb & Hb & Heq). destruct Hh as (_ & _ & _ & HnR & _). apply HnR. by exists b, rb, nb.
  - eauto.
  - apply Hm.
  - apply Hm.
  - apply Hm.
  - exact HwA.
  - exact HnW.
  - rewrite Hkr. apply (copy_table_iso mapping own entry huge kroot shared W off old old_mem (live m) _ _ Hi) in Hh; [|done]. eapply (iso_ext mapping own entry huge kroot shared W off old old_mem); [|exact Hh].
    intros r. done.
Qed.

(** ** Programs, heaps and stacks *)

Lemma load_elf_ok v elf (m : St) v' m' :
  mem_ok m → page_table v ≠ ka → ¬ WA (page_table v) → base (heap v) = HEAP_START → Forall linked (program_iter elf) →
  Vm.load_elf PHYSICAL_OFFSET v elf m = Done (v', m') → mem_ok m' ∧ vm_ok v'.
Proof.
  intros Hm Hne HnW Hb Hl Hle. unfold Vm.load_elf in Hle. apply bind_Done in Hle as (root & m1 & Hr & Hle).
  apply mapper_Done in Hr as (-> & reg & n & Ha & ->). apply bind_Done in Hle as (o & m1 & [Ho <-]%unwrap_Done & Hle). replace o with off in Hle by (by rewrite Ho).
  apply bind_Done in Hle as (r & m1 & Hld & Hle). pose proof (mem_ok_root _ _ _ _ Hm Ha Hne) as Hnk.
  apply on_machine_Done in Hld as (t & Hld & ->).
  apply (load_elf_iso mapping own entry huge kroot shared W off old old_mem (live m)) in Hld as [Hi Hrs];
    [|apply Hm|by eapply acting_arc|done|done].
  destruct r as [ranges|e]; [|done]. apply bind_Done in Hle as (size & m2 & Hs & Hle). apply sum_counts_Done in Hs as ->.
  apply bind_Done in Hle as (us & m2 & [-> _]%word_op_Done & Hle).
  apply bind_Done in Hle as (st & m2 & Hst & Hle). apply on_machine_Done in Hst as (t2 & Hst & ->).
  apply (stack_init_iso mapping own entry huge kroot shared W off old old_mem (live m)) in Hst as [Hi2 Hok]; [|done|by eapply acting_arc|done].
  apply ret_Done in Hle as [<- <-]. split; [by apply (mem_ok_machine m); [..|apply Hm]|].
  split_and!; simpl; [done..|]. by apply Hrs.
Qed.

Lemma brk_ok v arg (m : St) r m' :
  mem_ok m → vm_ok v → ¬ WA (page_table v) → Vm.brk PHYSICAL_OFFSET v arg m = Done (r, m') → mem_ok m'.
Proof.
  intros Hm (Hne & _ & Hb & _) HnW Hbr. unfold Vm.brk in Hbr. apply bind_Done in Hbr as (root & m1 & Hr & Hbr).
  apply mapper_Done in Hr as (-> & reg & n & Ha & ->). eapply mem_ok_on_heap; [done|exact Hbr|].
  intros e e' t He Hh. rewrite Hb in Hh. eapply heap_brk_iso, Hh; [done..|apply Hm|by eapply acting_arc|by eapply mem_ok_root|done].
Qed.

Lemma fault_ok v a pid (m : St) b v' m' :
  mem_ok m → vm_ok v → ¬ WA (page_table v) → canonical a → pid ≠ KERNEL_PID →
  Vm.handle_page_fault PHYSICAL_OFFSET (Some pid) v a m = Done ((b, v'), m') → mem_ok m' ∧ vm_ok v'.
Proof.
  intros Hm (Hne & Hst & Hb & Hc) HnW Ha Hpid Hf. unfold Vm.handle_page_fault in Hf.
  apply bind_Done in Hf as (root & m1 & Hr & Hf). apply mapper_Done in Hr as (-> & reg & n & Har & ->).
  apply bind_Done in Hf as (r & m1 & Hh & Hf). apply on_machine_Done in Hh as (t & Hh & ->). apply ret_Done in Hf as [Hf <-].
  injection Hf as <- <-. unfold StackOps.handle_page_fault in Hh.
  destruct (StackOps.is_on_stack (stack v) a) eqn:Hon; simpl in Hh; cycle 1.
  { apply ret_Done in Hh as [<- <-]. split; [|by split_and!]. by apply (mem_ok_machine m); [|apply Hm..]. }
  apply bind_Done in Hh as (x & t1 & Hg & Hh).
  apply (grow_stack_iso mapping own entry huge kroot shared W off old old_mem (live m)) in Hg as [Hi Hok];
    [|apply Hm|by eapply acting_arc|by eapply mem_ok_root|done..].
  destruct x as [st|e]; apply ret_Done in Hh as [<- <-]; (split; [by apply (mem_ok_machine m); [..|apply Hm]|]); split_and!; simpl; try done.
  by apply Hok.
Qed.

(** The kernel's own stack. *)
Lemma kfault_ok v a (m : St) b v' m' :
  mem_ok m → page_table v = ka → ¬ WA ka → kstack_ok (stack v) → is_Some (shared KSTACK_DEF_BOT) → canonical a →
  Vm.handle_page_fault PHYSICAL_OFFSET (Some KERNEL_PID) v a m = Done ((b, v'), m') →
  mem_ok m' ∧ page_table v' = ka ∧ kstack_ok (stack v').
Proof.
  intros Hm Hpt HnW Hst Hsh Ha Hf. unfold Vm.handle_page_fault in Hf.
  apply bind_Done in Hf as (root & m1 & Hr & Hf). apply mapper_Done in Hr as (-> & reg & n & Har & ->).
  destruct (mem_kernel _ Hm) as (rk & nk & Hk & Hkr). rewrite (mem_watch _ Hm _ _ _ Hk), Hkr in HnW. rewrite Hpt, Hk in Har. injection Har as -> _. rewrite Hkr in Hf.
  apply bind_Done in Hf as (r & m1 & Hh & Hf). apply on_machine_Done in Hh as (t & Hh & ->). apply ret_Done in Hf as [Hf <-].
  injection Hf as <- <-. unfold StackOps.handle_page_fault in Hh.
  destruct (StackOps.is_on_stack (stack v) a) eqn:Hon; simpl in Hh; cycle 1.
  { apply ret_Done in Hh as [<- <-]. split; [|by split]. by apply (mem_ok_machine m); [|apply Hm..]. }
  apply bind_Done in Hh as (x & t1 & Hg & Hh).
  apply (kgrow_stack_iso mapping own entry huge kroot shared W off old old_mem (live m)) in Hg as [Hi Hok]; [|apply Hm|done..].
  destruct x as [st|e]; apply ret_Done in Hh as [<- <-]; (split; [by apply (mem_ok_machine m); [..|apply Hm]|]); split; simpl; try done.
  by apply Hok.
Qed.

(** ** Forks *)

(** Fewer page tables. *)
Lemma mem_ok_sub (m : St) t (A : gmap nat (Cr3RegValue * nat)) e c :
  mem_ok m → (∀ a reg n, A !! a = Some (reg, n) → ∃ n', arcs m !! a = Some (reg, n')) → is_Some (A !! ka) →
  iso (λ r, ∃ a reg n, A !! a = Some (reg, n) ∧ addr reg = r) t → (∀ c' x, e !! c' = Some x → heap_range x) →
  mem_ok (mkMem t A e c).
Proof.
  intros Hm HA [[rk nk] Hk] Ht He. split; simpl; [done| | |done|].
  - intros a b ra na rb nb (n1 & Ha)%HA (n2 & Hb)%HA. by apply (mem_arcs _ Hm a b ra n1 rb n2).
  - destruct (mem_kernel _ Hm) as (reg & n & Hr & Hkr). destruct (HA _ _ _ Hk) as (n' & Hk'). exists rk, nk. split; [done|congruence].
  - intros a reg n (n' & Ha)%HA. by apply (mem_watch _ Hm a reg n').
Qed.

Lemma live_sub (m : St) (A : gmap nat (Cr3RegValue * nat)) t :
  mem_ok m → (∀ a reg n, A !! a = Some (reg, n) → ∃ n', arcs m !! a = Some (reg, n')) → is_Some (A !! ka) →
  iso (live m) t → iso (λ r, ∃ a reg n, A !! a = Some (reg, n) ∧ addr reg = r) t.
Proof.
  intros Hm HA [[rk nk] Hk] Ht. eapply (iso_weaken mapping own entry huge kroot shared W off old old_mem); [..|exact Ht].
  - intros r (a & reg & n & (n' & Ha)%HA & <-). by eapply live_arc.
  - exists ka, rk, nk. split; [done|]. destruct (mem_kernel _ Hm) as (reg & n & Hr & Hkr). destruct (HA _ _ _ Hk) as (n' & Hk'). congruence.
Qed.

Lemma Arc_clone_ok a (m : St) b m' :
  mem_ok m → Arc_clone a m = Done (b, m') →
  b = a ∧ mem_ok m' ∧ machine m' = machine m ∧ cr3 m' = cr3 m ∧ (∀ r, live m r ↔ live m' r) ∧
  ∀ c reg n, arcs m' !! c = Some (reg, n) → ∃ n', arcs m !! c = Some (reg, n').
Proof.
  intros Hm Hc. unfold Arc_clone in Hc. apply bind_Done in Hc as (s & m1 & [<- <-]%get_Done & Hc).
  apply bind_Done in Hc as ([reg n] & m1 & [Ha <-]%unwrap_Done & Hc).
  apply bind_Done in Hc as (u & m1 & Hs & Hc). unfold set_arcs in Hs. apply modify_Done in Hs as <-. apply ret_Done in Hc as [<- <-].
  simpl in *. set (A := <[a := (reg, S n)]> (arcs m)).
  assert (HA : ∀ b rb nb, A !! b = Some (rb, nb) → ∃ n', arcs m !! b = Some (rb, n')).
  { intros b rb nb. unfold A. destruct (decide (b = a)) as [->|Hne]; [rewrite lookup_insert_eq|rewrite lookup_insert_ne by done; eauto].
    intros [= <- <-]. eauto. }
  assert (Hk : is_Some (A !! ka)).
  { unfold A. destruct (mem_kernel _ Hm) as (rk & nk & Hk & _).
    destruct (decide (ka = a)) as [<-|Hne]; [by rewrite lookup_insert_eq|by rewrite lookup_insert_ne, Hk]. }
  split_and!; try done.
  - apply (mem_ok_sub m); [done..| |apply Hm]. apply (live_sub m); [done..|apply Hm].
  - intros r. split; [|intros (b & rb & nb & (n' & Hb)%HA & <-); by eapply live_arc].
    intros (b & rb & nb & Hb & <-). unfold live. simpl. fold A. destruct (decide (b = a)) as [->|Hne].
    + rewrite Ha in Hb. injection Hb as -> _. exists a, rb, (S n). unfold A. by rewrite lookup_insert_eq.
    + exists b, rb, nb. unfold A. by rewrite lookup_insert_ne.
Qed.

Lemma fork_ok v count (m : St) c m' :
  mem_ok m → vm_ok v → ¬ WA (page_table v) →
  (watching W (live m) → ∀ reg n, arcs m !! page_table v = Some (reg, n) → addr (cr3 m) = addr reg) →
  0 ≤ count < 2 ^ 16 → Vm.fork PHYSICAL_OFFSET v count m = Done (c, m') →
  user_page (range_start (stack c)) → mem_ok m' ∧ vm_ok c.
Proof.
  intros Hm (Hne & Hst & Hb & Hc) HnW Hact Hcnt Hf Hu. unfold Vm.fork, PageTableContext.fork in Hf.
  apply bind_Done in Hf as (a & m1 & Ha & Hf). apply Arc_clone_ok in Ha as (-> & Hm1 & Hmach & Hcr & Hlv & Hold); [|done].
  apply bind_Done in Hf as (root & m2 & Hr & Hf). apply mapper_Done in Hr as (-> & reg & n & Har & ->).
  apply bind_Done in Hf as (o & m2 & [Ho <-]%unwrap_Done & Hf). replace o with off in Hf by (by rewrite Ho).
  apply bind_Done in Hf as (active & m2 & [<- <-]%gets_Done & Hf).
  apply bind_Done in Hf as (st & m2 & Hs & Hf). apply on_machine_Done in Hs as (t & Hs & ->).
  apply ret_Done in Hf as [<- <-]. simpl in Hu.
  apply (stack_fork_iso mapping own entry huge kroot shared W off old old_mem (live m1)) in Hs as [Hi Hok];
    [|apply Hm1|by eapply acting_arc|by eapply mem_ok_root| |done..]; cycle 1.
  { intros (w & Hw & HW). rewrite Hcr. destruct (Hold _ _ _ Har) as [n' Ha']. eapply Hact, Ha'. exists w. by rewrite Hlv. }
  split; [by apply (mem_ok_machine m1); [..|apply Hm1]|by split_and!].
Qed.

(** ** The end of a process *)

Lemma clean_up_shared_ok v reg n (m : St) r m' :
  mem_ok m → page_table v ≠ ka → ¬ WA (page_table v) → base (heap v) = HEAP_START → Forall code_ok (code v) →
  arcs m !! page_table v = Some (reg, n) →
  Vm.clean_up_shared v (addr reg) m = Done (r, m') →
  arcs m' = arcs m ∧ (∀ c e, ends m' !! c = Some e → heap_range e) ∧
  (iso (live m) (machine m') ∨ iso (λ r, live m r ∧ r ≠ addr reg) (machine m')).
Proof.
  intros Hm Hne HnW Hb Hc Ha Hcl. unfold Vm.clean_up_shared in Hcl.
  pose proof (mem_ok_root _ _ _ _ Hm Ha Hne) as Hk. pose proof (acting_arc _ _ _ _ Hm Ha HnW) as Hl.
  apply bind_Done in Hcl as (r1 & m1 & Hh & Hcl). rewrite Hb in Hh.
  pose proof (on_heap_refs _ _ _ _ _ Hh) as (Ha1 & _).
  assert (Hm1 : mem_ok m1).
  { eapply mem_ok_on_heap; [done|exact Hh|]. intros e e' t He Hh'. apply (heap_clean_up_iso mapping own entry huge kroot shared W off old old_mem (live m)) in Hh'; [done|apply Hm|done..]. }
  assert (Hl1 : ∀ r', live m1 r' ↔ live m r') by (intros r'; unfold live; by rewrite Ha1).
  assert (Hi1 : iso (live m) (machine m1)) by (eapply (iso_ext mapping own entry huge kroot shared W off old old_mem); [exact Hl1|apply Hm1]).
  destruct r1 as [[]|e]; [|by apply ret_Done in Hcl as [<- <-]; split_and!; [|apply Hm1|left]].
  apply bind_Done in Hcl as (r2 & m2 & Hu & Hcl). apply on_machine_Done in Hu as (t & Hu & ->).
  apply (unmap_code_iso mapping own entry huge kroot shared W off old old_mem (live m)) in Hu; [|done..].
  destruct r2 as [[]|e]; [|by apply ret_Done in Hcl as [<- <-]; split_and!; [|apply Hm1|left]].
  apply bind_Done in Hcl as (u & m2 & Hct & Hcl). apply on_machine_Done in Hct as (t2 & Hct & ->).
  apply (clean_up_tables_iso mapping own entry huge kroot shared W off old old_mem (live m)) in Hct; [|done..].
  apply bind_Done in Hcl as (reg' & m3 & Hr & Hcl). apply Arc_deref_Done in Hr as [-> (n' & Hr)]. simpl in Hr.
  rewrite Ha1, Ha in Hr. injection Hr as <- _.
  apply bind_Done in Hcl as (u' & m3 & Hd & Hcl). apply on_machine_Done in Hd as (t3 & Hd & ->).
  apply (dealloc_root_iso mapping own entry huge kroot shared W off old old_mem (live m)) in Hd; [|done|apply Hl|done].
  apply ret_Done in Hcl as [<- <-]. split_and!; [done|apply Hm1|by right].
Qed.

Lemma clean_up_ok v reg n (m : St) r m' :
  mem_ok m → vm_ok v → ¬ WA (page_table v) → arcs m !! page_table v = Some (reg, n) →
  Vm.clean_up PHYSICAL_OFFSET v m = Done (r, m') →
  (∀ c e, ends m' !! c = Some e → heap_range e) ∧
  (iso (live m) (machine m') ∨ n = 1%nat ∧ iso (λ r, live m r ∧ r ≠ addr reg) (machine m')).
Proof.
  intros Hm (Hne & Hst & Hb & Hc) HnW Ha Hcl. unfold Vm.clean_up in Hcl.
  apply bind_Done in Hcl as (root & m1 & Hr & Hcl). apply mapper_Done in Hr as (-> & reg' & n' & Ha' & ->).
  rewrite Ha in Ha'. injection Ha' as <- <-.
  apply bind_Done in Hcl as ([r1 st] & m1 & Hs & Hcl). apply on_machine_Done in Hs as (t & Hs & ->).
  apply (stack_clean_up_iso mapping own entry huge kroot shared W off old old_mem (live m)) in Hs; [|apply Hm|by eapply acting_arc|done].
  simpl in Hcl. destruct r1 as [[]|e]; [|apply ret_Done in Hcl as [<- <-]; split; [apply Hm|by left]].
  apply bind_Done in Hcl as (n' & m1 & Hn & Hcl). apply using_count_Done in Hn as [-> (v' & Hn)]. simpl in Hn. rewrite Ha in Hn. injection Hn as <- <-.
  destruct (decide (n = 1%nat)) as [->|_]; [|apply ret_Done in Hcl as [<- <-]; split; [apply Hm|by left]].
  apply bind_Done in Hcl as (r2 & m2 & Hcs & Hcl). apply ret_Done in Hcl as [<- <-].
  set (m1 := mkMem t (arcs m) (ends m) (cr3 m)) in *.
  assert (Hm1 : mem_ok m1) by (by apply (mem_ok_machine m); [..|apply Hm]).
  eapply clean_up_shared_ok in Hcs as (_ & He & Hi); [|done..]. split; [done|]. destruct Hi; [by left|by right].
Qed.

Lemma drop_ok v (m : St) u m' : mem_ok m → vm_ok v → ¬ WA (page_table v) → Vm.drop PHYSICAL_OFFSET v m = Done (u, m') → mem_ok m'.
Proof.
  intros Hm Hv HnW Hd. unfold Vm.drop in Hd. apply bind_Done in Hd as (r & m1 & Hc & Hd).
  pose proof (clean_up_refs _ _ _ _ _ Hc) as [(Ha1 & _) Hp]. rewrite Hp in Hd. clear Hp.
  unfold Arc_drop in Hd. apply bind_Done in Hd as (s & m2 & [<- <-]%get_Done & Hd).
  apply bind_Done in Hd as ([reg n] & m2 & [Ha <-]%unwrap_Done & Hd). rewrite Ha1 in Ha, Hd.
  destruct (clean_up_ok _ _ _ _ _ _ Hm Hv HnW Ha Hc) as [He Hi]. pose proof Hv as (Hne & _).
  destruct (mem_kernel _ Hm) as (rk & nk & Hk & Hkr). simpl in Hd.
  assert (Hdel : ∀ b rb nb, delete (page_table v) (arcs m) !! b = Some (rb, nb) → b ≠ page_table v ∧ arcs m !! b = Some (rb, nb)).
  { intros b rb nb Hb%lookup_delete_Some. naive_solver. }
  assert (Hgone : iso (λ r, ∃ a reg n, delete (page_table v) (arcs m) !! a = Some (reg, n) ∧ addr reg = r) (machine m1)).
  { destruct Hi as [Hi|[_ Hi]].
    - apply (live_sub m); [done| | |done]; [intros b rb nb [_ Hb]%Hdel; eauto|by rewrite lookup_delete_ne, Hk].
    - eapply (iso_weaken mapping own entry huge kroot shared W off old old_mem); [..|exact Hi].
      + intros r' (b & rb & nb & [Hb Hx]%Hdel & <-). split; [by eapply live_arc|]. intros Heq. by apply Hb, (mem_arcs _ Hm b _ rb nb reg n).
      + exists ka, rk, nk. by rewrite lookup_delete_ne. }
  destruct n as [|[|n]]; unfold set_arcs in Hd; apply modify_Done in Hd as <-.
  1, 2: by apply (mem_ok_sub m); [|intros b rb nb [_ Hb]%Hdel; eauto|rewrite lookup_delete_ne, Hk|..].
  destruct Hi as [Hi|[? _]]; [|done].
  assert (HA : ∀ b rb nb, <[page_table v := (reg, S n)]> (arcs m) !! b = Some (rb, nb) → ∃ n', arcs m !! b = Some (rb, n')).
  { intros b rb nb. destruct (decide (b = page_table v)) as [->|Hb]; [rewrite lookup_insert_eq|rewrite lookup_insert_ne by done; eauto].
    intros [= <- <-]. eauto. }
  assert (Hk' : is_Some (<[page_table v := (reg, S n)]> (arcs m) !! ka)) by (by rewrite lookup_insert_ne, Hk).
  apply (mem_ok_sub m); [done..|by apply (live_sub m)|done].
Qed.

End Memory.

#[global] Arguments mem_iso {_ _ _ _ _ _ _ _ _ _ _ _ _ _ _} _.
#[global] Arguments mem_arcs {_ _ _ _ _ _ _ _ _ _ _ _ _ _ _} _.
#[global] Arguments mem_watch {_ _ _ _ _ _ _ _ _ _ _ _ _ _ _} _.
#[global] Arguments acting_arc {_ _ _ _ _ _ _ _ _ _ _ _ _ _ _ _ _ _} _.

(** * The kernel *)

(** The stacks of the user processes are in user space. *)
Definition spread {PT Q} (k : Kernel PT Q) : Prop :=
  ∀ loc v, vm_map k !! loc = Some v → processes k !! KERNEL_PID ≠ Some loc → user_page (range_start (stack v)).

(** The page table of a process. *)
Definition table_of {PT Q} (k : Kernel PT Q) (q : Z) : option nat :=
  p ← lookup_proc k q; v ← proc_vm (inner p); Some (page_table v).

Lemma table_of_vm {PT Q} (k : Kernel PT Q) q :
  table_of k q = page_table <$> (processes k !! q ≫= λ loc, vm_map k !! loc).
Proof.
  unfold table_of, lookup_proc. destruct (processes k !! q) as [loc|]; [|done]. simpl. rewrite lookup_vm_map.
  destruct (procs k !! loc) as [p|]; [|done]. simpl. by destruct (proc_vm (inner p)).
Qed.

Lemma table_of_Some {PT Q} (k : Kernel PT Q) q loc p v :
  processes k !! q = Some loc → procs k !! loc = Some p → proc_vm (inner p) = Some v → table_of k q = Some (page_table v).
Proof. intros Hq Hp Hv. rewrite table_of_vm, Hq. simpl. by rewrite lookup_vm_map, Hp; simpl; rewrite Hv. Qed.

Section Isolated.
Context `{Profile} `{!X86_64} `{!X86_64_Laws _} {PT Q : Type} `{!Mapper PT} `{!ArrayQueue Q}.
Context (mapping : PT → Z → Z → option (Z * Z)) `{!Mapper_Laws PT mapping}.
Context (own : PT → Z → Prop) (entry : PT → Z → Z → option Z) (huge : PT → Z → Z → Prop)
  `{!Mapper_Tables PT mapping own entry huge}.
Context (PHYSICAL_OFFSET : option Z) (cpuid : nat) (selector : Z * Z) (kroot : Z) (shared : Z → option Z).
(** What is watched. *)
Context (WA : nat → Prop) (W : Z → Prop) (old : Z → Z → option (Z * Z)) (old_mem : Z → Z).
(** The kernel's page table and its process. *)
Context (ka kl : nat).
Hypothesis kstack_shared : is_Some (shared KSTACK_DEF_BOT).
#[local] Abbreviation St := (Kernel PT Q).
#[local] Abbreviation wf := (wf cpuid).
#[local] Abbreviation running := (running cpuid).
#[local] Abbreviation mem_ok := (mem_ok mapping own entry huge PHYSICAL_OFFSET kroot shared WA W old old_mem ka).
#[local] Abbreviation vm_ok := (vm_ok ka).

Definition vm_fine (loc : nat) (v : ProcessVm) : Prop :=
  if decide (loc = kl) then page_table v = ka ∧ kstack_ok (stack v) else vm_ok v.

Record isolated (k : St) : Prop := {
  is_mem : mem_ok (kmem k);
  is_kernel : processes k !! KERNEL_PID = Some kl;
  is_vms loc v n : memories k !! loc = Some (Some v, n) → vm_fine loc v;
  is_children loc o n : memories k !! loc = Some (o, n) → Z.of_nat n < NEXT_PID k;
  is_apps l app : app_list k = Some l → app ∈ l → Forall linked (program_iter (app_elf app));
}.

Lemma calm_isolated k k' : calm cpuid k k' → isolated k → isolated k'.
Proof. intros (Hm & Hp & _ & Hn & Ha & Hk) []. split; rewrite ?Hk, ?Hp, ?Hm, ?Hn, ?Ha; done. Qed.

(** Only CR3 has changed. *)
Lemma mem_ok_cr3 (m m' : Mem PT) :
  machine m' = machine m → arcs m' = arcs m → ends m' = ends m → mem_ok m → mem_ok m'.
Proof. intros Hm Ha He []. split; unfold live; rewrite ?Hm, ?Ha, ?He; done. Qed.

Lemma switch_next_same ctx (k : St) r (k' : St) :
  wf k → switch_next cpuid ctx k = Done (r, k') →
  memories k' = memories k ∧ processes k' = processes k ∧ NEXT_PID k' = NEXT_PID k ∧ app_list k' = app_list k ∧
  machine (kmem k') = machine (kmem k) ∧ arcs (kmem k') = arcs (kmem k) ∧ ends (kmem k') = ends (kmem k).
Proof.
  intros Hwf (cur & _ & Hs)%switch_next_Done; [|done].
  destruct (first_ready k (ready_queue k)) as [[next rest]|]; [|by destruct Hs as [_ ->]].
  destruct (decide _); [by destruct Hs as [_ ->]|].
  destruct Hs as (loc & p & v & reg & n' & _ & Hp & _ & _ & _ & _ & ->). split_and!; [|done..].
  unfold memories, started. simpl. rewrite fmap_insert. apply insert_id. by rewrite lookup_fmap, Hp.
Qed.

Lemma rest_isolated k k' : rest cpuid k k' → isolated k → isolated k'.
Proof.
  intros [Hc|ctx r Hwf Hs]; [by apply calm_isolated|].
  apply switch_next_same in Hs as (Hm & Hp & Hn & Ha & Hmem); [|done].
  intros []. split; rewrite ?Hp, ?Hm, ?Hn, ?Ha; try done. by eapply mem_ok_cr3; [apply Hmem..|].
Qed.

Lemma quiet_isolated k k' : quiet cpuid k k' → isolated k → isolated k'.
Proof. induction 1 as [|k k1 k2 Hr _ IH]; intros Hi; [done|]. by eapply IH, rest_isolated. Qed.

Lemma quiet_memories (k k' : St) : quiet cpuid k k' → memories k' = memories k ∧ processes k' = processes k.
Proof.
  induction 1 as [|k k1 k2 Hr _ IH]; [done|].
  assert (memories k1 = memories k ∧ processes k1 = processes k) as [Hm Hp].
  { destruct Hr as [Hc|ctx r Hwf Hs]; [split; apply Hc|by apply switch_next_same in Hs as (? & ? & _)]. }
  by rewrite <- Hm, <- Hp.
Qed.

Lemma quiet_spread (k k' : St) : quiet cpuid k k' → spread k' → spread k.
Proof. intros [Hm%memories_vm_map Hp]%quiet_memories. unfold spread. by rewrite Hm, Hp. Qed.

Lemma memories_lookup (k : St) loc p : procs k !! loc = Some p → memories k !! loc = Some (memory_of p).
Proof. intros Hp. unfold memories. by rewrite lookup_fmap, Hp. Qed.

Lemma proc_fine k loc p v : isolated k → procs k !! loc = Some p → proc_vm (inner p) = Some v → vm_fine loc v.
Proof. intros Hi Hp Hv. apply (is_vms _ Hi loc v (length (children (inner p)))). by rewrite (memories_lookup _ _ _ Hp); unfold memory_of; rewrite Hv. Qed.

(** The running process is the kernel's when its place is. *)
Lemma user_loc k q loc : wf k → isolated k → processes k !! q = Some loc → q ≠ KERNEL_PID → loc ≠ kl.
Proof.
  intros Hwf Hi Hq Hne ->. destruct (wf_table _ _ Hwf q kl Hq) as (p & Hp & Hpid & _).
  destruct (wf_table _ _ Hwf KERNEL_PID kl (is_kernel _ Hi)) as (p' & Hp' & Hpid' & _). congruence.
Qed.

Lemma user_fine k q loc p v :
  wf k → isolated k → processes k !! q = Some loc → procs k !! loc = Some p → proc_vm (inner p) = Some v →
  q ≠ KERNEL_PID → vm_ok v.
Proof.
  intros Hwf Hi Hq Hp Hv Hne. pose proof (proc_fine _ _ _ _ Hi Hp Hv) as Hf. unfold vm_fine in Hf.
  rewrite decide_False in Hf; [done|by eapply user_loc].
Qed.

(** ** The effects *)

(** Another memory, and [o] for the process at [loc]. *)
Lemma isolated_replace k m loc p p' :
  isolated k → procs k !! loc = Some p → length (children (inner p')) = length (children (inner p)) → mem_ok m →
  (∀ v, proc_vm (inner p') = Some v → vm_fine loc v) → isolated (set_procs (<[loc := p']> (procs k)) (set_kmem m k)).
Proof.
  intros Hi Hp Hc Hm Hv. split; simpl; [done|apply Hi| | |apply (is_apps _ Hi)].
  - intros l v n. unfold memories. simpl. rewrite fmap_insert. destruct (decide (l = loc)) as [->|Hne].
    + rewrite lookup_insert_eq. intros [= Hx _]. by apply Hv.
    + rewrite lookup_insert_ne by done. apply (is_vms _ Hi).
  - intros l o n. unfold memories. simpl. rewrite fmap_insert. destruct (decide (l = loc)) as [->|Hne].
    + rewrite lookup_insert_eq. intros [= _ <-]. rewrite Hc. apply (is_children _ Hi loc (proc_vm (inner p))). by apply memories_lookup.
    + rewrite lookup_insert_ne by done. apply (is_children _ Hi).
Qed.

(** A new process. *)
Lemma isolated_add k m dt loc p v :
  wf k → isolated k → procs k !! loc = None → Process.pid p = NEXT_PID k → children (inner p) = [] →
  proc_vm (inner p) = Some v → mem_ok m → vm_ok v → isolated (add_process loc p (set_data dt (set_kmem m k))).
Proof.
  intros Hwf Hi Hf Hpid Hc Hpv Hm Hv.
  destruct (wf_table _ _ Hwf KERNEL_PID kl (is_kernel _ Hi)) as (pk & Hpk & Hpidk & _).
  destruct (wf_pids _ _ Hwf KERNEL_PID) as [_ Hlt]; [by rewrite (is_kernel _ Hi)|].
  split; simpl; [done| | | |apply (is_apps _ Hi)].
  - rewrite lookup_insert_ne by lia. apply Hi.
  - intros l w n. unfold memories. simpl. rewrite fmap_insert. destruct (decide (l = loc)) as [->|Hne].
    + rewrite lookup_insert_eq. unfold memory_of. rewrite Hpv. intros [= <- _]. unfold vm_fine.
      by rewrite decide_False by (intros ->; congruence).
    + rewrite lookup_insert_ne by done. apply (is_vms _ Hi).
  - intros l o n. unfold memories. simpl. rewrite fmap_insert. destruct (decide (l = loc)) as [->|Hne].
    + rewrite lookup_insert_eq. unfold memory_of. rewrite Hc. intros [= _ <-]. simpl. unfold KERNEL_PID in *. lia.
    + rewrite lookup_insert_ne by done. intros Hx%(is_children _ Hi). lia.
Qed.

(** Keeping away from what is watched: the running process has another page table, which
    is in CR3, and no process on a watched one ends. *)
Record apart (k k' : St) : Prop := {
  ap_watchable : watchable WA W (kmem k);
  ap_running q a : running k = Some q → table_of k q = Some a → ¬ WA a;
  ap_loaded : watching W (live (kmem k)) → ∃ q a n, running k = Some q ∧ table_of k q = Some a ∧
    arcs (kmem k) !! a = Some (cr3 (kmem k), n);
  ap_spared q a : table_of k q = Some a → WA a → is_Some (table_of k' q);
}.

Lemma same_table (k k' : St) q : memories k' = memories k → processes k' = processes k → table_of k' q = table_of k q.
Proof. intros Hm%memories_vm_map Hp. by rewrite !table_of_vm, Hm, Hp. Qed.

Lemma calm_table (k k' : St) q : calm cpuid k k' → table_of k' q = table_of k q.
Proof. intros (Hm & Hp & _). by apply same_table. Qed.

Lemma quiet_table (k k' : St) q : quiet cpuid k k' → table_of k' q = table_of k q.
Proof. intros [Hm Hp]%quiet_memories. by apply same_table. Qed.

Lemma apart_calm k k1 k' : calm cpuid k k1 → apart k k' → apart k1 k'.
Proof.
  intros Hc. pose proof (λ q, calm_table _ _ q Hc) as Ht. destruct Hc as (_ & _ & Hr & _ & _ & Hk). intros [].
  split; rewrite ?Hr, ?Hk; try setoid_rewrite Ht; done.
Qed.

Lemma apart_quiet k k2 k' : quiet cpuid k2 k' → apart k k' → apart k k2.
Proof.
  intros Hq. pose proof (λ q, quiet_table _ _ q Hq) as Ht. intros []. split; try done. intros q a Hqa HW. rewrite <- Ht. eauto.
Qed.

(** System calls write where the page table in CR3 maps user space. *)
Definition polite (B : Mem PT → Z → Prop) : Prop :=
  ∀ m a, B m a → ∃ va, user_page (Page_containing_address va) ∧ phys_in PHYSICAL_OFFSET m va = Some a.
Context (B : Mem PT → Z → Prop).
Hypothesis B_polite : (∃ w, W w ∧ aligned w) → polite B.

Lemma write_ok k k' m a r p x :
  apart k k' → mem_ok m → same_refs (kmem k) m → B m a → live m r → W r →
  user_page p → mapping (tables (machine m)) r p = Some x → ¬ inside (default 0 PHYSICAL_OFFSET) x a.
Proof.
  intros Hap Hm (Ha & _ & Hc) HB Hr HW Hp Hx Hin. pose proof (mem_iso Hm) as Hiso.
  destruct (iso_root Hiso r Hr) as ([Hra _] & _).
  destruct (ap_loaded _ _ Hap) as (q & b & n & Hq & Hb & Hcr); [exists r; split; [by unfold live in *; rewrite <- Ha|done]|].
  rewrite <- Ha, <- Hc in Hcr. pose proof (acting_arc Hm Hcr (ap_running _ _ Hap _ _ Hq Hb)) as [HR HnW].
  destruct (B_polite (ex_intro _ r (conj HW Hra)) _ _ HB) as (va & Hva & Hpa).
  apply bind_Some in Hpa as (o & Ho & (f & Hf & [= <-])%bind_Some). unfold inside in Hin. rewrite Ho in *. simpl in *.
  rewrite translate_page_eq in Hf. apply fmap_Some in Hf as (y & Hy & ->).
  destruct (iso_frame Hiso r p x Hr Hp Hx) as ([Hxa _] & _).
  destruct (iso_frame Hiso _ _ y HR Hva Hy) as ([Hya _] & _).
  apply HnW. destruct (iso_once Hiso r p x _ _ y Hr HR Hp Hva Hx Hy) as [<- _]; [|done].
  unfold aligned, PAGE in *. Z.div_mod_to_equations. lia.
Qed.

Lemma mem_step_ok k k' m m' :
  wf k → isolated k → running k ≠ Some KERNEL_PID → apart k k' →
  mem_step PHYSICAL_OFFSET cpuid B k m m' → same_refs (kmem k) m → mem_ok m → mem_ok m'.
Proof.
  intros Hwf Hi Hr Hap [m0 f Hf|q loc p a m0 r m1 Hq Hl Hp Hb] Hsr Hm.
  - apply (mem_ok_machine mapping own entry huge PHYSICAL_OFFSET kroot shared WA W old old_mem ka m0 _ _ Hm); [|apply Hm].
    eapply (iso_mem mapping own entry huge kroot shared W _ old old_mem _ (machine m0)); [done..| |apply Hm].
    intros r p x a HR HW Hp Hx Hin. simpl. destruct (decide (f a = Elf.mem (machine m0) a)) as [|Hne]; [done|].
    destruct (write_ok k k' m0 a r p x Hap Hm Hsr); auto.
  - unfold Inner.brk, Inner.vm in Hb. apply bind_Done in Hb as (v & m2 & [Hv <-]%unwrap_Done & Hb).
    apply bind_Done in Hb as (x & m2 & Hx & Hb). assert (m2 = m0) as -> by (destruct a; inv_done; done).
    apply bind_Done in Hb as (y & m2 & Hbr & Hb). apply ret_Done in Hb as [_ <-].
    apply (brk_ok mapping own entry huge PHYSICAL_OFFSET kroot shared WA W old old_mem ka v x m0 y m2); [done| | |done].
    + eapply user_fine; [done|done|exact Hl|done|done|congruence].
    + by eapply (ap_running _ _ Hap), table_of_Some.
Qed.

Lemma silent_isolated k k'' k' :
  wf k → isolated k → running k ≠ Some KERNEL_PID → apart k k'' → silent PHYSICAL_OFFSET cpuid B k k' → isolated k'.
Proof.
  intros Hwf Hi Hr Hap (m & d & -> & Hs).
  assert (Hind : ∀ m0, rtc (mem_step PHYSICAL_OFFSET cpuid B k) m0 m → same_refs (kmem k) m0 → mem_ok m0 → mem_ok m).
  { intros m0 Hr0. induction Hr0 as [|m1 m2 m3 Hs1 _ IH]; intros Hsr Hm; [done|].
    apply IH; [done|etrans; [exact Hsr|by eapply mem_step_refs]|by eapply mem_step_ok]. }
  apply Hind in Hs; [|done|apply Hi].
  destruct Hi. by split.
Qed.

Lemma spawn_isolated elf nm par od k q k' :
  wf k → NEXT_PID k + 1 < 2 ^ 16 → isolated k → watchable WA W (kmem k) → Forall linked (program_iter elf) →
  spawn_elf PHYSICAL_OFFSET selector elf nm par od k = Done (q, k') → isolated k'.
Proof.
  intros Hwf Hn Hi Hwb Hl Hs. pose proof (spawn_elf_Done _ cpuid _ _ _ _ _ _ _ _ Hwf Hn Hs)
    as (i & m & dt & -> & _ & _ & Hc & _ & _ & _ & -> & (loc & kp & v0 & a & m1 & v1 & m2 & v & Hkp & Hv0 & Hcl & Hnew & Hld & Hv & Hk) & _).
  rewrite (is_kernel _ Hi) in Hk. injection Hk as <-. pose proof (proc_fine _ _ _ _ Hi Hkp Hv0) as Hf.
  unfold vm_fine in Hf. rewrite decide_True in Hf by done. destruct Hf as [Hpt _]. rewrite Hpt in Hcl.
  apply (clone_ok mapping own entry huge PHYSICAL_OFFSET kroot shared WA W old old_mem ka) in Hcl as (Hm1 & Hne & HnW); [|apply Hi|done].
  apply (vm_new_ok mapping own entry huge PHYSICAL_OFFSET kroot shared WA W old old_mem ka) in Hnew as (Hm2 & _ & Hpt1 & Hb & _); [|done].
  apply (load_elf_ok mapping own entry huge PHYSICAL_OFFSET kroot shared WA W old old_mem ka) in Hld as [Hm Hok]; [|done|congruence|congruence|done..].
  eapply isolated_add; try done. apply not_elem_of_dom, is_fresh.
Qed.

Lemma kill_isolated q ret k u k' :
  wf k → isolated k → q ≠ KERNEL_PID → apart k k' → manager_kill PHYSICAL_OFFSET q ret k = Done (u, k') → isolated k'.
Proof.
  intros Hwf Hi Hne Hap Hk. unfold manager_kill, get_proc in Hk. apply bind_Done in Hk as (o & k1 & Hg & Hk).
  apply gets_Done in Hg as [<- <-]. destruct (processes k !! q) as [loc|] eqn:Hq; [|by inv_done].
  apply bind_Done in Hk as (u' & k1 & Hd & Hk). apply kill_Done in Hd as (p & t & Hp & -> & Hd).
  unfold take_waiters in Hk. apply bind_Done in Hk as (w & k2 & Hw & Hk). injection Hw as <- <-.
  set (i := mkInner _ _ _ _ _ _ _ _ _) in *.
  assert (Hset : set_inner loc i (set_kmem t k) = set_procs (<[loc := mkProcess (Process.pid p) i]> (procs k)) (set_kmem t k))
    by (unfold set_inner; simpl; by rewrite Hp).
  rewrite Hset in Hk. set (k1 := set_procs _ _) in *.
  assert (Hcalm : calm cpuid (set_waits (delete q (Process.wait_queue k1)) k1) k').
  { destruct (Process.wait_queue k1 !! q) as [pids|]; [by eapply calm_wake_all|by inv_done]. }
  assert (Hm : mem_ok t).
  { destruct (proc_vm (inner p)) as [v|] eqn:Hv; [|by subst t; apply Hi].
    apply (drop_ok mapping own entry huge PHYSICAL_OFFSET kroot shared WA W old old_mem ka v (kmem k) () t); [apply Hi|by eapply user_fine| |done].
    intros HW. destruct (ap_spared _ _ Hap q (page_table v)) as [w Hw]; [by eapply table_of_Some|done|].
    rewrite (calm_table _ _ _ Hcalm), table_of_vm in Hw. simpl in Hw. rewrite Hq in Hw. simpl in Hw.
    by rewrite lookup_vm_map in Hw; simpl in Hw; rewrite lookup_insert_eq in Hw. }
  assert (Hi1 : isolated k1) by (by eapply isolated_replace). eapply calm_isolated; [exact Hcalm|by destruct Hi1].
Qed.

(** A child with memory, and one more child for the process at [loc]. *)
Lemma isolated_forked k k' loc child v cv n :
  wf k → isolated k → memories k !! loc = Some (Some v, n) → child ≠ kl → mem_ok (kmem k') → vm_ok cv →
  memories k' = <[child := (Some cv, 0%nat)]> (<[loc := (Some v, S n)]> (memories k)) →
  processes k' = <[NEXT_PID k := child]> (processes k) → NEXT_PID k' = NEXT_PID k + 1 → app_list k' = app_list k →
  isolated k'.
Proof.
  intros Hwf Hi Hl Hc Hm Hcv Hm' Hps Hnp Hap. pose proof (is_children _ Hi _ _ _ Hl) as Hn.
  destruct (wf_pids _ _ Hwf KERNEL_PID) as [_ Hlt]; [by rewrite (is_kernel _ Hi)|].
  split; rewrite ?Hps, ?Hm', ?Hnp, ?Hap; [done| | | |apply (is_apps _ Hi)].
  - rewrite lookup_insert_ne by lia. apply Hi.
  - intros l w c. destruct (decide (l = child)) as [->|Hlc]; [rewrite lookup_insert_eq|rewrite lookup_insert_ne by done].
    { intros [= <- _]. unfold vm_fine. by rewrite decide_False. }
    destruct (decide (l = loc)) as [->|Hll]; [rewrite lookup_insert_eq|rewrite lookup_insert_ne by done; apply (is_vms _ Hi)].
    intros [= <- _]. by apply (is_vms _ Hi _ _ _ Hl).
  - intros l o c. destruct (decide (l = child)) as [->|Hlc]; [rewrite lookup_insert_eq|rewrite lookup_insert_ne by done].
    { intros [= _ <-]. unfold KERNEL_PID in *. lia. }
    destruct (decide (l = loc)) as [->|Hll]; [rewrite lookup_insert_eq|rewrite lookup_insert_ne by done].
    + intros [= _ <-]. lia.
    + intros Hx%(is_children _ Hi). lia.
Qed.

Lemma fork_isolated k u k' :
  wf k → NEXT_PID k + 1 < 2 ^ 16 → isolated k → running k ≠ Some KERNEL_PID → apart k k' → spread k' →
  manager_fork PHYSICAL_OFFSET cpuid k = Done (u, k') → isolated k'.
Proof.
  intros Hwf Hn Hi Hr Hap Hsp Hf. apply manager_fork_Done in Hf as (q & loc & p & ci & m & Hq & Hl & Hp & Hf & ->); [|done..].
  set (child := fresh (dom (procs k))) in *.
  assert (Hfree : procs k !! child = None) by apply not_elem_of_dom, is_fresh.
  assert (Hne : loc ≠ child) by congruence.
  destruct (wf_table _ _ Hwf q loc Hl) as (p' & Hp' & _ & Hiw). assert (p' = p) as -> by congruence.
  apply inner_fork_Done in Hf as (_ & _ & _ & _ & Hcc & _ & v & cv & off & sp & m1 & Hv & Hcv & Hf & Hoff & _); [|done].
  assert (Hok : vm_ok v) by (eapply user_fine; [done|done|exact Hl|done|done|congruence]).
  pose proof (memories_lookup _ _ _ Hp) as Hmem.
  assert (Hch : Z.of_nat (length (children (inner p))) < NEXT_PID k) by (eapply (is_children _ Hi); exact Hmem).
  destruct (wf_table _ _ Hwf KERNEL_PID kl (is_kernel _ Hi)) as (pk & Hpk & Hpidk & _).
  assert (Hckl : child ≠ kl) by congruence.
  destruct (wf_pids _ _ Hwf KERNEL_PID) as [_ Hlt]; [by rewrite (is_kernel _ Hi)|].
  set (fp := forked_parent _ _ _) in *. set (k' := add_process _ _ _) in *.
  assert (Hk' : procs k' = <[child := mkProcess (NEXT_PID k) ci]> (<[loc := mkProcess (Process.pid p) fp]> (procs k)))
    by (unfold k', set_inner; simpl; by rewrite Hp).
  assert (Hm' : memories k' = <[child := (Some cv, 0%nat)]> (<[loc := (Some v, S (length (children (inner p))))]> (memories k))).
  { unfold memories. rewrite Hk', !fmap_insert. unfold memory_of, fp, forked_parent. simpl.
    rewrite Hcv, Hcc, Hv, length_app, Nat.add_1_r. done. }
  assert (Hrest : processes k' = <[NEXT_PID k := child]> (processes k) ∧ NEXT_PID k' = NEXT_PID k + 1 ∧ app_list k' = app_list k)
    by (unfold k', set_inner; simpl; by rewrite Hp).
  destruct Hrest as (Hps & Hnp & Hapl).
  assert (Hvk : table_of k q = Some (page_table v)) by (by eapply table_of_Some).
  apply (fork_ok mapping own entry huge PHYSICAL_OFFSET kroot shared WA W old old_mem ka) in Hf as [Hm1 Hcok]; [|apply Hi|done|by apply (ap_running _ _ Hap q)| |lia|]; cycle 1.
  { intros Hw reg n Har. destruct (ap_loaded _ _ Hap Hw) as (q' & a' & n' & ? & ? & ?). congruence. }
  { apply (Hsp child); [by rewrite vm_map_memories, Hm', lookup_insert_eq|].
    rewrite Hps, lookup_insert_ne, (is_kernel _ Hi) by lia. congruence. }
  apply on_machine_Done in Hoff as (t & Hoff & ->).
  assert (Ht : t = machine m1).
  { unfold StackOps.stack_offset in Hoff. apply bind_Done in Hoff as (x & t1 & [-> _]%word_op_Done & Hoff).
    by apply bind_Done in Hoff as (? & ? & [-> _]%debug_assert_Done & [_ <-]%ret_Done). }
  assert (mem_ok (kmem k')).
  { assert (Hkm : kmem k' = mkMem t (arcs m1) (ends m1) (cr3 m1)) by (unfold k', set_inner; simpl; by rewrite Hp).
    rewrite Hkm, Ht. by destruct m1. }
  eapply (isolated_forked k k' loc child v cv); try done. by rewrite Hmem; unfold memory_of; rewrite Hv.
Qed.

Lemma fault_isolated a e k r k'' k' :
  wf k → isolated k → apart k k'' → canonical a → handle_page_fault PHYSICAL_OFFSET cpuid a e k = Done (r, k') → isolated k'.
Proof.
  intros Hwf Hi Hap Ha Hs. unfold handle_page_fault, manager_handle_page_fault in Hs.
  destruct (negb _); [|by inv_done].
  apply bind_Done in Hs as (loc & k1 & Hc & Hs). apply current_Done in Hc as (-> & q & Hr & Hq).
  apply bind_Done in Hs as (p & k1 & Hp & Hs). apply read_proc_Done in Hp as [-> Hp].
  apply bind_Done in Hs as (cur & k1 & Hg & Hs). apply gets_Done in Hg as [<- <-].
  apply bind_Done in Hs as ([b i] & k1 & Hf & Hs). apply on_mem_eq in Hf as (_ & t & Hf & ->).
  apply bind_Done in Hs as (u & k1 & Hw & Hs). unfold write_proc in Hw. apply modify_Done in Hw as <-.
  apply ret_Done in Hs as [_ <-]. unfold Inner.handle_page_fault in Hf.
  apply bind_Done in Hf as (v & m1 & Hv & Hf). apply unwrap_Done in Hv as [Hv <-].
  apply bind_Done in Hf as ([b' v'] & m2 & Hf & Hx). apply ret_Done in Hx as [Hx <-]. injection Hx as _ <-.
  pose proof (proc_fine _ _ _ _ Hi Hp Hv) as Hfine.
  assert (HnW : ¬ WA (page_table v)) by (by eapply (ap_running _ _ Hap), table_of_Some).
  unfold Scheduler.running in Hr. rewrite Hr in Hf.
  assert (Hres : mem_ok m2 ∧ vm_fine loc v').
  { unfold vm_fine in *. destruct (decide (loc = kl)) as [->|Hne].
    - destruct (wf_table _ _ Hwf q kl Hq) as (p1 & Hp1 & Hpid1 & _).
      destruct (wf_table _ _ Hwf KERNEL_PID kl (is_kernel _ Hi)) as (p2 & Hp2 & Hpid2 & _).
      assert (q = KERNEL_PID) as -> by congruence. destruct Hfine as [Hpt Hst].
      apply (kfault_ok mapping own entry huge PHYSICAL_OFFSET kroot shared WA W old old_mem ka) in Hf as (? & ? & ?); [done|apply Hi|done|congruence|done..].
    - apply (fault_ok mapping own entry huge PHYSICAL_OFFSET kroot shared WA W old old_mem ka) in Hf as [? ?]; [done|apply Hi|done..|].
      intros ->. rewrite (is_kernel _ Hi) in Hq. congruence. }
  destruct Hres as [Hm Hv']. eapply (isolated_replace k m2 loc p); [done..|]. simpl. by intros w [= <-].
Qed.

Lemma effect_isolated (user : Prop) k k' :
  wf k → isolated k → (user → running k ≠ Some KERNEL_PID) → apart k k' → spread k' →
  effect PHYSICAL_OFFSET cpuid selector user B k k' → isolated k'.
Proof.
  intros Hwf Hi Hr Hap Hsp He. revert Hap Hsp.
  destruct He as [|k1 Hu Hs|l app ? ? ? ? ? Hl Hin Hn Hs|k1 Hu Hn Hs|? ? k1 Hu Hq Hs|? ? ? k1 Ha Hs]; intros Hap Hsp.
  - done.
  - eapply silent_isolated; [done|done|by apply Hr|exact Hap|exact Hs].
  - eapply spawn_isolated; [done..|apply Hap| |exact Hs]. by eapply is_apps.
  - eapply fork_isolated; [done|done|done|by apply Hr|done|done|exact Hs].
  - eapply kill_isolated; [done|done|by apply Hq, Hr|done|exact Hs].
  - by eapply fault_isolated.
Qed.

Lemma does_isolated (user : Prop) k k' :
  isolated k → (user → running k ≠ Some KERNEL_PID) → apart k k' → spread k' →
  does PHYSICAL_OFFSET cpuid selector user B k k' → isolated k'.
Proof.
  intros Hi Hr Hap Hsp (k1 & k2 & Hc & Hwf & He & Hq). eapply quiet_isolated; [exact Hq|].
  eapply effect_isolated; [exact Hwf|by eapply calm_isolated| | | |exact He].
  - destruct Hc as (_ & _ & -> & _). exact Hr.
  - eapply apart_quiet; [exact Hq|]. by eapply apart_calm.
  - by eapply quiet_spread.
Qed.

End Isolated.

#[global] Arguments is_mem {_ _ _ _ _ _ _ _ _ _ _ _ _ _ _ _ _} _.

(** ** Reachable states *)

Section Reachable.
Context `{Profile} `{!X86_64} `{!X86_64_Laws _} {PT Q UA : Type} `{!Mapper PT} `{!ArrayQueue Q} `{!UserAllocator UA}.
Context (mapping : PT → Z → Z → option (Z * Z)) `{!Mapper_Laws PT mapping}.
Context (own : PT → Z → Prop) (entry : PT → Z → Z → option Z) (huge : PT → Z → Z → Prop)
  `{!Mapper_Tables PT mapping own entry huge}.
Context (PHYSICAL_OFFSET : option Z) (cpuid : nat) (selector : Z * Z) (clock_nanos : Z).
Context (Layout_of : list Z → Z * Z).
#[local] Abbreviation St := (Kernel PT Q * UA)%type.

(** The memory the boot loader hands over: the frames it leaves are not in use; the
    page table in CR3 maps no user page; each table it uses outside of user space
    maps some page there, of 4 KiB or larger as in the direct map, and there is one
    for the kernel's stack.  The
    applications are linked to addresses between user space's first and the heap. *)
Record booted (k : Kernel PT Q) : Prop := {
  b_pristine : pristine k;
  b_ends : ends (kmem k) = ∅;
  b_valid : valid_frames (falloc (machine (kmem k)));
  b_nodup : NoDup (free (falloc (machine (kmem k))));
  b_aligned x : x ∈ free (falloc (machine (kmem k))) → aligned x;
  b_own x : own (tables (machine (kmem k))) x → aligned x ∧ x ∉ free (falloc (machine (kmem k)));
  b_root : aligned (addr (cr3 (kmem k))) ∧ addr (cr3 (kmem k)) ∉ free (falloc (machine (kmem k))) ∧
    ¬ own (tables (machine (kmem k))) (addr (cr3 (kmem k)));
  b_entry p t : entry (tables (machine (kmem k))) (addr (cr3 (kmem k))) p = Some t →
    own (tables (machine (kmem k))) t ∧ ¬ user_page p;
  b_used p t : entry (tables (machine (kmem k))) (addr (cr3 (kmem k))) p = Some t →
    ∃ q, entry (tables (machine (kmem k))) (addr (cr3 (kmem k))) q = Some t ∧
      (is_Some (mapping (tables (machine (kmem k))) (addr (cr3 (kmem k))) q) ∨ huge (tables (machine (kmem k))) (addr (cr3 (kmem k))) q);
  b_kstack : is_Some (entry (tables (machine (kmem k))) (addr (cr3 (kmem k))) KSTACK_DEF_BOT);
  b_apps l app : app_list k = Some l → app ∈ l → Forall linked (program_iter (app_elf app));
}.

(** The direct map does not reach the end of the address space. *)
Definition fits (k : Kernel PT Q) : Prop :=
  ∀ x, x ∈ free (falloc (machine (kmem k))) ∨ own (tables (machine (kmem k))) x ∨ x = addr (cr3 (kmem k)) →
    0 ≤ x + default 0 PHYSICAL_OFFSET ∧ x + default 0 PHYSICAL_OFFSET + PAGE ≤ 2 ^ 64.

(** No address space in use is watched; with some [W] all frames fit. *)
Context (W : Z → Prop) (old : Z → Z → option (Z * Z)) (old_mem : Z → Z).
Hypothesis W_unaligned : ∀ w, W w → ¬ aligned w.

Lemma booted_iso (k : Kernel PT Q) :
  booted k → ((∃ w, W w) → fits k) →
  iso mapping own entry huge (addr (cr3 (kmem k))) (entry (tables (machine (kmem k))) (addr (cr3 (kmem k))))
    W (default 0 PHYSICAL_OFFSET) old old_mem (λ r, r = addr (cr3 (kmem k))) (machine (kmem k)).
Proof.
  intros [] Hfit. set (m := machine (kmem k)) in *. set (kroot := addr (cr3 (kmem k))) in *.
  assert (Hno : ∀ p, user_page p → mapping (tables m) kroot p = None).
  { intros p Hp. destruct (mapping (tables m) kroot p) eqn:E; [|done].
    destruct (mapping_entry (mapping := mapping) (tables m) kroot p) as [t Ht]; [by rewrite E|].
    by destruct (b_entry0 p t Ht). }
  split; try done.
  - intros x Hx. split; [by apply b_aligned0|]. intros Hw. apply Hfit; [done|by left].
  - intros x Hx. destruct (b_own0 x Hx). split; [|done]. split; [done|]. intros Hw. apply Hfit; [done|by right; left].
  - intros r ->. destruct b_root0 as (? & ? & ?). split_and!; [|done..]. split; [done|]. intros Hw. apply Hfit; [done|by right; right].
  - intros r p x -> Hp Hx. by rewrite Hno in Hx.
  - intros r p x r' p' y -> _ Hp _ Hx. by rewrite Hno in Hx.
  - intros r p t -> Ht. by apply (b_entry0 p).
  - intros r p r' q t -> -> Hne. done.
  - intros p Hp. destruct (entry (tables m) kroot p) eqn:E; [|done]. by destruct (b_entry0 _ _ E).
  - by intros r q ->.
  - intros q t _ Ht. destruct (b_used0 q t Ht) as (q' & Hq' & Hm). exists q'. split_and!; try done. by apply (b_entry0 q' t).
  - intros r p -> HW. by apply W_unaligned in HW as []; destruct b_root0.
  - intros r p x a -> HW. by apply W_unaligned in HW as []; destruct b_root0.
Qed.

#[local] Abbreviation isolated_from k0 := (isolated (Q := Q) mapping own entry huge PHYSICAL_OFFSET (addr (cr3 (kmem k0)))
  (entry (tables (machine (kmem k0))) (addr (cr3 (kmem k0)))) (λ _, False) W old old_mem).

(** Its page table is the only one. *)
Lemma first_table (k0 : Kernel PT Q) a m1 :
  booted k0 → ((∃ w, W w) → fits k0) → Arc_new (cr3 (kmem k0)) (kmem k0) = Done (a, m1) →
  mem_ok mapping own entry huge PHYSICAL_OFFSET (addr (cr3 (kmem k0))) (entry (tables (machine (kmem k0))) (addr (cr3 (kmem k0))))
    (λ _, False) W old old_mem a m1.
Proof.
  intros Hb Hfit Hnew. destruct (b_pristine _ Hb) as (_ & _ & Ha). pose proof (booted_iso _ Hb Hfit) as Hiso.
  injection Hnew as <- <-. rewrite Ha. set (ka := fresh _).
  assert (Harc : ∀ b rb nb, <[ka := (cr3 (kmem k0), 1%nat)]> (∅ : gmap nat (Cr3RegValue * nat)) !! b = Some (rb, nb) →
    b = ka ∧ rb = cr3 (kmem k0)).
  { intros b rb nb [<- [= <- _]]%lookup_singleton_Some. done. }
  split; simpl.
  - eapply iso_ext; [|exact Hiso]. intros r. unfold live. simpl. split.
    + intros ->. exists ka, (cr3 (kmem k0)), 1%nat. by rewrite lookup_insert_eq.
    + by intros (b & rb & nb & [_ ->]%Harc & <-).
  - by intros b c rb nb rc nc [-> _]%Harc [-> _]%Harc.
  - exists (cr3 (kmem k0)), 1%nat. by rewrite lookup_insert_eq.
  - intros c e. by rewrite (b_ends _ Hb), lookup_empty.
  - intros b rb nb [_ ->]%Harc. split; [done|]. intros HW. by apply W_unaligned in HW as []; destruct (b_root _ Hb).
Qed.

Lemma init_isolated pages (k0 : Kernel PT Q) u k :
  booted k0 → ((∃ w, W w) → fits k0) → Manager.init cpuid pages k0 = Done (u, k) → ∃ ka kl, isolated_from k0 ka kl k.
Proof.
  intros Hb Hfit Hs. destruct (b_pristine _ Hb) as (Hn & Hps & _).
  destruct (init_Done _ _ _ _ _ Hn Hs) as (a & m1 & v & m2 & v2 & loc & i & Hnew & Hv & Hpt2 & _ & Hst2 &
    Hvm & Hch & _ & _ & _ & Hm & Hnp & Hpk & Hpr & _ & Hap & _).
  pose proof (first_table _ _ _ Hb Hfit Hnew) as Hm1.
  destruct (vm_new_ok mapping own entry huge _ _ _ _ _ _ _ a _ _ _ _ Hm1 Hv) as (Hm2 & _ & Hpt & _ & _).
  assert (Hmem : memories k = {[ loc := (Some v2, 0%nat) ]}).
  { unfold memories. rewrite Hpk, Hps, fmap_insert, fmap_empty. unfold memory_of. simpl. by rewrite Hvm, Hch. }
  exists a, loc. split; rewrite ?Hpr, ?Hmem, ?Hnp, ?Hap, ?Hm.
  - exact Hm2.
  - by rewrite lookup_singleton_eq.
  - intros l w n [<- [= <- _]]%lookup_singleton_Some. unfold vm_fine. rewrite decide_True by done.
    rewrite Hpt2, Hpt, Hst2. split; [done|apply kstack_fine].
  - intros l o n [<- [= _ <-]]%lookup_singleton_Some. done.
  - apply (b_apps _ Hb).
Qed.

(** The runs in which the stacks stay in user space. *)
Definition spread_step (s s' : St) : Prop :=
  step PHYSICAL_OFFSET cpuid selector clock_nanos Layout_of s s' ∧ spread s'.1.

Lemma nothing_apart kr sh ka kl (k k' : Kernel PT Q) :
  isolated mapping own entry huge PHYSICAL_OFFSET kr sh (λ _, False) W old old_mem ka kl k →
  apart cpuid (λ _, False) W k k'.
Proof.
  intros Hi. split; try done.
  - split; [done|]. intros w HW Ha. by apply W_unaligned in HW.
  - by intros ? ? _ _ [].
  - intros (r & Hr & HW). apply W_unaligned in HW as []. pose proof (mem_iso (is_mem Hi)) as Hm.
    by destruct (iso_root Hm r Hr) as ([? _] & _).
Qed.

Lemma reachable_iso pages (k0 k : Kernel PT Q) u ua s :
  booted k0 → ((∃ w, W w) → fits k0) → Manager.init cpuid pages k0 = Done (u, k) → rtc spread_step (k, ua) s →
  wf cpuid s.1 ∧ ∃ ka kl, isolated_from k0 ka kl s.1.
Proof.
  intros Hb Hfit Hin Hs. pose proof (init_inv cpuid _ _ _ _ (proj1 (b_pristine _ Hb)) Hin) as Hi.
  destruct (init_isolated _ _ _ _ Hb Hfit Hin) as (ka & kl & Hiso).
  remember (k, ua) as s0 eqn:E. assert (Hi0 : inv cpuid s0.1 ∧ isolated_from k0 ka kl s0.1) by (by rewrite E).
  clear E Hin Hi Hiso. induction Hs as [s|s0 s1 s2 [Hstep Hsp] _ IH]; [by split; [apply Hi0|exists ka, kl; apply Hi0]|].
  apply IH. destruct Hi0 as [Hi Hiso]. split; [by eapply step_inv|].
  eapply (does_isolated mapping own entry huge PHYSICAL_OFFSET cpuid selector _ _ _ _ _ _ ka kl (b_kstack _ Hb)); [|exact Hiso|..].
  - intros (w & HW & Ha). by apply W_unaligned in HW.
  - intros Hr. exact Hr.
  - by eapply nothing_apart.
  - exact Hsp.
  - eapply step_does; [exact Hstep|apply Hi].
Qed.

End Reachable.

(** ** Bytes of user memory *)

Section Bytes.
Context `{Profile} `{!X86_64} `{!X86_64_Laws _} {PT Q UA : Type} `{!Mapper PT} `{!ArrayQueue Q} `{!UserAllocator UA}.
Context (mapping : PT → Z → Z → option (Z * Z)) `{!Mapper_Laws PT mapping}.
Context (own : PT → Z → Prop) (entry : PT → Z → Z → option Z) (huge : PT → Z → Z → Prop)
  `{!Mapper_Tables PT mapping own entry huge}.
Context (PHYSICAL_OFFSET : option Z) (cpuid : nat) (selector : Z * Z) (clock_nanos : Z).
Context (Layout_of : list Z → Z * Z).
#[local] Abbreviation spread_step := (spread_step (PT := PT) (Q := Q) (UA := UA) PHYSICAL_OFFSET cpuid selector clock_nanos Layout_of).

(** The physical address of a byte of a process in user space. *)
Definition user_byte (k : Kernel PT Q) (q a : Z) : option Z :=
  t ← table_of k q;
  r ← arcs (kmem k) !! t;
  f ← (if decide (user_page a) then translate_page (addr r.1) (a - a `mod` PAGE) (tables (machine (kmem k))) else None);
  Some (f + a `mod` PAGE).

Lemma user_byte_Some k q a x :
  user_byte k q a = Some x →
  ∃ t reg n f fl, table_of k q = Some t ∧ arcs (kmem k) !! t = Some (reg, n) ∧ user_page (a - a `mod` PAGE) ∧
    mapping (tables (machine (kmem k))) (addr reg) (a - a `mod` PAGE) = Some (f, fl) ∧ x = f + a `mod` PAGE.
Proof.
  intros (t & Ht & ([reg n] & Ha & (f & Hf & [= <-])%bind_Some)%bind_Some)%bind_Some. simpl in Hf.
  destruct (decide (user_page a)) as [Hu|]; [|done]. rewrite translate_page_eq in Hf.
  apply fmap_Some in Hf as ([f' fl] & Hf & ->). exists t, reg, n, f', fl. split_and!; try done.
  unfold user_page, LOW, STACK_MAX, PAGE in *. Z.div_mod_to_equations. lia.
Qed.

(** In a frame of its own. *)
Lemma isolated_bytes (k : Kernel PT Q) kroot shared WA W old old_mem ka kl i j a b x y :
  isolated mapping own entry huge PHYSICAL_OFFSET kroot shared WA W old old_mem ka kl k → user_byte k i a = Some x → user_byte k j b = Some y →
  (x - x `mod` PAGE ∉ free (falloc (machine (kmem k))) ∧ ¬ own (tables (machine (kmem k))) (x - x `mod` PAGE) ∧
   ∀ t reg n, arcs (kmem k) !! t = Some (reg, n) → addr reg ≠ x - x `mod` PAGE) ∧
  (x = y → table_of k i = table_of k j ∧ a = b).
Proof.
  intros [Hm _ _ _ _] (t & rt & nt & f & fl & Ht & Hat & Hpa & Hx & ->)%user_byte_Some
    (w & rw & nw & g & gl & Hw & Haw & Hpb & Hy & ->)%user_byte_Some.
  pose proof (mem_iso Hm) as Hi.
  destruct (iso_frame Hi _ _ _ (live_arc _ _ _ _ Hat) Hpa Hx) as ([Hfa _] & Hff & Hfo & HfR).
  destruct (iso_frame Hi _ _ _ (live_arc _ _ _ _ Haw) Hpb Hy) as ([Hga _] & _).
  simpl in *. unfold aligned, PAGE in *.
  assert (f + a `mod` 4096 - (f + a `mod` 4096) `mod` 4096 = f) as -> by (Z.div_mod_to_equations; lia). split.
  - split_and!; [done..|]. intros c reg n Hc Heq. apply HfR. rewrite <- Heq. by eapply live_arc.
  - intros Heq. assert (f = g ∧ a `mod` 4096 = b `mod` 4096) as [-> Hab] by (Z.div_mod_to_equations; lia).
    destruct (iso_once Hi _ _ _ _ _ _ (live_arc _ _ _ _ Hat) (live_arc _ _ _ _ Haw) Hpa Hpb Hx Hy eq_refl)
      as [Hr Hp].
    rewrite Ht, Hw. split; [f_equal; by eapply (mem_arcs Hm)|lia].
Qed.


End Bytes.

(** ** An example: two runs of one program *)

Section IsolationWitness.
#[local] Existing Instance x86_ref.
#[local] Existing Instance release.

(** Linked where [app.ld] links; its data is one word. *)
Definition vault_elf : ElfFile :=
  mkElfFile (λ a, default 0 (app_data !! Z.to_nat (a - 0x1000)))
    [mkProgramHeader (Some Load) 0x1000 0x111100000000 8 8 false true] 0x111100000000.
(** The kernel's level-4 table at 0x7000 has three level-3 tables: at 0x8000 for its
    stack, at 0xA000 for the direct map of physical memory, which is where [boot.conf]
    puts it, and at 0xB000 for the identity map of the firmware.  The last two have
    pages of 2 MiB only. *)
Definition vault_offset : option Z := Some 0xFFFF800000000000.
Definition vault_level4 : gmap Z (nat * Z) :=
  <[ slot KSTACK_DEF_BOT := (0%nat, 0x8000) ]> (<[ slot 0xFFFF800000000000 := (1%nat, 0xA000) ]> {[ slot 0 := (2%nat, 0xB000) ]}).
Definition vault_held : gset Z := {[ 0x8000; 0xA000; 0xB000 ]}.
Definition vault_tables : paged :=
  mkPaged {[ 0x7000 := vault_level4 ]} {[ ((0%nat, 0x8000), KSTACK_DEF_BOT) := (0x9000, 3) ]} vault_held
    {[ ((1%nat, 0xA000), 0xFFFF800000000000 / 2 ^ 21); ((2%nat, 0xB000), 0) ]}.
Definition vault_boot : Kernel paged queue :=
  mkKernel (mkMem (mkMachine vault_tables (mkAllocator 64 0 ((λ i, (i, 0x10000)) <$> seqZ 0 64) []) (λ _, 0)) ∅ ∅ (mkCr3 0x7000 0))
    (mkStore ∅ ∅ ∅ (mkIo INPUT_BUF_init [])) Pid.NEXT_PID_init
    Processor.PROCESSORS_init ∅ ∅ [] ∅ (Some [mkApp "vault" vault_elf]).
Definition vault_started : Kernel paged queue := state_of (Manager.init 0 [] vault_boot) vault_boot.
Definition vault_spawn (s : Kernel paged queue * Z) : Kernel paged queue * Z :=
  state_of (on_kernel (spawn vault_offset 0 (8, 16) "vault") s) s.
Definition vault_one : Kernel paged queue * Z := vault_spawn (vault_started, 0).
Definition vault_two : Kernel paged queue * Z := vault_spawn vault_one.

Lemma vault_entry p t :
  paged_entry vault_tables 0x7000 p = Some t →
  t = 0x8000 ∧ slot p = slot KSTACK_DEF_BOT ∨ t = 0xA000 ∧ slot p = slot 0xFFFF800000000000 ∨ t = 0xB000 ∧ slot p = slot 0.
Proof.
  unfold paged_entry, level3. intros Ht. change (level4 vault_tables !! 0x7000) with (Some vault_level4) in Ht.
  simpl in Ht. apply fmap_Some in Ht as (x & Hx & ->). unfold vault_level4 in Hx.
  apply lookup_insert_Some in Hx as [[Hs <-]|[_ Hx]]; [by left|].
  apply lookup_insert_Some in Hx as [[Hs <-]|[_ Hx]]; [by right; left|].
  apply lookup_singleton_Some in Hx as [Hs <-]. by right; right.
Qed.

Lemma vault_own x : paged_own vault_tables x → x ∈ [0x8000; 0xA000; 0xB000].
Proof. intros Hx. change (x ∈ vault_held) in Hx. unfold vault_held in Hx. set_solver. Qed.

Lemma vault_booted : booted paged_mapping paged_own paged_entry paged_huge vault_boot.
Proof.
  split.
  - by split_and!.
  - done.
  - apply (bool_decide_eq_true_1 _). vm_compute. reflexivity.
  - apply (bool_decide_eq_true_1 _). vm_compute. reflexivity.
  - apply Forall_forall. apply (bool_decide_eq_true_1 _). vm_compute. reflexivity.
  - intros x Hx%vault_own. revert x Hx. apply Forall_forall. apply (bool_decide_eq_true_1 _). vm_compute. reflexivity.
  - split_and!; [done|apply (bool_decide_eq_true_1 _); vm_compute; reflexivity|].
    intros Hx%vault_own. apply (bool_decide_eq_true_2 _) in Hx. vm_compute in Hx. discriminate.
  - intros p t Ht%vault_entry. split.
    + change (t ∈ vault_held). unfold vault_held. set_solver.
    + unfold slot, KSTACK_DEF_BOT, KSTACK_MAX, STACK_MAX_SIZE, STACK_MAX_PAGES, user_page, LOW, STACK_MAX in *.
      Z.div_mod_to_equations. lia.
  - intros p t [[-> Hs]|[[-> Hs]|[-> Hs]]]%vault_entry; [exists KSTACK_DEF_BOT|exists 0xFFFF800000000000|exists 0];
      (split; [vm_compute; reflexivity|]); [left; eexists; vm_compute; reflexivity|right..];
      apply (bool_decide_eq_true_1 _); vm_compute; reflexivity.
  - eexists. vm_compute. reflexivity.
  - intros l app [= <-] ->%list_elem_of_singleton. apply Forall_singleton. intros _. by split_and!.
Qed.

Lemma spread_checked {PT Q} (k : Kernel PT Q) :
  forallb (λ x, bool_decide (processes k !! KERNEL_PID = Some x.1) || bool_decide (user_page (range_start (stack x.2))))
    (map_to_list (vm_map k)) = true → spread k.
Proof.
  rewrite forallb_forall. intros Hall loc v Hv Hne. specialize (Hall (loc, v)).
  rewrite orb_true_iff, !bool_decide_eq_true in Hall. destruct Hall as [?|?]; [|done..].
  by apply list_elem_of_In, elem_of_map_to_list.
Qed.

Lemma vault_reached :
  rtc (spread_step vault_offset 0 (8, 16) 0 layout_example) (vault_started, 0) vault_two.
Proof.
  assert (Hstep : ∀ s r, on_kernel (spawn vault_offset 0 (8, 16) "vault") s = Done (r, vault_spawn s) →
    pids_left s.1 → spread (vault_spawn s).1 → spread_step vault_offset 0 (8, 16) 0 layout_example s (vault_spawn s)).
  { intros s r Hs Hp Hsp. split; [|done]. by eapply step_spawn. }
  eapply rtc_l; [apply (Hstep _ (Ok 2))|apply rtc_once, (Hstep _ (Ok 3))].
  all: try (apply value_state; vm_compute; reflexivity); try (apply spread_checked); vm_compute; reflexivity.
Qed.


End IsolationWitness.
