(* ===== verification/Untouched.v ===== *)
(** What a process has in memory is left alone while only others run: steps in which
    no process on its page table runs or ends keep each of its bytes in user space
    where it is and as it is. *)
From S2P Require Import Prelude Arch Pid Sync Frames Elf Tables Stack Heap Vm Owners Context Resource Data Process Manager.
From S2P Require Import Syscall Scheduler KernelExample RoundRobin Lifecycle Fork Dispatch Reachable Effects Spaces Isolation.
From stdpp Require Import strings relations.
#[local] Open Scope Z_scope.

(** * Watching from a state on *)

Section Watch.
Context `{Profile} `{!X86_64} `{!X86_64_Laws _} {PT Q : Type} `{!Mapper PT} `{!ArrayQueue Q}.
Context (mapping : PT → Z → Z → option (Z * Z)) `{!Mapper_Laws PT mapping}.
Context (own : PT → Z → Prop) (entry : PT → Z → Z → option Z) (huge : PT → Z → Z → Prop)
  `{!Mapper_Tables PT mapping own entry huge}.
Context (PHYSICAL_OFFSET : option Z) (kroot : Z) (shared : Z → option Z).

Lemma iso_watch W old old_mem W' R (s : Machine PT BootInfoFrameAllocator) :
  iso mapping own entry huge kroot shared W (default 0 PHYSICAL_OFFSET) old old_mem R s → (∃ w, W w) →
  iso mapping own entry huge kroot shared W' (default 0 PHYSICAL_OFFSET) (mapping (tables s)) (Elf.mem s) R s.
Proof.
  intros [] Hw. assert (Hg : ∀ x, good W (default 0 PHYSICAL_OFFSET) x → good W' (default 0 PHYSICAL_OFFSET) x).
  { intros x [Ha Hb]. split; [done|]. intros _. by apply Hb. }
  split; try done.
  - intros x Hx. by apply Hg, iso_aligned.
  - intros x Hx. destruct (iso_own x Hx). auto.
  - intros r Hr. destruct (iso_root r Hr) as (? & ? & ?). auto.
  - intros r p x Hr Hp Hx. destruct (iso_frame r p x Hr Hp Hx) as (? & ? & ? & ?). auto.
Qed.

Lemma mem_watched WA W old old_mem WA' W' ka (m : Mem PT) :
  mem_ok mapping own entry huge PHYSICAL_OFFSET kroot shared WA W old old_mem ka m → (∃ w, W w) →
  (∀ a reg n, arcs m !! a = Some (reg, n) → WA' a ↔ W' (addr reg)) →
  mem_ok mapping own entry huge PHYSICAL_OFFSET kroot shared WA' W' (mapping (tables (machine m))) (Elf.mem (machine m)) ka m.
Proof. intros [] Hw HWA. split; try done. by eapply iso_watch. Qed.

Lemma isolated_watched WA W old old_mem WA' W' ka kl (k : Kernel PT Q) :
  isolated mapping own entry huge PHYSICAL_OFFSET kroot shared WA W old old_mem ka kl k → (∃ w, W w) →
  (∀ a reg n, arcs (kmem k) !! a = Some (reg, n) → WA' a ↔ W' (addr reg)) →
  isolated mapping own entry huge PHYSICAL_OFFSET kroot shared WA' W' (mapping (tables (machine (kmem k))))
    (Elf.mem (machine (kmem k))) ka kl k.
Proof. intros [] Hw HWA. split; try done. by eapply mem_watched. Qed.

End Watch.

(** * The steps of others *)

Section Untouched.
Context `{Profile} `{!X86_64} `{!X86_64_Laws _} {PT Q UA : Type} `{!Mapper PT} `{!ArrayQueue Q} `{!UserAllocator UA}.
Context (mapping : PT → Z → Z → option (Z * Z)) `{!Mapper_Laws PT mapping}.
Context (own : PT → Z → Prop) (entry : PT → Z → Z → option Z) (huge : PT → Z → Z → Prop)
  `{!Mapper_Tables PT mapping own entry huge}.
Context (PHYSICAL_OFFSET : option Z) (cpuid : nat) (selector : Z * Z) (clock_nanos : Z).
Context (Layout_of : list Z → Z * Z).
#[local] Abbreviation St := (Kernel PT Q * UA)%type.

(** The running process has a page table, and not [t]. *)
Definition elsewhere (t : nat) (k : Kernel PT Q) : Prop :=
  ∃ q a, running cpuid k = Some q ∧ table_of k q = Some a ∧ a ≠ t.

(** The processes on [t] go on. *)
Definition spares (t : nat) (k k' : Kernel PT Q) : Prop := ∀ q, table_of k q = Some t → table_of k' q = Some t.

(** The buffer of a [read] is in user space: the kernel does not check. *)
Definition in_user_space (ctx : ProcessContext) : Prop :=
  Syscall.syscall (args_of ctx) = Syscall.Read →
  ∀ va, arg1 (args_of ctx) ≤ va < arg1 (args_of ctx) + arg2 (args_of ctx) → user_page (Page_containing_address va).

(** What the running process makes the kernel do, and what it stores, in user space. *)
Inductive acts (s s' : St) : Prop :=
  | acts_call ctx ctx' : running cpuid s.1 ≠ Some KERNEL_PID → pids_left s.1 → in_user_space ctx →
      dispatcher PHYSICAL_OFFSET cpuid selector clock_nanos Layout_of ctx s = Done (ctx', s') → acts s s'
  | acts_fault a e : canonical a → page_fault_handler PHYSICAL_OFFSET cpuid a e s = Done ((), s') → acts s s'
  | acts_spawn nm r : pids_left s.1 → on_kernel (spawn PHYSICAL_OFFSET cpuid selector nm) s = Done (r, s') → acts s s'
  | acts_store va b : running cpuid s.1 ≠ Some KERNEL_PID → user_page (Page_containing_address va) →
      write_byte PHYSICAL_OFFSET va b s = Done ((), s') → acts s s'.

(** Steps in which no process on [t] acts, or ends: interrupts may come at any time. *)
Inductive away (t : nat) (s s' : St) : Prop :=
  | away_clock ctx ctx' : clock cpuid ctx s = Done (ctx', s') → away t s s'
  | away_key b : receive b s = Done ((), s') → away t s s'
  | away_acts : elsewhere t s.1 → acts s s' → spares t s.1 s'.1 → away t s s'.

Definition away_step (t : nat) (s s' : St) : Prop := away t s s' ∧ spread s'.1.

#[local] Abbreviation spread_step := (spread_step (PT := PT) (Q := Q) (UA := UA) PHYSICAL_OFFSET cpuid selector clock_nanos Layout_of).

Lemma away_spread t s s' : away_step t s s' → spread_step s s'.
Proof.
  intros [Ha Hs]. split; [|done]. destruct Ha as [ctx ctx' Ha|b Ha|_ [ctx ctx' Hr Hp _ Hd|a e Hc Hf|nm r Hp Hn|va b Hr _ Hs'] _].
  - by eapply step_clock.
  - by eapply step_key.
  - by eapply step_call.
  - by eapply step_fault.
  - by eapply step_spawn.
  - by eapply step_store.
Qed.

(** Where such steps write, the allocation of pages aside. *)
Definition user_writes (m : Mem PT) (a : Z) : Prop :=
  ∃ va, user_page (Page_containing_address va) ∧ phys_in PHYSICAL_OFFSET m va = Some a.

Lemma user_writes_polite : polite PHYSICAL_OFFSET user_writes.
Proof. by intros m a. Qed.

Lemma acts_does s s' :
  acts s s' → wf cpuid s.1 → does PHYSICAL_OFFSET cpuid selector (running cpuid s.1 ≠ Some KERNEL_PID) user_writes s.1 s'.1.
Proof.
  destruct 1 as [ctx ctx' Hr Hn Hu Hs|a e Ha Hs|nm r Hn Hs|va b Hr Hp Hs]; intros Hwf.
  - eapply dispatcher_does; [|done..|exact Hs]. intros m a [Hread (va & Hva & Ha)]. exists va. split; [by apply Hu|done].
  - apply page_fault_handler_Done in Hs. apply does_effect; [done|by eapply effect_fault].
  - apply on_kernel_Done in Hs as [Hs _]. by eapply spawn_does.
  - eapply store_does; [|done..|exact Hs]. intros m a Ha. by exists va.
Qed.

(** A process that has memory has a page table; the running one's is loaded. *)
Lemma table_arc (k : Kernel PT Q) q a :
  spaces cpuid k → table_of k q = Some a → ∃ reg n, arcs (kmem k) !! a = Some (reg, n) ∧ (running cpuid k = Some q → cr3 (kmem k) = reg).
Proof.
  intros Hsp Ht. rewrite table_of_vm in Ht. apply fmap_Some in Ht as (v & (loc & Hq & Hv)%bind_Some & ->).
  destruct (spaces_arc _ _ _ _ Hsp Hv) as (reg & n & Ha). exists reg, n. split; [done|]. intros Hr. by eapply Hsp.
Qed.

(** One step. *)
Lemma away_isolated kroot shared ka kl t reg n W0 old0 om0 s s' :
  wf cpuid s.1 → spaces cpuid s.1 → is_Some (shared KSTACK_DEF_BOT) → (∃ w, W0 w) →
  isolated mapping own entry huge PHYSICAL_OFFSET kroot shared (λ _, False) W0 old0 om0 ka kl s.1 →
  arcs (kmem s.1) !! t = Some (reg, n) → away_step t s s' →
  isolated mapping own entry huge PHYSICAL_OFFSET kroot shared (λ a, a = t) (λ r, r = addr reg)
    (mapping (tables (machine (kmem s.1)))) (Elf.mem (machine (kmem s.1))) ka kl s'.1 ∧ spares t s.1 s'.1.
Proof.
  intros Hwf Hsp Hsh Hw Hi Ht [Ha Hspr].
  apply (isolated_watched _ _ _ _ _ _ _ _ _ _ _ (λ a, a = t) (λ r, r = addr reg)) in Hi; [|done|]; cycle 1.
  { intros a r c Hac. split; [intros ->; congruence|]. intros Heq. by apply (mem_arcs (is_mem Hi) a t r c reg n). }
  destruct Ha as [ctx ctx' Hs|b Hs|(q & a & Hr & Hq & Hne) Hact Hspa].
  - apply on_kernel_Done in Hs as [Hs _]. apply switch_quiet in Hs; [|done]. split; [by eapply quiet_isolated|].
    intros q Hq. by rewrite (quiet_table _ _ _ _ Hs).
  - apply (calm_receive cpuid) in Hs. split; [by eapply calm_isolated|]. intros q Hq. by rewrite (calm_table _ _ _ _ Hs).
  - split; [|done]. eapply (does_isolated mapping own entry huge PHYSICAL_OFFSET cpuid selector _ _ _ _ _ _ ka kl Hsh);
      [intros _; apply user_writes_polite|exact Hi|intros Hu; exact Hu| |done|by apply acts_does].
    split.
    + split; [intros ? ->; by rewrite Ht|]. intros ? -> _. by eapply live_arc.
    + intros q' a' Hr' Hq'. congruence.
    + intros _. destruct (table_arc _ _ _ Hsp Hq) as (r & c & Hrc & Hcr). exists q, a, c. by rewrite (Hcr Hr).
    + intros q' ? Hq' ->. rewrite (Hspa _ Hq'). done.
Qed.

(** The bytes of a process on [t], before and after a step that [Hi] describes. *)
Lemma watched_byte kroot shared ka kl t reg n (k k' : Kernel PT Q) j a x :
  spaces cpuid k' → arcs (kmem k) !! t = Some (reg, n) → table_of k j = Some t → table_of k' j = Some t →
  isolated mapping own entry huge PHYSICAL_OFFSET kroot shared (λ a, a = t) (λ r, r = addr reg)
    (mapping (tables (machine (kmem k)))) (Elf.mem (machine (kmem k))) ka kl k' →
  user_byte k j a = Some x →
  user_byte k' j a = Some x ∧
  Elf.mem (machine (kmem k')) (x + default 0 PHYSICAL_OFFSET) = Elf.mem (machine (kmem k)) (x + default 0 PHYSICAL_OFFSET).
Proof.
  intros Hsp' Ht Hj Hj' Hi Hx. destruct (table_arc _ _ _ Hsp' Hj') as (reg' & n' & Ht' & _).
  pose proof (proj1 (mem_watch (is_mem Hi) t reg' n' Ht') eq_refl) as Hreg. pose proof (live_arc _ _ _ _ Ht') as Hl.
  pose proof Hx as (t1 & r1 & n1 & f & fl & Ht1 & Hr1 & Hp & Hm & ->)%(user_byte_Some mapping).
  assert (t1 = t) as -> by congruence. assert (r1 = reg) as -> by congruence. rewrite <- Hreg in Hm.
  pose proof (iso_watched (mem_iso (is_mem Hi)) _ _ Hl Hreg Hp) as Hm'. split.
  - rewrite <- Hx. unfold user_byte. rewrite Hj, Hj'. simpl. rewrite Ht, Ht'. simpl.
    destruct (decide (user_page a)); [|done]. by rewrite !translate_page_eq, Hm', Hreg.
  - rewrite <- Hm' in Hm. apply (iso_memory (mem_iso (is_mem Hi)) _ _ _ _ Hl Hreg Hp Hm).
    unfold inside, PAGE. simpl. Z.div_mod_to_equations. lia.
Qed.

Lemma minus_one_unaligned w : w = -1 → ¬ aligned w.
Proof. intros ->. done. Qed.

Lemma away_byte pages (k0 k : Kernel PT Q) u ua s s' t j a x :
  booted mapping own entry huge k0 → fits own PHYSICAL_OFFSET k0 → Manager.init cpuid pages k0 = Done (u, k) →
  rtc spread_step (k, ua) s → away_step t s s' → table_of s.1 j = Some t → user_byte s.1 j a = Some x →
  table_of s'.1 j = Some t ∧ user_byte s'.1 j a = Some x ∧
  Elf.mem (machine (kmem s'.1)) (x + default 0 PHYSICAL_OFFSET) = Elf.mem (machine (kmem s.1)) (x + default 0 PHYSICAL_OFFSET).
Proof.
  intros Hb Hfit Hin Hs Ha Hj Hx. pose proof (b_pristine _ _ _ _ _ Hb) as Hpr.
  assert (Hsub : ∀ s, rtc spread_step (k, ua) s → rtc (step PHYSICAL_OFFSET cpuid selector clock_nanos Layout_of) (k, ua) s).
  { intros s1 Hs1. eapply rtc_subrel, Hs1. by intros ? ? []. }
  destruct (reachable_good _ _ _ _ _ _ _ _ _ _ _ Hpr Hin (Hsub _ Hs)) as [[Hwf _] Hsp].
  destruct (reachable_good _ _ _ _ _ _ _ _ _ _ _ Hpr Hin (Hsub s' (rtc_r _ _ _ Hs (away_spread _ _ _ Ha)))) as [_ Hsp'].
  destruct (reachable_iso mapping own entry huge PHYSICAL_OFFSET cpuid selector clock_nanos Layout_of (λ w, w = -1)
    (λ _ _, None) (λ _, 0) minus_one_unaligned _ _ _ _ _ _ Hb (λ _, Hfit) Hin Hs) as (_ & ka & kl & Hi).
  destruct (table_arc _ _ _ Hsp Hj) as (reg & n & Ht & _).
  destruct (away_isolated _ _ ka kl t reg n _ _ _ s s' Hwf Hsp (b_kstack _ _ _ _ _ Hb) (ex_intro _ (-1) eq_refl) Hi Ht Ha)
    as [Hi' Hspa].
  split; [by apply Hspa|]. eapply watched_byte; [exact Hsp'|exact Ht|exact Hj|by apply Hspa|exact Hi'|exact Hx].
Qed.


End Untouched.

(** ** An example: two runs of one program, one of which reads *)

Section UntouchedWitness.
#[local] Existing Instance x86_ref.
#[local] Existing Instance release.

(** A key is pressed; process 2 runs, and reads it to where process 3, too, has its
    word; then it stores a byte there. *)
Definition vault_key : Kernel paged queue * Z := state_of (receive (Some 66) vault_two) vault_two.
Definition vault_runs : Kernel paged queue * Z := state_of (clock 0 (regs_example 5) vault_key) vault_key.
Definition vault_call : ProcessContext :=
  mkContext (mkValue (Handler.set_rdi 0 (Handler.set_rsi 0x111100000000 (Handler.set_rdx 1
    (Handler.set_rax (Syscall.number Syscall.Read) (regs (value Context.default)))))) (stack_frame (value Context.default))).
Definition vault_reads : Kernel paged queue * Z :=
  state_of (dispatcher vault_offset 0 (8, 16) 0 layout_example vault_call vault_runs) vault_runs.
Definition vault_stores : Kernel paged queue * Z := state_of (write_byte vault_offset 0x111100000000 67 vault_reads) vault_reads.
(** The byte of process [q]. *)
Definition vault_byte (s : Kernel paged queue * Z) (q : Z) : option Z :=
  (λ x, Elf.mem (machine (kmem s.1)) (x + default 0 vault_offset)) <$> user_byte s.1 q 0x111100000000.

Lemma vault_fits : fits paged_own vault_offset vault_boot.
Proof.
  intros x [Hx|[Hx| ->]].
  - revert x Hx. apply Forall_forall. apply (bool_decide_eq_true_1 _). vm_compute. reflexivity.
  - apply vault_own in Hx. revert x Hx. apply Forall_forall. apply (bool_decide_eq_true_1 _). vm_compute. reflexivity.
  - split; vm_compute; discriminate.
Qed.

Lemma spares_checked {PT Q} t (k k' : Kernel PT Q) :
  forallb (λ x, negb (bool_decide (table_of k x.1 = Some t)) || bool_decide (table_of k' x.1 = Some t))
    (map_to_list (processes k)) = true → spares t k k'.
Proof.
  rewrite forallb_forall. intros Hall q Hq. assert (Hq' := Hq). rewrite table_of_vm in Hq'.
  apply fmap_Some in Hq' as (v & (loc & Hl & _)%bind_Some & _). specialize (Hall (q, loc)).
  simpl in Hall. rewrite (bool_decide_eq_true_2 _ Hq) in Hall. apply (bool_decide_eq_true_1 _). apply Hall.
  by apply list_elem_of_In, elem_of_map_to_list.
Qed.

Lemma vault_call_polite : in_user_space vault_call.
Proof.
  intros _ va Hva. change (0x111100000000 ≤ va < 0x111100000000 + 1) in Hva. assert (va = 0x111100000000) as -> by lia. by split.
Qed.

Lemma vault_away : rtc (away_step vault_offset 0 (8, 16) 0 layout_example 2) vault_two vault_stores.
Proof.
  apply (rtc_l _ _ vault_key); [|apply (rtc_l _ _ vault_runs); [|apply (rtc_l _ _ vault_reads); [|apply rtc_once]]]; (split; [|apply spread_checked; vm_compute; reflexivity]).
  - apply (away_key _ _ _ _ _ _ _ vault_key (Some 66)). apply value_state. vm_compute. reflexivity.
  - eapply (away_clock _ _ _ _ _ _ _ vault_runs (regs_example 5)). apply value_state. vm_compute. reflexivity.
  - apply away_acts.
    + exists 2, 1%nat. split_and!; [vm_compute; reflexivity..|done].
    + eapply (acts_call _ _ _ _ _ _ vault_reads vault_call); [vm_compute; discriminate|vm_compute; reflexivity|exact vault_call_polite|].
      apply value_state. vm_compute. reflexivity.
    + apply spares_checked. vm_compute. reflexivity.
  - apply away_acts.
    + exists 2, 1%nat. split_and!; [vm_compute; reflexivity..|done].
    + eapply (acts_store _ _ _ _ _ _ vault_stores 0x111100000000 67); [vm_compute; discriminate|by split|].
      apply value_state. vm_compute. reflexivity.
    + apply spares_checked. vm_compute. reflexivity.
Qed.

Lemma vault_byte_eq s q x :
  user_byte s.1 q 0x111100000000 = Some x → vault_byte s q = Some (Elf.mem (machine (kmem s.1)) (x + 0xFFFF800000000000)).
Proof. intros Hx. unfold vault_byte. by rewrite Hx. Qed.


End UntouchedWitness.
