(* ===== verification/Rings.v ===== *)
(** Privilege: a process other than the kernel's own only ever runs with the
    user segments of the descriptor table, in ring 3. *)
From S2P Require Import Prelude Arch Pid Sync Frames Elf Stack Heap Vm Context Resource Data Process Manager.
From S2P Require Import Syscall Scheduler KernelExample RoundRobin Lifecycle Fork Dispatch Reachable Effects Spaces Apic Segments.
From stdpp Require Import strings relations.
#[local] Open Scope Z_scope.

Section Rings.
Context `{Profile} `{X86_64} {PT Q UA : Type} `{Mapper PT} `{ArrayQueue Q} `{UserAllocator UA}.
Context (PHYSICAL_OFFSET : option Z) (cpuid : nat) (selector : Z * Z) (clock_nanos : Z).
Context (Layout_of : list Z → Z * Z).
#[local] Abbreviation St := (Kernel PT Q).
#[local] Abbreviation Sys := (Kernel PT Q * UA)%type.
#[local] Abbreviation wf := (wf cpuid).
#[local] Abbreviation running := (running cpuid).
#[local] Abbreviation segments := Context.segments.

(** ** The machine with the segments the processor runs with *)

(** An interrupt frame holds the segments of the code that was interrupted, and
    [iretq] loads those of the frame it finds; between interrupts they stay. *)
Inductive ring_step : Sys * (Z * Z) → Sys * (Z * Z) → Prop :=
  | ring_clock ctx ctx' s s' :
      clock cpuid ctx s = Done (ctx', s') → ring_step (s, segments ctx) (s', segments ctx')
  | ring_call ctx ctx' s s' : running s.1 ≠ Some KERNEL_PID → pids_left s.1 →
      dispatcher PHYSICAL_OFFSET cpuid selector clock_nanos Layout_of ctx s = Done (ctx', s') →
      ring_step (s, segments ctx) (s', segments ctx')
  | ring_key b s s' c : receive b s = Done ((), s') → ring_step (s, c) (s', c)
  | ring_fault a e s s' c : canonical a → page_fault_handler PHYSICAL_OFFSET cpuid a e s = Done ((), s') → ring_step (s, c) (s', c)
  | ring_spawn nm r s s' c : pids_left s.1 →
      on_kernel (spawn PHYSICAL_OFFSET cpuid selector nm) s = Done (r, s') → ring_step (s, c) (s', c)
  | ring_store va b s s' c : running s.1 ≠ Some KERNEL_PID → write_byte PHYSICAL_OFFSET va b s = Done ((), s') → ring_step (s, c) (s', c).

Lemma ring_step_step x y : ring_step x y →
  step PHYSICAL_OFFSET cpuid selector clock_nanos Layout_of x.1 y.1.
Proof.
  destruct 1; simpl;
    [by eapply step_clock|by eapply step_call|by eapply step_key|by eapply step_fault|by eapply step_spawn|by eapply step_store].
Qed.

(** ** The segments of the saved contexts *)

Definition home (q : Z) (c : Z * Z) : Prop := q ≠ KERNEL_PID → c = selector.
Definition homes (k : St) : Prop := ∀ q p, lookup_proc k q = Some p → home q (segments (context (inner p))).
Definition at_home (k : St) (c : Z * Z) : Prop := ∀ q, running k = Some q → home q c.

(** No saved segments change. *)
Definition same_segments (k k' : St) : Prop :=
  running k' = running k ∧ ∀ q p', lookup_proc k' q = Some p' →
    ∃ p, lookup_proc k q = Some p ∧ segments (context (inner p')) = segments (context (inner p)).

#[local] Instance same_segments_preorder : PreOrder same_segments.
Proof.
  split; [intros k; split; [done|]; eauto|]. intros k1 k2 k3 [R1 L1] [R2 L2]. split; [congruence|].
  intros q p3 (p2 & H2' & E2)%L2. destruct (L1 q p2 H2') as (p1 & ? & ?). exists p1. split; [done|congruence].
Qed.

Lemma same_segments_homes k k' : same_segments k k' → homes k → homes k'.
Proof. intros [_ Hs] Hh q p' (p & Hl & ->)%Hs. by apply Hh. Qed.

Lemma same_segments_at k k' c : same_segments k k' → at_home k c → at_home k' c.
Proof. intros [Hr _] Ha q. rewrite Hr. apply Ha. Qed.

Lemma sched_eq_segments k k' : sched_eq k k' → same_segments k k'.
Proof.
  intros (_ & Hc & Hp & Hps & _). split; [unfold Scheduler.running; by rewrite Hc|]. intros q p'. unfold lookup_proc. rewrite Hp, Hps. eauto.
Qed.

Lemma set_inner_segments k q loc p i :
  wf k → processes k !! q = Some loc → procs k !! loc = Some p → segments (context i) = segments (context (inner p)) →
  same_segments k (set_inner loc i k).
Proof.
  intros Hwf Hq Hp Hi. split; [unfold set_inner; by rewrite Hp|]. intros w p' Hl.
  rewrite (lookup_set_inner cpuid k loc i q w p) in Hl by done. destruct (decide (w = q)) as [->|]; [|eauto].
  injection Hl as <-. exists p. split; [by eapply lookup_proc_Some|done].
Qed.

Lemma push_segments k q : same_segments k (set_ready (ready_queue k ++ [q]) k).
Proof. split; [done|]. intros w p' Hl. by exists p'. Qed.

(** ** The operations of the manager *)

Lemma save_current_homes ctx k q k' :
  wf k → homes k → at_home k (segments ctx) → save_current cpuid ctx k = Done (q, k') →
  wf k' ∧ homes k' ∧ at_home k' (segments ctx).
Proof.
  intros Hwf Hh Ha Hs. pose proof (save_current_wf _ _ _ _ _ Hwf Hs) as (Hwf' & Hr' & Hr & _).
  apply save_current_Done in Hs as (loc & p & _ & Hq & Hp & ->); [|done]. split_and!; [done| |].
  - intros w p' Hl. rewrite (lookup_set_inner cpuid k loc _ q w p) in Hl by done.
    destruct (decide (w = q)) as [->|]; [|by apply Hh]. injection Hl as <-. apply (Ha q Hr).
  - intros w Hw. assert (w = q) as -> by congruence. by apply Ha.
Qed.

Lemma switch_next_homes ctx k r k' :
  wf k → homes k → at_home k (segments ctx) → switch_next cpuid ctx k = Done (r, k') →
  homes k' ∧ at_home k' (segments r.2).
Proof.
  intros Hwf Hh Ha (cur & Hr & Hs)%switch_next_Done; [|done].
  assert (Hstay : ∀ l, r = (cur, ctx) → k' = set_ready l k → homes k' ∧ at_home k' (segments r.2)).
  { intros l -> ->. split; [exact Hh|exact Ha]. }
  destruct (first_ready k (ready_queue k)) as [[next rest]|]; [|destruct Hs; eauto].
  destruct (decide (next = cur)); [destruct Hs; eauto|].
  destruct Hs as (loc & p & v & reg & n' & Hq & Hp & _ & _ & _ & -> & ->). split.
  - intros w p' Hl. rewrite lookup_started in Hl by done. destruct (decide (w = next)) as [->|]; [|by apply Hh].
    injection Hl as <-. apply (Hh next p). by eapply lookup_proc_Some.
  - intros w Hw. rewrite running_started in Hw by done. injection Hw as <-.
    apply (Hh next p). by eapply lookup_proc_Some.
Qed.

Lemma woken_segments ret i : segments (context (woken ret i)) = segments (context i).
Proof. done. Qed.

Lemma wake_up_segments q ret k u k' : wf k → wake_up q ret k = Done (u, k') → same_segments k k'.
Proof.
  intros Hwf Hw. split.
  - apply wake_up_Done in Hw. destruct (processes k !! q) as [loc|]; [|by subst].
    destruct Hw as (p & Hp & ->). unfold set_inner. simpl. by rewrite Hp.
  - apply (wake_up_effect cpuid) in Hw as (_ & _ & _ & _ & _ & Hl); [|done]. intros w p' Hw. rewrite Hl in Hw.
    destruct (decide (w = q)); [|eauto]. destruct (lookup_proc k w) as [p|]; [|done]. simpl in Hw. injection Hw as <-.
    exists p. by rewrite <- (woken_segments ret).
Qed.

Lemma manager_kill_segments q ret k u k' :
  wf k → manager_kill PHYSICAL_OFFSET q ret k = Done (u, k') → wf k' ∧ same_segments k k'.
Proof.
  intros Hwf Hk. pose proof (manager_kill_wf _ cpuid _ _ _ _ _ Hwf Hk) as (Hwf' & (Hr & _) & _). split; [done|]. split; [done|].
  destruct (lookup_proc k q) as [p|] eqn:Hl.
  - destruct (manager_kill_Done PHYSICAL_OFFSET cpuid _ _ _ _ _ _ Hwf Hl Hk) as (_ & _ & _ & _ & _ & Hlk).
    intros w p' Hw. rewrite Hlk in Hw. cbv zeta in Hw.
    assert (∃ p0 i, lookup_proc k w = Some p0 ∧ (if decide (w = q) then Some (map_inner (killed ret) p) else lookup_proc k w) = Some i ∧
      segments (context (inner i)) = segments (context (inner p0)) ∧ segments (context (inner p')) = segments (context (inner i)))
      as (p0 & i & H0' & _ & E1 & E2); [|exists p0; split; [done|congruence]].
    destruct (decide (w = q)) as [->|].
    + exists p, (map_inner (killed ret) p). split_and!; [done..|]. destruct (decide _); simpl in Hw; by injection Hw as <-.
    + destruct (lookup_proc k w) as [p0|]; [|by destruct (decide _)]. exists p0, p0. split_and!; [done..|].
      destruct (decide _); simpl in Hw; by injection Hw as <-.
  - unfold manager_kill, get_proc in Hk. apply bind_Done in Hk as (o & k1 & Ho & Hk).
    apply gets_Done in Ho as [<- <-]. unfold lookup_proc in Hl. destruct (processes k !! q) as [loc|] eqn:E.
    + destruct (wf_table _ _ Hwf q loc E) as (p & Hp & _). simpl in Hl. congruence.
    + inv_done. eauto.
Qed.

(** A process added with the user segments. *)
Lemma add_process_homes loc p (k : St) :
  homes k → procs k !! loc = None → home (Process.pid p) (segments (context (inner p))) →
  (∀ q, is_Some (processes k !! q) → ∃ p, procs k !! default 0%nat (processes k !! q) = Some p) →
  homes (add_process loc p k).
Proof.
  intros Hh Hf Hp Hall w p' Hl. unfold lookup_proc in Hl. simpl in Hl.
  destruct (decide (w = Process.pid p)) as [->|Hne].
  - rewrite lookup_insert_eq in Hl. simpl in Hl. rewrite lookup_insert_eq in Hl. by injection Hl as <-.
  - rewrite lookup_insert_ne in Hl by done. apply bind_Some in Hl as (l & Hw & Hl).
    destruct (Hall w) as [x Hx]; [by rewrite Hw|]. rewrite Hw in Hx. simpl in Hx.
    rewrite lookup_insert_ne in Hl by congruence. apply (Hh w p'). unfold lookup_proc. by rewrite Hw.
Qed.

Lemma wf_has_procs (k : St) : wf k → ∀ q, is_Some (processes k !! q) → ∃ p, procs k !! default 0%nat (processes k !! q) = Some p.
Proof. intros Hwf q [l Hl]. destruct (wf_table _ _ Hwf q l Hl) as (p & Hp & _). exists p. by rewrite Hl. Qed.

Lemma spawn_homes nm k r k' :
  wf k → NEXT_PID k + 1 < 2 ^ 16 → homes k → spawn PHYSICAL_OFFSET cpuid selector nm k = Done (r, k') →
  homes k' ∧ running k' = running k.
Proof.
  intros Hwf Hn Hh Hs. unfold spawn in Hs. apply bind_Done in Hs as (l & k1 & Hl & Hs).
  apply gets_Done in Hl as [_ <-]. destruct (l ≫= _) as [app|]; [|by inv_done].
  unfold elf_spawn in Hs. apply bind_Done in Hs as (loc & k1 & Hc & Hs). apply current_Done in Hc as (-> & _).
  apply bind_Done in Hs as (q & k1 & Hq & Hs). inv_done.
  apply (spawn_elf_Done _ cpuid) in Hq as (i & m & dt & _ & _ & _ & _ & _ & _ & _ & -> & _ & Hseg); [|done..].
  split; [|done]. apply add_process_homes.
  - exact Hh.
  - simpl. apply not_elem_of_dom, is_fresh.
  - simpl. by intros _.
  - apply (wf_has_procs k Hwf).
Qed.

(** [fork] by a user process: the child has the parent's segments. *)
Lemma manager_fork_homes ctx k cur loc p k1 u k2 :
  wf k → NEXT_PID k + 1 < 2 ^ 16 → homes k → at_home k (segments ctx) → cur ≠ KERNEL_PID →
  processes k !! cur = Some loc → procs k !! loc = Some p → running k = Some cur →
  save_current cpuid ctx k = Done (cur, k1) → manager_fork PHYSICAL_OFFSET cpuid k1 = Done (u, k2) →
  wf k2 ∧ homes k2 ∧ at_home k2 (segments ctx) ∧ is_Some (processes k2 !! cur).
Proof.
  intros Hwf Hn Hh Ha Hne Hq Hp Hr Hsv Hf. pose proof (Ha cur Hr Hne) as Hctx.
  destruct (fork_table _ _ _ _ _ _ _ _ _ _ Hwf Hn Hq Hp Hsv Hf)
    as (v & ci & cl & _ & Hfc & _ & Hwf2 & Hr2 & _ & _ & _ & Hlc & Hlp & Hlo).
  split_and!; [done| | |by apply bind_Some in Hlp as (? & -> & _)].
  - intros w p' Hl. destruct (decide (w = NEXT_PID k)) as [->|Hw1].
    + rewrite Hlc in Hl. injection Hl as <-. intros _. simpl.
      destruct (fc_context _ _ _ _ _ Hfc) as (cv & off & sp & _ & _ & _ & -> & _). exact Hctx.
    + destruct (decide (w = cur)) as [->|Hw2].
      * rewrite Hlp in Hl. injection Hl as <-. intros _. exact Hctx.
      * rewrite Hlo in Hl by done. by apply Hh.
  - intros w Hw. assert (w = cur) as -> by congruence. by intros _.
Qed.

(** ** The calls *)

(** A call comes home: its kernel has user segments saved, and so has the
    frame it goes back with. *)
Definition comes_home (m : ProcessContext → M St ProcessContext) : Prop := ∀ ctx k ctx' k',
  wf k → homes k → at_home k (segments ctx) → m ctx k = Done (ctx', k') → homes k' ∧ at_home k' (segments ctx').

Lemma switch_home : comes_home (switch cpuid).
Proof.
  intros ctx k ctx' k' Hwf Hh Ha Hs. unfold switch in Hs. apply bind_Done in Hs as (q & k1 & Hsv & Hs).
  pose proof (save_current_wf _ _ _ _ _ Hwf Hsv) as (_ & _ & _ & _ & Hps & Hin).
  destruct (save_current_homes _ _ _ _ Hwf Hh Ha Hsv) as (Hwf1 & Hh1 & Ha1).
  apply bind_Done in Hs as (u & k2 & Hp & Hs). unfold push_ready in Hp. apply modify_Done in Hp as <-.
  apply bind_Done in Hs as (r & k2 & Hn & Hs). apply ret_Done in Hs as [<- <-].
  eapply switch_next_homes; [| | |exact Hn]; [apply wf_push; [done|by rewrite Hps]|exact Hh1|exact Ha1].
Qed.

Lemma fork_home ctx k ctx' k' :
  wf k → NEXT_PID k + 1 < 2 ^ 16 → running k ≠ Some KERNEL_PID → homes k → at_home k (segments ctx) →
  fork PHYSICAL_OFFSET cpuid ctx k = Done (ctx', k') → homes k' ∧ at_home k' (segments ctx').
Proof.
  intros Hwf Hn Hk Hh Ha Hs. unfold fork in Hs. apply bind_Done in Hs as (q & k1 & Hsv & Hs).
  pose proof (save_current_Done _ _ _ _ _ Hwf Hsv) as (loc & p & Hr & Hq & Hp & _).
  apply bind_Done in Hs as (u & k2 & Hf & Hs).
  destruct (manager_fork_homes ctx k q loc p k1 u k2) as (Hwf2 & Hh2 & Ha2 & Hin); try done; [congruence|].
  apply bind_Done in Hs as (u' & k3 & Hpu & Hs). unfold push_ready in Hpu. apply modify_Done in Hpu as <-.
  apply bind_Done in Hs as (r & k3 & Hsn & Hs). apply ret_Done in Hs as [<- <-].
  eapply switch_next_homes; [| | |exact Hsn]; [by apply wf_push|exact Hh2|exact Ha2].
Qed.

Lemma kill_switch_home q ret ctx k u k1 r k' :
  wf k → homes k → at_home k (segments ctx) → manager_kill PHYSICAL_OFFSET q ret k = Done (u, k1) →
  switch_next cpuid ctx k1 = Done (r, k') → homes k' ∧ at_home k' (segments r.2).
Proof.
  intros Hwf Hh Ha Hk Hn. apply manager_kill_segments in Hk as [Hwf1 Hs]; [|done].
  eapply switch_next_homes; [exact Hwf1| | |exact Hn]; [by eapply same_segments_homes|by eapply same_segments_at].
Qed.

Lemma process_exit_home ret : comes_home (process_exit PHYSICAL_OFFSET cpuid ret).
Proof.
  intros ctx k ctx' k' Hwf Hh Ha Hs. unfold process_exit, kill_self in Hs. apply bind_Done in Hs as (u & k1 & Hk & Hs).
  apply bind_Done in Hk as (q & k2 & Hc & Hk). apply current_pid_Done in Hc as (-> & Hc & _).
  apply bind_Done in Hs as (r & k2 & Hn & Hs). apply ret_Done in Hs as [<- <-]. by eapply kill_switch_home.
Qed.

Lemma kill_home q : comes_home (kill PHYSICAL_OFFSET cpuid q).
Proof.
  intros ctx k ctx' k' Hwf Hh Ha Hs. unfold kill in Hs. apply bind_Done in Hs as (c & k1 & Hc & Hs).
  apply current_pid_Done in Hc as (-> & Hc & _). destruct (q =? c).
  - unfold kill_self in Hs. apply bind_Done in Hs as (u & k1 & Hk & Hs).
    apply bind_Done in Hk as (q' & k2 & Hq & Hk). apply current_pid_Done in Hq as (-> & Hq & _).
    apply bind_Done in Hs as (r & k2 & Hn & Hs). apply ret_Done in Hs as [<- <-]. by eapply kill_switch_home.
  - apply bind_Done in Hs as (u & k1 & Hk & Hs). apply ret_Done in Hs as [<- <-].
    apply manager_kill_segments in Hk as [_ Hsg]; [|done].
    split; [by eapply same_segments_homes|by eapply same_segments_at].
Qed.

(** Saving, blocking and going on with another process. *)
Lemma block_home ctx k q k1 loc p r k' :
  wf k → homes k → at_home k (segments ctx) → save_current cpuid ctx k = Done (q, k1) →
  processes k1 !! q = Some loc → procs k1 !! loc = Some p →
  switch_next cpuid ctx (set_inner loc (Inner.block (inner p)) k1) = Done (r, k') → homes k' ∧ at_home k' (segments r.2).
Proof.
  intros Hwf Hh Ha Hsv Hq Hp Hn. pose proof (saved_block cpuid _ _ _ _ Hwf Hsv) as (l & p' & _ & Hl & Hp' & Hwfb & _).
  assert (l = loc) as -> by congruence. assert (p' = p) as -> by congruence.
  destruct (save_current_homes _ _ _ _ Hwf Hh Ha Hsv) as (Hwf1 & Hh1 & Ha1).
  pose proof (set_inner_segments k1 q loc p (Inner.block (inner p)) Hwf1 Hq Hp eq_refl) as Hs.
  eapply switch_next_homes; [exact Hwfb| | |exact Hn]; [by eapply same_segments_homes|by eapply same_segments_at].
Qed.

Lemma wait_pid_home q : comes_home (wait_pid cpuid q).
Proof.
  intros ctx k ctx' k' Hwf Hh Ha Hs. unfold wait_pid in Hs. apply bind_Done in Hs as (o & k1 & Hw & Hs).
  apply manager_wait_pid_Done in Hw. destruct (lookup_proc k q ≫= _) as [ret|].
  { destruct Hw as [-> ->]. by apply ret_Done in Hs as [<- <-]. }
  destruct Hw as (-> & cur & Hcur & ->).
  assert (Hse : sched_eq k (add_waiter q cur k)) by done. pose proof (sched_eq_segments _ _ Hse) as Hsg.
  assert (Hwf1 : wf (add_waiter q cur k)) by (by eapply (sched_eq_wf cpuid k)).
  apply bind_Done in Hs as (c & k2 & Hsv & Hs).
  pose proof (save_current_wf _ _ _ _ _ Hwf1 Hsv) as (_ & Hr2 & _).
  apply bind_Done in Hs as (loc & k3 & Hc & Hs). apply current_Done in Hc as (-> & c' & Hr' & Hloc).
  assert (c' = c) as -> by congruence.
  apply bind_Done in Hs as (u & k3 & Hm & Hs). apply modify_inner_Done in Hm as (p & Hp & ->).
  apply bind_Done in Hs as (r & k3 & Hn & Hs). apply ret_Done in Hs as [<- <-].
  eapply block_home; [exact Hwf1| | |exact Hsv|exact Hloc|exact Hp|exact Hn];
    [by eapply same_segments_homes|by eapply same_segments_at].
Qed.

Lemma sem_wait_home key : comes_home (sem_wait cpuid key).
Proof.
  intros ctx k ctx' k' Hwf Hh Ha Hs. unfold sem_wait in Hs. apply bind_Done in Hs as (q & k1 & Hc & Hs).
  apply current_pid_Done in Hc as (-> & _ & _). apply bind_Done in Hs as (loc & k1 & Hc & Hs).
  apply current_Done in Hc as (-> & _). apply bind_Done in Hs as (p & k1 & Hp & Hs).
  apply read_proc_Done in Hp as [-> _]. apply bind_Done in Hs as (d & k1 & Hd & Hs).
  apply unwrap_Done in Hd as [_ <-]. apply bind_Done in Hs as (ret & k1 & Hd & Hs).
  apply on_data_eq in Hd as [Hse _]. pose proof (sched_eq_segments _ _ Hse) as Hsg.
  apply (sched_eq_wf _ _ _ Hse) in Hwf. apply (same_segments_homes _ _ Hsg) in Hh. apply (same_segments_at _ _ _ Hsg) in Ha.
  destruct ret as [| | |]; [by inv_done|by inv_done| |by inv_done].
  apply bind_Done in Hs as (c & k2 & Hsv & Hs).
  pose proof (saved_block cpuid _ _ _ _ Hwf Hsv) as (l & p' & _ & Hl & Hp' & _).
  apply bind_Done in Hs as (u & k3 & Hb & Hs). unfold manager_block, get_proc in Hb.
  apply bind_Done in Hb as (o & k4 & Ho & Hb). apply gets_Done in Ho as [<- <-]. rewrite Hl in Hb.
  apply modify_inner_Done in Hb as (p2 & Hp2 & ->).
  apply bind_Done in Hs as (r & k3 & Hn & Hs). apply ret_Done in Hs as [<- <-].
  eapply block_home; [exact Hwf|exact Hh|exact Ha|exact Hsv|exact Hl|exact Hp2|exact Hn].
Qed.

Lemma sem_signal_home key : comes_home (sem_signal cpuid key).
Proof.
  intros ctx k ctx' k' Hwf Hh Ha Hs. unfold sem_signal in Hs. apply bind_Done in Hs as (q & k1 & Hc & Hs).
  apply current_pid_Done in Hc as (-> & _ & _). apply bind_Done in Hs as (loc & k1 & Hc & Hs).
  apply current_Done in Hc as (-> & _). apply bind_Done in Hs as (p & k1 & Hp & Hs).
  apply read_proc_Done in Hp as [-> _]. apply bind_Done in Hs as (d & k1 & Hd & Hs).
  apply unwrap_Done in Hd as [_ <-]. apply bind_Done in Hs as (ret & k1 & Hd & Hs).
  apply on_data_eq in Hd as [Hse _]. pose proof (sched_eq_segments _ _ Hse) as Hsg.
  apply (sched_eq_wf _ _ _ Hse) in Hwf. apply (same_segments_homes _ _ Hsg) in Hh. apply (same_segments_at _ _ _ Hsg) in Ha.
  destruct ret as [| | |]; [by inv_done|by inv_done|by inv_done|].
  apply bind_Done in Hs as (u & k2 & Hw & Hs). apply ret_Done in Hs as [<- <-].
  apply wake_up_segments in Hw; [|done]. split; [by eapply same_segments_homes|by eapply same_segments_at].
Qed.

Lemma page_fault_segments a e k r k' :
  wf k → handle_page_fault PHYSICAL_OFFSET cpuid a e k = Done (r, k') → same_segments k k'.
Proof.
  intros Hwf Hs. unfold handle_page_fault, manager_handle_page_fault in Hs.
  destruct (negb _); [|by inv_done].
  apply bind_Done in Hs as (loc & k1 & Hc & Hs). apply current_Done in Hc as (-> & q & Hr & Hq).
  apply bind_Done in Hs as (p & k1 & Hp & Hs). apply read_proc_Done in Hp as [-> Hp].
  apply bind_Done in Hs as (cur & k1 & Hg & Hs). apply gets_Done in Hg as [_ <-].
  apply bind_Done in Hs as ([b i] & k1 & Hf & Hs). apply on_mem_eq in Hf as (Hse & t & Hf & ->).
  apply bind_Done in Hs as (u & k1 & Hw & Hs). unfold write_proc in Hw. apply modify_Done in Hw as <-.
  apply ret_Done in Hs as [_ <-]. unfold Inner.handle_page_fault in Hf.
  apply bind_Done in Hf as (v & m1 & _ & Hf). apply bind_Done in Hf as (r1 & m2 & _ & Hf).
  apply ret_Done in Hf as [Hf _]. injection Hf as _ <-. etrans; [by apply sched_eq_segments|].
  pose proof (set_inner_segments (set_kmem t k) q loc p (Inner.set_vm (Some r1.2) (inner p))) as Hk.
  unfold set_inner in Hk. simpl in Hk. rewrite Hp in Hk. by apply Hk; [apply wf_set_kmem| | |].
Qed.

(** ** The steps *)

Definition rings_ok (x : Sys * (Z * Z)) : Prop := homes x.1.1 ∧ at_home x.1.1 x.2.

Lemma same_segments_ok (s s' : Sys) c : same_segments s.1 s'.1 → rings_ok (s, c) → rings_ok (s', c).
Proof. intros Hs [Hh Ha]. split; [by eapply same_segments_homes|by eapply same_segments_at]. Qed.

Lemma spawned_ok nm (s : Sys) r (s' : Sys) c :
  wf s.1 → pids_left s.1 → spawn PHYSICAL_OFFSET cpuid selector nm s.1 = Done (r, s'.1) → rings_ok (s, c) → rings_ok (s', c).
Proof.
  intros Hwf Hn Hs [Hh Ha]. apply spawn_homes in Hs as [Hh' Hr]; [|done..]. split; [done|].
  intros q. simpl. rewrite Hr. apply Ha.
Qed.

Lemma dispatcher_ok ctx (s : Sys) ctx' (s' : Sys) :
  wf s.1 → pids_left s.1 → running s.1 ≠ Some KERNEL_PID → rings_ok (s, segments ctx) →
  dispatcher PHYSICAL_OFFSET cpuid selector clock_nanos Layout_of ctx s = Done (ctx', s') → rings_ok (s', segments ctx').
Proof.
  intros Hwf Hn Hr Hok Hd. pose proof Hok as [Hh Ha]. unfold rings_ok. simpl in *.
  apply dispatcher_Done in Hd as [Hs Hc|nm r v Hs ->|Hs|ret Hs|q Hs|q _ Hs|key Hs|key Hs].
  - assert (segments ctx' = segments ctx) as -> by (by destruct Hc as [->|[v ->]]).
    by apply (same_segments_ok s s'); [eapply sched_eq_segments, silent_sched|].
  - change (segments (Context.set_rax v ctx)) with (segments ctx). by eapply (spawned_ok nm s).
  - by eapply fork_home.
  - by eapply process_exit_home.
  - by eapply wait_pid_home.
  - by eapply kill_home.
  - by eapply sem_wait_home.
  - by eapply sem_signal_home.
Qed.

Lemma ring_step_ok x y : wf x.1.1 → ring_step x y → rings_ok x → rings_ok y.
Proof.
  intros Hwf Hs Hok. destruct Hs as [ctx ctx' s s' Hs|ctx ctx' s s' Hr Hn Hs|b s s' c Hs|a e s s' c _ Hs|nm r s s' c Hn Hs|va b s s' c _ Hs]; simpl in *.
  - apply on_kernel_Done in Hs as [Hs _]. destruct Hok. by eapply switch_home.
  - by eapply dispatcher_ok.
  - apply receive_Done in Hs. by apply (same_segments_ok s s'); [eapply sched_eq_segments|].
  - apply page_fault_handler_Done in Hs. by apply (same_segments_ok s s'); [eapply page_fault_segments|].
  - apply on_kernel_Done in Hs as [Hs _]. by eapply (spawned_ok nm s).
  - apply (silent_write_byte PHYSICAL_OFFSET cpuid (λ _ _, True)), silent_sched in Hs; [|done].
    by apply (same_segments_ok s s'); [eapply sched_eq_segments|].
Qed.

Lemma reachable_home pages (k0 k : St) u ua c0 x :
  NEXT_PID k0 = Pid.NEXT_PID_init → Manager.init cpuid pages k0 = Done (u, k) →
  rtc ring_step ((k, ua), c0) x → wf x.1.1 ∧ rings_ok x.
Proof.
  intros Hn Hin Hs. destruct (init_state cpuid _ _ _ _ Hn Hin) as (Hi & Hr & Hone).
  remember ((k, ua), c0) as x0 eqn:E.
  assert (H0' : inv cpuid x0.1.1 ∧ rings_ok x0).
  { subst x0. split; [exact Hi|]. split; simpl.
    - intros q p Hl Hne. destruct Hne. by eapply Hone.
    - intros q Hq Hne. simpl in Hq. destruct Hne. congruence. }
  clear -Hs H0'. induction Hs as [x|x y z Hstep _ IH]; destruct H0' as [Hi Hok]; [split; [apply Hi|done]|].
  apply IH. split; [by eapply step_inv, Hi; apply ring_step_step|]. eapply ring_step_ok; [apply Hi|done..].
Qed.

End Rings.

(** C17: A process other than the kernel's own runs in ring 3.  With the selectors
    of the table that [gdt::init] builds, in every state the kernel can
    get to: whenever such a process runs, the processor's code and
    stack segments are the user segments of the table, with privilege level 3; and
    so are those saved for every such process.  No system call,
    fork, kill or switch leaves a process with other segments. *)
Theorem user_in_ring3 `{Profile} `{X86_64} {PT Q UA G S : Type} `{Mapper PT} `{ArrayQueue Q} `{UserAllocator UA}
    `{GlobalDescriptorTable G} (entries_of : G → Z) (entry : G → Z → option Descriptor)
    `{!GlobalDescriptorTable_Laws G entries_of entry} PHYSICAL_OFFSET cpuid clock_nanos Layout_of
    (stacks : Z * Z * Z * Z) (s0 : S) (l : Gdt.Loaded G) pages (k0 k : Kernel PT Q) u (ua : UA) c0 s c :
  let g := Gdt.gdt l in let sel := (Gdt.user_code_selector (Gdt.get_user_selector g), Gdt.user_data_selector (Gdt.get_user_selector g)) in
  Gdt.init stacks s0 = Done (l, s0) →
  NEXT_PID k0 = Pid.NEXT_PID_init → Manager.init cpuid pages k0 = Done (u, k) →
  rtc (ring_step PHYSICAL_OFFSET cpuid sel clock_nanos Layout_of) ((k, ua), c0) (s, c) →
  rpl sel.1 = 3 ∧ rpl sel.2 = 3 ∧
  entry g.1.1 (index sel.1) = Some user_code_segment ∧ entry g.1.1 (index sel.2) = Some user_data_segment ∧
  (∀ q, running cpuid s.1 = Some q → q ≠ KERNEL_PID → c = sel) ∧
  (∀ q p, lookup_proc s.1 q = Some p → q ≠ KERNEL_PID → Context.segments (context (inner p)) = sel).
Proof.
  intros g sel Hg Hn Hin Hs. destruct (reachable_home _ _ _ _ _ _ _ _ _ _ _ _ Hn Hin Hs) as (_ & Hh & Ha).
  assert (Hok : Gdt.gdt_ok (entry := entry) (Gdt.tss l) g).
  { unfold Gdt.init in Hg. destruct stacks as [[[a1 a2] a3] a4]. apply bind_Done in Hg as (t & s1 & _ & Hg).
    destruct (Gdt.GDT_returns t s1) as (g' & Hg' & Hok). apply bind_Done in Hg as (g2 & s2 & E & Hg).
    rewrite Hg' in E. injection E as <- <-. apply ret_Done in Hg as [<- _]. exact Hok. }
  destruct (Gdt.go_user_code _ _ Hok) as [E1 R1]. destruct (Gdt.go_user_data _ _ Hok) as [E2 R2].
  split_and!; [exact R1|exact R2|exact E1|exact E2|exact Ha|exact Hh].
Qed.

(** ** An example: a process is spawned and runs *)

Section RingsWitnesses.
#[local] Existing Instance x86_ref.
#[local] Existing Instance release.

Definition gdt_loaded : Gdt.Loaded (list (option Descriptor)) :=
  match Gdt.init (0x10000, 0x20000, 0x30000, 0x40000) () with
  | Done (l, _) => l
  | _ => Gdt.mkLoaded (Apic.Gdt.mkTSS 0 ∅) ([], Gdt.mkKernelSelectors 0 0 0, Gdt.mkUserSelectors 0 0)
           (Gdt.mkRegisters [] 0 0 0 0 0 0 0)
  end.

Definition ring_spawned : Kernel table queue * Z :=
  state_of (on_kernel (spawn offset_example 0 (43, 51) "a") (app_started, 0)) (app_started, 0).
Definition ring_runs : Kernel table queue * Z := state_of (clock 0 (regs_example 5) ring_spawned) ring_spawned.
Definition ring_context : ProcessContext :=
  match lookup_proc ring_runs.1 2 with Some p => context (inner p) | None => Context.default end.

Lemma ring_reached :
  rtc (ring_step offset_example 0 (43, 51) 0 layout_example)
    ((app_started, 0), Context.segments (regs_example 5)) (ring_runs, Context.segments ring_context).
Proof.
  eapply rtc_l.
  { apply (ring_spawn offset_example 0 (43, 51) 0 layout_example "a" (Ok 2) _ ring_spawned).
    - vm_compute. reflexivity.
    - apply value_state. vm_compute. reflexivity. }
  eapply rtc_l; [|apply rtc_refl].
  apply (ring_clock offset_example 0 (43, 51) 0 layout_example (regs_example 5) ring_context _ ring_runs).
  apply value_state. vm_compute. reflexivity.
Qed.

Lemma user_in_ring3_witness :
  running 0 ring_runs.1 = Some 2 ∧ Context.segments ring_context = (43, 51) ∧ rpl 43 = 3.
Proof.
  assert (Hr : running 0 ring_runs.1 = Some 2) by (vm_compute; reflexivity).
  destruct (user_in_ring3 (λ g, Z.of_nat (length g)) (λ g i, mjoin (g !! Z.to_nat i)) offset_example 0 0 layout_example
    (0x10000, 0x20000, 0x30000, 0x40000) () gdt_loaded [] app_boot app_started () 0 (Context.segments (regs_example 5))
    ring_runs (Context.segments ring_context)) as (H1 & _ & _ & _ & H5 & _).
  - vm_compute. reflexivity.
  - reflexivity.
  - exact app_boot_started.
  - exact ring_reached.
  - split; [exact Hr|]. split; [apply (H5 2 Hr); discriminate|exact H1].
Defined.

End RingsWitnesses.
