(* ===== verification/Exit.v ===== *)
(** The end of a process and how its parent learns of it: [exit] in the kernel
    ([proc/mod.rs]), the end of [main] in the user library ([macros.rs]), and
    what [wait_pid] answers in the process that waits. *)
From S2P Require Import Prelude Arch Pid Sync Frames Elf Stack Heap Vm Context Resource Data Process Manager.
From S2P Require Import Scheduler KernelExample RoundRobin Lifecycle Reachable Effects Spaces.
From stdpp Require Import strings.
#[local] Open Scope Z_scope.

Section Exit.
Context `{Profile} `{X86_64} {PT Q : Type} `{Mapper PT} `{ArrayQueue Q}.
Context (PHYSICAL_OFFSET : option Z) (cpuid : nat).
#[local] Abbreviation St := (Kernel PT Q).
#[local] Abbreviation wf := (wf cpuid).
#[local] Abbreviation running := (running cpuid).
#[local] Existing Instance known_dec.

(** ** Leaving the processor for good *)

(** A process in its last call has [cur]; the entry of the process table that
    [after] holds when it is gone. *)
Record leaves (ctx : ProcessContext) (cur : Z) (queue : list Z) (after : Z → option Process)
    (ctx' : ProcessContext) (k' : St) : Prop := {
  lv_next : (∀ q, q ∈ queue → ∀ p, after q = Some p → status (inner p) ≠ Ready) ∧
      running k' = Some cur ∧ ctx' = ctx ∧ ready_queue k' = [] ∧ (∀ q, lookup_proc k' q = after q) ∨
    ∃ next pn dropped, next ≠ cur ∧ after next = Some pn ∧ status (inner pn) = Ready ∧
      running k' = Some next ∧ ctx' = context (inner pn) ∧
      queue = dropped ++ next :: ready_queue k' ∧
      (∀ q, q ∈ dropped → ∀ p, after q = Some p → status (inner p) ≠ Ready) ∧
      (∀ q, lookup_proc k' q = if decide (q = next) then Some (map_inner Inner.resume pn) else after q)
}.

Lemma not_ready (k : St) q p : is_ready k q = false → lookup_proc k q = Some p → status (inner p) ≠ Ready.
Proof. unfold is_ready. intros Hr Hl. rewrite Hl in Hr. by apply bool_decide_eq_false in Hr. Qed.

Lemma leaves_ext ctx cur queue f g ctx' k' :
  (∀ q, f q = g q) → leaves ctx cur queue f ctx' k' → leaves ctx cur queue g ctx' k'.
Proof.
  intros Hfg [[(Hd & Hr & Hc & Hq & Hl)|(next & pn & d & Hne & Hn & Hs & Hr & Hc & Hq & Hd & Hl)]]; constructor.
  - left. split_and!; try done; [|intros q; by rewrite Hl].
    intros q Hin p. rewrite <- Hfg. by apply Hd.
  - right. exists next, pn, d. rewrite <- Hfg. split_and!; try done; [|intros q; by rewrite <- Hfg].
    intros q Hin p. rewrite <- Hfg. by apply Hd.
Qed.

(** [switch_next] in a process that is not ready itself. *)
Lemma leave_switch ctx (k : St) cur r k' :
  wf k → running k = Some cur → is_ready k cur = false → switch_next cpuid ctx k = Done (r, k') →
  leaves ctx cur (ready_queue k) (lookup_proc k) r.2 k' ∧
  Process.wait_queue k' = Process.wait_queue k ∧ data k' = data k ∧
  arcs (kmem k') = arcs (kmem k) ∧ machine (kmem k') = machine (kmem k) ∧ ends (kmem k') = ends (kmem k).
Proof.
  intros Hwf Hr Hc Hs. apply switch_next_Done in Hs as (c & Hc' & Hs); [|done].
  assert (c = cur) as -> by congruence.
  destruct (first_ready k (ready_queue k)) as [[next rest]|] eqn:E.
  - apply first_ready_Some in E as (Hir & d & Hq & Hd). rewrite Forall_forall in Hd.
    assert (Hne : next ≠ cur) by congruence. rewrite decide_False in Hs by done.
    destruct Hs as (l & pn & v & reg & n & Hl & Hpn & Hpid & Hv & Ha & -> & ->).
    pose proof (lookup_proc_Some _ _ _ _ Hl Hpn) as Hx. split; [|done]. constructor. right.
    exists next, pn, d. split_and!; [done|done| | |by destruct (context (inner pn))|done| |].
    + unfold is_ready in Hir. rewrite Hx in Hir. by apply bool_decide_eq_true in Hir.
    + by apply running_started.
    + intros q Hin p. by apply not_ready, Hd.
    + intros q. rewrite (lookup_started cpuid) by done. destruct (decide (q = next)) as [->|]; [|done].
      unfold map_inner. by rewrite Hpid.
  - apply first_ready_None in E. rewrite Forall_forall in E. destruct Hs as [-> ->]. split; [|done].
    constructor. left. split_and!; try done. intros q Hq p. by apply not_ready, E.
Qed.

(** ** [exit] *)

(** The process table when [cur] has exited with [ret], before another process
    runs. *)
Definition after_exit (ret : Z) (k : St) (cur : Z) (p : Process) (q : Z) : option Process :=
  if decide (q = cur) then Some (map_inner (killed ret) p)
  else if decide (q ∈ waiters k cur) then map_inner (woken ret) <$> lookup_proc k q
  else lookup_proc k q.

(** The processes that may run next have page tables that outlive [p]'s. *)
Definition survivors (k : St) (cur : Z) (p : Process) : Prop :=
  ∀ q pq, q ≠ cur → lookup_proc k q = Some pq →
    (q ∈ ready_queue k ∧ status (inner pq) = Ready) ∨ q ∈ waiters k cur →
    ∃ v reg n, proc_vm (inner pq) = Some v ∧ arcs (kmem k) !! page_table v = Some (reg, n) ∧
      (∀ vp, proc_vm (inner p) = Some vp → page_table vp = page_table v → (1 < n)%nat).

(** Dropping a process memory takes one reference from its page table. *)
Lemma drop_arcs v (m : Mem PT) u m' reg n a :
  Vm.drop PHYSICAL_OFFSET v m = Done (u, m') → arcs m !! a = Some (reg, n) →
  (page_table v = a → (1 < n)%nat) → ∃ n', arcs m' !! a = Some (reg, n').
Proof.
  intros Hd Ha Hn. unfold Vm.drop in Hd. apply bind_Done in Hd as (r & m1 & Hc & Hd).
  destruct (clean_up_refs _ _ _ _ _ Hc) as [(Hr & _) Hp]. rewrite Hp in Hd.
  unfold Arc_drop, mbind, M_bind, get, unwrap in Hd. simpl in Hd. rewrite Hr in Hd.
  destruct (arcs m !! page_table v) as [[w k]|] eqn:E; [|done]. simpl in Hd.
  destruct (decide (page_table v = a)) as [Heq|Hne].
  - subst a. rewrite Ha in E. injection E as <- <-. specialize (Hn eq_refl). destruct n as [|[|n]]; [lia..|].
    simpl in Hd. injection Hd as _ <-. simpl. rewrite lookup_insert_eq. eauto.
  - destruct k as [|[|k]]; simpl in Hd; injection Hd as _ <-; simpl;
      rewrite ?lookup_insert_ne, ?lookup_delete_ne by done; rewrite ?Hr; eauto.
Qed.

Lemma survivor_resumable ret (k k1 : St) cur p q :
  survivors k cur p →
  (match proc_vm (inner p) with
   | Some v => Vm.drop PHYSICAL_OFFSET v (kmem k) = Done ((), kmem k1)
   | None => kmem k1 = kmem k
   end) →
  (∀ w, lookup_proc k1 w = after_exit ret k cur p w) → q ≠ cur →
  q ∈ ready_queue k ++ filter (known k) (waiters k cur) → resumable k1 q.
Proof.
  intros Hsv Hm Hlk Hne Hin pq Hl Hst. rewrite Hlk in Hl. unfold after_exit in Hl. rewrite decide_False in Hl by done.
  assert (∃ p0, lookup_proc k q = Some p0 ∧ proc_vm (inner pq) = proc_vm (inner p0) ∧
    ((q ∈ ready_queue k ∧ status (inner p0) = Ready) ∨ q ∈ waiters k cur)) as (p0 & Hl0 & Hv0 & Hor).
  { destruct (decide (q ∈ waiters k cur)) as [Hw|Hw].
    - apply fmap_Some in Hl as (p0 & Hl0 & ->). exists p0. auto.
    - exists pq. split_and!; [done..|]. left. split; [|done]. apply elem_of_app in Hin as [|Hin]; [done|].
      by apply list_elem_of_filter in Hin as [_ ?]. }
  destruct (Hsv q p0 Hne Hl0 Hor) as (v & reg & n & Hv & Ha & Hn). exists v, reg. rewrite Hv0.
  destruct (proc_vm (inner p)) as [vp|]; [|rewrite Hm; eauto].
  destruct (drop_arcs _ _ _ _ _ _ _ Hm Ha) as [n' ?]; eauto.
Qed.

Lemma process_exit_effect ret ctx (k : St) cur p ctx' k' :
  wf k → running k = Some cur → lookup_proc k cur = Some p → cur ∉ waiters k cur →
  process_exit PHYSICAL_OFFSET cpuid ret ctx k = Done (ctx', k') →
  leaves ctx cur (ready_queue k ++ filter (known k) (waiters k cur)) (after_exit ret k cur p) ctx' k' ∧
  Process.wait_queue k' = delete cur (Process.wait_queue k) ∧ data k' = data k ∧
  (∃ m, match proc_vm (inner p) with
        | Some v => Vm.drop PHYSICAL_OFFSET v (kmem k) = Done ((), m)
        | None => m = kmem k
        end ∧ arcs (kmem k') = arcs m ∧ machine (kmem k') = machine m ∧ ends (kmem k') = ends m).
Proof.
  intros Hwf Hr Hl Hself Hs. unfold process_exit, kill_self in Hs.
  apply bind_Done in Hs as (u & k1 & Hk & Hs). apply bind_Done in Hk as (q & k2 & Hcp & Hk).
  apply current_pid_Done in Hcp as (-> & Hcp & _). assert (q = cur) as -> by congruence.
  pose proof (manager_kill_wf _ _ _ _ _ _ _ Hwf Hk) as (Hwf1 & (Hr1 & _) & _). rewrite Hr in Hr1.
  apply (manager_kill_Done _ cpuid _ _ _ p) in Hk as (Hm & Hd & Hw & Hps & Hq & Hlk); [|done..].
  assert (Hlk' : ∀ w, lookup_proc k1 w = after_exit ret k cur p w).
  { intros w. rewrite Hlk. cbv zeta. unfold after_exit. destruct (decide (w = cur)) as [->|]; [|done].
    by rewrite decide_False. }
  assert (Hc : is_ready k1 cur = false).
  { unfold is_ready. rewrite Hlk'. unfold after_exit. by rewrite decide_True. }
  apply bind_Done in Hs as (r & k2 & Hn & Hs). apply ret_Done in Hs as [<- <-].
  apply (leave_switch ctx k1 cur) in Hn as (Hlv & Hwq & Hdd & Ha & Hma & He); [|done..].
  rewrite Hq in Hlv. split_and!; [by eapply leaves_ext|congruence..|].
  exists (kmem k1). split; [exact Hm|done].
Qed.

(** The end of a process, from inside.  When the memory can be given back and
    the processes that may follow keep theirs, [exit] returns.  The exit code
    is recorded, everyone who waits for it becomes ready with the code in
    [rax], and the first ready process of the queue, to whose end the waiters
    were added, runs with its registers as they are saved.  (When there is none the
    dead process goes on; the code after [sys_exit] in the user library is
    never meant to be reached.) *)
Lemma process_exit_effects ret ctx (k : St) cur p :
  wf k → running k = Some cur → lookup_proc k cur = Some p → cur ∉ waiters k cur →
  droppable PHYSICAL_OFFSET k p → survivors k cur p →
  ∃ ctx' k', process_exit PHYSICAL_OFFSET cpuid ret ctx k = Done (ctx', k') ∧ wf k' ∧
    leaves ctx cur (ready_queue k ++ filter (known k) (waiters k cur)) (after_exit ret k cur p) ctx' k' ∧
    Process.wait_queue k' = delete cur (Process.wait_queue k) ∧ data k' = data k.
Proof.
  intros Hwf Hr Hl Hself Hdr Hsv.
  destruct (manager_kill_returns PHYSICAL_OFFSET cpuid cur ret k p Hwf Hl Hdr) as [k1 Hk].
  pose proof (manager_kill_wf _ _ _ _ _ _ _ Hwf Hk) as (Hwf1 & (Hr1 & _) & _). rewrite Hr in Hr1.
  pose proof (manager_kill_Done _ _ _ _ _ _ _ _ Hwf Hl Hk) as (Hm & _ & _ & _ & Hq & Hlk).
  assert (∃ r, switch_next cpuid ctx k1 = Done r) as [[r k'] Hn].
  { unfold switch_next. rewrite (bind_step _ _ _ _ _ (current_pid_running cpuid k1 cur Hr1)).
    rewrite (bind_step _ _ _ _ _ eq_refl). apply switch_loop_returns; [done|lia|].
    intros x Hx Hne. eapply survivor_resumable; [exact Hsv|exact Hm| |exact Hne|by rewrite <- Hq].
    intros w. rewrite Hlk. cbv zeta. unfold after_exit. destruct (decide (w = cur)) as [->|]; [|done].
    by rewrite decide_False. }
  assert (Hpe : process_exit PHYSICAL_OFFSET cpuid ret ctx k = Done (r.2, k')).
  { unfold process_exit, kill_self. rewrite (bind_step _ _ k () k1); [|by rewrite (bind_step _ _ _ _ _ (current_pid_running cpuid k cur Hr))].
    by rewrite (bind_step _ _ _ _ _ Hn). }
  exists r.2, k'. split; [exact Hpe|]. split; [eapply process_exit_wf; [exact Hwf|exact Hpe]|].
  apply (process_exit_effect _ _ _ cur p) in Hpe; [|done..]. by destruct Hpe as (? & ? & ? & _).
Qed.

(** The memory of a process. *)
Definition vm_of (k : St) (q : Z) : option ProcessVm := processes k !! q ≫= λ l, vm_map k !! l.

Lemma vm_of_lookup (k : St) q p : lookup_proc k q = Some p → vm_of k q = proc_vm (inner p).
Proof. intros (l & Hl & Hp)%bind_Some. unfold vm_of. rewrite Hl. simpl. by rewrite lookup_vm_map, Hp. Qed.

(** When every process has its address space ([Spaces]), one that shares its
    page table is not alone on it. *)
Lemma shared_count (k : St) q q' v v' :
  wf k → spaces cpuid k → q ≠ q' → vm_of k q = Some v → vm_of k q' = Some v' → page_table v' = page_table v →
  ∃ reg n, arcs (kmem k) !! page_table v = Some (reg, S (S n)).
Proof.
  intros Hwf [[Ha _] _] Hne (l & Hl & Hv)%bind_Some (l' & Hl' & Hv')%bind_Some Heq.
  assert (Hll : l ≠ l').
  { intros ->. destruct (wf_table _ _ Hwf q l' Hl) as (x & Hx & Hpx & _).
    destruct (wf_table _ _ Hwf q' l' Hl') as (y & Hy & Hpy & _). congruence. }
  assert (Hp : page_table <$> vms k ≡ₚ page_table v :: page_table v ::
    (page_table <$> (map_to_list (delete l' (delete l (vm_map k)))).*2)).
  { unfold vms. rewrite <- (map_to_list_delete (vm_map k) l v), <- (map_to_list_delete (delete l (vm_map k)) l' v');
      [by simpl; rewrite Heq|by rewrite lookup_delete_ne|done]. }
  specialize (Ha (page_table v)). simpl in Ha.
  destruct (arcs (kmem k) !! page_table v) as [[reg n]|]; [|rewrite Hp in Ha; set_solver].
  destruct Ha as [-> _]. do 2 eexists. do 2 f_equal. rewrite Hp, !filter_cons_True by done. done.
Qed.

Lemma spaces_survivors (k : St) cur p :
  wf k → spaces cpuid k → lookup_proc k cur = Some p →
  (∀ q pq, q ≠ cur → lookup_proc k q = Some pq →
     (q ∈ ready_queue k ∧ status (inner pq) = Ready) ∨ q ∈ waiters k cur → exit_code (inner pq) = None) →
  survivors k cur p.
Proof.
  intros Hwf Hsp Hl Hal q pq Hne Hq Hor.
  destruct (spaces_proc cpuid k q pq Hwf Hsp Hq (Hal q pq Hne Hq Hor)) as (v & reg & n & Hv & Ha & _).
  exists v, reg, n. split_and!; [done..|]. intros vp Hvp Heq.
  destruct (shared_count k q cur v vp) as (reg' & n' & Ha'); try done; [by erewrite vm_of_lookup..|].
  rewrite Ha in Ha'. injection Ha' as _ ->. lia.
Qed.

(** ** While the timer ticks *)

Lemma timer_frame cs (k : St) outs k' :
  wf k → timer cpuid cs k = Done (outs, k') →
  wf k' ∧ Process.wait_queue k' = Process.wait_queue k ∧ data k' = data k ∧
  arcs (kmem k') = arcs (kmem k) ∧ machine (kmem k') = machine (kmem k) ∧ ends (kmem k') = ends (kmem k).
Proof.
  revert k outs. induction cs as [|c cs IH]; intros k outs Hwf Ht.
  { simpl in Ht. by apply ret_Done in Ht as [_ <-]. }
  destruct (timer_cons_Done _ _ _ _ _ _ Hwf Ht) as (cur & next & d & rest & c1 & k1 & o & He & Hwf1 & Ht1 & _).
  apply IH in Ht1 as (? & Hw & Hd & Ha & Hm & Hn); [|done]. destruct (sw_machine _ _ _ _ _ _ _ _ _ He) as [Hm' Hn'].
  pose proof (sw_waits _ _ _ _ _ _ _ _ _ He). pose proof (sw_data _ _ _ _ _ _ _ _ _ He).
  pose proof (sw_arcs _ _ _ _ _ _ _ _ _ He). split_and!; congruence.
Qed.

(** A process that is neither ready nor running stays as it is. *)
Lemma timer_keeps q p cs (k : St) outs k' :
  wf k → timer cpuid cs k = Done (outs, k') → lookup_proc k q = Some p → status (inner p) ≠ Ready →
  running k ≠ Some q → lookup_proc k' q = Some p ∧ running k' ≠ Some q ∧ ∀ x, x ∈ outs → x.1 ≠ q.
Proof.
  revert k outs. induction cs as [|c cs IH]; intros k outs Hwf Ht Hl Hst Hr.
  { simpl in Ht. apply ret_Done in Ht as [<- <-]. split_and!; [done..|set_solver]. }
  destruct (timer_cons_Done _ _ _ _ _ _ Hwf Ht) as (cur & next & d & rest & c1 & k1 & o & He & Hwf1 & Ht1 & ->).
  pose proof (sw_cur _ _ _ _ _ _ _ _ _ He) as Hcur.
  assert (Hn : q ≠ next).
  { intros ->. destruct (sw_next _ _ _ _ _ _ _ _ _ He) as [|Hir]; [congruence|].
    unfold is_ready in Hir. rewrite Hl in Hir. by apply bool_decide_eq_true in Hir. }
  apply IH in Ht1 as (? & ? & Ho); [|done| |done|rewrite (sw_running _ _ _ _ _ _ _ _ _ He); congruence].
  - split_and!; [done..|]. intros x [->|Hx]%elem_of_cons; [done|by apply Ho].
  - rewrite (sw_other _ _ _ _ _ _ _ _ _ He); [done|congruence|done].
Qed.

(** ** Parent and child *)

Lemma waiting_keeps w c ctx (k : St) pw ctx1 k1 cs outs k2 :
  wf k → running k = Some w → lookup_proc k w = Some pw → w ≠ c → exit_status k c = None → is_ready k c = true →
  wait_pid cpuid c ctx k = Done (ctx1, k1) → timer cpuid cs k1 = Done (outs, k2) →
  wf k2 ∧ lookup_proc k2 w = Some (map_inner (blocked ctx) pw) ∧ running k2 ≠ Some w ∧
  (∀ x, x ∈ waiters k2 c ↔ x = w ∨ x ∈ waiters k c) ∧ (∀ x, x ∈ outs → x.1 ≠ w).
Proof.
  intros Hwf Hr Hl Hne Hex Hrd Hw Ht. pose proof (wait_pid_wf _ _ _ _ _ _ Hwf Hw) as Hwf1.
  pose proof (wait_pid_effect _ _ _ _ _ _ _ _ Hwf Hr Hl Hw) as He. rewrite Hex in He.
  destruct He as (Hlb & Hg & Hwt & _). destruct (timer_frame _ _ _ _ Hwf1 Ht) as (Hwf2 & Hwq & _).
  assert (Hr1 : running k1 ≠ Some w).
  { destruct Hg as [(Hno & _)|(n & pn & Hn & _ & Hr1 & _)]; [|congruence].
    rewrite Hno in Hrd; done. }
  eapply (timer_keeps w) in Ht as (? & ? & ?); [|done|exact Hlb|done|done].
  split_and!; try done. intros x. unfold waiters. rewrite Hwq. apply Hwt.
Qed.

(** The process [w] goes on with [ctx] as soon as it is its turn, and will be
    its turn: it runs in [k], which has just been entered with [now], or it is
    in the queue. *)
Definition goes_on_with (k : St) (now : ProcessContext) (w : Z) (ctx : ProcessContext) : Prop :=
  (running k = Some w ∧ now = ctx) ∨
  (running k ≠ Some w ∧ is_ready k w = true ∧ w ∈ ready_queue k ∧
   ∀ cs outs c' k', timer cpuid cs k = Done (outs ++ [(w, c')], k') → (∀ x, x ∈ outs → x.1 ≠ w) → c' = ctx).

Lemma running_known (k : St) c : wf k → running k = Some c → ∃ p, lookup_proc k c = Some p.
Proof.
  intros Hwf Hr. destruct (wf_running _ _ Hwf) as (c' & Hc & [l Hl]). assert (c' = c) as -> by congruence.
  destruct (wf_table _ _ Hwf c l Hl) as (p & Hp & _). exists p. by apply lookup_proc_Some with l.
Qed.

(** What the exit of [c] does to a process that waits for it. *)
Lemma exit_wakes w c ret ctx pw ctx2 (k : St) ctx3 k3 :
  wf k → running k = Some c → w ≠ c → c ∉ waiters k c → w ∈ waiters k c →
  lookup_proc k w = Some (map_inner (blocked ctx) pw) →
  process_exit PHYSICAL_OFFSET cpuid ret ctx2 k = Done (ctx3, k3) →
  goes_on_with k3 ctx3 w (Context.set_rax (as_usize ret) ctx).
Proof.
  intros Hwf Hr Hne Hself Hin Hl Hs. destruct (running_known k c Hwf Hr) as [pc Hc].
  pose proof (process_exit_wf _ _ _ _ _ _ _ Hwf Hs) as Hwf3.
  destruct (process_exit_effect _ _ _ _ _ _ _ Hwf Hr Hc Hself Hs) as ([Hlv] & _).
  set (pw' := map_inner (woken ret) (map_inner (blocked ctx) pw)).
  assert (Ha : after_exit ret k c pc w = Some pw').
  { unfold after_exit. by rewrite decide_False, decide_True, Hl. }
  assert (Hctx : context (inner pw') = Context.set_rax (as_usize ret) ctx) by done.
  assert (Hst : status (inner pw') = Ready) by done. clearbody pw'.
  assert (Hq : w ∈ ready_queue k ++ filter (known k) (waiters k c)).
  { apply elem_of_app. right. apply list_elem_of_filter. split; [|done]. unfold known.
    apply bind_Some in Hl as (l & -> & _). done. }
  destruct Hlv as [(Hno & _)|(next & pn & d & Hnc & Hpn & Hrn & Hrk & -> & Hqueue & Hd & Hlk)].
  { by destruct (Hno w Hq pw' Ha). }
  destruct (decide (next = w)) as [->|Hnw]; [left; split; [done|congruence]|right].
  assert (Hl3 : lookup_proc k3 w = Some pw') by (by rewrite Hlk, decide_False).
  split_and!.
  - congruence.
  - by eapply is_ready_true.
  - rewrite Hqueue in Hq. apply elem_of_app in Hq as [Hx|[->|?]%elem_of_cons]; [by destruct (Hd w Hx pw' Ha)|done..].
  - intros cs outs c' k' Ht Ho. rewrite <- Hctx. eapply (resumed_context cpuid w _ cs k3); [done|exact Hl3|done|congruence|exact Ht|exact Ho].
Qed.

Lemma exit_recorded c ret ctx2 (k : St) ctx3 k1 cs outs k2 :
  wf k → running k = Some c → c ∉ waiters k c →
  process_exit PHYSICAL_OFFSET cpuid ret ctx2 k = Done (ctx3, k1) → running k1 ≠ Some c →
  timer cpuid cs k1 = Done (outs, k2) → wf k2 ∧ exit_status k2 c = Some ret.
Proof.
  intros Hwf Hr Hself Hs Hr1 Ht. destruct (running_known k c Hwf Hr) as [pc Hc].
  pose proof (process_exit_wf _ _ _ _ _ _ _ Hwf Hs) as Hwf1.
  destruct (process_exit_effect _ _ _ _ _ _ _ Hwf Hr Hc Hself Hs) as ([Hlv] & _).
  assert (Hl : lookup_proc k1 c = Some (map_inner (killed ret) pc)).
  { assert (Ha : after_exit ret k c pc c = Some (map_inner (killed ret) pc)) by (unfold after_exit; by rewrite decide_True).
    destruct Hlv as [(_ & Hx & _)|(next & pn & d & Hnc & _ & _ & _ & _ & _ & _ & Hlk)]; [done|].
    by rewrite Hlk, decide_False. }
  split; [by eapply timer_frame|]. eapply timer_keeps in Ht as (Hl2 & _); [|done|exact Hl|done|done].
  unfold exit_status. by rewrite Hl2.
Qed.

Lemma wait_pid_exited c ret ctx (k : St) w :
  wf k → running k = Some w → exit_status k c = Some ret →
  wait_pid cpuid c ctx k = Done (Context.set_rax (as_usize ret) ctx, k).
Proof.
  intros Hwf Hr Hex. destruct (running_known k w Hwf Hr) as [pw Hl].
  destruct (wait_pid_returns cpuid c ctx k w pw Hwf Hr Hl) as [[ctx' k'] Hw]; [congruence|].
  pose proof (wait_pid_effect _ _ _ _ _ _ _ _ Hwf Hr Hl Hw) as He. rewrite Hex in He. by destruct He as [-> ->].
Qed.

(** Waiting first and exiting first are the same to the parent.  If [w] waits
    for [c], which is ready, and [c] exits after any number of timer interrupts,
    then [w] goes on with the exit code in [rax] and otherwise the registers
    it called [wait_pid] with; if [c] exits first and [w] calls [wait_pid] after
    any number of timer interrupts, it goes on at once with the very same
    registers. *)
Theorem exit_wait_either_order w c ret ctx cs (k : St) :
  wf k → w ≠ c →
  (∀ pw pc ctx1 k1 outs k2 ctx2 ctx3 k3,
     running k = Some w → lookup_proc k w = Some pw → lookup_proc k c = Some pc → exit_code (inner pc) = None →
     is_ready k c = true → c ∉ waiters k c →
     wait_pid cpuid c ctx k = Done (ctx1, k1) → timer cpuid cs k1 = Done (outs, k2) → running k2 = Some c →
     process_exit PHYSICAL_OFFSET cpuid ret ctx2 k2 = Done (ctx3, k3) →
     wf k3 ∧ goes_on_with k3 ctx3 w (Context.set_rax (as_usize ret) ctx)) ∧
  (∀ pc ctx2 ctx3 k1 outs k2,
     running k = Some c → lookup_proc k c = Some pc → c ∉ waiters k c →
     process_exit PHYSICAL_OFFSET cpuid ret ctx2 k = Done (ctx3, k1) → running k1 ≠ Some c →
     timer cpuid cs k1 = Done (outs, k2) → running k2 = Some w →
     wait_pid cpuid c ctx k2 = Done (Context.set_rax (as_usize ret) ctx, k2)).
Proof.
  intros Hwf Hne. split.
  - intros pw pc ctx1 k1 outs k2 ctx2 ctx3 k3 Hr Hl Hc Hcode Hrd Hself Hw Ht Hr2 Hx.
    assert (Hex : exit_status k c = None) by (unfold exit_status; by rewrite Hc).
    destruct (waiting_keeps _ _ _ _ _ _ _ _ _ _ Hwf Hr Hl Hne Hex Hrd Hw Ht) as (Hwf2 & Hl2 & _ & Hwt & _).
    split; [by eapply process_exit_wf|]. eapply (exit_wakes w c); try done.
    + rewrite Hwt. naive_solver.
    + rewrite Hwt. by left.
  - intros pc ctx2 ctx3 k1 outs k2 Hr Hc Hself Hx Hr1 Ht Hr2.
    destruct (exit_recorded _ _ _ _ _ _ _ _ _ Hwf Hr Hself Hx Hr1 Ht) as [Hwf2 Hex].
    by eapply wait_pid_exited.
Qed.

End Exit.
