(* ===== verification/Teardown.v ===== *)
(** Giving a process memory back always comes to an end, so that [exit] returns:
    [ProcessVm::drop] with everything below it, and with it the end of a process
    whose stack and heap are as they should be. *)
From S2P Require Import Prelude Arch Pid Sync Frames Elf Stack Heap Vm Tables Owners Context Resource Data Process Manager.
From S2P Require Import Scheduler KernelExample RoundRobin Lifecycle Reachable Effects Spaces Isolation Untouched Exit.
From stdpp Require Import strings.
#[local] Open Scope Z_scope.

Section Teardown.
Context `{Profile} `{!X86_64} `{!X86_64_Laws _} {PT Q : Type} `{!Mapper PT} `{!ArrayQueue Q}.
Context (PHYSICAL_OFFSET : option Z) (cpuid : nat).
Context (Hrelease : debug_assertions = false).
(** the mapper's [clean_up] gives back what it frees and returns *)
Context (Hclean : ∀ root (pt : PT) (a : BootInfoFrameAllocator), ∃ r, mapper_clean_up root pt a = Done r).
#[local] Abbreviation Mc := (Machine PT BootInfoFrameAllocator).

Lemma word_op_comes_back {S} w x (s : S) : returns (word_op w x) s.
Proof. unfold returns, word_op. rewrite Hrelease. case_match; by eexists. Qed.

Lemma dealloc_returns f (s : Mc) : returns (dealloc_frame f) s.
Proof.
  destruct (word_op_comes_back 64 (used (falloc s) - 1) (falloc s)) as [[u a] Hu].
  unfold returns, dealloc_frame, Arch.deallocate_frame, FrameAlloc.frame_deallocator, FrameAlloc.deallocate_frame.
  rewrite (bind_step _ _ _ _ _ eq_refl), (bind_step _ _ _ _ _ Hu). simpl. by eexists.
Qed.

Lemma unmap_loop_comes_back root pages (s : Mc) : returns (unmap_loop root true pages) s.
Proof.
  revert s. induction pages as [|p pages IH]; intros s; [apply returns_mret|]. simpl.
  apply returns_bind_ok.
  { unfold returns, page_unmap. destruct (unmap root p (tables s)). by eexists. }
  intros f s1 _. apply returns_bind; [apply dealloc_returns|]. intros u s2 _. apply IH.
Qed.

Lemma unmap_code_returns root code (s : Mc) : returns (Vm.unmap_code root code) s.
Proof.
  revert s. induction code as [|r code IH]; intros s; [apply returns_mret|]. simpl.
  apply returns_bind_ok; [apply unmap_loop_comes_back|]. intros u s1 _. apply IH.
Qed.

Lemma stack_clean_up_returns root self (s : Mc) : stack_wf self → returns (StackOps.clean_up root self) s.
Proof.
  intros (Ha & Hae & Hb & He & Hu). unfold StackOps.clean_up. destruct (Z.eqb_spec (usage self) 0); [apply returns_mret|].
  assert (Hn : 0 < usage self ∧ range_end self = range_start self + usage self * PAGE).
  { unfold aligned, PAGE in *. Z.div_mod_to_equations. lia. }
  destruct Hn as [Hn0 Hn]. apply returns_bind; [|intros [a|e] s1 _; apply returns_mret].
  unfold unmap_pages. apply returns_bind.
  { unfold debug_assert. rewrite Hrelease. apply returns_mret. }
  intros u s1 _. rewrite VirtAddr_new_canonical by (left; unfold PAGE in *; lia). apply returns_bind; [by eexists|].
  intros va s2 [= <- <-]. pose proof Ha as Ha'. unfold aligned in Ha'.
  rewrite Page_containing_address_eq, Ha', Z.sub_0_r by (left; unfold PAGE in *; lia).
  rewrite Page_add_user by (done || unfold user, PAGE in *; lia). apply returns_bind; [by eexists|].
  intros p s3 [= <- <-]. rewrite Page_sub_user by (by apply aligned_add || (unfold PAGE in *; lia)).
  apply returns_bind; [by eexists|]. intros q s4 [= <- <-]. apply unmap_loop_comes_back.
Qed.

Lemma on_machine_returns {R} (f : M Mc R) (m : Mem PT) : returns f (machine m) → returns (on_machine f) m.
Proof. intros [[r t] Hf]. unfold returns, on_machine, zoom. rewrite Hf. by eexists. Qed.

Lemma heap_clean_up_returns root e (t : Mc) : heap_range e → returns (HeapOps.clean_up root HEAP_START) (e, t).
Proof.
  intros He. unfold HeapOps.clean_up, HeapOps.memory_usage. apply returns_bind.
  { apply returns_bind; [by eexists|]. intros e' s [= <- <-]. apply word_op_comes_back. }
  intros u [e1 t1] Hu. apply bind_Done in Hu as (e' & s1 & Hg & Hu). apply gets_Done in Hg as [<- <-].
  apply word_op_Done in Hu as [[= -> ->] _]. simpl. case_match; [apply returns_mret|].
  apply returns_bind; [by eexists|]. intros e' s [= <- <-]. cbn [HeapOps.store_end fst snd].
  rewrite VirtAddr_new_heap by done. apply returns_bind; [by eexists|]. intros va s [= <- <-].
  apply returns_bind_ok; [|intros; apply returns_mret].
  destruct (unmap_loop_comes_back root (Page_range_inclusive (Page_containing_address HEAP_START) (Page_containing_address e)) t) as [[r t'] Hr].
  unfold returns, HeapOps.on_machine, zoom, unmap_range. simpl. rewrite Hr. by eexists.
Qed.

Lemma Arc_deref_returns a x (m : Mem PT) : arcs m !! a = Some x → returns (Arc_deref a) m.
Proof. intros Ha. unfold returns, Arc_deref. rewrite (bind_step _ _ _ _ _ eq_refl), Ha. by eexists. Qed.

Lemma clean_up_shared_returns v root x e (m : Mem PT) :
  arcs m !! page_table v = Some x → base (heap v) = HEAP_START → ends m !! end_ (heap v) = Some e → heap_range e →
  returns (Vm.clean_up_shared v root) m.
Proof.
  intros Ha Hb He Hr. unfold Vm.clean_up_shared. rewrite Hb. apply returns_bind_ok.
  { destruct (heap_clean_up_returns root e (machine m) Hr) as [[r [e' t]] Hh].
    unfold returns, on_heap. rewrite (bind_step _ _ _ _ _ eq_refl), He, (bind_step _ _ m e m eq_refl), Hh. by eexists. }
  intros u m1 Hh. apply on_heap_refs in Hh as (Ha1 & _). rewrite <- Ha1 in Ha. clear Ha1 He m.
  apply returns_bind_ok; [apply on_machine_returns, unmap_code_returns|].
  intros u1 m2 Hu. apply on_machine_Done in Hu as (t & _ & ->).
  apply returns_bind.
  { apply on_machine_returns. unfold returns, Vm.clean_up_tables.
    destruct (Hclean root (tables t) (falloc t)) as [[pt a] Hc]. simpl. rewrite Hc. by eexists. }
  intros u2 m3 Hu. apply on_machine_Done in Hu as (t2 & _ & ->).
  apply returns_bind; [by eapply Arc_deref_returns|].
  intros reg m4 Hd. apply returns_bind; [apply on_machine_returns, dealloc_returns|]. intros; apply returns_mret.
Qed.

(** A process memory can be given back: its page table is there, its stack is well formed,
    and, when it is the last on its page table, so is its heap. *)
Definition disposable (v : ProcessVm) (m : Mem PT) : Prop :=
  stack_wf (stack v) ∧ ∃ reg n, arcs m !! page_table v = Some (reg, n) ∧
    (n = 1%nat → base (heap v) = HEAP_START ∧ ∃ e, ends m !! end_ (heap v) = Some e ∧ heap_range e).

Lemma drop_returns v (m : Mem PT) :
  is_Some PHYSICAL_OFFSET → disposable v m → ∃ t, Vm.drop PHYSICAL_OFFSET v m = Done ((), t).
Proof.
  intros [off Hoff] (Hst & reg & n & Ha & Hh).
  assert (Hret : returns (Vm.drop PHYSICAL_OFFSET v) m); [|by destruct Hret as [[[] t] Ht]; exists t].
  unfold Vm.drop. apply returns_bind.
  - unfold Vm.clean_up. apply returns_bind.
    { unfold PageTableContext.mapper, physical_to_virtual. rewrite Hoff.
      apply returns_bind; [by eapply Arc_deref_returns|]. intros r m1 _.
      apply returns_bind; [apply returns_bind; [by eexists|intros; apply word_op_comes_back]|]. intros x m2 _.
      apply returns_bind; [by eexists|intros; apply returns_mret]. }
    intros root m1 Hm. apply mapper_Done in Hm as (-> & _).
    apply returns_bind; [by apply on_machine_returns, stack_clean_up_returns|].
    intros [[u|e] st] m1 Hs; [|apply returns_mret]. apply on_machine_Done in Hs as (t & _ & ->). cbn [fst snd].
    apply returns_bind.
    { unfold returns, PageTableContext.using_count. rewrite (bind_step _ _ _ _ _ eq_refl). cbn [arcs page_table]. rewrite Ha. by eexists. }
    intros k m2 Hu. apply using_count_Done in Hu as (-> & w & Hw). cbn [arcs page_table] in Hw. rewrite Ha in Hw. injection Hw as <- <-.
    case_decide as Hn; [|apply returns_mret]. destruct (Hh Hn) as (Hb & e & He & Hr).
    apply returns_bind; [by eapply clean_up_shared_returns|intros; apply returns_mret].
  - intros r m1 Hc. destruct (clean_up_refs _ _ _ _ _ Hc) as [(Hr & _) Hp].
    unfold Arc_drop. rewrite Hp. unfold returns. rewrite (bind_step _ _ _ _ _ eq_refl), Hr, Ha. simpl.
    destruct n as [|[|n]]; by eexists.
Qed.

(** ** What is given back *)

Context (mapping : PT → Z → Z → option (Z * Z)) `{!Mapper_Laws PT mapping}.
Context (own : PT → Z → Prop) (entry : PT → Z → Z → option Z) (huge : PT → Z → Z → Prop)
  `{!Mapper_Tables PT mapping own entry huge}.

(** From [s] to [s'], [root]'s [pages] are unmapped, and their frames are free. *)
Definition unmaps (root : Z) (pages : list Z) (s s' : Mc) : Prop :=
  ∃ fs, mapped_to mapping root pages fs (tables s) ∧ free (falloc s') ≡ₚ fs ++ free (falloc s) ∧
    Elf.mem s' = Elf.mem s ∧
    (∀ q, mapping (tables s') root q = if decide (q ∈ pages) then None else mapping (tables s) root q) ∧
    ∀ x, own (tables s') x ↔ own (tables s) x.

Definition all_mapped (root : Z) (pages : list Z) (s : Mc) : Prop :=
  ∀ p, p ∈ pages → is_Some (mapping (tables s) root p).

Lemma unmaps_nil root (s : Mc) : unmaps root [] s s.
Proof. exists []. split_and!; [constructor|done|done| |done]. intros q. rewrite decide_False; [done|]. apply not_elem_of_nil. Qed.

Lemma unmaps_trans root ps qs (s1 s2 s3 : Mc) :
  NoDup (ps ++ qs) → unmaps root ps s1 s2 → unmaps root qs s2 s3 → unmaps root (ps ++ qs) s1 s3.
Proof.
  intros (_ & Hd & _)%NoDup_app (fs & Hf & Hp & Hm & Hq & Ho) (gs & Hg & Hp' & Hm' & Hq' & Ho').
  exists (fs ++ gs). split_and!.
  - apply Forall2_app; [done|]. apply Forall2_same_length_lookup_2; [exact (Forall2_length _ _ _ Hg)|].
    intros i p g Hpi Hgi. destruct (Forall2_lookup_lr _ _ _ _ _ _ Hg Hpi Hgi) as [fl Hx]. exists fl.
    rewrite Hq, decide_False in Hx; [done|]. intros Hin. by eapply (Hd p), list_elem_of_lookup_2.
  - rewrite Hp', Hp, (assoc_L (++)). by rewrite (Permutation_app_comm gs fs).
  - congruence.
  - intros q. rewrite Hq', Hq. repeat case_decide; set_solver.
  - intros x. by rewrite Ho', Ho.
Qed.

Lemma mapped_rest root ps qs (s s' : Mc) :
  NoDup (ps ++ qs) → all_mapped root (ps ++ qs) s → unmaps root ps s s' → all_mapped root qs s'.
Proof.
  intros (_ & Hd & _)%NoDup_app Hm (_ & _ & _ & _ & Hq & _) p Hp. rewrite Hq, decide_False; [apply Hm; set_solver|].
  intros Hin. by apply (Hd p).
Qed.

Lemma dealloc_all_comes_back fs (a : BootInfoFrameAllocator) : ∃ a', dealloc_all fs a = Done a'.
Proof.
  revert a. induction fs as [|f fs IH]; intros a; [by eexists|]. simpl.
  destruct (word_op_comes_back 64 (used a - 1) a) as [[u b] Hu].
  unfold Arch.deallocate_frame, FrameAlloc.frame_deallocator, FrameAlloc.deallocate_frame.
  rewrite (bind_step _ _ _ _ _ eq_refl), (bind_step _ _ _ _ _ Hu). simpl. apply IH.
Qed.

Lemma unmap_loop_own root pages (s : Mc) r s' x :
  unmap_loop root true pages s = Done (r, s') → own (tables s') x ↔ own (tables s) x.
Proof.
  revert s. induction pages as [|p pages IH]; intros s Hr; simpl in Hr; [by inv_done|].
  apply bind_Done in Hr as (y & s1 & Hu & Hr). unfold page_unmap in Hu.
  destruct (unmap root p (tables s)) as [y' pt] eqn:E. injection Hu as <- <-.
  apply (unmap_tables (mapping := mapping)) in E as [Ho _]. destruct y' as [f|e]; [|by inv_done; rewrite Ho].
  apply bind_Done in Hr as (u & s2 & Hd & Hr). apply IH in Hr as ->.
  unfold dealloc_frame in Hd. simpl in Hd. destruct (Arch.deallocate_frame f (falloc s)); [|done..]. injection Hd as _ <-. apply Ho.
Qed.

Lemma unmap_loop_unmaps root pages (s : Mc) :
  NoDup pages → all_mapped root pages s → ∃ s', unmap_loop root true pages s = Done (Ok (), s') ∧ unmaps root pages s s'.
Proof.
  intros Hn Hm. destruct (mapped_to_exists mapping root pages (tables s) Hm) as [fs Hfs].
  destruct (dealloc_all_comes_back fs (falloc s)) as [a Ha].
  destruct (unmap_loop_mapped mapping _ _ _ _ _ Hn Hfs Ha) as (pt & Hl & Hno & Ho).
  eexists. split; [exact Hl|]. exists fs. apply dealloc_all_free in Ha as [Hf _]. split_and!; simpl; try done.
  - by rewrite Hf, reverse_Permutation.
  - intros q. case_decide; auto.
  - intros x. by apply (unmap_loop_own _ _ _ _ _ x) in Hl.
Qed.

Lemma stack_clean_up_unmaps root st (s : Mc) :
  stack_wf st → all_mapped root (stack_pages st) s →
  ∃ st' s', StackOps.clean_up root st s = Done ((Ok (), st'), s') ∧ unmaps root (stack_pages st) s s'.
Proof.
  intros (Hal & Hae & Hb & He & Hu) Hm. unfold StackOps.clean_up.
  assert (Hn : 0 ≤ usage st ∧ range_start st + usage st * PAGE = range_end st).
  { unfold aligned, PAGE in *. Z.div_mod_to_equations. lia. }
  destruct (Z.eqb_spec (usage st) 0) as [E|E].
  - exists st, s. split; [done|]. unfold stack_pages. rewrite <- (proj2 Hn), E, Z.mul_0_l, Z.add_0_r.
    unfold pages_between. rewrite Z.sub_diag. simpl. apply unmaps_nil.
  - destruct (unmap_loop_unmaps root (stack_pages st) s (pages_between_NoDup _ _) Hm) as (s' & Hl & Hus).
    do 2 eexists. split; [|exact Hus]. rewrite (bind_step _ _ s (Ok ()) s'); [done|].
    rewrite (unmap_pages_eq _ _ (range_start st)); [by rewrite (proj2 Hn)| |].
    + unfold user_range, PAGE in *. lia.
    + unfold aligned in Hal. lia.
Qed.

Lemma heap_clean_up_unmaps root e (s : Mc) :
  heap_range e → all_mapped root (heap_pages e) s →
  ∃ e' s', HeapOps.clean_up root HEAP_START (e, s) = Done (Ok (), (e', s')) ∧ unmaps root (heap_pages e) s s'.
Proof.
  intros He Hm. unfold HeapOps.clean_up, HeapOps.memory_usage, HeapOps.load_end.
  rewrite (bind_step _ _ (e, s) (e - HEAP_START) (e, s)); cycle 1.
  { rewrite (bind_step _ _ (e, s) e (e, s)) by done. apply word_op_exact.
    unfold heap_range, HEAP_SIZE, HEAP_PAGES, PAGE_SIZE, HEAP_START in *. lia. }
  destruct (Z.eqb_spec (e - HEAP_START) 0) as [E|E].
  - assert (e = HEAP_START) as -> by lia. exists HEAP_START, s. split; [done|]. apply unmaps_nil.
  - destruct (unmap_loop_unmaps root (heap_pages e) s (pages_between_NoDup _ _) Hm) as (s' & Hl & Hus).
    exists HEAP_START, s'. split; [|exact Hus].
    rewrite (bind_step _ _ (e, s) e (HEAP_START, s)) by done. rewrite VirtAddr_new_heap by done. cbv zeta.
    rewrite (bind_step _ _ (HEAP_START, s) e (HEAP_START, s)) by done.
    unfold unmap_range. rewrite clean_up_pages by (done || lia).
    unfold mbind, M_bind, HeapOps.on_machine, zoom. simpl. by rewrite Hl.
Qed.

Definition code_pages (code : list (Z * Z)) : list Z := r ← code; Page_range_inclusive r.1 r.2.

Lemma unmap_code_unmaps root code (s : Mc) :
  NoDup (code_pages code) → all_mapped root (code_pages code) s →
  ∃ s', Vm.unmap_code root code s = Done (Ok (), s') ∧ unmaps root (code_pages code) s s'.
Proof.
  revert s. induction code as [|r code IH]; intros s Hn Hm; [exists s; split; [done|apply unmaps_nil]|].
  change (code_pages (r :: code)) with (Page_range_inclusive r.1 r.2 ++ code_pages code) in *.
  pose proof Hn as (Hn1 & _ & Hn2)%NoDup_app.
  destruct (unmap_loop_unmaps root (Page_range_inclusive r.1 r.2) s) as (s1 & Hl & Hu1); [done|intros p Hp; apply Hm; set_solver|].
  destruct (IH s1) as (s2 & Hl2 & Hu2); [done|by eapply mapped_rest|].
  exists s2. split; [|by eapply unmaps_trans]. simpl. unfold unmap_range. by rewrite (bind_step _ _ _ _ _ Hl).
Qed.

(** The pages that go with a process memory whose page table has [n] users: its stack; for
    the last user, also the heap that ends at [e] and the code. *)
Definition held_pages (v : ProcessVm) (e : Z) (n : nat) : list Z :=
  stack_pages (stack v) ++ if decide (n = 1%nat) then heap_pages e ++ code_pages (code v) else [].

Definition in_place (v : ProcessVm) (reg : Cr3RegValue) (e : Z) (n : nat) (m : Mem PT) : Prop :=
  NoDup (held_pages v e n) ∧ all_mapped (addr reg) (held_pages v e n) (machine m).

(** Those pages are unmapped, every other page of the page table is as it was, and the frames
    they were mapped to are free.  For the last user the page tables that are left empty are
    taken out by the mapper's [clean_up] and their frames are free too, as is that of the
    level-4 table, which nothing refers to any more; otherwise the page table has one user less. *)
Definition gives_back (v : ProcessVm) (reg : Cr3RegValue) (e : Z) (n : nat) (m m' : Mem PT) : Prop :=
  ∃ fs pt a, mapped_to mapping (addr reg) (held_pages v e n) fs (tables (machine m)) ∧
    free a ≡ₚ fs ++ free (falloc (machine m)) ∧
    (∀ q, mapping pt (addr reg) q =
      if decide (q ∈ held_pages v e n) then None else mapping (tables (machine m)) (addr reg) q) ∧
    Elf.mem (machine m') = Elf.mem (machine m) ∧
    if decide (n = 1%nat) then
      ∃ a1 ts, mapper_clean_up (addr reg) pt a = Done (tables (machine m'), a1) ∧ free a1 ≡ₚ ts ++ free a ∧
        NoDup ts ∧ (∀ t, t ∈ ts → own (tables (machine m)) t ∧ ¬ own (tables (machine m')) t) ∧
        (∀ q, mapping (tables (machine m')) (addr reg) q = mapping pt (addr reg) q) ∧
        free (falloc (machine m')) ≡ₚ addr reg :: free a1 ∧ arcs m' = delete (page_table v) (arcs m)
    else tables (machine m') = pt ∧ falloc (machine m') = a ∧ arcs m' = <[page_table v := (reg, pred n)]> (arcs m).

Lemma clean_up_shared_gives v root reg n e (m : Mem PT) :
  arcs m !! page_table v = Some (reg, n) → base (heap v) = HEAP_START →
  ends m !! end_ (heap v) = Some e → heap_range e →
  NoDup (heap_pages e ++ code_pages (code v)) → all_mapped root (heap_pages e ++ code_pages (code v)) (machine m) →
  ∃ s pt a a' m', unmaps root (heap_pages e ++ code_pages (code v)) (machine m) s ∧
    mapper_clean_up root (tables s) (falloc s) = Done (pt, a) ∧
    Arch.deallocate_frame (addr reg) a = Done a' ∧
    Vm.clean_up_shared v root m = Done (Ok (), m') ∧
    machine m' = mkMachine pt a' (Elf.mem s) ∧ arcs m' = arcs m.
Proof.
  intros Ha Hb He Hr Hn Hm. unfold Vm.clean_up_shared. rewrite Hb. pose proof Hn as (_ & _ & Hn2)%NoDup_app.
  destruct (heap_clean_up_unmaps root e (machine m) Hr) as (e' & s1 & Hh & Hu1); [intros p Hp; apply Hm; set_solver|].
  destruct (unmap_code_unmaps root (code v) s1 Hn2) as (s2 & Hc & Hu2); [by eapply mapped_rest|].
  destruct (Hclean root (tables s2) (falloc s2)) as [[pt a] Hcl].
  destruct (dealloc_all_comes_back [addr reg] a) as [a' Hd]. simpl in Hd.
  destruct (Arch.deallocate_frame (addr reg) a) as [a1| |] eqn:Ed; [|done..]. injection Hd as <-.
  exists s2, pt, a, a1, (mkMem (mkMachine pt a1 (Elf.mem s2)) (arcs m) (<[end_ (heap v) := e']> (ends m)) (cr3 m)). split_and!; [by eapply unmaps_trans|exact Hcl|exact Ed| |reflexivity|reflexivity].
  unfold on_heap. erewrite bind_step; cycle 1.
  { rewrite (bind_step _ _ m m m eq_refl), He, (bind_step _ _ m e m eq_refl), Hh. reflexivity. }
  cbv beta iota. erewrite bind_step; [|unfold on_machine, zoom; simpl; rewrite Hc; reflexivity].
  cbv beta iota. erewrite bind_step; [|unfold on_machine, zoom, Vm.clean_up_tables; simpl; rewrite Hcl; reflexivity].
  cbv beta iota. erewrite bind_step; [|unfold Arc_deref; rewrite (bind_step _ _ _ _ _ eq_refl); simpl; rewrite Ha; reflexivity].
  cbv beta iota. erewrite bind_step; [|unfold on_machine, zoom, dealloc_frame; simpl; rewrite Ed; reflexivity].
  reflexivity.
Qed.

(** [ProcessVm::drop] gives back what it holds. *)
Lemma drop_gives_back v reg n e (m m' : Mem PT) u :
  stack_wf (stack v) → arcs m !! page_table v = Some (reg, n) → (0 < n)%nat →
  base (heap v) = HEAP_START → ends m !! end_ (heap v) = Some e → heap_range e → in_place v reg e n m →
  Vm.drop PHYSICAL_OFFSET v m = Done (u, m') → gives_back v reg e n m m'.
Proof.
  intros Hst Ha Hn0 Hb He Hr [Hnd Hm] Hd.
  destruct (stack_clean_up_unmaps (addr reg) (stack v) (machine m) Hst) as (st & s1 & Hs & Hu1);
    [intros p Hp; apply Hm; unfold held_pages; set_solver|].
  unfold Vm.drop, Vm.clean_up in Hd. apply bind_Done in Hd as (r & m1 & Hc & Hd).
  apply bind_Done in Hc as (root & m2 & Hmp & Hc). apply mapper_Done in Hmp as (-> & w & k & Hw & ->).
  rewrite Ha in Hw. injection Hw as <- <-.
  apply bind_Done in Hc as (x & m2 & Hx & Hc). apply on_machine_Done in Hx as (t & Hx & ->).
  rewrite Hs in Hx. injection Hx as <- <-. cbn [fst snd] in Hc.
  apply bind_Done in Hc as (k & m3 & Hk & Hc). apply using_count_Done in Hk as (-> & w & Hw).
  cbn [arcs page_table] in Hw. rewrite Ha in Hw. injection Hw as <- <-.
  unfold gives_back, held_pages in *. destruct (decide (n = 1%nat)) as [->|Hn].
  - pose proof (mapped_rest _ _ _ _ _ Hnd Hm Hu1) as Hm2. pose proof Hnd as (_ & _ & Hnd2)%NoDup_app.
    set (v' := mkVm _ _ _ _ _) in Hc.
    destruct (clean_up_shared_gives v' (addr reg) reg 1 e (mkMem s1 (arcs m) (ends m) (cr3 m)) Ha Hb He Hr Hnd2 Hm2)
      as (s2 & pt & a & a' & m3 & Hu2 & Hcl & Hde & Hsh & Hma & Har).
    rewrite (bind_step _ _ _ _ _ Hsh) in Hc. apply ret_Done in Hc as [<- <-].
    pose proof (unmaps_trans _ _ _ _ _ _ Hnd Hu1 Hu2) as (fs & Hf & Hfr & Hme & Hq & Ho).
    exists fs, (tables s2), (falloc s2).
    unfold Arc_drop in Hd. rewrite (bind_step _ _ _ _ _ eq_refl) in Hd. cbn [snd page_table v'] in Hd.
    rewrite Har in Hd. cbn [arcs] in Hd. rewrite Ha in Hd. injection Hd as _ <-. cbn [set_arcs machine arcs].
    rewrite Hma. cbn [Elf.mem tables falloc].
    destruct (clean_up_tables (own := own) (entry := entry) (huge := huge) _ _ _ _ _ Hcl) as (ts & Hts & Hnt & Hot & Hot' & _).
    apply dealloc_all_free in Hts as [Hts _]. apply deallocate_free in Hde as [Hde _].
    split_and!; [exact Hf|exact Hfr|exact Hq|exact Hme|]. exists a, ts. split_and!.
    + exact Hcl.
    + by rewrite Hts, reverse_Permutation.
    + exact Hnt.
    + intros t Ht. split; [by apply Ho, Hot|]. rewrite Hot'. by intros [_ ?].
    + intros q. by rewrite (mapper_clean_up_mapping (mapping := mapping) _ _ _ _ _ Hcl).
    + by rewrite Hde.
    + reflexivity.
  - apply ret_Done in Hc as [<- <-]. rewrite app_nil_r in *. destruct Hu1 as (fs & Hf & Hfr & Hme & Hq & Ho).
    exists fs, (tables s1), (falloc s1).
    unfold Arc_drop in Hd. rewrite (bind_step _ _ _ _ _ eq_refl) in Hd. cbn [snd page_table arcs] in Hd. rewrite Ha in Hd.
    destruct n as [|[|n]]; [lia|done|]. injection Hd as _ <-.
    split_and!; [exact Hf|exact Hfr|exact Hq|exact Hme|reflexivity..].
Qed.

(** ** [exit] returns *)

Context (selector : Z * Z) (clock_nanos : Z) (Layout_of : list Z → Z * Z).

(** C9: [exit] in every reachable state.  The running process is alive, does not
    wait for itself, and has a well-formed stack in the lower half and a heap
    within its area; no process that was killed has been made ready again or
    waits for it.  Then [exit] returns: the exit code is recorded, the waiters are
    ready with it in [rax], their entry is gone, the data of the processes is
    what it was, and the first ready process of the queue, to whose end the
    waiters were added, runs with the registers it was saved with.  And what the
    process held is given back ([gives_back]), when its pages are mapped: those of its stack
    alone while the page table has other users, and otherwise also those of the heap
    and of the code, the page tables left empty, and the level-4 table. *)
Theorem reachable_exit pages (k0 k : Kernel PT Q) u ua s ret ctx cur p v :
  is_Some PHYSICAL_OFFSET →
  pristine k0 → Manager.init cpuid pages k0 = Done (u, k) →
  rtc (step PHYSICAL_OFFSET cpuid selector clock_nanos Layout_of) (k, ua) s →
  running cpuid s.1 = Some cur → lookup_proc s.1 cur = Some p → cur ∉ waiters s.1 cur →
  proc_vm (inner p) = Some v → stack_wf (stack v) → base (heap v) = HEAP_START →
  (∀ e, ends (kmem s.1) !! end_ (heap v) = Some e → heap_range e) →
  (∀ q pq, lookup_proc s.1 q = Some pq → status (inner pq) = Ready ∨ q ∈ waiters s.1 cur → exit_code (inner pq) = None) →
  ∃ ctx' k', process_exit PHYSICAL_OFFSET cpuid ret ctx s.1 = Done (ctx', k') ∧ wf cpuid k' ∧
    leaves cpuid ctx cur (ready_queue s.1 ++ filter (known s.1) (waiters s.1 cur))
      (after_exit ret s.1 cur p) ctx' k' ∧
    Process.wait_queue k' = delete cur (Process.wait_queue s.1) ∧ data k' = data s.1 ∧
    ∃ reg n e, arcs (kmem s.1) !! page_table v = Some (reg, n) ∧ ends (kmem s.1) !! end_ (heap v) = Some e ∧
      (in_place v reg e n (kmem s.1) → gives_back v reg e n (kmem s.1) (kmem k')).
Proof.
  intros Hoff Hpr Hin Hs Hr Hl Hself Hv Hst Hb Hrg Hal.
  destruct (reachable_good _ _ _ _ _ _ _ _ _ _ _ Hpr Hin Hs) as [[Hwf _] Hsp].
  assert (Hex : exit_code (inner p) = None).
  { apply bind_Some in Hl as (l & Hq & Hp). destruct (wf_table _ _ Hwf cur l Hq) as (p' & Hp' & _ & (Hi & _)).
    assert (p' = p) as -> by congruence. apply Hi. by rewrite Hv. }
  destruct (spaces_proc cpuid s.1 cur p Hwf Hsp Hl Hex) as (v' & reg & n & Hv' & Ha & Hn & [e He] & _).
  assert (v' = v) as -> by congruence.
  assert (Hn0 : (0 < n)%nat).
  { apply bind_Some in Hl as (l & _ & Hp). pose proof (vms_elem _ _ _ _ Hp Hv) as Hin'.
    assert (v ∈ filter (λ w, page_table w = page_table v) (vms s.1)) as Hf by (by apply list_elem_of_filter).
    rewrite Hn. destruct (filter _ _); [by apply not_elem_of_nil in Hf|simpl; lia]. }
  destruct (process_exit_effects PHYSICAL_OFFSET cpuid ret ctx s.1 cur p Hwf Hr Hl Hself) as (ctx' & k' & Hx & Hwf' & Hlv & Hwq & Hd).
  - intros w Hw. assert (w = v) as -> by congruence. apply drop_returns; [exact Hoff|].
    split; [exact Hst|]. exists reg, n. split; [exact Ha|]. eauto.
  - apply (spaces_survivors cpuid); [exact Hwf|exact Hsp|exact Hl|]. intros q pq _ Hq [[_ Hrd]|Hw]; eauto.
  - exists ctx', k'. split_and!; [exact Hx|exact Hwf'|exact Hlv|exact Hwq|exact Hd|]. exists reg, n, e. split_and!; [exact Ha|exact He|].
    intros Hpl. apply (process_exit_effect _ _ _ _ _ cur p) in Hx as (_ & _ & _ & m & Hm & Har & Hma & _); [|done..].
    rewrite Hv in Hm. apply (drop_gives_back _ _ _ _ _ _ _ Hst Ha Hn0 Hb He (Hrg e He) Hpl) in Hm.
    unfold gives_back in *. by rewrite Har, Hma.
Qed.

End Teardown.

(** ** Examples: the spawned process of [Spaces], and one that exits *)

Section TeardownWitnesses.
#[local] Existing Instance x86_ref.
#[local] Existing Instance release.

Lemma app_runs_alive q p : lookup_proc app_runs.1 q = Some p → exit_code (inner p) = None.
Proof. apply all_alive. vm_compute. reflexivity. Qed.

Lemma app_runs_running : running 0 app_runs.1 = Some 2.
Proof. vm_compute. reflexivity. Qed.

Definition app_runs_vm : ProcessVm := mkVm 1 stack_example (mkHeap HEAP_START 1) [(0x401000, 0x401000)] 0x1000.

Lemma app_runs_proc : ∃ p, lookup_proc app_runs.1 2 = Some p ∧ proc_vm (inner p) = Some app_runs_vm.
Proof. eexists. split; vm_compute; reflexivity. Qed.

Lemma app_runs_heap e : ends (kmem app_runs.1) !! end_ (heap app_runs_vm) = Some e → heap_range e.
Proof.
  intros He. assert (e = HEAP_START) as -> by (vm_compute in He; by injection He as <-).
  unfold heap_range, HEAP_SIZE, HEAP_PAGES, PAGE_SIZE. lia.
Qed.

Lemma clean_up_ref (root : Z) (pt : table) (a : BootInfoFrameAllocator) : ∃ r, mapper_clean_up root pt a = Done r.
Proof. by eexists. Qed.

(** Process 2 of the two that [Untouched] has run exits: its stack and its code are one
    page each. *)
Definition vault_vm : ProcessVm :=
  mkVm 1 (mkStack 0x3FFFFFFFF000 0x400000000000 1) (mkHeap HEAP_START 1) [(0x111100000000, 0x111100000000)] 0x1000.
Definition vault_root : Cr3RegValue := mkCr3 0x10000 0.

Lemma vault_proc : ∃ p, lookup_proc vault_runs.1 2 = Some p ∧ proc_vm (inner p) = Some vault_vm.
Proof. eexists. split; vm_compute; reflexivity. Qed.

Lemma vault_runs_reached : rtc (step vault_offset 0 (8, 16) 0 layout_example) (vault_started, 0) vault_runs.
Proof.
  etrans; [|eapply rtc_l, rtc_once].
  - eapply (rtc_subrel _ _ _ _ (λ s s' H, proj1 H)), vault_reached.
  - apply (step_key vault_offset 0 (8, 16) 0 layout_example (Some 66) _ vault_key). apply value_state. vm_compute. reflexivity.
  - eapply (step_clock vault_offset 0 (8, 16) 0 layout_example (regs_example 5) _ _ vault_runs). apply value_state. vm_compute. reflexivity.
Qed.

Lemma vault_alive q p : lookup_proc vault_runs.1 q = Some p → exit_code (inner p) = None.
Proof. apply all_alive. vm_compute. reflexivity. Qed.

Lemma vault_in_place : in_place paged_mapping vault_vm vault_root HEAP_START 1 (kmem vault_runs.1).
Proof.
  split; [apply (bool_decide_eq_true_1 _); vm_compute; reflexivity|].
  unfold all_mapped. apply (Forall_forall (λ p, is_Some _)). apply (bool_decide_eq_true_1 _). vm_compute. reflexivity.
Qed.

Lemma vault_arc : arcs (kmem vault_runs.1) !! page_table vault_vm = Some (vault_root, 1%nat).
Proof. vm_compute. reflexivity. Qed.

Lemma vault_end : ends (kmem vault_runs.1) !! end_ (heap vault_vm) = Some HEAP_START.
Proof. vm_compute. reflexivity. Qed.

Lemma clean_up_paged (root : Z) (pt : paged) (a : BootInfoFrameAllocator) : ∃ r, mapper_clean_up root pt a = Done r.
Proof. simpl. destruct (dealloc_all_comes_back (H := release) eq_refl (filter (idle pt root) (elements (held pt))) a) as [a' ->]. by eexists. Qed.

(** Five frames come back: the two pages', two page tables' and the level-4 table's. *)
Lemma reachable_exit_witness :
  ∃ ctx' k', process_exit vault_offset 0 7 (regs_example 8) vault_runs.1 = Done (ctx', k') ∧ wf 0 k' ∧
    running 0 k' = Some 3 ∧ gives_back paged_mapping paged_own vault_vm vault_root HEAP_START 1 (kmem vault_runs.1) (kmem k') ∧
    length (free (falloc (machine (kmem k')))) = (5 + length (free (falloc (machine (kmem vault_runs.1)))))%nat.
Proof.
  destruct vault_proc as (p & Hl & Hv).
  destruct (reachable_exit (H := release) vault_offset 0 eq_refl clean_up_paged paged_mapping paged_own paged_entry paged_huge
    (8, 16) 0 layout_example [] vault_boot vault_started () 0 vault_runs 7 (regs_example 8) 2 p vault_vm)
    as (ctx' & k' & Hx & Hwf & _ & _ & _ & reg & n & e & Ha & He & Hg).
  - by eexists.
  - exact (b_pristine _ _ _ _ _ vault_booted).
  - apply value_state. vm_compute. reflexivity.
  - exact vault_runs_reached.
  - vm_compute. reflexivity.
  - exact Hl.
  - vm_compute. intros Hin%elem_of_nil. done.
  - exact Hv.
  - split_and!; vm_compute; (reflexivity || discriminate).
  - reflexivity.
  - intros e He. pose proof (eq_trans (eq_sym He) vault_end) as [= ->].
    unfold heap_range, HEAP_SIZE, HEAP_PAGES, PAGE_SIZE. lia.
  - intros q pq Hq _. exact (vault_alive q pq Hq).
  - pose proof (eq_trans (eq_sym Ha) vault_arc) as [= -> ->]. pose proof (eq_trans (eq_sym He) vault_end) as [= ->].
    exists ctx', k'. split; [exact Hx|]. split; [exact Hwf|].
    rewrite <- (state_of_Done _ vault_runs.1 _ _ Hx). split; [vm_compute; reflexivity|].
    split; [rewrite (state_of_Done _ vault_runs.1 _ _ Hx); exact (Hg vault_in_place)|vm_compute; reflexivity].
Defined.

End TeardownWitnesses.
