(* ===== verification/ForkReturns.v ===== *)
(** [fork] comes back: with enough frames, and a free slot for the stack among
    those the search comes to, the whole system call returns, and the child has
    its stack in one of these slots. *)
From S2P Require Import Prelude Arch Pid Sync Frames Elf Supply Stack Heap Vm Context Resource Data Process Manager.
From S2P Require Import Syscall Scheduler KernelExample RoundRobin Lifecycle Fork Reachable Effects Spaces Teardown.
From stdpp Require Import strings.
#[local] Open Scope Z_scope.

Section ForkReturns.
Context `{Profile} `{!X86_64} `{!X86_64_Laws _} {PT Q : Type} `{!Mapper PT} `{!ArrayQueue Q}.
Context (mapping : PT → Z → Z → option (Z * Z)) `{!Mapper_Laws PT mapping}.
Context (huge : PT → Z → Z → Prop) `{!Mapper_Free PT mapping huge}.
Context (Hrelease : debug_assertions = false).
(** in a release build the addition of addresses is that of [u64] *)
Context (Hadd : ∀ a b, canonical (wrap 64 (a + b)) → VirtAddr_add a b = Some (wrap 64 (a + b))).
#[local] Abbreviation Mc := (Machine PT BootInfoFrameAllocator).

(** The frames the allocator can still hand out. *)
Definition supply (a : BootInfoFrameAllocator) : Z := Z.of_nat (length (recycle a) + length (frames a)).

(** Those of the memory map are physical addresses. *)
Definition frames_valid (a : BootInfoFrameAllocator) : Prop :=
  Forall (λ vp : Z * Z, 0 ≤ vp.1 * 4096 + vp.2 < 2 ^ 52) (frames a).

Lemma allocate_supply a :
  frames_valid a → 0 < supply a →
  ∃ f b, allocate_frame a = Done (Some f, b) ∧ frames_valid b ∧ supply b = supply a - 1.
Proof.
  intros Hv Hs. unfold supply, frames_valid, allocate_frame, FrameAlloc.frame_allocator, FrameAlloc.allocate_frame in *.
  destruct a as [sz us fr [|f rest]]; cbn [frames recycle] in *.
  - destruct fr as [|[v st] fr]; [simpl in Hs; lia|]. apply Forall_cons in Hv as [Hv Hvs]. simpl in Hv.
    destruct (word_op_comes_back Hrelease 64 (us + 1) (mkAllocator sz us ((v, st) :: fr) [])) as [[u a1] Hu].
    pose proof Hu as Hu'. apply word_op_Done in Hu' as [-> _].
    rewrite (bind_step _ _ _ _ _ eq_refl). cbn [used recycle size frames]. rewrite (bind_step _ _ _ _ _ Hu).
    rewrite (bind_step _ _ _ _ _ eq_refl). unfold FrameAlloc.frames_next.
    rewrite (bind_step _ _ _ _ _ eq_refl). cbn [used recycle size frames].
    rewrite (bind_step _ _ _ (v * 4096 + st) (mkAllocator sz u ((v, st) :: fr) [])) by (apply word_op_exact; lia).
    rewrite PhysAddr_new_valid by lia. eexists _, (mkAllocator sz u fr []). split; [reflexivity|]. split; [done|].
    simpl. lia.
  - eexists f, (mkAllocator sz us fr rest). split; [reflexivity|]. split; [done|]. simpl. lia.
Qed.

Lemma supply_supplies n a : frames_valid a → Z.of_nat n ≤ supply a → supplies n a.
Proof.
  revert a. induction n as [|n IH]; intros a Hv Hs; [done|].
  destruct (allocate_supply a Hv) as (f & b & Ha & Hvb & Hb); [lia|]. exists f, b. split; [done|]. apply IH; [done|lia].
Qed.

Lemma within_supply n a b :
  within n a b → frames_valid a → Z.of_nat n ≤ supply a → frames_valid b ∧ supply a - Z.of_nat n ≤ supply b.
Proof.
  induction 1 as [n a|n a f b c Ha _ IH]; intros Hv Hs; [split; [done|lia]|].
  destruct (allocate_supply a Hv) as (f' & b' & Ha' & Hvb & Hb); [lia|]. rewrite Ha in Ha'. injection Ha' as <- <-.
  destruct IH as [? ?]; [done|lia|]. split; [done|lia].
Qed.

(** What an operation leaves after it used at most [n] frames. *)
Definition spends (n : Z) (s s' : Mc) : Prop :=
  frames_valid (falloc s') ∧ supply (falloc s) - n ≤ supply (falloc s') ∧
  ∀ r q, huge (tables s') r q → huge (tables s) r q.

Lemma spends_trans n m s1 s2 s3 : spends n s1 s2 → spends m s2 s3 → spends (n + m) s1 s3.
Proof. intros (_ & H2 & H3) (H4 & H5 & H6). split_and!; [done|lia|auto]. Qed.

Lemma spends_none n s : frames_valid (falloc s) → 0 ≤ n → spends n s s.
Proof. intros. split_and!; [done|lia|done]. Qed.

Lemma spends_weaken n m s1 s2 : spends n s1 s2 → n ≤ m → spends m s1 s2.
Proof. intros (H1 & H2 & H3) Hle. split_and!; [done|lia|done]. Qed.

(** One page, with its frame. *)
Lemma page_map_to_spends root p f fl (s : Mc) :
  frames_valid (falloc s) → 3 ≤ supply (falloc s) → ¬ huge (tables s) root p →
  ∃ r s', page_map_to root p f fl s = Done (r, s') ∧ spends 3 s s' ∧
    (mapping (tables s) root p = None → r = Ok ()).
Proof.
  intros Hv Hs Hh. unfold page_map_to. destruct (mapping (tables s) root p) as [[g gl]|] eqn:E.
  - rewrite (map_to_mapped root p f fl g gl) by done. eexists _, _. split; [done|]. split; [|done].
    destruct s as [t a me]. apply (spends_none 3 (mkMachine t a me)); [done|lia].
  - destruct (map_to_free root p f fl (tables s) (falloc s) E Hh) as (pt' & a' & Hm & Hw).
    { by apply (supply_supplies 3). }
    rewrite Hm. eexists _, _. split; [done|]. split; [|done].
    destruct (within_supply 3 _ _ Hw Hv Hs) as [? ?]. split_and!; simpl; [done|lia|]. exact (map_to_huge _ _ _ _ _ _ _ _ _ Hm).
Qed.

Lemma alloc_frame_spends (s : Mc) :
  frames_valid (falloc s) → 0 < supply (falloc s) →
  ∃ f s', alloc_frame s = Done (Some f, s') ∧ spends 1 s s' ∧ tables s' = tables s.
Proof.
  intros Hv Hs. unfold alloc_frame. destruct (allocate_supply (falloc s) Hv Hs) as (f & b & -> & Hvb & Hb).
  eexists f, _. split; [done|]. split; [|done]. split_and!; simpl; [done|lia|done].
Qed.

Lemma map_loop_spends root fl pages : ∀ (s : Mc),
  NoDup pages → frames_valid (falloc s) → 4 * Z.of_nat (length pages) ≤ supply (falloc s) →
  (∀ p, p ∈ pages → ¬ huge (tables s) root p) →
  ∃ r s', map_loop root fl pages s = Done (r, s') ∧ spends (4 * Z.of_nat (length pages)) s s' ∧
    ((∀ p, p ∈ pages → mapping (tables s) root p = None) → r = Ok ()).
Proof.
  induction pages as [|p pages IH]; intros s Hnd Hv Hs Hh; simpl map_loop.
  { eexists _, s. split; [done|]. split; [by apply spends_none|done]. }
  apply NoDup_cons in Hnd as [Hp Hnd]. simpl length in *.
  destruct (alloc_frame_spends s Hv) as (f & s1 & Ha & Hs1 & Ht); [lia|].
  rewrite (bind_step _ _ _ _ _ Ha). pose proof Hs1 as (Hv1 & Hl1 & _).
  destruct (page_map_to_spends root p f fl s1 Hv1) as (r & s2 & Hm & Hs2 & Hok); [lia|rewrite Ht; apply Hh; by left|].
  rewrite (bind_step _ _ _ _ _ Hm). pose proof (spends_trans _ _ _ _ _ Hs1 Hs2) as Hs12.
  pose proof Hm as Hm'. apply (page_map_to_Done mapping) in Hm' as (_ & _ & Hr).
  destruct r as [[]|e]; cycle 1.
  { eexists _, s2. split; [done|]. split; [eapply spends_weaken; [exact Hs12|lia]|].
    intros Hfree. rewrite Ht in Hok. by rewrite Hok in * by (apply Hfree; by left). }
  destruct Hr as (_ & _ & Ho). destruct Hs12 as (Hv2 & Hl2 & Hh2).
  destruct (IH s2 Hnd Hv2) as (r & s3 & Hl & Hs3 & Hok3); [lia|intros q Hq Hx; apply (Hh q); [by right|by apply Hh2]|].
  exists r, s3. split; [done|]. split.
  - eapply spends_weaken; [eapply spends_trans; [split_and!; [exact Hv2|exact Hl2|exact Hh2]|exact Hs3]|lia].
  - intros Hfree. apply Hok3. intros q Hq. rewrite Ho, Ht by (by intros ->). apply Hfree. by right.
Qed.

Lemma map_pages_spends addr pages root ua (s : Mc) :
  user_range addr pages → aligned addr → frames_valid (falloc s) → 4 * pages ≤ supply (falloc s) →
  (∀ p, p ∈ pages_between addr (addr + pages * PAGE) → ¬ huge (tables s) root p) →
  ∃ r s', map_pages addr pages root ua s = Done (r, s') ∧ spends (4 * pages) s s' ∧
    ((∀ p, p ∈ pages_between addr (addr + pages * PAGE) → mapping (tables s) root p = None) → ∃ rng, r = Ok rng).
Proof.
  intros Hr Hal Hv Hs Hh. pose proof Hal as Hal'. unfold aligned in Hal'. rewrite (map_pages_eq addr pages addr) by (done || lia).
  assert (Hlen : Z.of_nat (length (pages_between addr (addr + pages * PAGE))) = pages).
  { rewrite pages_between_length, Z.add_simpl_l, Z.div_mul by done. destruct Hr as (_ & ? & _). lia. }
  destruct (map_loop_spends root (map_flags ua) _ s (pages_between_NoDup addr (addr + pages * PAGE)) Hv) as (r & s' & Hl & Hsp & Hok);
    [by rewrite Hlen|done|]. rewrite Hlen in Hsp.
  rewrite (bind_step _ _ _ _ _ Hl). destruct r as [[]|e].
  - eexists _, s'. split; [done|]. split; [done|eauto].
  - eexists _, s'. split; [done|]. split; [done|]. intros Hf. by specialize (Hok Hf).
Qed.

(** ** The search *)

#[local] Abbreviation MAX := STACK_MAX_SIZE.

(** The pages of the [i]th slot that is tried from [top] on. *)
Definition slot (top n i : Z) : list Z := pages_between (top - i * MAX) (top - i * MAX + n * PAGE).

Lemma slot_next top n i : slot (top - MAX) n i = slot top n (i + 1).
Proof. unfold slot. by replace (top - (i + 1) * MAX) with (top - MAX - i * MAX) by lia. Qed.

Lemma aligned_slot top i : aligned top → aligned (top - i * MAX).
Proof. unfold aligned, STACK_MAX_SIZE, STACK_MAX_PAGES, PAGE. intros. Z.div_mod_to_equations. lia. Qed.

Lemma slots_disjoint top n i p :
  aligned top → 0 < n ≤ STACK_MAX_PAGES → 0 < i → p ∈ slot top n i → p ∉ slot top n 0.
Proof.
  intros Ha Hn Hi. unfold slot. rewrite !elem_of_pages_between by auto using aligned_slot, aligned_add.
  unfold STACK_MAX_SIZE, STACK_MAX_PAGES, PAGE in *. nia.
Qed.

(** The [j]th slot is free: the search ends there or before. *)
Lemma fork_loop_finds root n (j : nat) : ∀ fuel top (s : Mc),
  (j < fuel)%nat → 0 < n ≤ STACK_MAX_PAGES → aligned top → 0 ≤ top - Z.of_nat j * MAX →
  top + n * PAGE < 2 ^ 47 - PAGE → frames_valid (falloc s) → 4 * n * (Z.of_nat j + 1) ≤ supply (falloc s) →
  (∀ i p, 0 ≤ i ≤ Z.of_nat j → p ∈ slot top n i → ¬ huge (tables s) root p) →
  (∀ p, p ∈ slot top n (Z.of_nat j) → mapping (tables s) root p = None) →
  ∃ i s', 0 ≤ i ≤ Z.of_nat j ∧ StackOps.fork_loop fuel root n top s = Done (top - i * MAX, s').
Proof.
  induction j as [|j IH]; intros [|fuel] top s Hf Hn Ha Ht Hb Hv Hs Hh Hfree; try lia; simpl StackOps.fork_loop.
  all: assert (Hr : user_range top n) by (unfold user_range, STACK_MAX_SIZE, STACK_MAX_PAGES, PAGE in *; lia).
  all: assert (H0s : slot top n 0 = pages_between top (top + n * PAGE)) by (unfold slot; by rewrite Z.mul_0_l, Z.sub_0_r).
  all: destruct (map_pages_spends top n root true s Hr Ha Hv) as (r & s1 & Hm & Hsp & Hok);
    [lia|rewrite <- H0s; intros p; apply Hh; lia|]; rewrite <- H0s in Hok; rewrite (bind_step _ _ _ _ _ Hm).
  - destruct (Hok Hfree) as [rng ->]. exists 0, s1. split; [lia|]. by rewrite Z.mul_0_l, Z.sub_0_r.
  - destruct r as [rng|e]; [exists 0, s1; split; [lia|]; by rewrite Z.mul_0_l, Z.sub_0_r|].
    assert (Hw : word_op 64 (top - MAX) s1 = Done (top - MAX, s1)).
    { apply word_op_exact. unfold STACK_MAX_SIZE, STACK_MAX_PAGES, PAGE in *. lia. }
    rewrite (bind_step _ _ _ _ _ Hw). destruct Hsp as (Hv1 & Hs1 & Hh1).
    apply (map_pages_Done mapping) in Hm as [_ (m & p & rest & fs & Hpg & Hme)]; [|done].
    destruct Hme as (_ & _ & Hother).
    destruct (IH fuel (top - MAX) s1) as (i & s' & Hi & Hl); [lia|done| | |unfold STACK_MAX_SIZE, STACK_MAX_PAGES, PAGE in *; lia|done|lia| | |].
    + pose proof (aligned_slot top 1 Ha) as Hx. by rewrite Z.mul_1_l in Hx.
    + lia.
    + intros i q Hi Hq Hx. rewrite slot_next in Hq. apply (Hh (i + 1) q); [lia|done|by apply Hh1].
    + intros q Hq. rewrite slot_next in Hq. replace (Z.of_nat j + 1) with (Z.of_nat (S j)) in Hq by lia.
      rewrite Hother; [by apply Hfree|]. intros Hin. apply (slots_disjoint top n (Z.of_nat (S j)) q Ha Hn); [lia|done|].
      rewrite H0s. pose proof Ha as Ha'. unfold aligned in Ha'. rewrite Ha', Z.sub_0_r in Hpg. rewrite Hpg. set_solver.
    + exists (i + 1), s'. split; [lia|]. rewrite Hl. do 2 f_equal. lia.
Qed.

(** ** The copy *)

Lemma clone_pages_returns active offset n : ∀ cur dest (s : Mc),
  (∀ i, 0 ≤ i < Z.of_nat n → is_Some (mapping (tables s) active (cur + i * PAGE))) →
  (∀ i, 0 ≤ i < Z.of_nat n → is_Some (mapping (tables s) active (dest + i * PAGE))) →
  ∃ s', StackOps.clone_pages active offset cur dest n s = Done ((), s').
Proof.
  induction n as [|n IH]; intros cur dest s Hs Hd; simpl StackOps.clone_pages; [by eexists|].
  rewrite (bind_step _ _ s s s) by done.
  destruct (Hs 0) as [[f fl] Hf]; [lia|]. destruct (Hd 0) as [[g gl] Hg]; [lia|]. rewrite Z.add_0_r in Hf, Hg.
  rewrite (bind_step _ _ s f s) by (by rewrite translate_page_eq, Hf).
  rewrite (bind_step _ _ s g s) by (by rewrite translate_page_eq, Hg).
  rewrite (bind_step _ _ _ _ _ eq_refl). apply IH; cbn [tables]; intros i Hi.
  - replace (cur + PAGE + i * PAGE) with (cur + (i + 1) * PAGE) by lia. apply Hs. lia.
  - replace (dest + PAGE + i * PAGE) with (dest + (i + 1) * PAGE) by lia. apply Hd. lia.
Qed.

(** A slot for the child of [self], among the first [j + 1] after [count]. *)
Definition room (root : Z) (self : Stack) (count : Z) (j : nat) (s : Mc) : Prop :=
  let n := usage self in
  (count + Z.of_nat j) * MAX ≤ range_start self ∧
  (∀ p, p ∈ slot (range_start self) n (count + Z.of_nat j) → mapping (tables s) root p = None) ∧
  (∀ i p, 0 ≤ i ≤ Z.of_nat j → p ∈ slot (range_start self) n (count + i) → ¬ huge (tables s) root p) ∧
  frames_valid (falloc s) ∧ 4 * n * (Z.of_nat j + 1) ≤ supply (falloc s).

Definition stack_mapped (root : Z) (self : Stack) (s : Mc) : Prop :=
  ∀ p, p ∈ stack_pages self → is_Some (mapping (tables s) root p).

Lemma slot_from top n count i : slot (top - count * MAX) n i = slot top n (count + i).
Proof. unfold slot. by replace (top - (count + i) * MAX) with (top - count * MAX - i * MAX) by lia. Qed.

Lemma stack_fork_returns root offset self count (j : nat) (s : Mc) :
  stack_wf self → 0 < usage self ≤ STACK_MAX_PAGES → 0 ≤ count → stack_mapped root self s → room root self count j s →
  ∃ d s', count ≤ d ≤ count + Z.of_nat j ∧ StackOps.fork root root offset self count s =
    Done (mkStack (range_start self - d * MAX) (range_end self - d * MAX) (usage self), s').
Proof.
  intros (Hal & Hae & Hb & He & Hu) Hn Hc Hmap (Hroom & Hfree & Hhuge & Hv & Hs). set (n := usage self) in *.
  assert (Hend : range_end self = range_start self + n * PAGE).
  { unfold n, aligned, PAGE in *. Z.div_mod_to_equations. lia. }
  assert (Hpos : 0 ≤ count * MAX ≤ range_start self) by (unfold STACK_MAX_SIZE, STACK_MAX_PAGES, PAGE in *; lia).
  unfold StackOps.fork. fold n.
  rewrite (bind_step _ _ s (count * MAX) s) by (apply word_op_exact; unfold PAGE in *; lia).
  rewrite (bind_step _ _ s (range_start self - count * MAX) s) by (apply word_op_exact; unfold PAGE in *; lia).
  set (top := range_start self - count * MAX). assert (Hta : aligned top) by (by apply aligned_slot).
  destruct (fork_loop_finds root n j StackOps.fork_fuel top s) as (i & s1 & Hi & Hl); try done.
  { unfold StackOps.fork_fuel, STACK_MAX_SIZE, STACK_MAX_PAGES, PAGE in *. lia. }
  { unfold top, STACK_MAX_SIZE, STACK_MAX_PAGES, PAGE in *. lia. }
  { unfold top, PAGE in *. lia. }
  { intros i p Hi. unfold top. rewrite slot_from. by apply Hhuge. }
  { intros p. unfold top. rewrite slot_from. apply Hfree. }
  rewrite (bind_step _ _ _ _ _ Hl). set (dst := top - i * MAX) in *.
  assert (Hr : user_range top n) by (unfold user_range, top, PAGE in *; lia).
  assert (Hda : aligned dst) by (by apply aligned_slot). pose proof Hda as Hda'. unfold aligned in Hda'.
  assert (Hd0 : 0 ≤ dst ≤ range_start self) by (unfold dst, top, STACK_MAX_SIZE, STACK_MAX_PAGES, PAGE in *; lia).
  pose proof Hl as Hl'. apply (fork_loop_Done mapping) in Hl' as [Hup|(k & s2 & _ & Hr2 & _ & Hp2 & rng & Hmp)];
    [unfold PAGE in *; lia| |done].
  apply (map_pages_Done mapping) in Hmp as [_ Hok]; [|done].
  destruct rng as [q1 q2], Hok as (-> & -> & fs & Hme). rewrite Hda', Z.sub_0_r in Hme.
  pose proof (mapped_exactly_preserved mapping _ _ _ _ _ _ Hme) as Hp1.
  destruct (clone_pages_returns root offset (Z.to_nat n) (range_start self) dst s1) as [s3 Hcl].
  { intros x Hx. destruct (Hmap (range_start self + x * PAGE)) as [y Hy]; [|exists y; by apply Hp1, Hp2].
    apply elem_of_pages_between; [done..|]. split; [by apply aligned_add|unfold PAGE in *; lia]. }
  { intros x Hx. apply (mapped_exactly_pages mapping root (map_flags true) dst n fs (tables s2) (tables s1) x Hda Hme). lia. }
  unfold StackOps.clone_range. rewrite (bind_step _ _ _ _ _ Hcl).
  rewrite VirtAddr_new_canonical by (left; unfold PAGE in *; lia). rewrite (bind_step _ _ s3 dst s3) by done.
  rewrite Page_containing_address_eq, Hda', Z.sub_0_r by (left; unfold PAGE in *; lia).
  rewrite Page_add_user by (done || (unfold user, user_range, PAGE in *; lia)). rewrite (bind_step _ _ s3 (dst + n * PAGE) s3) by done.
  exists (count + i), s3. split; [lia|]. unfold mret, M_ret. do 2 f_equal. unfold dst, top. f_equal; lia.
Qed.

(** ** The memory and the registers of the child *)

Definition moved (d : Z) (self : Stack) : Stack :=
  mkStack (range_start self - d * MAX) (range_end self - d * MAX) (usage self).

Lemma vm_fork_returns off v count j (m : Mem PT) k :
  arcs m !! page_table v = Some (cr3 m, k) → stack_wf (stack v) → 0 < usage (stack v) ≤ STACK_MAX_PAGES → 0 ≤ count →
  stack_mapped (addr (cr3 m)) (stack v) (machine m) → room (addr (cr3 m)) (stack v) count j (machine m) →
  ∃ d m', count ≤ d ≤ count + Z.of_nat j ∧
    Vm.fork (Some off) v count m = Done (mkVm (page_table v) (moved d (stack v)) (Heap_fork (heap v)) [] 0, m').
Proof.
  intros Ha Hwf Hu Hc Hmap Hroom. unfold Vm.fork, PageTableContext.fork.
  set (m1 := mkMem (machine m) (<[page_table v := (cr3 m, S k)]> (arcs m)) (ends m) (cr3 m)).
  assert (Hcl : Arc_clone (page_table v) m = Done (page_table v, m1)).
  { unfold Arc_clone. rewrite (bind_step _ _ _ _ _ eq_refl), Ha. done. }
  rewrite (bind_step _ _ _ _ _ Hcl).
  assert (Hmp : PageTableContext.mapper (Some off) (page_table v) m1 = Done (addr (cr3 m), m1)).
  { unfold PageTableContext.mapper. rewrite (bind_step _ _ m1 (cr3 m) m1); cycle 1.
    { unfold Arc_deref. rewrite (bind_step _ _ _ _ _ eq_refl). simpl. by rewrite lookup_insert_eq. }
    destruct (word_op_comes_back Hrelease 64 (addr (cr3 m) + off) m1) as [[x m2] Hx].
    pose proof Hx as Hx'. apply word_op_Done in Hx' as [-> _]. unfold physical_to_virtual.
    rewrite (bind_step _ _ m1 x m1); [done|]. by rewrite (bind_step _ _ m1 off m1). }
  rewrite (bind_step _ _ _ _ _ Hmp), (bind_step _ _ m1 off m1), (bind_step _ _ m1 (cr3 m) m1) by done.
  destruct (stack_fork_returns (addr (cr3 m)) off (stack v) count j (machine m) Hwf Hu Hc Hmap Hroom) as (d & t & Hd & Hf).
  exists d. eexists. split; [done|]. rewrite (bind_step _ _ m1 (moved d (stack v)) (mkMem t (arcs m1) (ends m1) (cr3 m1))); [done|].
  unfold on_machine, zoom. simpl. by rewrite Hf.
Qed.

Lemma moved_pointer sp d : 0 ≤ d * MAX ≤ sp → sp < 2 ^ 47 → VirtAddr_add sp (wrap 64 (- (d * MAX))) = Some (sp - d * MAX).
Proof.
  intros Hd Hsp. assert (Hw : wrap 64 (sp + wrap 64 (- (d * MAX))) = sp - d * MAX).
  { unfold wrap. rewrite Zplus_mod_idemp_r. replace (sp + - (d * MAX)) with (sp - d * MAX) by lia.
    apply Z.mod_small. lia. }
  rewrite Hadd; rewrite Hw; [done|]. left. lia.
Qed.

(** The child of the process part [i]. *)
Record child_of (i ci : ProcessInner) (v : ProcessVm) (d : Z) : Prop := {
  co_vm : proc_vm ci = Some (mkVm (page_table v) (moved d (stack v)) (Heap_fork (heap v)) [] 0);
  co_context : context ci =
    Context.set_rax 0 (with_stack_pointer (stack_pointer (stack_frame (value (context i))) - d * MAX) (context i));
}.

Lemma inner_fork_returns off loc i v j (m : Mem PT) k :
  let count := Z.of_nat (length (children i)) in let sp := stack_pointer (stack_frame (value (context i))) in
  proc_vm i = Some v → arcs m !! page_table v = Some (cr3 m, k) →
  stack_wf (stack v) → 0 < usage (stack v) ≤ STACK_MAX_PAGES → range_start (stack v) ≤ sp ≤ range_end (stack v) →
  stack_mapped (addr (cr3 m)) (stack v) (machine m) → room (addr (cr3 m)) (stack v) count j (machine m) →
  ∃ d ci m', count ≤ d ≤ count + Z.of_nat j ∧ child_of i ci v d ∧
    Inner.fork (Some off) loc i m = Done (ci, m').
Proof.
  intros count sp Hv Ha Hwf Hu Hsp Hmap Hroom. unfold Inner.fork, Inner.vm. rewrite Hv, (bind_step _ _ m v m) by done.
  destruct (vm_fork_returns off v count j m k Ha Hwf Hu ltac:(lia) Hmap Hroom) as (d & m1 & Hd & Hf).
  rewrite (bind_step _ _ _ _ _ Hf). cbn [stack]. destruct Hroom as [Hrm _]. destruct Hwf as (_ & _ & Hb & He & _).
  assert (Hdm : 0 ≤ d * MAX ≤ range_start (stack v)) by (unfold STACK_MAX_SIZE, STACK_MAX_PAGES in *; lia).
  assert (Hoff : on_machine (StackOps.stack_offset (moved d (stack v)) (stack v)) m1 = Done (wrap 64 (- (d * MAX)), m1)).
  { unfold on_machine, zoom, StackOps.stack_offset. cbn [moved range_start].
    replace (range_start (stack v) - d * MAX - range_start (stack v)) with (- (d * MAX)) by lia.
    destruct (word_op_comes_back Hrelease 64 (- (d * MAX)) (machine m1)) as [[x t] Hx].
    rewrite (bind_step _ _ _ _ _ Hx). pose proof Hx as Hx'. apply word_op_Done in Hx' as [-> Hx'].
    assert (x = wrap 64 (- (d * MAX))) as -> by (destruct Hx' as [[? ->]|(_ & _ & ->)]; [by rewrite wrap_small|done]).
    rewrite (bind_step _ _ (machine m1) () (machine m1)) by (apply debug_assert_Done; split; [done|congruence]).
    by destruct m1. }
  rewrite (bind_step _ _ _ _ _ Hoff). unfold Context.set_stack_offset. fold sp.
  rewrite moved_pointer by (unfold PAGE in *; lia).
  exists d. eexists _, m1. split; [done|]. split; [|reflexivity]. by split.
Qed.

(** ** The processes *)

Context (cpuid : nat).
#[local] Abbreviation St := (Kernel PT Q).

Lemma manager_fork_returns off (k : St) cur loc p ci m :
  running cpuid k = Some cur → processes k !! cur = Some loc → procs k !! loc = Some p →
  Inner.fork (Some off) loc (inner p) (kmem k) = Done (ci, m) →
  ∃ k', manager_fork (Some off) cpuid k = Done ((), k').
Proof.
  intros Hr Hq Hp Hf. unfold manager_fork, current, get_proc. rewrite (bind_step _ _ k loc k); cycle 1.
  { rewrite (bind_step _ _ _ _ _ (current_pid_running _ _ _ Hr)), (bind_step _ _ _ _ _ eq_refl), Hq. done. }
  set (child := fresh (dom (procs k))).
  assert (Hne : loc ≠ child) by (intros ->; apply elem_of_dom_2 in Hp; by apply is_fresh in Hp).
  assert (∃ k1, Proc.fork (Some off) loc k = Done (child, k1) ∧ is_Some (procs k1 !! child)) as (k1 & Hk1 & [c Hc]).
  { unfold Proc.fork, read_proc. rewrite (bind_step _ _ k p k); cycle 1.
    { by rewrite (bind_step _ _ _ _ _ eq_refl), Hp. }
    rewrite (bind_step _ _ k ci (set_kmem m k)) by (unfold on_mem, zoom; by rewrite Hf).
    eexists. split; [reflexivity|]. simpl. rewrite lookup_insert_ne by done. by rewrite lookup_insert_eq. }
  rewrite (bind_step _ _ _ _ _ Hk1). unfold read_proc. rewrite (bind_step _ _ k1 c k1); cycle 1.
  { by rewrite (bind_step _ _ _ _ _ eq_refl), Hc. }
  eexists. reflexivity.
Qed.

(** The child stays what it is when the next process starts. *)
Lemma switch_next_child ctx (k : St) r k' c p :
  wf cpuid k → switch_next cpuid ctx k = Done (r, k') → lookup_proc k c = Some p →
  ∃ p', lookup_proc k' c = Some p' ∧ proc_vm (inner p') = proc_vm (inner p) ∧ context (inner p') = context (inner p).
Proof.
  intros Hwf Hs Hl. apply switch_next_Done in Hs as (cur & _ & Hs); [|done].
  destruct (first_ready k (ready_queue k)) as [[next rest]|]; [|destruct Hs as [_ ->]; eauto].
  destruct (decide (next = cur)) as [->|]; [destruct Hs as [_ ->]; eauto|].
  destruct Hs as (loc & pn & v & reg & m0 & Hq & Hp & _ & _ & _ & _ & ->).
  rewrite (lookup_started cpuid k) by done. case_decide as Hc; [|eauto].
  subst c. assert (pn = p) as -> by (apply bind_Some in Hl as (? & ? & ?); congruence). by eexists.
Qed.

(** After [manager_fork] every process that could go on still can, and so can the child. *)
Lemma forked_resumable off ctx (k k1 k2 : St) cur loc p u :
  wf cpuid k → spaces cpuid k → NEXT_PID k + 1 < 2 ^ 16 → processes k !! cur = Some loc → procs k !! loc = Some p →
  save_current cpuid ctx k = Done (cur, k1) → manager_fork (Some off) cpuid k1 = Done (u, k2) →
  (∀ q pq, q ≠ cur → lookup_proc k q = Some pq → status (inner pq) = Ready → exit_code (inner pq) = None) →
  wf cpuid k2 ∧ running cpuid k2 = Some cur ∧ is_Some (processes k2 !! cur) ∧ ∀ q, q ≠ cur → resumable k2 q.
Proof.
  intros Hwf Hsp Hn Hq Hp Hsv Hf Hal.
  destruct (fork_table (Some off) cpuid ctx k cur loc p k1 u k2 Hwf Hn Hq Hp Hsv Hf)
    as (v & ci & cl & Hv & Hfc & Hst & Hwf2 & Hr2 & _ & _ & Hcne & Hlc & Hlp & Hlo).
  pose proof (save_current_Done _ _ _ _ _ Hwf Hsv) as (l & pp & _ & _ & _ & Hk1).
  assert (Hn1 : NEXT_PID k1 = NEXT_PID k) by (rewrite Hk1; apply (frame_set_inner cpuid)).
  pose proof (calm_still _ _ _ (calm_save_current _ _ _ _ _ Hwf Hsv)) as Hstill.
  apply save_current_wf in Hsv as (Hwf1 & _); [|done].
  assert (Hsp2 : spaces cpuid k2).
  { eapply spaces_manager_fork; [exact Hwf1|by rewrite Hn1| |exact Hf]. by eapply still_spaces. }
  split_and!; [done..|by apply bind_Some in Hlp as (? & -> & _)|].
  intros q Hne pq Hlq Hsq. assert (Hex : exit_code (inner pq) = None).
  { destruct (decide (q = NEXT_PID k)) as [->|Hnq]; [|rewrite Hlo in Hlq by done; by eapply Hal].
    rewrite Hlc in Hlq. injection Hlq as <-. apply Hfc. }
  destruct (spaces_proc cpuid k2 q pq Hwf2 Hsp2 Hlq Hex) as (w & reg & n & ? & ? & _). eauto.
Qed.

Context {UA : Type} `{!UserAllocator UA} (selector : Z * Z) (clock_nanos : Z) (Layout_of : list Z → Z * Z).

(** C13: [fork] comes back.  In every reachable state of a release build in which no killed process
    has been made ready again: if the stack of the running process is mapped
    in its page table, its stack pointer is in it, and one of the slots from the
    number of its children on, [j] further, is free as far as the stack
    is long, with four frames for each page of each slot up to there, then
    [fork] returns; and the child has a stack of the same size in
    one of these slots and the stack pointer at the same place in it. *)
Theorem fork_returns off pages (k0 k : St) u ua s ctx cur p v j :
  let top := cr3 (kmem s.1) in let t := machine (kmem s.1) in
  let count := Z.of_nat (length (children (inner p))) in let sp := stack_pointer (stack_frame (value ctx)) in
  pristine k0 → Manager.init cpuid pages k0 = Done (u, k) →
  rtc (step (Some off) cpuid selector clock_nanos Layout_of) (k, ua) s →
  running cpuid s.1 = Some cur → lookup_proc s.1 cur = Some p → NEXT_PID s.1 + 1 < 2 ^ 16 →
  (∀ q pq, lookup_proc s.1 q = Some pq → status (inner pq) = Ready → exit_code (inner pq) = None) →
  proc_vm (inner p) = Some v → stack_wf (stack v) → 0 < usage (stack v) ≤ STACK_MAX_PAGES →
  range_start (stack v) ≤ sp ≤ range_end (stack v) →
  stack_mapped (addr top) (stack v) t → room (addr top) (stack v) count j t →
  ∃ ctx' k' child cv d, fork (Some off) cpuid ctx s.1 = Done (ctx', k') ∧
    lookup_proc k' (NEXT_PID s.1) = Some child ∧ proc_vm (inner child) = Some cv ∧
    count ≤ d ≤ count + Z.of_nat j ∧ stack cv = moved d (stack v) ∧
    context (inner child) = Context.set_rax 0 (with_stack_pointer (sp - d * STACK_MAX_SIZE) ctx).
Proof.
  intros top t count sp Hpr Hin Hs Hr Hl Hn Hal Hv Hwfs Hu Hsp Hmap Hroom.
  destruct (reachable_good _ _ _ _ _ _ _ _ _ _ _ Hpr Hin Hs) as [[Hwf _] Hspc].
  pose proof Hl as (loc & Hq & Hp)%bind_Some.
  assert (Hex : exit_code (inner p) = None).
  { destruct (wf_table _ _ Hwf cur loc Hq) as (p' & Hp' & _ & (Hi & _)). assert (p' = p) as -> by congruence. apply Hi. by rewrite Hv. }
  destruct (spaces_proc cpuid s.1 cur p Hwf Hspc Hl Hex) as (v' & reg & n & Hv' & Ha & _ & _ & Hc3).
  assert (v' = v) as -> by congruence. rewrite <- (Hc3 Hr) in Ha. fold top in Ha.
  assert (Htk : debug_assertions = true → 0 ≤ ticks_passed (inner p) + 1 < 2 ^ 64) by (by rewrite Hrelease).
  pose proof (save_current_returns cpuid ctx s.1 cur loc p Hwf Hr Hq Hp Htk) as Hsv.
  set (k1 := set_inner loc (preempted ctx (inner p)) s.1) in *.
  pose proof (calm_still _ _ _ (calm_save_current _ _ _ _ _ Hwf Hsv)) as (_ & _ & Hr1 & _). rewrite Hr in Hr1.
  destruct (wf_table _ _ Hwf cur loc Hq) as (p' & Hp' & Hpid & _). assert (p' = p) as -> by congruence.
  assert (Hp1 : procs k1 !! loc = Some (mkProcess cur (preempted ctx (inner p)))).
  { unfold k1, set_inner. rewrite Hp, Hpid. simpl. by rewrite lookup_insert_eq. }
  assert (Hq1 : processes k1 !! cur = Some loc) by (unfold k1, set_inner; by rewrite Hp).
  assert (Hm1 : kmem k1 = kmem s.1) by (unfold k1, set_inner; by rewrite Hp).
  destruct (inner_fork_returns off loc (preempted ctx (inner p)) v j (kmem s.1) n Hv Ha Hwfs Hu Hsp Hmap Hroom)
    as (d & ci & m & Hd & [Hvm Hctx] & Hif).
  destruct (manager_fork_returns off k1 cur loc _ ci m Hr1 Hq1 Hp1) as [k2 Hf]; [by rewrite Hm1|].
  destruct (forked_resumable off ctx s.1 k1 k2 cur loc p () Hwf Hspc Hn Hq Hp Hsv Hf) as (Hwf2 & Hr2 & Hc2 & Hres).
  { intros q pq _. apply Hal. }
  assert (Hn1 : NEXT_PID k1 = NEXT_PID s.1) by (unfold k1; apply (frame_set_inner cpuid)).
  assert (Hl2 : lookup_proc k2 (NEXT_PID s.1) = Some (mkProcess (NEXT_PID s.1) ci)).
  { pose proof Hf as Hf'. apply save_current_wf in Hsv as (Hwf1 & _); [|done].
    apply manager_fork_Done in Hf' as (q & l & p3 & ci' & m' & Hr' & Hq' & Hp3 & Hi & ->); [|done|by rewrite Hn1].
    assert (q = cur) as -> by congruence. assert (l = loc) as -> by congruence.
    assert (p3 = mkProcess cur (preempted ctx (inner p))) as -> by congruence. simpl in Hi. rewrite Hm1, Hif in Hi.
    injection Hi as <- <-. rewrite Hn1. unfold lookup_proc. simpl. rewrite lookup_insert_eq. simpl. by rewrite lookup_insert_eq. }
  set (k3 := set_ready (ready_queue k2 ++ [cur]) k2). assert (Hwf3 : wf cpuid k3) by (by apply wf_push).
  assert (∃ r, switch_next cpuid ctx k3 = Done r) as [[r k'] Hsn].
  { unfold switch_next. rewrite (bind_step _ _ _ _ _ (current_pid_running cpuid k3 cur Hr2)).
    rewrite (bind_step _ _ _ _ _ eq_refl). apply switch_loop_returns; [done|lia|]. intros x _. apply Hres. }
  destruct (switch_next_child ctx k3 r k' (NEXT_PID s.1) _ Hwf3 Hsn Hl2) as (child & Hlc & Hvc & Hcc).
  exists r.2, k', child. eexists _, d. split_and!; [|exact Hlc|by rewrite Hvc|apply Hd..|done|by rewrite Hcc].
  unfold fork. rewrite (bind_step _ _ _ _ _ Hsv), (bind_step _ _ _ _ _ Hf).
  unfold push_ready. rewrite (bind_step _ _ k2 () k3) by done. by rewrite (bind_step _ _ _ _ _ Hsn).
Qed.

End ForkReturns.

(** ** An example: the spawned process of [Spaces] forks *)

Section ForkReturnsWitnesses.
#[local] Existing Instance x86_ref.
#[local] Existing Instance release.

Lemma add_ref a b : canonical (wrap 64 (a + b)) → VirtAddr_add a b = Some (wrap 64 (a + b)).
Proof.
  intros Hc. change (VirtAddr_add a b) with (checked (wrap 64 (a + b))). unfold checked. by rewrite canonicalb_true.
Qed.

Lemma app_runs_slot i p : p ∈ slot (range_start stack_example) 1 i → p = range_start stack_example - i * STACK_MAX_SIZE.
Proof.
  unfold slot. rewrite Z.mul_1_l. intros (x & -> & Hx%elem_of_seqZ)%list_elem_of_fmap.
  rewrite Z.add_simpl_l, Z.div_same in Hx by done. assert (x = 0) as -> by lia. lia.
Qed.

Lemma app_runs_ready q pq :
  lookup_proc app_runs.1 q = Some pq → status (inner pq) = Ready → exit_code (inner pq) = None.
Proof. intros Hl _. exact (app_runs_alive q pq Hl). Qed.

Lemma app_runs_room :
  room table_mapping (λ _ _ _, False) (addr (cr3 (kmem app_runs.1))) (stack app_runs_vm) 0 1 (machine (kmem app_runs.1)).
Proof.
  split_and!.
  - vm_compute. discriminate.
  - intros p Hp. apply app_runs_slot in Hp. subst p. vm_compute. reflexivity.
  - intros ? ? _ _ [].
  - unfold frames_valid. apply Forall_forall. intros x Hx.
    assert (Hall : forallb (λ vp : Z * Z, (0 <=? vp.1 * 4096 + vp.2) && (vp.1 * 4096 + vp.2 <? 2 ^ 52))
      (frames (falloc (machine (kmem app_runs.1)))) = true) by (vm_compute; reflexivity).
    rewrite forallb_forall in Hall. specialize (Hall x ltac:(by apply list_elem_of_In)).
    apply andb_true_iff in Hall as [?%Z.leb_le ?%Z.ltb_lt]. done.
  - vm_compute. discriminate.
Qed.

Lemma fork_returns_witness :
  ∃ ctx' k' child cv, fork offset_example 0 fork_call app_runs.1 = Done (ctx', k') ∧
    lookup_proc k' 3 = Some child ∧ proc_vm (inner child) = Some cv ∧ usage (stack cv) = 1.
Proof.
  destruct app_runs_proc as (p & Hl & Hv).
  assert (Hch : children (inner p) = []) by (vm_compute in Hl; injection Hl as <-; reflexivity).
  destruct (fork_returns (H := release) table_mapping (λ _ _ _, False) eq_refl add_ref 0 (8, 16) 0 layout_example 0x100000 []
    app_boot app_started () 0 app_runs fork_call 2 p app_runs_vm 1) as (ctx' & k' & child & cv & d & Hf & Hc & Hcv & _ & Hst & _).
  - exact app_boot_pristine.
  - exact app_boot_started.
  - exact app_runs_reached.
  - exact app_runs_running.
  - exact Hl.
  - vm_compute. reflexivity.
  - exact app_runs_ready.
  - exact Hv.
  - exact stack_example_wf.
  - vm_compute. split; [reflexivity|discriminate].
  - vm_compute. split; discriminate.
  - intros q Hq. vm_compute in Hq. apply list_elem_of_singleton in Hq as ->. vm_compute. eauto.
  - rewrite Hch. exact app_runs_room.
  - exists ctx', k', child, cv. split; [exact Hf|]. split; [exact Hc|]. split; [exact Hcv|]. by rewrite Hst.
Defined.

End ForkReturnsWitnesses.
