(* ===== verification/ForkApp.v ===== *)
(** The application [pkg/app/fork] on the kernel: a process forks, the child
    changes a variable of the memory they share and exits, the parent waits for
    it and checks what it sees. *)
From S2P Require Import Prelude Arch Pid Sync Frames Elf Stack Heap Vm Context Resource Data Process Manager.
From S2P Require Import Syscall Scheduler KernelExample RoundRobin Lifecycle Fork Reachable Effects Spaces Exit Teardown UserLib.
From stdpp Require Import strings.
#[local] Open Scope Z_scope.

(** ** The program *)

Section Program.
Context `{Profile} `{X86_64} {PT Q : Type} `{Mapper PT} `{ArrayQueue Q}.
Context (PHYSICAL_OFFSET : option Z).
#[local] Abbreviation St := (Kernel PT Q).

(** A word in memory, in the processor's byte order. *)
Definition get_word (m : Z → Z) (pa : Z) : Z :=
  foldr (λ i w, m (pa + i) + 256 * w) 0 (seqZ 0 8).
Definition put_word (pa v : Z) (m : Z → Z) : Z → Z :=
  λ a, if (pa <=? a) && (a <? pa + 8) then (v / 256 ^ (a - pa)) `mod` 256 else m a.

(** The running program's loads and stores of a word that lies in one page: through
    the page table in CR3.  (One that finds nothing there ends the model's run; in
    the machine it is a page fault.) *)
Definition load (va : Z) : M St Z :=
  k ← get;
  pa ← unwrap (physical PHYSICAL_OFFSET k va);
  mret (get_word (Elf.mem (machine (kmem k))) pa).
Definition store (va v : Z) : M St () :=
  k ← get;
  pa ← unwrap (physical PHYSICAL_OFFSET k va);
  on_mem (on_machine (modify_mem (put_word pa v))).

(** [assert_eq!] *)
Definition assert_eq (x y : Z) : M St () := if x =? y then mret () else panic.

(** [x + y] of [isize] *)
Definition add (x y : Z) : M St Z :=
  if (- 2 ^ 63 <=? x + y) && (x + y <? 2 ^ 63) then mret (x + y)
  else if debug_assertions then panic else mret (as_isize (as_usize (x + y))).

(** The address of the [static mut M]. *)
Context (M_ : Z).

(** What the program calls next. *)
Inductive next : Type :=
  | WaitPid (pid : Z)
  | Exit (code : Z).

(** [main] from [sys_fork], which answered [pid], to the next call that matters;
    printing and [sys_stat] are left out. *)
Definition main_forked (pid : Z) : M St next :=
  let c := 32 in
  if pid =? 0 then
    assert_eq c 32;;
    _ ← load M_;
    store M_ 0x2333;;
    _ ← load M_;
    c ← add c 32;
    mret (Exit c)
  else
    assert_eq c 32;;
    mret (WaitPid pid).

(** [main] from [sys_wait_pid], which answered [ret]. *)
Definition main_waited (ret : Z) : M St next :=
  let c := 32 in
  assert_eq ret 64;;
  _ ← load M_;
  m ← load M_;
  assert_eq m 0x2333;;
  c ← add c 1024;
  assert_eq c 1056;;
  mret (Exit c).

End Program.

(** ** Process memories from call to call *)

Section Sharing.
Context `{Profile} `{!X86_64} {PT Q : Type} `{!Mapper PT} `{!ArrayQueue Q}.
Context (PHYSICAL_OFFSET : option Z) (cpuid : nat).
#[local] Abbreviation St := (Kernel PT Q).
#[local] Abbreviation wf := (wf cpuid).
#[local] Abbreviation running := (running cpuid).

(** No process memory changes hands, and no page table is touched. *)
Definition same_vms (k k' : St) : Prop :=
  vm_map k' = vm_map k ∧ processes k' = processes k ∧ arcs (kmem k') = arcs (kmem k) ∧
  machine (kmem k') = machine (kmem k).

#[export] Instance same_vms_preorder : PreOrder same_vms.
Proof. split; [done|]. intros k1 k2 k3 (? & ? & ? & ?) (? & ? & ? & ?). split_and!; congruence. Qed.

Lemma same_vms_set_inner (k : St) loc i p :
  procs k !! loc = Some p → proc_vm i = proc_vm (inner p) → same_vms k (set_inner loc i k).
Proof.
  intros Hp Hi. destruct (still_set_inner cpuid k loc i p Hp Hi) as (Hv & Hps & _). split_and!; [done..| |];
    unfold set_inner; by rewrite Hp.
Qed.

Lemma same_vms_save ctx (k : St) q k' : wf k → save_current cpuid ctx k = Done (q, k') → same_vms k k'.
Proof. intros Hwf (loc & p & _ & _ & Hp & ->)%save_current_Done; [|done]. by eapply same_vms_set_inner. Qed.

Lemma same_vms_switch_next ctx (k : St) r k' : wf k → switch_next cpuid ctx k = Done (r, k') → same_vms k k'.
Proof.
  intros Hwf (cur & _ & Hs)%switch_next_Done; [|done].
  destruct (first_ready k (ready_queue k)) as [[next rest]|]; [|by destruct Hs as [_ ->]].
  destruct (decide _) as [->|Hne]; [by destruct Hs as [_ ->]|].
  destruct Hs as (loc & p & v & reg & n & Hq & Hp & _ & _ & _ & _ & ->).
  pose proof (same_vms_set_inner k loc (Inner.set_status Running (inner p)) p Hp eq_refl) as (Hv & _).
  split_and!; [|done..]. rewrite <- Hv. unfold vm_map, set_inner. by rewrite Hp.
Qed.

Lemma same_vms_timer cs (k : St) outs k' : wf k → timer cpuid cs k = Done (outs, k') → same_vms k k'.
Proof.
  revert k outs. induction cs as [|c cs IH]; intros k outs Hwf Ht; [by apply ret_Done in Ht as [_ <-]|].
  simpl in Ht. apply bind_Done in Ht as (c' & k1 & Hs & Ht). pose proof (switch_wf _ _ _ _ _ Hwf Hs) as Hwf1.
  apply bind_Done in Ht as (q & k2 & Hc & Ht). apply current_pid_Done in Hc as (-> & _).
  apply bind_Done in Ht as (o & k2 & Ht & Hr). apply ret_Done in Hr as [_ <-]. etrans; [|by eapply IH].
  unfold switch in Hs. apply bind_Done in Hs as (q' & k4 & Hsv & Hs).
  pose proof (same_vms_save _ _ _ _ Hwf Hsv) as Hvm.
  apply save_current_wf in Hsv as (Hwf2 & _ & _ & _ & Hps & Hin); [|done].
  apply bind_Done in Hs as (u & k5 & Hp & Hs). unfold push_ready in Hp. apply modify_Done in Hp as <-.
  apply bind_Done in Hs as (r & k5 & Hn & Hs). apply ret_Done in Hs as [_ <-].
  etrans; [exact Hvm|]. etrans; [|eapply same_vms_switch_next; [|exact Hn]]; [done|].
  apply wf_push; [done|by rewrite Hps].
Qed.

Lemma same_vms_wait_pid q ctx (k : St) ctx' k' :
  wf k → wait_pid cpuid q ctx k = Done (ctx', k') → same_vms k k'.
Proof.
  intros Hwf Hs. unfold wait_pid in Hs. apply bind_Done in Hs as (o & k1 & Hw & Hs).
  apply manager_wait_pid_Done in Hw. destruct (lookup_proc k q ≫= _) as [ret|].
  { destruct Hw as [-> ->]. by inv_done. }
  destruct Hw as (-> & cur & Hcur & ->).
  assert (Hwf1 : wf (add_waiter q cur k)) by (by eapply (sched_eq_wf cpuid k)).
  apply bind_Done in Hs as (c & k2 & Hsv & Hs).
  pose proof (save_current_wf _ _ _ _ _ Hwf1 Hsv) as (_ & Hr2 & _).
  pose proof (saved_block cpuid _ _ _ _ Hwf1 Hsv) as (l & p' & _ & Hl & Hp' & Hwfb & _).
  apply same_vms_save in Hsv; [|done].
  apply bind_Done in Hs as (loc & k3 & Hc & Hs). apply current_Done in Hc as (-> & c' & Hr' & Hloc).
  assert (c' = c) as -> by congruence. assert (loc = l) as -> by congruence.
  apply bind_Done in Hs as (u & k3 & Hm & Hs). apply modify_inner_Done in Hm as (p & Hp & ->).
  assert (p = p') as -> by congruence.
  apply bind_Done in Hs as (r & k3 & Hn & Hs). apply ret_Done in Hs as [_ <-].
  etrans; [|by eapply same_vms_switch_next]. etrans; [exact Hsv|by eapply same_vms_set_inner].
Qed.

Lemma spaces_timer cs (k : St) outs k' : wf k → spaces cpuid k → timer cpuid cs k = Done (outs, k') → spaces cpuid k'.
Proof.
  revert k outs. induction cs as [|c cs IH]; intros k outs Hwf Hsp Ht; [by apply ret_Done in Ht as [_ <-]|].
  simpl in Ht. apply bind_Done in Ht as (c' & k1 & Hs & Ht). pose proof (switch_wf _ _ _ _ _ Hwf Hs) as Hwf1.
  apply bind_Done in Ht as (q & k2 & Hc & Ht). apply current_pid_Done in Hc as (-> & _).
  apply bind_Done in Ht as (o & k2 & Ht & Hr). apply ret_Done in Hr as [_ <-].
  eapply (IH k1); [exact Hwf1|eapply spaces_switch; [exact Hwf|exact Hsp|exact Hs]|exact Ht].
Qed.

(** A process that runs, or is ready in the queue. *)
Definition up (k : St) (q : Z) : Prop := (is_ready k q = true ∧ q ∈ ready_queue k) ∨ running k = Some q.

Lemma goes_on_up (k : St) now q ctx : goes_on_with cpuid k now q ctx → up k q.
Proof. intros [[Hr _]|(_ & Hrd & Hq & _)]; [by right|by left]. Qed.

Lemma timer_up q cs (k : St) outs k' : wf k → up k q → timer cpuid cs k = Done (outs, k') → up k' q.
Proof.
  revert k outs. induction cs as [|c cs IH]; intros k outs Hwf Hu Ht; [by apply ret_Done in Ht as [_ <-]|].
  destruct (timer_cons_Done _ _ _ _ _ _ Hwf Ht) as (cur & nx & d & rest & c1 & k1 & o & He & Hwf1 & Ht1 & _).
  eapply IH; [exact Hwf1| |exact Ht1]. pose proof (sw_cur _ _ _ _ _ _ _ _ _ He) as Hcur.
  destruct (decide (nx = q)) as [<-|Hne]; [right; by apply (sw_running _ _ _ _ _ _ _ _ _ He)|left].
  assert (Hq : q ∈ ready_queue k ++ [cur] ∧ (q = cur ∨ is_ready k q = true)).
  { destruct Hu as [[Hrd Hin]|Hr]; [set_solver|]. assert (q = cur) as -> by congruence. set_solver. }
  destruct Hq as [Hin Hor]. split.
  - destruct Hor as [->|Hrd]; [|by eapply switch_keeps_ready].
    destruct (running_known cpuid k cur Hwf Hcur) as [p Hl].
    by eapply is_ready_true; [exact (sw_saved _ _ _ _ _ _ _ _ _ He p Hl)|].
  - rewrite (sw_queue _ _ _ _ _ _ _ _ _ He) in Hin. rewrite (sw_rest _ _ _ _ _ _ _ _ _ He).
    apply elem_of_app in Hin as [Hin|[->|?]%elem_of_cons]; [|done..].
    destruct (sw_dropped _ _ _ _ _ _ _ _ _ He q Hin). naive_solver congruence.
Qed.

Lemma switch_next_waits ctx (k : St) r k' :
  wf k → switch_next cpuid ctx k = Done (r, k') → Process.wait_queue k' = Process.wait_queue k.
Proof.
  intros Hwf (cur & _ & Hs)%switch_next_Done; [|done].
  destruct (first_ready k (ready_queue k)) as [[nx rest]|]; [|by destruct Hs as [_ ->]].
  destruct (decide _) as [->|Hne]; [by destruct Hs as [_ ->]|]. by destruct Hs as (? & ? & ? & ? & ? & _ & _ & _ & _ & _ & _ & ->).
Qed.

Lemma fork_waits ctx (k : St) q k1 u k2 :
  wf k → NEXT_PID k + 1 < 2 ^ 16 → save_current cpuid ctx k = Done (q, k1) →
  manager_fork PHYSICAL_OFFSET cpuid k1 = Done (u, k2) →
  Process.wait_queue (set_ready (ready_queue k2 ++ [q]) k2) = Process.wait_queue k.
Proof.
  intros Hwf Hn Hsv Hf. pose proof (save_current_wf _ _ _ _ _ Hwf Hsv) as (Hwf1 & _).
  apply save_current_Done in Hsv as (loc & p & _ & _ & Hp & ->); [|done].
  apply manager_fork_Done in Hf as (q' & loc' & p' & ci & m & _ & _ & Hp' & _ & ->); [|done|].
  - simpl. unfold set_inner at 1. simpl. rewrite Hp'. simpl. unfold set_inner. by rewrite Hp.
  - unfold set_inner. by rewrite Hp.
Qed.

(** The child of a fork has its own memory on the parent's page table, under
    a pid that was free. *)
Lemma fork_vms ctx (k : St) cur ctx' k' :
  wf k → NEXT_PID k + 1 < 2 ^ 16 → running k = Some cur → fork PHYSICAL_OFFSET cpuid ctx k = Done (ctx', k') →
  ∃ v cv, vm_of k cur = Some v ∧ vm_of k' cur = Some v ∧ vm_of k' (NEXT_PID k) = Some cv ∧
    page_table cv = page_table v ∧ NEXT_PID k ≠ cur ∧
    Process.wait_queue k' = Process.wait_queue k.
Proof.
  intros Hwf Hn Hr Hs. unfold fork in Hs. apply bind_Done in Hs as (c & k1 & Hsv & Hs).
  pose proof (save_current_Done _ _ _ _ _ Hwf Hsv) as (loc & p & Hr' & Hq & Hp & _).
  assert (c = cur) as -> by congruence.
  apply bind_Done in Hs as (u & k2 & Hf & Hs).
  destruct (fork_table _ _ _ _ _ _ _ _ _ _ Hwf Hn Hq Hp Hsv Hf)
    as (v & ci & cl & Hv & Hfc & Hst & Hwf2 & Hr2 & _ & _ & Hne & Hlc & Hlp & _).
  apply bind_Done in Hs as (u' & k3 & Hpu & Hs). unfold push_ready in Hpu. apply modify_Done in Hpu as <-.
  apply bind_Done in Hs as (r & k3 & Hsn & Hs). apply ret_Done in Hs as [_ <-].
  assert (Hwf3 : wf (set_ready (ready_queue k2 ++ [cur]) k2))
    by (apply wf_push; [done|]; by apply bind_Some in Hlp as (? & -> & _)).
  pose proof (switch_next_waits _ _ _ _ Hwf3 Hsn) as Hw. rewrite (fork_waits _ _ _ _ _ _ Hwf Hn Hsv Hf) in Hw.
  apply same_vms_switch_next in Hsn as (Hvm & Hps & _); [|exact Hwf3].
  destruct (fc_context _ _ _ _ _ Hfc) as (cv & off & sp & Hcv & _ & _ & _ & Hpt & _).
  exists v, cv. unfold vm_of at 2 3. rewrite Hvm, Hps.
  change (processes (set_ready _ k2)) with (processes k2). change (vm_map (set_ready _ k2)) with (vm_map k2).
  fold (vm_of k2 cur) (vm_of k2 (NEXT_PID k)).
  rewrite (vm_of_lookup _ _ _ Hlp), (vm_of_lookup _ _ _ Hlc), (vm_of_lookup _ _ _ (lookup_proc_Some _ _ _ _ Hq Hp)).
  by split_and!.
Qed.

(** Both sides of a fork go on: the parent with the child's pid in [rax], the
    child with 0. *)
Lemma fork_both ctx (k : St) cur ctx' k' :
  wf k → NEXT_PID k + 1 < 2 ^ 16 → running k = Some cur → cur ∉ ready_queue k →
  fork PHYSICAL_OFFSET cpuid ctx k = Done (ctx', k') →
  goes_on_with cpuid k' ctx' cur (Context.set_rax (NEXT_PID k) ctx) ∧
  ∃ cctx, goes_on_with cpuid k' ctx' (NEXT_PID k) (Context.set_rax 0 cctx).
Proof.
  intros Hwf Hn Hr Hnq Hs. pose proof (fork_wf _ _ _ _ _ _ Hwf Hn Hs) as Hwf'.
  unfold fork in Hs. apply bind_Done in Hs as (c & k1 & Hsv & Hs).
  pose proof (save_current_Done _ _ _ _ _ Hwf Hsv) as (loc & p & Hr' & Hq & Hp & _).
  assert (c = cur) as -> by congruence.
  apply bind_Done in Hs as (u & k2 & Hf & Hs).
  destruct (fork_table _ _ _ _ _ _ _ _ _ _ Hwf Hn Hq Hp Hsv Hf)
    as (v & ci & cl & Hv & Hfc & Hst & Hwf2 & Hr2 & Hq2 & _ & Hne & Hlc & Hlp & _).
  apply bind_Done in Hs as (u' & k3 & Hpu & Hs). unfold push_ready in Hpu. apply modify_Done in Hpu as <-.
  apply bind_Done in Hs as (r & k3 & Hsn & Hs). apply ret_Done in Hs as [<- <-].
  assert (Hwf3 : wf (set_ready (ready_queue k2 ++ [cur]) k2))
    by (apply wf_push; [done|]; by apply bind_Some in Hlp as (? & -> & _)).
  rewrite Hq2, <- app_assoc in Hsn, Hwf3. simpl in Hsn, Hwf3.
  apply fork_next in Hsn as (nx & d & rest & l & pn & vn & reg & Hqueue & Hd & Hnc & Hl & Hpn & Hr2' & ->);
    [|done..|by eapply is_ready_true].
  set (k3 := set_ready (ready_queue k ++ [NEXT_PID k; cur]) k2) in *.
  set (k4 := started cpuid k3 nx l pn vn reg rest) in *.
  assert (Hls : ∀ q, lookup_proc k4 q =
    if decide (q = nx) then Some (mkProcess nx (Inner.set_status Running (inner pn))) else lookup_proc k2 q)
    by (intros; by apply (lookup_started cpuid k3)).
  assert (Hrn : running k4 = Some nx) by (by apply running_started).
  assert (Hin : ∀ q, q ∈ ready_queue k ++ [NEXT_PID k; cur] → (∀ x, x ∈ d → x ≠ q) → nx ≠ q → q ∈ ready_queue k4).
  { intros q Hi Hx Hnq'. rewrite Hqueue in Hi. apply elem_of_app in Hi as [Hi|[->|Hi]%elem_of_cons]; [by destruct (Hx q Hi)|done|exact Hi]. }
  assert (Hgo : ∀ q pq, lookup_proc k2 q = Some pq → status (inner pq) = Ready → (∀ x, x ∈ d → x ≠ q) →
    q ∈ ready_queue k ++ [NEXT_PID k; cur] → nx ≠ q → goes_on_with cpuid k4 r.2 q (context (inner pq))).
  { intros q pq Hlq Hsq Hx Hi Hnq'. right.
    assert (Hlq' : lookup_proc k4 q = Some pq) by (by rewrite Hls, decide_False by done).
    split_and!; [congruence|by eapply is_ready_true|by apply Hin|].
    intros cs outs c' k' Ht Ho. eapply (resumed_context cpuid q _ cs k4); [done|exact Hlq'|done|congruence|exact Ht|exact Ho]. }
  destruct (fc_context _ _ _ _ _ Hfc) as (cv & off & sp & _ & _ & _ & Hctx & _). split.
  - apply (Hgo cur _ Hlp); [done|intros x Hx; by destruct (Hd x Hx) as (_ & ? & _)|set_solver|done].
  - exists (with_stack_pointer sp ctx). rewrite <- Hctx. destruct (decide (nx = NEXT_PID k)) as [->|Hnx].
    + left. split; [exact Hrn|]. rewrite Hr2'. pose proof (lookup_proc_Some _ _ _ _ Hl Hpn) as Hx.
      rewrite Hlc in Hx. by injection Hx as <-.
    + apply (Hgo _ _ Hlc); [done|intros x Hx; by destruct (Hd x Hx) as (? & _)|set_solver|done].
Qed.

End Sharing.

(** ** What the child stores is there for the parent *)

Section Story.
Context `{Profile} `{!X86_64} `{!X86_64_Laws _} {PT Q : Type} `{!Mapper PT} `{!ArrayQueue Q}.
Context (mapping : PT → Z → Z → option (Z * Z)) `{!Mapper_Laws PT mapping}.
Context (PHYSICAL_OFFSET : option Z) (cpuid : nat) (M_ : Z).
#[local] Abbreviation St := (Kernel PT Q).
#[local] Abbreviation wf := (wf cpuid).
#[local] Abbreviation running := (running cpuid).
#[local] Abbreviation load := (load (PT := PT) (Q := Q) PHYSICAL_OFFSET).

(** The memory the child of a fork gets: its stack is well-formed and on pages that
    were free in the parent's page table, where everything stays mapped. *)
Lemma fork_machine ctx (k : St) cur loc p v ctx' k' :
  wf k → spaces cpuid k → NEXT_PID k + 1 < 2 ^ 16 → running k = Some cur →
  processes k !! cur = Some loc → procs k !! loc = Some p → proc_vm (inner p) = Some v →
  stack_wf (stack v) → 0 < usage (stack v) →
  Z.of_nat (length (children (inner p))) * STACK_MAX_SIZE ≤ range_start (stack v) →
  fork PHYSICAL_OFFSET cpuid ctx k = Done (ctx', k') →
  ∃ cv n, vm_of k' (NEXT_PID k) = Some cv ∧
    arcs (kmem k') !! page_table v = Some (cr3 (kmem k), n) ∧ (range_start (stack cv) < 2 ^ 47 →
    stack_wf (stack cv) ∧
    ∀ q x, mapping (tables (machine (kmem k))) (addr (cr3 (kmem k))) q = Some x →
      mapping (tables (machine (kmem k'))) (addr (cr3 (kmem k))) q = Some x ∧ q ∉ stack_pages (stack cv)).
Proof.
  intros Hwf [[Ha _] Hld] Hn Hr Hq Hp Hv Hst Hu Hch Hs. unfold fork in Hs. apply bind_Done in Hs as (c & k1 & Hsv & Hs).
  pose proof (save_current_wf _ _ _ _ _ Hwf Hsv) as (Hwf1 & _).
  apply save_current_Done in Hsv as (loc' & p' & Hr' & Hq' & Hp' & Hk1); [|done].
  assert (c = cur) as -> by congruence. assert (loc' = loc) as -> by congruence. assert (p' = p) as -> by congruence.
  assert (Hk1' : k1 = set_procs (<[loc := mkProcess (Process.pid p) (preempted ctx (inner p))]> (procs k)) k)
    by (rewrite Hk1; unfold set_inner; by rewrite Hp).
  apply bind_Done in Hs as (u & k2 & Hf & Hs).
  pose proof (manager_fork_wf _ _ _ _ _ Hwf1 ltac:(by rewrite Hk1') Hf) as (Hwf2 & Hr2 & Hp2 & _).
  apply manager_fork_Done in Hf as (q' & loc' & p' & ci & m & Hrq & Hq1 & Hp1 & Hfk & Hk2); [|done|by rewrite Hk1'].
  rewrite Hk1' in Hrq. change (running k = Some q') in Hrq. assert (q' = cur) as -> by congruence.
  rewrite Hk1' in Hq1. simpl in Hq1. assert (loc' = loc) as -> by congruence.
  rewrite Hk1' in Hp1. simpl in Hp1. rewrite lookup_insert_eq in Hp1. injection Hp1 as <-.
  destruct (wf_table _ _ Hwf cur loc Hq) as (p' & Hp3 & _ & Hi). assert (p' = p) as -> by congruence.
  apply inner_fork_Done in Hfk as (_ & _ & _ & _ & _ & _ & v' & cv & off & sp & m1 & Hv' & Hcv & Hvf & Hso & _);
    [|by destruct Hi as (? & ? & ?); split_and!].
  simpl in Hv'. assert (v' = v) as -> by congruence.
  assert (Hkm : kmem k1 = kmem k) by (by rewrite Hk1'). rewrite Hkm in Hvf.
  assert (Hmm : machine m = machine m1 ∧ arcs m = arcs m1).
  { apply on_machine_Done in Hso as (t & Hso & ->). unfold StackOps.stack_offset in Hso. simpl.
    apply bind_Done in Hso as (o & s1 & [-> _]%word_op_Done & Hso).
    apply bind_Done in Hso as (u1 & s2 & [-> _]%debug_assert_Done & Hso). by apply ret_Done in Hso as [_ <-]. }
  destruct (fork_arcs _ _ _ _ _ _ _ Ha Hvf) as (reg & n & Hreg & Ham & _).
  assert (Hcr : cr3 (kmem k) = reg).
  { apply (Hld cur loc v reg n); [done|done| |done]. by rewrite lookup_vm_map, Hp. }
  apply bind_Done in Hs as (u' & k3 & Hpu & Hs). unfold push_ready in Hpu. apply modify_Done in Hpu as <-.
  apply bind_Done in Hs as (r & k3 & Hsn & Hs). apply ret_Done in Hs as [_ <-].
  apply same_vms_switch_next in Hsn as (Hvm & Hps & Har & Hma); [|apply wf_push; [done|apply Hp2; rewrite Hk1'; simpl; by rewrite Hq]].
  set (cl := fresh (dom (procs k1))) in *.
  assert (Hlc : vm_of k2 (NEXT_PID k) = Some cv).
  { rewrite (vm_of_lookup _ _ (mkProcess (NEXT_PID k) ci)); [done|]. rewrite Hk2.
    apply lookup_proc_Some with cl; simpl; rewrite Hk1'; by rewrite lookup_insert_eq. }
  exists cv, (S n). split; [unfold vm_of; rewrite Hvm, Hps; exact Hlc|].
  assert (Hkm2 : kmem k2 = m) by (rewrite Hk2; unfold add_process, set_inner; simpl; by case_match).
  rewrite Hma, Har. change (kmem (set_ready _ k2)) with (kmem k2). rewrite Hkm2. destruct Hmm as [-> ->].
  split; [by rewrite Ham, lookup_insert_eq, Hcr|]. intros Hlow.
  rewrite Hcr. eapply (fork_child_vm _ mapping); try exact Hvf; try exact Hreg; try done. lia.
Qed.

Lemma exit_shared ret ctx (k : St) c w vc vw ctx' k' :
  wf k → spaces cpuid k → running k = Some c → c ∉ waiters k c → w ≠ c →
  vm_of k c = Some vc → vm_of k w = Some vw → page_table vc = page_table vw → stack_wf (stack vc) →
  process_exit PHYSICAL_OFFSET cpuid ret ctx k = Done (ctx', k') →
  vm_of k' w = Some vw ∧ (∃ n, arcs (kmem k') !! page_table vw = Some (cr3 (kmem k), n)) ∧
  changes_only mapping (addr (cr3 (kmem k))) (stack_pages (stack vc)) (machine (kmem k)) (machine (kmem k')).
Proof.
  intros Hwf Hsp Hr Hself Hne Hc Hw Hpt Hst Hx. destruct (running_known cpuid k c Hwf Hr) as [pc Hlc].
  destruct (shared_count cpuid k w c vw vc Hwf Hsp Hne Hw Hc Hpt) as (reg & n & Ha).
  assert (Hreg : reg = cr3 (kmem k)).
  { destruct Hsp as [_ Hl]. apply bind_Some in Hc as (l & Hql & Hv). rewrite <- Hpt in Ha.
    symmetry. by apply (Hl c l vc reg _ Hr Hql Hv Ha). }
  subst reg. destruct (process_exit_effect _ _ _ _ _ _ _ _ _ Hwf Hr Hlc Hself Hx) as ([Hlv] & _ & _ & m & Hm & Ha' & Hma & _).
  rewrite (vm_of_lookup _ _ _ Hlc) in Hc. rewrite Hc in Hm. rewrite <- Hpt in Ha.
  apply (drop_shared_Done _ mapping _ _ _ _ _ _ Hst Ha) in Hm as (Hma' & _ & _ & Hch).
  rewrite Ha', Hma, Hma', Hpt, lookup_insert_eq. split_and!; [|eauto|done].
  apply bind_Some in Hw as (lw & Hqw & Hvw). rewrite lookup_vm_map in Hvw. apply bind_Some in Hvw as (pw & Hpw & Hvw).
  pose proof (lookup_proc_Some _ _ _ _ Hqw Hpw) as Hlw.
  assert (Haf : ∃ p', after_exit ret k c pc w = Some p' ∧ proc_vm (inner p') = Some vw).
  { unfold after_exit. rewrite decide_False by done. destruct (decide _); rewrite Hlw; by eexists. }
  destruct Haf as (p' & Hp' & Hv').
  assert (∃ p2, lookup_proc k' w = Some p2 ∧ proc_vm (inner p2) = Some vw) as (p2 & Hp2 & Hv2).
  { destruct Hlv as [(_ & _ & _ & _ & Hlk)|(nx & pn & d & _ & Hpn & _ & _ & _ & _ & _ & Hlk)]; rewrite Hlk; [by eexists|].
    destruct (decide (w = nx)) as [->|]; [|by eexists]. assert (pn = p') as -> by congruence. by eexists. }
  by rewrite (vm_of_lookup _ _ _ Hp2).
Qed.

(** The running program sees the memory of its page table. *)
Lemma load_eq va (k : St) pa :
  physical PHYSICAL_OFFSET k va = Some pa → load va k = Done (get_word (Elf.mem (machine (kmem k))) pa, k).
Proof. intros Hp. unfold ForkApp.load. rewrite (bind_step _ _ _ _ _ eq_refl). by rewrite Hp. Qed.

Lemma physical_ext (k k' : St) va :
  addr (cr3 (kmem k')) = addr (cr3 (kmem k)) →
  mapping (tables (machine (kmem k'))) (addr (cr3 (kmem k))) (Page_containing_address va) =
    mapping (tables (machine (kmem k))) (addr (cr3 (kmem k))) (Page_containing_address va) →
  physical PHYSICAL_OFFSET k' va = physical PHYSICAL_OFFSET k va.
Proof. intros Hc Hm. unfold physical. by rewrite !translate_page_eq, Hc, Hm. Qed.

Lemma digits_sum v (g : Z → Z) (n : nat) s :
  0 ≤ s → (∀ i, s ≤ i < s + Z.of_nat n → g i = (v / 256 ^ i) `mod` 256) →
  foldr (λ i w, g i + 256 * w) 0 (seqZ s (Z.of_nat n)) = (v / 256 ^ s) `mod` 256 ^ Z.of_nat n.
Proof.
  revert s. induction n as [|n IH]; intros s Hs Hg; [by rewrite Z.mod_1_r|].
  rewrite seqZ_cons by lia. cbn [foldr]. replace (Z.pred (Z.of_nat (S n))) with (Z.of_nat n) by lia.
  rewrite IH, Hg by (lia || (intros; apply Hg; lia)).
  replace (256 ^ Z.of_nat (S n)) with (256 * 256 ^ Z.of_nat n) by (rewrite Nat2Z.inj_succ, Z.pow_succ_r by lia; lia).
  rewrite Z.rem_mul_r by lia. rewrite Z.div_div, Z.pow_succ_r by lia. by rewrite (Z.mul_comm 256 (256 ^ s)).
Qed.

Lemma get_put_word pa v m : 0 ≤ v < 2 ^ 64 → get_word (put_word pa v m) pa = v.
Proof.
  intros Hv. unfold get_word. change 8 with (Z.of_nat 8). rewrite (digits_sum v (λ i, put_word pa v m (pa + i))); [|done|].
  - change (256 ^ 0) with 1. rewrite Z.div_1_r. by apply Z.mod_small.
  - intros i Hi. unfold put_word. rewrite (proj2 (Z.leb_le _ _)), (proj2 (Z.ltb_lt _ _)) by lia. simpl.
    do 3 f_equal. lia.
Qed.

#[local] Abbreviation main_forked := (main_forked (PT := PT) (Q := Q) PHYSICAL_OFFSET M_).
#[local] Abbreviation main_waited := (main_waited (PT := PT) (Q := Q) PHYSICAL_OFFSET M_).

(** The kernel after the child's [M = 0x2333]. *)
Definition stored (pa : Z) (k : St) : St :=
  let m := kmem k in
  set_kmem (mkMem (mkMachine (tables (machine m)) (falloc (machine m)) (put_word pa 0x2333 (Elf.mem (machine m))))
    (arcs m) (ends m) (cr3 m)) k.

Lemma main_forked_parent c (k : St) : 1 ≤ c → main_forked c k = Done (WaitPid c, k).
Proof. intros Hc. unfold ForkApp.main_forked. by rewrite (proj2 (Z.eqb_neq _ _)) by lia. Qed.

(** The parent's last part, when it sees what was stored. *)
Lemma main_parent (k : St) pa :
  physical PHYSICAL_OFFSET k M_ = Some pa → get_word (Elf.mem (machine (kmem k))) pa = 0x2333 →
  main_waited 64 k = Done (Exit 1056, k).
Proof.
  intros Hp Hg. unfold ForkApp.main_waited. rewrite (bind_step _ _ k () k) by done.
  rewrite !(bind_step _ _ _ _ _ (load_eq _ _ _ Hp)), Hg. done.
Qed.

(** The child is done with its part; whatever the timer does until the parent runs, the parent
    finds the child's value. *)
Lemma store_survives (k : St) c w vc vw pa ctx ctx' k6 cs outs k7 :
  wf k → spaces cpuid k → running k = Some c → c ∉ waiters k c → w ≠ c →
  vm_of k c = Some vc → vm_of k w = Some vw → page_table vc = page_table vw → stack_wf (stack vc) →
  Page_containing_address M_ ∉ stack_pages (stack vc) → physical PHYSICAL_OFFSET k M_ = Some pa →
  process_exit PHYSICAL_OFFSET cpuid 64 ctx (stored pa k) = Done (ctx', k6) →
  timer cpuid cs k6 = Done (outs, k7) → running k7 = Some w →
  main_waited 64 k7 = Done (Exit 1056, k7).
Proof.
  intros Hwf Hsp Hr Hself Hne Hc Hw Hpt Hst Hpg Hpa Hx Ht Hr7.
  assert (Hwf5 : wf (stored pa k)) by (by eapply (sched_eq_wf cpuid k)).
  assert (Hsp5 : spaces cpuid (stored pa k)) by (by eapply (still_spaces cpuid k)).
  destruct (exit_shared 64 ctx (stored pa k) c w vc vw ctx' k6 Hwf5 Hsp5 Hr Hself Hne Hc Hw Hpt Hst Hx)
    as (Hw6 & (n & Ha6) & Hmem & Hmap).
  pose proof (process_exit_wf _ _ _ _ _ _ _ Hwf5 Hx) as Hwf6.
  pose proof (spaces_process_exit _ _ _ _ _ _ _ Hwf5 Hsp5 Hx) as Hsp6.
  destruct (same_vms_timer _ _ _ _ _ Hwf6 Ht) as (Hvm & Hps & Ha7 & Hm7).
  destruct (spaces_timer _ _ _ _ _ Hwf6 Hsp6 Ht) as [_ Hl7].
  assert (Hw7 : vm_of k7 w = Some vw) by (unfold vm_of; rewrite Hvm, Hps; exact Hw6).
  apply bind_Some in Hw7 as (l & Hq & Hv). rewrite <- Ha7 in Ha6.
  pose proof (Hl7 w l vw _ _ Hr7 Hq Hv Ha6) as Hcr. change (cr3 (kmem (stored pa k))) with (cr3 (kmem k)) in *.
  apply (main_parent k7 pa).
  - rewrite <- Hpa. apply physical_ext; [by rewrite Hcr|]. rewrite Hm7. exact (Hmap _ Hpg).
  - rewrite Hm7, Hmem. by apply get_put_word.
Qed.

(** ** Parent and child, from the fork to the end *)

(** The parent [w] and its child [c] on one page table, which maps [M] outside of the
    child's stack. *)
Record family (k : St) (w c : Z) (v cv : ProcessVm) : Prop := {
  fam_wf : wf k;
  fam_spaces : spaces cpuid k;
  fam_ne : w ≠ c;
  fam_parent : vm_of k w = Some v;
  fam_child : vm_of k c = Some cv;
  fam_table : page_table cv = page_table v;
  fam_stack : stack_wf (stack cv);
  fam_page : Page_containing_address M_ ∉ stack_pages (stack cv);
  fam_M : ∃ reg n, arcs (kmem k) !! page_table v = Some (reg, n) ∧
    is_Some (mapping (tables (machine (kmem k))) (addr reg) (Page_containing_address M_));
}.

Lemma family_step (k k' : St) w c v cv :
  family k w c v cv → wf k' → spaces cpuid k' → same_vms k k' → family k' w c v cv.
Proof.
  intros [] Hwf Hsp (Hv & Hp & Ha & Hm). split; try done; unfold vm_of; rewrite ?Hv, ?Hp, ?Ha, ?Hm; done.
Qed.

Lemma family_timer (k : St) w c v cv cs outs k' :
  family k w c v cv → timer cpuid cs k = Done (outs, k') → family k' w c v cv.
Proof.
  intros Hf Ht. pose proof (fam_wf _ _ _ _ _ Hf) as Hwf. pose proof (fam_spaces _ _ _ _ _ Hf) as Hsp.
  eapply family_step; [done|by eapply timer_frame|by eapply spaces_timer|by eapply same_vms_timer].
Qed.

Lemma family_wait_pid (k : St) w c v cv q ctx ctx' k' :
  family k w c v cv → wait_pid cpuid q ctx k = Done (ctx', k') → family k' w c v cv.
Proof.
  intros Hf Ht. pose proof (fam_wf _ _ _ _ _ Hf) as Hwf. pose proof (fam_spaces _ _ _ _ _ Hf) as Hsp.
  eapply family_step; [done|by eapply wait_pid_wf|by eapply spaces_wait_pid|by eapply same_vms_wait_pid].
Qed.

(** The child, when it runs, does its part. *)
Lemma family_child_runs (k : St) w c v cv :
  is_Some PHYSICAL_OFFSET → family k w c v cv → running k = Some c →
  ∃ pa, physical PHYSICAL_OFFSET k M_ = Some pa ∧ main_forked 0 k = Done (Exit 64, stored pa k).
Proof.
  intros [off Hoff] [Hwf [_ Hld] _ _ Hc Hpt _ _ (reg & n & Ha & [f Hf])] Hr.
  apply bind_Some in Hc as (l & Hq & Hv). rewrite <- Hpt in Ha. pose proof (Hld _ _ _ _ _ Hr Hq Hv Ha) as Hcr.
  assert (is_Some (physical PHYSICAL_OFFSET k M_)) as [pa Hpa].
  { unfold physical. rewrite translate_page_eq, Hcr, Hf, Hoff. by eexists. }
  exists pa. split; [done|]. unfold ForkApp.main_forked. simpl. rewrite (bind_step _ _ k () k) by done.
  rewrite (bind_step _ _ _ _ _ (load_eq _ _ _ Hpa)). unfold ForkApp.store.
  rewrite (bind_step _ _ k () (stored pa k)); [|rewrite (bind_step _ _ _ _ _ eq_refl), Hpa; reflexivity].
  by rewrite (bind_step _ _ _ _ _ (load_eq M_ (stored pa k) pa Hpa)).
Qed.

Lemma family_alive (k : St) w c v cv : family k w c v cv → exit_status k c = None.
Proof.
  intros [Hwf _ _ _ Hc _ _ _ _]. apply bind_Some in Hc as (l & Hq & Hv). rewrite lookup_vm_map in Hv.
  apply bind_Some in Hv as (p & Hp & Hv). destruct (wf_table _ _ Hwf c l Hq) as (p' & Hp' & _ & (Hi & _)).
  assert (p' = p) as -> by congruence. unfold exit_status. rewrite (lookup_proc_Some _ _ _ _ Hq Hp). apply Hi. by rewrite Hv.
Qed.

(** After the child's exit, the parent finds what it stored. *)
Lemma family_parent_sees (k : St) w c v cv pa ctx ctx' k6 cs outs k7 :
  family k w c v cv → running k = Some c → c ∉ waiters k c → physical PHYSICAL_OFFSET k M_ = Some pa →
  process_exit PHYSICAL_OFFSET cpuid 64 ctx (stored pa k) = Done (ctx', k6) →
  timer cpuid cs k6 = Done (outs, k7) → running k7 = Some w → main_waited 64 k7 = Done (Exit 1056, k7).
Proof. intros [] Hr Hself Hpa. by eapply store_survives. Qed.

(** The processes that may run after [c]'s exit are alive. *)
Definition others_alive (k : St) (c : Z) : Prop :=
  ∀ q pq, lookup_proc k q = Some pq → status (inner pq) = Ready ∨ q ∈ waiters k c → exit_code (inner pq) = None.

(** The mapper's [clean_up] returns. *)
Definition clean_up_returns : Prop :=
  ∀ root (pt : PT) (a : BootInfoFrameAllocator), ∃ r, mapper_clean_up root pt a = Done r.

Lemma family_exit_returns (k : St) w c v cv pa ctx :
  debug_assertions = false → clean_up_returns → is_Some PHYSICAL_OFFSET →
  family k w c v cv → running k = Some c → c ∉ waiters k c → others_alive k c →
  ∃ ctx' k', process_exit PHYSICAL_OFFSET cpuid 64 ctx (stored pa k) = Done (ctx', k').
Proof.
  intros Hrel Hcl Hoff [Hwf Hsp Hne Hw Hc Hpt Hst _ _] Hr Hself Hal.
  destruct (running_known cpuid k c Hwf Hr) as [pc Hlc]. rewrite (vm_of_lookup _ _ _ Hlc) in Hc.
  assert (Hwf5 : wf (stored pa k)) by (by eapply (sched_eq_wf cpuid k)).
  assert (Hsp5 : spaces cpuid (stored pa k)) by (by eapply (still_spaces cpuid k)).
  destruct (process_exit_effects PHYSICAL_OFFSET cpuid 64 ctx (stored pa k) c pc) as (ctx' & k' & Hx & _);
    [done..| | |by exists ctx', k'].
  - intros v0 Hv0. assert (v0 = cv) as -> by congruence.
    apply (drop_returns PHYSICAL_OFFSET Hrel Hcl); [done|]. split; [done|].
    destruct (shared_count cpuid k w c v cv Hwf Hsp Hne Hw) as (reg & n & Ha); [by rewrite (vm_of_lookup _ _ _ Hlc)|done|].
    exists reg, (S (S n)). rewrite Hpt. by split.
  - apply (spaces_survivors cpuid); [done..|]. intros q pq _ Hq [[_ Hrd]|Hx]; apply (Hal q pq Hq); auto.
Qed.

(** A process [w] calls [fork]: there are pids left, its stack is as it should
    be and the child's finds room in the lower half, and [M] is mapped. *)
Record forks (k : St) (w : Z) (ctx ctx1 : ProcessContext) (k1 : St) : Prop := {
  fk_wf : wf k;
  fk_spaces : spaces cpuid k;
  fk_pid : NEXT_PID k + 1 < 2 ^ 16;
  fk_running : running k = Some w;
  fk_queue : w ∉ ready_queue k;
  fk_waiters : NEXT_PID k ∉ waiters k (NEXT_PID k);
  fk_M : is_Some (physical PHYSICAL_OFFSET k M_);
  fk_stack : ∃ p v, lookup_proc k w = Some p ∧ proc_vm (inner p) = Some v ∧
    stack_wf (stack v) ∧ 0 < usage (stack v) ∧
    Z.of_nat (length (children (inner p))) * STACK_MAX_SIZE ≤ range_start (stack v);
  fk_done : fork PHYSICAL_OFFSET cpuid ctx k = Done (ctx1, k1);
  fk_room cv : vm_of k1 (NEXT_PID k) = Some cv → range_start (stack cv) < 2 ^ 47;
}.

Lemma forks_family (k : St) w ctx ctx1 k1 :
  forks k w ctx ctx1 k1 →
  ∃ v cv, family k1 w (NEXT_PID k) v cv ∧ NEXT_PID k ∉ waiters k1 (NEXT_PID k).
Proof.
  intros [Hwf Hsp Hn Hr _ Hself [pa HM] (p & v & Hl & Hv & Hst & Hu & Hch) Hd Hroom].
  pose proof (spaces_fork _ _ _ _ _ _ Hwf Hn Hsp Hd) as Hsp1. pose proof (fork_wf _ _ _ _ _ _ Hwf Hn Hd) as Hwf1.
  destruct (fork_vms _ _ _ _ _ _ _ Hwf Hn Hr Hd) as (v' & cv & Hv0 & Hv1 & Hc1 & Hpt & Hne & Hw).
  rewrite (vm_of_lookup _ _ _ Hl) in Hv0. assert (v' = v) as -> by congruence.
  apply bind_Some in Hl as (loc & Hq & Hp).
  destruct (fork_machine _ _ _ _ _ _ _ _ Hwf Hsp Hn Hr Hq Hp Hv Hst Hu Hch Hd) as (cv' & n & Hc1' & Ha1 & Hmap).
  assert (cv' = cv) as -> by congruence. destruct (Hmap (Hroom _ Hc1)) as [Hcst Hkeep].
  exists v, cv. split; [|unfold waiters; rewrite Hw; exact Hself].
  unfold physical in HM. apply bind_Some in HM as (off & _ & HM). apply bind_Some in HM as (f & HM & _).
  rewrite translate_page_eq in HM. apply fmap_Some in HM as (x & HM & _). destruct (Hkeep _ _ HM) as [HM1 Hpg].
  split; try done; eauto 10.
Qed.

Lemma fk_pos (k : St) w ctx ctx1 k1 : forks k w ctx ctx1 k1 → 1 ≤ NEXT_PID k.
Proof.
  intros []. destruct (running_known cpuid k w) as (p & (l & Hl & _)%bind_Some); [done..|].
  destruct (wf_pids _ _ fk_wf0 w); [by rewrite Hl|lia].
Qed.

(** Where the parent and the child are after the fork. *)
Lemma forks_up (k : St) w ctx ctx1 k1 :
  forks k w ctx ctx1 k1 →
  goes_on_with cpuid k1 ctx1 w (Context.set_rax (NEXT_PID k) ctx) ∧
  ∃ cctx, goes_on_with cpuid k1 ctx1 (NEXT_PID k) (Context.set_rax 0 cctx).
Proof. intros []. by apply (fork_both PHYSICAL_OFFSET). Qed.

(** A process that is in the queue, or runs, after a process has exited: the dead
    one does not go on. *)
Lemma exit_leaves ret ctx (k : St) c w ctx' k' :
  wf k → running k = Some c → c ∉ waiters k c → w ≠ c → up cpuid k w →
  process_exit PHYSICAL_OFFSET cpuid ret ctx k = Done (ctx', k') → running k' ≠ Some c.
Proof.
  intros Hwf Hr Hself Hne [[Hrd Hq]|Hx] Hs; [|congruence]. destruct (running_known cpuid k c Hwf Hr) as [pc Hlc].
  destruct (process_exit_effect _ _ _ _ _ _ _ _ _ Hwf Hr Hlc Hself Hs) as ([Hlv] & _).
  destruct Hlv as [(Hno & _)|(nx & pn & d & Hnx & _ & _ & Hrn & _)]; [|congruence].
  unfold is_ready in Hrd. destruct (lookup_proc k w) as [pw|] eqn:Hlw; [|done]. apply bool_decide_eq_true in Hrd.
  exfalso. assert (∃ p', after_exit ret k c pc w = Some p' ∧ status (inner p') = Ready) as (p' & Hp' & Hst).
  { unfold after_exit. rewrite decide_False by done. destruct (decide _); rewrite Hlw; by eexists. }
  refine (Hno w _ p' Hp' Hst). apply elem_of_app. by left.
Qed.

(** C14: The application when the parent waits before the child exits.  After the
    fork both go on, with the child's pid and 0 in [rax].  When, after any number of
    timer interrupts, the parent runs, it calls [wait_pid]; when the child runs after
    that, it stores to [M] and exits with 64, and the exit returns when the
    processes it leaves are alive; the parent then goes on with 64
    in [rax] and the registers of its call, finds what the child stored, and
    ends with 1056: none of its assertions fails. *)
Theorem fork_app_parent_first (k : St) w ctx ctx1 k1 :
  debug_assertions = false → clean_up_returns → is_Some PHYSICAL_OFFSET → forks k w ctx ctx1 k1 →
  let c := NEXT_PID k in
  goes_on_with cpuid k1 ctx1 w (Context.set_rax c ctx) ∧
  (∃ cctx, goes_on_with cpuid k1 ctx1 c (Context.set_rax 0 cctx)) ∧
  ∀ cs2 outs2 k2, timer cpuid cs2 k1 = Done (outs2, k2) → running k2 = Some w →
  main_forked c k2 = Done (WaitPid c, k2) ∧
  ∀ ctx3 ctx3' k3 cs4 outs4 k4, wait_pid cpuid c ctx3 k2 = Done (ctx3', k3) →
    timer cpuid cs4 k3 = Done (outs4, k4) → running k4 = Some c →
  ∃ k5, main_forked 0 k4 = Done (Exit 64, k5) ∧
  ∀ ctx6, others_alive k4 c →
  ∃ ctx6' k6, process_exit PHYSICAL_OFFSET cpuid 64 ctx6 k5 = Done (ctx6', k6) ∧
  goes_on_with cpuid k6 ctx6' w (Context.set_rax 64 ctx3) ∧
  ∀ cs7 outs7 k7, timer cpuid cs7 k6 = Done (outs7, k7) → running k7 = Some w →
  main_waited 64 k7 = Done (Exit 1056, k7).
Proof.
  intros Hrel Hcl Hoff Hk c. destruct (forks_up _ _ _ _ _ Hk) as [Hgw [cctx Hgc]].
  split_and!; [exact Hgw|by exists cctx|]. destruct (forks_family _ _ _ _ _ Hk) as (v & cv & Hf1 & Hw1).
  fold c in Hf1, Hw1, Hgc. intros cs2 outs2 k2 Ht2 Hr2. pose proof (fam_wf _ _ _ _ _ Hf1) as Hwf1.
  pose proof (family_timer _ _ _ _ _ _ _ _ Hf1 Ht2) as Hf2. pose proof (fam_ne _ _ _ _ _ Hf2) as Hne.
  pose proof (fam_wf _ _ _ _ _ Hf2) as Hwf2. split; [by apply main_forked_parent, (fk_pos _ _ _ _ _ Hk)|].
  assert (Hrd : is_ready k2 c = true).
  { destruct (timer_up _ c _ _ _ _ Hwf1 (goes_on_up _ _ _ _ _ Hgc) Ht2) as [[]|]; [done|congruence]. }
  assert (Hw2 : c ∉ waiters k2 c).
  { destruct (timer_frame _ _ _ _ _ Hwf1 Ht2) as (_ & Hwq & _). unfold waiters. by rewrite Hwq. }
  intros ctx3 ctx3' k3 cs4 outs4 k4 Hw3 Ht4 Hr4. destruct (running_known cpuid k2 w Hwf2 Hr2) as [pw Hl2].
  destruct (waiting_keeps _ _ _ _ _ _ _ _ _ _ _ Hwf2 Hr2 Hl2 Hne (family_alive _ _ _ _ _ Hf2) Hrd Hw3 Ht4)
    as (Hwf4 & Hl4 & _ & Hwt4 & _).
  pose proof (family_timer _ _ _ _ _ _ _ _ (family_wait_pid _ _ _ _ _ _ _ _ _ Hf2 Hw3) Ht4) as Hf4.
  assert (Hself : c ∉ waiters k4 c) by (rewrite Hwt4; naive_solver).
  destruct (family_child_runs _ _ _ _ _ Hoff Hf4 Hr4) as (pa & Hpa & Hmain). exists (stored pa k4). split; [exact Hmain|].
  intros ctx6 Hal. destruct (family_exit_returns k4 w c v cv pa ctx6) as (ctx6' & k6 & Hx); [done..|].
  exists ctx6', k6. split; [exact Hx|]. split.
  - apply (exit_wakes PHYSICAL_OFFSET cpuid w c 64 ctx3 pw ctx6 (stored pa k4));
      [by eapply (sched_eq_wf cpuid k4)|exact Hr4|exact Hne|exact Hself|apply Hwt4; by left|exact Hl4|exact Hx].
  - intros cs7 outs7 k7 Ht7 Hr7. by eapply family_parent_sees.
Qed.

(** C15: The application when the child exits before the parent waits.  Whenever the
    child runs after the fork, it stores to [M] and exits with 64, and the exit
    returns when the processes it leaves are alive; whenever the parent runs
    after that, its [wait_pid] answers 64 at once, and it finds what the child
    stored and ends with 1056. *)
Theorem fork_app_child_first (k : St) w ctx ctx1 k1 :
  debug_assertions = false → clean_up_returns → is_Some PHYSICAL_OFFSET → forks k w ctx ctx1 k1 →
  let c := NEXT_PID k in
  ∀ cs2 outs2 k2, timer cpuid cs2 k1 = Done (outs2, k2) → running k2 = Some c →
  ∃ k3, main_forked 0 k2 = Done (Exit 64, k3) ∧
  ∀ ctx4, others_alive k2 c →
  ∃ ctx4' k4, process_exit PHYSICAL_OFFSET cpuid 64 ctx4 k3 = Done (ctx4', k4) ∧
  ∀ cs5 outs5 k5, timer cpuid cs5 k4 = Done (outs5, k5) → running k5 = Some w →
  main_forked c k5 = Done (WaitPid c, k5) ∧
  (∀ ctx6, wait_pid cpuid c ctx6 k5 = Done (Context.set_rax 64 ctx6, k5)) ∧
  main_waited 64 k5 = Done (Exit 1056, k5).
Proof.
  intros Hrel Hcl Hoff Hk c cs2 outs2 k2 Ht2 Hr2. destruct (forks_up _ _ _ _ _ Hk) as [Hgw _].
  destruct (forks_family _ _ _ _ _ Hk) as (v & cv & Hf1 & Hw1). fold c in Hf1, Hw1.
  pose proof (fam_wf _ _ _ _ _ Hf1) as Hwf1. pose proof (family_timer _ _ _ _ _ _ _ _ Hf1 Ht2) as Hf2.
  pose proof (fam_ne _ _ _ _ _ Hf2) as Hne. pose proof (fam_wf _ _ _ _ _ Hf2) as Hwf2.
  pose proof (timer_up _ w _ _ _ _ Hwf1 (goes_on_up _ _ _ _ _ Hgw) Ht2) as Hup.
  assert (Hw2 : c ∉ waiters k2 c).
  { destruct (timer_frame _ _ _ _ _ Hwf1 Ht2) as (_ & Hwq & _). unfold waiters. by rewrite Hwq. }
  destruct (family_child_runs _ _ _ _ _ Hoff Hf2 Hr2) as (pa & Hpa & Hmain). exists (stored pa k2). split; [exact Hmain|].
  intros ctx4 Hal. destruct (family_exit_returns k2 w c v cv pa ctx4) as (ctx4' & k4 & Hx); [done..|].
  exists ctx4', k4. split; [exact Hx|]. intros cs5 outs5 k5 Ht5 Hr5. split; [by apply main_forked_parent, (fk_pos _ _ _ _ _ Hk)|].
  assert (Hwf3 : wf (stored pa k2)) by (by eapply (sched_eq_wf cpuid k2)).
  assert (Hr4 : running k4 ≠ Some c) by (by eapply (exit_leaves 64 ctx4 (stored pa k2) c w)).
  destruct (exit_recorded PHYSICAL_OFFSET cpuid c 64 ctx4 (stored pa k2) ctx4' k4 cs5 outs5 k5 Hwf3 Hr2 Hw2 Hx Hr4 Ht5)
    as [Hwf5 Hex].
  split; [|by eapply family_parent_sees].
  intros ctx6. by apply (wait_pid_exited cpuid c 64 ctx6 k5 w).
Qed.

End Story.

(** ** An example: the word of [elf_app] is [M] *)

Section ForkAppWitnesses.
#[local] Existing Instance x86_ref.
#[local] Existing Instance release.

Definition fa_M : Z := 0x401000.
Definition fa0 : Kernel table queue := app_runs.1.
Definition fa1 : Kernel table queue := state_of (fork offset_example 0 fork_call fa0) fa0.
(** the parent runs and waits, the child runs and exits, the parent runs *)
Definition fa2 : Kernel table queue := state_of (timer 0 [regs_example 7; regs_example 8] fa1) fa1.
Definition fa3 : Kernel table queue := state_of (wait_pid 0 3 (regs_example 9) fa2) fa2.
Definition fa4 : Kernel table queue := state_of (timer 0 [regs_example 10] fa3) fa3.
Definition fa5 : Kernel table queue := state_of (main_forked offset_example fa_M 0 fa4) fa4.
Definition fa6 : Kernel table queue := state_of (process_exit offset_example 0 64 (regs_example 11) fa5) fa5.
Definition fa7 : Kernel table queue := state_of (timer 0 [regs_example 12] fa6) fa6.
(** the child runs and exits, the parent runs *)
Definition fb2 : Kernel table queue := state_of (timer 0 [regs_example 7] fa1) fa1.
Definition fb3 : Kernel table queue := state_of (main_forked offset_example fa_M 0 fb2) fb2.
Definition fb4 : Kernel table queue := state_of (process_exit offset_example 0 64 (regs_example 11) fb3) fb3.
Definition fb5 : Kernel table queue := state_of (timer 0 [regs_example 13; regs_example 14] fb4) fb4.

Definition answer {S A} (o : outcome (A * S)) (d : A) : A := default d (value_of o).

Lemma done_answer {S A} (o : outcome (A * S)) d s :
  (if value_of o then true else false) = true → o = Done (answer o d, state_of o s).
Proof. by destruct o as [[]| |]. Qed.

Definition fa_now : ProcessContext := answer (fork offset_example 0 fork_call fa0) (regs_example 0).

Lemma fa2_step : timer 0 [regs_example 7; regs_example 8] fa1 = Done (answer (timer 0 [regs_example 7; regs_example 8] fa1) [], fa2).
Proof. apply done_answer. vm_compute. reflexivity. Qed.
Lemma fa2_running : running 0 fa2 = Some 2.
Proof. vm_compute. reflexivity. Qed.
Lemma fa3_step : wait_pid 0 3 (regs_example 9) fa2 = Done (answer (wait_pid 0 3 (regs_example 9) fa2) (regs_example 0), fa3).
Proof. apply done_answer. vm_compute. reflexivity. Qed.
Lemma fa4_step : timer 0 [regs_example 10] fa3 = Done (answer (timer 0 [regs_example 10] fa3) [], fa4).
Proof. apply done_answer. vm_compute. reflexivity. Qed.
Lemma fa4_running : running 0 fa4 = Some 3.
Proof. vm_compute. reflexivity. Qed.
Lemma fa5_step n k : main_forked offset_example fa_M 0 fa4 = Done (n, k) → fa5 = k.
Proof. apply state_of_Done. Qed.
Lemma fa6_step c k : process_exit offset_example 0 64 (regs_example 11) fa5 = Done (c, k) → fa6 = k.
Proof. apply state_of_Done. Qed.
Lemma fa7_step : timer 0 [regs_example 12] fa6 = Done (answer (timer 0 [regs_example 12] fa6) [], fa7).
Proof. apply done_answer. vm_compute. reflexivity. Qed.
Lemma fa7_running : running 0 fa7 = Some 2.
Proof. vm_compute. reflexivity. Qed.
Lemma fb2_step : timer 0 [regs_example 7] fa1 = Done (answer (timer 0 [regs_example 7] fa1) [], fb2).
Proof. apply done_answer. vm_compute. reflexivity. Qed.
Lemma fb2_running : running 0 fb2 = Some 3.
Proof. vm_compute. reflexivity. Qed.
Lemma fb3_step n k : main_forked offset_example fa_M 0 fb2 = Done (n, k) → fb3 = k.
Proof. apply state_of_Done. Qed.
Lemma fb4_step c k : process_exit offset_example 0 64 (regs_example 11) fb3 = Done (c, k) → fb4 = k.
Proof. apply state_of_Done. Qed.
Lemma fb5_step : timer 0 [regs_example 13; regs_example 14] fb4 = Done (answer (timer 0 [regs_example 13; regs_example 14] fb4) [], fb5).
Proof. apply done_answer. vm_compute. reflexivity. Qed.
Lemma fb5_running : running 0 fb5 = Some 2.
Proof. vm_compute. reflexivity. Qed.

Lemma fa4_alive q p : lookup_proc fa4 q = Some p → exit_code (inner p) = None.
Proof. apply all_alive. vm_compute. reflexivity. Qed.
Lemma fb2_alive q p : lookup_proc fb2 q = Some p → exit_code (inner p) = None.
Proof. apply all_alive. vm_compute. reflexivity. Qed.

Lemma offset_some : is_Some offset_example.
Proof. by eexists. Qed.

Lemma fa_forks : forks offset_example 0 fa_M fa0 2 fork_call fa_now fa1.
Proof.
  destruct (reachable_good offset_example 0 (8, 16) 0 layout_example [] app_boot app_started () 0 app_runs
    app_boot_pristine app_boot_started app_runs_reached) as [[Hwf _] Hsp].
  constructor.
  - exact Hwf.
  - exact Hsp.
  - vm_compute. reflexivity.
  - vm_compute. reflexivity.
  - vm_compute. intros Hin%list_elem_of_singleton. discriminate.
  - vm_compute. intros Hin%elem_of_nil. done.
  - eexists. vm_compute. reflexivity.
  - eexists. exists (mkVm 1 stack_example (mkHeap HEAP_START 1) [(0x401000, 0x401000)] 0x1000).
    split_and!; [vm_compute; reflexivity..|apply stack_example_wf|vm_compute; reflexivity|vm_compute; discriminate].
  - apply done_answer. vm_compute. reflexivity.
  - intros cv Hcv. vm_compute in Hcv. injection Hcv as <-. vm_compute. reflexivity.
Qed.

Lemma fork_app_parent_first_witness :
  main_waited offset_example fa_M 64 fa7 = Done (Exit 1056, fa7).
Proof.
  destruct (fork_app_parent_first (H := release) table_mapping offset_example 0 fa_M fa0 2 fork_call fa_now fa1
    eq_refl clean_up_ref offset_some fa_forks) as (_ & _ & H2).
  destruct (H2 _ _ _ fa2_step fa2_running) as [_ H3].
  destruct (H3 _ _ _ _ _ _ fa3_step fa4_step fa4_running) as (k5 & Hk5 & H4).
  apply fa5_step in Hk5 as <-.
  destruct (H4 (regs_example 11) (λ q pq Hq _, fa4_alive q pq Hq)) as (c6 & k6 & Hk6 & _ & H5).
  apply fa6_step in Hk6 as <-. exact (H5 _ _ _ fa7_step fa7_running).
Defined.

Lemma fork_app_child_first_witness :
  wait_pid 0 3 (regs_example 9) fb5 = Done (Context.set_rax 64 (regs_example 9), fb5) ∧
  main_waited offset_example fa_M 64 fb5 = Done (Exit 1056, fb5).
Proof.
  destruct (fork_app_child_first (H := release) table_mapping offset_example 0 fa_M fa0 2 fork_call fa_now fa1
    eq_refl clean_up_ref offset_some fa_forks _ _ _ fb2_step fb2_running) as (k3 & Hk3 & H4).
  apply fb3_step in Hk3 as <-.
  destruct (H4 (regs_example 11) (λ q pq Hq _, fb2_alive q pq Hq)) as (c4 & k4 & Hk4 & H5).
  apply fb4_step in Hk4 as <-. destruct (H5 _ _ _ fb5_step fb5_running) as (_ & Hw & Hm). exact (conj (Hw _) Hm).
Defined.

End ForkAppWitnesses.
