(* ===== verification/Runtime.v ===== *)
(** User programs from their first instruction to their last ([pkg/lib]'s
    [macros.rs] and [utils.rs]), and what [sys_brk] does for one. *)
From S2P Require Import Prelude Arch Pid Sync Frames Elf Stack Heap Vm Context Resource Data Process Manager Syscall.
From S2P Require Import Scheduler KernelExample RoundRobin Lifecycle Reachable Effects Spaces Exit Teardown UserLib.
From stdpp Require Import strings.
#[local] Open Scope Z_scope.

(** ** [sleep]: [pkg/lib/src/utils.rs] *)

Module Sleep.
Section Sleep.
(** chrono's [Duration::try_milliseconds], in nanoseconds; out of its bounds,
    [-i64::MAX] to [i64::MAX] milliseconds, there is none. *)
Context (try_milliseconds : Z → option Z).

(** The state is what [sys_time] will answer, in nanoseconds. *)
Definition sys_time : M (list Z) Z :=
  s ← get;
  match s with
  | t :: rest => put rest;; mret t
  | [] => out_of_fuel
  end.

(** [while current - start < dur]; every round reads the clock. *)
Fixpoint sleep_loop (fuel : nat) (start dur current : Z) : M (list Z) () :=
  match fuel with
  | O => out_of_fuel
  | S fuel =>
      if current - start <? dur then current ← sys_time; sleep_loop fuel start dur current
      else mret ()
  end.

Definition sleep (millisecs : Z) : M (list Z) () :=
  start ← sys_time;
  dur ← unwrap (try_milliseconds millisecs);
  s ← get;
  sleep_loop (S (length s)) start dur start.

Lemma sleep_loop_ends start dur current before t rest fuel :
  (length before < fuel)%nat → current - start < dur → (∀ x, x ∈ before → x - start < dur) → dur ≤ t - start →
  sleep_loop (S fuel) start dur current (before ++ t :: rest) = Done ((), rest).
Proof.
  revert current fuel. induction before as [|x before IH]; intros current [|fuel] Hf Hc Hb Ht; try (simpl in Hf; lia);
    cbn [sleep_loop app]; rewrite (proj2 (Z.ltb_lt _ _)) by done.
  - rewrite (bind_step _ _ (t :: rest) t rest) by done. cbn [sleep_loop].
    by rewrite (proj2 (Z.ltb_ge _ _)) by done.
  - rewrite (bind_step _ _ (x :: before ++ t :: rest) x (before ++ t :: rest)) by done.
    apply IH; [simpl in Hf; lia|apply Hb; set_solver|intros y Hy; apply Hb; set_solver|done].
Qed.

(** [sleep] returns as soon as the clock has reached its end: it reads the
    clock for the start, at once returns for a time that is not positive, and otherwise
    stops at the first reading that is late enough, whatever the clock shows
    before (it may even go back). *)
Theorem sleep_ends millisecs dur start before t rest :
  try_milliseconds millisecs = Some dur →
  (dur ≤ 0 → sleep millisecs (start :: rest) = Done ((), rest)) ∧
  (0 < dur → (∀ x, x ∈ before → x < start + dur) → start + dur ≤ t →
   sleep millisecs (start :: before ++ t :: rest) = Done ((), rest)).
Proof.
  intros Hd. split; intros H0.
  - unfold sleep. rewrite (bind_step _ _ (start :: rest) start rest), Hd by done.
    rewrite (bind_step _ _ rest dur rest), (bind_step _ _ rest rest rest) by done.
    cbn [sleep_loop]. by rewrite (proj2 (Z.ltb_ge _ _)) by lia.
  - intros Hb Ht. unfold sleep. rewrite (bind_step _ _ _ start (before ++ t :: rest)), Hd by done.
    rewrite (bind_step _ _ _ dur (before ++ t :: rest)), (bind_step _ _ _ _ _ eq_refl) by done.
    apply sleep_loop_ends; [rewrite length_app; simpl; lia|lia|intros x Hx; specialize (Hb x Hx); lia|lia].
Qed.
End Sleep.

Lemma sleep_ends_witness :
  sleep (λ ms, Some (ms * 1000000)) 2 [5; 1000005; 4; 2000005; 2000006] = Done ((), [2000006]).
Proof.
  apply (sleep_ends (λ ms, Some (ms * 1000000)) 2 2000000 5 [1000005; 4] 2000005 [2000006]).
  - reflexivity.
  - lia.
  - intros x [->|[->|Hx]%elem_of_cons]%elem_of_cons; [lia|lia|by apply elem_of_nil in Hx].
  - lia.
Defined.
End Sleep.

(** ** The entry point: [entry!] of [pkg/lib/src/macros.rs] *)

Section Entry.
Context `{Profile} `{X86_64} {PT Q UA : Type} `{Mapper PT} `{ArrayQueue Q} `{UserAllocator UA}.
Context (PHYSICAL_OFFSET : option Z) (cpuid : nat) (selector : Z * Z) (clock_nanos : Z).
Context (Layout_of : list Z → Z * Z).
#[local] Abbreviation St := (Kernel PT Q * UA)%type.
#[local] Abbreviation dispatcher :=
  (dispatcher (PT := PT) (Q := Q) (UA := UA) PHYSICAL_OFFSET cpuid selector clock_nanos Layout_of).

(** What [main] comes to: a result, or a Rust panic, after which the panic
    handler of the library prints and exits with 1. *)
Inductive end_of_main : Type :=
  | Returned (ret : Z)
  | Panicked.

(** The registers of the last call of a program: [sys_exit(ret as usize)] of
    [__impl_start], or [sys_exit(1)] of [panic]. *)
Definition start (m : end_of_main) : RegistersValue → RegistersValue :=
  match m with
  | Returned ret => User.sys_exit (as_usize ret)
  | Panicked => User.sys_exit 1
  end.

(** The exit status travels unharmed: the [isize] that [main] returns is the
    [isize] the kernel's [exit] records, and what [sys_wait_pid] makes of the
    [rax] that the kernel gives the waiting process; a program that panics is
    seen to have ended with 1. *)
Theorem exit_status ctx (s : St) ret :
  - 2 ^ 63 ≤ ret < 2 ^ 63 →
  dispatcher (enter (start (Returned ret)) ctx) s =
    on_kernel (process_exit PHYSICAL_OFFSET cpuid ret (enter (start (Returned ret)) ctx)) s ∧
  dispatcher (enter (start Panicked) ctx) s =
    on_kernel (process_exit PHYSICAL_OFFSET cpuid 1 (enter (start Panicked) ctx)) s ∧
  User.wait_pid_of (as_usize ret) = ret.
Proof.
  intros Hr. assert (Hi : as_isize (as_usize ret) = ret) by (by apply as_isize_usize). split_and!; [| |done].
  - unfold start, User.sys_exit, Syscall.dispatcher. rewrite args1. cbv zeta. cbn [Syscall.syscall arg0 arg1 arg2].
    unfold exit_process. cbn [arg0]. by rewrite Hi.
  - unfold start, User.sys_exit, Syscall.dispatcher. rewrite args1. cbv zeta. cbn [Syscall.syscall arg0 arg1 arg2].
    done.
Qed.

End Entry.

(** ** [sys_brk] as a program sees it *)

Section Brk.
Context `{Profile} `{!X86_64} `{!X86_64_Laws _} {PT Q UA : Type} `{!Mapper PT} `{!ArrayQueue Q} `{!UserAllocator UA}.
Context (mapping : PT → Z → Z → option (Z * Z)) `{!Mapper_Laws PT mapping}.
Context (PHYSICAL_OFFSET : option Z) (cpuid : nat) (selector : Z * Z) (clock_nanos : Z).
Context (Layout_of : list Z → Z * Z).
#[local] Abbreviation K := (Kernel PT Q).
#[local] Abbreviation St := (Kernel PT Q * UA)%type.
#[local] Abbreviation dispatcher :=
  (dispatcher (PT := PT) (Q := Q) (UA := UA) PHYSICAL_OFFSET cpuid selector clock_nanos Layout_of).
#[local] Abbreviation wf := (wf cpuid).
#[local] Abbreviation running := (running cpuid).

(** A call that does not switch: the answer in [rax]. *)
Definition call (f : RegistersValue → RegistersValue) (ctx : ProcessContext) : M St Z :=
  ctx' ← dispatcher (enter f ctx); mret (rax (regs (value ctx'))).

(** The program's [unwrap], [expect] and [assert!] end it. *)
Definition or_panic {A} (o : option A) (f : A → M St end_of_main) : M St end_of_main :=
  match o with Some a => f a | None => mret Panicked end.

(** [x + y] of [usize] *)
Definition add_usize (x y : Z) : option Z :=
  if x + y <? 2 ^ 64 then Some (x + y) else if debug_assertions then None else Some (wrap 64 (x + y)).

(** The heap of the running process: [v] is its memory, [reg] its page table,
    [e] the end of its heap. *)
Record own_heap (k : K) (cur : Z) (p : Process) (v : ProcessVm) (reg : Cr3RegValue) (e : Z) : Prop := {
  oh_running : running k = Some cur;
  oh_proc : lookup_proc k cur = Some p;
  oh_vm : proc_vm (inner p) = Some v;
  oh_table : ∃ n, arcs (kmem k) !! page_table v = Some (reg, n);
  oh_base : base (heap v) = HEAP_START;
  oh_end : ends (kmem k) !! end_ (heap v) = Some e;
  oh_wf : heap_wf mapping (addr reg) (tables (machine (kmem k))) e;
}.

(** The kernel with another machine and the heap's end at [e]. *)
Definition with_heap (v : ProcessVm) (e : Z) (t : Machine PT BootInfoFrameAllocator) (k : K) : K :=
  set_kmem (mkMem t (arcs (kmem k)) (<[end_ (heap v) := e]> (ends (kmem k))) (cr3 (kmem k))) k.

Lemma kernel_brk a (k : K) cur p v reg e r e' t :
  wf k → own_heap k cur p v reg e → (∀ off, PHYSICAL_OFFSET = Some off → 0 ≤ addr reg + off < 2 ^ 64) →
  is_Some PHYSICAL_OFFSET → (∀ x, a = Some x → canonical x) →
  HeapOps.brk (addr reg) HEAP_START a (e, machine (kmem k)) = Done (r, (e', t)) →
  brk PHYSICAL_OFFSET cpuid a k = Done (default u64_max r, with_heap v e' t k).
Proof.
  intros Hwf [Hr Hl Hv [n Ha] Hb He _] Hoff [off Ho] Hcan Hh. unfold brk.
  apply bind_Some in Hl as (loc & Hq & Hp).
  rewrite (bind_step _ _ _ _ _ (current_returns cpuid k cur loc Hr Hq)).
  rewrite (bind_step _ _ k p k) by (unfold read_proc; rewrite (bind_step _ _ _ _ _ eq_refl); by rewrite Hp).
  assert (Hi : Inner.brk PHYSICAL_OFFSET (inner p) a (kmem k) =
    Done (default u64_max r, mkMem t (arcs (kmem k)) (<[end_ (heap v) := e']> (ends (kmem k))) (cr3 (kmem k)))).
  { unfold Inner.brk, Inner.vm. rewrite Hv, (bind_step _ _ (kmem k) v (kmem k)) by done.
    rewrite (bind_step _ _ (kmem k) a (kmem k)); cycle 1.
    { destruct a as [x|]; [|done]. by rewrite VirtAddr_new_canonical by (by apply Hcan). }
    rewrite (bind_step _ _ _ r (mkMem t (arcs (kmem k)) (<[end_ (heap v) := e']> (ends (kmem k))) (cr3 (kmem k)))).
    { by destruct r. }
    unfold Vm.brk, PageTableContext.mapper, physical_to_virtual, Arc_deref. rewrite Ho.
    rewrite (bind_step _ _ (kmem k) (addr reg) (kmem k)); cycle 1.
    { rewrite (bind_step _ _ (kmem k) reg (kmem k)) by (rewrite (bind_step _ _ _ _ _ eq_refl); by rewrite Ha).
      rewrite (bind_step _ _ (kmem k) (addr reg + off) (kmem k)).
      - by rewrite (bind_step _ _ (kmem k) off (kmem k)).
      - rewrite (bind_step _ _ (kmem k) off (kmem k)) by done. apply word_op_exact. by apply Hoff. }
    unfold on_heap. rewrite (bind_step _ _ _ _ _ eq_refl), He, (bind_step _ _ (kmem k) e (kmem k)), Hb, Hh by done. done. }
  unfold on_mem, zoom. by rewrite Hi.
Qed.

Lemma with_heap_same v e (k : K) : ends (kmem k) !! end_ (heap v) = Some e → with_heap v e (machine (kmem k)) k = k.
Proof. intros He. unfold with_heap. rewrite insert_id by done. by destruct k as [[]]. Qed.

(** [sys_brk] from the program's side. *)
Lemma call_brk a ctx (s : St) cur p v reg e r e' t :
  wf s.1 → own_heap s.1 cur p v reg e → (∀ off, PHYSICAL_OFFSET = Some off → 0 ≤ addr reg + off < 2 ^ 64) →
  is_Some PHYSICAL_OFFSET → (∀ x, a = Some x → x ≠ 0 ∧ canonical x) →
  HeapOps.brk (addr reg) HEAP_START a (e, machine (kmem s.1)) = Done (r, (e', t)) →
  call (User.sys_brk a) ctx s = Done (default u64_max r, (with_heap v e' t s.1, s.2)).
Proof.
  intros Hwf Ho Hoff Hs Hcan Hh. pose proof (kernel_brk a s.1 cur p v reg e r e' t Hwf Ho Hoff Hs) as Hb.
  unfold call, User.sys_brk, Syscall.dispatcher. rewrite args1. cbv zeta. cbn [Syscall.syscall arg0 arg1 arg2].
  unfold Syscall.sys_brk. cbn [arg0].
  assert ((if default 0 a =? 0 then None else Some (default 0 a)) = a) as ->.
  { destruct a as [x|]; [|done]. simpl. destruct (Hcan x eq_refl) as [Hx _]. by rewrite (proj2 (Z.eqb_neq _ _) Hx). }
  erewrite bind_step; [|erewrite bind_step; [reflexivity|]].
  - done.
  - unfold on_kernel, zoom. rewrite Hb; [done| |done]. intros x Hx. by apply Hcan.
Qed.

Lemma brk_grows root e n (m : Machine PT BootInfoFrameAllocator) :
  heap_range e → heap_range n → e ≤ n →
  (∃ x, map_loop root (map_flags true) (pages_between (heap_top e) (heap_top n)) m = Done x) →
  ∃ r, HeapOps.brk root HEAP_START (Some n) (e, m) = Done r.
Proof.
  intros He Hn Hle [[x m'] Hl]. rewrite brk_eq by done. rewrite (bind_step _ _ (e, m) (n - e) (e, m)); cycle 1.
  { apply word_op_exact. unfold heap_range, HEAP_SIZE, HEAP_PAGES, PAGE_SIZE, HEAP_START in *. lia. }
  rewrite (bind_step _ _ (e, m) x (e, m')); [destruct x; by eexists|]. by rewrite on_machine_map, Hl.
Qed.

End Brk.
