(* ===== verification/UserPrint.v ===== *)
(** Printing from user programs: [Stdout] and [Stderr] of [pkg/lib/src/io.rs],
    [_print] and [_err] with the macros of [pkg/lib/src/lib.rs], and the panic
    handler of [pkg/lib/src/macros.rs], from the text of the program to the
    console of the kernel.

    [format!] fills a [String] whose bytes lie at an address that the allocator
    chose; here it is the argument [ptr], and the bytes are stored through the
    page table of the program. *)
From S2P Require Import Prelude Arch Pid Sync Frames Elf Stack Heap Vm Context Resource Data Process Manager Syscall.
From S2P Require Import Scheduler KernelExample RoundRobin Lifecycle Reachable SyscallFacts Text UserLib Effects Spaces Runtime.
From stdpp Require Import strings.
#[local] Open Scope Z_scope.

Section Print.
Context `{Profile} `{X86_64} {PT Q UA : Type} `{Mapper PT} `{ArrayQueue Q} `{UserAllocator UA}.
Context (PHYSICAL_OFFSET : option Z) (cpuid : nat) (selector : Z * Z) (clock_nanos : Z).
Context (Layout_of : list Z → Z * Z).
#[local] Abbreviation St := (Kernel PT Q * UA)%type.
#[local] Abbreviation dispatcher :=
  (dispatcher (PT := PT) (Q := Q) (UA := UA) PHYSICAL_OFFSET cpuid selector clock_nanos Layout_of).
#[local] Abbreviation call :=
  (Runtime.call (PT := PT) (Q := Q) (UA := UA) PHYSICAL_OFFSET cpuid selector clock_nanos Layout_of).

Section Program.
(** The registers of the program, and where its strings are put. *)
Context (ctx : ProcessContext) (ptr : Z).

Definition format (args : str) : M St () := write_slice PHYSICAL_OFFSET ptr (as_bytes args).

Definition Stdout_write (s : str) : M St () := _ ← call (User.sys_write 1 ptr (str_len s)) ctx; mret ().
Definition Stderr_write (s : str) : M St () := _ ← call (User.sys_write 2 ptr (str_len s)) ctx; mret ().

Definition _print (args : str) : M St () := format args;; Stdout_write args.
Definition _err (args : str) : M St () := format args;; Stderr_write args.
Definition println (args : str) : M St () := _print (args ++ [10]).
Definition errln (args : str) : M St () := _err (args ++ [10]).

Record location : Type := mkLocation { loc_file : str; loc_line : Z; loc_column : Z }.

Definition panic_text (loc : option location) (message : option str) : str :=
  [10; 10; 13] ++ chars "ERROR: panicked at " ++
  match loc with
  | Some l => loc_file l ++ chars "@" ++ show 10 (loc_line l) ++ chars ":" ++ show 10 (loc_column l)
  | None => chars "Unknown location"
  end ++
  [10; 10; 13] ++ default (chars "No more message...") message.

Definition panic (loc : option location) (message : option str) : M St ProcessContext :=
  errln (panic_text loc message);;
  dispatcher (enter (User.sys_exit 1) ctx).

End Program.

(** ** Storing a string *)

Lemma set_bytes_twice f g (k : Kernel PT Q) : set_bytes f (set_bytes g k) = set_bytes (λ m, f (g m)) k.
Proof. by destruct k as [[[]]]. Qed.
Lemma set_bytes_const (k : Kernel PT Q) : set_bytes (λ m, m) k = k.
Proof. by destruct k as [[[]]]. Qed.

Lemma write_slice_eq bytes ptr (pa : nat → Z) (k : Kernel PT Q) (ua : UA) :
  (∀ i, (i < length bytes)%nat → physical PHYSICAL_OFFSET k (ptr + Z.of_nat i) = Some (pa i)) →
  (∀ i j, (i < length bytes)%nat → (j < length bytes)%nat → pa i = pa j → i = j) →
  ∃ m, write_slice PHYSICAL_OFFSET ptr bytes (k, ua) = Done ((), (set_bytes (λ _, m) k, ua)) ∧
    (∀ i b, bytes !! i = Some b → m (pa i) = b) ∧
    ∀ x, (∀ i, (i < length bytes)%nat → x ≠ pa i) → m x = Elf.mem (machine (kmem k)) x.
Proof.
  revert ptr pa k. induction bytes as [|b bytes IH]; intros ptr pa k Hp Hd.
  { exists (Elf.mem (machine (kmem k))). split; [|done]. simpl. by destruct k as [[[]]]. }
  pose proof (Hp 0%nat ltac:(simpl; lia)) as H0'. rewrite Z.add_0_r in H0'.
  destruct (IH (ptr + 1) (λ i, pa (S i)) (set_bytes (write_bytes (pa 0%nat) b 1) k)) as (m & Hm & Hin & Hout).
  { intros i Hi. specialize (Hp (S i) ltac:(simpl; lia)). by replace (ptr + 1 + Z.of_nat i) with (ptr + Z.of_nat (S i)) by lia. }
  { intros i j Hi Hj E. assert (S i = S j); [|lia]. apply Hd; [simpl; lia|simpl; lia|done]. }
  exists m. split_and!.
  - cbn [write_slice]. rewrite (bind_step _ _ _ _ _ (write_byte_eq _ _ b k ua _ H0')), Hm.
    by rewrite set_bytes_twice.
  - intros [|i] b' Hb; [|by apply Hin]. injection Hb as <-. rewrite Hout.
    + simpl. unfold write_bytes. rewrite (proj2 (andb_true_iff _ _)) by lia. done.
    + intros i Hi E. assert (0%nat = S i); [|done]. apply Hd; [simpl; lia|simpl; lia|done].
  - intros x Hx. rewrite Hout by (intros i Hi; apply Hx; simpl; lia). simpl. unfold write_bytes.
    pose proof (Hx 0%nat ltac:(simpl; lia)). rewrite (proj2 (andb_false_iff _ _)) by lia. done.
Qed.

(** ** What reaches the console *)

(** The [n] bytes at [ptr] are mapped, to bytes [pa] of their own. *)
Definition room (k : Kernel PT Q) (ptr : Z) (n : nat) (pa : nat → Z) : Prop :=
  (∀ i, (i < n)%nat → physical PHYSICAL_OFFSET k (ptr + Z.of_nat i) = Some (pa i)) ∧
  (∀ i j, (i < n)%nat → (j < n)%nat → pa i = pa j → i = j).

(** The console has been given [o]; of the memory only what [room] describes changed. *)
Definition shown (o : Output) (n : nat) (pa : nat → Z) (k k' : Kernel PT Q) : Prop :=
  ∃ m, k' = set_io (mkIo (INPUT_BUF (io (data k))) (o :: output (io (data k)))) (set_bytes (λ _, m) k) ∧
    ∀ x, (∀ i, (i < n)%nat → x ≠ pa i) → m x = Elf.mem (machine (kmem k)) x.

Lemma write_text ctx ptr fd out args pa (k : Kernel PT Q) (ua : UA) :
  0 ≤ fd < 2 ^ 8 → str_len args < 2 ^ 63 → room k ptr (length (as_bytes args)) pa →
  (descriptor cpuid k fd = Some (Console Stdout) ∧ out = Print ∨
   descriptor cpuid k fd = Some (Console Stderr) ∧ out = Warn) →
  ∃ k', (format ptr args;; _ ← call (User.sys_write fd ptr (str_len args)) ctx; mret ()) (k, ua) = Done ((), (k', ua)) ∧
    shown (out (as_bytes args)) (length (as_bytes args)) pa k k'.
Proof.
  intros Hfd Hlen [Hp Hd] Hdesc. rewrite str_len_bytes in *. set (n := length (as_bytes args)) in *.
  destruct (write_slice_eq (as_bytes args) ptr pa k ua Hp Hd) as (m & Hm & Hin & Hout).
  set (k1 := set_bytes (λ _, m) k) in *. set (c := enter (User.sys_write fd ptr (Z.of_nat n)) ctx).
  assert (Hmapped : slice_mapped PHYSICAL_OFFSET k1 ptr (Z.of_nat n) = true).
  { unfold slice_mapped, addresses. apply forallb_forall. intros va Hva%list_elem_of_In.
    apply list_elem_of_fmap in Hva as (i & -> & Hi%elem_of_seqZ). apply bool_decide_eq_true.
    exists (pa (Z.to_nat i)). rewrite <- (Z2Nat.id i) at 1 by lia. apply Hp. lia. }
  assert (Hspec : ∀ res, descriptor cpuid k fd = Some res → res = Console Stdout ∧ out = Print ∨ res = Console Stderr ∧ out = Warn →
    dispatcher c (k1, ua) = Done (Context.set_rax (Z.of_nat n) c,
      (set_io (mkIo (INPUT_BUF (io (data k))) (out (as_bytes args) :: output (io (data k)))) k1, ua))).
  { intros res Hr Hres.
    destruct (sys_write_spec PHYSICAL_OFFSET cpuid selector clock_nanos Layout_of c k1 ua res) as (bytes & Hl & Hb & E).
    - done.
    - change (descriptor cpuid k (wrap 8 fd) = Some res). by rewrite wrap_small.
    - change (0 ≤ Z.of_nat n < 2 ^ 63). lia.
    - exact Hmapped.
    - change (third c) with (Z.of_nat n) in *. change (second c) with ptr in *.
      assert (bytes = as_bytes args) as ->.
      { apply list_eq_same_length with n; [done|lia|]. intros i x y Hi Hx Hy.
        destruct (Hb i ltac:(lia)) as (q & Hq & Hv). change (physical PHYSICAL_OFFSET k (ptr + Z.of_nat i) = Some q) in Hq.
        rewrite (Hp i) in Hq by done. injection Hq as <-. change (Elf.mem (machine (kmem k1))) with m in Hv.
        rewrite (Hin i y Hy) in Hv. congruence. }
      by destruct Hres as [[-> ->]|[-> ->]]. }
  eexists. split.
  - unfold format. rewrite (bind_step _ _ _ _ _ Hm). unfold Runtime.call. fold c.
    rewrite (bind_step _ _ (k1, ua) (Z.of_nat n)
      (set_io (mkIo (INPUT_BUF (io (data k))) (out (as_bytes args) :: output (io (data k)))) k1, ua)); [done|].
    destruct Hdesc as [[Hr ->]|[Hr ->]]; (rewrite (bind_step _ _ _ _ _ (Hspec _ Hr ltac:(auto))); done).
  - by exists m.
Qed.

(** [println!] of a program whose first descriptor is still open on the standard output: the
    kernel's console gets the text and a line feed, as UTF-8. *)
Lemma println_spec ctx ptr args pa (k : Kernel PT Q) (ua : UA) :
  let bytes := as_bytes (args ++ [10]) in
  descriptor cpuid k 1 = Some (Console Stdout) → str_len (args ++ [10]) < 2 ^ 63 → room k ptr (length bytes) pa →
  ∃ k', println ctx ptr args (k, ua) = Done ((), (k', ua)) ∧ shown (Print bytes) (length bytes) pa k k'.
Proof. intros bytes Hd Hl Hr. apply write_text; [lia|done|done|by left]. Qed.

(** The end of a program that panics: the message goes to the standard error,
    which the kernel prints as a warning, and the process exits with 1. *)
Theorem user_panic ctx ptr loc message pa (k : Kernel PT Q) (ua : UA) :
  let bytes := as_bytes (panic_text loc message ++ [10]) in
  descriptor cpuid k 2 = Some (Console Stderr) → str_len (panic_text loc message ++ [10]) < 2 ^ 63 →
  room k ptr (length bytes) pa →
  ∃ k', shown (Warn bytes) (length bytes) pa k k' ∧
    panic ctx ptr loc message (k, ua) =
      on_kernel (process_exit PHYSICAL_OFFSET cpuid 1 (enter (User.sys_exit 1) ctx)) (k', ua).
Proof.
  intros bytes Hd Hl Hr.
  destruct (write_text ctx ptr 2 Warn (panic_text loc message ++ [10]) pa k ua) as (k' & E & Hs);
    [lia|done|done|by right|].
  exists k'. split; [done|]. unfold panic, errln, _err, Stderr_write. rewrite (bind_step _ _ _ _ _ E).
  unfold User.sys_exit, Syscall.dispatcher. rewrite args1. done.
Qed.

(** ** The allocator of user programs: [pkg/lib/src/allocator/kernel.rs] *)

(** [alloc] and [dealloc] of [KernelAllocator], whose [&Layout] lies at [layout]
    on the program's stack. *)
Definition alloc (ctx : ProcessContext) (layout : Z) : M St Z := call (User.sys_allocate layout) ctx.
Definition dealloc (ctx : ProcessContext) (p layout : Z) : M St () :=
  _ ← call (User.sys_deallocate p layout) ctx; mret ().

(** The kernel reads the layout where the program has it and asks the heap for
    user programs; a null pointer is the answer when nothing is left. *)
Lemma kernel_allocator_spec ctx layout bytes size align (k : Kernel PT Q) (ua : UA) :
  layout ≠ 0 → read_slice PHYSICAL_OFFSET layout 16 (k, ua) = Done (bytes, (k, ua)) →
  Layout_of bytes = (size, align) → size ≠ 0 →
  alloc ctx layout (k, ua) =
    (let '(p, ua') := allocate_first_fit size align ua in Done (default 0 p, (k, ua'))) ∧
  ∀ p, p ≠ 0 → dealloc ctx p layout (k, ua) = Done ((), (k, ua_deallocate p size align ua)).
Proof.
  intros Hl Hb HL Hs. split.
  - unfold alloc, Runtime.call, User.sys_allocate, Syscall.dispatcher. rewrite args1. cbv zeta.
    cbn [Syscall.syscall arg0]. unfold sys_allocate. cbn [arg0]. rewrite (proj2 (Z.eqb_neq _ _) Hl).
    destruct (allocate_first_fit size align ua) as [p ua'] eqn:Ea.
    rewrite (bind_step _ _ (k, ua) (Context.set_rax (default 0 p) (enter (syscall1 Syscall.Allocate layout) ctx)) (k, ua')); [done|].
    apply answer. rewrite (bind_step _ _ _ _ _ Hb), HL, (proj2 (Z.eqb_neq _ _) Hs).
    rewrite (bind_step _ _ _ _ _ eq_refl). simpl. by rewrite Ea.
  - intros p Hp. unfold dealloc, Runtime.call, User.sys_deallocate, Syscall.dispatcher. rewrite args2. cbv zeta.
    cbn [Syscall.syscall arg0 arg1]. unfold sys_deallocate. cbn [arg0 arg1]. rewrite (proj2 (Z.eqb_neq _ _) Hl).
    set (m := mbind _ (read_slice _ _ _)).
    assert (E : m (k, ua) = Done ((), (k, ua_deallocate p size align ua))).
    { unfold m. rewrite (bind_step _ _ _ _ _ Hb), HL, (proj2 (Z.eqb_neq _ _) Hp), (proj2 (Z.eqb_neq _ _) Hs). done. }
    by rewrite (bind_step _ _ _ _ _ (bind_step _ _ _ _ _ (bind_step _ _ _ _ _ E))).
Qed.

End Print.

(** ** An example: process 1 of [kernel_example] panics *)

Section PrintWitnesses.
#[local] Existing Instance x86_ref.
#[local] Existing Instance release.
#[local] Existing Instance bump_allocator.

Definition panic_place : location := mkLocation (chars "main.rs") 7 13.

Lemma user_panic_witness :
  let text := [10; 10; 13] ++ chars "ERROR: panicked at main.rs@7:13" ++ [10; 10; 13] ++ chars "no" ++ [10] in
  ∃ k', shown (Warn text) 40 (λ i, 0x10a008 + Z.of_nat i) kernel_example k' ∧
    panic offset_example 0 (8, 16) 0 layout_example (regs_example 0) buffer_example (Some panic_place) (Some (chars "no")) (kernel_example, 0) =
      on_kernel (process_exit offset_example 0 1 (enter (User.sys_exit 1) (regs_example 0))) (k', 0).
Proof.
  apply (user_panic offset_example 0 (8, 16) 0 layout_example (regs_example 0) buffer_example (Some panic_place)
    (Some (chars "no")) (λ i, 0x10a008 + Z.of_nat i) kernel_example 0).
  - vm_compute. reflexivity.
  - vm_compute. reflexivity.
  - split; [|intros i j _ _; lia]. intros i Hi.
    assert (Hall : forallb (λ i, bool_decide (physical offset_example kernel_example (buffer_example + Z.of_nat i) =
      Some (0x10a008 + Z.of_nat i))) (seq 0 40) = true) by (vm_compute; reflexivity).
    rewrite forallb_forall in Hall. specialize (Hall i). rewrite bool_decide_eq_true in Hall. apply Hall, in_seq.
    replace (length _) with 40%nat in Hi by (vm_compute; reflexivity). lia.
Defined.

End PrintWitnesses.
