(* ===== verification/Hello.v ===== *)
(** The program [pkg/app/hello] on the kernel: its lines, and [huge_stack], an array
    of 32 KiB on a stack of which one page is mapped.  The program's first store
    below the stack faults, the kernel's page fault handler grows the stack down to
    it, and from there on the array is memory like any other. *)
From S2P Require Import Prelude Arch Pid Sync Frames Elf Stack Heap Vm Context Resource Data Process Manager Syscall.
From S2P Require Import ElfLoad Scheduler KernelExample RoundRobin Lifecycle Dispatch Reachable SyscallFacts Text Effects Spaces Exit Teardown UserLib Runtime UserPrint ForkApp.
From stdpp Require Import strings.
#[local] Open Scope Z_scope.

(** ** The program *)

Section Program.
Context `{Profile} `{X86_64} {PT Q UA : Type} `{Mapper PT} `{ArrayQueue Q} `{UserAllocator UA}.
Context (PHYSICAL_OFFSET : option Z) (cpuid : nat).
#[local] Abbreviation St := (Kernel PT Q * UA)%type.

(** The processor's page fault error codes of user accesses to pages that are not
    present: bit 2 for user mode, bit 1 for a write. *)
Definition USER_READ : Z := 4.
Definition USER_WRITE : Z := 6.

(** The processor looks up an address; when nothing is there, the handler runs
    and the instruction is started again. *)
Definition access (va err_code : Z) : M St Z :=
  s ← get;
  match physical PHYSICAL_OFFSET s.1 va with
  | Some pa => mret pa
  | None =>
      page_fault_handler PHYSICAL_OFFSET cpuid va err_code;;
      s ← get;
      unwrap (physical PHYSICAL_OFFSET s.1 va)
  end.

Definition load_word (va : Z) : M St Z :=
  pa ← access va USER_READ;
  s ← get;
  mret (get_word (Elf.mem (machine (kmem s.1))) pa).

Definition store_word (va v : Z) : M St () :=
  pa ← access va USER_WRITE;
  on_kernel (on_mem (on_machine (modify_mem (put_word pa v)))).

(** [for i in ..: stack[i] = f i] *)
Fixpoint fill (base : Z) (f : Z → Z) (is_ : list Z) : M St () :=
  match is_ with
  | [] => mret ()
  | i :: is_ => store_word (base + 8 * i) (f i);; fill base f is_
  end.

Section Main.
Context (selector : Z * Z) (clock_nanos : Z) (Layout_of : list Z → Z * Z).
(** How chrono prints a time given in seconds and nanoseconds. *)
Context (show_time : Z * Z → str).
(** The registers of the program; where the allocator puts the text that is being
    printed, and the compiler the array, which is filled with zeros first. *)
Context (ctx : ProcessContext) (buf base : Z).
#[local] Abbreviation println :=
  (println (PT := PT) (Q := Q) (UA := UA) PHYSICAL_OFFSET cpuid selector clock_nanos Layout_of ctx buf).

(** [{:#05x}] *)
Definition hex05 (n : Z) : str :=
  let ds := show 16 n in chars "0x" ++ replicate (3 - length ds) 48 ++ ds.

Definition line (i x : Z) : str := hex05 i ++ chars " == " ++ hex05 x.

(** [for i in ..: println!("{:#05x} == {:#05x}", i * 256, stack[i * 256])] *)
Fixpoint print_lines (is_ : list Z) : M St () :=
  match is_ with
  | [] => mret ()
  | i :: is_ => x ← load_word (base + 8 * (i * 256)); println (line (i * 256) x);; print_lines is_
  end.

Definition huge_stack : M St () :=
  println (chars "Huge stack testing...");;
  let len := 0x1000 in
  fill base (λ _, 0) (seqZ 0 len);;
  fill base (λ i, i) (seqZ 0 len);;
  print_lines (seqZ 0 (len / 256)).

Definition hello_main : M St Z :=
  println (chars "Hello, world!!!");;
  r ← call PHYSICAL_OFFSET cpuid selector clock_nanos Layout_of User.sys_time ctx;
  println (chars "Now at: " ++ show_time (User.time_of r));;
  huge_stack;;
  println (chars "Exiting...");;
  mret 233.

End Main.

End Program.

(** ** An array in memory *)

Section Array.
Context `{Profile} `{X86_64} {PT Q UA : Type} `{Mapper PT} `{ArrayQueue Q} `{UserAllocator UA}.
Context (PHYSICAL_OFFSET : option Z) (cpuid : nat).
#[local] Abbreviation St := (Kernel PT Q * UA)%type.
#[local] Abbreviation access := (access (PT := PT) (Q := Q) (UA := UA) PHYSICAL_OFFSET cpuid).
#[local] Abbreviation load_word := (load_word (PT := PT) (Q := Q) (UA := UA) PHYSICAL_OFFSET cpuid).
#[local] Abbreviation store_word := (store_word (PT := PT) (Q := Q) (UA := UA) PHYSICAL_OFFSET cpuid).
#[local] Abbreviation fill := (fill (PT := PT) (Q := Q) (UA := UA) PHYSICAL_OFFSET cpuid).

(** The machine after other memory contents. *)
Definition with_mem (f : Z → Z) (s : St) : St :=
  let m := kmem s.1 in
  (set_kmem (mkMem (mkMachine (tables (machine m)) (falloc (machine m)) f) (arcs m) (ends m) (cr3 m)) s.1, s.2).

(** The [n] words from [base] are mapped, to places [pa] that do not overlap. *)
Definition mapped_array (base n : Z) (pa : Z → Z) (s : St) : Prop :=
  (∀ i, 0 ≤ i < n → physical PHYSICAL_OFFSET s.1 (base + 8 * i) = Some (pa i)) ∧
  (∀ i j, 0 ≤ i < n → 0 ≤ j < n → i ≠ j → pa i + 8 ≤ pa j ∨ pa j + 8 ≤ pa i).

Lemma get_put_other pa pa' v m : pa + 8 ≤ pa' ∨ pa' + 8 ≤ pa → get_word (put_word pa v m) pa' = get_word m pa'.
Proof.
  intros Hd. unfold get_word, put_word. change (seqZ 0 8) with [0; 1; 2; 3; 4; 5; 6; 7]. cbn [foldr].
  repeat match goal with |- context [if ?b then _ else _] => replace b with false by lia end. done.
Qed.

Lemma access_mapped va err (s : St) pa : physical PHYSICAL_OFFSET s.1 va = Some pa → access va err s = Done (pa, s).
Proof. intros Hp. unfold Hello.access. by rewrite (bind_step _ _ _ _ _ eq_refl), Hp. Qed.

Lemma store_mapped va v (s : St) pa :
  physical PHYSICAL_OFFSET s.1 va = Some pa →
  store_word va v s = Done ((), with_mem (put_word pa v (Elf.mem (machine (kmem s.1)))) s).
Proof. intros Hp. unfold Hello.store_word. by rewrite (bind_step _ _ _ _ _ (access_mapped _ _ _ _ Hp)). Qed.

Lemma load_mapped va (s : St) pa :
  physical PHYSICAL_OFFSET s.1 va = Some pa → load_word va s = Done (get_word (Elf.mem (machine (kmem s.1))) pa, s).
Proof. intros Hp. unfold Hello.load_word. by rewrite (bind_step _ _ _ _ _ (access_mapped _ _ _ _ Hp)). Qed.

(** Filling a mapped array. *)
Lemma fill_mapped base n pa f is_ (s : St) :
  mapped_array base n pa s → NoDup is_ → (∀ i, i ∈ is_ → 0 ≤ i < n ∧ 0 ≤ f i < 2 ^ 64) →
  ∃ m, fill base f is_ s = Done ((), with_mem m s) ∧
    ∀ j, 0 ≤ j < n → get_word m (pa j) = if decide (j ∈ is_) then f j else get_word (Elf.mem (machine (kmem s.1))) (pa j).
Proof.
  intros [Hp Hd] Hnd. revert s Hp. induction Hnd as [|i is_ Hi Hnd IH]; intros s Hp Hin.
  { exists (Elf.mem (machine (kmem s.1))). split; [by destruct s as [[[[]]]]|]. intros j _. by rewrite decide_False by set_solver. }
  destruct (Hin i ltac:(set_solver)) as [Hi0 Hv]. cbn [Hello.fill].
  set (s1 := with_mem (put_word (pa i) (f i) (Elf.mem (machine (kmem s.1)))) s).
  rewrite (bind_step _ _ s () s1) by (by apply store_mapped, Hp).
  destruct (IH s1) as (m & Hm & Hg); [intros j Hj; by apply (Hp j)|intros j Hj; apply Hin; set_solver|].
  exists m. split; [exact Hm|]. intros j Hj. rewrite Hg by done. change (Elf.mem (machine (kmem s1.1))) with
    (put_word (pa i) (f i) (Elf.mem (machine (kmem s.1)))).
  destruct (decide (j = i)) as [->|Hne].
  - rewrite decide_False, decide_True by (done || set_solver). by apply get_put_word.
  - rewrite (decide_ext (j ∈ i :: is_) (j ∈ is_)) by set_solver. case_decide; [done|].
    apply get_put_other. specialize (Hd i j Hi0 Hj ltac:(done)). lia.
Qed.

End Array.

(** ** The fault *)

Section Fault.
Context `{Profile} `{!X86_64} `{!X86_64_Laws _} {PT Q UA : Type} `{!Mapper PT} `{!ArrayQueue Q} `{!UserAllocator UA}.
Context (mapping : PT → Z → Z → option (Z * Z)) `{!Mapper_Laws PT mapping}.
Context (PHYSICAL_OFFSET : option Z) (cpuid : nat).
#[local] Abbreviation K := (Kernel PT Q).
#[local] Abbreviation St := (Kernel PT Q * UA)%type.
#[local] Abbreviation wf := (wf cpuid).
#[local] Abbreviation running := (running cpuid).
#[local] Abbreviation access := (access (PT := PT) (Q := Q) (UA := UA) PHYSICAL_OFFSET cpuid).

(** The kernel's handler is the one of the running process's stack. *)
Lemma page_fault_effect va (k : K) cur v reg n b k' :
  running k = Some cur → vm_of k cur = Some v → arcs (kmem k) !! page_table v = Some (reg, n) →
  handle_page_fault PHYSICAL_OFFSET cpuid va USER_WRITE k = Done (b, k') →
  ∃ st t, StackOps.handle_page_fault (addr reg) (Some cur) (stack v) va (machine (kmem k)) = Done ((b, st), t) ∧
    kmem k' = mkMem t (arcs (kmem k)) (ends (kmem k)) (cr3 (kmem k)) ∧
    vm_of k' cur = Some (mkVm (page_table v) st (heap v) (code v) (code_usage v)) ∧
    data k' = data k ∧ running k' = running k ∧ ∀ fd, descriptor cpuid k' fd = descriptor cpuid k fd.
Proof.
  intros Hr Hvm Ha Hs. unfold handle_page_fault, manager_handle_page_fault in Hs.
  change (negb _) with true in Hs. cbv iota in Hs.
  apply bind_Done in Hs as (loc & k1 & Hc & Hs). apply current_Done in Hc as (-> & q & Hr' & Hq).
  assert (q = cur) as -> by congruence.
  apply bind_Done in Hs as (p & k1 & Hp & Hs). apply read_proc_Done in Hp as [-> Hp].
  apply bind_Done in Hs as (c & k1 & Hg & Hs). apply gets_Done in Hg as [<- <-].
  change (PROCESSORS k !! cpuid ≫= Processor.get_pid) with (running k) in Hs. rewrite Hr in Hs.
  apply bind_Done in Hs as ([b' i] & k1 & Hf & Hs). apply on_mem_eq in Hf as (_ & t & Hf & ->).
  apply bind_Done in Hs as (u & k1 & Hw & Hs). unfold write_proc in Hw. apply modify_Done in Hw as <-.
  apply ret_Done in Hs as [<- <-]. unfold Inner.handle_page_fault in Hf.
  apply bind_Done in Hf as (v0 & m1 & Hv & Hf). apply unwrap_Done in Hv as [Hv <-].
  unfold vm_of in Hvm. rewrite Hq in Hvm. simpl in Hvm. rewrite lookup_vm_map, Hp in Hvm. simpl in Hvm.
  assert (v0 = v) as -> by congruence.
  apply bind_Done in Hf as ([b0 v'] & m2 & Hf & Hi). apply ret_Done in Hi as [Hi <-]. injection Hi as <- <-.
  unfold Vm.handle_page_fault in Hf. apply bind_Done in Hf as (root & m3 & Hm & Hf).
  apply mapper_Done in Hm as (-> & w & n' & Hw & ->). rewrite Ha in Hw. injection Hw as <- <-.
  apply bind_Done in Hf as ([b1 st] & m3 & Hh & Hf). apply on_machine_Done in Hh as (t1 & Hh & ->).
  apply ret_Done in Hf as [Hf <-]. injection Hf as <- <-. exists st, t1. split_and!; [exact Hh|done| |done|done|].
  - unfold vm_of. simpl. rewrite Hq. simpl. unfold vm_map. simpl. rewrite vm_map_insert. simpl. by rewrite lookup_insert_eq.
  - intros fd. unfold descriptor. change (Scheduler.running cpuid (set_procs _ _)) with (running k).
    destruct (running k) as [q|]; [|done]. cbn [mbind option_bind]. unfold lookup_proc. simpl.
    destruct (Process.processes k !! q) as [l|]; [|done]. cbn [mbind option_bind].
    destruct (decide (l = loc)) as [->|Hne]; [by rewrite lookup_insert_eq, Hp|by rewrite lookup_insert_ne].
Qed.

(** The page table of a process is counted. *)
Lemma spaces_table (k : K) cur v :
  spaces cpuid k → vm_of k cur = Some v → ∃ reg n, arcs (kmem k) !! page_table v = Some (reg, n).
Proof. intros Hsp (loc & Hq & Hv)%bind_Some. by eapply spaces_arc. Qed.

(** Mapping new pages keeps the old ones. *)
Lemma mapped_exactly_kept r fl ps fs pt pt' q x :
  mapped_exactly mapping r fl ps fs pt pt' → mapping pt r q = Some x → mapping pt' r q = Some x.
Proof.
  intros (Hl & Hn & Ho) Hx. destruct (decide (q ∈ ps)) as [Hin|Hni]; [|by rewrite Ho].
  apply list_elem_of_lookup in Hin as [i Hi].
  destruct (lookup_lt_is_Some_2 fs i) as [f Hf]; [rewrite Hl; by eapply lookup_lt_Some|].
  destruct (Hn i q f Hi Hf) as [Hno _]. congruence.
Qed.

(** What holds once the first store is done: the stack reaches down to it, and
    everything of it is mapped. *)
Lemma access_grows base (s : St) cur v pa s1 :
  spaces cpuid s.1 → wf s.1 → running s.1 = Some cur → vm_of s.1 cur = Some v → cur ≠ KERNEL_PID →
  stack_wf (stack v) → 0 ≤ base < range_end (stack v) →
  (∀ p, p ∈ stack_pages (stack v) → is_Some (mapping (tables (machine (kmem s.1))) (addr (cr3 (kmem s.1))) p)) →
  (base < range_start (stack v) → physical PHYSICAL_OFFSET s.1 base = None) →
  is_Some PHYSICAL_OFFSET → access base USER_WRITE s = Done (pa, s1) →
  access base USER_WRITE s1 = Done (pa, s1) ∧ cr3 (kmem s1.1) = cr3 (kmem s.1) ∧
  s1.2 = s.2 ∧ data s1.1 = data s.1 ∧ running s1.1 = running s.1 ∧
  (∀ fd, descriptor cpuid s1.1 fd = descriptor cpuid s.1 fd) ∧
  (∀ q x, mapping (tables (machine (kmem s.1))) (addr (cr3 (kmem s.1))) q = Some x →
    mapping (tables (machine (kmem s1.1))) (addr (cr3 (kmem s1.1))) q = Some x) ∧
  ∃ v', vm_of s1.1 cur = Some v' ∧ stack_wf (stack v') ∧ range_end (stack v') = range_end (stack v) ∧
    range_start (stack v') = Z.min (base - base `mod` PAGE) (range_start (stack v)) ∧
    ∀ p, p ∈ stack_pages (stack v') → is_Some (mapping (tables (machine (kmem s1.1))) (addr (cr3 (kmem s1.1))) p).
Proof.
  intros [Hpool Hld] Hwf Hr Hvm Hpid Hst Hb Hmap Hfree [off Hoff] Hacc. pose proof Hst as (Hal & Hae & Hb0 & He & Hu).
  destruct (page_base_bounds base ltac:(lia)) as [Hpa Hpb].
  assert (Hphys : ∀ (k : K) x, mapping (tables (machine (kmem k))) (addr (cr3 (kmem k))) (base - base `mod` PAGE) = Some x →
    physical PHYSICAL_OFFSET k base = Some (x.1 + off + base `mod` PAGE)).
  { intros k x Hx. unfold physical. rewrite Hoff, translate_page_eq, Page_containing_address_eq by (left; unfold PAGE in *; lia).
    by rewrite Hx. }
  assert (Hin : range_start (stack v) ≤ base → base - base `mod` PAGE ∈ stack_pages (stack v)).
  { intros Hle. apply elem_of_pages_between; [done..|]. split; [done|]. unfold aligned, PAGE in *. Z.div_mod_to_equations. lia. }
  unfold Hello.access in Hacc. rewrite (bind_step _ _ _ _ _ eq_refl) in Hacc.
  destruct (physical PHYSICAL_OFFSET s.1 base) as [pa'|] eqn:E.
  { apply ret_Done in Hacc as [<- <-]. split; [by apply access_mapped|]. split_and!; [done..|].
    exists v. split_and!; try done. rewrite Z.min_r; [done|].
    destruct (decide (range_start (stack v) ≤ base)) as [Hle|Hlt]; [|discriminate (Hfree ltac:(lia))].
    unfold aligned, PAGE in *. Z.div_mod_to_equations. lia. }
  destruct (decide (range_start (stack v) ≤ base)) as [Hle|Hlt].
  { destruct (Hmap _ (Hin Hle)) as [x Hx]. by rewrite (Hphys _ _ Hx) in E. }
  apply bind_Done in Hacc as (u & s2 & Hf & Hacc). unfold page_fault_handler in Hf.
  apply bind_Done in Hf as (ok & s3 & Hf & Hok). destruct ok; [|done]. apply ret_Done in Hok as [_ ->].
  apply bind_Done in Hacc as (s4 & s5 & [<- <-]%get_Done & Hacc). apply unwrap_Done in Hacc as [Hacc <-].
  unfold on_kernel in Hf. apply zoom_Done in Hf as (k' & Hf & ->). simpl in Hacc |- *.
  pose proof Hvm as (loc & Hq & Hv)%bind_Some.
  destruct (spaces_table s.1 cur v ltac:(by split) Hvm) as (reg & n & Ha).
  pose proof (Hld _ _ _ _ _ Hr Hq Hv Ha) as Hcr.
  destruct (page_fault_effect base s.1 cur v reg n true k' Hr Hvm Ha Hf) as (st & t & Hh & Hk & Hvm' & Hdt & Hrn & Hds).
  apply (handle_page_fault_Done mapping) in Hh as [Hm Hh]; [|done|done|lia|left; lia].
  destruct (StackOps.is_on_stack (stack v) base); [|by destruct Hh].
  destruct Hh as (Hrs & Hre & Hst' & fs & Hfs).
  assert (Hc' : cr3 (kmem k') = cr3 (kmem s.1)) by (by rewrite Hk).
  split; [by apply access_mapped|]. split_and!; [done|done|exact Hdt|exact Hrn|exact Hds| |].
  { intros q x Hx. rewrite Hc', Hk. simpl. rewrite Hcr in Hx |- *. by eapply mapped_exactly_kept. }
  eexists. split; [exact Hvm'|]. split; [exact Hst'|]. split; [exact Hre|].
  split; [simpl; rewrite Hrs, Z.min_l; [done|lia]|].
  intros p Hp. rewrite Hc', Hk. simpl. rewrite Hcr in Hmap |- *. simpl in Hp.
  destruct (decide (p ∈ pages_between (range_start st) (range_start (stack v)))) as [Hin'|Hni].
  - apply mapped_exactly_to in Hfs. apply list_elem_of_lookup in Hin' as [i Hi].
    destruct (Forall2_lookup_l _ _ _ _ _ Hfs Hi) as (f & _ & fl & ->). done.
  - destruct Hfs as (_ & _ & ->); [|done]. apply Hmap. destruct Hst' as (Hals & Haes & _).
    unfold stack_pages in *. rewrite Hre in Hp. apply elem_of_pages_between in Hp as [Hpal Hp]; [|congruence..].
    apply elem_of_pages_between; [done..|]. split; [done|]. rewrite elem_of_pages_between in Hni by done.
    destruct (decide (p < range_start (stack v))); [destruct Hni; split; [done|lia]|lia].
Qed.

(** Words of mapped pages do not overlap. *)
Lemma array_mapped base n (s : St) lo hi off :
  PHYSICAL_OFFSET = Some off → aligned lo → aligned hi → 0 ≤ lo → hi < 2 ^ 47 → base `mod` 8 = 0 → lo ≤ base → base + 8 * n ≤ hi →
  (∀ p, p ∈ pages_between lo hi → is_Some (mapping (tables (machine (kmem s.1))) (addr (cr3 (kmem s.1))) p)) →
  Elf.no_alias mapping (addr (cr3 (kmem s.1))) (tables (machine (kmem s.1))) →
  mapped_array PHYSICAL_OFFSET base n (λ i, default 0 (physical PHYSICAL_OFFSET s.1 (base + 8 * i))) s.
Proof.
  intros Hoff Hlo Hhi Hlo0 H47 Hb8 Hbl Hbh Hmap Hna.
  assert (Hp : ∀ i, 0 ≤ i < n → let va := base + 8 * i in ∃ x,
    mapping (tables (machine (kmem s.1))) (addr (cr3 (kmem s.1))) (va - va `mod` PAGE) = Some x ∧
    physical PHYSICAL_OFFSET s.1 va = Some (x.1 + off + va `mod` PAGE)).
  { intros i Hi va. destruct (page_base_bounds va ltac:(unfold va; lia)) as [Hpa Hpb].
    destruct (Hmap (va - va `mod` PAGE)) as [x Hx].
    { apply elem_of_pages_between; [done..|]. split; [done|]. unfold va, aligned, PAGE in *. Z.div_mod_to_equations. lia. }
    exists x. split; [done|]. unfold physical. rewrite Hoff, translate_page_eq, Page_containing_address_eq by (left; unfold va in *; lia).
    by rewrite Hx. }
  split.
  - intros i Hi. destruct (Hp i Hi) as (x & _ & ->). done.
  - intros i j Hi Hj Hne. destruct (Hp i Hi) as (x & Hx & ->), (Hp j Hj) as (y & Hy & ->). simpl.
    destruct (Hna _ _ _ _ Hx Hy) as [Hxa Hxy]. destruct (Hna _ _ _ _ Hy Hx) as [Hya _].
    destruct (decide (x.1 = y.1)) as [Heq|Hxne].
    + specialize (Hxy Heq). rewrite Heq. unfold PAGE in *. Z.div_mod_to_equations. lia.
    + unfold aligned, PAGE in *. Z.div_mod_to_equations. lia.
Qed.

(** The first access makes the difference. *)
Lemma fill_access base f is_ (s s1 : St) pa :
  access base USER_WRITE s = Done (pa, s1) → access base USER_WRITE s1 = Done (pa, s1) →
  fill PHYSICAL_OFFSET cpuid base f (0 :: is_) s = fill PHYSICAL_OFFSET cpuid base f (0 :: is_) s1.
Proof.
  intros Ha Ha1. cbn [Hello.fill]. replace (base + 8 * 0) with base by lia.
  unfold mbind, M_bind, store_word, mbind, M_bind. by rewrite Ha, Ha1.
Qed.

End Fault.

(** ** Printing beside the array *)

Section Run.
Context `{Profile} `{!X86_64} `{!X86_64_Laws _} {PT Q UA : Type} `{!Mapper PT} `{!ArrayQueue Q} `{!UserAllocator UA}.
Context (mapping : PT → Z → Z → option (Z * Z)) `{!Mapper_Laws PT mapping}.
Context (PHYSICAL_OFFSET : option Z) (cpuid : nat) (selector : Z * Z) (clock_nanos : Z) (Layout_of : list Z → Z * Z).
Context (show_time : Z * Z → str) (ctx : ProcessContext) (buf base : Z).
#[local] Abbreviation K := (Kernel PT Q).
#[local] Abbreviation St := (Kernel PT Q * UA)%type.
#[local] Abbreviation access := (access (PT := PT) (Q := Q) (UA := UA) PHYSICAL_OFFSET cpuid).
#[local] Abbreviation println :=
  (println (PT := PT) (Q := Q) (UA := UA) PHYSICAL_OFFSET cpuid selector clock_nanos Layout_of ctx buf).
#[local] Abbreviation print_lines :=
  (print_lines (PT := PT) (Q := Q) (UA := UA) PHYSICAL_OFFSET cpuid selector clock_nanos Layout_of ctx buf base).
#[local] Abbreviation huge_stack :=
  (huge_stack (PT := PT) (Q := Q) (UA := UA) PHYSICAL_OFFSET cpuid selector clock_nanos Layout_of ctx buf base).
#[local] Abbreviation hello_main :=
  (hello_main (PT := PT) (Q := Q) (UA := UA) PHYSICAL_OFFSET cpuid selector clock_nanos Layout_of show_time ctx buf base).

(** What the console is given for a line. *)
Definition said (text : str) : Output := Print (as_bytes (text ++ [10])).

Definition bytes_said (text : str) : nat := length (as_bytes (text ++ [10])).

(** Between two states only output was added and memory written. *)
Definition after (outs : list Output) (s s' : St) : Prop :=
  ∃ m, s' = (set_io (mkIo (INPUT_BUF (io (data s.1))) (outs ++ output (io (data s.1)))) (set_bytes (λ _, m) s.1), s.2).

Lemma after_refl s : after [] s s.
Proof. exists (Elf.mem (machine (kmem s.1))). by destruct s as [[[[]] [? ? ? []]] ]. Qed.
Lemma after_mem m s : after [] s (with_mem m s).
Proof. exists m. by destruct s as [[[[]] [? ? ? []]] ]. Qed.
Lemma after_trans o1 o2 s1 s2 s3 : after o1 s1 s2 → after o2 s2 s3 → after (o2 ++ o1) s1 s3.
Proof. intros [m1 ->] [m2 ->]. exists m2. simpl. by rewrite <- (assoc_L (++)). Qed.
Lemma after_physical o s s' va : after o s s' → physical PHYSICAL_OFFSET s'.1 va = physical PHYSICAL_OFFSET s.1 va.
Proof. by intros [m ->]. Qed.
Lemma after_descriptor o s s' fd : after o s s' → descriptor cpuid s'.1 fd = descriptor cpuid s.1 fd.
Proof. by intros [m ->]. Qed.
Lemma after_silent o s s' : after o s s' → silent PHYSICAL_OFFSET cpuid (λ _ _, True) s.1 s'.1.
Proof.
  intros [m ->]. eexists (mkMem (mkMachine (tables (machine (kmem s.1))) (falloc (machine (kmem s.1))) m) (arcs (kmem s.1))
    (ends (kmem s.1)) (cr3 (kmem s.1))), _. split; [done|]. by apply rtc_once, mem_contents.
Qed.

Lemma room_mono (k : K) n n' pa : (n' ≤ n)%nat → room PHYSICAL_OFFSET k buf n pa → room PHYSICAL_OFFSET k buf n' pa.
Proof. intros Hn [Hp Hd]. split; [intros; apply Hp; lia|intros; apply Hd; [lia|lia|done]]. Qed.

(** One line. *)
Lemma println_says (text : str) n pa (s : St) :
  room PHYSICAL_OFFSET s.1 buf n pa → (bytes_said text ≤ n)%nat → Z.of_nat n < 2 ^ 63 →
  descriptor cpuid s.1 1 = Some (Console Stdout) →
  ∃ s', println text s = Done ((), s') ∧ after [said text] s s' ∧
    ∀ x, (∀ i, (i < n)%nat → x ≠ pa i) → Elf.mem (machine (kmem s'.1)) x = Elf.mem (machine (kmem s.1)) x.
Proof.
  intros Hr Hl Hn Hd. destruct s as [k ua].
  destruct (println_spec PHYSICAL_OFFSET cpuid selector clock_nanos Layout_of ctx buf text pa k ua Hd) as (k' & E & m & -> & Hm).
  - rewrite str_len_bytes. unfold bytes_said in Hl. lia.
  - by eapply room_mono.
  - eexists. split; [exact E|]. split; [by exists m|]. intros x Hx. apply Hm. intros i Hi. apply Hx. unfold bytes_said in Hl. lia.
Qed.

Lemma get_word_ext m m' pa : (∀ b, 0 ≤ b < 8 → m (pa + b) = m' (pa + b)) → get_word m pa = get_word m' pa.
Proof.
  intros Hb. unfold get_word. assert (Hin : ∀ b, b ∈ seqZ 0 8 → m (pa + b) = m' (pa + b)).
  { intros b Hb'%elem_of_seqZ. apply Hb. lia. }
  induction (seqZ 0 8) as [|b l IH]; [done|]. simpl. rewrite IH, (Hin b) by set_solver. done.
Qed.

(** The lines of the array. *)
Definition array_line (i : Z) : str := line (i * 256) (i * 256).

Lemma print_lines_says n pa pw is_ (s : St) :
  room PHYSICAL_OFFSET s.1 buf n pa → Z.of_nat n < 2 ^ 63 → descriptor cpuid s.1 1 = Some (Console Stdout) →
  mapped_array PHYSICAL_OFFSET base 0x1000 pw s →
  (∀ j i b, 0 ≤ j < 0x1000 → (i < n)%nat → 0 ≤ b < 8 → pw j + b ≠ pa i) →
  (∀ j, 0 ≤ j < 0x1000 → get_word (Elf.mem (machine (kmem s.1))) (pw j) = j) →
  (∀ i, i ∈ is_ → 0 ≤ i * 256 < 0x1000 ∧ (bytes_said (array_line i) ≤ n)%nat) →
  ∃ s', print_lines is_ s = Done ((), s') ∧ after (reverse (said ∘ array_line <$> is_)) s s'.
Proof.
  intros Hr Hn Hd Ha Hap. revert s Hr Hd Ha. induction is_ as [|i is_ IH]; intros s Hr Hd Ha Hw Hin.
  { exists s. split; [done|apply after_refl]. }
  destruct (Hin i ltac:(set_solver)) as [Hi Hl]. pose proof Ha as [Hp Ho]. cbn [Hello.print_lines].
  rewrite (bind_step _ _ s _ s (load_mapped _ _ _ _ _ (Hp _ Hi))), Hw by done.
  destruct (println_says (array_line i) n pa s Hr Hl Hn Hd) as (s1 & E1 & A1 & M1).
  destruct (IH s1) as (s' & E & A).
  - destruct Hr as [Hr1 Hr2]. split; [|done]. intros j Hj. rewrite (after_physical _ _ _ _ A1). by apply Hr1.
  - by rewrite (after_descriptor _ _ _ _ A1).
  - split; [|done]. intros j Hj. rewrite (after_physical _ _ _ _ A1). by apply Hp.
  - intros j Hj. rewrite <- (Hw j Hj) at 2. apply get_word_ext. intros b Hb. apply M1. intros x Hx. by apply Hap.
  - intros j Hj. apply Hin. set_solver.
  - exists s'. split.
    + by rewrite (bind_step _ _ _ _ _ E1).
    + rewrite fmap_cons, reverse_cons. by eapply after_trans.
Qed.

(** ** Where things lie *)

#[local] Abbreviation root k := (addr (cr3 (kmem k))).
#[local] Abbreviation pages k := (tables (machine (kmem k))).

Lemma physical_page off (k : K) va pa :
  PHYSICAL_OFFSET = Some off → 0 ≤ va < 2 ^ 47 →
  physical PHYSICAL_OFFSET k va = Some pa ↔
  ∃ x, mapping (pages k) (root k) (va - va `mod` PAGE) = Some x ∧ pa = x.1 + off + va `mod` PAGE.
Proof.
  intros Hoff Hva. unfold physical. rewrite Hoff, translate_page_eq, Page_containing_address_eq by (left; lia).
  destruct (mapping _ _ _) as [x|]; simpl; [|by split; [|intros (? & ? & ?)]].
  split; [intros [= <-]; eauto|by intros (? & [= <-] & ->)].
Qed.

Lemma bytes_apart r pt x y va vb :
  Elf.no_alias mapping r pt → mapping pt r (va - va `mod` PAGE) = Some x → mapping pt r (vb - vb `mod` PAGE) = Some y →
  x.1 + va `mod` PAGE = y.1 + vb `mod` PAGE → va = vb.
Proof.
  intros Hna Hx Hy E. destruct (Hna _ _ _ _ Hx Hy) as [Hxa Hxy]. destruct (Hna _ _ _ _ Hy Hx) as [Hya _].
  assert (x.1 = y.1) as Heq by (unfold aligned, PAGE in *; Z.div_mod_to_equations; lia).
  specialize (Hxy Heq). unfold PAGE in *. Z.div_mod_to_equations. lia.
Qed.

Section Layout.
(** The page table of [k], and one that has kept all of its pages. *)
Context (off : Z) (Hoff : PHYSICAL_OFFSET = Some off) (k : K) (pt : PT).
Context (Hkept : ∀ q x, mapping (pages k) (root k) q = Some x → mapping pt (root k) q = Some x).
Context (Hna : Elf.no_alias mapping (root k) pt).
Context (n : nat) (Hbuf : 0 ≤ buf) (Hend : buf + Z.of_nat n ≤ 2 ^ 47).
Context (Hmapped : ∀ i, (i < n)%nat → is_Some (physical PHYSICAL_OFFSET k (buf + Z.of_nat i))).

Definition buf_at (i : nat) : Z := default 0 (physical PHYSICAL_OFFSET k (buf + Z.of_nat i)).

Lemma buf_at_page i : (i < n)%nat → let va := buf + Z.of_nat i in ∃ x,
  mapping (pages k) (root k) (va - va `mod` PAGE) = Some x ∧ physical PHYSICAL_OFFSET k va = Some (buf_at i) ∧
  buf_at i = x.1 + off + va `mod` PAGE.
Proof.
  intros Hi va. destruct (Hmapped i Hi) as [pa Hpa]. unfold buf_at. fold va in Hpa |- *. rewrite Hpa.
  apply (physical_page off) in Hpa as (x & Hx & ->); [eauto|done|unfold va; lia].
Qed.

Lemma buffer_room : room PHYSICAL_OFFSET k buf n buf_at.
Proof.
  split.
  - intros i Hi. by destruct (buf_at_page i Hi) as (x & _ & ? & _).
  - intros i j Hi Hj E. destruct (buf_at_page i Hi) as (x & Hx & _ & Ex), (buf_at_page j Hj) as (y & Hy & _ & Ey).
    assert (buf + Z.of_nat i = buf + Z.of_nat j); [|lia].
    apply (bytes_apart (root k) pt x y); [done|by apply Hkept..|lia].
Qed.

(** The words of an array below the buffer are somewhere else. *)
Lemma array_apart pw (s : St) (hi : Z) :
  tables (machine (kmem s.1)) = pt → root s.1 = root k → hi ≤ buf → base `mod` 8 = 0 → 0 ≤ base → base + 0x8000 ≤ hi →
  mapped_array PHYSICAL_OFFSET base 0x1000 pw s →
  ∀ j i b, 0 ≤ j < 0x1000 → (i < n)%nat → 0 ≤ b < 8 → pw j + b ≠ buf_at i.
Proof.
  intros Hpt Hroot Hhi Hb8 Hb0 Hbe [Hp _] j i b Hj Hi Hb E. set (va := base + 8 * j).
  destruct (buf_at_page i Hi) as (y & Hy & _ & Ey).
  pose proof (Hp j Hj) as Hpw. fold va in Hpw. apply (physical_page off) in Hpw as (x & Hx & Ex); [|done|unfold va; lia].
  rewrite Hpt, Hroot in Hx.
  assert (Hvb : (va + b) `mod` PAGE = va `mod` PAGE + b) by (unfold va, PAGE in *; Z.div_mod_to_equations; lia).
  assert (va + b = buf + Z.of_nat i); [|unfold va in *; lia].
  apply (bytes_apart (root k) pt x y); [done| |by apply Hkept|lia].
  rewrite <- Hx. f_equal. lia.
Qed.

End Layout.

(** ** All of the program *)

Definition hello_text : list str :=
  [chars "Hello, world!!!"; chars "Now at: " ++ show_time (User.time_of (as_usize clock_nanos)); chars "Huge stack testing..."] ++
  (array_line <$> seqZ 0 16) ++ [chars "Exiting..."].

Lemma call_time (s : St) :
  call PHYSICAL_OFFSET cpuid selector clock_nanos Layout_of User.sys_time ctx s = Done (as_usize clock_nanos, s).
Proof.
  unfold call, User.sys_time, Syscall.dispatcher. rewrite args0. cbv zeta. cbn [Syscall.syscall].
  by rewrite (bind_step _ _ s _ s eq_refl).
Qed.

(** The part between the first access to the array and the last line. *)
Lemma array_says n pa0 lo hi off (s s1 : St) pa :
  access base USER_WRITE s = Done (pa, s1) → access base USER_WRITE s1 = Done (pa, s1) →
  PHYSICAL_OFFSET = Some off → aligned lo → aligned hi → 0 ≤ lo → hi < 2 ^ 47 → base `mod` 8 = 0 → lo ≤ base → base + 0x8000 ≤ hi →
  (∀ p, p ∈ pages_between lo hi → is_Some (mapping (pages s1.1) (root s1.1) p)) →
  Elf.no_alias mapping (root s1.1) (pages s1.1) →
  room PHYSICAL_OFFSET s1.1 buf n pa0 → Z.of_nat n < 2 ^ 63 → descriptor cpuid s1.1 1 = Some (Console Stdout) →
  (∀ pw, mapped_array PHYSICAL_OFFSET base 0x1000 pw s1 →
    ∀ j i b, 0 ≤ j < 0x1000 → (i < n)%nat → 0 ≤ b < 8 → pw j + b ≠ pa0 i) →
  (∀ i, i ∈ seqZ 0 16 → (bytes_said (array_line i) ≤ n)%nat) →
  ∃ s', (fill PHYSICAL_OFFSET cpuid base (λ _, 0) (seqZ 0 0x1000);;
         fill PHYSICAL_OFFSET cpuid base (λ i, i) (seqZ 0 0x1000);; print_lines (seqZ 0 (0x1000 / 256))) s = Done ((), s') ∧
    after (reverse (said ∘ array_line <$> seqZ 0 16)) s1 s'.
Proof.
  intros Ha Ha1 Hoff Hal Hae Hlo Hhi Hb8 Hbl Hbe Hmap Hna Hr Hn Hd Hap Hlen.
  pose proof (array_mapped mapping PHYSICAL_OFFSET base 0x1000 s1 lo hi off Hoff Hal Hae Hlo Hhi Hb8 Hbl ltac:(lia) Hmap Hna) as Harr.
  set (pw := λ i, default 0 (physical PHYSICAL_OFFSET s1.1 (base + 8 * i))) in Harr.
  assert (Hin : ∀ f : Z → Z, (∀ i, 0 ≤ i < 0x1000 → 0 ≤ f i < 2 ^ 64) → ∀ i, i ∈ seqZ 0 0x1000 → 0 ≤ i < 0x1000 ∧ 0 ≤ f i < 2 ^ 64).
  { intros f Hf i Hi%elem_of_seqZ. split; [lia|apply Hf; lia]. }
  destruct (fill_mapped PHYSICAL_OFFSET cpuid base 0x1000 pw (λ _, 0) (seqZ 0 0x1000) s1 Harr (NoDup_seqZ _ _)) as (m1 & H1' & _);
    [apply Hin; lia|].
  destruct (fill_mapped PHYSICAL_OFFSET cpuid base 0x1000 pw (λ i, i) (seqZ 0 0x1000) (with_mem m1 s1) Harr (NoDup_seqZ _ _))
    as (m2 & H2' & Hg); [apply Hin; lia|].
  destruct (print_lines_says n pa0 pw (seqZ 0 16) (with_mem m2 (with_mem m1 s1))) as (s' & E & A).
  - exact Hr.
  - exact Hn.
  - exact Hd.
  - exact Harr.
  - by apply Hap.
  - intros j Hj. change (get_word m2 (pw j) = j). rewrite Hg by done. by rewrite decide_True by (apply elem_of_seqZ; lia).
  - intros i Hi. split; [apply elem_of_seqZ in Hi; lia|by apply Hlen].
  - exists s'. split.
    + change (0x1000 / 256) with 16. rewrite <- E. rewrite (seqZ_cons 0 0x1000) in H1' |- * by lia.
      unfold mbind at 1, M_bind at 1. rewrite (fill_access _ _ base _ _ s s1 pa Ha Ha1), H1'.
      rewrite <- seqZ_cons by lia. by rewrite (bind_step _ _ _ _ _ H2').
    + rewrite <- (app_nil_r (reverse _)). eapply after_trans; [|exact A].
      rewrite <- (app_nil_r []). eapply after_trans; apply after_mem.
Qed.

(** What stays as it is until the array is touched. *)
Lemma after_keeps outs (s s' : St) :
  wf cpuid s.1 → spaces cpuid s.1 → after outs s s' →
  wf cpuid s'.1 ∧ spaces cpuid s'.1 ∧ running cpuid s'.1 = running cpuid s.1 ∧
  (∀ q, vm_of s'.1 q = vm_of s.1 q) ∧ pages s'.1 = pages s.1 ∧ root s'.1 = root s.1.
Proof.
  intros Hwf Hsp Ha. pose proof (after_silent _ _ _ Ha) as Hs. split_and!.
  - eapply sched_eq_wf; [by eapply silent_sched|done].
  - eapply still_spaces; [by eapply silent_still|done].
  - by destruct Ha as [m ->].
  - by destruct Ha as [m ->].
  - by destruct Ha as [m ->].
  - by destruct Ha as [m ->].
Qed.

Lemma room_after n pa outs (s s' : St) :
  after outs s s' → room PHYSICAL_OFFSET s.1 buf n pa → room PHYSICAL_OFFSET s'.1 buf n pa.
Proof. intros Ha [Hp Hd]. split; [|done]. intros i Hi. rewrite (after_physical _ _ _ _ Ha). by apply Hp. Qed.

(** The stack of the running process: mapped, aligned, above the start of the
    array, with nothing mapped below it there. *)
Record stack_ready (s : St) (cur : Z) (v : ProcessVm) : Prop := {
  sr_wf : wf cpuid s.1;
  sr_spaces : spaces cpuid s.1;
  sr_running : running cpuid s.1 = Some cur;
  sr_user : cur ≠ KERNEL_PID;
  sr_vm : vm_of s.1 cur = Some v;
  sr_stack : stack_wf (stack v);
  sr_mapped p : p ∈ stack_pages (stack v) → is_Some (mapping (pages s.1) (root s.1) p);
  sr_base : base `mod` 8 = 0 ∧ 0 ≤ base ∧ base + 0x8000 ≤ range_end (stack v);
  sr_free : base < range_start (stack v) → physical PHYSICAL_OFFSET s.1 base = None;
}.

(** The text of a line: [n] mapped bytes above the stack, and a descriptor that is open. *)
Record text_ready (s : St) (v : ProcessVm) (n : nat) : Prop := {
  tr_stdout : descriptor cpuid s.1 1 = Some (Console Stdout);
  tr_above : range_end (stack v) ≤ buf ∧ buf + Z.of_nat n ≤ 2 ^ 47;
  tr_mapped i : (i < n)%nat → is_Some (physical PHYSICAL_OFFSET s.1 (buf + Z.of_nat i));
}.

(** The stack of the process starts at the array's first page, and ends where it did. *)
Definition stack_reaches (v : ProcessVm) (v' : ProcessVm) : Prop :=
  stack_wf (stack v') ∧ range_end (stack v') = range_end (stack v) ∧
  range_start (stack v') = Z.min (base - base `mod` PAGE) (range_start (stack v)).

(** What the first access has done, from a state in which no page of [s] has changed. *)
Record grown (s s0 s1 : St) (cur : Z) (v v' : ProcessVm) (pa : Z) : Prop := {
  gr_access : access base USER_WRITE s0 = Done (pa, s1) ∧ access base USER_WRITE s1 = Done (pa, s1);
  gr_no_alias : Elf.no_alias mapping (root s1.1) (pages s1.1);
  gr_root : root s1.1 = root s.1;
  gr_data : data s1.1 = data s0.1;
  gr_descriptor fd : descriptor cpuid s1.1 fd = descriptor cpuid s.1 fd;
  gr_kept q x : mapping (pages s.1) (root s.1) q = Some x → mapping (pages s1.1) (root s.1) q = Some x;
  gr_vm : vm_of s1.1 cur = Some v';
  gr_stack : stack_reaches v v';
  gr_mapped p : p ∈ stack_pages (stack v') → is_Some (mapping (pages s1.1) (root s1.1) p);
}.

Lemma grows_after (s s0 : St) cur v outs :
  stack_ready s cur v → is_Some PHYSICAL_OFFSET → after outs s s0 →
  (∃ pa s1, access base USER_WRITE s0 = Done (pa, s1) ∧ Elf.no_alias mapping (root s1.1) (pages s1.1)) →
  ∃ s1 v' pa, grown s s0 s1 cur v v' pa.
Proof.
  intros [Hwf Hsp Hr Hpid Hvm Hst Hmap (Hb8 & Hb0 & Hbe) Hfree] Hoff Ha (pa & s1 & E & Hna).
  destruct (after_keeps _ _ _ Hwf Hsp Ha) as (Hwf0 & Hsp0 & Hr0 & Hvm0 & Hpt & Hroot).
  destruct (access_grows mapping PHYSICAL_OFFSET cpuid base s0 cur v pa s1)
    as (E1 & Hc & Hua & Hdt & _ & Hds & Hk & v' & Hv' & Hst' & Hre & Hrs & Hmap');
    try done; [by rewrite Hr0|by rewrite Hvm0|lia|by rewrite Hpt, Hroot|by rewrite (after_physical _ _ _ _ Ha)|].
  rewrite Hpt, Hroot, Hc, Hroot in Hk. exists s1, v', pa.
  split; [done|done|by rewrite Hc, Hroot|done| |done|done|done|done].
  intros fd. by rewrite Hds, (after_descriptor _ _ _ _ Ha).
Qed.

(** The text stays where it was. *)
Lemma room_grown off (s s0 s1 : St) cur v v' pa n :
  PHYSICAL_OFFSET = Some off → text_ready s v n → 0 ≤ buf → grown s s0 s1 cur v v' pa →
  room PHYSICAL_OFFSET s.1 buf n (buf_at s.1) ∧ room PHYSICAL_OFFSET s1.1 buf n (buf_at s.1).
Proof.
  intros Hoff [_ [_ Hend] Hm] Hb [_ Hna Hroot _ _ Hk _ _ _]. rewrite Hroot in Hna.
  pose proof (buffer_room off Hoff s.1 (pages s1.1) Hk Hna n Hb Hend Hm) as Hroom. split; [done|]. split; [|by apply Hroom].
  intros i Hi. destruct (buf_at_page off Hoff s.1 n Hb Hend Hm i Hi) as (x & Hx & _ & Ex).
  apply (physical_page off); [done|lia|]. exists x. rewrite Hroot. split; [by apply Hk|done].
Qed.

(** The three lines before the array. *)
Lemma hello_begins n pa (s : St) :
  room PHYSICAL_OFFSET s.1 buf n pa → Z.of_nat n < 2 ^ 63 → descriptor cpuid s.1 1 = Some (Console Stdout) →
  Forall (λ text, (bytes_said text ≤ n)%nat) hello_text →
  ∃ s1 s2 s3, println (chars "Hello, world!!!") s = Done ((), s1) ∧
    println (chars "Now at: " ++ show_time (User.time_of (as_usize clock_nanos))) s1 = Done ((), s2) ∧
    println (chars "Huge stack testing...") s2 = Done ((), s3) ∧
    after (reverse (said <$> take 3 hello_text)) s s3.
Proof.
  intros Hroom Hn Hd Hlen. unfold hello_text in Hlen. rewrite !Forall_app, !Forall_cons in Hlen.
  destruct Hlen as ((L1 & L2 & L3 & _) & _).
  destruct (println_says (chars "Hello, world!!!") n pa s Hroom L1 Hn Hd) as (s1 & E1 & A1 & _).
  destruct (println_says (chars "Now at: " ++ show_time (User.time_of (as_usize clock_nanos))) n pa s1)
    as (s2 & E2 & A2 & _); [by eapply room_after|done|done|by rewrite (after_descriptor _ _ _ _ A1)|].
  pose proof (after_trans _ _ _ _ _ A1 A2) as A12.
  destruct (println_says (chars "Huge stack testing...") n pa s2)
    as (s3 & E3 & A3 & _); [by eapply room_after|done|done|by rewrite (after_descriptor _ _ _ _ A12)|].
  exists s1, s2, s3. split_and!; [done..|]. exact (after_trans _ _ _ _ _ A12 A3).
Qed.

(** C18: [app/hello], from its first line to its last, as the process that runs on
    the kernel.  Its stack is mapped, aligned, and has nothing mapped below it where the
    array starts; its first descriptor is still open on the standard output, and the text of a
    line lies above the stack.  If the page fault handler finds the frames to grow
    the stack down to the array, [main] comes to 233, the console has got the
    program's twenty lines in their order, and the stack of the process starts at
    the array's first page, with its end where it was. *)
Theorem hello_prints (s : St) cur v (n : nat) :
  is_Some PHYSICAL_OFFSET → stack_ready s cur v → text_ready s v n →
  Forall (λ text, (bytes_said text ≤ n)%nat) hello_text →
  (∀ outs s', after outs s s' → ∃ pa s1, access base USER_WRITE s' = Done (pa, s1) ∧
     Elf.no_alias mapping (root s1.1) (pages s1.1)) →
  ∃ s', hello_main s = Done (233, s') ∧
    output (io (data s'.1)) = reverse (said <$> hello_text) ++ output (io (data s.1)) ∧
    ∃ v', vm_of s'.1 cur = Some v' ∧ stack_reaches v v'.
Proof.
  intros [off Hoff] Hs Ht Hlen Hacc. pose proof Hs as [_ _ _ _ _ Hst _ (Hb8 & Hb0 & Hbe) _]. pose proof Ht as [Hd [Hba Hbend] Hbm].
  pose proof Hst as (_ & _ & Hbd & He & _).
  destruct (grows_after s s cur v [] Hs ltac:(by eexists) (after_refl s) (Hacc _ _ (after_refl s))) as (t & u & pa0 & G0).
  destruct (room_grown off _ _ _ _ _ _ _ n Hoff Ht ltac:(lia) G0) as [Hroom _].
  destruct (hello_begins n (buf_at s.1) s Hroom ltac:(lia) Hd Hlen) as (s1 & s2 & s3 & E1 & E2 & E3 & A3).
  destruct (grows_after s s3 cur v _ Hs ltac:(by eexists) A3 (Hacc _ _ A3)) as (s4 & v' & pa & G).
  destruct (room_grown off _ _ _ _ _ _ _ n Hoff Ht ltac:(lia) G) as [_ Hroom4].
  destruct G as [[E4 E4'] Hna Hroot Hdt Hds Hk Hv' Hsr Hmap']. pose proof Hsr as ((Hal & Hae & Hbd' & He' & _) & Hre & Hrs).
  destruct (page_base_bounds base Hb0) as [_ Hpb].
  rewrite Forall_forall in Hlen.
  destruct (array_says n (buf_at s.1) (range_start (stack v')) (range_end (stack v')) off s3 s4 pa E4 E4' Hoff Hal Hae
    ltac:(lia) ltac:(unfold PAGE in *; lia) Hb8 ltac:(lia) ltac:(lia) Hmap' Hna Hroom4 ltac:(lia)) as (s5 & E5 & A5).
  { by rewrite Hds. }
  { intros pw Hpw. rewrite Hroot in Hna.
    by apply (array_apart off Hoff s.1 (pages s4.1) Hk Hna n ltac:(lia) Hbend Hbm pw s4 (range_end (stack v))). }
  { intros i Hi. apply Hlen. unfold hello_text. apply elem_of_app. right. apply elem_of_app. left. by apply list_elem_of_fmap_2. }
  destruct (println_says (chars "Exiting...") n (buf_at s.1) s5) as (s6 & E6 & A6 & _);
    [by eapply room_after| |lia|by rewrite (after_descriptor _ _ _ _ A5), Hds|].
  { apply Hlen. unfold hello_text. apply elem_of_app. right. apply elem_of_app. right. by left. }
  pose proof (after_trans _ _ _ _ _ A5 A6) as A46. exists s6. split; [|destruct A46 as [m6 ->]; split; [|by exists v']].
  - unfold Hello.hello_main. rewrite (bind_step _ _ _ _ _ E1), (bind_step _ _ _ _ _ (call_time s1)), (bind_step _ _ _ _ _ E2).
    unfold Hello.huge_stack. cbv zeta. rewrite (bind_step _ _ s2 () s5) by (by rewrite (bind_step _ _ _ _ _ E3)).
    by rewrite (bind_step _ _ _ _ _ E6).
  - cbn [data set_io set_data io output fst]. rewrite Hdt. destruct A3 as [m3 ->]. cbn [data set_io set_data io output fst].
    by rewrite (assoc_L (++)).
Qed.

End Run.

(** ** An example: the spawned process of [Spaces], whose stack is one page, with a page
    for its texts *)

Section HelloWitnesses.
#[local] Existing Instance x86_ref.
#[local] Existing Instance release.

Definition hello_base : Z := STACK_MAX - 0x8010.
Definition hello_buf : Z := STACK_MAX + 8.

Definition with_text_page (s : Kernel table queue * Z) : Kernel table queue * Z :=
  let m := kmem s.1 in
  (set_kmem (mkMem (mkMachine (<[(0x10000, STACK_MAX) := (0x20000, 7)]> (tables (machine m))) (falloc (machine m))
     (Elf.mem (machine m))) (arcs m) (ends m) (cr3 m)) s.1, s.2).

Lemma with_text_page_still s : sched_eq s.1 (with_text_page s).1 ∧ still 0 s.1 (with_text_page s).1.
Proof. by split; split_and!. Qed.

Definition hello_start : Kernel table queue * Z := with_text_page app_runs.

Lemma hello_good : wf 0 hello_start.1 ∧ spaces 0 hello_start.1.
Proof.
  destruct (reachable_good offset_example 0 (8, 16) 0 layout_example [] app_boot app_started () 0 app_runs
    app_boot_pristine app_boot_started app_runs_reached) as [[Hwf _] Hsp].
  destruct (with_text_page_still app_runs) as [He Hs]. split.
  - by eapply sched_eq_wf.
  - by eapply still_spaces.
Qed.

Lemma hello_mapped p :
  p ∈ stack_pages stack_example →
  is_Some (table_mapping (tables (machine (kmem hello_start.1))) (addr (cr3 (kmem hello_start.1))) p).
Proof.
  assert (stack_pages stack_example = [STACK_INIT_BOT]) as -> by (vm_compute; reflexivity).
  intros ->%list_elem_of_singleton. eexists. vm_compute. reflexivity.
Qed.

Lemma hello_stack_ready : stack_ready table_mapping offset_example 0 hello_base hello_start 2 app_runs_vm.
Proof.
  destruct hello_good as [Hwf Hsp].
  split; [exact Hwf|exact Hsp|vm_compute; reflexivity|discriminate|vm_compute; reflexivity|exact stack_example_wf|exact hello_mapped| |].
  - split_and!; [reflexivity|discriminate|discriminate].
  - intros _. vm_compute. reflexivity.
Qed.

Lemma hello_text_ready : text_ready offset_example 0 hello_buf hello_start app_runs_vm 40.
Proof.
  split; [vm_compute; reflexivity|split; discriminate|]. intros i Hi.
  assert (Hall : forallb (λ i, bool_decide (is_Some (physical offset_example hello_start.1 (hello_buf + Z.of_nat i)))) (seq 0 40) = true)
    by (vm_compute; reflexivity).
  rewrite forallb_forall in Hall. specialize (Hall i). rewrite bool_decide_eq_true in Hall. apply Hall, in_seq. lia.
Qed.

(** Whatever was printed and stored before, the fault finds its frames. *)
Lemma hello_access outs s :
  after outs hello_start s →
  ∃ pa s1, access offset_example 0 hello_base USER_WRITE s = Done (pa, s1) ∧
    Elf.no_alias table_mapping (addr (cr3 (kmem s1.1))) (tables (machine (kmem s1.1))).
Proof.
  intros [m ->]. eexists _, _. split.
  - apply (value_state _ _ hello_start). vm_compute. reflexivity.
  - apply (direct_map_okb_ok 0). vm_compute. reflexivity.
Qed.

(** One fault gives the stack its eight other pages. *)
Lemma hello_prints_witness :
  ∃ s, hello_main offset_example 0 (8, 16) 1700000000000000000 layout_example (λ t, show 10 t.1) (regs_example 0) hello_buf hello_base
         hello_start = Done (233, s) ∧
    output (io (data s.1)) =
      reverse (said <$> hello_text 1700000000000000000 (λ t, show 10 t.1)) ++ output (io (data hello_start.1)) ∧
    ∃ v, vm_of s.1 2 = Some v ∧ stack_wf (stack v) ∧ range_end (stack v) = STACK_MAX - STACK_DEF_SIZE + STACK_DEF_SIZE ∧
      range_start (stack v) = Z.min (hello_base - hello_base `mod` PAGE) STACK_INIT_BOT.
Proof.
  apply (hello_prints table_mapping offset_example 0 (8, 16) 1700000000000000000 layout_example (λ t, show 10 t.1) (regs_example 0)
    hello_buf hello_base hello_start 2 app_runs_vm 40).
  - by eexists.
  - exact hello_stack_ready.
  - exact hello_text_ready.
  - repeat (constructor; [vm_compute; lia|]). constructor.
  - exact hello_access.
Defined.

End HelloWitnesses.
