(* ===== verification/BrkApp.v ===== *)
(** The program [pkg/app/brk] on the kernel: it prints, asks for the end of its heap, moves
    it up by 0x1000, and checks the answer.  As for [Hello], the address at which the allocator of the
    program puts each text is an argument; that the memory allocated for a text is given back
    afterwards is left out. *)
From S2P Require Import Prelude Arch Pid Sync Frames Elf Stack Heap Vm Context Resource Data Process Manager Syscall.
From S2P Require Import Scheduler KernelExample RoundRobin Lifecycle Dispatch Reachable SyscallFacts Text Effects Spaces Exit Teardown UserLib Runtime UserPrint Hello.
From stdpp Require Import strings.
#[local] Open Scope Z_scope.

Section Brk.
Context `{Profile} `{!X86_64} `{!X86_64_Laws _} {PT Q UA : Type} `{!Mapper PT} `{!ArrayQueue Q} `{!UserAllocator UA}.
Context (mapping : PT → Z → Z → option (Z * Z)) `{!Mapper_Laws PT mapping}.
Context (PHYSICAL_OFFSET : option Z) (cpuid : nat) (selector : Z * Z) (clock_nanos : Z).
Context (Layout_of : list Z → Z * Z).
#[local] Abbreviation K := (Kernel PT Q).
#[local] Abbreviation St := (Kernel PT Q * UA)%type.
#[local] Abbreviation wf := (wf cpuid).
#[local] Abbreviation call := (call (PT := PT) (Q := Q) (UA := UA) PHYSICAL_OFFSET cpuid selector clock_nanos Layout_of).
#[local] Abbreviation own_heap := (own_heap (PT := PT) (Q := Q) mapping cpuid).

(** The registers of the program, and where its texts are put. *)
Context (ctx : ProcessContext) (buf : Z).
#[local] Abbreviation println :=
  (println (PT := PT) (Q := Q) (UA := UA) PHYSICAL_OFFSET cpuid selector clock_nanos Layout_of ctx buf).

(** The program's [unwrap], [expect] and [assert!] end it. *)
Definition or_panic {A} (o : option A) (f : A → M St end_of_main) : M St end_of_main :=
  match o with Some a => f a | None => mret Panicked end.

(** [x + y] of [usize] *)
Definition add_usize (x y : Z) : option Z :=
  if x + y <? 2 ^ 64 then Some (x + y) else if debug_assertions then None else Some (wrap 64 (x + y)).

(** [{:#x}] *)
Definition hex (n : Z) : str := chars "0x" ++ show 16 n.

Definition brk_main : M St end_of_main :=
  println (chars "hello, this is a brk test!");;
  r ← call (User.sys_brk None) ctx;
  or_panic (User.brk_of r) (λ heap_start,
  println (chars "Heap start: " ++ hex heap_start);;
  or_panic (add_usize heap_start 0x1000) (λ heap_end,
  println (chars "Heap end: " ++ hex heap_end);;
  r ← call (User.sys_brk (Some heap_end)) ctx;
  or_panic (User.brk_of r) (λ ret,
  if ret =? heap_end then mret (Returned 0) else mret Panicked))).

(** ** Printing and the heap *)

(** Mapping does not depend on the contents of memory. *)
Lemma map_loop_mem root fl pages (t : Machine PT BootInfoFrameAllocator) m r t' :
  map_loop root fl pages t = Done (r, t') →
  map_loop root fl pages (mkMachine (tables t) (falloc t) m) = Done (r, mkMachine (tables t') (falloc t') m).
Proof.
  revert t. induction pages as [|p pages IH]; intros t Hl; cbn [map_loop] in *; [by inv_done|].
  apply bind_Done in Hl as (o & t1 & Ha & Hl). unfold alloc_frame in Ha.
  destruct (allocate_frame (falloc t)) as [[o' a]| |] eqn:E; [|done..]. injection Ha as <- <-.
  rewrite (bind_step _ _ _ o' (mkMachine (tables t) a m)) by (unfold alloc_frame; simpl; by rewrite E).
  destruct o' as [f|]; [|by inv_done].
  apply bind_Done in Hl as (x & t2 & Hm & Hl). unfold page_map_to in Hm. simpl in Hm.
  destruct (map_to root p f fl (tables t) a) as [[[x' pt] a']| |] eqn:Em; [|done..]. injection Hm as <- <-.
  rewrite (bind_step _ _ _ x' (mkMachine pt a' m)) by (unfold page_map_to; simpl; by rewrite Em).
  destruct x' as [[]|e]; [by apply IH in Hl|by inv_done].
Qed.

Lemma after_own_heap o (s s' : St) cur p v reg e : after o s s' → own_heap s.1 cur p v reg e → own_heap s'.1 cur p v reg e.
Proof. intros [m ->] [H1 H2 H3 H4 H5 H6 H7]. by constructor. Qed.

Lemma after_wf o (s s' : St) : after o s s' → wf s.1 → wf s'.1.
Proof. intros Ha Hw. apply (after_silent PHYSICAL_OFFSET cpuid) in Ha. apply silent_sched in Ha. by eapply sched_eq_wf. Qed.

(** The lines of a run whose heap ends at [e]. *)
Definition brk_text (e : Z) : list str :=
  [chars "hello, this is a brk test!"; chars "Heap start: " ++ hex e; chars "Heap end: " ++ hex (e + 0x1000)].

(** A line, from any state of the run before the heap moves. *)
Lemma says n pa text outs (s s1 : St) :
  room PHYSICAL_OFFSET s.1 buf n pa → (bytes_said text ≤ n)%nat → Z.of_nat n < 2 ^ 63 →
  descriptor cpuid s.1 1 = Some (Console Stdout) → after outs s s1 →
  (∀ x, (∀ i, (i < n)%nat → x ≠ pa i) → Elf.mem (machine (kmem s1.1)) x = Elf.mem (machine (kmem s.1)) x) →
  ∃ s2, println text s1 = Done ((), s2) ∧ after (said text :: outs) s s2 ∧
    ∀ x, (∀ i, (i < n)%nat → x ≠ pa i) → Elf.mem (machine (kmem s2.1)) x = Elf.mem (machine (kmem s.1)) x.
Proof.
  intros [Hr Hi] Hl Hn Hd Ha Hm.
  destruct (println_says PHYSICAL_OFFSET cpuid selector clock_nanos Layout_of ctx buf text n pa s1) as (s2 & E & A & M);
    [|done|done|by rewrite (after_descriptor _ _ _ _ _ Ha)|].
  { split; [|done]. intros i Hin. rewrite (after_physical _ _ _ _ _ Ha). by apply Hr. }
  exists s2. split; [exact E|]. split; [exact (after_trans _ _ _ _ _ Ha A)|].
  intros x Hx. by rewrite (M x Hx), (Hm x Hx).
Qed.

(** C19: [brk]'s program on a process whose heap is well formed and not full, with its standard output
    open and room for its texts.  It comes to an end when the mapping of the missing pages does, with or
    without an error.  The console has been given its three lines, the old end of the heap and the
    one it asks for among them.  It ends with 0, and then its heap ends
    0x1000 bytes higher with exactly the missing pages mapped for it, or, when
    a page could not be mapped, with a panic of the program (not of the kernel), and its heap ends where
    it did.  Nothing else of the kernel changes, and no memory but that of the texts. *)
Theorem brk_app (s : St) cur p v reg e n pa :
  wf s.1 → own_heap s.1 cur p v reg e → (∀ off, PHYSICAL_OFFSET = Some off → 0 ≤ addr reg + off < 2 ^ 64) →
  is_Some PHYSICAL_OFFSET → e + 0x1000 ≤ HEAP_START + HEAP_SIZE →
  (∃ x, map_loop (addr reg) (map_flags true) (pages_between (heap_top e) (heap_top (e + 0x1000)))
          (machine (kmem s.1)) = Done x) →
  room PHYSICAL_OFFSET s.1 buf n pa → Z.of_nat n < 2 ^ 63 → Forall (λ text, (bytes_said text ≤ n)%nat) (brk_text e) →
  descriptor cpuid s.1 1 = Some (Console Stdout) →
  ∃ r s1 e' t, brk_main s = Done (r, (with_heap v e' t s1.1, s1.2)) ∧
    after (reverse (said <$> brk_text e)) s s1 ∧ Elf.mem t = Elf.mem (machine (kmem s1.1)) ∧
    (∀ x, (∀ i, (i < n)%nat → x ≠ pa i) → Elf.mem t x = Elf.mem (machine (kmem s.1)) x) ∧
    (r = Panicked ∧ e' = e ∨
     r = Returned 0 ∧ e' = e + 0x1000 ∧ heap_wf mapping (addr reg) (tables t) e' ∧
     ∃ fs, mapped_exactly mapping (addr reg) (map_flags true) (pages_between (heap_top e) (heap_top e'))
             fs (tables (machine (kmem s.1))) (tables t)).
Proof.
  intros Hwf Ho Hoff Hs Hroom [[x tx] Hret] Hbuf Hn Hlen Hdesc. pose proof (oh_wf _ _ _ _ _ _ _ _ Ho) as Hh. destruct (Hh) as [Hr _].
  apply Forall_cons in Hlen as [Hl1 Hlen]. apply Forall_cons in Hlen as [Hl2 Hlen]. apply Forall_cons in Hlen as [Hl3 _].
  assert (He : 0 < e < 2 ^ 47 - 0x2000).
  { unfold heap_range, HEAP_SIZE, HEAP_PAGES, PAGE_SIZE, HEAP_START in *. lia. }
  destruct (says n pa _ _ s s Hbuf Hl1 Hn Hdesc (after_refl s) (λ _ _, eq_refl)) as (s1 & E1 & A1 & M1).
  destruct (says n pa _ _ s s1 Hbuf Hl2 Hn Hdesc A1 M1) as (s2 & E2 & A2 & M2).
  destruct (says n pa _ _ s s2 Hbuf Hl3 Hn Hdesc A2 M2) as (s3 & E3 & A3 & M3).
  pose proof (after_own_heap _ _ _ _ _ _ _ _ A1 Ho) as Ho1. pose proof (after_own_heap _ _ _ _ _ _ _ _ A3 Ho) as Ho3.
  assert (Hb0 : HeapOps.brk (addr reg) HEAP_START None (e, machine (kmem s1.1)) = Done (Some e, (e, machine (kmem s1.1)))).
  { unfold HeapOps.brk, HeapOps.load_end. rewrite (bind_step _ _ _ e (e, machine (kmem s1.1))) by done.
    by rewrite VirtAddr_new_heap by done. }
  assert (H1 : HEAP_START ≤ e + 0x1000 ≤ HEAP_START + HEAP_SIZE) by (unfold heap_range in Hr; lia).
  assert (Hret3 : ∃ x, map_loop (addr reg) (map_flags true) (pages_between (heap_top e) (heap_top (e + 0x1000))) (machine (kmem s3.1)) = Done x).
  { destruct A3 as [m ->]. eexists. exact (map_loop_mem _ _ _ _ m _ _ Hret). }
  assert (Htab : tables (machine (kmem s3.1)) = tables (machine (kmem s.1))) by (by destruct A3 as [m ->]).
  destruct (brk_grows (addr reg) e (e + 0x1000) (machine (kmem s3.1)) Hr H1 ltac:(lia) Hret3) as [[r1 [e1 t1]] Hb].
  pose proof (brk_Done mapping _ (Some (e + 0x1000)) _ _ _ _ _ (oh_wf _ _ _ _ _ _ _ _ Ho3) ltac:(intros n' [= <-]; lia) Hb) as Hres.
  unfold brk_main. rewrite (bind_step _ _ _ _ _ E1). rewrite (bind_step _ _ s1 e s1); cycle 1.
  { rewrite (call_brk mapping PHYSICAL_OFFSET cpuid selector clock_nanos Layout_of None ctx s1 cur p v reg e (Some e) e (machine (kmem s1.1)));
      [|by eapply after_wf|done..]. rewrite with_heap_same by apply Ho1. by destruct s1. }
  assert (Hbo : ∀ x, 0 ≤ x < 2 ^ 47 → User.brk_of x = Some x).
  { intros y Hy. unfold User.brk_of, u64_max. by rewrite (proj2 (Z.eqb_neq _ _)) by lia. }
  rewrite Hbo by lia. cbn [or_panic]. rewrite (bind_step _ _ _ _ _ E2).
  unfold add_usize. rewrite (proj2 (Z.ltb_lt _ _)) by lia. cbn [or_panic]. rewrite (bind_step _ _ _ _ _ E3).
  rewrite (bind_step _ _ s3 (default u64_max r1) (with_heap v e1 t1 s3.1, s3.2)); cycle 1.
  { apply (call_brk mapping PHYSICAL_OFFSET cpuid selector clock_nanos Layout_of (Some (e + 0x1000)) ctx s3 cur p v reg e r1 e1 t1); try done.
    - by eapply after_wf.
    - intros y [= <-]. split; [lia|left; lia]. }
  rewrite Htab in Hres.
  destruct Hres as [(Hno & _)|[(_ & -> & -> & Hm & Hwf' & Hfs)|(_ & -> & -> & Hm)]]; [done| |].
  - simpl. rewrite Hbo by lia. cbn [or_panic]. rewrite Z.eqb_refl. exists (Returned 0), s3, (e + 0x1000), t1.
    split_and!; [done|exact A3|exact Hm|intros y Hy; rewrite Hm; by apply M3|right; by split_and!].
  - exists Panicked, s3, e, t1. split_and!; [done|exact A3|exact Hm|intros y Hy; rewrite Hm; by apply M3|by left].
Qed.

End Brk.

(** ** An example: the process of [Hello] runs [brk] *)

Section BrkWitnesses.
#[local] Existing Instance x86_ref.
#[local] Existing Instance release.

Definition brk_proc : Process :=
  default (mkProcess 0 (inner_example Running 0 0 stack_example)) (lookup_proc hello_start.1 2).
Definition brk_at (i : nat) : Z := default 0 offset_example + 0x20008 + Z.of_nat i.

Lemma brk_heap_wf : heap_wf table_mapping 0x10000 (tables (machine (kmem hello_start.1))) HEAP_START.
Proof.
  split; [unfold heap_range, HEAP_SIZE, HEAP_PAGES, PAGE_SIZE; lia|]. intros p Hp.
  replace (heap_pages HEAP_START) with (@nil Z) by (vm_compute; reflexivity).
  apply elem_of_heap_pages in Hp as [_ Hp]; [|apply heap_limit_range].
  replace (tables (machine (kmem hello_start.1))) with
    (<[(0x10000, STACK_MAX) := (0x20000, 7)]>
      (<[(0x10000, 0x401000) := (0x11000, 9223372036854775815)]> {[(0x10000, STACK_INIT_BOT) := (0x12000, 7)]}) : table)
    by (vm_compute; reflexivity).
  assert (Hb : heap_top (HEAP_START + HEAP_SIZE) = HEAP_START + HEAP_SIZE + PAGE) by (vm_compute; reflexivity).
  rewrite Hb in Hp. unfold table_mapping, STACK_INIT_BOT, STACK_MAX, STACK_DEF_SIZE, STACK_DEF_PAGE, PAGE, HEAP_START, HEAP_SIZE, HEAP_PAGES, PAGE_SIZE in *.
  rewrite !lookup_insert_ne, lookup_singleton_ne by (intros [= <-]; lia).
  split; [by intros [x [=]]|by intros ?%elem_of_nil].
Qed.

Lemma brk_own_heap :
  own_heap table_mapping 0 hello_start.1 2 brk_proc app_runs_vm (mkCr3 0x10000 0) HEAP_START.
Proof.
  constructor; [vm_compute; reflexivity..|eexists; vm_compute; reflexivity|reflexivity|vm_compute; reflexivity|].
  exact brk_heap_wf.
Qed.

Lemma brk_offset off : offset_example = Some off → 0 ≤ 0x10000 + off < 2 ^ 64.
Proof. intros [= <-]. lia. Qed.

Lemma brk_maps :
  ∃ x, map_loop 0x10000 (map_flags true) (pages_between (heap_top HEAP_START) (heap_top (HEAP_START + 0x1000)))
    (machine (kmem hello_start.1)) = Done x.
Proof. eexists (_, _). apply (value_state _ _ (machine (kmem hello_start.1))). vm_compute. reflexivity. Qed.

Lemma brk_room : room offset_example hello_start.1 hello_buf 40 brk_at.
Proof.
  split; [|unfold brk_at; intros i j _ _; lia]. intros i Hi.
  assert (Hall : forallb (λ i, bool_decide (physical offset_example hello_start.1 (hello_buf + Z.of_nat i) = Some (brk_at i))) (seq 0 40) = true)
    by (vm_compute; reflexivity).
  rewrite forallb_forall in Hall. specialize (Hall i). rewrite bool_decide_eq_true in Hall. apply Hall, in_seq. lia.
Qed.

(** 0x1000 bytes cost two pages: the page of the end belongs to the heap. *)
Lemma brk_app_witness :
  ∃ r s1 e' t, brk_main offset_example 0 (8, 16) 0 layout_example (regs_example 3) hello_buf hello_start =
    Done (r, (with_heap app_runs_vm e' t s1.1, s1.2)) ∧
    output (io (data s1.1)) = [said (chars "Heap end: 0x200000001000"); said (chars "Heap start: 0x200000000000");
      said (chars "hello, this is a brk test!")] ++ output (io (data hello_start.1)) ∧
    pages_between (heap_top HEAP_START) (heap_top (HEAP_START + 0x1000)) = [HEAP_START; HEAP_START + 0x1000].
Proof.
  destruct (brk_app table_mapping offset_example 0 (8, 16) 0 layout_example (regs_example 3) hello_buf hello_start 2 brk_proc
    app_runs_vm (mkCr3 0x10000 0) HEAP_START 40 brk_at (proj1 hello_good) brk_own_heap brk_offset)
    as (r & s1 & e' & t & Hm & Ha & _).
  - by eexists.
  - unfold HEAP_SIZE, HEAP_PAGES, PAGE_SIZE. lia.
  - exact brk_maps.
  - exact brk_room.
  - lia.
  - repeat (constructor; [vm_compute; lia|]). constructor.
  - vm_compute. reflexivity.
  - exists r, s1, e', t. split; [exact Hm|]. split; [|vm_compute; reflexivity]. destruct Ha as [m ->].
    vm_compute. reflexivity.
Defined.

End BrkWitnesses.
